(* ===== verification/_CoqProject ===== *)
-Q . S2P
Prelude.v
Bitmap.v
FrameAlloc.v
Memory.v
Heap.v
Paging.v
SelfCheck.v
Abi.v
RingBuffer.v
Pipe.v
FdTable.v
Process.v
Cow.v
Scheduler.v
Path.v
Perm.v
TmpFs.v
Bytes.v
Block.v
Utf8.v
UserMem.v
Switch.v
Spinlock.v
Vga.v
Platform.v
ExecStack.v
Elf.v
Spaces.v
Build.v
Ps2.v
Tty.v
Packets.v
Net.v
Dns.v
VirtioPci.v
DiskFs.v
MkDiskImg.v
HomeFs.v
HomeSync.v
HomeFiles.v
HomeDirs.v
Ata.v
Fat32.v
Mount.v
Vfs.v
Kernel.v
Dispatch.v
Demo.v
Steps.v
Isolation.v
Safety.v
Calls.v
Userland.v
UserKernel.v
Entry.v
Boot.v
