(* ===== verification/Prelude.v ===== *)
(** * PandaOS: a verification of the kernel, its file systems and its tools

    PandaOS is a small operating system for x86-64 written in Rust: a kernel
    (src/kernel/src), a hardware abstraction layer (src/hal/src), assembly
    programs (src/userland) and Python scripts that make disk images
    (src/scripts).  A process enters the kernel by a system call;
    [usermode.rs] saves its registers, [syscall.rs] dispatches the call to a
    handler of [main.rs], and the handler works on the process table and the
    scheduler, the address spaces, the descriptor table and the file systems,
    the pipes, the terminal and the network.  The timer interrupt asks for the
    processor to be given away at the end of a call; page faults copy shared
    pages and supply missing ones; the keyboard interrupt feeds the terminal.

    The development is a shallow embedding: every function of the sources that
    is modelled is a Rocq function of the same name, on records and inductive
    types with the fields and constructors of the sources, and the theorems are
    about these functions.  Everything is executable, and the examples
    evaluate.

    ** How the code is represented

    This file has the vocabulary.  [outcome] is a computation that may panic:
    an assertion, an index out of range, an arithmetic overflow or a reference
    that is not aligned (the checks of the development profile are on).  [result] is Rust's [Result].
    Code that threads state and errors through many calls is in the monad
    [stm S E T], which keeps the state at an error as the code does; [hoare] and
    [leads] are its program logics, for invariants and for exact runs.
    Integers are [Z] or [nat] with wrapping, truncation and checks written where
    the code has them.  Bytes are [Z] between 0 and 255.  Traits and other
    boundaries between components are type classes, with the laws the client
    relies on in a second class; what is not code of the repository (a disk, a
    controller, a network card, the clock) is a parameter of this kind.

    ** Memory

    - [Bitmap] (hal/bitmap.rs), [FrameAlloc] (hal/memory.rs: reserved regions,
      allocation, reference counts), [Memory] (memory.rs, linker_symbols.rs: the
      boot memory map and the global allocator, an instance of the class
      [FrameSource]), [Heap] (heap.rs: the frames of the kernel heap).
      Theorems: the first free frame that is not reserved is allocated, nothing
      else changes, two owners never get the same frame; which frames boot
      leaves free; the heap region is owned when its frames are consecutive.
    - [Paging] (paging.rs, page_table_tracker.rs): page tables as words of
      physical memory.  [map_page] changes the translation of one page and of
      no other, as a function of all addresses, and takes its frames from the
      allocator.
    - [Cow] (interrupts.rs, paging.rs, process.rs): copy-on-write.  Cloning
      an address space gives the child the translation of the parent, every
      writable user page shared and read-only in both; a write fault isolates
      the writer.
    - [UserMem] (usermode.rs), [Spaces]: the memory of a process as the
      handlers use it.  The class [Spaces] has two instances, page tables with
      page faults and plain maps of bytes.  The handlers fetch and store through
      it; a fetch or a store through the tables, where the fault handler may map
      a page or panic, refines one in the map.
    - [Elf], [ExecStack] (elf.rs, exec_stack.rs): an accepted file is within
      bounds, a loaded segment is in memory byte by byte, and a program reads
      back the arguments that execve wrote.  [Build] (process.rs): a program
      that was loaded is still in memory once the stacks are allocated.

    ** Processes

    - [Process] (process.rs, context.rs, hal/pid.rs), [Scheduler]
      (scheduler.rs): at most one process runs and each process is in one place,
      whatever the sequence of operations; a ready process runs within as many
      switches as there are processes before it.
    - [Switch] (context_switch.rs, interrupt_frame.rs): the assembly of a
      switch, instruction by instruction.  [Entry] (usermode.rs), on the same
      machine: the assembly of the entry and exit of a system call, which
      implements [syscall_entry] of [Dispatch], the switch to a program and the
      first entry to user mode.  [Spinlock] (spinlock_irq.rs): the locks on
      several processors with interrupts, as a step relation; mutual exclusion.

    ** Files

    - [Path], [Perm], [FdTable], [Vfs] (fs.rs), [Pipe] (pipe.rs), [RingBuffer]
      (hal/ringbuffer.rs), [Mount] (mount.rs), [TmpFs] (tmpfs.rs): paths,
      permissions, descriptors and the files behind them.  Pipes are queues of
      bytes, and the counts of their ends are the descriptors that hold them;
      an open that succeeds had the permissions it asked for; every entry of a
      tmpfs directory names a node, every node but the root has one entry, so
      that it is a tree as long as no directory is moved into itself, and the
      operations change the paths they name.
    - [Block] (hal/block.rs), [Ata] (hal/ata.rs): disks as a class, and the
      driver, port by port, which implements it on a drive that answers in time
      and may fail or give up on others.
    - [DiskFs] (diskfs.rs) with [MkDiskImg] (scripts/mkdiskimg.py), [HomeFs]
      (homefs.rs) with [HomeSync], [HomeFiles] and [HomeDirs]
      (and scripts/mkhomefs.py), [Fat32] (fat32.rs): the file systems on any
      disk.  Files of a built image are read back; the writable file system
      finds its state on the disk again after any history, also after a failed
      operation, and what is written is read; every operation of a mounted FAT32
      driver returns, whatever the image, as far as the heap suffices.
    - [Bytes], [Utf8]: integers and text as bytes.

    ** Devices

    - [Ps2] (input/ps2.rs), [Tty] (tty.rs): the bytes delivered to readers are
      the edited input, in order, whatever the interleaving of typing and reads.
    - [Vga] (hal/vga.rs): the screen shows the last rows of what was written.
    - [Platform] (pic.rs, timer.rs, gdt.rs, usermode.rs, boot_phases.rs,
      boot_watchdog.rs, boot_diagnostics.rs, percpu.rs): the interrupt
      controllers, the second wired to line 2 of the first, and the timer, over
      a board with the laws of their data sheets, the registers of the system-call instruction, the boot phases,
      the watchdog, the log of boot steps and the table of processors.
    - [VirtioPci] (net/virtio_net.rs, net/mod.rs): the search for the network
      card on the bus and its start.
    - [Packets], [Net], [Dns] (net/*.rs): packets are parsed as they were
      built; a datagram arrives at the socket it was sent to; the received
      frames that make the kernel panic are characterised, and the names whose
      decoding does not end are those that reach a cycle of pointers.

    ** The whole kernel

    - [Kernel] (main.rs) has the state of the kernel, with the state of every
      component above as a field, and every handler; [Dispatch] (syscall.rs,
      usermode.rs, interrupts.rs) the dispatcher, the console and network
      calls, the entry and exit of a call, the timer and the keyboard.  When no
      process is left to run a call returns through the context of the last one,
      which [slot] of the state keeps.  [Demo] is a concrete booted kernel.
    - [Steps] has the elementary changes a system call can make, each with its
      condition, and shows that every call is a sequence of them.  [Isolation]
      follows the memory of other processes through every handler.  [Safety]
      proves on the steps that the invariant of the kernel holds in every
      reachable state, that a call leaves other processes and their memory
      alone, and that no call but setuid of the superuser changes a user id.
    - [Calls] follows calls from registers to registers, through files, pipes,
      the terminal and directory records, on the maps of bytes that [Spaces]
      relates to page tables.
    - [Boot] (main.rs, process.rs) composes the components into the boot of
      the kernel, from what the boot loader leaves to the first program, which
      is in memory as the file of the disk has it, and shows that its state
      satisfies the invariant of [Safety], which therefore
      holds as long as the machine runs.  A boot from a disk made by
      [MkDiskImg] is evaluated.  [SelfCheck] (selfcheck.rs): the check of the
      page tables passes unless memory runs out.
    - [Userland] runs programs of src/userland, instruction by instruction, on
      the interface of the system calls: cat, echo, wc, rm, mkdir, mv and chmod.
      [UserKernel] shows that the kernel implements that interface, and so what
      these programs do on it, down to the bytes on the serial line and the
      files of the tmpfs.

    ** Flaws

    Some theorems state what the code does where it does not do what it means
    to: a fork always fails, an exited child is lost, a process that is switched
    back to has a wrong stack pointer, the root directory of the writable file
    system is written to one block and read from another, a preempted call
    returns 0, a call returns to a process that was terminated or stopped when
    nobody else can run, and others.  They describe the code as it is.

    ** Bounds and fuel

    Loops over a slice, a range or a list are structural.  The others have fuel.
    [Tty.read_loop], [Utf8.lossy], [DiskFs.parse_dir], [Fat32.parse_entries] and
    the loops of [HomeFs] consume input at each turn and are called with its
    length or more; [FrameAlloc.consolidate_loop] removes a region at each turn
    that continues; [RingBuffer.clear_loop] pops one element;
    [Packets.fold_carries] needs at most three turns for a 32-bit sum.  Each has
    a lemma that the fuel does not run out.  [Dispatch.tty_loop] waits for input
    that the rest of the machine provides, and [Calls] shows that its result does
    not depend on the fuel and that it stops exactly when it must wait.
    [Dns.decode_loop] may really run for ever; the fuel is an argument, and the
    theorem says that one turn more than there are bytes decides it.  FAT chains
    are followed up to the limit of the code.

    ** Not modelled

    The loading of the descriptor and interrupt tables into the processor, and
    the TLB; the serial port and the printing macros, whose bytes are lists here;
    the heap allocator, a crate of its own, and with it the panic when the heap of
    104 KiB is exhausted: a vector always grows; the page faults of programs in
    user mode, which run on the maps of bytes; the queues of the network card,
    which the driver of the sources declares and does not use; the optional
    features of the boot (smoke tests, scripted input); the checks of
    selfcheck.rs that compare processor registers with constants; the shell and
    the programs of src/userland other than those named above, whose system
    calls are modelled.  The scripts that run mtools, nasm or qemu compute
    nothing themselves. *)

From stdpp Require Export base list gmap strings.
From Stdlib Require Export ZArith Lia Bool ZifyNat ZifyN ZifyBool.

(** ** Scope of the development *)

Declare Scope panda_scope.
Delimit Scope panda_scope with panda.
Open Scope panda_scope.
Open Scope Z_scope.

(** ** Panics

    A Rust [assert!], an out-of-range slice index and an arithmetic overflow
    in a checked build abort the computation.  [outcome] keeps that apart from
    a returned value. *)
Inductive outcome (A : Type) : Type :=
  | Done (a : A)
  | Panicked.
Arguments Done {A} a.
Arguments Panicked {A}.

Definition bind {A B} (m : outcome A) (f : A -> outcome B) : outcome B :=
  match m with Done a => f a | Panicked => Panicked end.

Notation "'let!' x := m 'in' k" := (bind m (fun x => k))
  (at level 10, x pattern, m at level 100, k at level 200) : panda_scope.

(** Rust's [assert!]. *)
Definition rust_assert (b : bool) : outcome unit :=
  if b then Done tt else Panicked.

(** [slice[i]]: indexing panics outside the slice. *)
Definition index {A} (l : list A) (i : nat) : outcome A :=
  match l !! i with Some a => Done a | None => Panicked end.

(** [slice[i] = a]. *)
Definition index_set {A} (l : list A) (i : nat) (a : A) : outcome (list A) :=
  if (i <? length l)%nat then Done (<[i := a]> l) else Panicked.

(** ** Results

    Rust's [Result<T, E>]. *)
Inductive result (T E : Type) : Type :=
  | Ok (t : T)
  | Err (e : E).
Arguments Ok {T E} t.
Arguments Err {T E} e.

Definition is_ok {T E} (r : result T E) : bool :=
  match r with Ok _ => true | Err _ => false end.

(** The [?] operator. *)
Definition result_bind {T U E} (r : result T E) (f : T -> result U E) : result U E :=
  match r with Ok t => f t | Err e => Err e end.

Notation "'let?' x := r 'in' k" := (result_bind r (fun x => k))
  (at level 10, x pattern, r at level 100, k at level 200) : panda_scope.

(** A computation that can panic and can fail: [?] inside one. *)
Definition bind_ok {T U E} (m : outcome (result T E)) (f : T -> outcome (result U E))
    : outcome (result U E) :=
  match m with
  | Done (Ok t) => f t
  | Done (Err e) => Done (Err e)
  | Panicked => Panicked
  end.

Notation "'let*' x := m 'in' k" := (bind_ok m (fun x => k))
  (at level 10, x pattern, m at level 100, k at level 200) : panda_scope.

(** [map_err]. *)
Definition map_err {T E F} (f : E -> F) (r : result T E) : result T F :=
  match r with Ok t => Ok t | Err e => Err (f e) end.

Definition map_err_out {T E F} (f : E -> F) (m : outcome (result T E)) : outcome (result T F) :=
  let! r := m in Done (map_err f r).

(** ** Computations on a state

    A function that works on a shared state [S], can fail with an error and
    can panic; the state it leaves behind is kept when it fails. *)
Definition stm (S E T : Type) : Type := S -> outcome (result T E * S).

Definition sret {S E T} (t : T) : stm S E T := fun s => Done (Ok t, s).
Definition sfail {S E T} (e : E) : stm S E T := fun s => Done (Err e, s).
Definition spanic {S E T} : stm S E T := fun _ => Panicked.
Definition sread {S E T} (f : S -> T) : stm S E T := fun s => Done (Ok (f s), s).
Definition smodify {S E} (f : S -> S) : stm S E unit := fun s => Done (Ok tt, f s).

Definition sbind {S E T U} (m : stm S E T) (f : T -> stm S E U) : stm S E U := fun s =>
  match m s with
  | Done (Ok t, s') => f t s'
  | Done (Err e, s') => Done (Err e, s')
  | Panicked => Panicked
  end.

Notation "'let%' x := m 'in' k" := (sbind m (fun x => k))
  (at level 10, x pattern, m at level 100, k at level 200) : panda_scope.

(** [m] does not panic from a state in [P]; it leaves a state in [Q] when it
    returns and in [R] when it fails. *)
Definition hoare {S E T} (P : S -> Prop) (m : stm S E T) (Q : T -> S -> Prop) (R : E -> S -> Prop) : Prop :=
  forall s, P s ->
  match m s with
  | Done (Ok t, s') => Q t s'
  | Done (Err e, s') => R e s'
  | Panicked => False
  end.

(** Whether a run succeeded. *)
Definition succeeds {S E T} (r : outcome (result T E * S)) : bool :=
  match r with Done (Ok _, _) => true | _ => false end.

(** [m] changes the state as [R] allows, however it ends. *)
Definition leads {S E T} (R : S -> S -> Prop) (m : stm S E T) : Prop := forall s r s', m s = Done (r, s') -> R s s'.

(** [for i in i..i + n { body(i)?; }]. *)
Fixpoint for_range {S E} (i n : nat) (body : nat -> stm S E unit) : stm S E unit :=
  match n with
  | O => sret tt
  | Datatypes.S n' => let% _ := body i in for_range (Datatypes.S i) n' body
  end.

(** ** Machine integers *)

Definition U8_MAX : Z := 255.
Definition U16_MAX : Z := 65535.
Definition U32_MAX : Z := 4294967295.
Definition U64_MAX : Z := 18446744073709551615.

(** Truncation to a width: an [as u8] cast, or the wrap-around of
    [wrapping_add] and of a release build's [+]. *)
Definition wrap8 (z : Z) : Z := z mod 256.
Definition wrap16 (z : Z) : Z := z mod 65536.
Definition wrap32 (z : Z) : Z := z mod 4294967296.
Definition wrap64 (z : Z) : Z := z mod 18446744073709551616.

(** Bitwise complement at a width. *)
Definition not8 (z : Z) : Z := Z.lxor z U8_MAX.
Definition not16 (z : Z) : Z := Z.lxor z U16_MAX.
Definition not32 (z : Z) : Z := Z.lxor z U32_MAX.
Definition not64 (z : Z) : Z := Z.lxor z U64_MAX.

Definition saturating_add (max a b : Z) : Z := Z.min max (a + b).
Definition saturating_sub (a b : Z) : Z := Z.max 0 (a - b).

Definition is_u8 (z : Z) : Prop := 0 <= z <= U8_MAX.
Definition is_u16 (z : Z) : Prop := 0 <= z <= U16_MAX.
Definition is_u32 (z : Z) : Prop := 0 <= z <= U32_MAX.
Definition is_u64 (z : Z) : Prop := 0 <= z <= U64_MAX.

(** Bytes of a buffer. *)
Definition bytes_ok (l : list Z) : Prop := Forall is_u8 l.

(** ** Slices *)

(** [&l[a..b]] of a range known to be valid. *)
Definition sub_slice {A} (l : list A) (a b : nat) : list A :=
  take (b - a) (drop a l).

(** [&l[a..b]]: panics unless [a <= b <= l.len()]. *)
Definition slice {A} (l : list A) (a b : nat) : outcome (list A) :=
  if (a <=? b)%nat && (b <=? length l)%nat
  then Done (sub_slice l a b) else Panicked.

(** [l[off..off + new.len()].copy_from_slice(new)]. *)
Definition splice {A} (l : list A) (off : nat) (new : list A) : list A :=
  take off l ++ new ++ drop (off + length new) l.

(** ** Tactics *)

(** [lia] knows division and remainder by constants. *)
Ltac Zify.zify_post_hook ::= Z.to_euclidean_division_equations.

(** Case analysis on the conditions and matches of the goal. *)
Ltac case_all :=
  repeat match goal with
  | |- context [match ?x with _ => _ end] => destruct x eqn:?
  | |- context [if ?x then _ else _] => destruct x eqn:?
  end.

(** The same in a hypothesis. *)
Ltac case_in H :=
  repeat match type of H with
  | context [match ?x with _ => _ end] => destruct x eqn:?
  | context [if ?x then _ else _] => destruct x eqn:?
  end.

(** Boolean comparisons of the code become propositions. *)
Ltac breflect :=
  repeat match goal with
  | H : (_ && _) = true |- _ => apply andb_true_iff in H as [? ?]
  | H : (_ || _) = false |- _ => apply orb_false_iff in H as [? ?]
  | H : negb _ = true |- _ => apply negb_true_iff in H
  | H : negb _ = false |- _ => apply negb_false_iff in H
  | H : (_ <? _)%nat = true |- _ => apply Nat.ltb_lt in H
  | H : (_ <? _)%nat = false |- _ => apply Nat.ltb_ge in H
  | H : (_ <=? _)%nat = true |- _ => apply Nat.leb_le in H
  | H : (_ <=? _)%nat = false |- _ => apply Nat.leb_gt in H
  | H : (_ =? _)%nat = true |- _ => apply Nat.eqb_eq in H
  | H : (_ =? _)%nat = false |- _ => apply Nat.eqb_neq in H
  | H : (_ <? _) = true |- _ => apply Z.ltb_lt in H
  | H : (_ <? _) = false |- _ => apply Z.ltb_ge in H
  | H : (_ <=? _) = true |- _ => apply Z.leb_le in H
  | H : (_ <=? _) = false |- _ => apply Z.leb_gt in H
  | H : (_ =? _) = true |- _ => apply Z.eqb_eq in H
  | H : (_ =? _) = false |- _ => apply Z.eqb_neq in H
  | H : bool_decide _ = true |- _ => apply bool_decide_eq_true in H
  | H : bool_decide _ = false |- _ => apply bool_decide_eq_false in H
  end.

(** Reduce an equation between outcomes or results. *)
Ltac inv_outcome :=
  repeat match goal with
  | H : Done _ = Done _ |- _ => injection H as H; subst
  | H : Done _ = Panicked |- _ => discriminate H
  | H : Panicked = Done _ |- _ => discriminate H
  | H : Ok _ = Ok _ |- _ => injection H as H; subst
  | H : Err _ = Err _ |- _ => injection H as H; subst
  | H : Ok _ = Err _ |- _ => discriminate H
  | H : Err _ = Ok _ |- _ => discriminate H
  | H : (_, _) = (_, _) |- _ => injection H as H; subst
  end.

(** ** Lemmas on outcomes *)

Create HintDb panda.

(** Injectivity without the simplification [injection] does. *)
Lemma Done_inj {A} (a b : A) : Done a = Done b -> a = b.
Proof. congruence. Qed.

Lemma bind_Done {A B} (m : outcome A) (f : A -> outcome B) b :
  bind m f = Done b <-> exists a, m = Done a /\ f a = Done b.
Proof. destruct m; cbn; naive_solver. Qed.

Lemma rust_assert_Done b u : rust_assert b = Done u <-> b = true.
Proof. destruct b, u; cbn; naive_solver. Qed.

Lemma index_Done {A} (l : list A) i a : index l i = Done a <-> l !! i = Some a.
Proof. unfold index. destruct (l !! i); naive_solver. Qed.

Lemma index_lt {A} (l : list A) i :
  (i < length l)%nat -> exists a, l !! i = Some a /\ index l i = Done a.
Proof.
  intros H. destruct (lookup_lt_is_Some_2 l i H) as [a Ha].
  exists a. rewrite index_Done. auto.
Qed.

Lemma index_set_lt {A} (l : list A) i a :
  (i < length l)%nat -> index_set l i a = Done (<[i := a]> l).
Proof. intros H. unfold index_set. apply Nat.ltb_lt in H. now rewrite H. Qed.

Lemma bind_ok_Done {T U E} (m : outcome (result T E)) (f : T -> outcome (result U E)) r :
  bind_ok m f = Done r <->
  (exists t, m = Done (Ok t) /\ f t = Done r) \/ (exists e, m = Done (Err e) /\ r = Err e).
Proof. destruct m as [[]|]; cbn; naive_solver. Qed.

(** A computation that does not panic. *)
Definition returns {A} (m : outcome A) : Prop := exists a, m = Done a.

Lemma returns_Done {A} (a : A) : returns (Done a).
Proof. now exists a. Qed.

Lemma returns_bind {A B} (m : outcome A) (f : A -> outcome B) :
  returns m -> (forall a, m = Done a -> returns (f a)) -> returns (bind m f).
Proof. intros [a ->] H. apply H. reflexivity. Qed.

Lemma returns_bind_ok {T U E} (m : outcome (result T E)) (f : T -> outcome (result U E)) :
  returns m -> (forall t, m = Done (Ok t) -> returns (f t)) -> returns (bind_ok m f).
Proof. intros [[t|e] ->] H; [apply H; reflexivity|apply returns_Done]. Qed.

#[export] Hint Resolve returns_Done : panda.

(** ** Lemmas on slices *)

Lemma length_sub_slice {A} (l : list A) a b :
  (a <= b <= length l)%nat -> length (sub_slice l a b) = (b - a)%nat.
Proof. intros H. unfold sub_slice. rewrite length_take, length_drop. lia. Qed.

Lemma length_splice {A} (l new : list A) off :
  (off + length new <= length l)%nat -> length (splice l off new) = length l.
Proof.
  intros H. unfold splice. rewrite !length_app, length_take, length_drop. lia.
Qed.

Lemma sub_slice_app_r {A} (l k : list A) a :
  length l = a -> sub_slice (l ++ k) a (length (l ++ k)) = k.
Proof.
  intros <-. unfold sub_slice. rewrite drop_app_length, length_app.
  apply take_ge. lia.
Qed.

Lemma splice_cons {A} (l : list A) i x new :
  (i < length l)%nat -> splice (<[i := x]> l) (S i) new = splice l i (x :: new).
Proof.
  intros Hi. unfold splice. cbn [length].
  assert (take (S i) (<[i := x]> l) = take i l ++ [x]) as ->.
  { rewrite (take_S_r _ _ x) by now apply list_lookup_insert_eq.
    f_equal. apply take_insert_ge. lia. }
  rewrite drop_insert_lt, <- app_assoc by lia. cbn [app].
  now replace (S i + length new)%nat with (i + S (length new))%nat by lia.
Qed.

Lemma splice_nil {A} (l : list A) off : splice l off [] = l.
Proof. unfold splice. cbn [length app]. rewrite Nat.add_0_r. apply take_drop. Qed.

Lemma splice_app {A} (l a b : list A) off :
  (off + length a + length b <= length l)%nat ->
  splice (splice l off a) (off + length a) b = splice l off (a ++ b).
Proof.
  intros H. unfold splice at 2. rewrite (assoc_L (++)). unfold splice.
  replace (off + length a)%nat with (length (take off l ++ a)) at 1
    by (rewrite length_app, length_take; lia).
  rewrite take_app_length, length_app, <- !(assoc_L (++)). do 3 f_equal.
  rewrite (assoc_L (++)), drop_app_ge by (rewrite length_app, length_take; lia).
  rewrite drop_drop. f_equal. rewrite length_app, length_take. lia.
Qed.

Lemma lookup_splice {A} (l new : list A) off k :
  (off + length new <= length l)%nat ->
  splice l off new !! k
  = if ((off <=? k) && (k <? off + length new))%nat then new !! (k - off)%nat else l !! k.
Proof.
  intros H. unfold splice. destruct (Nat.leb_spec off k); cbn [andb].
  - rewrite lookup_app_r by (rewrite length_take; lia). rewrite length_take_le by lia.
    destruct (Nat.ltb_spec k (off + length new)); [now rewrite lookup_app_l by lia|].
    rewrite lookup_app_r, lookup_drop by lia. f_equal. lia.
  - rewrite lookup_app_l by (rewrite length_take; lia). now apply lookup_take_lt.
Qed.

(** A range inside the part that was replaced, or disjoint from it. *)
Lemma sub_slice_splice_same {A} (l new : list A) off :
  (off + length new <= length l)%nat -> sub_slice (splice l off new) off (off + length new) = new.
Proof.
  intros H. unfold sub_slice, splice. rewrite drop_app_ge by (rewrite length_take; lia).
  rewrite length_take_le by lia. rewrite Nat.sub_diag, drop_0.
  replace (off + length new - off)%nat with (length new) by lia. apply take_app_length.
Qed.

Lemma lookup_sub_slice {A} (l : list A) a b k :
  sub_slice l a b !! k = if (k <? b - a)%nat then l !! (a + k)%nat else None.
Proof.
  unfold sub_slice. rewrite lookup_take. destruct (Nat.ltb_spec k (b - a)).
  - rewrite decide_True by assumption. apply lookup_drop.
  - rewrite decide_False by lia. reflexivity.
Qed.

Lemma sub_slice_splice_other {A} (l new : list A) off a b :
  (off + length new <= length l)%nat -> (b <= off \/ off + length new <= a)%nat ->
  sub_slice (splice l off new) a b = sub_slice l a b.
Proof.
  intros H Hd. apply list_eq. intros k. rewrite !lookup_sub_slice. case_match; [|reflexivity]. breflect.
  rewrite lookup_splice by assumption. case_match; [breflect; lia|reflexivity].
Qed.

Lemma sub_slice_sub_slice {A} (l : list A) a b c d :
  (c <= d)%nat -> (a + d <= b)%nat -> sub_slice (sub_slice l a b) c d = sub_slice l (a + c) (a + d).
Proof.
  intros H1 H2. apply list_eq. intros k. rewrite !lookup_sub_slice.
  replace (a + d - (a + c))%nat with (d - c)%nat by lia. case_match; [|reflexivity]. breflect.
  rewrite (proj2 (Nat.ltb_lt _ _)) by lia. f_equal. lia.
Qed.

(** ** Lemmas on bits *)

Lemma land_pow2_eqb b i :
  0 <= i -> (Z.land b (Z.shiftl 1 i) =? 0) = negb (Z.testbit b i).
Proof.
  intros Hi. rewrite Z.shiftl_1_l. apply Bool.eq_iff_eq_true.
  rewrite Z.eqb_eq, negb_true_iff. split.
  - intros H. assert (Z.testbit (Z.land b (2 ^ i)) i = false) as H'
      by (rewrite H; apply Z.bits_0).
    rewrite Z.land_spec, Z.pow2_bits_true in H' by lia.
    now rewrite andb_true_r in H'.
  - intros H. apply Z.bits_inj'. intros j Hj.
    rewrite Z.land_spec, Z.bits_0, Z.pow2_bits_eqb by lia.
    destruct (Z.eqb_spec i j); subst; [now rewrite H|apply andb_false_r].
Qed.

Lemma testbit_lor_pow2 b i j :
  0 <= i -> 0 <= j ->
  Z.testbit (Z.lor b (Z.shiftl 1 i)) j = Z.testbit b j || (i =? j).
Proof.
  intros. rewrite Z.lor_spec, Z.shiftl_1_l, Z.pow2_bits_eqb by lia. reflexivity.
Qed.

Lemma testbit_255 j : 0 <= j < 8 -> Z.testbit 255 j = true.
Proof.
  intros H. change 255 with (Z.ones 8).
  apply Z.ones_spec_low. lia.
Qed.

Lemma testbit_land_not8 b i j :
  0 <= i < 8 -> 0 <= j < 8 ->
  Z.testbit (Z.land b (not8 (Z.shiftl 1 i))) j
  = Z.testbit b j && negb (i =? j).
Proof.
  intros. unfold not8, U8_MAX.
  rewrite Z.land_spec, Z.lxor_spec, Z.shiftl_1_l, Z.pow2_bits_eqb by lia.
  rewrite testbit_255 by lia. destruct (i =? j); reflexivity.
Qed.

(** ** Sums *)

Lemma sum_list_app' (l k : list nat) : sum_list (l ++ k) = (sum_list l + sum_list k)%nat.
Proof.
  induction l as [|x l IH]; [reflexivity|]. cbn [app].
  change (sum_list (x :: ?k)) with (x + sum_list k)%nat. lia.
Qed.

Lemma sum_list_insert (l : list nat) i a b :
  l !! i = Some a -> (sum_list (<[i := b]> l) + a = sum_list l + b)%nat.
Proof.
  intros H. pose proof (take_drop_middle l i a H) as E. apply lookup_lt_Some in H.
  rewrite <- E at 2. rewrite insert_take_drop, !sum_list_app' by assumption.
  change (sum_list (?x :: ?k)) with (x + sum_list k)%nat. lia.
Qed.

(** ** Counting the numbers of a range that satisfy a predicate *)

(** How many of [a .. a + n) satisfy [p]. *)
Fixpoint count_range (p : nat -> bool) (a n : nat) : nat :=
  match n with
  | O => 0
  | S n' => ((if p a then 1 else 0) + count_range p (S a) n')%nat
  end.

Lemma count_range_app p n : forall a m,
  count_range p a (n + m) = (count_range p a n + count_range p (a + n) m)%nat.
Proof.
  induction n as [|n IH]; intros a m; cbn; [now rewrite Nat.add_0_r|].
  rewrite IH. replace (S a + n)%nat with (a + S n)%nat by lia. lia.
Qed.

Lemma count_range_ext p q n : forall a,
  (forall k, (a <= k < a + n)%nat -> p k = q k) -> count_range p a n = count_range q a n.
Proof.
  induction n as [|n IH]; intros a H; cbn; [reflexivity|].
  rewrite (H a), (IH (S a)) by (intros; try apply H; lia). reflexivity.
Qed.

Lemma count_range_le p n : forall a, (count_range p a n <= n)%nat.
Proof. induction n as [|n IH]; intros a; cbn; [lia|]. specialize (IH (S a)). case_match; lia. Qed.

Lemma count_range_none p n : forall a,
  (forall k, (a <= k < a + n)%nat -> p k = false) -> count_range p a n = 0%nat.
Proof.
  induction n as [|n IH]; intros a H; cbn; [reflexivity|].
  rewrite (H a), (IH (S a)) by (intros; try apply H; lia). reflexivity.
Qed.

Lemma count_range_all p n : forall a,
  (forall k, (a <= k < a + n)%nat -> p k = true) -> count_range p a n = n.
Proof.
  induction n as [|n IH]; intros a H; cbn; [reflexivity|].
  rewrite (H a), (IH (S a)) by (intros; try apply H; lia). reflexivity.
Qed.

Lemma count_range_or p q n : forall a,
  (forall k, (a <= k < a + n)%nat -> p k = true -> q k = false) ->
  count_range (fun k => p k || q k) a n = (count_range p a n + count_range q a n)%nat.
Proof.
  induction n as [|n IH]; intros a H; cbn; [reflexivity|].
  rewrite (IH (S a)) by (intros; apply H; auto; lia).
  specialize (H a ltac:(lia)). destruct (p a), (q a); cbn; lia || naive_solver.
Qed.

Lemma count_range_interval a n s e :
  (a <= s)%nat -> (s <= e)%nat -> (e <= a + n)%nat ->
  count_range (fun k => (s <=? k) && (k <? e))%nat a n = (e - s)%nat.
Proof.
  intros H1 H2 H3. replace n with ((s - a) + ((e - s) + (a + n - e)))%nat by lia.
  rewrite !count_range_app, count_range_none by lia.
  rewrite count_range_all by lia. rewrite count_range_none by lia. lia.
Qed.

Lemma count_range_shift p n : forall a d,
  count_range p (a + d) n = count_range (fun k => p (k + d)%nat) a n.
Proof. induction n as [|n IH]; intros a d; cbn; [reflexivity|]. now rewrite <- IH. Qed.

Lemma count_range_pos p n : forall a k,
  (a <= k < a + n)%nat -> p k = true -> (0 < count_range p a n)%nat.
Proof.
  induction n as [|n IH]; intros a k Hk Hp; cbn; [lia|].
  destruct (decide (k = a)) as [->|]; [rewrite Hp; lia|].
  specialize (IH (S a) k ltac:(lia) Hp). lia.
Qed.

(** Removing one element of the range that satisfies the predicate. *)
Lemma count_range_remove p n a k :
  (a <= k < a + n)%nat -> p k = true ->
  count_range p a n = S (count_range (fun i => negb (k =? i)%nat && p i) a n).
Proof.
  intros Hk Hp.
  rewrite (count_range_ext p (fun i => (k =? i)%nat || (negb (k =? i)%nat && p i))).
  - rewrite count_range_or by (intros i _; destruct (k =? i)%nat; [reflexivity|discriminate]).
    replace (count_range (Nat.eqb k) a n) with 1%nat; [reflexivity|].
    rewrite (count_range_ext _ (fun i => (k <=? i) && (i <? S k))%nat) by (intros; lia).
    rewrite count_range_interval by lia. lia.
  - intros i _. destruct (Nat.eqb_spec k i) as [->|]; [now rewrite Hp|reflexivity].
Qed.

(** ** Rules for computations on a state *)

Lemma hoare_bind {S E T U} P (m : stm S E T) (f : T -> stm S E U) M Q R :
  hoare P m M R -> (forall t, hoare (M t) (f t) Q R) -> hoare P (sbind m f) Q R.
Proof.
  intros Hm Hf s Hs. unfold sbind. specialize (Hm s Hs).
  destruct (m s) as [[[t|e] s']|]; [exact (Hf t s' Hm)|exact Hm|exact Hm].
Qed.

Lemma hoare_ret {S E T} (t : T) (Q : T -> S -> Prop) (R : E -> S -> Prop) : hoare (Q t) (sret t) Q R.
Proof. intros s Hs. exact Hs. Qed.

Lemma hoare_fail {S E T} (e : E) (Q : T -> S -> Prop) (R : E -> S -> Prop) : hoare (R e) (sfail e) Q R.
Proof. intros s Hs. exact Hs. Qed.

Lemma hoare_read {S E T} (f : S -> T) (P : S -> Prop) (R : E -> S -> Prop) :
  hoare P (sread f) (fun t s => P s /\ t = f s) R.
Proof. intros s Hs. now split. Qed.

Lemma hoare_pre {S E T} (P P' : S -> Prop) (m : stm S E T) Q R :
  (forall s, P s -> P' s) -> hoare P' m Q R -> hoare P m Q R.
Proof. intros HP Hm s Hs. exact (Hm s (HP s Hs)). Qed.

Lemma hoare_post {S E T} P (m : stm S E T) (Q Q' : T -> S -> Prop) R :
  (forall t s, Q' t s -> Q t s) -> hoare P m Q' R -> hoare P m Q R.
Proof.
  intros HQ Hm s Hs. specialize (Hm s Hs). destruct (m s) as [[[t|e] s']|]; auto.
Qed.

Lemma hoare_for_range {S E} (I : nat -> S -> Prop) (R : E -> S -> Prop) n body : forall i,
  (forall k, (i <= k < i + n)%nat -> hoare (I k) (body k) (fun _ => I (Datatypes.S k)) R) ->
  hoare (I i) (for_range i n body) (fun _ => I (i + n)%nat) R.
Proof.
  induction n as [|n IH]; intros i Hb; cbn [for_range].
  - rewrite Nat.add_0_r. exact (hoare_ret tt (fun _ => I i) R).
  - eapply hoare_bind; [apply Hb; lia|]. intros [].
    replace (i + Datatypes.S n)%nat with (Datatypes.S i + n)%nat by lia. apply IH. intros k Hk. apply Hb. lia.
Qed.

Section Leads.
Context {S E : Type} (R : S -> S -> Prop) {HR : PreOrder R}.

Lemma leads_ret {T} (t : T) : leads R (sret t : stm S E T).
Proof. intros s r s' [= _ <-]. reflexivity. Qed.

Lemma leads_fail {T} (e : E) : leads R (sfail e : stm S E T).
Proof. intros s r s' [= _ <-]. reflexivity. Qed.

Lemma leads_panic {T} : leads R (spanic : stm S E T).
Proof. intros s r s' H. discriminate H. Qed.

Lemma leads_read {T} (f : S -> T) : leads R (sread f : stm S E T).
Proof. intros s r s' [= _ <-]. reflexivity. Qed.

Lemma leads_bind {T U} (m : stm S E T) (f : T -> stm S E U) :
  leads R m -> (forall t, leads R (f t)) -> leads R (sbind m f).
Proof.
  intros Hm Hf s r s'. unfold sbind. destruct (m s) as [[[t|e] s1]|] eqn:H1; [| |discriminate].
  - intros H2. transitivity s1; [exact (Hm _ _ _ H1)|exact (Hf t _ _ _ H2)].
  - intros [= _ <-]. exact (Hm _ _ _ H1).
Qed.

Lemma leads_for_range n body : forall i, (forall j, leads R (body j)) -> leads R (for_range i n body : stm S E unit).
Proof. induction n as [|n IH]; intros i Hb; cbn [for_range]; [apply leads_ret|apply leads_bind; auto]. Qed.

End Leads.

(** Walks down a computation whose parts are known. *)
Ltac leads_walk :=
  repeat first
    [ apply leads_ret | apply leads_fail | apply leads_panic | apply leads_read
    | solve [auto with panda]
    | apply leads_bind; [typeclasses eauto| |intros ?]
    | match goal with
      | |- leads _ (if ?c then _ else _) => destruct c
      | |- leads _ (match ?x with _ => _ end) => destruct x
      | |- leads _ (let (_, _) := ?x in _) => destruct x
      end
    | typeclasses eauto ].

(** Rounding down to a power of two. *)
Lemma land_not64 k x : 0 <= k -> 0 <= x <= U64_MAX -> Z.land x (not64 (Z.ones k)) = x - x mod 2 ^ k.
Proof.
  intros Hk Hx. assert (x - x mod 2 ^ k = Z.ldiff x (Z.ones k)) as ->.
  { rewrite Z.ldiff_ones_r, Z.shiftl_mul_pow2, Z.shiftr_div_pow2 by lia. pose proof (Z.div_mod x (2 ^ k)). lia. }
  apply Z.bits_inj'. intros n Hn. unfold not64. change U64_MAX with (Z.ones 64).
  rewrite Z.land_spec, Z.ldiff_spec, Z.lxor_spec.
  destruct (Z.ltb_spec n 64).
  - rewrite (Z.ones_spec_low 64) by lia. now rewrite xorb_true_r.
  - assert (Z.testbit x n = false) as ->; [|reflexivity].
    destruct (decide (x = 0)) as [->|]; [apply Z.testbit_0_l|].
    apply Z.bits_above_log2; [lia|]. apply Z.log2_lt_pow2; [lia|].
    assert (2 ^ 64 <= 2 ^ n) by (apply Z.pow_le_mono_r; lia). unfold U64_MAX in Hx. lia.
Qed.
