(* ===== verification/Bitmap.v ===== *)
(** * The allocation bitmap (src/hal/src/bitmap.rs)

    A bitmap is a byte slice and the number of bits it tracks.  The operations
    keep the code's assertions: an index outside [size] panics.  The theorems
    relate every operation to the abstract view [bit], a predicate on bit
    numbers. *)

From S2P Require Import Prelude.

Module Bitmap.

(** [struct Bitmap]: [data] is the byte slice, [size] the number of bits. *)
Record Bitmap : Type := mkBitmap { data : list Z; size : nat }.

(** [usize::div_ceil(8)]. *)
Definition div_ceil8 (n : nat) : nat := ((n + 7) / 8)%nat.

(** [Bitmap::new]: the required bytes are cleared, the rest kept. *)
Definition new (data : list Z) (size : nat) : outcome Bitmap :=
  let required_bytes := div_ceil8 size in
  let! _ := rust_assert (required_bytes <=? length data)%nat in
  Done (mkBitmap (replicate required_bytes 0 ++ drop required_bytes data) size).

(** [Bitmap::set]. *)
Definition set (b : Bitmap) (idx : nat) : outcome Bitmap :=
  let! _ := rust_assert (idx <? size b)%nat in
  let byte_index := (idx / 8)%nat in
  let bit_index := (idx mod 8)%nat in
  let! byte := index (data b) byte_index in
  let! data' := index_set (data b) byte_index
            (Z.lor byte (Z.shiftl 1 (Z.of_nat bit_index))) in
  Done (mkBitmap data' (size b)).

(** [Bitmap::clear]. *)
Definition clear (b : Bitmap) (idx : nat) : outcome Bitmap :=
  let! _ := rust_assert (idx <? size b)%nat in
  let byte_index := (idx / 8)%nat in
  let bit_index := (idx mod 8)%nat in
  let! byte := index (data b) byte_index in
  let! data' := index_set (data b) byte_index
            (Z.land byte (not8 (Z.shiftl 1 (Z.of_nat bit_index)))) in
  Done (mkBitmap data' (size b)).

(** [Bitmap::is_set]. *)
Definition is_set (b : Bitmap) (idx : nat) : outcome bool :=
  let! _ := rust_assert (idx <? size b)%nat in
  let byte_index := (idx / 8)%nat in
  let bit_index := (idx mod 8)%nat in
  let! byte := index (data b) byte_index in
  Done (negb (Z.land byte (Z.shiftl 1 (Z.of_nat bit_index)) =? 0)).

(** The loop of [find_and_set] from bit [i], with [n] bits left. *)
Fixpoint find_and_set_from (b : Bitmap) (i n : nat)
    : outcome (option nat * Bitmap) :=
  match n with
  | O => Done (None, b)
  | S n' =>
      let! s := is_set b i in
      if negb s
      then let! b' := set b i in Done (Some i, b')
      else find_and_set_from b (S i) n'
  end.

(** [Bitmap::find_and_set]. *)
Definition find_and_set (b : Bitmap) : outcome (option nat * Bitmap) :=
  find_and_set_from b 0 (size b).

(** The loop of [count_set] from bit [i], with [n] bits left. *)
Fixpoint count_set_from (b : Bitmap) (i n : nat) (count : nat) : outcome nat :=
  match n with
  | O => Done count
  | S n' =>
      let! s := is_set b i in
      count_set_from b (S i) n' (if s then S count else count)
  end.

(** [Bitmap::count_set]. *)
Definition count_set (b : Bitmap) : outcome nat :=
  count_set_from b 0 (size b) 0.

(** [Bitmap::count_clear]. *)
Definition count_clear (b : Bitmap) : outcome nat :=
  let! c := count_set b in Done (size b - c)%nat.

(** ** Abstract view and invariant *)

(** The slice covers every tracked bit: what [new] asserts. *)
Definition wf (b : Bitmap) : Prop := (div_ceil8 (size b) <= length (data b))%nat.

(** Bit [i] of the slice. *)
Definition bit (b : Bitmap) (i : nat) : bool :=
  match data b !! (i / 8)%nat with
  | Some byte => Z.testbit byte (Z.of_nat (i mod 8))
  | None => false
  end.

(** The set bits of [from .. from + n), in order. *)
Definition set_bits (b : Bitmap) (from n : nat) : list nat :=
  filter (fun i => bit b i = true) (seq from n).

(** ** Lemmas *)

Lemma byte_index_lt b i :
  wf b -> (i < size b)%nat -> (i / 8 < length (data b))%nat.
Proof. unfold wf, div_ceil8. intros. lia. Qed.

Lemma bit_mod i : 0 <= Z.of_nat (i mod 8) < 8.
Proof. lia. Qed.

(** Every operation reads a byte that exists: no index panics. *)
Lemma byte_at b i :
  wf b -> (i < size b)%nat ->
  exists byte, data b !! (i / 8)%nat = Some byte /\ index (data b) (i / 8) = Done byte.
Proof. intros Hwf Hi. apply index_lt, byte_index_lt; assumption. Qed.

Lemma is_set_spec b i :
  wf b -> (i < size b)%nat -> is_set b i = Done (bit b i).
Proof.
  intros Hwf Hi. destruct (byte_at b i Hwf Hi) as (byte & Hl & Hx).
  unfold is_set, bit. rewrite (proj2 (Nat.ltb_lt _ _) Hi), Hl. cbn -[Nat.div Nat.modulo].
  rewrite Hx. cbn -[Nat.div Nat.modulo]. rewrite land_pow2_eqb by lia.
  now rewrite negb_involutive.
Qed.

(** Writing one bit of one byte: the shared part of [set] and [clear]. *)
Lemma bit_insert b i byte' j (f : bool -> bool) :
  wf b -> (i < size b)%nat ->
  (forall byte, data b !! (i / 8)%nat = Some byte ->
     forall k, 0 <= k < 8 ->
     Z.testbit byte' k
     = if Z.of_nat (i mod 8) =? k then f (Z.testbit byte k) else Z.testbit byte k) ->
  bit (mkBitmap (<[(i / 8)%nat := byte']> (data b)) (size b)) j
  = if (i =? j)%nat then f (bit b j) else bit b j.
Proof.
  intros Hwf Hi Hbyte. destruct (byte_at b i Hwf Hi) as (byte & Hl & _).
  pose proof (byte_index_lt b i Hwf Hi) as Hlt.
  unfold bit. cbn [data]. destruct (decide (i / 8 = j / 8)%nat) as [E|E].
  - rewrite <- E, list_lookup_insert_eq, Hl by assumption.
    rewrite (Hbyte byte Hl) by lia.
    destruct (Nat.eqb_spec i j) as [->|N]; [now rewrite Z.eqb_refl|].
    destruct (Z.eqb_spec (Z.of_nat (i mod 8)) (Z.of_nat (j mod 8))); [lia|reflexivity].
  - rewrite list_lookup_insert_ne by assumption.
    destruct (Nat.eqb_spec i j) as [->|N]; [congruence|reflexivity].
Qed.

Lemma set_spec b i :
  wf b -> (i < size b)%nat ->
  exists b', set b i = Done b' /\ wf b' /\ size b' = size b
    /\ forall j, bit b' j = (i =? j)%nat || bit b j.
Proof.
  intros Hwf Hi. destruct (byte_at b i Hwf Hi) as (byte & Hl & Hx).
  unfold set. rewrite (proj2 (Nat.ltb_lt _ _) Hi). cbn -[Nat.div Nat.modulo].
  rewrite Hx. cbn -[Nat.div Nat.modulo].
  rewrite index_set_lt by (apply byte_index_lt; assumption).
  eexists. split; [reflexivity|]. unfold wf in *. cbn [size data].
  rewrite length_insert. repeat split; [assumption|].
  intros j. rewrite (bit_insert b i _ j (fun _ => true) Hwf Hi).
  - now destruct (i =? j)%nat.
  - intros ? Hb k Hk. assert (byte = byte0) by congruence. subst byte0.
    rewrite testbit_lor_pow2 by lia.
    destruct (_ =? k); [apply orb_true_r|apply orb_false_r].
Qed.

Lemma clear_spec b i :
  wf b -> (i < size b)%nat ->
  exists b', clear b i = Done b' /\ wf b' /\ size b' = size b
    /\ forall j, bit b' j = negb (i =? j)%nat && bit b j.
Proof.
  intros Hwf Hi. destruct (byte_at b i Hwf Hi) as (byte & Hl & Hx).
  unfold clear. rewrite (proj2 (Nat.ltb_lt _ _) Hi). cbn -[Nat.div Nat.modulo not8].
  rewrite Hx. cbn -[Nat.div Nat.modulo not8].
  rewrite index_set_lt by (apply byte_index_lt; assumption).
  eexists. split; [reflexivity|]. unfold wf in *. cbn [size data].
  rewrite length_insert. repeat split; [assumption|].
  intros j. rewrite (bit_insert b i _ j (fun _ => false) Hwf Hi).
  - now destruct (i =? j)%nat.
  - intros ? Hb k Hk. assert (byte = byte0) by congruence. subst byte0.
    rewrite testbit_land_not8 by lia.
    destruct (_ =? k); [apply andb_false_r|apply andb_true_r].
Qed.

Lemma new_wf d n b : new d n = Done b -> wf b /\ size b = n.
Proof.
  unfold new. intros H. apply bind_Done in H as (u & Ha & [= <-]).
  apply rust_assert_Done, Nat.leb_le in Ha. unfold wf. cbn [size data].
  rewrite length_app, length_replicate, length_drop. lia.
Qed.

Lemma new_clear d n b i :
  new d n = Done b -> (i < n)%nat -> bit b i = false.
Proof.
  unfold new. intros H Hi. apply bind_Done in H as (u & _ & [= <-]).
  unfold bit. cbn [data].
  assert (i / 8 < div_ceil8 n)%nat as Hlt by (unfold div_ceil8; lia).
  rewrite lookup_app_l by now rewrite length_replicate.
  rewrite lookup_replicate_2 by assumption. apply Z.bits_0.
Qed.

(** A bit is set by [find_and_set] only when it was the first clear one. *)
Lemma find_and_set_from_spec b n : forall i,
  wf b -> (i + n <= size b)%nat ->
  (forall k, (i <= k < i + n)%nat -> bit b k = true)
    /\ find_and_set_from b i n = Done (None, b)
  \/ exists k b', (i <= k < i + n)%nat /\ bit b k = false
    /\ (forall j, (i <= j < k)%nat -> bit b j = true)
    /\ set b k = Done b' /\ find_and_set_from b i n = Done (Some k, b').
Proof.
  induction n as [|n IH]; intros i Hwf Hn; cbn [find_and_set_from].
  { left. split; [intros; lia|reflexivity]. }
  rewrite is_set_spec by (assumption || lia). cbn.
  destruct (bit b i) eqn:Hb; cbn.
  - destruct (IH (S i) Hwf ltac:(lia)) as [[Hall ->]|(k & b' & Hk & Hf & Hlt & Hs & ->)].
    + left. split; [|reflexivity]. intros k Hk.
      destruct (decide (k = i)) as [->|]; [assumption|]. apply Hall. lia.
    + right. exists k, b'. repeat split; try lia; try assumption.
      intros j Hj. destruct (decide (j = i)) as [->|]; [assumption|]. apply Hlt. lia.
  - destruct (set_spec b i Hwf ltac:(lia)) as (b' & Hs & _).
    right. exists i, b'. rewrite Hs. cbn. repeat split; try lia; assumption.
Qed.

Lemma count_set_from_spec b n : forall i c,
  wf b -> (i + n <= size b)%nat ->
  count_set_from b i n c = Done (c + length (set_bits b i n))%nat.
Proof.
  induction n as [|n IH]; intros i c Hwf Hn; cbn [count_set_from].
  { unfold set_bits. cbn. f_equal. lia. }
  rewrite is_set_spec by (assumption || lia). cbn [bind].
  rewrite IH by (assumption || lia). unfold set_bits.
  cbn [seq]. rewrite filter_cons. destruct (bit b i); case_decide; try congruence;
    cbn [length]; f_equal; lia.
Qed.

Lemma length_set_bits b i n : (length (set_bits b i n) <= n)%nat.
Proof.
  unfold set_bits. etransitivity; [apply length_filter|]. now rewrite length_seq.
Qed.

Lemma length_set_bits_count b n : forall i,
  length (set_bits b i n) = count_range (bit b) i n.
Proof.
  induction n as [|n IH]; intros i; [reflexivity|]. unfold set_bits in *. cbn [seq count_range].
  rewrite filter_cons. specialize (IH (S i)).
  destruct (bit b i); case_decide; try congruence; cbn [length]; lia.
Qed.

Lemma count_set_range b :
  wf b -> count_set b = Done (count_range (bit b) 0 (size b)).
Proof.
  intros Hwf. unfold count_set. rewrite count_set_from_spec by (assumption || lia).
  now rewrite length_set_bits_count.
Qed.


#[export] Hint Resolve byte_index_lt new_wf : panda.

(** ** Properties *)

(** Allocation by [find_and_set]. It returns a number exactly when some tracked bit is clear; the
    number is the lowest clear bit, that bit is the only one to change, and the
    bitmap is untouched when every bit is set. No call panics. *)
Theorem find_and_set_first_clear b :
  wf b ->
  exists r b', find_and_set b = Done (r, b') /\ wf b' /\ size b' = size b /\
    match r with
    | Some k => (k < size b)%nat /\ bit b k = false
        /\ (forall j, (j < k)%nat -> bit b j = true)
        /\ (forall j, bit b' j = (k =? j)%nat || bit b j)
    | None => b' = b /\ forall j, (j < size b)%nat -> bit b j = true
    end.
Proof.
  intros Hwf. unfold find_and_set.
  destruct (find_and_set_from_spec b (size b) 0 Hwf ltac:(lia))
    as [[Hall ->]|(k & b' & Hk & Hf & Hlt & Hs & ->)].
  - exists None, b. repeat split; try assumption. intros j Hj. apply Hall. lia.
  - destruct (set_spec b k Hwf ltac:(lia)) as (b'' & Hs' & Hwf' & Hsz & Hbit).
    assert (b'' = b') as -> by congruence.
    exists (Some k), b'. repeat split; try assumption; try lia.
    intros j Hj. apply Hlt. lia.
Qed.

(** Counting. [count_set] is the number of set tracked bits, [count_clear] its
    complement, and the subtraction never underflows. *)
Theorem count_set_clear_total b :
  wf b ->
  exists c k, count_set b = Done c /\ count_clear b = Done k
    /\ c = length (set_bits b 0 (size b)) /\ (c + k = size b)%nat.
Proof.
  intros Hwf. unfold count_clear, count_set.
  rewrite count_set_from_spec by (assumption || lia). cbn.
  pose proof (length_set_bits b 0 (size b)).
  do 2 eexists. repeat split; lia.
Qed.

End Bitmap.
