(* ===== verification/FrameAlloc.v ===== *)
(** * The physical frame allocator (src/hal/src/memory.rs)

    [Module FrameAllocator] models the reserved regions with their merging,
    the scan of [allocate_frame], deallocation and the reference counts used by
    copy-on-write fork.  Frame numbers are [nat]; the array of 32 optional
    regions and its counter are kept as the code keeps them, and [regions] is
    the list the code's iterator yields.  Overflow checks are those of the
    checked build; [debug_assertions] is a parameter, since [deallocate_frame]
    and [allocate_frame] assert only in debug builds. *)

From S2P Require Import Prelude Bitmap.

Module FrameAllocator.

Definition FRAME_SIZE : nat := 4096.
Definition MAX_RESERVED_REGIONS : nat := 32.
Definition MAX_REFCOUNT : Z := U16_MAX.

Inductive ReservationReason : Type :=
  | KernelImage | Bootloader | PageTables | Heap | InitramfsModule | NullFrame.

Global Instance ReservationReason_eq_dec : EqDecision ReservationReason.
Proof. solve_decision. Defined.

(** [struct ReservedRegion]: the frames [start_frame .. end_frame). *)
Record ReservedRegion : Type := mkRegion {
  start_frame : nat;
  end_frame : nat;
  reason : ReservationReason
}.

Global Instance ReservedRegion_eq_dec : EqDecision ReservedRegion.
Proof. solve_decision. Defined.

Definition contains (r : ReservedRegion) (frame : nat) : bool :=
  ((start_frame r <=? frame) && (frame <? end_frame r))%nat.

Definition overlaps (r other : ReservedRegion) : bool :=
  ((start_frame r <? end_frame other) && (start_frame other <? end_frame r))%nat.

(** [ReservedRegion::try_merge]: the merged region keeps the reason of [r]. *)
Definition try_merge (r other : ReservedRegion) : option ReservedRegion :=
  let adjacent := ((end_frame r =? start_frame other)
                   || (end_frame other =? start_frame r))%nat in
  let overlapping := overlaps r other in
  if adjacent || overlapping
  then Some (mkRegion (Nat.min (start_frame r) (start_frame other))
                      (Nat.max (end_frame r) (end_frame other))
                      (reason r))
  else None.

(** [struct FrameAllocator]; the range [available_frames] is
    [avail_start .. avail_end). *)
Record FrameAllocator : Type := mkFA {
  avail_start : nat;
  avail_end : nat;
  next_frame : nat;
  reserved_regions : list (option ReservedRegion);
  reserved_count : nat;
  allocation_bitmap : Bitmap.Bitmap;
  refcounts : option (list Z)
}.

(** Field assignments. *)
Definition with_next (fa : FrameAllocator) (n : nat) : FrameAllocator :=
  mkFA (avail_start fa) (avail_end fa) n (reserved_regions fa)
       (reserved_count fa) (allocation_bitmap fa) (refcounts fa).
Definition with_regions (fa : FrameAllocator) (regs : list (option ReservedRegion))
    (count : nat) : FrameAllocator :=
  mkFA (avail_start fa) (avail_end fa) (next_frame fa) regs count
       (allocation_bitmap fa) (refcounts fa).
Definition with_bitmap (fa : FrameAllocator) (b : Bitmap.Bitmap) : FrameAllocator :=
  mkFA (avail_start fa) (avail_end fa) (next_frame fa) (reserved_regions fa)
       (reserved_count fa) b (refcounts fa).
Definition with_refcounts (fa : FrameAllocator) (rc : option (list Z)) : FrameAllocator :=
  mkFA (avail_start fa) (avail_end fa) (next_frame fa) (reserved_regions fa)
       (reserved_count fa) (allocation_bitmap fa) rc.

(** [FrameAllocator::new]. *)
Definition new (start end_ : nat) (bitmap_storage : list Z) : outcome FrameAllocator :=
  let total_frames := (end_ - start)%nat in
  let! allocation_bitmap := Bitmap.new bitmap_storage total_frames in
  Done (mkFA start end_ start (replicate MAX_RESERVED_REGIONS None) 0
             allocation_bitmap None).

(** [total_frames]: the subtraction is checked. *)
Definition total_frames (fa : FrameAllocator) : outcome nat :=
  if (avail_start fa <=? avail_end fa)%nat
  then Done (avail_end fa - avail_start fa)%nat else Panicked.

(** [set_refcount_storage]. *)
Definition set_refcount_storage (fa : FrameAllocator) (storage : list Z)
    : outcome FrameAllocator :=
  let! total := total_frames fa in
  let! _ := rust_assert (total <=? length storage)%nat in
  Done (with_refcounts fa (Some (replicate total 0 ++ drop total storage))).

(** The inner loop of [consolidate_reservations] over [j], [n] steps left. *)
Fixpoint scan_j (regs : list (option ReservedRegion)) (i j n : nat)
    : outcome (option (nat * ReservedRegion)) :=
  match n with
  | O => Done None
  | S n' =>
      let! region_i := index regs i in
      let! region_j := index regs j in
      match region_i, region_j with
      | Some ri, Some rj =>
          match try_merge ri rj with
          | Some merged => Done (Some (j, merged))
          | None => scan_j regs i (S j) n'
          end
      | _, _ => scan_j regs i (S j) n'
      end
  end.

(** The outer loop over [i], [n] steps left. *)
Fixpoint scan_i (regs : list (option ReservedRegion)) (count i n : nat)
    : outcome (option (nat * nat * ReservedRegion)) :=
  match n with
  | O => Done None
  | S n' =>
      let! found := scan_j regs i (S i) (count - S i) in
      match found with
      | Some (j, merged) => Done (Some (i, j, merged))
      | None => scan_i regs count (S i) n'
      end
  end.

(** [for k in j..count - 1 { regs[k] = regs[k + 1] }]. *)
Fixpoint shift_down (regs : list (option ReservedRegion)) (k n : nat)
    : outcome (list (option ReservedRegion)) :=
  match n with
  | O => Done regs
  | S n' =>
      let! x := index regs (S k) in
      let! regs' := index_set regs k x in
      shift_down regs' (S k) n'
  end.

(** One turn of the [while changed] loop: [None] when nothing merged. *)
Definition consolidate_pass (regs : list (option ReservedRegion)) (count : nat)
    : outcome (option (list (option ReservedRegion) * nat)) :=
  let! found := scan_i regs count 0 count in
  match found with
  | None => Done None
  | Some (i, j, merged) =>
      let! regs1 := index_set regs i (Some merged) in
      let! regs2 := shift_down regs1 j (count - 1 - j) in
      let! regs3 := index_set regs2 (count - 1) None in
      Done (Some (regs3, count - 1)%nat)
  end.

Fixpoint consolidate_loop (fuel : nat) (regs : list (option ReservedRegion))
    (count : nat) : outcome (list (option ReservedRegion) * nat) :=
  match fuel with
  | O => Done (regs, count)
  | S fuel' =>
      let! r := consolidate_pass regs count in
      match r with
      | Some (regs', count') => consolidate_loop fuel' regs' count'
      | None => Done (regs, count)
      end
  end.

(** [consolidate_reservations]: every turn that merges lowers the count, so
    [count] turns are enough. *)
Definition consolidate_reservations (regs : list (option ReservedRegion))
    (count : nat) : outcome (list (option ReservedRegion) * nat) :=
  consolidate_loop count regs count.

(** The merging loop of [reserve_range]: [Some regs'] when slot [i] absorbed
    the new region. *)
Fixpoint merge_into (regs : list (option ReservedRegion)) (new_region : ReservedRegion)
    (i n : nat) : outcome (option (list (option ReservedRegion))) :=
  match n with
  | O => Done None
  | S n' =>
      let! existing := index regs i in
      match existing with
      | Some r =>
          match try_merge r new_region with
          | Some merged_region =>
              let! regs' := index_set regs i (Some merged_region) in
              Done (Some regs')
          | None => merge_into regs new_region (S i) n'
          end
      | None => merge_into regs new_region (S i) n'
      end
  end.

(** [reserve_range]. *)
Definition reserve_range (fa : FrameAllocator) (start end_ : nat)
    (why : ReservationReason) : outcome FrameAllocator :=
  if (end_ <=? start)%nat then Done fa else
  let new_region := mkRegion start end_ why in
  let! merged := merge_into (reserved_regions fa) new_region 0 (reserved_count fa) in
  match merged with
  | Some regs =>
      let! (regs', count') := consolidate_reservations regs (reserved_count fa) in
      Done (with_regions fa regs' count')
  | None =>
      let! _ := rust_assert (reserved_count fa <? MAX_RESERVED_REGIONS)%nat in
      let! regs' := index_set (reserved_regions fa) (reserved_count fa) (Some new_region) in
      Done (with_regions fa regs' (S (reserved_count fa)))
  end.

(** The loop of [is_reserved]. *)
Fixpoint is_reserved_from (regs : list (option ReservedRegion)) (frame i n : nat)
    : outcome bool :=
  match n with
  | O => Done false
  | S n' =>
      let! region := index regs i in
      match region with
      | Some r => if contains r frame then Done true
                  else is_reserved_from regs frame (S i) n'
      | None => is_reserved_from regs frame (S i) n'
      end
  end.

Definition is_reserved (fa : FrameAllocator) (frame : nat) : outcome bool :=
  is_reserved_from (reserved_regions fa) frame 0 (reserved_count fa).

Definition frame_index (fa : FrameAllocator) (frame : nat) : option nat :=
  if ((frame <? avail_start fa) || (avail_end fa <=? frame))%nat
  then None else Some (frame - avail_start fa)%nat.

Definition is_allocated (fa : FrameAllocator) (frame : nat) : outcome bool :=
  match frame_index fa frame with
  | Some idx => Bitmap.is_set (allocation_bitmap fa) idx
  | None => Done false
  end.

Definition set_allocated (fa : FrameAllocator) (frame : nat) : outcome FrameAllocator :=
  match frame_index fa frame with
  | Some idx =>
      let! b := Bitmap.set (allocation_bitmap fa) idx in Done (with_bitmap fa b)
  | None => Done fa
  end.

Definition clear_allocated (fa : FrameAllocator) (frame : nat) : outcome FrameAllocator :=
  match frame_index fa frame with
  | Some idx =>
      let! b := Bitmap.clear (allocation_bitmap fa) idx in Done (with_bitmap fa b)
  | None => Done fa
  end.

(** The iterator [reserved_regions()]. *)
Definition regions (fa : FrameAllocator) : list ReservedRegion :=
  omap id (take (reserved_count fa) (reserved_regions fa)).

Definition reserved_frames (fa : FrameAllocator) : nat :=
  sum_list ((fun r => end_frame r - start_frame r)%nat <$> regions fa).

Definition usable_frames (fa : FrameAllocator) : outcome nat :=
  let! total := total_frames fa in Done (total - reserved_frames fa)%nat.

Definition allocated_frames (fa : FrameAllocator) : outcome nat :=
  Bitmap.count_set (allocation_bitmap fa).

Definition available_frames (fa : FrameAllocator) : outcome nat :=
  let! usable := usable_frames fa in
  let! allocated := allocated_frames fa in
  Done (usable - allocated)%nat.

(** [refcounts[index] = v] when refcounting is enabled. *)
Definition set_refcount (fa : FrameAllocator) (frame : nat) (v : Z)
    : outcome FrameAllocator :=
  match frame_index fa frame, refcounts fa with
  | Some idx, Some rc =>
      let! rc' := index_set rc idx v in Done (with_refcounts fa (Some rc'))
  | _, _ => Done fa
  end.

(** The [while checked < total_frames] loop, [n] frames left to check. *)
Fixpoint allocate_scan (fa : FrameAllocator) (frame n : nat)
    : outcome (option nat * FrameAllocator) :=
  match n with
  | O => Done (None, fa)
  | S n' =>
      let frame := if (avail_end fa <=? frame)%nat then avail_start fa else frame in
      let! reserved := is_reserved fa frame in
      let! taken := (if reserved then Done true else is_allocated fa frame) in
      if negb taken then
        let! fa1 := set_allocated fa frame in
        let! fa2 := set_refcount fa1 frame 1 in
        Done (Some frame, with_next fa2 (S frame))
      else allocate_scan fa (S frame) n'
  end.

Section Debug.
Context (debug_assertions : bool).

(** [allocate_frame]. *)
Definition allocate_frame (fa : FrameAllocator)
    : outcome (option nat * FrameAllocator) :=
  let! _ := rust_assert (negb debug_assertions || (next_frame fa <=? avail_end fa)%nat) in
  let! total := total_frames fa in
  if (total =? 0)%nat then Done (None, fa) else
  let frame := next_frame fa in
  let frame := if ((frame <? avail_start fa) || (avail_end fa <=? frame))%nat
               then avail_start fa else frame in
  allocate_scan fa frame total.

(** [deallocate_frame]. *)
Definition deallocate_frame (fa : FrameAllocator) (frame : nat)
    : outcome FrameAllocator :=
  let! reserved := is_reserved fa frame in
  if reserved then Done fa else
  let! allocated := is_allocated fa frame in
  if negb allocated then
    let! _ := rust_assert (negb debug_assertions) in Done fa
  else
    let! fa1 := set_refcount fa frame 0 in
    let! fa2 := clear_allocated fa1 frame in
    Done (if (frame <? next_frame fa2)%nat then with_next fa2 frame else fa2).

End Debug.

Definition frame_to_addr (frame : nat) : nat := (frame * FRAME_SIZE)%nat.
Definition addr_to_frame (addr : nat) : nat := (addr / FRAME_SIZE)%nat.

(** [inc_refcount]. *)
Definition inc_refcount (fa : FrameAllocator) (frame : nat)
    : outcome (option Z * FrameAllocator) :=
  match frame_index fa frame, refcounts fa with
  | Some idx, Some rc =>
      let! refcount := index rc idx in
      let refcount' := if (0 <? refcount) && (refcount <? MAX_REFCOUNT)
                       then refcount + 1 else refcount in
      let! rc' := index_set rc idx refcount' in
      Done (Some refcount', with_refcounts fa (Some rc'))
  | _, _ => Done (None, fa)
  end.

(** [dec_refcount]. *)
Definition dec_refcount (fa : FrameAllocator) (frame : nat)
    : outcome (option Z * FrameAllocator) :=
  match frame_index fa frame, refcounts fa with
  | Some idx, Some rc =>
      let! refcount := index rc idx in
      if 0 <? refcount then
        let new_count := refcount - 1 in
        let! rc' := index_set rc idx new_count in
        let fa1 := with_refcounts fa (Some rc') in
        if new_count =? 0 then
          let! fa2 := clear_allocated fa1 frame in
          Done (Some new_count,
                if (frame <? next_frame fa2)%nat then with_next fa2 frame else fa2)
        else Done (Some new_count, fa1)
      else Done (None, fa)
  | _, _ => Done (None, fa)
  end.

(** [get_refcount]. *)
Definition get_refcount (fa : FrameAllocator) (frame : nat) : outcome (option Z) :=
  match frame_index fa frame, refcounts fa with
  | Some idx, Some rc => let! refcount := index rc idx in Done (Some refcount)
  | _, _ => Done None
  end.

(** ** Abstract view and invariant *)

Definition nonempty (r : ReservedRegion) : Prop := (start_frame r < end_frame r)%nat.

(** Some region of [rs] contains the frame. *)
Definition covered (rs : list ReservedRegion) (frame : nat) : bool :=
  existsb (fun r => contains r frame) rs.

(** No two regions overlap or touch. *)
Definition separated (rs : list ReservedRegion) : Prop :=
  forall i j ri rj, (i < j)%nat -> rs !! i = Some ri -> rs !! j = Some rj ->
  try_merge ri rj = None.

(** The array holds exactly [rs], in its first slots. *)
Definition repr (regs : list (option ReservedRegion)) (count : nat)
    (rs : list ReservedRegion) : Prop :=
  count = length rs /\ (count <= MAX_RESERVED_REGIONS)%nat
  /\ regs = (Some <$> rs) ++ replicate (MAX_RESERVED_REGIONS - count) None.

Definition allocated (fa : FrameAllocator) (frame : nat) : bool :=
  match frame_index fa frame with
  | Some idx => Bitmap.bit (allocation_bitmap fa) idx
  | None => false
  end.

Definition reserved (fa : FrameAllocator) (frame : nat) : bool :=
  covered (regions fa) frame.

Definition in_range (fa : FrameAllocator) (frame : nat) : bool :=
  ((avail_start fa <=? frame) && (frame <? avail_end fa))%nat.

(** A frame the allocator may hand out. *)
Definition free (fa : FrameAllocator) (frame : nat) : bool :=
  in_range fa frame && negb (reserved fa frame) && negb (allocated fa frame).

(** A reference count is positive exactly for an allocated frame. *)
Definition refcounts_ok (fa : FrameAllocator) : Prop :=
  match refcounts fa with
  | None => True
  | Some rc =>
      (avail_end fa - avail_start fa <= length rc)%nat
      /\ forall idx c, (idx < avail_end fa - avail_start fa)%nat -> rc !! idx = Some c ->
           is_u16 c /\ (0 <? c) = Bitmap.bit (allocation_bitmap fa) idx
  end.

Record inv (fa : FrameAllocator) : Prop := mkInv {
  inv_range : (avail_start fa <= next_frame fa <= avail_end fa)%nat;
  inv_repr : repr (reserved_regions fa) (reserved_count fa) (regions fa);
  inv_nonempty : Forall nonempty (regions fa);
  inv_separated : separated (regions fa);
  inv_bitmap : Bitmap.wf (allocation_bitmap fa);
  inv_size : Bitmap.size (allocation_bitmap fa) = (avail_end fa - avail_start fa)%nat;
  inv_refcounts : refcounts_ok fa
}.

(** The state after writing the bitmap bit and the count of one frame. *)
Definition update_frame (fa : FrameAllocator) (frame : nat) (b : Bitmap.Bitmap) (c : Z)
    (next : nat) : FrameAllocator :=
  mkFA (avail_start fa) (avail_end fa) next (reserved_regions fa) (reserved_count fa) b
       ((fun rc => <[(frame - avail_start fa)%nat := c]> rc) <$> refcounts fa).

(** The frames the scan looks at, in order. *)
Fixpoint visited (fa : FrameAllocator) (frame n : nat) : list nat :=
  match n with
  | O => []
  | S n' =>
      let frame := if (avail_end fa <=? frame)%nat then avail_start fa else frame in
      frame :: visited fa (S frame) n'
  end.

(** What one successful allocation of [f] does to the state. *)
Definition claimed (fa : FrameAllocator) (f : nat) (fa' : FrameAllocator) : Prop :=
  exists b, fa' = update_frame fa f b 1 (S f) /\ Bitmap.wf b
    /\ Bitmap.size b = Bitmap.size (allocation_bitmap fa)
    /\ forall i, Bitmap.bit b i = if (f - avail_start fa =? i)%nat then true
                                  else Bitmap.bit (allocation_bitmap fa) i.

(** The number of frames [allocate_frame] can still hand out. *)
Definition free_count (fa : FrameAllocator) : nat :=
  count_range (free fa) (avail_start fa) (avail_end fa - avail_start fa).

(** [n] allocations in a row, stopping at the first failure. *)
Fixpoint allocate_n (dbg : bool) (n : nat) (fa : FrameAllocator)
    : outcome (list nat * FrameAllocator) :=
  match n with
  | O => Done ([], fa)
  | S n' =>
      let! (r, fa1) := allocate_frame dbg fa in
      match r with
      | None => Done ([], fa1)
      | Some f => let! (fs, fa2) := allocate_n dbg n' fa1 in Done (f :: fs, fa2)
      end
  end.

(** A public operation of the allocator, and its effect on the state. *)
Inductive op : Type :=
  | OpReserve (start end_ : nat) (why : ReservationReason)
  | OpAllocate
  | OpDeallocate (frame : nat)
  | OpInc (frame : nat)
  | OpDec (frame : nat).

Definition exec (dbg : bool) (fa : FrameAllocator) (o : op) : outcome FrameAllocator :=
  match o with
  | OpReserve s e why => reserve_range fa s e why
  | OpAllocate => let! (_, fa') := allocate_frame dbg fa in Done fa'
  | OpDeallocate f => deallocate_frame dbg fa f
  | OpInc f => let! (_, fa') := inc_refcount fa f in Done fa'
  | OpDec f => let! (_, fa') := dec_refcount fa f in Done fa'
  end.

Fixpoint run (dbg : bool) (fa : FrameAllocator) (ops : list op) : outcome FrameAllocator :=
  match ops with
  | [] => Done fa
  | o :: ops' => let! fa' := exec dbg fa o in run dbg fa' ops'
  end.

(** Boot: [new] over cleared storage, then the reference counts. *)
Definition boot (start end_ : nat) (bitmap_storage refcount_storage : list Z)
    : outcome FrameAllocator :=
  let! fa := new start end_ bitmap_storage in
  set_refcount_storage fa refcount_storage.

(** States the kernel can bring the allocator into. *)
Inductive reachable (dbg : bool) : FrameAllocator -> Prop :=
  | reach_boot s e bs rs fa :
      (s <= e)%nat -> boot s e bs rs = Done fa -> reachable dbg fa
  | reach_step fa o fa' :
      reachable dbg fa -> exec dbg fa o = Done fa' -> reachable dbg fa'.

(** A small allocator: frames 2 to 9, the frames 4 and 5 reserved, two frames
    allocated, one of them shared. *)
Definition demo_ops : list op :=
  [OpReserve 4 5 Heap; OpReserve 5 6 PageTables; OpAllocate; OpAllocate; OpInc 3].

Definition demo : FrameAllocator :=
  match let! fa := boot 2 10 [255] (replicate 8 9) in run true fa demo_ops with
  | Done fa => fa
  | Panicked => mkFA 0 0 0 [] 0 (Bitmap.mkBitmap [] 0) None
  end.

(** ** Lemmas on regions *)

Lemma contains_spec r f :
  contains r f = true <-> (start_frame r <= f < end_frame r)%nat.
Proof. unfold contains. lia. Qed.

Lemma covered_spec rs f :
  covered rs f = true <-> exists k r, rs !! k = Some r /\ contains r f = true.
Proof.
  unfold covered. rewrite existsb_exists. setoid_rewrite <- list_elem_of_In.
  setoid_rewrite list_elem_of_lookup. naive_solver.
Qed.

Lemma covered_app rs rs' f : covered (rs ++ rs') f = covered rs f || covered rs' f.
Proof. apply existsb_app. Qed.

Lemma try_merge_contains r1 r2 m f :
  nonempty r1 -> nonempty r2 -> try_merge r1 r2 = Some m ->
  nonempty m /\ contains m f = contains r1 f || contains r2 f.
Proof.
  unfold try_merge, overlaps, nonempty, contains. intros H1 H2 H.
  case_match; [|discriminate]. injection H as <-. cbn [start_frame end_frame]. lia.
Qed.

Lemma try_merge_none_disjoint r1 r2 f :
  try_merge r1 r2 = None -> contains r1 f = true -> contains r2 f = false.
Proof.
  unfold try_merge, overlaps, contains. intros H. case_match; [discriminate|]. lia.
Qed.

Section Repr.
Context (regs : list (option ReservedRegion)) (count : nat) (rs : list ReservedRegion).
Context (Hrepr : repr regs count rs).

Lemma repr_length : length regs = MAX_RESERVED_REGIONS.
Proof.
  destruct Hrepr as (-> & Hle & ->).
  rewrite length_app, length_fmap, length_replicate. lia.
Qed.

Lemma repr_lookup k :
  regs !! k = if (k <? count)%nat then Some <$> (rs !! k)
              else if (k <? MAX_RESERVED_REGIONS)%nat then Some None else None.
Proof.
  destruct Hrepr as (Hc & Hle & ->). destruct (Nat.ltb_spec k count).
  - rewrite lookup_app_l by (rewrite length_fmap; lia). apply list_lookup_fmap.
  - rewrite lookup_app_r by (rewrite length_fmap; lia). rewrite length_fmap.
    destruct (Nat.ltb_spec k MAX_RESERVED_REGIONS).
    + apply lookup_replicate_2. lia.
    + apply lookup_ge_None_2. rewrite length_replicate. lia.
Qed.

Lemma repr_index k :
  (k < count)%nat -> exists r, rs !! k = Some r /\ index regs k = Done (Some r).
Proof.
  intros Hk. assert (k < length rs)%nat as Hlt by (destruct Hrepr; lia).
  destruct (lookup_lt_is_Some_2 rs k Hlt) as [r Hr]. exists r. split; [assumption|].
  apply index_Done. rewrite repr_lookup, Hr, (proj2 (Nat.ltb_lt _ _) Hk). reflexivity.
Qed.

Lemma repr_regions : omap id (take count regs) = rs.
Proof.
  destruct Hrepr as (-> & Hle & ->). rewrite take_app_length' by now rewrite length_fmap.
  clear. induction rs as [|r l IH]; cbn; [reflexivity|]. f_equal. apply IH.
Qed.

Lemma scan_j_spec n : forall i j,
  (i < count)%nat -> (j + n <= count)%nat ->
  exists o, scan_j regs i j n = Done o /\
    match o with
    | Some (k, m) => (j <= k < j + n)%nat /\ exists ri rk,
        rs !! i = Some ri /\ rs !! k = Some rk /\ try_merge ri rk = Some m
    | None => forall k ri rk, (j <= k < j + n)%nat ->
        rs !! i = Some ri -> rs !! k = Some rk -> try_merge ri rk = None
    end.
Proof using Hrepr.
  induction n as [|n IH]; intros i j Hi Hj; cbn [scan_j].
  { exists None. split; [reflexivity|]. intros; lia. }
  destruct (repr_index i Hi) as (ri & Hri & ->).
  destruct (repr_index j ltac:(lia)) as (rj & Hrj & ->). cbn.
  destruct (try_merge ri rj) as [m|] eqn:Hm.
  { exists (Some (j, m)). split; [reflexivity|]. split; [lia|]. eauto. }
  destruct (IH i (S j) Hi ltac:(lia)) as (o & -> & Ho). exists o. split; [reflexivity|].
  destruct o as [[k m]|].
  - destruct Ho as [? Ho]. split; [lia|exact Ho].
  - intros k ri' rk Hk Hi' Hk'. destruct (decide (k = j)) as [->|]; [congruence|].
    eapply Ho; eauto. lia.
Qed.

Lemma scan_i_spec n : forall i,
  (i + n <= count)%nat ->
  exists o, scan_i regs count i n = Done o /\
    match o with
    | Some (k, j, m) => (i <= k < j)%nat /\ (j < count)%nat /\ exists rk rj,
        rs !! k = Some rk /\ rs !! j = Some rj /\ try_merge rk rj = Some m
    | None => forall k j rk rj, (i <= k < i + n)%nat -> (k < j < count)%nat ->
        rs !! k = Some rk -> rs !! j = Some rj -> try_merge rk rj = None
    end.
Proof using Hrepr.
  induction n as [|n IH]; intros i Hi; cbn [scan_i].
  { exists None. split; [reflexivity|]. intros; lia. }
  destruct (scan_j_spec (count - S i) i (S i) ltac:(lia) ltac:(lia)) as (o & -> & Ho).
  cbn. destruct o as [[j m]|].
  { destruct Ho as [? Ho]. eexists. split; [reflexivity|]. repeat split; try lia. exact Ho. }
  destruct (IH (S i) ltac:(lia)) as (o & -> & Ho'). exists o. split; [reflexivity|].
  destruct o as [[[k j] m]|].
  - destruct Ho' as (? & ? & Ho'). repeat split; try lia. exact Ho'.
  - intros k j rk rj Hk Hj. destruct (decide (k = i)) as [->|].
    + apply Ho. lia.
    + apply Ho'; lia.
Qed.

End Repr.

Lemma shift_down_spec n : forall regs k,
  (S (k + n) <= length regs)%nat ->
  exists regs', shift_down regs k n = Done regs' /\ length regs' = length regs
    /\ forall p, regs' !! p = if ((k <=? p) && (p <? k + n))%nat
                              then regs !! S p else regs !! p.
Proof.
  induction n as [|n IH]; intros regs k Hk; cbn [shift_down].
  { exists regs. repeat split. intros p. replace (_ && _) with false by lia. reflexivity. }
  destruct (index_lt regs (S k) ltac:(lia)) as (x & Hx & ->). cbn [bind].
  rewrite index_set_lt by lia. cbn [bind].
  destruct (IH (<[k := x]> regs) (S k)) as (regs' & -> & Hlen & Hl);
    [rewrite length_insert; lia|].
  exists regs'. split; [reflexivity|]. split; [now rewrite Hlen, length_insert|].
  intros p. rewrite Hl. destruct (decide (p = k)) as [->|Hne].
  - replace ((S k <=? k) && _)%nat with false by lia.
    replace ((k <=? k) && _)%nat with true by lia.
    rewrite list_lookup_insert_eq by lia. now rewrite Hx.
  - rewrite (list_lookup_insert_ne _ k p) by lia.
    destruct (Nat.leb_spec (S k) p); cbn [andb].
    + rewrite list_lookup_insert_ne by lia.
      replace (k <=? p)%nat with true by lia. cbn [andb].
      now replace (p <? S k + n)%nat with (p <? k + S n)%nat by lia.
    + now replace (k <=? p)%nat with false by lia.
Qed.

Lemma repr_intro regs count rs :
  count = length rs -> (count <= MAX_RESERVED_REGIONS)%nat ->
  (forall k, regs !! k = if (k <? count)%nat then Some <$> (rs !! k)
     else if (k <? MAX_RESERVED_REGIONS)%nat then Some None else None) ->
  repr regs count rs.
Proof.
  intros Hc Hle Hl. repeat split; try assumption. apply list_eq. intros k.
  rewrite Hl. symmetry. apply (repr_lookup _ count rs). repeat split; assumption.
Qed.

Lemma repr_insert regs count rs i r :
  repr regs count rs -> (i < count)%nat ->
  index_set regs i (Some r) = Done (<[i := Some r]> regs)
  /\ repr (<[i := Some r]> regs) count (<[i := r]> rs).
Proof.
  intros Hr Hi. pose proof Hr as (Hc & Hle & Heq).
  split; [apply index_set_lt; rewrite (repr_length _ _ _ Hr); lia|].
  repeat split; [now rewrite length_insert|assumption|].
  rewrite Heq, insert_app_l by (rewrite length_fmap; lia).
  now rewrite list_fmap_insert.
Qed.

(** The body of the merging turn: slot [j] disappears into slot [i]. *)
Lemma remove_slot_spec regs count rs j :
  repr regs count rs -> (j < count)%nat ->
  exists regs2, shift_down regs j (count - 1 - j) = Done regs2
    /\ index_set regs2 (count - 1) None = Done (<[(count - 1)%nat := None]> regs2)
    /\ repr (<[(count - 1)%nat := None]> regs2) (count - 1) (delete j rs).
Proof.
  intros Hr Hj. pose proof Hr as (Hc & Hle & _). pose proof (repr_length _ _ _ Hr) as Hlen.
  destruct (shift_down_spec (count - 1 - j) regs j) as (regs2 & -> & Hlen2 & Hl); [lia|].
  exists regs2. split; [reflexivity|]. split; [apply index_set_lt; lia|].
  apply repr_intro; [|lia|].
  { rewrite length_delete; [lia|]. apply lookup_lt_is_Some_2. lia. }
  intros k. destruct (decide (k = count - 1)%nat) as [->|Hne].
  { rewrite list_lookup_insert_eq by lia. replace (_ <? _)%nat with false by lia.
    now replace (_ <? _)%nat with true by lia. }
  rewrite list_lookup_insert_ne, Hl, !(repr_lookup _ _ _ Hr) by lia.
  destruct (Nat.ltb_spec k j).
  - replace ((j <=? k) && _)%nat with false by lia.
    replace (k <? count)%nat with true by lia. replace (k <? count - 1)%nat with true by lia.
    now rewrite list_lookup_delete_lt by lia.
  - destruct (Nat.ltb_spec k (count - 1)).
    + replace ((j <=? k) && _)%nat with true by lia. replace (S k <? count)%nat with true by lia.
      now rewrite list_lookup_delete_ge by lia.
    + replace ((j <=? k) && _)%nat with false by lia. now replace (k <? count)%nat with false by lia.
Qed.

Lemma consolidate_pass_spec regs count rs :
  repr regs count rs ->
  exists o, consolidate_pass regs count = Done o /\
    match o with
    | None => separated rs
    | Some (regs', count') => exists i j ri rj m, (i < j)%nat /\ rs !! i = Some ri
        /\ rs !! j = Some rj /\ try_merge ri rj = Some m
        /\ count' = (count - 1)%nat /\ (0 < count)%nat
        /\ repr regs' count' (delete j (<[i := m]> rs))
    end.
Proof.
  intros Hr. pose proof Hr as (Hc & Hle & _). unfold consolidate_pass.
  destruct (scan_i_spec regs count rs Hr count 0 ltac:(lia)) as (o & -> & Ho). cbn [bind].
  destruct o as [[[i j] m]|].
  - destruct Ho as (Hij & Hjc & ri & rj & Hri & Hrj & Hm).
    destruct (repr_insert regs count rs i m Hr ltac:(lia)) as [-> Hr1]. cbn [bind].
    destruct (remove_slot_spec _ _ _ j Hr1 Hjc) as (regs2 & -> & Hs & Hr2). cbn [bind].
    rewrite Hs. eexists. split; [reflexivity|].
    exists i, j, ri, rj, m. repeat split; try lia; try assumption; apply Hr2.
  - exists None. split; [reflexivity|]. intros i j ri rj Hij Hi Hj.
    apply lookup_lt_Some in Hj as Hj'. eapply Ho; eauto; lia.
Qed.

Lemma covered_merge rs i j ri rj m f :
  (i < j)%nat -> Forall nonempty rs ->
  rs !! i = Some ri -> rs !! j = Some rj -> try_merge ri rj = Some m ->
  covered (delete j (<[i := m]> rs)) f = covered rs f
  /\ Forall nonempty (delete j (<[i := m]> rs)).
Proof.
  intros Hij Hne Hi Hj Hm.
  assert (nonempty ri /\ nonempty rj) as [Hni Hnj]
    by (rewrite Forall_lookup in Hne; eauto).
  destruct (try_merge_contains ri rj m f Hni Hnj Hm) as [Hnm Hc].
  split; [|apply Forall_delete, Forall_insert; assumption].
  apply lookup_lt_Some in Hi as Hi'. apply Bool.eq_iff_eq_true. rewrite !covered_spec. split.
  - intros (k & r & Hk & Hf). rewrite list_lookup_delete in Hk.
    destruct (decide (i = if decide (k < j)%nat then k else S k)) as [E|Hn].
    + rewrite <- E in Hk. rewrite list_lookup_insert_eq in Hk by assumption. injection Hk as <-.
      rewrite Hc in Hf. apply orb_true_iff in Hf as [?|?]; eauto.
    + rewrite list_lookup_insert_ne in Hk by assumption. eauto.
  - intros (k & r & Hk & Hf). destruct (decide (k = i \/ k = j)) as [Hor|Hn].
    + exists i, m. rewrite list_lookup_delete_lt, list_lookup_insert_eq by assumption.
      split; [reflexivity|]. rewrite Hc.
      destruct Hor as [-> | ->]; [assert (r = ri) as -> by congruence
                                 |assert (r = rj) as -> by congruence];
        rewrite Hf; [reflexivity|apply orb_true_r].
    + destruct (decide (k < j)%nat).
      * exists k, r. rewrite list_lookup_delete_lt, list_lookup_insert_ne by naive_solver. auto.
      * exists (k - 1)%nat, r. rewrite list_lookup_delete_ge by lia.
        replace (S (k - 1)) with k by lia. rewrite list_lookup_insert_ne by naive_solver. auto.
Qed.

Lemma consolidate_loop_spec fuel : forall regs count rs,
  repr regs count rs -> Forall nonempty rs -> (count <= fuel)%nat ->
  exists regs' count' rs', consolidate_loop fuel regs count = Done (regs', count')
    /\ repr regs' count' rs' /\ Forall nonempty rs' /\ separated rs'
    /\ forall f, covered rs' f = covered rs f.
Proof.
  induction fuel as [|fuel IH]; intros regs count rs Hr Hne Hf; cbn [consolidate_loop].
  { exists regs, count, rs. repeat split; try assumption; try apply Hr.
    destruct Hr as (Hc & _). intros i j ri rj _ Hi. apply lookup_lt_Some in Hi. lia. }
  destruct (consolidate_pass_spec _ _ _ Hr) as (o & -> & Ho). cbn [bind].
  destruct o as [[regs1 count1]|].
  - destruct Ho as (i & j & ri & rj & m & Hij & Hi & Hj & Hm & -> & Hpos & Hr1).
    destruct (covered_merge rs i j ri rj m 0 Hij Hne Hi Hj Hm) as [_ Hne1].
    destruct (IH _ _ _ Hr1 Hne1 ltac:(lia)) as (regs' & count' & rs' & -> & Hr' & Hn' & Hs' & Hc').
    exists regs', count', rs'. repeat split; try assumption; try apply Hr'.
    intros f. rewrite Hc'. eapply covered_merge; eauto.
  - exists regs, count, rs. repeat split; try assumption; apply Hr.
Qed.

Lemma merge_into_spec regs count rs new_region n : forall i,
  repr regs count rs -> (i + n <= count)%nat ->
  exists o, merge_into regs new_region i n = Done o /\
    match o with
    | Some regs' => exists k r m, rs !! k = Some r /\ try_merge r new_region = Some m
        /\ repr regs' count (<[k := m]> rs)
    | None => forall k r, (i <= k < i + n)%nat -> rs !! k = Some r ->
        try_merge r new_region = None
    end.
Proof.
  induction n as [|n IH]; intros i Hr Hi; cbn [merge_into].
  { exists None. split; [reflexivity|]. intros; lia. }
  destruct (repr_index regs count rs Hr i ltac:(lia)) as (r & Hri & ->). cbn [bind].
  destruct (try_merge r new_region) as [m|] eqn:Hm.
  - destruct (repr_insert regs count rs i m Hr ltac:(lia)) as [-> Hr1]. cbn [bind].
    eexists. split; [reflexivity|]. exists i, r, m. auto.
  - destruct (IH (S i) Hr ltac:(lia)) as (o & -> & Ho). exists o. split; [reflexivity|].
    destruct o as [regs'|]; [exact Ho|]. intros k r' Hk Hk'.
    destruct (decide (k = i)) as [->|]; [congruence|]. eapply Ho; eauto. lia.
Qed.


(** ** Lemmas on single frames *)

Lemma is_reserved_from_spec regs count rs frame n : forall i,
  repr regs count rs -> (i + n = count)%nat ->
  is_reserved_from regs frame i n = Done (covered (drop i rs) frame).
Proof.
  induction n as [|n IH]; intros i Hr Hi; cbn [is_reserved_from].
  { pose proof Hr as (Hc & _). now rewrite drop_ge by lia. }
  destruct (repr_index regs count rs Hr i ltac:(lia)) as (r & Hri & ->). cbn [bind].
  rewrite (drop_S rs r i Hri). unfold covered. cbn [existsb].
  destruct (contains r frame); [reflexivity|]. apply IH; [assumption|lia].
Qed.

Lemma frame_index_spec fa frame :
  frame_index fa frame
  = if in_range fa frame then Some (frame - avail_start fa)%nat else None.
Proof. unfold frame_index, in_range. case_match; case_match; lia || reflexivity. Qed.

Section Invariant.
Context (fa : FrameAllocator) (Hinv : inv fa).

Lemma is_reserved_spec frame : is_reserved fa frame = Done (reserved fa frame).
Proof using Hinv.
  unfold is_reserved, reserved. rewrite <- (drop_0 (regions fa)).
  eapply is_reserved_from_spec; [apply Hinv|lia].
Qed.

Lemma index_in_size frame :
  in_range fa frame = true ->
  (frame - avail_start fa < Bitmap.size (allocation_bitmap fa))%nat.
Proof using Hinv. unfold in_range. destruct Hinv. lia. Qed.

Lemma is_allocated_spec frame : is_allocated fa frame = Done (allocated fa frame).
Proof using Hinv.
  unfold is_allocated, allocated. rewrite frame_index_spec.
  destruct (in_range fa frame) eqn:Hr; [|reflexivity].
  apply Bitmap.is_set_spec; [apply Hinv|now apply index_in_size].
Qed.

Lemma total_frames_spec : total_frames fa = Done (avail_end fa - avail_start fa)%nat.
Proof using Hinv.
  unfold total_frames. destruct Hinv. now replace (_ <=? _)%nat with true by lia.
Qed.

(** Setting or clearing the bit of a frame in range. *)
Lemma set_allocated_spec frame :
  in_range fa frame = true ->
  exists b, set_allocated fa frame = Done (with_bitmap fa b)
    /\ Bitmap.wf b /\ Bitmap.size b = Bitmap.size (allocation_bitmap fa)
    /\ forall i, Bitmap.bit b i
        = (frame - avail_start fa =? i)%nat || Bitmap.bit (allocation_bitmap fa) i.
Proof using Hinv.
  intros Hr. unfold set_allocated. rewrite frame_index_spec, Hr.
  destruct (Bitmap.set_spec (allocation_bitmap fa) (frame - avail_start fa))
    as (b & -> & Hwf & Hsz & Hbit); [apply Hinv|now apply index_in_size|].
  exists b. cbn [bind]. auto.
Qed.

Lemma clear_allocated_spec frame :
  in_range fa frame = true ->
  exists b, clear_allocated fa frame = Done (with_bitmap fa b)
    /\ Bitmap.wf b /\ Bitmap.size b = Bitmap.size (allocation_bitmap fa)
    /\ forall i, Bitmap.bit b i
        = negb (frame - avail_start fa =? i)%nat && Bitmap.bit (allocation_bitmap fa) i.
Proof using Hinv.
  intros Hr. unfold clear_allocated. rewrite frame_index_spec, Hr.
  destruct (Bitmap.clear_spec (allocation_bitmap fa) (frame - avail_start fa))
    as (b & -> & Hwf & Hsz & Hbit); [apply Hinv|now apply index_in_size|].
  exists b. cbn [bind]. auto.
Qed.

Lemma refcount_at rc frame :
  refcounts fa = Some rc -> in_range fa frame = true ->
  exists c, rc !! (frame - avail_start fa)%nat = Some c
    /\ index rc (frame - avail_start fa) = Done c /\ is_u16 c
    /\ (0 <? c) = allocated fa frame.
Proof using Hinv.
  intros Hrc Hr. destruct Hinv as [_ _ _ _ _ _ Hok]. unfold refcounts_ok in Hok.
  rewrite Hrc in Hok. destruct Hok as [Hlen Hok].
  assert (frame - avail_start fa < avail_end fa - avail_start fa)%nat as Hlt
    by (unfold in_range in Hr; lia).
  destruct (index_lt rc (frame - avail_start fa) ltac:(lia)) as (c & Hl & Hx).
  exists c. destruct (Hok _ _ Hlt Hl) as [Hu Hb]. repeat split; try assumption; try apply Hu.
  unfold allocated. now rewrite frame_index_spec, Hr.
Qed.

End Invariant.

(** The invariant after one frame's bit becomes [v] and its count [c]. *)
Lemma inv_update fa frame b c next v :
  inv fa -> in_range fa frame = true ->
  (avail_start fa <= next <= avail_end fa)%nat ->
  Bitmap.wf b -> Bitmap.size b = Bitmap.size (allocation_bitmap fa) ->
  (forall i, Bitmap.bit b i = if (frame - avail_start fa =? i)%nat then v
     else Bitmap.bit (allocation_bitmap fa) i) ->
  is_u16 c -> (0 <? c) = v ->
  inv (update_frame fa frame b c next)
  /\ forall f, allocated (update_frame fa frame b c next) f
               = if (frame =? f)%nat then v else allocated fa f.
Proof.
  intros Hinv Hr Hnext Hwf Hsz Hbit Hc Hv.
  split.
  - destruct Hinv. constructor; unfold update_frame; cbn; try assumption.
    + lia.
    + unfold refcounts_ok in *. cbn. destruct (refcounts fa) as [rc|]; cbn; [|exact I].
      destruct inv_refcounts0 as [Hlen Hok]. split; [now rewrite length_insert|].
      intros idx c' Hidx Hl. rewrite Hbit.
      destruct (Nat.eqb_spec (frame - avail_start fa) idx) as [<-|Hne].
      * rewrite list_lookup_insert_eq in Hl by lia. injection Hl as <-. auto.
      * rewrite list_lookup_insert_ne in Hl by assumption. eauto.
  - intros f. unfold allocated. rewrite !frame_index_spec.
    change (in_range (update_frame fa frame b c next) f) with (in_range fa f).
    cbn. destruct (in_range fa f) eqn:Hf.
    + rewrite Hbit. unfold in_range in *.
      destruct (Nat.eqb_spec (frame - avail_start fa) (f - avail_start fa)),
               (Nat.eqb_spec frame f); lia || reflexivity.
    + destruct (Nat.eqb_spec frame f) as [->|]; [congruence|reflexivity].
Qed.


Lemma set_refcount_spec fa b frame c :
  inv fa -> in_range fa frame = true ->
  set_refcount (with_bitmap fa b) frame c
  = Done (update_frame fa frame b c (next_frame fa)).
Proof.
  intros Hinv Hr. unfold set_refcount. rewrite frame_index_spec.
  change (in_range (with_bitmap fa b) frame) with (in_range fa frame). rewrite Hr.
  unfold update_frame. cbn. destruct (refcounts fa) as [rc|] eqn:Hrc; cbn; [|now rewrite <- Hrc].
  destruct (refcount_at fa Hinv rc frame Hrc Hr) as (c' & Hl & _).
  apply lookup_lt_Some in Hl. now rewrite index_set_lt.
Qed.

Lemma visited_app fa n : forall frame m,
  (frame + n <= avail_end fa)%nat ->
  visited fa frame (n + m) = seq frame n ++ visited fa (frame + n) m.
Proof.
  induction n as [|n IH]; intros frame m H; cbn [Nat.add seq app]; [now rewrite Nat.add_0_r|].
  cbn [visited]. replace (_ <=? _)%nat with false by lia. rewrite IH by lia.
  now replace (S frame + n)%nat with (frame + S n)%nat by lia.
Qed.

(** A full turn looks at every frame of the range. *)
Lemma visited_all fa frame f :
  (avail_start fa <= frame < avail_end fa)%nat -> in_range fa f = true ->
  In f (visited fa frame (avail_end fa - avail_start fa)).
Proof.
  intros Hfr Hf. unfold in_range in Hf.
  replace (avail_end fa - avail_start fa)%nat
    with ((avail_end fa - frame) + (frame - avail_start fa))%nat by lia.
  rewrite visited_app by lia. apply in_app_iff.
  destruct (decide (frame <= f)%nat); [left; apply in_seq; lia|right].
  replace (frame + (avail_end fa - frame))%nat with (avail_end fa) by lia.
  destruct (frame - avail_start fa)%nat as [|k] eqn:Hk; [lia|].
  cbn [visited]. replace (_ <=? _)%nat with true by lia.
  replace (avail_start fa :: visited fa (S (avail_start fa)) k)
    with (visited fa (avail_start fa) (S k + 0)).
  - rewrite visited_app by lia. apply in_app_iff. left. apply in_seq. lia.
  - rewrite Nat.add_0_r. cbn [visited]. now replace (_ <=? _)%nat with false by lia.
Qed.

Lemma allocate_scan_spec fa n : forall frame,
  inv fa -> (avail_start fa < avail_end fa)%nat ->
  (avail_start fa <= frame <= avail_end fa)%nat ->
  (forall f, In f (visited fa frame n) -> free fa f = false)
    /\ allocate_scan fa frame n = Done (None, fa)
  \/ exists f fa', free fa f = true /\ allocate_scan fa frame n = Done (Some f, fa')
    /\ claimed fa f fa'.
Proof.
  induction n as [|n IH]; intros frame Hinv Hlt Hfr; cbn [allocate_scan visited].
  { left. split; [intros f []|reflexivity]. }
  set (fr := if (avail_end fa <=? frame)%nat then avail_start fa else frame).
  assert (in_range fa fr = true) as Hr by (subst fr; unfold in_range; case_match; lia).
  rewrite is_reserved_spec by assumption. cbn [bind].
  replace (if reserved fa fr then Done true else is_allocated fa fr)
    with (Done (negb (free fa fr))) by (unfold free; rewrite Hr, is_allocated_spec by assumption;
      destruct (reserved fa fr), (allocated fa fr); reflexivity).
  cbn [bind]. destruct (free fa fr) eqn:Hfree; cbn [negb].
  - right. destruct (set_allocated_spec fa Hinv fr Hr) as (b & -> & Hwf & Hsz & Hbit).
    cbn [bind]. rewrite set_refcount_spec by assumption. cbn [bind].
    exists fr. eexists. split; [assumption|]. split; [reflexivity|].
    exists b. repeat split; assumption.
  - assert (avail_start fa <= S fr <= avail_end fa)%nat as Hfr' by (unfold in_range in Hr; lia).
    destruct (IH (S fr) Hinv Hlt Hfr') as [[Hall ->]|(f & fa' & Hf & -> & Hc)].
    + left. split; [|reflexivity]. intros f [<-|Hin]; auto.
    + right. exists f, fa'. auto.
Qed.

Lemma free_in_range fa f : free fa f = true -> in_range fa f = true.
Proof. unfold free. destruct (in_range fa f); [reflexivity|discriminate]. Qed.

Lemma claimed_inv fa f fa' :
  inv fa -> free fa f = true -> claimed fa f fa' ->
  inv fa' /\ (forall g, allocated fa' g = (f =? g)%nat || allocated fa g)
  /\ (forall g, reserved fa' g = reserved fa g) /\ next_frame fa' = S f
  /\ (forall g, in_range fa' g = in_range fa g).
Proof.
  intros Hinv Hfree (b & -> & Hwf & Hsz & Hbit). pose proof (free_in_range _ _ Hfree) as Hr.
  destruct (inv_update fa f b 1 (S f) true Hinv Hr) as [Hi Ha]; try assumption.
  { unfold in_range in Hr. lia. } { unfold is_u16, U16_MAX. lia. } { reflexivity. }
  repeat split; try apply Hi; [|reflexivity..].
  intros g. rewrite Ha. now destruct (f =? g)%nat.
Qed.

Lemma allocate_frame_cases dbg fa :
  inv fa ->
  (forall f, free fa f = false) /\ allocate_frame dbg fa = Done (None, fa)
  \/ exists f fa', free fa f = true /\ allocate_frame dbg fa = Done (Some f, fa')
     /\ claimed fa f fa'.
Proof.
  intros Hinv. pose proof (inv_range fa Hinv) as Hrange. unfold allocate_frame.
  replace (_ || _) with true by (destruct dbg; lia). cbn [rust_assert bind].
  rewrite total_frames_spec by assumption. cbn [bind].
  destruct (Nat.eqb_spec (avail_end fa - avail_start fa) 0) as [H0|H0].
  { left. split; [|reflexivity]. intros f. unfold free, in_range.
    now replace (_ && (f <? _))%nat with false by lia. }
  set (fr := if _ : bool then _ else _).
  assert (avail_start fa <= fr < avail_end fa)%nat as Hfr by (subst fr; case_match; lia).
  destruct (allocate_scan_spec fa (avail_end fa - avail_start fa) fr Hinv) as [[Hall ->]|H];
    [lia..| |right; exact H].
  left. split; [|reflexivity]. intros f. destruct (in_range fa f) eqn:Hf.
  - apply Hall, visited_all; assumption.
  - unfold free. now rewrite Hf.
Qed.


(** ** Counting frames *)

Lemma claimed_free fa f fa' :
  inv fa -> free fa f = true -> claimed fa f fa' ->
  (forall g, free fa' g = negb (f =? g)%nat && free fa g)
  /\ free_count fa = S (free_count fa').
Proof.
  intros Hinv Hfree Hc. destruct (claimed_inv _ _ _ Hinv Hfree Hc) as (_ & Ha & Hres & _ & Hir).
  assert (forall g, free fa' g = negb (f =? g)%nat && free fa g) as Hfr.
  { intros g. unfold free. rewrite Hir, Hres, Ha.
    destruct (f =? g)%nat, (in_range fa g), (reserved fa g), (allocated fa g); reflexivity. }
  split; [assumption|]. unfold free_count. pose proof (free_in_range _ _ Hfree) as Hr.
  rewrite (count_range_remove (free fa) _ _ f) by (try assumption; unfold in_range in Hr; lia).
  f_equal. destruct Hc as (b & -> & _). cbn. apply count_range_ext.
  intros k _. symmetry. apply Hfr.
Qed.

Lemma none_free_count fa : (forall f, free fa f = false) -> free_count fa = 0%nat.
Proof. intros H. apply count_range_none. auto. Qed.

Lemma separated_tail r rs : separated (r :: rs) -> separated rs.
Proof. intros H i j ri rj Hij Hi Hj. eapply (H (S i) (S j)); eauto. lia. Qed.

Lemma reserved_frames_count rs n :
  Forall nonempty rs -> separated rs ->
  Forall (fun r => end_frame r <= n)%nat rs ->
  sum_list ((fun r => end_frame r - start_frame r)%nat <$> rs) = count_range (covered rs) 0 n.
Proof.
  induction rs as [|r rs IH]; intros Hne Hsep Hle.
  { symmetry. apply count_range_none. reflexivity. }
  apply Forall_cons_1 in Hne as [Hr Hne]. apply Forall_cons_1 in Hle as [Hrl Hle].
  cbn [fmap list_fmap]. change (sum_list (?a :: ?l)) with (a + sum_list l)%nat.
  rewrite IH by (eauto using separated_tail).
  rewrite <- (count_range_interval 0 n (start_frame r) (end_frame r))
    by (unfold nonempty in Hr; lia).
  symmetry. apply (count_range_or (contains r) (covered rs)).
  intros k _ Hk. destruct (covered rs k) eqn:Hc; [|reflexivity].
  apply covered_spec in Hc as (j & rj & Hj & Hcj).
  assert (try_merge r rj = None) as Hm by (eapply (Hsep 0 (S j))%nat; eauto; lia).
  rewrite (try_merge_none_disjoint _ _ _ Hm Hk) in Hcj. discriminate.
Qed.


(** ** Reserving *)

Lemma covered_insert rs k r m new_region f :
  Forall nonempty rs -> nonempty new_region -> rs !! k = Some r ->
  try_merge r new_region = Some m ->
  covered (<[k := m]> rs) f = covered rs f || contains new_region f
  /\ Forall nonempty (<[k := m]> rs).
Proof.
  intros Hne Hn Hk Hm. assert (nonempty r) as Hr by (rewrite Forall_lookup in Hne; eauto).
  destruct (try_merge_contains r new_region m f Hr Hn Hm) as [Hnm Hc].
  split; [|apply Forall_insert; assumption].
  rewrite <- (take_drop_middle _ _ _ Hk), insert_app_r_alt at 1
    by (apply lookup_lt_Some in Hk; rewrite length_take; lia).
  apply lookup_lt_Some in Hk as Hlt. rewrite length_take, Nat.min_l, Nat.sub_diag by lia.
  rewrite <- (take_drop_middle _ _ _ Hk) at 3.
  cbn. rewrite !covered_app. cbn. rewrite Hc.
  destruct (covered (take k rs) f), (contains r f), (contains new_region f); cbn; try reflexivity.
  all: now rewrite ?orb_true_r, ?orb_false_r.
Qed.

Lemma inv_with_regions fa regs count rs :
  inv fa -> repr regs count rs -> Forall nonempty rs -> separated rs ->
  inv (with_regions fa regs count) /\ regions (with_regions fa regs count) = rs.
Proof.
  intros Hinv Hr Hne Hsep.
  assert (regions (with_regions fa regs count) = rs) as Hrs by (eapply repr_regions; eauto).
  split; [|assumption]. destruct Hinv. constructor; rewrite ?Hrs; assumption.
Qed.

Lemma merged_reservation fa regs start end_ why k r m :
  inv fa -> (start < end_)%nat -> regions fa !! k = Some r ->
  try_merge r (mkRegion start end_ why) = Some m ->
  repr regs (reserved_count fa) (<[k := m]> (regions fa)) ->
  match bind (consolidate_reservations regs (reserved_count fa))
          (fun '(regs', count') => Done (with_regions fa regs' count')) with
  | Done fa' => inv fa'
      /\ (forall f, reserved fa' f = reserved fa f || ((start <=? f) && (f <? end_))%nat)
      /\ (forall f, allocated fa' f = allocated fa f)
      /\ refcounts fa' = refcounts fa
  | Panicked => (start < end_)%nat /\ reserved_count fa = MAX_RESERVED_REGIONS
      /\ Forall (fun r => try_merge r (mkRegion start end_ why) = None) (regions fa)
  end.
Proof.
  intros Hinv Hlt Hk Hm Hr.
  pose proof (fun f => covered_insert (regions fa) k r m (mkRegion start end_ why) f
                (inv_nonempty fa Hinv) Hlt Hk Hm) as Hcov.
  destruct (consolidate_loop_spec (reserved_count fa) _ _ _ Hr (proj2 (Hcov 0%nat)) ltac:(lia))
    as (regs' & count' & rs' & Hl & Hr' & Hn' & Hs' & Hc').
  unfold consolidate_reservations. rewrite Hl. cbn [bind].
  destruct (inv_with_regions fa _ _ _ Hinv Hr' Hn' Hs') as [Hi Hrs].
  split; [assumption|]. split; [|split; reflexivity].
  intros f. unfold reserved. rewrite Hrs, Hc'. apply Hcov.
Qed.

Lemma appended_reservation fa start end_ why :
  inv fa -> (start < end_)%nat -> (reserved_count fa < MAX_RESERVED_REGIONS)%nat ->
  (forall k r, regions fa !! k = Some r -> try_merge r (mkRegion start end_ why) = None) ->
  let fa' := with_regions fa
     (<[reserved_count fa := Some (mkRegion start end_ why)]> (reserved_regions fa))
     (S (reserved_count fa)) in
  inv fa'
  /\ (forall f, reserved fa' f = reserved fa f || ((start <=? f) && (f <? end_))%nat)
  /\ (forall f, allocated fa' f = allocated fa f)
  /\ refcounts fa' = refcounts fa.
Proof.
  intros Hinv Hlt Hc Hnone. set (nr := mkRegion start end_ why) in *.
  destruct (inv_repr fa Hinv) as (Hlen & Hle & Heq).
  destruct (inv_with_regions fa (<[reserved_count fa := Some nr]> (reserved_regions fa))
              (S (reserved_count fa)) (regions fa ++ [nr]) Hinv) as [Hi Hrs].
  - repeat split; [rewrite length_app; cbn; lia|lia|].
    rewrite Heq at 1. rewrite Hlen at 1.
    rewrite fmap_app, insert_app_r_alt by (rewrite length_fmap; lia).
    rewrite length_fmap, Nat.sub_diag, <- app_assoc. f_equal.
    replace (MAX_RESERVED_REGIONS - reserved_count fa)%nat
      with (S (MAX_RESERVED_REGIONS - S (reserved_count fa))) by lia. reflexivity.
  - apply Forall_app. split; [apply Hinv|]. repeat constructor. assumption.
  - intros i j ri rj Hij Hi Hj. apply lookup_lt_Some in Hj as Hjl.
    rewrite length_app in Hjl. cbn in Hjl. rewrite lookup_app_l in Hi by lia.
    apply lookup_app_Some in Hj as [Hj|[_ Hj]].
    + eapply (inv_separated fa Hinv i j); eauto.
    + apply list_lookup_singleton_Some in Hj as [_ <-]. eauto.
  - split; [assumption|]. split; [|split; reflexivity].
    intros f. unfold reserved. rewrite Hrs, covered_app. cbn. now rewrite orb_false_r.
Qed.

Lemma allocated_in_range fa f : allocated fa f = true -> in_range fa f = true.
Proof.
  unfold allocated. rewrite frame_index_spec.
  destruct (in_range fa f); [reflexivity|discriminate].
Qed.

Lemma lower_next fa f b c n :
  (let fa2 := update_frame fa f b c n in
   if (f <? next_frame fa2)%nat then with_next fa2 f else fa2)
  = update_frame fa f b c (Nat.min f n).
Proof.
  unfold update_frame, with_next. cbn [next_frame avail_start avail_end reserved_regions
    reserved_count allocation_bitmap refcounts]. destruct (Nat.ltb_spec f n).
  - now rewrite Nat.min_l by lia.
  - now rewrite Nat.min_r by lia.
Qed.

(** Releasing an allocated frame: the common part of [deallocate_frame] and of
    [dec_refcount] reaching zero. *)
Lemma release_frame fa f :
  inv fa -> allocated fa f = true ->
  exists fa1 fa2 b, set_refcount fa f 0 = Done fa1 /\ clear_allocated fa1 f = Done fa2
    /\ fa2 = update_frame fa f b 0 (next_frame fa)
    /\ inv (update_frame fa f b 0 (Nat.min f (next_frame fa)))
    /\ forall g, allocated (update_frame fa f b 0 (Nat.min f (next_frame fa))) g
                 = if (f =? g)%nat then false else allocated fa g.
Proof.
  intros Hinv Hal. pose proof (allocated_in_range _ _ Hal) as Hr.
  assert (with_bitmap fa (allocation_bitmap fa) = fa) as Heta by (destruct fa; reflexivity).
  destruct (clear_allocated_spec fa Hinv f Hr) as (b & Hcl & Hwf & Hsz & Hbit).
  exists (update_frame fa f (allocation_bitmap fa) 0 (next_frame fa)).
  exists (update_frame fa f b 0 (next_frame fa)), b.
  split; [rewrite <- Heta at 1; apply set_refcount_spec; assumption|].
  split. { revert Hcl. unfold clear_allocated. rewrite !frame_index_spec.
    change (in_range (update_frame fa f (allocation_bitmap fa) 0 (next_frame fa)) f)
      with (in_range fa f). rewrite Hr. cbn.
    destruct (Bitmap.clear _ _) as [b'|]; cbn; [|discriminate]. intros [= <-]. reflexivity. }
  split; [reflexivity|].
  apply (inv_update fa f b 0 _ false Hinv Hr); try assumption; try reflexivity.
  - destruct Hinv. unfold in_range in Hr. lia.
  - intros i. rewrite Hbit. now destruct (_ =? i)%nat.
  - unfold is_u16, U16_MAX. lia.
Qed.


(** Changing a count without crossing zero. *)
Lemma inv_same_bit fa f c :
  inv fa -> in_range fa f = true -> is_u16 c -> (0 <? c) = allocated fa f ->
  inv (update_frame fa f (allocation_bitmap fa) c (next_frame fa))
  /\ forall g, allocated (update_frame fa f (allocation_bitmap fa) c (next_frame fa)) g
               = allocated fa g.
Proof.
  intros Hinv Hr Hu Hc.
  destruct (inv_update fa f (allocation_bitmap fa) c (next_frame fa) (allocated fa f) Hinv Hr)
    as [Hi Ha]; try apply Hinv; try assumption; try reflexivity.
  - intros i. destruct (Nat.eqb_spec (f - avail_start fa) i) as [<-|]; [|reflexivity].
    unfold allocated. now rewrite frame_index_spec, Hr.
  - split; [assumption|]. intros g. rewrite Ha.
    destruct (Nat.eqb_spec f g) as [<-|]; reflexivity.
Qed.

Lemma dec_to_zero fa f :
  inv fa -> allocated fa f = true ->
  exists fa', bind (clear_allocated
      (update_frame fa f (allocation_bitmap fa) 0 (next_frame fa)) f)
      (fun fa2 => Done (Some 0, if (f <? next_frame fa2)%nat then with_next fa2 f else fa2))
    = Done (Some 0, fa') /\ inv fa'
    /\ forall g, allocated fa' g = if (f =? g)%nat then false else allocated fa g.
Proof.
  intros Hinv Hp.
  destruct (release_frame fa f Hinv Hp) as (fa1 & fa2 & b & H1 & H2 & Hu & Hi & Ha).
  assert (with_bitmap fa (allocation_bitmap fa) = fa) as Heta by (destruct fa; reflexivity).
  pose proof (set_refcount_spec fa (allocation_bitmap fa) f 0 Hinv
                (allocated_in_range _ _ Hp)) as Hs.
  rewrite Heta, H1 in Hs. injection Hs as <-. rewrite H2. cbn [bind].
  eexists. split; [rewrite Hu, lower_next; reflexivity|]. auto.
Qed.


(** ** Specifications of the operations under the invariant *)

Lemma reserve_range_spec fa start end_ why :
  inv fa ->
  match reserve_range fa start end_ why with
  | Done fa' => inv fa'
      /\ (forall f, reserved fa' f = reserved fa f || ((start <=? f) && (f <? end_))%nat)
      /\ (forall f, allocated fa' f = allocated fa f)
      /\ refcounts fa' = refcounts fa
  | Panicked => (start < end_)%nat /\ reserved_count fa = MAX_RESERVED_REGIONS
      /\ Forall (fun r => try_merge r (mkRegion start end_ why) = None) (regions fa)
  end.
Proof.
  intros Hinv. unfold reserve_range. destruct (Nat.leb_spec end_ start) as [Hle|Hlt].
  { repeat split; try apply Hinv. intros f. rewrite orb_comm.
    now replace (_ && _)%nat with false by lia. }
  destruct (merge_into_spec (reserved_regions fa) (reserved_count fa) (regions fa)
              (mkRegion start end_ why) (reserved_count fa) 0 (inv_repr fa Hinv) ltac:(lia))
    as (o & -> & Ho). cbn [bind]. destruct o as [regs|].
  - destruct Ho as (k & r & m & Hk & Hm & Hr).
    eapply merged_reservation; eauto.
  - destruct (Nat.ltb_spec (reserved_count fa) MAX_RESERVED_REGIONS) as [Hc|Hc]; cbn [rust_assert bind].
    + rewrite index_set_lt by (rewrite (repr_length _ _ _ (inv_repr fa Hinv)); lia). cbn [bind].
      apply appended_reservation; try assumption. intros k r Hk. eapply Ho; eauto.
      apply lookup_lt_Some in Hk. destruct (inv_repr fa Hinv). lia.
    + destruct (inv_repr fa Hinv) as (? & ? & _). repeat split; [assumption|lia|].
      apply Forall_lookup. intros k r Hk. eapply Ho; eauto. apply lookup_lt_Some in Hk. lia.
Qed.


Lemma allocate_frame_spec dbg fa :
  inv fa ->
  exists r fa', allocate_frame dbg fa = Done (r, fa') /\ inv fa' /\
    match r with
    | Some f => in_range fa f = true /\ reserved fa f = false /\ allocated fa f = false
        /\ (forall g, allocated fa' g = (f =? g)%nat || allocated fa g)
        /\ (forall g, reserved fa' g = reserved fa g)
        /\ (refcounts fa <> None -> get_refcount fa' f = Done (Some 1))
    | None => fa' = fa /\ forall f, free fa f = false
    end.
Proof.
  intros Hinv.
  destruct (allocate_frame_cases dbg fa Hinv) as [[Hall ->]|(f & fa' & Hf & -> & Hc)].
  { exists None, fa. auto. }
  destruct (claimed_inv _ _ _ Hinv Hf Hc) as (Hi & Ha & Hres & _ & Hir).
  exists (Some f), fa'. split; [reflexivity|]. split; [assumption|].
  pose proof (free_in_range _ _ Hf) as Hr. pose proof Hf as Hf'. unfold free in Hf'.
  repeat split; try assumption; try (destruct (reserved fa f), (allocated fa f); lia).
  intros Hrc. unfold get_refcount. rewrite frame_index_spec, Hir, Hr.
  destruct Hc as (b & -> & _). cbn. destruct (refcounts fa) as [rc|] eqn:Erc; [|congruence].
  destruct (refcount_at fa Hinv rc f Erc Hr) as (c & Hl & _). apply lookup_lt_Some in Hl.
  cbn. unfold index. now rewrite list_lookup_insert_eq.
Qed.

Lemma allocate_n_spec dbg n : forall fa,
  inv fa ->
  exists fs fa', allocate_n dbg n fa = Done (fs, fa') /\ inv fa'
    /\ NoDup fs /\ Forall (fun f => free fa f = true) fs
    /\ length fs = Nat.min n (free_count fa).
Proof.
  induction n as [|n IH]; intros fa Hinv; cbn [allocate_n].
  { exists [], fa. repeat split; try apply Hinv; constructor. }
  destruct (allocate_frame_cases dbg fa Hinv) as [[Hall ->]|(f & fa1 & Hf & -> & Hc)]; cbn [bind].
  { exists [], fa. rewrite (none_free_count _ Hall).
    repeat split; try apply Hinv; constructor. }
  destruct (claimed_inv _ _ _ Hinv Hf Hc) as (Hi & _).
  destruct (claimed_free _ _ _ Hinv Hf Hc) as [Hfr Hcount].
  destruct (IH fa1 Hi) as (fs & fa2 & -> & Hi2 & Hnd & Hall & Hlen). cbn [bind].
  exists (f :: fs), fa2. split; [reflexivity|]. split; [assumption|].
  rewrite Forall_forall in Hall. repeat split.
  - constructor; [|assumption]. intros Hin. specialize (Hall f Hin).
    rewrite Hfr, Nat.eqb_refl in Hall. discriminate.
  - constructor; [assumption|]. apply Forall_forall. intros g Hg.
    specialize (Hall g Hg). rewrite Hfr in Hall. destruct (free fa g); [reflexivity|lia].
  - cbn [length]. rewrite Hlen. lia.
Qed.

Lemma deallocate_frame_spec dbg fa f :
  inv fa ->
  match deallocate_frame dbg fa f with
  | Done fa' => inv fa' /\ (forall g, reserved fa' g = reserved fa g)
      /\ if negb (reserved fa f) && allocated fa f
         then free fa' f = true
           /\ (forall g, allocated fa' g = negb (f =? g)%nat && allocated fa g)
           /\ (next_frame fa' <= f)%nat
         else fa' = fa
  | Panicked => dbg = true /\ reserved fa f = false /\ allocated fa f = false
  end.
Proof.
  intros Hinv. unfold deallocate_frame. rewrite is_reserved_spec by assumption. cbn [bind].
  destruct (reserved fa f) eqn:Hres; cbn [negb andb].
  { repeat split; try apply Hinv. }
  rewrite is_allocated_spec by assumption. cbn [bind].
  destruct (allocated fa f) eqn:Hal; cbn [negb andb].
  2:{ destruct dbg; cbn; repeat split; try apply Hinv. }
  destruct (release_frame fa f Hinv Hal) as (fa1 & fa2 & b & H1 & H2 & Hu & Hi & Ha).
  rewrite H1. cbn [bind]. rewrite H2. cbn [bind].
  rewrite Hu, lower_next.
  split; [assumption|]. split; [reflexivity|].
  unfold free. rewrite Ha, Nat.eqb_refl.
  change (reserved (update_frame _ _ _ _ _) f) with (reserved fa f). rewrite Hres.
  repeat split.
  - apply allocated_in_range in Hal. now rewrite !andb_true_r.
  - intros g. rewrite Ha. now destruct (f =? g)%nat.
  - cbn. lia.
Qed.


Lemma refcount_spec fa f rc :
  inv fa -> refcounts fa = Some rc -> in_range fa f = true ->
  exists c, get_refcount fa f = Done (Some c) /\ is_u16 c /\ (0 <? c) = allocated fa f
  /\ (exists fa', inc_refcount fa f
        = Done (Some (if 0 <? c then Z.min (c + 1) MAX_REFCOUNT else 0), fa')
      /\ inv fa' /\ forall g, allocated fa' g = allocated fa g)
  /\ (exists fa', dec_refcount fa f
        = Done (if 0 <? c then Some (c - 1) else None, fa') /\ inv fa'
      /\ forall g, allocated fa' g
           = if (f =? g)%nat then 1 <? c else allocated fa g).
Proof.
  intros Hinv Hrc Hr. destruct (refcount_at fa Hinv rc f Hrc Hr) as (c & Hl & Hx & Hu & Hp).
  exists c. apply lookup_lt_Some in Hl as Hlt. unfold get_refcount, inc_refcount, dec_refcount.
  rewrite frame_index_spec, Hr, Hrc. cbn [bind]. rewrite Hx. cbn [bind].
  assert (forall v, with_refcounts fa (Some (<[(f - avail_start fa)%nat := v]> rc))
    = update_frame fa f (allocation_bitmap fa) v (next_frame fa)) as Heq
    by (intros; unfold with_refcounts, update_frame; now rewrite Hrc).
  split; [reflexivity|]. split; [assumption|]. split; [assumption|]. split.
  - set (c' := if _ && _ then c + 1 else c).
    assert (c' = (if 0 <? c then Z.min (c + 1) MAX_REFCOUNT else 0)) as Hc'
      by (subst c'; unfold is_u16, MAX_REFCOUNT, U16_MAX in *; repeat case_match; lia).
    rewrite index_set_lt by assumption. cbn [bind]. rewrite Heq, Hc'.
    eexists. split; [reflexivity|]. apply inv_same_bit; try assumption.
    + unfold is_u16, MAX_REFCOUNT, U16_MAX in *. case_match; lia.
    + rewrite <- Hp. unfold MAX_REFCOUNT, U16_MAX. case_match; lia.
  - destruct (Z.ltb_spec 0 c) as [Hpos|Hpos].
    2:{ exists fa. repeat split; try apply Hinv. intros g.
        destruct (Nat.eqb_spec f g) as [<-|]; [|reflexivity]. rewrite <- Hp. lia. }
    rewrite index_set_lt by assumption. cbn [bind]. rewrite Heq.
    destruct (Z.eqb_spec (c - 1) 0) as [Hz|Hz].
    + rewrite Hz. replace (1 <? c) with false by lia. apply dec_to_zero; auto.
    + eexists. split; [reflexivity|].
      destruct (inv_same_bit fa f (c - 1) Hinv Hr) as [Hi Ha];
        [unfold is_u16 in *; lia|rewrite <- Hp; lia|].
      split; [assumption|]. intros g. rewrite Ha.
      destruct (Nat.eqb_spec f g) as [<-|]; [rewrite <- Hp; lia|reflexivity].
Qed.


(** ** Reachable states *)

Lemma boot_inv s e bs rs fa :
  (s <= e)%nat -> boot s e bs rs = Done fa ->
  inv fa /\ refcounts fa <> None /\ (forall f, allocated fa f = false)
  /\ (forall f, reserved fa f = false).
Proof.
  intros Hle H. unfold boot, new in H.
  destruct (Bitmap.new bs (e - s)) as [b|] eqn:Hb; cbn [bind] in H; [|discriminate].
  destruct (Bitmap.new_wf _ _ _ Hb) as [Hwf Hsz].
  unfold set_refcount_storage, total_frames in H. cbn [avail_start avail_end] in H.
  replace (s <=? e)%nat with true in H by lia. cbn [bind] in H.
  apply bind_Done in H as (u & Ha & [= <-]). apply rust_assert_Done, Nat.leb_le in Ha.
  split; [|split; [discriminate|split; [|reflexivity]]].
  - constructor; cbn; try assumption; try lia.
    + repeat split. cbn. lia.
    + constructor.
    + intros i j ri rj _ Hi. discriminate.
    + split; [rewrite length_app, length_replicate, length_drop; lia|].
      intros idx c Hidx Hl. rewrite lookup_app_l, lookup_replicate_2 in Hl
        by now rewrite ?length_replicate.
      injection Hl as <-. split; [unfold is_u16, U16_MAX; lia|].
      symmetry. eapply Bitmap.new_clear; eauto.
  - intros f. unfold allocated. rewrite frame_index_spec.
    destruct (in_range _ f) eqn:Hr; [|reflexivity]. unfold in_range in Hr.
    cbn [avail_start avail_end allocation_bitmap with_refcounts] in *.
    eapply Bitmap.new_clear; eauto. lia.
Qed.


Lemma refcounts_cases fa f :
  (exists rc, refcounts fa = Some rc /\ in_range fa f = true)
  \/ inc_refcount fa f = Done (None, fa) /\ dec_refcount fa f = Done (None, fa).
Proof.
  unfold inc_refcount, dec_refcount. rewrite frame_index_spec.
  destruct (in_range fa f), (refcounts fa) as [rc|]; eauto.
Qed.

Lemma alloc_exec_inv dbg fa o fa' : inv fa -> exec dbg fa o = Done fa' -> inv fa'.
Proof.
  intros Hinv H. destruct o; cbn [exec] in H.
  - pose proof (reserve_range_spec fa start end_ why Hinv) as Hs. rewrite H in Hs. apply Hs.
  - destruct (allocate_frame_cases dbg fa Hinv) as [[_ E]|(f & fa1 & Hf & E & Hc)];
      rewrite E in H; cbn in H; injection H as <-; [assumption|].
    eapply claimed_inv; eauto.
  - pose proof (deallocate_frame_spec dbg fa frame Hinv) as Hs. rewrite H in Hs. apply Hs.
  - apply bind_Done in H as ([r fa1] & H & [= <-]).
    destruct (refcounts_cases fa frame) as [(rc & E & Hr)|[E _]].
    + destruct (refcount_spec fa frame rc Hinv E Hr) as (c & _ & _ & _ & (fa2 & E2 & ? & ?) & _).
      rewrite E2 in H. injection H as _ <-. assumption.
    + rewrite E in H. injection H as _ <-. assumption.
  - apply bind_Done in H as ([r fa1] & H & [= <-]).
    destruct (refcounts_cases fa frame) as [(rc & E & Hr)|[_ E]].
    + destruct (refcount_spec fa frame rc Hinv E Hr) as (c & _ & _ & _ & _ & (fa2 & E2 & ? & ?)).
      rewrite E2 in H. injection H as _ <-. assumption.
    + rewrite E in H. injection H as _ <-. assumption.
Qed.

Lemma alloc_reachable_inv dbg fa : reachable dbg fa -> inv fa.
Proof.
  induction 1 as [s e bs rs fa Hle Hb|fa o fa' _ IH He].
  - eapply boot_inv; eauto.
  - eapply alloc_exec_inv; eauto.
Qed.

Lemma alloc_run_reachable dbg ops : forall fa fa',
  reachable dbg fa -> run dbg fa ops = Done fa' -> reachable dbg fa'.
Proof.
  induction ops as [|o ops IH]; intros fa fa' Hr H; cbn [run] in H.
  - injection H as <-. assumption.
  - apply bind_Done in H as (fa1 & H1 & H2). eapply IH; [|eassumption].
    eapply reach_step; eauto.
Qed.

Lemma alloc_demo_reachable : reachable true demo.
Proof.
  eapply (alloc_run_reachable true demo_ops (match boot 2 10 [255] (replicate 8 9) with
    Done fa => fa | Panicked => demo end)); [|vm_compute; reflexivity].
  apply (reach_boot true 2 10 [255] (replicate 8 9)); [lia|vm_compute; reflexivity].
Qed.


(** Frames of the range split into reserved, allocated and free ones. *)
Lemma range_split fa :
  (forall f, reserved fa f = true -> allocated fa f = false) ->
  (avail_end fa - avail_start fa)%nat
  = (count_range (reserved fa) (avail_start fa) (avail_end fa - avail_start fa)
     + count_range (allocated fa) (avail_start fa) (avail_end fa - avail_start fa)
     + free_count fa)%nat.
Proof.
  intros Hdis. unfold free_count.
  rewrite <- count_range_or by auto. rewrite <- count_range_or.
  - symmetry. apply count_range_all. intros k Hk.
    unfold free, in_range. replace (_ && (k <? _))%nat with true by lia.
    destruct (reserved fa k), (allocated fa k); reflexivity.
  - intros k _ H. unfold free.
    destruct (in_range fa k), (reserved fa k), (allocated fa k);
      reflexivity || discriminate H.
Qed.

Lemma allocated_frames_spec fa :
  inv fa ->
  allocated_frames fa
  = Done (count_range (allocated fa) (avail_start fa) (avail_end fa - avail_start fa)).
Proof.
  intros Hinv. unfold allocated_frames. rewrite Bitmap.count_set_range by apply Hinv.
  rewrite (inv_size fa Hinv). f_equal.
  rewrite <- (Nat.add_0_l (avail_start fa)) at 2. rewrite count_range_shift.
  apply count_range_ext. intros k Hk. unfold allocated. rewrite frame_index_spec.
  unfold in_range. replace (_ && _)%nat with true by lia. f_equal. lia.
Qed.

Lemma reserved_frames_spec fa :
  inv fa ->
  Forall (fun r => avail_start fa <= start_frame r /\ end_frame r <= avail_end fa)%nat (regions fa) ->
  reserved_frames fa
  = count_range (reserved fa) (avail_start fa) (avail_end fa - avail_start fa).
Proof.
  intros Hinv Hin. unfold reserved_frames.
  rewrite (reserved_frames_count _ (avail_end fa)); try apply Hinv.
  2:{ eapply Forall_impl; [exact Hin|]. cbn. lia. }
  pose proof (inv_range fa Hinv).
  replace (avail_end fa) with (avail_start fa + (avail_end fa - avail_start fa))%nat at 1 by lia.
  rewrite count_range_app, count_range_none; [reflexivity|].
  intros k Hk. destruct (covered (regions fa) k) eqn:Hc; [|reflexivity].
  apply covered_spec in Hc as (i & r & Hi & Hc). apply contains_spec in Hc.
  rewrite Forall_lookup in Hin. specialize (Hin i r Hi). lia.
Qed.

Lemma available_frames_spec fa :
  inv fa ->
  Forall (fun r => avail_start fa <= start_frame r /\ end_frame r <= avail_end fa)%nat (regions fa) ->
  (forall f, reserved fa f = true -> allocated fa f = false) ->
  available_frames fa = Done (free_count fa).
Proof.
  intros Hinv Hin Hdis. unfold available_frames, usable_frames.
  rewrite total_frames_spec, allocated_frames_spec by assumption. cbn [bind].
  rewrite reserved_frames_spec by assumption. f_equal.
  pose proof (range_split fa Hdis). lia.
Qed.

(** ** Properties *)

(** In every state the kernel can bring the frame allocator into, by boot
    and any sequence of reservations, allocations, deallocations and
    reference-count changes, the allocator's invariant holds: the cursor is in
    range, the reserved regions are non-empty, fill the first slots of the
    array and neither overlap nor touch, the bitmap covers the range, and a
    frame's reference count is positive exactly when the frame is allocated. *)
Theorem allocator_invariant dbg fa : reachable dbg fa -> inv fa.
Proof. apply alloc_reachable_inv. Qed.

Lemma allocator_invariant_witness : inv demo.
Proof. apply (allocator_invariant true demo), alloc_demo_reachable. Defined.

(** C7: in every reachable state [allocate_frame] returns (it never panics);
    it fails exactly when no frame of the range is free; otherwise the frame it
    returns is in range, neither reserved nor already allocated, becomes the
    only newly allocated one, and starts with a reference count of one. *)
Theorem allocate_frame_correct dbg fa :
  reachable dbg fa ->
  exists r fa', allocate_frame dbg fa = Done (r, fa') /\
    match r with
    | Some f => in_range fa f = true /\ reserved fa f = false /\ allocated fa f = false
        /\ (forall g, allocated fa' g = (f =? g)%nat || allocated fa g)
        /\ (forall g, reserved fa' g = reserved fa g)
        /\ (refcounts fa <> None -> get_refcount fa' f = Done (Some 1))
    | None => fa' = fa /\ forall f, free fa f = false
    end.
Proof.
  intros Hr. destruct (allocate_frame_spec dbg fa (alloc_reachable_inv _ _ Hr)) as (r & fa' & ? & _ & ?).
  eauto.
Qed.

Lemma allocate_frame_correct_witness :
  exists r fa', allocate_frame true demo = Done (r, fa') /\ r = Some 6%nat.
Proof.
  destruct (allocate_frame_correct true demo alloc_demo_reachable) as (r & fa' & E & _).
  exists r, fa'. split; [exact E|]. vm_compute in E. congruence.
Defined.

(** [n] allocations in a row return pairwise distinct frames, all of them
    free beforehand, and exactly as many as there are free frames, up to [n]:
    no frame is handed out twice and none is lost. *)
Theorem allocate_n_distinct dbg n fa :
  reachable dbg fa ->
  exists fs fa', allocate_n dbg n fa = Done (fs, fa')
    /\ NoDup fs /\ Forall (fun f => free fa f = true) fs
    /\ length fs = Nat.min n (free_count fa).
Proof.
  intros Hr. destruct (allocate_n_spec dbg n fa (alloc_reachable_inv _ _ Hr)) as (fs & fa' & ? & _ & ?).
  eauto.
Qed.

Lemma allocate_n_distinct_witness :
  exists fs fa', allocate_n true 9 demo = Done (fs, fa') /\ fs = [6; 7; 8; 9]%nat
    /\ length fs = Nat.min 9 (free_count demo).
Proof.
  destruct (allocate_n_distinct true 9 demo alloc_demo_reachable) as (fs & fa' & E & _ & _ & Hl).
  exists fs, fa'. split; [exact E|]. split; [|exact Hl]. vm_compute in E. congruence.
Defined.

(** Reserving [start .. end_) makes exactly the frames of that range
    reserved in addition to those reserved before, however many cascading
    merges of regions that takes, and leaves the allocation state alone; it
    panics only when all 32 slots are in use and the range touches no existing
    region. *)
Theorem reserve_range_union dbg fa start end_ why :
  reachable dbg fa ->
  match reserve_range fa start end_ why with
  | Done fa' =>
      (forall f, reserved fa' f = reserved fa f || ((start <=? f) && (f <? end_))%nat)
      /\ (forall f, allocated fa' f = allocated fa f)
      /\ refcounts fa' = refcounts fa
  | Panicked => (start < end_)%nat /\ reserved_count fa = MAX_RESERVED_REGIONS
      /\ Forall (fun r => try_merge r (mkRegion start end_ why) = None) (regions fa)
  end.
Proof.
  intros Hr. pose proof (reserve_range_spec fa start end_ why (alloc_reachable_inv _ _ Hr)) as H.
  destruct (reserve_range fa start end_ why); [apply H|exact H].
Qed.

Lemma reserve_range_union_witness :
  exists fa', reserve_range demo 3 5 KernelImage = Done fa'
    /\ reserved fa' 3 = true /\ reserved fa' 2 = false.
Proof.
  pose proof (reserve_range_union true demo 3 5 KernelImage alloc_demo_reachable) as H.
  destruct (reserve_range demo 3 5 KernelImage) as [fa'|] eqn:E; [|vm_compute in E; discriminate].
  exists fa'. destruct H as [H _]. rewrite !H. auto.
Defined.

(** Deallocating an allocated, unreserved frame makes exactly that frame
    free again, whatever its reference count was; a reserved frame is left as
    it is; a frame that is not allocated panics in a debug build and is ignored
    in a release build. *)
Theorem deallocate_frame_correct dbg fa f :
  reachable dbg fa ->
  match deallocate_frame dbg fa f with
  | Done fa' => (forall g, reserved fa' g = reserved fa g)
      /\ if negb (reserved fa f) && allocated fa f
         then free fa' f = true
           /\ (forall g, allocated fa' g = negb (f =? g)%nat && allocated fa g)
           /\ (next_frame fa' <= f)%nat
         else fa' = fa
  | Panicked => dbg = true /\ reserved fa f = false /\ allocated fa f = false
  end.
Proof.
  intros Hr. pose proof (deallocate_frame_spec dbg fa f (alloc_reachable_inv _ _ Hr)) as H.
  destruct (deallocate_frame dbg fa f); [apply H|exact H].
Qed.

Lemma deallocate_frame_correct_witness :
  exists fa', deallocate_frame true demo 3 = Done fa' /\ free fa' 3 = true.
Proof.
  pose proof (deallocate_frame_correct true demo 3 alloc_demo_reachable) as H.
  destruct (deallocate_frame true demo 3) as [fa'|] eqn:E; [|vm_compute in E; discriminate].
  exists fa'. split; [reflexivity|]. destruct H as [_ H].
  replace (negb (reserved demo 3) && allocated demo 3) with true in H by reflexivity.
  apply H.
Defined.

(** With refcounting enabled, [dec_refcount] of an allocated frame lowers
    its count by one and frees the frame exactly when the count reaches zero;
    [inc_refcount] raises it by one up to 65535 and never changes which frames
    are allocated; on a frame that is not allocated both leave the allocation
    state alone. *)
Theorem refcount_protocol dbg fa f rc :
  reachable dbg fa -> refcounts fa = Some rc -> in_range fa f = true ->
  exists c, get_refcount fa f = Done (Some c) /\ is_u16 c /\ (0 <? c) = allocated fa f
  /\ (exists fa', inc_refcount fa f
        = Done (Some (if 0 <? c then Z.min (c + 1) MAX_REFCOUNT else 0), fa')
      /\ inv fa' /\ forall g, allocated fa' g = allocated fa g)
  /\ (exists fa', dec_refcount fa f
        = Done (if 0 <? c then Some (c - 1) else None, fa') /\ inv fa'
      /\ forall g, allocated fa' g
           = if (f =? g)%nat then 1 <? c else allocated fa g).
Proof. intros Hr. apply refcount_spec, (alloc_reachable_inv _ _ Hr). Qed.

Lemma refcount_protocol_witness :
  exists c, get_refcount demo 3 = Done (Some c) /\ c = 2.
Proof.
  destruct (refcount_protocol true demo 3 [1; 2; 0; 0; 0; 0; 0; 0] alloc_demo_reachable
    ltac:(vm_compute; reflexivity) ltac:(vm_compute; reflexivity)) as (c & E & _).
  exists c. split; [exact E|]. vm_compute in E. congruence.
Defined.

(** When every reserved region lies inside the managed range and no
    reserved frame is allocated, [available_frames] is exactly the number of
    frames that [allocate_frame] can still hand out. *)
Theorem available_frames_exact dbg fa :
  reachable dbg fa ->
  Forall (fun r => avail_start fa <= start_frame r /\ end_frame r <= avail_end fa)%nat (regions fa) ->
  (forall f, reserved fa f = true -> allocated fa f = false) ->
  available_frames fa = Done (free_count fa).
Proof.
  intros Hr Hin Hdis. pose proof (alloc_reachable_inv _ _ Hr) as Hinv.
  apply available_frames_spec; assumption.
Qed.

Lemma available_frames_exact_witness : available_frames demo = Done 4%nat.
Proof.
  rewrite (available_frames_exact true demo alloc_demo_reachable).
  - reflexivity.
  - repeat constructor.
  - intros f Hf. apply covered_spec in Hf as (k & r & Hk & Hc).
    let rs := eval vm_compute in (regions demo) in
      replace (regions demo) with rs in Hk by (vm_compute; reflexivity).
    destruct k as [|k]; [|destruct k; discriminate Hk].
    injection Hk as <-. apply contains_spec in Hc. cbn in Hc.
    assert (f = 4 \/ f = 5)%nat as [-> | ->] by lia; reflexivity.
Defined.


End FrameAllocator.
