(* ===== verification/Memory.v ===== *)
(** * Physical memory at boot (src/kernel/src/memory.rs, linker_symbols.rs)

    The memory map handed over by the bootloader, the initialisation of the
    global frame allocator from it, and the functions other components use to
    reach that allocator.  [FrameSource] is what those components rely on; the
    global allocator is its instance. *)

From S2P Require Import Prelude Bitmap FrameAlloc.
Import FrameAllocator.

Module Memory.

Inductive MemoryRegionType : Type := Usable | RegReserved | RegKernel | RegBootloader.

Global Instance MemoryRegionType_eq_dec : EqDecision MemoryRegionType.
Proof. solve_decision. Defined.

Record MemoryRegion : Type := mkMemRegion {
  start_addr : Z; end_addr : Z; region_type : MemoryRegionType
}.

(** [struct MemoryMapInfo]: the array of 64 slots and the count of used ones. *)
Record MemoryMapInfo : Type := mkMap { map_regions : list (option MemoryRegion); map_count : nat }.

Definition MAP_SLOTS : nat := 64.

Definition map_new : MemoryMapInfo := mkMap (replicate MAP_SLOTS None) 0.

(** [add_region]: further regions are dropped when the array is full. *)
Definition add_region (m : MemoryMapInfo) (r : MemoryRegion) : outcome MemoryMapInfo :=
  if (map_count m <? length (map_regions m))%nat then
    let! regs := index_set (map_regions m) (map_count m) (Some r) in
    Done (mkMap regs (map_count m + 1))
  else Done m.

(** [iter]. *)
Definition map_iter (m : MemoryMapInfo) : list MemoryRegion :=
  omap id (take (map_count m) (map_regions m)).

Definition usable (r : MemoryRegion) : bool := bool_decide (region_type r = Usable).

(** The usable regions, as filtered by every reader of the map. *)
Definition usable_regions (m : MemoryMapInfo) : list MemoryRegion :=
  filter (fun r => usable r = true) (map_iter m).

(** [usable_memory]: checked [u64] subtractions and sum. *)
Fixpoint sum_sizes (rs : list MemoryRegion) (acc : Z) : outcome Z :=
  match rs with
  | [] => Done acc
  | r :: rest =>
      let! _ := rust_assert (start_addr r <=? end_addr r) in
      let! _ := rust_assert (acc + (end_addr r - start_addr r) <=? U64_MAX) in
      sum_sizes rest (acc + (end_addr r - start_addr r))
  end.

Definition usable_memory (m : MemoryMapInfo) : outcome Z := sum_sizes (usable_regions m) 0.

(** [iter.min()] and [iter.max()]. *)
Definition list_min (l : list nat) : option nat :=
  match l with [] => None | x :: rest => Some (foldl Nat.min x rest) end.
Definition list_max (l : list nat) : option nat :=
  match l with [] => None | x :: rest => Some (foldl Nat.max x rest) end.

(** [find_first_usable_frame]. *)
Definition find_first_usable_frame (m : MemoryMapInfo) : nat :=
  Nat.max (default 1%nat (list_min ((fun r => Z.to_nat (start_addr r / 4096)) <$> usable_regions m))) 1.

(** [find_last_usable_frame]. *)
Definition find_last_usable_frame (m : MemoryMapInfo) : nat :=
  default 0%nat (list_max ((fun r => Z.to_nat (end_addr r / 4096)) <$> usable_regions m)).

Definition MAX_TRACKED_FRAMES : Z := 1048576.

(** [kernel_phys_start] and [kernel_phys_end] (linker_symbols.rs). *)
Definition KERNEL_PHYS_BASE : Z := 0x00100000.
Definition kernel_phys_start : Z := KERNEL_PHYS_BASE.
Definition kernel_phys_end : Z := 8 * 1024 * 1024.

(** What the bootloader hands over and the registers at boot: the memory map
    as (start, end, usable) triples, the address of the boot information and
    the physical address of the active top-level page table. *)
Record BootInfo : Type := mkBoot {
  memory_map : list (Z * Z * bool); boot_info_addr : Z; boot_cr3 : Z
}.

(** The loop that converts the bootloader's map. *)
Fixpoint convert_map (regions : list (Z * Z * bool)) (m : MemoryMapInfo) : outcome MemoryMapInfo :=
  match regions with
  | [] => Done m
  | (s, e, u) :: rest =>
      let! m := add_region m (mkMemRegion s e (if u : bool then Usable else RegReserved)) in
      convert_map rest m
  end.

(** [addr / FRAME_SIZE]. *)
Definition frame_of (addr : Z) : nat := Z.to_nat (addr / 4096).

(** [init_from_bootloader]: the state it leaves in [FRAME_ALLOCATOR].
    [bitmap_storage] and [refcount_storage] are the contents of the two static
    arrays; the reports it prints are the calls whose arithmetic can panic. *)
Definition init_from_bootloader (boot_info : BootInfo) (bitmap_storage refcount_storage : list Z)
    : outcome FrameAllocator :=
  let! memory_map := convert_map (memory_map boot_info) map_new in
  let usable_start_frame := find_first_usable_frame memory_map in
  let usable_end_frame := find_last_usable_frame memory_map in
  let total_frames := (usable_end_frame - usable_start_frame)%nat in
  let! _ := rust_assert (Z.of_nat total_frames <=? MAX_TRACKED_FRAMES) in
  let bitmap_bytes := ((total_frames + 7) / 8)%nat in
  let! bitmap_storage := slice bitmap_storage 0 bitmap_bytes in
  let! fa := FrameAllocator.new usable_start_frame usable_end_frame bitmap_storage in
  let! fa := reserve_range fa 0 1 NullFrame in
  let kernel_start_frame := frame_of kernel_phys_start in
  let kernel_end_frame := frame_of (kernel_phys_end + 4096 - 1) in
  let! fa := reserve_range fa kernel_start_frame kernel_end_frame KernelImage in
  let boot_info_frame := frame_of (boot_info_addr boot_info) in
  let! fa := reserve_range fa boot_info_frame (boot_info_frame + 1) Bootloader in
  let l4_frame := frame_of (boot_cr3 boot_info) in
  let! fa := reserve_range fa l4_frame (l4_frame + 1) PageTables in
  let! _ := usable_memory memory_map in
  let! _ := FrameAllocator.total_frames fa in
  let! _ := FrameAllocator.usable_frames fa in
  set_refcount_storage fa refcount_storage.

(** ** The global allocator

    [FRAME_ALLOCATOR] is [None] before initialisation. The functions are those
    of a debug build. *)

Notation Global := (option FrameAllocator).

Definition allocate_frame (g : Global) : outcome (option nat * Global) :=
  match g with
  | None => Done (None, None)
  | Some fa => let! (r, fa) := FrameAllocator.allocate_frame true fa in Done (r, Some fa)
  end.

Definition deallocate_frame (g : Global) (frame : nat) : outcome Global :=
  match g with
  | None => Done None
  | Some fa => let! fa := FrameAllocator.deallocate_frame true fa frame in Done (Some fa)
  end.

Definition reserve_frames (g : Global) (s e : nat) (why : ReservationReason) : outcome Global :=
  match g with
  | None => Done None
  | Some fa => let! fa := reserve_range fa s e why in Done (Some fa)
  end.

Definition inc_frame_refcount (g : Global) (frame : nat) : outcome (option Z * Global) :=
  match g with
  | None => Done (None, None)
  | Some fa => let! (r, fa) := inc_refcount fa frame in Done (r, Some fa)
  end.

Definition dec_frame_refcount (g : Global) (frame : nat) : outcome (option Z * Global) :=
  match g with
  | None => Done (None, None)
  | Some fa => let! (r, fa) := dec_refcount fa frame in Done (r, Some fa)
  end.

Definition get_frame_refcount (g : Global) (frame : nat) : outcome (option Z) :=
  match g with
  | None => Done None
  | Some fa => get_refcount fa frame
  end.

(** ** What other components rely on

    A source of frames: allocation returns a frame that was free, and nothing
    else changes hands. *)
Class FrameSource (A : Type) : Type := {
  src_alloc : A -> outcome (option nat * A);
  src_dealloc : A -> nat -> outcome A;
  src_inc : A -> nat -> outcome (option Z * A);
  src_dec : A -> nat -> outcome (option Z * A);
  src_ok : A -> Prop;
  src_free : A -> nat -> bool;
  src_alloc_spec : forall a, src_ok a ->
    exists r a', src_alloc a = Done (r, a') /\ src_ok a' /\
      match r with
      | None => a' = a /\ forall g, src_free a g = false
      | Some f => src_free a f = true /\ (forall g, src_free a' g = negb (f =? g)%nat && src_free a g)
      end;
  src_free_bound : forall a f, src_ok a -> src_free a f = true -> 0 < Z.of_nat f < 2 ^ 40;
  src_inc_spec : forall a f, src_ok a ->
    exists r a', src_inc a f = Done (r, a') /\ src_ok a' /\ forall g, src_free a' g = src_free a g;
  src_dec_spec : forall a f, src_ok a ->
    exists r a', src_dec a f = Done (r, a') /\ src_ok a'
      /\ forall g, g <> f -> src_free a' g = src_free a g
}.

(** The global allocator of a machine with at most 2^40 frames (52 address
    bits) that is initialised, with the frame 0 reserved. *)
Definition global_ok (g : Global) : Prop :=
  exists fa, g = Some fa /\ FrameAllocator.inv fa /\ refcounts fa <> None
    /\ reserved fa 0 = true /\ Z.of_nat (avail_end fa) <= 2 ^ 40.

Definition global_free (g : Global) (f : nat) : bool :=
  match g with Some fa => free fa f | None => false end.

(** A PC's memory map: the hole above 636 kilobytes, with the video memory, is not usable. *)
Definition demo_boot : BootInfo :=
  mkBoot [(0x1000, 0x9F000, true); (0x9F000, 0xC0000, false); (0xC0000, 0xC8000, true)]
    0x7000 0x2000.

Definition demo_memory : Global :=
  match init_from_bootloader demo_boot (replicate 25 0) (replicate 199 0) with
  | Done fa => Some fa
  | Panicked => None
  end.

(** ** Lemmas *)

Lemma new_inv s e bs fa :
  (s <= e)%nat -> FrameAllocator.new s e bs = Done fa ->
  FrameAllocator.inv fa /\ avail_start fa = s /\ avail_end fa = e
  /\ (forall f, allocated fa f = false) /\ (forall f, reserved fa f = false).
Proof.
  intros Hle H. assert (boot s e bs (replicate (e - s) 0) = Done (with_refcounts fa
    (Some (replicate (e - s) 0 ++ drop (e - s) (replicate (e - s) 0))))) as Hb.
  { unfold boot. rewrite H. cbn [bind]. unfold FrameAllocator.new in H.
    apply bind_Done in H as (b & _ & <-%Done_inj). unfold set_refcount_storage, FrameAllocator.total_frames.
    cbn [avail_start avail_end]. replace (s <=? e)%nat with true by lia. cbn [bind].
    rewrite length_replicate. replace (e - s <=? e - s)%nat with true by lia. reflexivity. }
  destruct (boot_inv _ _ _ _ _ Hle Hb) as (Hi & _ & Ha & Hr).
  assert (avail_start fa = s /\ avail_end fa = e /\ refcounts fa = None) as (Hs & He & Hn).
  { unfold FrameAllocator.new in H. apply bind_Done in H as (b & _ & <-%Done_inj). auto. }
  split; [|auto]. destruct Hi. constructor; try assumption. unfold refcounts_ok. now rewrite Hn.
Qed.

Lemma set_refcount_storage_inv fa rs fa' :
  FrameAllocator.inv fa -> (forall f, allocated fa f = false) ->
  set_refcount_storage fa rs = Done fa' ->
  FrameAllocator.inv fa' /\ refcounts fa' <> None /\ avail_end fa' = avail_end fa
  /\ (forall f, free fa' f = free fa f) /\ forall f, reserved fa' f = reserved fa f.
Proof.
  intros Hi Ha H. unfold set_refcount_storage in H.
  apply bind_Done in H as (n & Hn & H). apply bind_Done in H as (u & Hl & <-%Done_inj).
  apply rust_assert_Done, Nat.leb_le in Hl.
  unfold FrameAllocator.total_frames in Hn. destruct (_ <=? _)%nat eqn:Hle in Hn; [|discriminate].
  apply Done_inj in Hn as <-. apply Nat.leb_le in Hle.
  split; [|split; [discriminate|split; [reflexivity|split; reflexivity]]].
  destruct Hi. constructor; try assumption. unfold refcounts_ok. cbn [refcounts with_refcounts].
  change (avail_end (with_refcounts _ _)) with (avail_end fa).
  change (avail_start (with_refcounts _ _)) with (avail_start fa).
  change (allocation_bitmap (with_refcounts _ _)) with (allocation_bitmap fa).
  split; [rewrite length_app, length_replicate, length_drop; lia|].
  intros idx c Hidx Hc. rewrite lookup_app_l, lookup_replicate_2 in Hc by now rewrite ?length_replicate.
  injection Hc as <-. split; [unfold is_u16, U16_MAX; lia|].
  specialize (Ha (avail_start fa + idx)%nat). unfold allocated, frame_index in Ha.
  replace (avail_start fa + idx - avail_start fa)%nat with idx in Ha by lia.
  symmetry. destruct (_ || _) eqn:Hr in Ha; [lia|assumption].
Qed.

Lemma reserve_range_bounds fa s e why fa' :
  reserve_range fa s e why = Done fa' ->
  avail_start fa' = avail_start fa /\ avail_end fa' = avail_end fa.
Proof.
  intros H. unfold reserve_range in H. destruct (_ <=? _)%nat; [apply Done_inj in H as <-; auto|].
  apply bind_Done in H as (o & _ & H). destruct o.
  - apply bind_Done in H as ([] & _ & <-%Done_inj). auto.
  - apply bind_Done in H as (u & _ & H). apply bind_Done in H as (? & _ & <-%Done_inj). auto.
Qed.

(** A reservation during boot, before any frame is allocated. *)
Lemma reserve_boot fa s e why fa' :
  FrameAllocator.inv fa -> (forall f, allocated fa f = false) ->
  reserve_range fa s e why = Done fa' ->
  FrameAllocator.inv fa' /\ (forall f, allocated fa' f = false)
  /\ (forall f, reserved fa' f = reserved fa f || ((s <=? f) && (f <? e))%nat).
Proof.
  intros Hi Ha H. pose proof (reserve_range_spec fa s e why Hi) as Hs. rewrite H in Hs.
  destruct Hs as (? & Hr & Hal & _). split; [assumption|]. split; [intros f; now rewrite Hal|].
  assumption.
Qed.

(** [inc_refcount] and [dec_refcount] leave the range and the reservations. *)
Lemma inc_frame fa f r fa' :
  inc_refcount fa f = Done (r, fa') ->
  avail_start fa' = avail_start fa /\ avail_end fa' = avail_end fa
  /\ (forall g, reserved fa' g = reserved fa g) /\ (refcounts fa <> None -> refcounts fa' <> None).
Proof.
  unfold inc_refcount. intros H. destruct (frame_index fa f), (refcounts fa) as [rc|] eqn:Hrc;
    try (injection H as <- <-; rewrite Hrc; now auto).
  apply bind_Done in H as (c & _ & H). apply bind_Done in H as (rc' & _ & [= <- <-]). auto.
Qed.

Lemma clear_allocated_frame fa f fa' :
  clear_allocated fa f = Done fa' ->
  avail_start fa' = avail_start fa /\ avail_end fa' = avail_end fa
  /\ (forall g, reserved fa' g = reserved fa g) /\ refcounts fa' = refcounts fa.
Proof.
  unfold clear_allocated. destruct (frame_index fa f); [|intros <-%Done_inj; auto].
  intros (b & _ & <-%Done_inj)%bind_Done. auto.
Qed.

Lemma dec_frame fa f r fa' :
  dec_refcount fa f = Done (r, fa') ->
  avail_start fa' = avail_start fa /\ avail_end fa' = avail_end fa
  /\ (forall g, reserved fa' g = reserved fa g) /\ (refcounts fa <> None -> refcounts fa' <> None).
Proof.
  unfold dec_refcount. intros H. destruct (frame_index fa f), (refcounts fa) as [rc|] eqn:Hrc;
    try (injection H as <- <-; rewrite Hrc; now auto).
  apply bind_Done in H as (c & _ & H). destruct (0 <? c); [|injection H as <- <-; rewrite Hrc; now auto].
  apply bind_Done in H as (rc' & _ & H). destruct (_ =? 0).
  - apply bind_Done in H as (fa2 & H2 & [= <- <-]). destruct (clear_allocated_frame _ _ _ H2) as (E1 & E2 & Hr & Hc).
    destruct (f <? _)%nat; (split; [exact E1|]; split; [exact E2|]; split; [intros g; exact (Hr g)|]);
      intros _; cbn [refcounts with_next]; rewrite Hc; discriminate.
  - injection H as <- <-. auto.
Qed.

(** A change of counts that keeps the range and the reservations of a frame
    changes whether it is free only through its allocation. *)
Lemma free_ext fa fa' g :
  avail_start fa' = avail_start fa -> avail_end fa' = avail_end fa ->
  reserved fa' g = reserved fa g -> allocated fa' g = allocated fa g -> free fa' g = free fa g.
Proof. unfold free, in_range. intros -> -> -> ->. reflexivity. Qed.

Lemma global_alloc_spec g :
  global_ok g ->
  exists r g', allocate_frame g = Done (r, g') /\ global_ok g' /\
    match r with
    | None => g' = g /\ forall h, global_free g h = false
    | Some f => global_free g f = true
        /\ (forall h, global_free g' h = negb (f =? h)%nat && global_free g h)
    end.
Proof.
  intros (fa & -> & Hi & Hrc & H0 & Hb). cbn [allocate_frame].
  destruct (allocate_frame_cases true fa Hi) as [[Hall ->]|(f & fa' & Hf & -> & Hc)]; cbn [bind].
  { eexists _, _. split; [reflexivity|]. split; [exists fa; auto|auto]. }
  eexists _, _. split; [reflexivity|].
  destruct (claimed_inv _ _ _ Hi Hf Hc) as (Hi' & Ha & Hres & _ & Hir). split.
  - destruct Hc as (b & -> & _). exists (update_frame fa f b 1 (S f)). split; [reflexivity|]. split; [exact Hi'|].
    split; [|split; [exact H0|exact Hb]]. cbn. destruct (refcounts fa); [discriminate|congruence].
  - split; [exact Hf|]. intros h. cbn [global_free]. unfold free. rewrite Hir, Hres, Ha.
    destruct (Nat.eqb_spec f h), (in_range fa h), (reserved fa h), (allocated fa h); reflexivity.
Qed.

(** A reservation keeps the global allocator well formed and frees nothing. *)
Lemma global_reserve g s e why g' : global_ok g -> reserve_frames g s e why = Done g' ->
  global_ok g' /\ forall f, global_free g f = false -> global_free g' f = false.
Proof.
  intros (fa & -> & Hi & Hrc & H0 & Hb) H. cbn in H. apply bind_Done in H as (fa' & H & <-%Done_inj).
  pose proof (reserve_range_spec fa s e why Hi) as S. rewrite H in S. destruct S as (Hi' & R & A & _).
  destruct (reserve_range_bounds _ _ _ _ _ H) as [B1 B2]. split.
  - exists fa'. split; [reflexivity|]. split; [exact Hi'|]. split; [|split; [now rewrite R, H0|now rewrite B2]].
    unfold reserve_range in H. destruct (_ <=? _)%nat; [now injection H as <-|]. apply bind_Done in H as (o & _ & H). destruct o.
    + apply bind_Done in H as ([] & _ & <-%Done_inj). exact Hrc.
    + apply bind_Done in H as (? & _ & H). apply bind_Done in H as (? & _ & <-%Done_inj). exact Hrc.
  - intros f. cbn. unfold free, in_range. rewrite R, A, B1, B2. generalize (reserved fa f) (allocated fa f). clear. intros [] []; lia.
Qed.

Lemma global_inc_spec g f :
  global_ok g ->
  exists r g', inc_frame_refcount g f = Done (r, g') /\ global_ok g'
    /\ forall h, global_free g' h = global_free g h.
Proof.
  intros (fa & -> & Hi & Hrc & H0 & Hb). cbn [inc_frame_refcount].
  assert (exists r fa', inc_refcount fa f = Done (r, fa') /\ FrameAllocator.inv fa'
    /\ forall h, allocated fa' h = allocated fa h) as (r & fa' & E & Hi' & Ha).
  { destruct (refcounts_cases fa f) as [(rc & Hs & Hr)|[-> _]]; [|eauto].
    destruct (refcount_spec fa f rc Hi Hs Hr) as (c & _ & _ & _ & (fa' & -> & ?) & _). eauto. }
  destruct (inc_frame _ _ _ _ E) as (Es & Ee & Er & En). rewrite E. cbn [bind].
  eexists _, _. split; [reflexivity|]. split.
  - exists fa'. rewrite Er, Ee. auto.
  - intros h. now apply free_ext.
Qed.

Lemma global_dec_spec g f :
  global_ok g ->
  exists r g', dec_frame_refcount g f = Done (r, g') /\ global_ok g'
    /\ forall h, h <> f -> global_free g' h = global_free g h.
Proof.
  intros (fa & -> & Hi & Hrc & H0 & Hb). cbn [dec_frame_refcount].
  assert (exists r fa', dec_refcount fa f = Done (r, fa') /\ FrameAllocator.inv fa'
    /\ forall h, h <> f -> allocated fa' h = allocated fa h) as (r & fa' & E & Hi' & Ha).
  { destruct (refcounts_cases fa f) as [(rc & Hs & Hr)|[_ ->]]; [|eauto].
    destruct (refcount_spec fa f rc Hi Hs Hr) as (c & _ & _ & _ & _ & (fa' & -> & ? & Ha)).
    eexists _, _. split; [reflexivity|]. split; [assumption|]. intros h Hh. rewrite Ha.
    now destruct (Nat.eqb_spec f h) as [->|]. }
  destruct (dec_frame _ _ _ _ E) as (Es & Ee & Er & En). rewrite E. cbn [bind].
  eexists _, _. split; [reflexivity|]. split.
  - exists fa'. rewrite Er, Ee. auto.
  - intros h Hh. now apply free_ext; auto.
Qed.

Lemma global_free_bound g f : global_ok g -> global_free g f = true -> 0 < Z.of_nat f < 2 ^ 40.
Proof.
  intros (fa & -> & Hi & _ & H0 & Hb). cbn [global_free]. unfold free, in_range. intros H.
  assert (f <> 0%nat) by (intros ->; rewrite H0 in H; lia). lia.
Qed.

#[export] Instance global_source : FrameSource Global := {
  src_alloc := allocate_frame;
  src_dealloc := deallocate_frame;
  src_inc := inc_frame_refcount;
  src_dec := dec_frame_refcount;
  src_ok := global_ok;
  src_free := global_free;
  src_alloc_spec := global_alloc_spec;
  src_free_bound := global_free_bound;
  src_inc_spec := global_inc_spec;
  src_dec_spec := global_dec_spec
}.

(** The reservations of boot, one after the other. *)
Lemma init_spec boot_info bs rs fa m :
  convert_map (memory_map boot_info) map_new = Done m ->
  init_from_bootloader boot_info bs rs = Done fa ->
  FrameAllocator.inv fa /\ (refcounts fa <> None /\ reserved fa 0 = true) /\ avail_end fa = find_last_usable_frame m
  /\ forall f, free fa f
       = ((find_first_usable_frame m <=? f) && (f <? find_last_usable_frame m))%nat
         && negb ((f <? 1) || ((256 <=? f) && (f <? 2048))
                  || (f =? frame_of (boot_info_addr boot_info)) || (f =? frame_of (boot_cr3 boot_info)))%nat.
Proof.
  intros Hm H. unfold init_from_bootloader in H. rewrite Hm in H. cbn [bind] in H.
  apply bind_Done in H as (u1 & _ & H). apply bind_Done in H as (st & _ & H).
  apply bind_Done in H as (f0 & H0 & H). apply bind_Done in H as (f1 & H1 & H).
  apply bind_Done in H as (f2 & H2 & H). apply bind_Done in H as (f3 & H3 & H).
  apply bind_Done in H as (f4 & H4 & H). apply bind_Done in H as (u2 & _ & H).
  apply bind_Done in H as (n & Hn & H). apply bind_Done in H as (u3 & _ & H).
  assert (avail_start f4 <= avail_end f4)%nat as Hle.
  { unfold FrameAllocator.total_frames in Hn. destruct (_ <=? _)%nat eqn:E in Hn; [lia|discriminate]. }
  destruct (reserve_range_bounds _ _ _ _ _ H1) as [S1 E1].
  destruct (reserve_range_bounds _ _ _ _ _ H2) as [S2 E2].
  destruct (reserve_range_bounds _ _ _ _ _ H3) as [S3 E3].
  destruct (reserve_range_bounds _ _ _ _ _ H4) as [S4 E4].
  assert (avail_start f0 = find_first_usable_frame m /\ avail_end f0 = find_last_usable_frame m) as [S0 E0].
  { unfold FrameAllocator.new in H0. apply bind_Done in H0 as (b & _ & <-%Done_inj). auto. }
  assert (find_first_usable_frame m <= find_last_usable_frame m)%nat as Hse by congruence.
  destruct (new_inv _ _ _ _ Hse H0) as (I0 & _ & _ & A0 & R0).
  destruct (reserve_boot _ _ _ _ _ I0 A0 H1) as (I1 & A1 & R1).
  destruct (reserve_boot _ _ _ _ _ I1 A1 H2) as (I2 & A2 & R2).
  destruct (reserve_boot _ _ _ _ _ I2 A2 H3) as (I3 & A3 & R3).
  destruct (reserve_boot _ _ _ _ _ I3 A3 H4) as (I4 & A4 & R4).
  destruct (set_refcount_storage_inv _ _ _ I4 A4 H) as (I & Hc & Ea & F & Fr).
  split; [assumption|]. split; [split; [assumption|]; rewrite Fr, R4, R3, R2, R1; clear; lia|]. split; [lia|]. intros f. rewrite F. unfold free, in_range.
  rewrite A4, R4, R3, R2, R1, R0. change (frame_of kernel_phys_start) with 256%nat.
  change (frame_of (kernel_phys_end + 4096 - 1)) with 2048%nat. clear -S0 E0 S1 E1 S2 E2 S3 E3 S4 E4.
  lia.
Qed.

(** Boot reserves what it must: whatever memory map the bootloader hands
    over, the frames the allocator can hand out after [init_from_bootloader]
    are exactly those between the first and the last usable frame of the map
    that are neither frame 0, nor in the kernel image (1 to 8 megabytes), nor
    the frames of the boot information and of the active top-level page table. *)
Theorem init_free_frames boot_info bs rs fa m :
  convert_map (memory_map boot_info) map_new = Done m ->
  init_from_bootloader boot_info bs rs = Done fa ->
  FrameAllocator.inv fa
  /\ forall f, free fa f = true <->
       (find_first_usable_frame m <= f < find_last_usable_frame m)%nat /\ f <> 0%nat
       /\ ~ (kernel_phys_start <= 4096 * Z.of_nat f < kernel_phys_end)
       /\ f <> frame_of (boot_info_addr boot_info) /\ f <> frame_of (boot_cr3 boot_info).
Proof.
  intros Hm H. destruct (init_spec _ _ _ _ _ Hm H) as (Hi & _ & _ & F). split; [exact Hi|].
  intros f. rewrite F. unfold kernel_phys_start, kernel_phys_end, KERNEL_PHYS_BASE. lia.
Qed.

Lemma init_free_frames_witness :
  exists fa, init_from_bootloader demo_boot (replicate 25 0) (replicate 199 0) = Done fa
    /\ free fa 3 = true.
Proof.
  destruct (init_from_bootloader demo_boot (replicate 25 0) (replicate 199 0)) as [fa|] eqn:E;
    [|vm_compute in E; discriminate].
  exists fa. split; [reflexivity|].
  refine (proj2 (proj2 (init_free_frames demo_boot _ _ fa _ eq_refl E) 3%nat) _).
  repeat split; try (vm_compute; lia); vm_compute; intuition discriminate.
Defined.

(** Boot does not reserve memory that is not usable: with a hole in the
    memory map, here the video memory, the
    allocator hands out frames of the hole. *)
Theorem unusable_memory_is_allocatable :
  exists s e fa, (s, e, false) ∈ memory_map demo_boot
    /\ init_from_bootloader demo_boot (replicate 25 0) (replicate 199 0) = Done fa
    /\ s <= 4096 * 184 < e /\ free fa 184 = true.
Proof.
  exists 0x9F000, 0xC0000.
  destruct (init_from_bootloader demo_boot (replicate 25 0) (replicate 199 0)) as [fa|] eqn:E;
    [|vm_compute in E; discriminate].
  exists fa. split; [right; left|]. split; [reflexivity|]. split; [lia|].
  destruct (init_spec demo_boot _ _ fa _ eq_refl E) as (_ & _ & _ & F). rewrite F. vm_compute. reflexivity.
Qed.

Lemma demo_memory_ok : global_ok demo_memory.
Proof.
  unfold demo_memory.
  destruct (init_from_bootloader demo_boot (replicate 25 0) (replicate 199 0)) as [fa|] eqn:E;
    [|vm_compute in E; discriminate].
  destruct (init_spec demo_boot _ _ fa _ eq_refl E) as (Hi & [Hc H0] & He & _).
  exists fa. split; [reflexivity|]. split; [exact Hi|]. split; [exact Hc|]. split; [exact H0|]. rewrite He. vm_compute. discriminate.
Qed.

End Memory.
