(* ===== verification/Heap.v ===== *)
(** * The kernel heap (src/kernel/src/heap.rs, memory.rs)

    The frames boot takes for the heap, the region it gives to the allocator of
    the [linked_list_allocator] crate, and when that region is made of frames
    that were taken for it. *)

From S2P Require Import Prelude Bitmap FrameAlloc Memory.
Import FrameAllocator.

Module Heap.

Definition HEAP_SIZE : Z := 26 * 4096.
Definition MAX_HEAP_FRAMES : nat := 32.

Inductive heap_error : Type := HeapTooLarge | OutOfMemory.

(** The statics: [ACTUAL_HEAP_START], [HEAP_INITIALIZED], and the region that
    [INNER_ALLOCATOR] was given. *)
Record heap_state : Type := mkHeap { heap_start : Z; initialized : bool; inner : option (Z * Z) }.

Definition boot_heap : heap_state := mkHeap 0 false None.

(** [phys_to_virt]. *)
Definition phys_to_virt (offset phys : Z) : outcome Z := if phys + offset <=? U64_MAX then Done (phys + offset) else Panicked.

(** The loop that takes the frames: [n] are left, the next one is the [i]th. *)
Fixpoint take_frames (n i : nat) (acc : list nat) (g : Memory.Global) : outcome (result (list nat) heap_error * Memory.Global) :=
  match n with
  | O => Done (Ok acc, g)
  | S n' =>
      let! (frame, g) := Memory.allocate_frame g in
      match frame with
      | None => Done (Err OutOfMemory, g)
      | Some f => if (i <? MAX_HEAP_FRAMES)%nat then take_frames n' (S i) (acc ++ [f]) g else Done (Err HeapTooLarge, g)
      end
  end.

(** The loop that reserves them, one by one. *)
Fixpoint reserve_each (frames : list nat) (g : Memory.Global) : outcome Memory.Global :=
  match frames with
  | [] => Done g
  | f :: rest => let! g := Memory.reserve_frames g f (f + 1) FrameAllocator.Heap in reserve_each rest g
  end.

Definition num_frames : nat := Z.to_nat ((HEAP_SIZE + 4095) / 4096).

(** [map_heap]; the reports compute the ends of the region. *)
Definition map_heap (offset : Z) (h : heap_state) (g : Memory.Global)
    : outcome (result unit heap_error * heap_state * Memory.Global) :=
  let! (r, g) := take_frames num_frames 0 [] g in
  match r with
  | Err e => Done (Err e, h, g)
  | Ok frames =>
      let! first := index (frames ++ replicate (MAX_HEAP_FRAMES - length frames) 0%nat) 0 in
      let heap_phys_start := Z.of_nat first * 4096 in
      let! start := phys_to_virt offset heap_phys_start in
      let! _ := rust_assert ((heap_phys_start + HEAP_SIZE <=? U64_MAX) && (start + HEAP_SIZE <=? U64_MAX)) in
      let! g := reserve_each frames g in
      Done (Ok tt, mkHeap start (initialized h) (inner h), g)
  end.

(** [init]. *)
Definition init (h : heap_state) : outcome heap_state :=
  if initialized h then Panicked
  else if heap_start h =? 0 then Panicked
  else Done (mkHeap (heap_start h) true (Some (heap_start h, HEAP_SIZE))).

(** The boot sequence of [main.rs]: [map_heap().expect(..)], then [init]. *)
Definition boot (offset : Z) (g : Memory.Global) : outcome (heap_state * Memory.Global) :=
  let! (r, h, g) := map_heap offset boot_heap g in
  match r with
  | Err _ => Panicked
  | Ok _ => let! h := init h in Done (h, g)
  end.

(** The frame an address of the heap is in. *)
Definition heap_frame (offset a : Z) : nat := Z.to_nat ((a - offset) / 4096).
Definition in_heap (h : heap_state) (a : Z) : Prop :=
  match inner h with Some (s, n) => s <= a < s + n | None => False end.

(** ** Lemmas *)

(** The next frame is taken when it is free. *)
Lemma allocate_next fa :
  inv fa -> free fa (next_frame fa) = true ->
  exists fa', allocate_frame true fa = Done (Some (next_frame fa), fa') /\ claimed fa (next_frame fa) fa'.
Proof.
  intros Hi Hf. pose proof (free_in_range _ _ Hf) as Hr. pose proof (inv_range fa Hi) as Hrange.
  unfold allocate_frame. replace (_ || _) with true by lia. cbn [rust_assert bind].
  rewrite total_frames_spec by assumption. cbn [bind]. unfold in_range in Hr.
  replace (_ =? 0)%nat with false by lia. replace (_ || _) with false by lia.
  destruct (avail_end fa - avail_start fa)%nat as [|n] eqn:En; [lia|]. cbn [allocate_scan].
  replace (_ <=? _)%nat with false by lia. rewrite is_reserved_spec by assumption. cbn [bind].
  unfold free in Hf. destruct (reserved fa (next_frame fa)); [exfalso; lia|].
  rewrite is_allocated_spec by assumption. destruct (allocated fa (next_frame fa)); [exfalso; lia|]. cbn [bind negb].
  destruct (set_allocated_spec fa Hi (next_frame fa)) as (b & -> & Hwf & Hsz & Hbit); [unfold in_range; lia|].
  cbn [bind]. rewrite set_refcount_spec by (assumption || (unfold in_range; lia)). cbn [bind].
  eexists. split; [reflexivity|]. exists b. repeat split; assumption.
Qed.

(** [n] consecutive free frames are taken in order. *)
Lemma take_frames_consecutive n : forall i acc fa f,
  inv fa -> next_frame fa = f -> (i + n <= MAX_HEAP_FRAMES)%nat ->
  (forall k, (f <= k < f + n)%nat -> free fa k = true) ->
  exists fa', take_frames n i acc (Some fa) = Done (Ok (acc ++ seq f n), Some fa') /\ inv fa' /\
    reserved_count fa' = reserved_count fa /\
    forall k, free fa' k = free fa k && negb ((f <=? k) && (k <? f + n))%nat.
Proof.
  induction n as [|n IH]; intros i acc fa f Hi Hn Hm Hf; cbn [take_frames seq].
  { exists fa. rewrite app_nil_r. repeat split; try apply Hi. intros k. destruct (free fa k); lia. }
  destruct (allocate_next fa Hi) as (fa1 & E & Hc); [rewrite Hn; apply Hf; lia|]. rewrite Hn in E, Hc.
  assert (Hff : free fa f = true) by (apply Hf; lia).
  destruct (claimed_inv _ _ _ Hi Hff Hc) as (Hi1 & _ & _ & Hn1 & _).
  destruct (claimed_free _ _ _ Hi Hff Hc) as [F1 _].
  unfold Memory.allocate_frame. rewrite E. cbn [bind]. replace (_ <? _)%nat with true by lia.
  destruct (IH (S i) (acc ++ [f]) fa1 (S f) Hi1 Hn1 ltac:(lia)) as (fa' & -> & Hi' & Hr & F).
  { intros k Hk. rewrite F1, (Hf k) by lia. lia. }
  exists fa'. rewrite <- app_assoc. split; [reflexivity|]. split; [exact Hi'|]. split.
  - rewrite Hr. now destruct Hc as (b & -> & _).
  - intros k. rewrite F, F1. destruct (free fa k); lia.
Qed.

(** They are reserved one by one when the first reservation finds a slot: the
    others are merged with the one before. *)
Lemma reserve_each_consecutive n : forall fa f,
  inv fa -> (reserved_count fa < MAX_RESERVED_REGIONS)%nat \/ (0 < f)%nat /\ reserved fa (f - 1) = true ->
  exists fa', reserve_each (seq f n) (Some fa) = Done (Some fa') /\ inv fa' /\
    forall k, free fa' k = free fa k && negb ((f <=? k) && (k <? f + n))%nat.
Proof.
  induction n as [|n IH]; intros fa f Hi Hs; cbn [reserve_each seq].
  { exists fa. split; [reflexivity|]. split; [assumption|]. intros k. destruct (free fa k); lia. }
  pose proof (reserve_range_spec fa f (f + 1) FrameAllocator.Heap Hi) as S.
  unfold Memory.reserve_frames. destruct (reserve_range fa f (f + 1) FrameAllocator.Heap) as [fa1|] eqn:E; cbn [bind].
  - destruct S as (Hi1 & R1 & A1 & _). destruct (Memory.reserve_range_bounds _ _ _ _ _ E) as [B1 B2].
    destruct (IH fa1 (S f) Hi1) as (fa' & -> & Hi' & F).
    { right. split; [lia|]. rewrite R1. replace (S f - 1)%nat with f by lia. rewrite orb_comm. lia. }
    exists fa'. split; [reflexivity|]. split; [exact Hi'|]. intros k. rewrite F. unfold free, in_range.
    rewrite R1, A1, B1, B2. generalize (reserved fa k) (allocated fa k). clear. intros [] []; lia.
  - exfalso. destruct S as (_ & Hc & Hall), Hs as [Hs|[Hf Hr]]; [lia|].
    unfold reserved in Hr. apply covered_spec in Hr as (j & r & Hj & Hin%contains_spec).
    pose proof (Forall_lookup_1 _ _ _ _ Hall Hj) as Hm. unfold try_merge, overlaps in Hm. cbn [start_frame end_frame reason] in Hm.
    destruct (_ || _) eqn:Hb in Hm; [discriminate|]. clear -Hb Hin Hf. lia.
Qed.

(** A heap that was set up on 26 consecutive frames. *)
Lemma boot_consecutive offset fa f :
  inv fa -> next_frame fa = f -> (reserved_count fa < MAX_RESERVED_REGIONS)%nat ->
  (forall k, (f <= k < f + 26)%nat -> free fa k = true) ->
  0 < offset + Z.of_nat f * 4096 -> 0 <= offset -> offset + Z.of_nat f * 4096 + HEAP_SIZE <= U64_MAX ->
  exists fa', boot offset (Some fa) = Done (mkHeap (Z.of_nat f * 4096 + offset) true (Some (Z.of_nat f * 4096 + offset, HEAP_SIZE)), Some fa')
    /\ inv fa' /\ forall k, free fa' k = free fa k && negb ((f <=? k) && (k <? f + 26))%nat.
Proof.
  intros Hi Hn Hc Hf H0 Ho Hu. unfold boot, map_heap.
  destruct (take_frames_consecutive 26 0 [] fa f Hi Hn) as (fa1 & E & Hi1 & Hr & F1); [unfold MAX_HEAP_FRAMES; lia|exact Hf|].
  change num_frames with 26%nat. rewrite E. cbn [bind app]. change (index _ 0) with (Done f). cbn [bind].
  unfold phys_to_virt. replace (_ <=? _) with true by (unfold HEAP_SIZE in Hu; lia). cbn [bind].
  replace (_ && _) with true by (unfold HEAP_SIZE in *; lia). cbn [rust_assert bind].
  destruct (reserve_each_consecutive 26 fa1 f Hi1) as (fa2 & -> & Hi2 & F2); [left; lia|]. cbn [bind].
  unfold init. cbn [initialized boot_heap heap_start]. replace (_ =? 0) with false by lia. cbn [bind inner].
  exists fa2. split; [reflexivity|]. split; [exact Hi2|]. intros k. rewrite F2, F1. destruct (free fa k); lia.
Qed.

(** Setting the heap up takes frames and frees none. *)
Lemma take_frames_ok n : forall i acc g r g', Memory.global_ok g -> take_frames n i acc g = Done (r, g') ->
  Memory.global_ok g' /\ forall f, Memory.global_free g f = false -> Memory.global_free g' f = false.
Proof.
  induction n as [|n IH]; intros i acc g r g' Hg; cbn [take_frames]; [now intros [= _ <-]|].
  destruct (Memory.global_alloc_spec g Hg) as (o & g1 & -> & Hg1 & Ho). cbn [bind].
  destruct o as [f|]; [destruct Ho as [_ Ho]|destruct Ho as [-> _]; now intros [= _ <-]].
  assert (forall f, Memory.global_free g f = false -> Memory.global_free g1 f = false) as Hm by (intros x Hx; rewrite Ho, Hx; apply andb_false_r).
  destruct (_ <? _)%nat; [|now intros [= _ <-]]. intros H. destruct (IH _ _ _ _ _ Hg1 H). auto.
Qed.

Lemma reserve_each_ok frames : forall g g', Memory.global_ok g -> reserve_each frames g = Done g' ->
  Memory.global_ok g' /\ forall f, Memory.global_free g f = false -> Memory.global_free g' f = false.
Proof.
  induction frames as [|f frames IH]; intros g g' Hg; cbn [reserve_each]; [now intros [= <-]|].
  intros (g1 & H1 & H)%bind_Done. destruct (Memory.global_reserve _ _ _ _ _ Hg H1) as [Hg1 M1]. destruct (IH _ _ Hg1 H). auto.
Qed.

Lemma heap_boot_ok offset g h g' : Memory.global_ok g -> boot offset g = Done (h, g') ->
  Memory.global_ok g' /\ forall f, Memory.global_free g f = false -> Memory.global_free g' f = false.
Proof.
  intros Hg. unfold boot. intros ([[r h1] g1] & H1 & H)%bind_Done. destruct r as [[]|]; [|discriminate].
  apply bind_Done in H as (h2 & _ & [= <- <-]). unfold map_heap in H1. apply bind_Done in H1 as ([r g2] & H2 & H1).
  destruct (take_frames_ok _ _ _ _ _ _ Hg H2) as [Hg2 M2]. destruct r as [fs|]; [|discriminate].
  do 3 (apply bind_Done in H1 as (? & _ & H1)). apply bind_Done in H1 as (g3 & H3 & [= _ <-]).
  destruct (reserve_each_ok _ _ _ Hg2 H3). auto.
Qed.

(** ** The heap *)

(** C37: when the 26 frames from the allocator's next one on are free, boot sets
    the heap up on them: every address of the region given to the heap
    allocator is in a frame that was free before and that the frame allocator
    will not hand out again, and no other frame is lost. *)
Theorem heap_region_is_owned offset fa :
  inv fa -> (reserved_count fa < MAX_RESERVED_REGIONS)%nat ->
  (forall k, (next_frame fa <= k < next_frame fa + 26)%nat -> free fa k = true) ->
  0 <= offset -> (0 < next_frame fa)%nat -> offset + Z.of_nat (next_frame fa) * 4096 + HEAP_SIZE <= U64_MAX ->
  exists h fa', boot offset (Some fa) = Done (h, Some fa') /\ inner h = Some (offset + Z.of_nat (next_frame fa) * 4096, HEAP_SIZE) /\
    (forall a, in_heap h a -> free fa (heap_frame offset a) = true /\ free fa' (heap_frame offset a) = false) /\
    forall k, ~ (next_frame fa <= k < next_frame fa + 26)%nat -> free fa' k = free fa k.
Proof.
  intros Hi Hc Hf Ho Hp Hu.
  destruct (boot_consecutive offset fa (next_frame fa)) as (fa' & E & _ & F); [assumption|reflexivity|assumption|assumption|lia..|].
  do 2 eexists. split; [exact E|]. split; [cbn; do 2 f_equal; lia|]. split.
  - intros a Ha. cbn in Ha. unfold heap_frame. unfold HEAP_SIZE in Ha.
    assert (Hk : (next_frame fa <= Z.to_nat ((a - offset) / 4096) < next_frame fa + 26)%nat).
    { split; [apply Nat2Z.inj_le|apply Nat2Z.inj_lt]; rewrite Z2Nat.id by (apply Z.div_pos; lia).
      - apply Z.div_le_lower_bound; lia.
      - apply Z.div_lt_upper_bound; lia. }
    split; [now apply Hf|]. rewrite F. destruct (free fa _); lia.
  - intros k Hk. rewrite F. destruct (free fa k); lia.
Qed.

(** A machine whose boot information and page table are not in the first
    frames. *)
Definition roomy_boot : Memory.BootInfo := Memory.mkBoot [(0x1000, 0x60000, true)] 0x50000 0x51000.

Lemma heap_region_is_owned_witness :
  exists fa h fa', Memory.init_from_bootloader roomy_boot (replicate 12 0) (replicate 95 0) = Done fa /\
    boot 0xFFFF800000000000 (Some fa) = Done (h, Some fa') /\ inner h = Some (0xFFFF800000001000, HEAP_SIZE) /\
    free fa' 27 = true.
Proof.
  destruct (Memory.init_from_bootloader roomy_boot (replicate 12 0) (replicate 95 0)) as [fa|] eqn:E;
    [|vm_compute in E; discriminate E].
  destruct (Memory.init_spec roomy_boot _ _ fa _ eq_refl E) as (Hi & _ & _ & F).
  assert (N : next_frame fa = 1%nat /\ (reserved_count fa < MAX_RESERVED_REGIONS)%nat).
  { vm_compute in E. injection E as <-. split; [reflexivity|]. vm_compute. lia. }
  destruct N as [N1 N2].
  destruct (heap_region_is_owned 0xFFFF800000000000 fa Hi N2) as (h & fa' & B & I & _ & K).
  - rewrite N1. intros k Hk. rewrite F. change (Memory.find_first_usable_frame _) with 1%nat.
    change (Memory.find_last_usable_frame _) with 96%nat. change (Memory.frame_of (Memory.boot_info_addr _)) with 80%nat.
    change (Memory.frame_of (Memory.boot_cr3 _)) with 81%nat. lia.
  - lia.
  - lia.
  - rewrite N1. unfold HEAP_SIZE, U64_MAX. lia.
  - rewrite N1 in I, K. exists fa, h, fa'. split; [reflexivity|]. split; [exact B|]. split; [exact I|].
    rewrite K by lia. rewrite F. vm_compute. reflexivity.
Defined.

(** Nothing makes the frames consecutive: on a machine whose top-level page
    table is in one of the first usable frames, boot succeeds with a heap whose
    region covers the active page table and the boot information. *)
Theorem heap_covers_page_table :
  exists fa h fa', Memory.init_from_bootloader Memory.demo_boot (replicate 25 0) (replicate 199 0) = Done fa /\
    boot 0xFFFF800000000000 (Some fa) = Done (h, Some fa') /\
    in_heap h (0xFFFF800000000000 + Memory.boot_cr3 Memory.demo_boot) /\
    in_heap h (0xFFFF800000000000 + Memory.boot_info_addr Memory.demo_boot) /\ free fa' 29 = true /\ free fa' 28 = false.
Proof.
  do 3 eexists. split; [vm_compute; reflexivity|]. split; [vm_compute; reflexivity|].
  split; [vm_compute; intuition discriminate|]. split; [vm_compute; intuition discriminate|]. split; vm_compute; reflexivity.
Qed.

End Heap.
