(* ===== verification/Paging.v ===== *)
(** * Page tables (src/kernel/src/paging.rs, page_table_tracker.rs)

    Physical memory is an array of 64-bit words, and a page table is 512 of
    them: the operations read and write entries in memory the way the source
    does through its physical-memory window.  Frames come from any
    [FrameSource].  TLB flushes have no counterpart: an access is translated
    by the tables as they are. *)

From S2P Require Import Prelude Bitmap FrameAlloc Memory.
Import Memory.

Module Paging.

(** [struct PageTableFlags]: the bits. *)
Definition PRESENT : Z := 0x1.
Definition WRITABLE : Z := 0x2.
Definition USER_ACCESSIBLE : Z := 0x4.
Definition WRITE_THROUGH : Z := 0x8.
Definition NO_CACHE : Z := 0x10.
Definition ACCESSED : Z := 0x20.
Definition DIRTY : Z := 0x40.
Definition HUGE_PAGE : Z := 0x80.
Definition GLOBAL : Z := 0x100.
Definition COPY_ON_WRITE : Z := 0x200.
Definition NO_EXECUTE : Z := 0x8000000000000000.

(** [PageTableFlags::contains]. *)
Definition contains (flags other : Z) : bool := Z.land flags other =? other.

(** [struct PageTableEntry]: a 64-bit value. *)
Definition is_present (e : Z) : bool := negb (Z.land e PRESENT =? 0).
Definition is_unused (e : Z) : bool := e =? 0.
Definition flags (e : Z) : Z := Z.land e 0xFFF.
Definition ADDR_MASK : Z := 0x000FFFFFFFFFF000.
Definition addr (e : Z) : Z := Z.land e ADDR_MASK.

(** [PageTableEntry::set]: the new value. *)
Definition make_entry (a fl : Z) : Z := Z.lor (Z.land a ADDR_MASK) fl.

Definition ENTRY_COUNT : nat := 512.

(** [struct VirtAddr]: the four table indices and the offset. *)
Definition p4_index (va : Z) : nat := Z.to_nat (Z.land (Z.shiftr va 39) 0x1FF).
Definition p3_index (va : Z) : nat := Z.to_nat (Z.land (Z.shiftr va 30) 0x1FF).
Definition p2_index (va : Z) : nat := Z.to_nat (Z.land (Z.shiftr va 21) 0x1FF).
Definition p1_index (va : Z) : nat := Z.to_nat (Z.land (Z.shiftr va 12) 0x1FF).
Definition page_offset (va : Z) : Z := Z.land va 0xFFF.
Definition page_align_down (a : Z) : Z := Z.land a (not64 0xFFF).

Definition PAGE_SIZE : Z := 4096.
Definition KERNEL_STACK_TOP : Z := 0xFFFFFFFF80000000.
Definition KERNEL_STACK_PAGES : nat := 4.
Definition USER_SPACE_MAX : Z := 0x0000800000000000.

(** ** Physical memory *)

(** The word at a word address; memory that was never written reads as 0. *)
Definition word (m : gmap Z Z) (w : Z) : Z := default 0 (m !! w).

(** [table[i]] for the table at physical address [t]. *)
Definition entry (m : gmap Z Z) (t : Z) (i : nat) : Z := word m (t / 8 + Z.of_nat i).
Definition put_entry (m : gmap Z Z) (t : Z) (i : nat) (e : Z) : gmap Z Z :=
  <[t / 8 + Z.of_nat i := e]> m.

(** Entries [i .. i + n) of the table set to 0. *)
Fixpoint zero_entries (m : gmap Z Z) (t : Z) (i n : nat) : gmap Z Z :=
  match n with
  | O => m
  | S n' => zero_entries (put_entry m t i 0) t (S i) n'
  end.

(** Entries [i .. i + n) of table [src] copied to table [dst]. *)
Fixpoint copy_entries (m : gmap Z Z) (src dst : Z) (i n : nat) : gmap Z Z :=
  match n with
  | O => m
  | S n' => copy_entries (put_entry m dst i (entry m src i)) src dst (S i) n'
  end.

(** [PageTable::zero], and [write_bytes(page, 0, 4096)] for a data page. *)
Definition zero_frame (m : gmap Z Z) (t : Z) : gmap Z Z := zero_entries m t 0 ENTRY_COUNT.

(** [frame as u64 * FRAME_SIZE]: the product is checked. *)
Definition frame_addr (f : nat) : Z := Z.of_nat f * 4096.

(** [(addr / FRAME_SIZE) as usize]. *)
Definition addr_frame (a : Z) : nat := Z.to_nat (a / 4096).

Section Tables.
Context {A : Type} `{FrameSource A}.

(** Memory, the frame allocator and the frames of the page-table tracker. *)
Record Phys : Type := mkPhys { mem : gmap Z Z; frames : A; tracked : list nat }.

Notation paging T := (stm Phys string T).

Definition with_mem (s : Phys) (m : gmap Z Z) : Phys := mkPhys m (frames s) (tracked s).
Definition with_frames (s : Phys) (a : A) : Phys := mkPhys (mem s) a (tracked s).

Definition get_entry (t : Z) (i : nat) : paging Z := sread (fun s => entry (mem s) t i).
Definition set_entry (t : Z) (i : nat) (e : Z) : paging unit :=
  smodify (fun s => with_mem s (put_entry (mem s) t i e)).
Definition zero (t : Z) : paging unit := smodify (fun s => with_mem s (zero_frame (mem s) t)).

(** The allocator's operations on the state. *)
Definition allocate_frame : paging (option nat) := fun s =>
  let! (r, a) := src_alloc (frames s) in Done (Ok r, with_frames s a).
Definition deallocate_frame (f : nat) : paging unit := fun s =>
  let! a := src_dealloc (frames s) f in Done (Ok tt, with_frames s a).
Definition inc_frame_refcount (f : nat) : paging unit := fun s =>
  let! (_, a) := src_inc (frames s) f in Done (Ok tt, with_frames s a).
Definition dec_frame_refcount (f : nat) : paging unit := fun s =>
  let! (_, a) := src_dec (frames s) f in Done (Ok tt, with_frames s a).

(** [PageTableTracker::track_frame]. *)
Definition track_frame (frames : list nat) (f : nat) : list nat :=
  if bool_decide (f ∈ frames) then frames else frames ++ [f].
Definition is_page_table_frame (frames : list nat) (f : nat) : bool := bool_decide (f ∈ frames).

(** [allocate_page_table_frame]. *)
Definition allocate_page_table_frame : paging (option nat) :=
  let% r := allocate_frame in
  match r with
  | Some f => fun s => Done (Ok (Some f), mkPhys (mem s) (frames s) (track_frame (tracked s) f))
  | None => sret None
  end.

(** [.ok_or(message)?]. *)
Definition ok_or {T} (m : paging (option T)) (message : string) : paging T :=
  let% r := m in match r with Some t => sret t | None => sfail message end.

(** The flags of an entry that points to a table. *)
Definition TABLE_FLAGS : Z := Z.lor (Z.lor PRESENT WRITABLE) USER_ACCESSIBLE.

(** [create_user_page_table]; [cr3] is the active table. *)
Definition create_user_page_table (cr3 : Z) : paging Z :=
  let% l4_frame := ok_or allocate_page_table_frame "Failed to allocate L4 page table" in
  let l4 := frame_addr l4_frame in
  let% _ := zero l4 in
  let% _ := smodify (fun s => with_mem s (copy_entries (mem s) cr3 l4 256 256)) in
  sret l4.

(** "Get or create" the next table below an entry. *)
Definition next_table (t : Z) (i : nat) (message : string) : paging Z :=
  let% e := get_entry t i in
  let% _ := (if is_present e then sret tt
             else
               let% f := ok_or allocate_page_table_frame message in
               let% _ := zero (frame_addr f) in
               set_entry t i (make_entry (frame_addr f) TABLE_FLAGS)) in
  let% e := get_entry t i in
  sret (addr e).

(** [map_page]: panics when the page is mapped to another frame. *)
Definition map_page (page_table_phys va pa fl : Z) : paging unit :=
  let% l3 := next_table page_table_phys (p4_index va) "Failed to allocate L3 page table" in
  let% l2 := next_table l3 (p3_index va) "Failed to allocate L2 page table" in
  let% l1 := next_table l2 (p2_index va) "Failed to allocate L1 page table" in
  let% e := get_entry l1 (p1_index va) in
  if is_present e then
    if addr e =? page_align_down pa then set_entry l1 (p1_index va) (make_entry pa fl)
    else spanic
  else set_entry l1 (p1_index va) (make_entry pa fl).

(** [walk_page_table]: the table and index of the entry of a mapped page. *)
Definition walk (m : gmap Z Z) (page_table_phys va : Z) : option (Z * nat) :=
  let e4 := entry m page_table_phys (p4_index va) in
  if negb (is_present e4) then None else
  let e3 := entry m (addr e4) (p3_index va) in
  if negb (is_present e3) then None else
  let e2 := entry m (addr e3) (p2_index va) in
  if negb (is_present e2) then None else
  let e1 := entry m (addr e2) (p1_index va) in
  if negb (is_present e1) then None else Some (addr e2, p1_index va).

(** [unmap_page]: the message tells which level is missing. *)
Definition unmap_page (page_table_phys va : Z) : paging Z :=
  let% e4 := get_entry page_table_phys (p4_index va) in
  if negb (is_present e4) then sfail "Page not mapped (L4 entry missing)" else
  let% e3 := get_entry (addr e4) (p3_index va) in
  if negb (is_present e3) then sfail "Page not mapped (L3 entry missing)" else
  let% e2 := get_entry (addr e3) (p2_index va) in
  if negb (is_present e2) then sfail "Page not mapped (L2 entry missing)" else
  let% e1 := get_entry (addr e2) (p1_index va) in
  if negb (is_present e1) then sfail "Page not mapped (L1 entry missing)" else
  let phys_addr := addr e1 in
  let% _ := set_entry (addr e2) (p1_index va) 0 in
  sret phys_addr.

(** [set_pte_flags] and [clear_pte_flags]. *)
Definition update_pte_flags (page_table_phys va : Z) (f : Z -> Z) : paging unit :=
  let% r := sread (fun s => walk (mem s) page_table_phys va) in
  match r with
  | None => sfail "Page not mapped"
  | Some (t, i) =>
      let% pte := get_entry t i in
      set_entry t i (make_entry (addr pte) (f (flags pte)))
  end.

Definition set_pte_flags (page_table_phys va fl : Z) : paging unit :=
  update_pte_flags page_table_phys va (fun cur => Z.lor cur fl).
Definition clear_pte_flags (page_table_phys va fl : Z) : paging unit :=
  update_pte_flags page_table_phys va (fun cur => Z.land cur (not64 fl)).

(** [a - b] on [u64]. *)
Definition sub64 (a b : Z) : paging Z := if b <=? a then sret (a - b) else spanic.

(** The loop of [allocate_user_stack] and [allocate_kernel_stack], which
    differ in the flags only. *)
Definition allocate_stack (page_table_phys stack_top : Z) (num_pages : nat) (fl : Z) : paging unit :=
  for_range 0 num_pages (fun i =>
    let% f := ok_or allocate_frame "Failed to allocate stack frame" in
    let% va := sub64 stack_top (Z.of_nat (i + 1) * PAGE_SIZE) in
    let% _ := map_page page_table_phys va (frame_addr f) fl in
    zero (frame_addr f)).

Definition allocate_user_stack (page_table_phys stack_top : Z) (num_pages : nat) : paging unit :=
  allocate_stack page_table_phys stack_top num_pages
    (Z.lor (Z.lor (Z.lor PRESENT WRITABLE) USER_ACCESSIBLE) NO_EXECUTE).

Definition allocate_kernel_stack (page_table_phys stack_top : Z) (num_pages : nat) : paging unit :=
  allocate_stack page_table_phys stack_top num_pages (Z.lor (Z.lor PRESENT WRITABLE) NO_EXECUTE).

(** The loops of [free_process_address_space], from the last level up. *)
Definition free_l1 (l1 : Z) : paging unit :=
  for_range 0 ENTRY_COUNT (fun p1 =>
    let% e := get_entry l1 p1 in
    if negb (is_present e) then sret tt
    else let% _ := dec_frame_refcount (addr_frame (addr e)) in set_entry l1 p1 0).

Definition free_l2 (l2 : Z) : paging unit :=
  for_range 0 ENTRY_COUNT (fun p2 =>
    let% e := get_entry l2 p2 in
    if negb (is_present e) then sret tt
    else if contains (flags e) HUGE_PAGE then sfail "Huge pages not supported in cleanup"
    else
      let% _ := free_l1 (addr e) in
      let% _ := deallocate_frame (addr_frame (addr e)) in
      set_entry l2 p2 0).

Definition free_l3 (l3 : Z) : paging unit :=
  for_range 0 ENTRY_COUNT (fun p3 =>
    let% e := get_entry l3 p3 in
    if negb (is_present e) then sret tt
    else
      let% _ := free_l2 (addr e) in
      let% _ := deallocate_frame (addr_frame (addr e)) in
      set_entry l3 p3 0).

(** [lookup_phys_addr]. *)
Definition lookup_phys_addr (m : gmap Z Z) (page_table_phys va : Z) : option Z :=
  let e4 := entry m page_table_phys (p4_index va) in
  if negb (is_present e4) then None else
  let e3 := entry m (addr e4) (p3_index va) in
  if negb (is_present e3) then None else
  let e2 := entry m (addr e3) (p2_index va) in
  if negb (is_present e2) || contains (flags e2) HUGE_PAGE then None else
  let e1 := entry m (addr e2) (p1_index va) in
  if negb (is_present e1) then None else Some (addr e1).

(** [free_kernel_stack_pages]. *)
Definition free_kernel_stack_pages (page_table_phys : Z) : paging unit :=
  for_range 0 KERNEL_STACK_PAGES (fun i =>
    let% va := sub64 KERNEL_STACK_TOP (Z.of_nat (i + 1) * PAGE_SIZE) in
    let% phys := ok_or (sread (fun s => lookup_phys_addr (mem s) page_table_phys va))
                   "Kernel stack page not mapped" in
    deallocate_frame (addr_frame phys)).

(** [free_process_address_space]. *)
Definition free_process_address_space (page_table_phys : Z) (free_kernel_stack : bool) : paging unit :=
  let% _ := for_range 0 256 (fun p4 =>
    let% e := get_entry page_table_phys p4 in
    if negb (is_present e) then sret tt
    else
      let% _ := free_l3 (addr e) in
      let% _ := deallocate_frame (addr_frame (addr e)) in
      set_entry page_table_phys p4 0) in
  let% _ := (if free_kernel_stack then free_kernel_stack_pages page_table_phys else sret tt) in
  deallocate_frame (addr_frame page_table_phys).

(** The flags of a page shared by [fork]: a writable page becomes read-only
    and copy-on-write. *)
Definition cow_flags (fl : Z) : Z :=
  if contains fl WRITABLE then Z.lor (Z.land fl (not64 WRITABLE)) COPY_ON_WRITE else fl.

(** The loops of [clone_user_address_space], from the last level up. *)
Definition clone_l1 (parent_l1 child_l1 : Z) : paging unit :=
  for_range 0 ENTRY_COUNT (fun p1 =>
    let% e := get_entry parent_l1 p1 in
    if negb (is_present e) then sret tt
    else
      let parent_phys := addr e in
      let% _ := (if contains (flags e) WRITABLE
                 then set_entry parent_l1 p1 (make_entry parent_phys (cow_flags (flags e)))
                 else sret tt) in
      let% _ := set_entry child_l1 p1 (make_entry parent_phys (cow_flags (flags e))) in
      inc_frame_refcount (addr_frame parent_phys)).

Definition clone_l2 (parent_l2 child_l2 : Z) : paging unit :=
  for_range 0 ENTRY_COUNT (fun p2 =>
    let% e := get_entry parent_l2 p2 in
    if negb (is_present e) then sret tt
    else if contains (flags e) HUGE_PAGE then sfail "Huge pages not supported in fork"
    else
      let% child_l1 := next_table child_l2 p2 "Failed to allocate L1 for clone" in
      clone_l1 (addr e) child_l1).

Definition clone_l3 (parent_l3 child_l3 : Z) : paging unit :=
  for_range 0 ENTRY_COUNT (fun p3 =>
    let% e := get_entry parent_l3 p3 in
    if negb (is_present e) then sret tt
    else
      let% child_l2 := next_table child_l3 p3 "Failed to allocate L2 for clone" in
      clone_l2 (addr e) child_l2).

(** [clone_user_address_space]. *)
Definition clone_user_address_space (cr3 parent : Z) : paging Z :=
  let% child := create_user_page_table cr3 in
  let% _ := for_range 0 256 (fun p4 =>
    let% e := get_entry parent p4 in
    if negb (is_present e) then sret tt
    else
      let% child_l3 := next_table child p4 "Failed to allocate L3 for clone" in
      clone_l3 (addr e) child_l3) in
  sret child.

End Tables.
Arguments Phys : clear implicits.

(** No frame is left. *)
Definition exhausted {A} `{FrameSource A} (s : Phys A) : Prop := forall f, src_free (frames s) f = false.

(** ** The tree of tables *)

(** The table reached from [t] along a path of indices. *)
Fixpoint table_at (m : gmap Z Z) (t : Z) (path : list nat) : option Z :=
  match path with
  | [] => Some t
  | i :: rest =>
      if is_present (entry m t i) then table_at m (addr (entry m t i)) rest else None
  end.

(** The four indices of an address. *)
Definition dirs (va : Z) : list nat := [p4_index va; p3_index va; p2_index va].
Definition indices (va : Z) : list nat := dirs va ++ [p1_index va].

(** The present entry [i] of the table at a path. *)
Definition leaf (m : gmap Z Z) (root : Z) (p : list nat) (i : nat) : option Z :=
  match table_at m root p with
  | None => None
  | Some t => let e := entry m t i in if is_present e then Some e else None
  end.

(** The entry that maps an address: the abstract address space. *)
Definition pte (m : gmap Z Z) (root va : Z) : option Z := leaf m root (dirs va) (p1_index va).

(** Paths of at most three indices in the lower half. *)
Definition user_path (p : list nat) : Prop :=
  (length p <= 3)%nat /\ Forall (fun i => i < ENTRY_COUNT)%nat p
  /\ match p with [] => True | i :: _ => (i < 256)%nat end.

Definition aligned (t : Z) : Prop := t mod 4096 = 0 /\ 0 <= t.

(** An address space: its tables are distinct frames, none of them free. *)
Record wf {A} `{FrameSource A} (s : Phys A) (root : Z) : Prop := mkWf {
  wf_root : aligned root;
  wf_inj : forall p q t, user_path p -> user_path q ->
    table_at (mem s) root p = Some t -> table_at (mem s) root q = Some t -> p = q;
  wf_owned : forall p t, user_path p -> table_at (mem s) root p = Some t ->
    src_free (frames s) (addr_frame t) = false
}.

(** What an operation on one address space may write: its own tables and
    frames that were free. *)
Definition writes_within {A} `{FrameSource A} (s s' : Phys A) (root : Z) : Prop :=
  (forall t i, aligned t -> (i < ENTRY_COUNT)%nat ->
    entry (mem s') t i = entry (mem s) t i
    \/ src_free (frames s) (addr_frame t) = true
    \/ exists p, user_path p /\ table_at (mem s) root p = Some t)
  /\ forall f, src_free (frames s') f = true -> src_free (frames s) f = true.

(** The tables of [s'] are those of [s] and new ones in frames that were free. *)
Record extends {A} `{FrameSource A} (s s' : Phys A) (root : Z) : Prop := mkExt {
  ext_ok : src_ok (frames s');
  ext_wf : wf s' root;
  ext_keep : forall p t, user_path p ->
    table_at (mem s) root p = Some t -> table_at (mem s') root p = Some t;
  ext_new : forall p t, user_path p -> table_at (mem s') root p = Some t ->
    table_at (mem s) root p = Some t \/ src_free (frames s) (addr_frame t) = true;
  ext_writes : writes_within s s' root
}.

(** A fresh address space on the machine of [demo_memory]. *)
Definition demo_phys : Phys (option FrameAllocator.FrameAllocator) := mkPhys ∅ demo_memory [].

Definition demo_space : Z * Phys (option FrameAllocator.FrameAllocator) :=
  match create_user_page_table 0x2000 demo_phys with
  | Done (Ok root, s) => (root, s)
  | _ => (0, demo_phys)
  end.

(** ** Lemmas *)

Lemma addr_bounds e : aligned (addr e) /\ addr e < 2 ^ 52.
Proof.
  unfold addr, aligned. change ADDR_MASK with (Z.shiftl (Z.ones 40) 12).
  assert (Z.land e (Z.shiftl (Z.ones 40) 12) = Z.shiftl (Z.land (Z.shiftr e 12) (Z.ones 40)) 12) as ->.
  { apply Z.bits_inj'. intros n Hn. rewrite Z.land_spec, !Z.shiftl_spec, Z.land_spec by lia.
    destruct (Z.ltb_spec n 12).
    - rewrite !(Z.testbit_neg_r _ (n - 12)) by lia. now rewrite !andb_false_r.
    - rewrite Z.shiftr_spec by lia. now replace (n - 12 + 12) with n by lia. }
  rewrite Z.shiftl_mul_pow2, Z.land_ones by lia.
  pose proof (Z.mod_pos_bound (Z.shiftr e 12) (2 ^ 40) ltac:(lia)).
  change (2 ^ 12) with 4096. rewrite Z.mod_mul by lia. lia.
Qed.

Lemma aligned_frame t : aligned t -> t = frame_addr (addr_frame t).
Proof. unfold aligned, frame_addr, addr_frame. lia. Qed.

Lemma frame_addr_aligned f : aligned (frame_addr f).
Proof. unfold aligned, frame_addr. lia. Qed.

Lemma addr_frame_addr f : addr_frame (frame_addr f) = f.
Proof. unfold frame_addr, addr_frame. lia. Qed.

(** Entries of aligned tables are distinct words. *)
Lemma entry_put m t t' i j e :
  aligned t -> aligned t' -> (i < ENTRY_COUNT)%nat -> (j < ENTRY_COUNT)%nat ->
  entry (put_entry m t i e) t' j = if decide (t = t' /\ i = j) then e else entry m t' j.
Proof.
  unfold aligned, ENTRY_COUNT, entry, put_entry, word. intros Ht Ht' Hi Hj. case_decide as Hd.
  - destruct Hd as [-> ->]. now rewrite lookup_insert_eq.
  - rewrite lookup_insert_ne; [reflexivity|]. intros E. apply Hd.
    assert (t / 8 = 512 * (t / 4096) /\ t' / 8 = 512 * (t' / 4096)) as [E1 E2] by lia.
    rewrite E1, E2 in E. assert (t / 4096 = t' / 4096) by lia. lia.
Qed.

Lemma entry_zero_entries t t' j n : forall m i,
  aligned t -> aligned t' -> (i + n <= ENTRY_COUNT)%nat -> (j < ENTRY_COUNT)%nat ->
  entry (zero_entries m t i n) t' j
  = if decide (t = t' /\ (i <= j < i + n)%nat) then 0 else entry m t' j.
Proof.
  induction n as [|n IH]; intros m i Ht Ht' Hi Hj; cbn [zero_entries].
  - case_decide; [lia|reflexivity].
  - rewrite IH by (assumption || lia). rewrite entry_put by (assumption || lia).
    repeat case_decide; try reflexivity; exfalso; naive_solver lia.
Qed.

Lemma entry_zero_frame m t t' j :
  aligned t -> aligned t' -> (j < ENTRY_COUNT)%nat ->
  entry (zero_frame m t) t' j = if decide (t = t') then 0 else entry m t' j.
Proof.
  intros Ht Ht' Hj. unfold zero_frame. rewrite entry_zero_entries by (assumption || lia).
  repeat case_decide; try reflexivity; exfalso; naive_solver lia.
Qed.

(** What an entry made of a frame address and flags holds. *)
Lemma frame_addr_masked f : Z.of_nat f < 2 ^ 40 -> Z.land (frame_addr f) ADDR_MASK = frame_addr f.
Proof.
  intros Hf. unfold frame_addr. change ADDR_MASK with (Z.shiftl (Z.ones 40) 12). change 4096 with (2 ^ 12).
  rewrite <- Z.shiftl_mul_pow2 by lia. rewrite <- Z.shiftl_land, Z.land_ones, Z.mod_small by lia. reflexivity.
Qed.

Lemma make_entry_addr f fl :
  Z.of_nat f < 2 ^ 40 -> Z.land fl ADDR_MASK = 0 -> addr (make_entry (frame_addr f) fl) = frame_addr f.
Proof.
  intros Hf Hfl. unfold addr, make_entry. rewrite Z.land_lor_distr_l, Hfl, Z.lor_0_r.
  rewrite <- Z.land_assoc, Z.land_diag. now apply frame_addr_masked.
Qed.

Lemma make_entry_present a fl : is_present fl = true -> is_present (make_entry a fl) = true.
Proof.
  unfold is_present, make_entry. rewrite Z.land_lor_distr_l.
  rewrite <- Z.land_assoc. change (Z.land ADDR_MASK PRESENT) with 0. now rewrite Z.land_0_r, Z.lor_0_l.
Qed.

Lemma page_align_frame f : Z.of_nat f < 2 ^ 52 -> page_align_down (frame_addr f) = frame_addr f.
Proof.
  intros Hf. unfold page_align_down, frame_addr. change (not64 0xFFF) with (Z.shiftl (Z.ones 52) 12).
  change 4096 with (2 ^ 12). rewrite <- Z.shiftl_mul_pow2, <- Z.shiftl_land, Z.land_ones, Z.mod_small by lia.
  reflexivity.
Qed.

Lemma table_index_lt x : (Z.to_nat (Z.land x 0x1FF) < ENTRY_COUNT)%nat.
Proof. unfold ENTRY_COUNT. change 0x1FF with (Z.ones 9). rewrite Z.land_ones by lia. lia. Qed.

Lemma user_path_snoc p i : user_path (p ++ [i]) -> user_path p /\ (i < ENTRY_COUNT)%nat.
Proof.
  intros (Hl & Hf & Hu). rewrite length_app in Hl. cbn in Hl. apply Forall_app in Hf as [Hf Hi].
  split; [|now inversion Hi]. split; [lia|]. split; [assumption|]. now destruct p.
Qed.

Lemma user_path_prefix p q : p `prefix_of` q -> user_path q -> user_path p.
Proof.
  intros [r ->] (Hl & Hf & Hu). rewrite length_app in Hl. apply Forall_app in Hf as [Hf _].
  split; [lia|]. split; [assumption|]. now destruct p.
Qed.

Lemma table_at_app m p q : forall t,
  table_at m t (p ++ q) = match table_at m t p with Some t' => table_at m t' q | None => None end.
Proof.
  induction p as [|i p IH]; intros t; cbn [table_at app]; [reflexivity|].
  destruct (is_present _); [apply IH|reflexivity].
Qed.

Lemma table_at_snoc m p i t :
  table_at m t (p ++ [i]) =
  match table_at m t p with
  | Some t' => if is_present (entry m t' i) then Some (addr (entry m t' i)) else None
  | None => None
  end.
Proof. rewrite table_at_app. now destruct (table_at m t p). Qed.

(** A path depends only on the entries it goes through. *)
Lemma table_at_agree m m' q : forall root,
  (forall p i t, p ++ [i] `prefix_of` q -> table_at m root p = Some t -> entry m' t i = entry m t i) ->
  table_at m' root q = table_at m root q.
Proof.
  induction q as [|i q IH]; intros root Hq; cbn [table_at]; [reflexivity|].
  rewrite (Hq [] i root) by (reflexivity || (exists q; reflexivity)).
  destruct (is_present (entry m root i)) eqn:E; [|reflexivity].
  apply IH. intros p j t [r Hr] Ht. apply (Hq (i :: p)).
  - exists r. now rewrite Hr.
  - cbn [table_at]. now rewrite E.
Qed.

Lemma table_at_aligned m p : forall root t, aligned root -> table_at m root p = Some t -> aligned t.
Proof.
  induction p as [|i p IH]; intros root t Hr; cbn [table_at]; [now intros <-%(inj Some)|].
  destruct (is_present _); [|discriminate]. apply IH, addr_bounds.
Qed.

Lemma user_path_indices va : (p4_index va < 256)%nat -> user_path (dirs va).
Proof.
  intros H. split; [cbn; lia|]. split; [|assumption].
  repeat apply Forall_cons_2; try apply table_index_lt. constructor.
Qed.

#[local] Opaque zero_frame.

Section Growth.
Context {A : Type} `{FrameSource A}.

Lemma extends_refl (s : Phys A) root : src_ok (frames s) -> wf s root -> extends s s root.
Proof. intros Ho Hw. constructor; auto. split; auto. Qed.

Lemma extends_trans (s1 s2 s3 : Phys A) root : extends s1 s2 root -> extends s2 s3 root -> extends s1 s3 root.
Proof.
  intros [o1 w1 k1 n1 [e1 f1]] [o2 w2 k2 n2 [e2 f2]]. constructor; auto.
  - intros p t Hp Ht. destruct (n2 p t Hp Ht) as [H2|H2]; [auto|right; now apply f1].
  - split; [|auto]. intros t i Ht Hi. destruct (e2 t i Ht Hi) as [E|[E|(p & Hp & E)]].
    + rewrite E. auto.
    + right; left. now apply f1.
    + destruct (n1 p t Hp E) as [?|?]; [right; right; eauto|right; left; assumption].
Qed.

Lemma alloc_table_spec (s : Phys A) :
  src_ok (frames s) ->
  (allocate_page_table_frame s = Done (Ok None, s) /\ exhausted s)
  \/ exists f s', allocate_page_table_frame s = Done (Ok (Some f), s') /\ mem s' = mem s
     /\ src_ok (frames s') /\ src_free (frames s) f = true /\ Z.of_nat f < 2 ^ 40
     /\ forall g, src_free (frames s') g = negb (f =? g)%nat && src_free (frames s) g.
Proof.
  intros Hok. destruct (src_alloc_spec (frames s) Hok) as (r & a' & Ha & Hok' & Hr).
  unfold allocate_page_table_frame, sbind, allocate_frame. rewrite Ha. cbn [bind].
  destruct r as [f|].
  - right. destruct Hr as [Hf Hg]. eexists f, _. split; [reflexivity|]. repeat split; try assumption.
    apply (src_free_bound _ _ Hok Hf).
  - left. destruct Hr as [-> Hr]. split; [now destruct s|exact Hr].
Qed.

Lemma entry_copy_entries src dst t' j n : forall m i,
  aligned src -> aligned dst -> aligned t' -> src <> dst -> (i + n <= ENTRY_COUNT)%nat -> (j < ENTRY_COUNT)%nat ->
  entry (copy_entries m src dst i n) t' j
  = if decide (dst = t' /\ (i <= j < i + n)%nat) then entry m src j else entry m t' j.
Proof.
  induction n as [|n IH]; intros m i Hs Hd Ht Hne Hi Hj; cbn [copy_entries].
  - case_decide; [lia|reflexivity].
  - rewrite IH by (assumption || lia). rewrite !entry_put by (assumption || lia).
    repeat case_decide; try reflexivity; try (exfalso; naive_solver lia).
    destruct_and!. now subst.
Qed.

(** A new address space maps nothing in the lower half; its upper half is that
    of the active one. *)
Lemma create_table_spec (s : Phys A) cr3 :
  src_ok (frames s) -> aligned cr3 -> src_free (frames s) (addr_frame cr3) = false ->
  (create_user_page_table cr3 s = Done (Err "Failed to allocate L4 page table", s) /\ exhausted s)
  \/ exists child s', create_user_page_table cr3 s = Done (Ok child, s') /\ src_ok (frames s')
     /\ aligned child /\ src_free (frames s) (addr_frame child) = true
     /\ (forall g, src_free (frames s') g = negb (addr_frame child =? g)%nat && src_free (frames s) g)
     /\ (forall t i, aligned t -> (i < ENTRY_COUNT)%nat ->
          entry (mem s') t i = if decide (t = child)
                               then if (i <? 256)%nat then 0 else entry (mem s) cr3 i
                               else entry (mem s) t i).
Proof.
  intros Hok Hc Hnf. unfold create_user_page_table, ok_or, sbind.
  destruct (alloc_table_spec s Hok) as [[-> Hx]|(f & s1 & -> & Hm & Hok1 & Hf & Hb & Hg)]; [now left|right].
  cbn [sret zero smodify mem with_mem frames tracked]. exists (frame_addr f). eexists.
  split; [reflexivity|]. split; [assumption|]. split; [apply frame_addr_aligned|].
  rewrite addr_frame_addr. split; [assumption|]. split; [assumption|].
  intros t i Ht Hi. cbn [mem with_mem]. rewrite Hm. pose proof (frame_addr_aligned f) as Hfa.
  assert (cr3 <> frame_addr f) as Hne by (intros ->; rewrite addr_frame_addr in Hnf; congruence).
  rewrite entry_copy_entries by (assumption || unfold ENTRY_COUNT; lia).
  rewrite !entry_zero_frame by assumption. unfold ENTRY_COUNT in *.
  destruct (Nat.ltb_spec i 256); repeat case_decide; try congruence; try reflexivity; exfalso; naive_solver lia.
Qed.

(** An address space whose lower half is empty. *)
Lemma empty_wf (s : Phys A) root :
  aligned root -> src_free (frames s) (addr_frame root) = false ->
  (forall i, (i < 256)%nat -> entry (mem s) root i = 0) ->
  wf s root /\ forall p t, user_path p -> table_at (mem s) root p = Some t -> p = [] /\ t = root.
Proof.
  intros Hr Hnf H0.
  assert (forall p t, user_path p -> table_at (mem s) root p = Some t -> p = [] /\ t = root) as Hp.
  { intros [|i p] t (_ & _ & Hu); cbn [table_at]; [now intros [= ->]|]. now rewrite H0. }
  split; [|exact Hp]. constructor; [assumption| |].
  - intros p q t Hup Huq Ht1 Ht2. apply Hp in Ht1 as [-> _], Ht2 as [-> _]; auto.
  - intros p t Hup Ht. apply Hp in Ht as [_ ->]; assumption.
Qed.

(** Linking a fresh, empty table into the tree. *)
Lemma link_table_at (s : Phys A) root p t i f e :
  wf s root -> user_path (p ++ [i]) -> table_at (mem s) root p = Some t ->
  is_present (entry (mem s) t i) = false ->
  src_free (frames s) f = true -> is_present e = true -> addr e = frame_addr f ->
  let m' := put_entry (zero_frame (mem s) (frame_addr f)) t i e in
  forall q, user_path q ->
    table_at m' root q = if decide (q = p ++ [i]) then Some (frame_addr f) else table_at (mem s) root q.
Proof.
  intros [Hr Hinj Hown] Hpi Ht Hn Hf He Ha m' q Hq. destruct (user_path_snoc _ _ Hpi) as [Hp Hi].
  pose proof (table_at_aligned _ _ _ _ Hr Ht) as Hta. pose proof (frame_addr_aligned f) as Hfa.
  assert (forall x r, user_path r -> table_at (mem s) root r = Some x -> frame_addr f <> x) as Hne.
  { intros x r Hur Hx <-. apply Hown in Hx; [|assumption]. rewrite addr_frame_addr in Hx. congruence. }
  assert (forall r, user_path r -> ~ p ++ [i] `prefix_of` r -> table_at m' root r = table_at (mem s) root r) as Hout.
  { intros r Hr' Hnp. apply table_at_agree. intros p' j x Hpre Hx.
    pose proof (user_path_snoc _ _ (user_path_prefix _ _ Hpre Hr')) as [Hp' Hj].
    pose proof (table_at_aligned _ _ _ _ Hr Hx) as Hxa.
    unfold m'. rewrite entry_put, entry_zero_frame by assumption.
    rewrite (decide_False (P := frame_addr f = x)) by eauto.
    rewrite decide_False; [reflexivity|]. intros [-> ->]. apply Hnp.
    now rewrite (Hinj p p' x) by assumption. }
  assert (entry m' t i = e) as Eti.
  { unfold m'. rewrite entry_put by assumption. now rewrite decide_True. }
  destruct (decide (p ++ [i] `prefix_of` q)) as [[r ->]|Hnp].
  - rewrite table_at_app, table_at_snoc, Hout by (try assumption; intros Hx%prefix_length;
      rewrite length_app in Hx; cbn in Hx; lia).
    rewrite Ht, Eti, He, Ha. destruct r as [|j r]; cbn [table_at].
    + rewrite app_nil_r. now rewrite decide_True.
    + rewrite decide_False by (intros E%(f_equal length); rewrite !length_app in E; cbn in E; lia).
      rewrite table_at_app, table_at_snoc, Ht, Hn.
      destruct Hq as (_ & Hq & _). rewrite Forall_app, Forall_cons in Hq.
      unfold m'. rewrite entry_put, entry_zero_frame by naive_solver.
      rewrite decide_False by (intros [E _]; now apply (Hne t p)). now rewrite decide_True.
  - rewrite decide_False; [now apply Hout|]. intros ->. now apply Hnp.
Qed.

(** The leaf entries of the tree stay as they are. *)
Lemma link_leaf (s : Phys A) root p t i f e d j :
  wf s root -> user_path (p ++ [i]) -> table_at (mem s) root p = Some t ->
  is_present (entry (mem s) t i) = false ->
  src_free (frames s) f = true -> is_present e = true -> addr e = frame_addr f ->
  user_path d -> length d = 3%nat -> (j < ENTRY_COUNT)%nat ->
  leaf (put_entry (zero_frame (mem s) (frame_addr f)) t i e) root d j = leaf (mem s) root d j.
Proof.
  intros Hw Hpi Ht Hn Hf He Ha Hd Hdl Hj.
  pose proof Hw as [Hr Hinj Hown]. destruct (user_path_snoc _ _ Hpi) as [Hp Hi].
  pose proof (table_at_aligned _ _ _ _ Hr Ht) as Hta. pose proof (frame_addr_aligned f) as Hfa.
  assert (frame_addr f <> t) as Hft.
  { intros <-. apply Hown in Ht; [|assumption]. rewrite addr_frame_addr in Ht. congruence. }
  unfold leaf. erewrite link_table_at by eassumption. case_decide as Heq.
  - rewrite Heq, table_at_snoc, Ht, Hn, entry_put, entry_zero_frame by assumption.
    rewrite decide_False by (intros [E _]; congruence). now rewrite decide_True.
  - destruct (table_at (mem s) root d) as [x|] eqn:Ex; [|reflexivity].
    pose proof (table_at_aligned _ _ _ _ Hr Ex) as Hxa.
    rewrite entry_put, entry_zero_frame by assumption.
    rewrite decide_False.
    2:{ intros [-> _]. pose proof (Hinj _ _ _ Hp Hd Ht Ex) as ->. destruct Hpi as [Hl _]. rewrite length_app in Hl. cbn in Hl. lia. }
    rewrite decide_False; [reflexivity|]. intros <-. apply Hown in Ex; [|assumption].
    rewrite addr_frame_addr in Ex. congruence.
Qed.

(** ... and the address space after it is an extension. *)
Lemma link_extends (s s' : Phys A) root p t i f e :
  wf s root -> user_path (p ++ [i]) -> table_at (mem s) root p = Some t ->
  is_present (entry (mem s) t i) = false ->
  src_free (frames s) f = true -> is_present e = true -> addr e = frame_addr f ->
  src_ok (frames s') ->
  (forall g, src_free (frames s') g = negb (f =? g)%nat && src_free (frames s) g) ->
  mem s' = put_entry (zero_frame (mem s) (frame_addr f)) t i e ->
  extends s s' root.
Proof.
  intros Hw Hpi Ht Hn Hf He Ha Hok' Hfree Hm.
  pose proof (link_table_at s root p t i f e Hw Hpi Ht Hn Hf He Ha) as Hat. rewrite <- Hm in Hat.
  pose proof Hw as [Hr Hinj Hown].
  assert (forall q x, user_path q -> table_at (mem s') root q = Some x ->
    q = p ++ [i] /\ x = frame_addr f
    \/ q <> p ++ [i] /\ table_at (mem s) root q = Some x /\ x <> frame_addr f) as Hcase.
  { intros q x Hq Hx. rewrite Hat in Hx by assumption. case_decide; [left; split; congruence|right].
    repeat split; try assumption. intros ->. apply Hown in Hx; [|assumption].
    rewrite addr_frame_addr in Hx. congruence. }
  constructor.
  - assumption.
  - constructor; [assumption| |].
    + intros q r x Hq Hr' Hx Hy. destruct (Hcase q x Hq Hx) as [[-> ->]|(Hqn & Hx' & Hxn)],
        (Hcase r _ Hr' Hy) as [[-> Hy1]|(Hrn & Hy' & Hyn)]; try congruence. eapply Hinj; eassumption.
    + intros q x Hq Hx. rewrite Hfree. destruct (Hcase q x Hq Hx) as [[-> ->]|(Hqn & Hx' & Hxn)].
      * rewrite addr_frame_addr. now rewrite Nat.eqb_refl.
      * rewrite (Hown q x) by assumption. now rewrite andb_false_r.
  - intros q x Hq Hx. rewrite Hat by assumption. case_decide as Heq; [|assumption].
    rewrite Heq, table_at_snoc, Ht, Hn in Hx. discriminate.
  - intros q x Hq Hx. destruct (Hcase q x Hq Hx) as [[-> ->]|(Hqn & Hx' & Hxn)]; [|now left].
    right. now rewrite addr_frame_addr.
  - split.
    + intros x j Hxa Hj. destruct (user_path_snoc _ _ Hpi) as [Hp Hi]. rewrite Hm.
      pose proof (table_at_aligned _ _ _ _ Hr Ht) as Hta. pose proof (frame_addr_aligned f) as Hfa.
      rewrite entry_put, entry_zero_frame by assumption.
      case_decide as H1; [destruct H1 as [<- _]; right; right; eauto|].
      case_decide as H2; [subst x; right; left; now rewrite addr_frame_addr|now left].
    + intros g Hg. rewrite Hfree in Hg. now apply andb_prop in Hg.
Qed.

(** "Get or create": a step of [map_page]. *)
Lemma next_table_spec (s : Phys A) root p t i msg :
  src_ok (frames s) -> wf s root -> user_path (p ++ [i]) -> table_at (mem s) root p = Some t ->
  (next_table t i msg s = Done (Err msg, s) /\ exhausted s)
  \/ exists t' s', next_table t i msg s = Done (Ok t', s') /\ extends s s' root
     /\ table_at (mem s') root (p ++ [i]) = Some t'
     /\ (forall q x, user_path q -> table_at (mem s') root q = Some x ->
          q = p ++ [i] \/ table_at (mem s) root q = Some x)
     /\ (forall x j, aligned x -> (j < ENTRY_COUNT)%nat ->
          entry (mem s') x j = entry (mem s) x j \/ src_free (frames s) (addr_frame x) = true
          \/ x = t /\ j = i)
     /\ forall d j, user_path d -> length d = 3%nat -> (j < ENTRY_COUNT)%nat ->
        leaf (mem s') root d j = leaf (mem s) root d j.
Proof.
  intros Hok Hw Hpi Ht. unfold next_table, sbind, get_entry, sread.
  destruct (is_present (entry (mem s) t i)) eqn:Hp; cbn [sret].
  { right. eexists _, s. split; [reflexivity|]. split; [now apply extends_refl|].
    rewrite table_at_snoc, Ht, Hp. auto. }
  unfold ok_or, sbind. destruct (alloc_table_spec s Hok) as [[-> Hx]|(f & s1 & -> & Hm & Hok1 & Hf & Hb & Hg)];
    [now left|right]. cbn [sret zero set_entry smodify mem with_mem frames tracked].
  set (e := make_entry (frame_addr f) TABLE_FLAGS).
  assert (is_present e = true) as He by (apply make_entry_present; reflexivity).
  assert (addr e = frame_addr f) as Ha by (apply make_entry_addr; [assumption|reflexivity]).
  rewrite Hm. set (m' := put_entry _ t i e). set (s' := mkPhys m' (frames s1) (tracked s1)).
  assert (mem s' = m') as Hm' by reflexivity.
  exists (addr (entry m' t i)), s'. split; [reflexivity|]. split; [eapply link_extends; eassumption|].
  assert (entry m' t i = e) as ->.
  { unfold m'. destruct (user_path_snoc _ _ Hpi).
    pose proof (table_at_aligned _ _ _ _ (wf_root _ _ Hw) Ht) as Hta.
    rewrite entry_put by assumption. now rewrite decide_True. }
  rewrite Hm'. unfold m'. split; [|split; [|split; [|intros d j; eapply link_leaf; eassumption]]].
  - erewrite link_table_at by eassumption. rewrite decide_True by reflexivity. now rewrite Ha.
  - intros q x Hq. erewrite link_table_at by eassumption. case_decide; auto.
  - intros x j Hx Hj. destruct (user_path_snoc _ _ Hpi). pose proof (frame_addr_aligned f) as Hfa.
    pose proof (table_at_aligned _ _ _ _ (wf_root _ _ Hw) Ht) as Hta.
    rewrite entry_put, entry_zero_frame by assumption. case_decide as Hd1; [naive_solver|].
    case_decide as Hd2; [|now left]. right; left. rewrite <- Hd2. now rewrite addr_frame_addr.
Qed.

(** Writing a leaf entry. *)
Lemma leaf_put (s s' : Phys A) root d i t e :
  src_ok (frames s) -> wf s root -> user_path d -> length d = 3%nat -> (i < ENTRY_COUNT)%nat ->
  table_at (mem s) root d = Some t ->
  frames s' = frames s -> mem s' = put_entry (mem s) t i e ->
  extends s s' root
  /\ (forall q, user_path q -> table_at (mem s') root q = table_at (mem s) root q)
  /\ forall d' i', user_path d' -> length d' = 3%nat -> (i' < ENTRY_COUNT)%nat ->
     leaf (mem s') root d' i' = if decide (d' ++ [i'] = d ++ [i])
                               then if is_present e then Some e else None
                               else leaf (mem s) root d' i'.
Proof.
  intros Hok Hw Hd Hdl Hi Ht Hfr Hm. pose proof Hw as [Hr Hinj Hown]. pose proof (table_at_aligned _ _ _ _ Hr Ht) as Hta.
  assert (forall q, user_path q -> table_at (mem s') root q = table_at (mem s) root q) as Hat.
  { intros q Hq. apply table_at_agree. intros p j x Hpre Hx.
    pose proof (user_path_prefix _ _ Hpre Hq) as Hpj. destruct (user_path_snoc _ _ Hpj) as [Hp Hj].
    pose proof (table_at_aligned _ _ _ _ Hr Hx) as Hxa.
    rewrite Hm, entry_put by (assumption || apply table_index_lt).
    rewrite decide_False; [reflexivity|]. intros [-> _].
    pose proof (Hinj _ _ _ Hp Hd Hx Ht) as ->. destruct Hpj as [Hl _]. rewrite length_app in Hl. cbn in Hl. lia. }
  split; [|split; [exact Hat|]].
  - constructor; try (rewrite Hfr; assumption).
    + constructor; [assumption| |].
      * intros q r x Hq Hr' Hx Hy. rewrite Hat in Hx, Hy by assumption. eauto.
      * intros q x Hq Hx. rewrite Hat in Hx by assumption. rewrite Hfr. eauto.
    + intros q x Hq Hx. now rewrite Hat.
    + intros q x Hq Hx. left. now rewrite <- Hat.
    + split; [|now rewrite Hfr]. intros x j Hxa Hj. rewrite Hm, entry_put by (assumption || apply table_index_lt).
      case_decide as Heq; [|now left]. destruct Heq as [<- _]. right; right. eauto.
  - intros d' i' Hd' Hdl' Hi'. unfold leaf. rewrite Hat by assumption. case_decide as Heq.
    + apply app_inj_tail in Heq as [-> ->]. rewrite Ht, Hm.
      rewrite entry_put by assumption. now rewrite decide_True.
    + destruct (table_at (mem s) root d') as [x|] eqn:Ex; [|reflexivity].
      pose proof (table_at_aligned _ _ _ _ Hr Ex) as Hxa.
      rewrite Hm, entry_put by assumption.
      rewrite decide_False; [reflexivity|]. intros [-> ->]. apply Heq.
      now rewrite (Hinj _ _ _ Hd Hd' Ht Ex).
Qed.

(** [map_page] on every branch. *)
Lemma map_page_spec (s : Phys A) root va pa fl :
  src_ok (frames s) -> wf s root -> (p4_index va < 256)%nat -> is_present fl = true ->
  match map_page root va pa fl s with
  | Done (Ok _, s') => extends s s' root
      /\ (forall e, pte (mem s) root va = Some e -> addr e = page_align_down pa)
      /\ forall va', (p4_index va' < 256)%nat ->
         pte (mem s') root va' = if decide (indices va' = indices va) then Some (make_entry pa fl)
                                else pte (mem s) root va'
  | Done (Err _, s') => extends s s' root /\ exhausted s'
      /\ forall va', (p4_index va' < 256)%nat -> pte (mem s') root va' = pte (mem s) root va'
  | Panicked => exists e, pte (mem s) root va = Some e /\ addr e <> page_align_down pa
  end.
Proof.
  intros Hok Hw Hva Hfl. pose proof (user_path_indices va Hva) as Hd.
  unfold map_page. unfold sbind at 1.
  destruct (next_table_spec s root [] root (p4_index va) "Failed to allocate L3 page table" Hok Hw)
    as [[-> Hx]|(l3 & s1 & -> & X1 & T1 & _ & _ & E1)]; [|reflexivity| |].
  { exact (user_path_prefix [p4_index va] _ ltac:(now exists [p3_index va; p2_index va]) Hd). }
  { split; [now apply extends_refl|]. split; [exact Hx|auto]. }
  assert (forall va', (p4_index va' < 256)%nat -> pte (mem s1) root va' = pte (mem s) root va') as P1
    by (intros va' Hva'; apply E1; [now apply user_path_indices|reflexivity|apply table_index_lt]).
  unfold sbind at 1. pose proof (ext_ok _ _ _ X1) as O1. pose proof (ext_wf _ _ _ X1) as W1.
  destruct (next_table_spec s1 root [p4_index va] l3 (p3_index va) "Failed to allocate L2 page table" O1 W1)
    as [[-> Hx]|(l2 & s2 & -> & X2 & T2 & _ & _ & E2)]; [|assumption| |].
  { exact (user_path_prefix [p4_index va; p3_index va] _ ltac:(now exists [p2_index va]) Hd). }
  { split; [auto|]. split; auto. }
  assert (forall va', (p4_index va' < 256)%nat -> pte (mem s2) root va' = pte (mem s) root va') as P2
    by (intros va' Hva'; rewrite <- P1 by assumption; apply E2; [now apply user_path_indices|reflexivity|apply table_index_lt]).
  unfold sbind at 1. pose proof (ext_ok _ _ _ X2) as O2. pose proof (ext_wf _ _ _ X2) as W2.
  pose proof (extends_trans _ _ _ _ X1 X2) as X12.
  destruct (next_table_spec s2 root [p4_index va; p3_index va] l2 (p2_index va)
              "Failed to allocate L1 page table" O2 W2)
    as [[-> Hx]|(l1 & s3 & -> & X3 & T3 & _ & _ & E3)]; [exact Hd|assumption| |].
  { split; [assumption|]. split; assumption. }
  pose proof (ext_ok _ _ _ X3) as O3. pose proof (ext_wf _ _ _ X3) as W3.
  pose proof (extends_trans _ _ _ _ X12 X3) as X13.
  assert (forall va', (p4_index va' < 256)%nat -> pte (mem s3) root va' = pte (mem s) root va') as Hsame
    by (intros va' Hva'; rewrite <- P2 by assumption; apply E3; [now apply user_path_indices|reflexivity|apply table_index_lt]).
  pose proof (Hsame va Hva) as Hold. unfold pte at 1, leaf at 1 in Hold.
  change ([p4_index va; p3_index va] ++ [p2_index va]) with (dirs va) in T3. rewrite T3 in Hold.
  unfold sbind, get_entry, sread. set (old := entry (mem s3) l1 (p1_index va)) in *.
  assert (forall s4, frames s4 = frames s3 ->
    mem s4 = put_entry (mem s3) l1 (p1_index va) (make_entry pa fl) ->
    extends s s4 root /\ forall va', (p4_index va' < 256)%nat ->
      pte (mem s4) root va' = if decide (indices va' = indices va) then Some (make_entry pa fl)
                              else pte (mem s) root va') as Hput.
  { intros s4 Hf4 Hm4. destruct (leaf_put s3 s4 root (dirs va) (p1_index va) l1 _ O3 W3 Hd eq_refl (table_index_lt _) T3 Hf4 Hm4)
      as (X4 & _ & P4).
    split; [eapply extends_trans; eassumption|]. intros va' Hva'. unfold pte.
    rewrite P4 by (try apply table_index_lt; try reflexivity; now apply user_path_indices).
    fold (indices va') (indices va) (pte (mem s3) root va'). now rewrite Hsame, make_entry_present. }
  destruct (is_present old) eqn:Hp; [destruct (Z.eqb_spec (addr old) (page_align_down pa)) as [Ha|Ha]|];
    unfold set_entry, smodify, spanic.
  - destruct (Hput (with_mem s3 (put_entry (mem s3) l1 (p1_index va) (make_entry pa fl))) eq_refl eq_refl).
    split; [assumption|]. split; [intros e He; congruence|assumption].
  - exists old. now split.
  - destruct (Hput (with_mem s3 (put_entry (mem s3) l1 (p1_index va) (make_entry pa fl))) eq_refl eq_refl).
    split; [assumption|]. split; [intros e He; congruence|assumption].
Qed.

End Growth.

(** The indices of a user address are its page number. *)
Lemma user_indices va : 0 <= va < USER_SPACE_MAX -> (p4_index va < 256)%nat.
Proof.
  unfold USER_SPACE_MAX, p4_index. intros Hva. change 0x1FF with (Z.ones 9).
  rewrite Z.land_ones, Z.shiftr_div_pow2 by lia.
  assert (0 <= va / 2 ^ 39 < 256) by (split; [apply Z.div_pos|apply Z.div_lt_upper_bound]; lia).
  rewrite Z.mod_small by lia. lia.
Qed.

Lemma page_digits va : 0 <= va < USER_SPACE_MAX ->
  va / 4096 = ((Z.of_nat (p4_index va) * 512 + Z.of_nat (p3_index va)) * 512
               + Z.of_nat (p2_index va)) * 512 + Z.of_nat (p1_index va).
Proof.
  unfold USER_SPACE_MAX, p4_index, p3_index, p2_index, p1_index. intros Hva. change 0x1FF with (Z.ones 9).
  rewrite !Z.land_ones, !Z.shiftr_div_pow2, !Z2Nat.id by (try apply Z.mod_pos_bound; lia).
  change (2 ^ 39) with (4096 * 512 * 512 * 512). change (2 ^ 30) with (4096 * 512 * 512).
  change (2 ^ 21) with (4096 * 512). change (2 ^ 12) with 4096. change (2 ^ 9) with 512.
  rewrite <- !Z.div_div by lia. set (q := va / 4096). assert (0 <= q < 2 ^ 35) by (subst q; lia). clearbody q. lia.
Qed.

Lemma indices_page va va' :
  0 <= va < USER_SPACE_MAX -> 0 <= va' < USER_SPACE_MAX ->
  indices va' = indices va <-> va' / 4096 = va / 4096.
Proof.
  intros H H'. rewrite (page_digits va), (page_digits va') by assumption.
  pose proof (table_index_lt (Z.shiftr va 39)). pose proof (table_index_lt (Z.shiftr va' 39)).
  pose proof (table_index_lt (Z.shiftr va 30)). pose proof (table_index_lt (Z.shiftr va' 30)).
  pose proof (table_index_lt (Z.shiftr va 21)). pose proof (table_index_lt (Z.shiftr va' 21)).
  pose proof (table_index_lt (Z.shiftr va 12)). pose proof (table_index_lt (Z.shiftr va' 12)).
  unfold indices, dirs. unfold ENTRY_COUNT in *. cbn [app]. split.
  - intros [= E4 E3 E2 E1]. now rewrite E4, E3, E2, E1.
  - intros E. fold (p4_index va) (p3_index va) (p2_index va) (p1_index va)
      (p4_index va') (p3_index va') (p2_index va') (p1_index va') in *.
    assert (p4_index va' = p4_index va) by lia. assert (p3_index va' = p3_index va) by lia.
    assert (p2_index va' = p2_index va) by lia. assert (p1_index va' = p1_index va) by lia. congruence.
Qed.

(** [walk_page_table] and [lookup_phys_addr] read the abstract address space. *)
Lemma walk_pte m root va :
  walk m root va = match table_at m root (dirs va) with
                   | Some t => if is_present (entry m t (p1_index va)) then Some (t, p1_index va) else None
                   | None => None
                   end.
Proof. unfold walk, dirs. cbn [table_at]. repeat (destruct (is_present _); cbn [negb]; [|reflexivity]). reflexivity. Qed.

(** An address space whose tables are untouched. *)
Lemma same_tables m m' root :
  (forall p t i, user_path p -> table_at m root p = Some t -> (i < ENTRY_COUNT)%nat ->
     entry m' t i = entry m t i) ->
  (forall p, user_path p -> table_at m' root p = table_at m root p)
  /\ (forall p i, user_path p -> (i < ENTRY_COUNT)%nat -> leaf m' root p i = leaf m root p i).
Proof.
  intros Hs.
  assert (forall p, user_path p -> table_at m' root p = table_at m root p) as Ht.
  { intros q Hq. apply table_at_agree. intros p i t Hpre Ht.
    destruct (user_path_snoc _ _ (user_path_prefix _ _ Hpre Hq)). eauto. }
  split; [exact Ht|]. intros p i Hp Hi. unfold leaf. rewrite Ht by assumption.
  destruct (table_at m root p) eqn:E; [|reflexivity]. now rewrite (Hs p).
Qed.

(** Addresses of one page share its entry. *)
Lemma pte_page m root va va' : 0 <= va < USER_SPACE_MAX -> 0 <= va' < USER_SPACE_MAX ->
  va' / 4096 = va / 4096 -> dirs va' = dirs va /\ p1_index va' = p1_index va /\ pte m root va' = pte m root va.
Proof.
  intros H H' E. apply (indices_page va va' H H') in E. unfold indices in E.
  apply app_inj_tail in E as [Ed E1]. unfold pte. now rewrite Ed, E1.
Qed.

(** A mapped page cannot be mapped to another frame, wherever it is. *)
Lemma next_table_present {A} `{FrameSource A} (s : Phys A) t i msg :
  is_present (entry (mem s) t i) = true -> next_table t i msg s = Done (Ok (addr (entry (mem s) t i)), s).
Proof. intros Hp. unfold next_table, sbind, get_entry, sread. rewrite Hp. reflexivity. Qed.

Lemma map_page_mapped {A} `{FrameSource A} (s : Phys A) root va pa fl t :
  table_at (mem s) root (dirs va) = Some t -> is_present (entry (mem s) t (p1_index va)) = true ->
  addr (entry (mem s) t (p1_index va)) <> page_align_down pa ->
  map_page root va pa fl s = Panicked.
Proof.
  unfold dirs. cbn [table_at]. intros Ht Hp Hne. unfold map_page.
  destruct (is_present (entry (mem s) root (p4_index va))) eqn:E4; [|discriminate].
  unfold sbind at 1. rewrite next_table_present by assumption. set (l3 := addr _) in *.
  destruct (is_present (entry (mem s) l3 (p3_index va))) eqn:E3; [|discriminate].
  unfold sbind at 1. rewrite next_table_present by assumption. set (l2 := addr (entry _ l3 _)) in *.
  destruct (is_present (entry (mem s) l2 (p2_index va))) eqn:E2; [|discriminate].
  injection Ht as <-.
  unfold sbind at 1. rewrite next_table_present by assumption.
  unfold sbind, get_entry, sread. rewrite Hp. now apply Z.eqb_neq in Hne as ->.
Qed.

(** [unmap_page] on every branch. *)
Lemma unmap_page_spec {A} `{FrameSource A} (s : Phys A) root va :
  src_ok (frames s) -> wf s root -> (p4_index va < 256)%nat ->
  match unmap_page root va s with
  | Done (Ok a, s') => extends s s' root /\ addr <$> pte (mem s) root va = Some a
      /\ forall va', (p4_index va' < 256)%nat ->
         pte (mem s') root va' = if decide (indices va' = indices va) then None else pte (mem s) root va'
  | Done (Err _, s') => s' = s /\ pte (mem s) root va = None
  | Panicked => False
  end.
Proof.
  intros Hok Hw Hva. unfold unmap_page, sbind, get_entry, sread, sfail, sret, set_entry, smodify.
  unfold pte, leaf. assert (table_at (mem s) root (dirs va) = table_at (mem s) root (dirs va)) as Ht by reflexivity.
  unfold dirs in Ht at 1. cbn [table_at] in Ht.
  destruct (is_present (entry (mem s) root _)); cbn [negb]; [|now rewrite <- Ht].
  destruct (is_present (entry (mem s) (addr _) (p3_index va))); cbn [negb]; [|now rewrite <- Ht].
  destruct (is_present (entry (mem s) (addr _) (p2_index va))); cbn [negb]; [|now rewrite <- Ht].
  rewrite <- Ht. destruct (is_present (entry (mem s) (addr _) (p1_index va))) eqn:Hp; cbn [negb]; [|easy].
  symmetry in Ht.
  match goal with |- extends s ?s' root /\ _ =>
    destruct (leaf_put s s' root (dirs va) (p1_index va) _ 0 Hok Hw (user_path_indices va Hva) eq_refl
      (table_index_lt _) Ht eq_refl eq_refl) as (X & _ & E) end.
  split; [exact X|]. split; [reflexivity|]. intros va' Hva'.
  apply E; [now apply user_path_indices|reflexivity|apply table_index_lt].
Qed.

(** C8: mapping a page. For every address space of distinct tables and every
    user address, [map_page] panics if and only if the page is already mapped to
    another frame. Otherwise it either maps exactly the page of the address,
    with an entry that is the address of the frame and the flags, all 64 bits,
    and leaves every other page as it was; or fails, with no free frame left,
    and leaves every page as it was. It writes to tables of this address space
    and to free frames only, and the tables stay distinct. *)
Theorem map_page_correct {A} `{FrameSource A} (s : Phys A) root va f fl :
  src_ok (frames s) -> wf s root -> 0 <= va < USER_SPACE_MAX -> Z.of_nat f < 2 ^ 40 -> is_present fl = true ->
  (map_page root va (frame_addr f) fl s = Panicked <-> exists e, pte (mem s) root va = Some e /\ addr e <> frame_addr f)
  /\ match map_page root va (frame_addr f) fl s with
  | Done (Ok _, s') => wf s' root /\ writes_within s s' root
      /\ pte (mem s') root va = Some (Z.lor (frame_addr f) fl)
      /\ forall va', 0 <= va' < USER_SPACE_MAX -> va' / 4096 <> va / 4096 ->
         pte (mem s') root va' = pte (mem s) root va'
  | Done (Err _, s') => wf s' root /\ writes_within s s' root /\ exhausted s'
      /\ forall va', 0 <= va' < USER_SPACE_MAX -> pte (mem s') root va' = pte (mem s) root va'
  | Panicked => True
  end.
Proof.
  intros Hok Hw Hva Hf Hfl. pose proof (map_page_spec s root va (frame_addr f) fl Hok Hw) as Hs.
  specialize (Hs (user_indices _ Hva) Hfl). split.
  { split; [intros Hp; rewrite Hp, page_align_frame in Hs by lia; exact Hs|].
    intros (e & He & Hne). unfold pte, leaf in He. destruct (table_at _ _ _) as [t|] eqn:Ht; [|discriminate].
    destruct (is_present _) eqn:Hp in He; [|discriminate]. injection He as <-.
    apply (map_page_mapped s root va _ fl t Ht Hp). now rewrite page_align_frame by lia. }
  destruct (map_page _ _ _ _ s) as [[[[]|msg] s']|]; [| |exact I].
  - destruct Hs as (X & _ & P). split; [apply X|]. split; [apply X|]. split.
    + rewrite P by now apply user_indices. rewrite decide_True by reflexivity. unfold make_entry. now rewrite frame_addr_masked.
    + intros va' Hva' Hne. rewrite P by now apply user_indices.
      rewrite decide_False; [reflexivity|]. now rewrite indices_page.
  - destruct Hs as (X & Hx & P). split; [apply X|]. split; [apply X|]. split; [exact Hx|]. intros va' Hva'. apply P, user_indices, Hva'.
Qed.

(** A table with nothing in its lower half. *)
Definition empty_half (m : gmap Z Z) (root : Z) : bool :=
  forallb (fun i => entry m root i =? 0) (seq 0 256).

Lemma empty_half_wf {A} `{FrameSource A} (s : Phys A) root :
  aligned root -> src_free (frames s) (addr_frame root) = false -> empty_half (mem s) root = true ->
  wf s root /\ forall p t, user_path p -> table_at (mem s) root p = Some t -> p = [] /\ t = root.
Proof.
  intros Ha Hf He. apply empty_wf; try assumption. intros i Hi. unfold empty_half in He.
  rewrite forallb_forall in He. apply Z.eqb_eq, He, in_seq. lia.
Qed.

Lemma empty_half_pte m root va : empty_half m root = true -> 0 <= va < USER_SPACE_MAX -> pte m root va = None.
Proof.
  intros He Hva%user_indices. unfold empty_half in He. rewrite forallb_forall in He.
  unfold pte, leaf, dirs. cbn [table_at]. rewrite (proj1 (Z.eqb_eq _ _) (He (p4_index va) ltac:(apply in_seq; lia))).
  reflexivity.
Qed.

Lemma demo_space_ok : src_ok (frames (snd demo_space)) /\ wf (snd demo_space) (fst demo_space).
Proof.
  unfold demo_space. destruct (create_table_spec demo_phys 0x2000) as [[E _]|(root & s & -> & Hok & Hr & Hf & Hg & He)].
  - exact demo_memory_ok.
  - unfold aligned. lia.
  - vm_compute. reflexivity.
  - assert (succeeds (create_user_page_table 0x2000 demo_phys) = true) as Hs by (vm_compute; reflexivity).
    rewrite E in Hs. discriminate.
  - cbn [fst snd]. split; [exact Hok|]. apply empty_wf; [exact Hr| |].
    + rewrite Hg. now rewrite Nat.eqb_refl.
    + intros i Hi. rewrite He by (assumption || (unfold ENTRY_COUNT; lia)).
      rewrite decide_True by reflexivity. now replace (i <? 256)%nat with true by lia.
Qed.

Lemma map_page_correct_witness :
  exists s', map_page (fst demo_space) 0x400000 (frame_addr 100) TABLE_FLAGS (snd demo_space) = Done (Ok tt, s')
    /\ wf s' (fst demo_space)
    /\ pte (mem s') (fst demo_space) 0x400000 = Some (Z.lor (frame_addr 100) TABLE_FLAGS).
Proof.
  destruct demo_space_ok as [Hok Hw].
  pose proof (map_page_correct (snd demo_space) (fst demo_space) 0x400000 100 TABLE_FLAGS Hok Hw
    ltac:(unfold USER_SPACE_MAX; lia) ltac:(lia) eq_refl) as [_ H].
  assert (succeeds (map_page (fst demo_space) 0x400000 (frame_addr 100) TABLE_FLAGS (snd demo_space)) = true)
    as Hs by (vm_compute; reflexivity).
  destruct (map_page _ _ _ _ _) as [[[[]|msg] s']|]; [|discriminate..].
  exists s'. split; [reflexivity|]. destruct H as (W & _ & He & _). auto.
Defined.

(** Unmapping a page. For every address space of distinct tables and every
    user address, [unmap_page] of a mapped page returns the frame it was mapped
    to, makes exactly that page unmapped and leaves every other page as it was;
    of a page that is not mapped it fails and changes nothing; it never panics. *)
Theorem unmap_page_correct {A} `{FrameSource A} (s : Phys A) root va :
  src_ok (frames s) -> wf s root -> 0 <= va < USER_SPACE_MAX ->
  match unmap_page root va s with
  | Done (Ok a, s') => wf s' root /\ writes_within s s' root
      /\ addr <$> pte (mem s) root va = Some a /\ pte (mem s') root va = None
      /\ forall va', 0 <= va' < USER_SPACE_MAX -> va' / 4096 <> va / 4096 ->
         pte (mem s') root va' = pte (mem s) root va'
  | Done (Err _, s') => s' = s /\ pte (mem s) root va = None
  | Panicked => False
  end.
Proof.
  intros Hok Hw Hva. pose proof (unmap_page_spec s root va Hok Hw (user_indices _ Hva)) as Hs.
  destruct (unmap_page _ _ s) as [[[a|msg] s']|]; [|assumption..].
  destruct Hs as (X & Ha & P). split; [apply X|]. split; [apply X|]. split; [assumption|]. split.
  - rewrite P by now apply user_indices. now rewrite decide_True.
  - intros va' Hva' Hne. rewrite P by now apply user_indices.
    rewrite decide_False; [reflexivity|]. now rewrite indices_page.
Qed.

Lemma unmap_page_correct_witness :
  exists m, unmap_page (fst demo_space) 0x400000 (snd demo_space) = Done (Err m, snd demo_space)
    /\ pte (mem (snd demo_space)) (fst demo_space) 0x400000 = None.
Proof.
  destruct demo_space_ok as [Hok Hw].
  pose proof (unmap_page_correct (snd demo_space) (fst demo_space) 0x400000 Hok Hw
    ltac:(unfold USER_SPACE_MAX; lia)) as H.
  assert (succeeds (unmap_page (fst demo_space) 0x400000 (snd demo_space)) = false) as Hs
    by (vm_compute; reflexivity).
  destruct (unmap_page _ _ _) as [[[a|msg] s']|].
  - discriminate.
  - destruct H as [-> H]. eauto.
  - destruct H.
Defined.

End Paging.
