(* ===== verification/SelfCheck.v ===== *)
(** * The boot self check of the page tables (src/kernel/src/selfcheck.rs)

    [check_segment_mapping_idempotency]: the check that a page may be mapped
    again to its frame, as overlapping segments do.  It can fail only for want
    of memory. *)

From S2P Require Import Prelude FrameAlloc Memory Paging.
Import Memory Paging.

Module SelfCheck.

Section Check.
Context {A : Type} `{FrameSource A}.

(** A step of the check; [return false] is an error. *)
Notation check T := (stm (Phys A) unit T).

(** [match .. { Ok(v) => v, Err(e) => { ..; return false; } }] *)
Definition or_fail {T} (m : stm (Phys A) string T) : check T := fun s =>
  match m s with
  | Done (Ok v, s') => Done (Ok v, s')
  | Done (Err _, s') => Done (Err tt, s')
  | Panicked => Panicked
  end.

Definition some_or_fail {T} (m : stm (Phys A) string (option T)) : check T :=
  let% r := or_fail m in match r with Some v => sret v | None => sfail tt end.

(** [check_segment_mapping_idempotency]; [cr3] is the active table. *)
Definition check_segment_mapping_idempotency (cr3 : Z) : check unit :=
  let% page_table_phys := or_fail (create_user_page_table cr3) in
  let% frame := some_or_fail allocate_frame in
  let phys_addr := frame_addr frame in
  let virt_addr := 0x400000 in
  let flags := Z.lor (Z.lor PRESENT WRITABLE) USER_ACCESSIBLE in
  let% _ := or_fail (map_page page_table_phys virt_addr phys_addr flags) in
  let% _ := or_fail (map_page page_table_phys virt_addr phys_addr flags) in
  let new_flags := Z.lor PRESENT USER_ACCESSIBLE in
  let% _ := or_fail (map_page page_table_phys virt_addr phys_addr new_flags) in
  let page2_virt := 0x401000 in
  let% frame2 := some_or_fail allocate_frame in
  let phys2 := frame_addr frame2 in
  let% _ := or_fail (map_page page_table_phys page2_virt phys2 flags) in
  or_fail (map_page page_table_phys page2_virt phys2 flags).

(** ** Lemmas *)

(** The address space under test: well formed, with the pages [l] mapped to
    these frames and no other user page. *)
Definition testing (root : Z) (l : list (Z * nat)) (s : Phys A) : Prop :=
  src_ok (frames s) /\ wf s root
  /\ (forall va f, (va, f) ∈ l -> exists e, pte (mem s) root va = Some e /\ addr e = frame_addr f)
  /\ forall va, 0 <= va < USER_SPACE_MAX -> (forall x, x ∈ l -> x.1 / 4096 <> va / 4096) -> pte (mem s) root va = None.

Lemma testing_allocate root l (s : Phys A) : testing root l s ->
  match some_or_fail allocate_frame s with
  | Done (Ok f, s') => testing root l s' /\ Z.of_nat f < 2 ^ 40
  | Done (Err _, s') => exhausted s'
  | Panicked => False
  end.
Proof.
  intros (Hok & Hw & Hl & Hn). unfold some_or_fail, sbind, or_fail, allocate_frame.
  destruct (src_alloc_spec (frames s) Hok) as (r & a' & -> & Hok' & Hr). cbn [bind]. destruct r as [f|]; cbn.
  - destruct Hr as [Hf Hg]. split; [|apply (src_free_bound _ _ Hok Hf)]. split; [exact Hok'|]. split; [|split; assumption].
    destruct Hw as [W1 W2 W3]. constructor; [assumption..|]. intros p t Hp Ht. cbn. rewrite Hg. rewrite (W3 p t Hp Ht). apply andb_false_r.
  - destruct Hr as [-> Hr]. exact Hr.
Qed.

Lemma testing_map root l (s : Phys A) va f fl :
  testing root l s -> 0 <= va < USER_SPACE_MAX -> Z.of_nat f < 2 ^ 40 -> is_present fl = true -> Z.land fl ADDR_MASK = 0 ->
  (forall x, x ∈ l -> 0 <= x.1 < USER_SPACE_MAX) ->
  (va, f) ∈ l \/ (forall x, x ∈ l -> x.1 / 4096 <> va / 4096) ->
  (forall x, x ∈ l -> x = (va, f) \/ x.1 / 4096 <> va / 4096) ->
  match or_fail (map_page root va (frame_addr f) fl) s with
  | Done (Ok _, s') => testing root ((va, f) :: l) s'
  | Done (Err _, s') => exhausted s'
  | Panicked => False
  end.
Proof.
  intros (Hok & Hw & Hl & Hn) Hva Hf Hp Hm Hlu Hin Hsep. pose proof (map_page_spec s root va (frame_addr f) fl Hok Hw (user_indices _ Hva) Hp) as Hs.
  unfold or_fail. destruct (map_page _ _ _ _ s) as [[[[]|msg] s']|].
  - destruct Hs as (X & _ & P). split; [apply X|]. split; [apply X|]. split.
    + intros va' f' [[= -> ->]|Hx]%elem_of_cons.
      * rewrite P by now apply user_indices. rewrite decide_True by reflexivity. eexists. split; [reflexivity|now apply make_entry_addr].
      * destruct (Hsep _ Hx) as [[= -> ->]|Hd].
        { rewrite P by now apply user_indices. rewrite decide_True by reflexivity. eexists. split; [reflexivity|now apply make_entry_addr]. }
        pose proof (Hlu _ Hx) as Hu. cbn in Hu, Hd. rewrite P by now apply user_indices. rewrite decide_False by (rewrite indices_page by assumption; exact Hd). exact (Hl _ _ Hx).
    + intros va' Hva' Hout. rewrite P by now apply user_indices. rewrite decide_False.
      * apply Hn; [exact Hva'|]. intros x Hx. apply Hout. now right.
      * rewrite indices_page by assumption. apply not_eq_sym, (Hout (va, f)). now left.
  - apply Hs.
  - destruct Hs as (e & He & Hne). rewrite page_align_frame in Hne by lia. destruct Hin as [Hin|Hout].
    + destruct (Hl _ _ Hin) as (e' & He' & Ha). congruence.
    + rewrite Hn in He by assumption. discriminate He.
Qed.

Lemma testing_create (s : Phys A) cr3 :
  src_ok (frames s) -> aligned cr3 -> src_free (frames s) (addr_frame cr3) = false ->
  match or_fail (create_user_page_table cr3) s with
  | Done (Ok root, s') => testing root [] s'
  | Done (Err _, s') => exhausted s'
  | Panicked => False
  end.
Proof.
  intros Hok Ha Hf. unfold or_fail. destruct (create_table_spec s cr3 Hok Ha Hf) as [[-> Hx]|(root & s' & -> & Hok' & Hr & Hfr & Hg & Hm)]; [exact Hx|].
  assert (empty_half (mem s') root = true) as He.
  { unfold empty_half. apply forallb_forall. intros i Hi%in_seq. rewrite Hm by (assumption || unfold ENTRY_COUNT; lia).
    rewrite decide_True by reflexivity. now replace (i <? 256)%nat with true by lia. }
  split; [exact Hok'|]. split; [|split; [intros ? ? []%not_elem_of_nil|intros va Hva _; now apply empty_half_pte]].
  apply empty_half_wf; [exact Hr| |exact He]. rewrite Hg, Nat.eqb_refl. reflexivity.
Qed.

(** The conditions of [testing_map] for the pages of the check. *)
Ltac pages :=
  solve [assumption | reflexivity | unfold USER_SPACE_MAX; lia | left; set_solver
    | intros x Hx; repeat (apply elem_of_cons in Hx as [->|Hx]); try (now apply not_elem_of_nil in Hx);
      cbn [fst]; unfold USER_SPACE_MAX; first [lia | now left | right; vm_compute; discriminate | vm_compute; discriminate]
    | right; intros x Hx; repeat (apply elem_of_cons in Hx as [->|Hx]); try (now apply not_elem_of_nil in Hx); vm_compute; discriminate].

(** One step of the check, as a rule. *)
Lemma check_step {T} (m : check T) (f : T -> check unit) (P : T -> Phys A -> Prop) (Q : Phys A -> Prop) s :
  match m s with Done (Ok v, s') => P v s' | Done (Err _, s') => exhausted s' | Panicked => False end ->
  (forall v s', P v s' -> match f v s' with Done (Ok _, s'') => Q s'' | Done (Err _, s'') => exhausted s'' | Panicked => False end) ->
  match sbind m f s with Done (Ok _, s') => Q s' | Done (Err _, s') => exhausted s' | Panicked => False end.
Proof. intros Hm Hf. unfold sbind. destruct (m s) as [[[v|[]] s']|]; [now apply Hf|assumption..]. Qed.

(** The self check of the page tables. Started on any memory in which the
    active table is in use, it passes, unless memory runs out before it ends: it
    never panics, although it maps one page three times and another twice, with
    different flags. At its end the two pages are mapped to the two frames it
    took. *)
Theorem selfcheck_passes (s : Phys A) cr3 :
  src_ok (frames s) -> aligned cr3 -> src_free (frames s) (addr_frame cr3) = false ->
  match check_segment_mapping_idempotency cr3 s with
  | Done (Ok _, s') => exists root f1 f2 e1 e2, pte (mem s') root 0x400000 = Some e1 /\ addr e1 = frame_addr f1
      /\ pte (mem s') root 0x401000 = Some e2 /\ addr e2 = frame_addr f2
  | Done (Err _, s') => exhausted s'
  | Panicked => False
  end.
Proof.
  intros Hok Ha Hf. unfold check_segment_mapping_idempotency.
  eapply check_step; [exact (testing_create s cr3 Hok Ha Hf)|]. intros root s0 T0.
  eapply check_step; [exact (testing_allocate root [] s0 T0)|]. intros f s1 [T1 B1].
  eapply check_step; [apply (testing_map root [] s1 0x400000 f _ T1); pages|]. intros u2 s2 T2.
  eapply check_step; [apply (testing_map root _ s2 0x400000 f _ T2); pages|]. intros u3 s3 T3.
  eapply check_step; [apply (testing_map root _ s3 0x400000 f _ T3); pages|]. intros u4 s4 T4.
  eapply check_step; [exact (testing_allocate root _ s4 T4)|]. intros f2 s5 [T5 B2].
  eapply check_step; [apply (testing_map root _ s5 0x401000 f2 _ T5); pages|]. intros u6 s6 T6.
  pose proof (testing_map root _ s6 0x401000 f2 (Z.lor (Z.lor PRESENT WRITABLE) USER_ACCESSIBLE) T6) as Hm.
  destruct (or_fail _ s6) as [[[[]|[]] s7]|]; [|apply Hm; pages..].
  destruct Hm as (_ & _ & Hl & _); [pages..|]. destruct (Hl 0x400000 f) as (e1 & P1 & A1); [set_solver|].
  destruct (Hl 0x401000 f2) as (e2 & P2 & A2); [set_solver|]. now exists root, f, f2, e1, e2.
Qed.

End Check.

(** On the machine of Memory.v the check passes. *)
Example selfcheck_demo : exists s', check_segment_mapping_idempotency 0x2000 demo_phys = Done (Ok tt, s').
Proof.
  assert (match check_segment_mapping_idempotency 0x2000 demo_phys with Done (Ok _, _) => true | _ => false end = true) as Hs
    by (vm_compute; reflexivity).
  destruct (check_segment_mapping_idempotency 0x2000 demo_phys) as [[[[]|] s']|]; [now exists s'|discriminate Hs..].
Qed.

End SelfCheck.
