(* ===== verification/Abi.v ===== *)
(** * System-call numbers and error codes (src/kernel/src/syscall.rs)

    The enum [SyscallNumber] with its discriminants, the decoder [from_u64],
    the debug names, and the enum [ErrorCode] with its conversion to a
    system-call return value. *)

From S2P Require Import Prelude.

Module Abi.

(** [enum SyscallNumber]; the constructors carry the prefix [Sys]. *)
Inductive SyscallNumber : Type :=
  | SysRead
  | SysWrite
  | SysOpen
  | SysClose
  | SysStat
  | SysFstat
  | SysLseek
  | SysMmap
  | SysMprotect
  | SysMunmap
  | SysBrk
  | SysPipe
  | SysYield
  | SysDup
  | SysDup2
  | SysKill
  | SysGetpid
  | SysFork
  | SysExecve
  | SysExit
  | SysWait4
  | SysGetenv
  | SysGetcwd
  | SysChdir
  | SysRename
  | SysMkdir
  | SysRmdir
  | SysUnlink
  | SysChmod
  | SysChown
  | SysGetuid
  | SysGetgid
  | SysSetuid
  | SysSetgid
  | SysSetpgid
  | SysGetdents64
  | SysSocket
  | SysSendto
  | SysRecvfrom.

Global Instance SyscallNumber_eq_dec : EqDecision SyscallNumber.
Proof. solve_decision. Defined.

(** The discriminants of the enum: [s as u64]. *)
Definition as_u64 (s : SyscallNumber) : Z :=
  match s with
  | SysRead => 0
  | SysWrite => 1
  | SysOpen => 2
  | SysClose => 3
  | SysStat => 4
  | SysFstat => 5
  | SysLseek => 8
  | SysMmap => 9
  | SysMprotect => 10
  | SysMunmap => 11
  | SysBrk => 12
  | SysPipe => 22
  | SysYield => 24
  | SysDup => 32
  | SysDup2 => 33
  | SysKill => 37
  | SysGetpid => 39
  | SysFork => 57
  | SysExecve => 59
  | SysExit => 60
  | SysWait4 => 61
  | SysGetenv => 63
  | SysGetcwd => 79
  | SysChdir => 80
  | SysRename => 82
  | SysMkdir => 83
  | SysRmdir => 84
  | SysUnlink => 87
  | SysChmod => 90
  | SysChown => 92
  | SysGetuid => 102
  | SysGetgid => 104
  | SysSetuid => 105
  | SysSetgid => 106
  | SysSetpgid => 109
  | SysGetdents64 => 217
  | SysSocket => 41
  | SysSendto => 44
  | SysRecvfrom => 45
  end.

(** [SyscallNumber::from_u64]. *)
Definition from_u64 (n : Z) : option SyscallNumber :=
  match n with
  | 0 => Some SysRead
  | 1 => Some SysWrite
  | 2 => Some SysOpen
  | 3 => Some SysClose
  | 4 => Some SysStat
  | 5 => Some SysFstat
  | 8 => Some SysLseek
  | 9 => Some SysMmap
  | 10 => Some SysMprotect
  | 11 => Some SysMunmap
  | 12 => Some SysBrk
  | 22 => Some SysPipe
  | 24 => Some SysYield
  | 32 => Some SysDup
  | 33 => Some SysDup2
  | 37 => Some SysKill
  | 39 => Some SysGetpid
  | 57 => Some SysFork
  | 59 => Some SysExecve
  | 60 => Some SysExit
  | 61 => Some SysWait4
  | 79 => Some SysGetcwd
  | 80 => Some SysChdir
  | 82 => Some SysRename
  | 83 => Some SysMkdir
  | 84 => Some SysRmdir
  | 87 => Some SysUnlink
  | 90 => Some SysChmod
  | 92 => Some SysChown
  | 102 => Some SysGetuid
  | 104 => Some SysGetgid
  | 105 => Some SysSetuid
  | 106 => Some SysSetgid
  | 109 => Some SysSetpgid
  | 217 => Some SysGetdents64
  | 63 => Some SysGetenv
  | 41 => Some SysSocket
  | 44 => Some SysSendto
  | 45 => Some SysRecvfrom
  | _ => None
  end.

(** [SyscallNumber::name]. *)
Definition name (s : SyscallNumber) : string :=
  match s with
  | SysRead => "read"
  | SysWrite => "write"
  | SysOpen => "open"
  | SysClose => "close"
  | SysStat => "stat"
  | SysFstat => "fstat"
  | SysLseek => "lseek"
  | SysExit => "exit"
  | SysFork => "fork"
  | SysExecve => "execve"
  | SysWait4 => "wait4"
  | SysBrk => "brk"
  | SysMmap => "mmap"
  | SysMunmap => "munmap"
  | SysMprotect => "mprotect"
  | SysPipe => "pipe"
  | SysDup => "dup"
  | SysDup2 => "dup2"
  | SysGetcwd => "getcwd"
  | SysChdir => "chdir"
  | SysGetpid => "getpid"
  | SysKill => "kill"
  | SysSetpgid => "setpgid"
  | SysRename => "rename"
  | SysMkdir => "mkdir"
  | SysRmdir => "rmdir"
  | SysUnlink => "unlink"
  | SysYield => "yield"
  | SysGetdents64 => "getdents64"
  | SysGetenv => "getenv"
  | SysChmod => "chmod"
  | SysChown => "chown"
  | SysGetuid => "getuid"
  | SysGetgid => "getgid"
  | SysSetuid => "setuid"
  | SysSetgid => "setgid"
  | SysSocket => "socket"
  | SysSendto => "sendto"
  | SysRecvfrom => "recvfrom"
  end.

(** [enum ErrorCode]. *)
Inductive ErrorCode : Type :=
  | EPERM
  | ENOENT
  | ESRCH
  | EINTR
  | EIO
  | EBADF
  | EAGAIN
  | ENOMEM
  | EACCES
  | EFAULT
  | EEXIST
  | ENOTDIR
  | EISDIR
  | EINVAL
  | EMFILE
  | EROFS
  | ENOEXEC
  | E2BIG
  | EPIPE
  | ERANGE
  | ENOSYS
  | ENOTEMPTY
  | ESPIPE
  | EXDEV.

Global Instance ErrorCode_eq_dec : EqDecision ErrorCode.
Proof. solve_decision. Defined.

(** [e as i64]. *)
Definition errno (e : ErrorCode) : Z :=
  match e with
  | EPERM => 1
  | ENOENT => 2
  | ESRCH => 3
  | EINTR => 4
  | EIO => 5
  | EBADF => 9
  | EAGAIN => 11
  | ENOMEM => 12
  | EACCES => 13
  | EFAULT => 14
  | EEXIST => 17
  | ENOTDIR => 20
  | EISDIR => 21
  | EINVAL => 22
  | EMFILE => 24
  | EROFS => 30
  | ENOEXEC => 8
  | E2BIG => 7
  | EPIPE => 32
  | ERANGE => 34
  | ENOSYS => 38
  | ENOTEMPTY => 39
  | ESPIPE => 29
  | EXDEV => 18
  end.

(** [ErrorCode::to_syscall_result]. *)
Definition to_syscall_result (e : ErrorCode) : Z := - errno e.

(** [SyscallResult], and its encoding in the return register: a handler's
    value, or the negated error code. *)
Definition SyscallResult : Type := result Z ErrorCode.

Definition encode_result (r : SyscallResult) : Z :=
  match r with Ok v => v | Err e => to_syscall_result e end.

(** ** Properties *)

(** The system-call decoder inverts the numbering: a raw number decodes to
    [s] exactly when it is the discriminant of [s], so distinct calls have
    distinct numbers and no other number is accepted; the debug names are
    distinct as well. *)
Theorem from_u64_iff n s :
  (from_u64 n = Some s <-> n = as_u64 s)
  /\ (forall s', name s = name s' -> s = s').
Proof.
  split.
  - split; [|intros ->; destruct s; reflexivity].
    unfold from_u64. intros H. repeat (case_match; try discriminate H);
      injection H as <-; reflexivity.
  - intros s' H. destruct s, s'; reflexivity || discriminate H.
Qed.

(** A system call's error and its success value cannot be confused: every
    error code is returned as a number in -39 .. -1, and two different error
    codes as different numbers. *)
Theorem errors_distinguishable e :
  -39 <= to_syscall_result e <= -1
  /\ (forall e', to_syscall_result e = to_syscall_result e' -> e = e')
  /\ (forall v, 0 <= v -> encode_result (Ok v) <> encode_result (Err e)).
Proof.
  unfold encode_result, to_syscall_result. split; [destruct e; cbn [errno]; lia|]. split.
  - intros e' H. destruct e, e'; reflexivity || discriminate H.
  - intros v Hv. destruct e; cbn [errno]; lia.
Qed.

End Abi.
