(* ===== verification/RingBuffer.v ===== *)
(** * Circular buffers (src/hal/src/ringbuffer.rs)

    [Module Ring] holds the facts about reading and writing a circular window
    of an array, shared by the log ring buffer and the pipes.
    [Module RingBuffer] models [RingBuffer<T, N>] and shows that it implements
    a bounded queue that drops its oldest element when full. *)

From S2P Require Import Prelude.

Module Ring.

Section Ring.
Context {A : Type} (d : A).

(** The [n] elements of [buf] from index [start] on, wrapping around. *)
Definition window (buf : list A) (start n : nat) : list A :=
  (fun k => nth ((start + k) mod length buf) buf d) <$> seq 0 n.

Lemma length_window buf start n : length (window buf start n) = n.
Proof. unfold window. now rewrite length_fmap, length_seq. Qed.

Lemma mod_wrap N i : (i < 2 * N)%nat -> (i mod N = if i <? N then i else i - N)%nat.
Proof.
  intros H. destruct (Nat.ltb_spec i N); [now apply Nat.mod_small|].
  symmetry. apply (Nat.mod_unique i N 1); lia.
Qed.

(** Writing the slot after a window that is not full appends to it. *)
Lemma window_push buf start n x :
  (start < length buf)%nat -> (n < length buf)%nat ->
  window (<[((start + n) mod length buf)%nat := x]> buf) start (S n)
  = window buf start n ++ [x].
Proof.
  intros Hs Hn. unfold window. rewrite length_insert, seq_S, fmap_app. cbn [Nat.add].
  f_equal.
  - apply list_fmap_ext. intros k i Hi. apply lookup_seq in Hi as [-> Hi].
    rewrite !nth_lookup, list_lookup_insert_ne; [reflexivity|].
    rewrite !mod_wrap by lia. repeat case_match; lia.
  - cbn. rewrite nth_lookup, list_lookup_insert_eq; [reflexivity|].
    apply Nat.mod_upper_bound. lia.
Qed.

(** Writing outside a window leaves it alone. *)
Lemma window_insert_ne buf start n p x :
  (start < length buf)%nat -> (n <= length buf)%nat ->
  (forall k, (k < n)%nat -> p <> (start + k) mod length buf)%nat ->
  window (<[p := x]> buf) start n = window buf start n.
Proof.
  intros Hs Hn Hp. unfold window. rewrite length_insert.
  apply list_fmap_ext. intros k i Hi. apply lookup_seq in Hi as [-> Hi].
  rewrite !nth_lookup, list_lookup_insert_ne; [reflexivity|]. apply Hp. lia.
Qed.

(** The first element of a window, and the rest. *)
Lemma window_pop buf start n :
  (start < length buf)%nat -> (S n <= length buf)%nat ->
  window buf start (S n)
  = nth start buf d :: window buf ((start + 1) mod length buf) n.
Proof.
  intros Hs Hn. unfold window. cbn [seq]. rewrite fmap_cons, Nat.add_0_r.
  rewrite Nat.mod_small by assumption. f_equal.
  rewrite <- fmap_S_seq, <- list_fmap_compose. apply list_fmap_ext.
  intros k i Hi. apply lookup_seq in Hi as [-> Hi]. unfold compose. f_equal.
  rewrite Nat.Div0.add_mod_idemp_l. f_equal. lia.
Qed.

Lemma window_drop buf start n k :
  (start < length buf)%nat -> (k + n <= length buf)%nat ->
  drop k (window buf start (k + n)) = window buf ((start + k) mod length buf) n.
Proof.
  intros Hs Hn. unfold window.
  rewrite <- fmap_drop, drop_seq. replace (k + n - k)%nat with n by lia.
  rewrite <- (Nat.add_0_l k) at 1. apply list_eq. intros i.
  rewrite !list_lookup_fmap. destruct (decide (i < n)%nat).
  - rewrite !lookup_seq_lt by assumption. cbn. do 2 f_equal.
    rewrite Nat.Div0.add_mod_idemp_l. f_equal. lia.
  - rewrite !lookup_seq_ge by lia. reflexivity.
Qed.

Lemma window_take buf start n k :
  take k (window buf start (k + n)) = window buf start k.
Proof.
  unfold window. rewrite <- fmap_take. f_equal. rewrite seq_app.
  apply take_app_length'. now rewrite length_seq.
Qed.

(** Any prefix, and what is left after it. *)
Lemma window_take_min buf start n m :
  take m (window buf start n) = window buf start (Nat.min m n).
Proof.
  destruct (Nat.min_spec m n) as [[Hlt ->]|[Hge ->]].
  - replace n with (m + (n - m))%nat by lia. apply window_take.
  - apply take_ge. now rewrite length_window.
Qed.

Lemma window_drop_min buf start n m :
  (start < length buf)%nat -> (n <= length buf)%nat ->
  drop m (window buf start n)
  = window buf ((start + Nat.min m n) mod length buf) (n - Nat.min m n).
Proof.
  intros Hs Hn. destruct (Nat.min_spec m n) as [[Hlt ->]|[Hge ->]].
  - rewrite <- window_drop by lia. now replace (m + (n - m))%nat with n by lia.
  - rewrite drop_ge, Nat.sub_diag by now rewrite length_window. reflexivity.
Qed.

End Ring.
End Ring.

Module RingBuffer.

Section RingBuffer.
Context {T : Type} (N : nat).

(** [struct RingBuffer<T, N>]. *)
Record RingBuffer : Type := mkRing {
  data : list (option T);
  head : nat;
  tail : nat;
  count : nat
}.

Definition new : RingBuffer := mkRing (replicate N None) 0 0 0.

(** [self.tail + 1) % N]: the remainder panics when [N = 0]. *)
Definition rem (a : nat) : outcome nat := if (N =? 0)%nat then Panicked else Done (a mod N)%nat.

(** [push]: overwrites the oldest element when full. *)
Definition push (r : RingBuffer) (item : T) : outcome RingBuffer :=
  let! data' := index_set (data r) (tail r) (Some item) in
  let! tail' := rem (tail r + 1) in
  if (count r =? N)%nat
  then let! head' := rem (head r + 1) in Done (mkRing data' head' tail' (count r))
  else Done (mkRing data' (head r) tail' (count r + 1)).

(** [pop]: takes the element out of its slot. *)
Definition pop (r : RingBuffer) : outcome (option T * RingBuffer) :=
  if (count r =? 0)%nat then Done (None, r) else
  let! item := index (data r) (head r) in
  let! data' := index_set (data r) (head r) None in
  let! head' := rem (head r + 1) in
  Done (item, mkRing data' head' (tail r) (count r - 1)).

Definition len (r : RingBuffer) : nat := count r.
Definition is_empty (r : RingBuffer) : bool := (count r =? 0)%nat.
Definition is_full (r : RingBuffer) : bool := (count r =? N)%nat.
Definition capacity : nat := N.

(** The loop [while self.pop().is_some() {}], [fuel] turns. *)
Fixpoint clear_loop (fuel : nat) (r : RingBuffer) : outcome (option RingBuffer) :=
  match fuel with
  | O => Done None
  | S fuel' =>
      let! (item, r') := pop r in
      match item with
      | Some _ => clear_loop fuel' r'
      | None => Done (Some r')
      end
  end.

(** [clear]: every turn but the last removes an element, so one turn more
    than there are elements is enough. *)
Definition clear (r : RingBuffer) : outcome (option RingBuffer) :=
  clear_loop (S (count r)) r.

Definition peek (r : RingBuffer) : outcome (option T) :=
  if (count r =? 0)%nat then Done None else index (data r) (head r).

(** ** Abstract view and invariant *)

(** [r] holds the elements of [q], oldest first. *)
Definition repr (r : RingBuffer) (q : list T) : Prop :=
  (0 < N)%nat /\ length (data r) = N /\ (head r < N)%nat
  /\ count r = length q /\ (count r <= N)%nat
  /\ tail r = ((head r + count r) mod N)%nat
  /\ Ring.window None (data r) (head r) (count r) = Some <$> q.

(** The bounded queue: append, dropping the oldest element when full. *)
Definition enqueue (q : list T) (x : T) : list T :=
  if (length q =? N)%nat then list.tail (q ++ [x]) else q ++ [x].

(** ** Lemmas *)

Lemma rem_pos a : (0 < N)%nat -> rem a = Done (a mod N)%nat.
Proof. intros H. unfold rem. now destruct (Nat.eqb_spec N 0); [lia|]. Qed.

Lemma repr_new : (0 < N)%nat -> repr new [].
Proof.
  intros H. unfold repr, new. cbn. rewrite length_replicate.
  repeat split; try lia. now rewrite Nat.mod_small by lia.
Qed.

Lemma mod_succ_succ a : (0 < N)%nat -> ((a mod N + 1) mod N = (a + 1) mod N)%nat.
Proof. intros H. apply Nat.Div0.add_mod_idemp_l. Qed.

Lemma push_spec r q x :
  repr r q -> exists r', push r x = Done r' /\ repr r' (enqueue q x).
Proof.
  intros (HN & Hlen & Hh & Hc & Hle & Ht & Hw). unfold push.
  assert (tail r < N)%nat as Htl by (rewrite Ht; apply Nat.mod_upper_bound; lia).
  rewrite index_set_lt by lia. cbn [bind]. rewrite rem_pos by assumption. cbn [bind].
  unfold enqueue. rewrite <- Hc. destruct (Nat.eqb_spec (count r) N) as [Hf|Hf].
  - rewrite rem_pos by assumption. cbn [bind]. eexists. split; [reflexivity|].
    destruct q as [|y q]; [cbn in Hc; lia|]. cbn [length] in Hc.
    rewrite Hc, Ring.window_pop in Hw by lia. rewrite fmap_cons in Hw.
    injection Hw as Hy Hq. rewrite Hlen in Hq.
    assert (tail r = head r) as Hth.
    { rewrite Ht, Hf, Ring.mod_wrap by lia. case_match; lia. }
    unfold repr. cbn [data head tail count list.tail]. rewrite length_insert, Hlen.
    repeat split; try lia.
    + cbn [app list.tail]. rewrite length_app. cbn. lia.
    + rewrite Hf, Hth. rewrite !Ring.mod_wrap by (repeat case_match; lia).
      repeat case_match; lia.
    + change (list.tail ((y :: q) ++ [x])) with (q ++ [x]).
      rewrite Hc, fmap_app, <- Hq.
      replace (tail r) with (((head r + 1) mod N + length q) mod N)%nat.
      * rewrite <- Hlen. rewrite Ring.window_push; [reflexivity| |lia].
        apply Nat.mod_upper_bound. lia.
      * rewrite Hth, Nat.Div0.add_mod_idemp_l, Ring.mod_wrap by lia. case_match; lia.
  - eexists. split; [reflexivity|]. unfold repr. cbn [data head tail count].
    rewrite length_insert, length_app. cbn [length]. repeat split; try lia.
    + rewrite Ht, mod_succ_succ by assumption. f_equal. lia.
    + rewrite Ht, Nat.add_1_r, <- Hlen, Ring.window_push, Hw, fmap_app by lia. reflexivity.
Qed.

Lemma pop_spec r q :
  repr r q ->
  match q with
  | [] => pop r = Done (None, r)
  | x :: q' => peek r = Done (Some x)
      /\ exists r', pop r = Done (Some x, r') /\ repr r' q'
  end.
Proof.
  intros (HN & Hlen & Hh & Hc & Hle & Ht & Hw). unfold pop, peek.
  destruct q as [|x q]; cbn [length] in Hc.
  { now rewrite Hc. }
  rewrite Hc, Ring.window_pop, fmap_cons in Hw by lia. injection Hw as Hx Hq.
  destruct (Nat.eqb_spec (count r) 0); [lia|].
  rewrite nth_lookup in Hx. destruct (index_lt (data r) (head r)) as (y & Hy & ->); [lia|].
  rewrite Hy in Hx. cbn in Hx. subst y. split; [reflexivity|]. cbn [bind].
  rewrite index_set_lt, rem_pos by lia. cbn [bind]. eexists. split; [reflexivity|].
  unfold repr. cbn [data head tail count]. rewrite length_insert, Hlen.
  assert ((head r + 1) mod N < N)%nat as Hm by (apply Nat.mod_upper_bound; lia).
  repeat split; try lia.
  - rewrite Ht, Nat.Div0.add_mod_idemp_l. f_equal. lia.
  - replace (count r - 1)%nat with (length q) by lia.
    rewrite Ring.window_insert_ne; rewrite ?Hlen in *; [assumption|lia..|].
    intros k Hk. rewrite Nat.Div0.add_mod_idemp_l, Ring.mod_wrap by lia. case_match; lia.
Qed.

Lemma clear_loop_spec fuel : forall r q,
  repr r q -> (length q < fuel)%nat ->
  exists r', clear_loop fuel r = Done (Some r') /\ repr r' [].
Proof.
  induction fuel as [|fuel IH]; intros r q Hr Hf; [lia|]. cbn [clear_loop].
  pose proof (pop_spec r q Hr) as Hp. destruct q as [|x q].
  - rewrite Hp. cbn [bind]. eauto.
  - destruct Hp as (_ & r1 & -> & Hr1). cbn [bind]. apply (IH r1 q Hr1). cbn in Hf. lia.
Qed.

End RingBuffer.
Arguments RingBuffer T : clear implicits.
Arguments repr {T} N r q.

(** ** Properties *)

(** The ring buffer implements a bounded queue. On a buffer holding [q],
    [push] yields one holding [q] with the new element appended (the oldest
    dropped when [N] elements are present), [pop] and [peek] return the oldest
    element and [pop] removes it, [clear] terminates with an empty buffer, and
    none of them panics. *)
Theorem ring_buffer_refines_queue {T} N (r : RingBuffer T) (q : list T) :
  repr N r q ->
  len r = length q
  /\ (forall x, exists r', push N r x = Done r' /\ repr N r' (enqueue N q x))
  /\ peek r = Done (hd_error q)
  /\ (exists r', pop N r = Done (hd_error q, r') /\ repr N r' (list.tail q))
  /\ (exists r', clear N r = Done (Some r') /\ repr N r' []).
Proof.
  intros Hr. pose proof (pop_spec N r q Hr) as Hp. repeat split.
  - apply Hr.
  - intros x. now apply push_spec.
  - destruct q; [|apply Hp]. unfold peek. now destruct Hr as (_ & _ & _ & -> & _).
  - destruct q; [eauto|apply Hp].
  - apply (clear_loop_spec N _ r q Hr). destruct Hr as (_ & _ & _ & -> & _). lia.
Qed.

Lemma ring_buffer_refines_queue_witness :
  exists r', push 2 (mkRing [Some 7; Some 5] 1 1 2) 9 = Done r' /\ repr 2 r' [7; 9].
Proof.
  assert (repr 2 (mkRing [Some 7; Some 5] 1 1 2) [5; 7]) as Hr by (repeat split; cbn; lia).
  destruct (ring_buffer_refines_queue 2 _ [5; 7] Hr) as (_ & Hpush & _).
  exact (Hpush 9).
Defined.

End RingBuffer.
