(* ===== verification/Pipe.v ===== *)
(** * Pipes (src/kernel/src/pipe.rs)

    [Module Pipe] models one pipe: a 4096-byte circular buffer with the
    reference counts of its read and write ends.  It refines an abstract byte
    queue, [Module PipeSpec], which has no positions.  [Module PipePool] models
    the 16 global pipes and the public functions [pipe_create], [pipe_write]
    and so on; the mutex around the pool makes each of them one step. *)

From S2P Require Import Prelude Abi RingBuffer.
Import Abi.

Definition PIPE_BUFFER_SIZE : nat := 4096.
Definition MAX_PIPES : nat := 16.

(** Reference counts are [usize]: they saturate at its maximum. *)
Definition USIZE_MAX : Z := U64_MAX.

(** ** The abstract pipe: a queue of bytes and its open ends *)

Module PipeSpec.

Record Spec : Type := mkSpec { queue : list Z; readers : Z; writers : Z }.

Definition write (s : Spec) (data : list Z) : result nat ErrorCode * Spec :=
  if readers s =? 0 then (Err EPIPE, s)
  else if (length (queue s) =? PIPE_BUFFER_SIZE)%nat then (Err EAGAIN, s)
  else let n := Nat.min (length data) (PIPE_BUFFER_SIZE - length (queue s)) in
       (Ok n, mkSpec (queue s ++ take n data) (readers s) (writers s)).

(** Reading up to [n] bytes: the result, the bytes, the new state. *)
Definition read (s : Spec) (n : nat) : result (list Z) ErrorCode * Spec :=
  match queue s with
  | [] => (if writers s =? 0 then Ok [] else Err EAGAIN, s)
  | q => (Ok (take n q), mkSpec (drop n q) (readers s) (writers s))
  end.

End PipeSpec.

Module Pipe.

(** [struct Pipe]. *)
Record Pipe : Type := mkPipe {
  buffer : list Z;
  read_pos : nat;
  write_pos : nat;
  count : nat;
  read_refcount : Z;
  write_refcount : Z
}.

Definition new : Pipe := mkPipe (replicate PIPE_BUFFER_SIZE 0) 0 0 0 0 0.

Definition is_allocated (p : Pipe) : bool :=
  (0 <? read_refcount p) || (0 <? write_refcount p).

Definition is_empty (p : Pipe) : bool := (count p =? 0)%nat.
Definition is_full (p : Pipe) : bool := (count p =? PIPE_BUFFER_SIZE)%nat.

Definition with_refs (p : Pipe) (r w : Z) : Pipe :=
  mkPipe (buffer p) (read_pos p) (write_pos p) (count p) r w.

Definition open_read (p : Pipe) : Pipe :=
  with_refs p (saturating_add USIZE_MAX (read_refcount p) 1) (write_refcount p).
Definition open_write (p : Pipe) : Pipe :=
  with_refs p (read_refcount p) (saturating_add USIZE_MAX (write_refcount p) 1).
Definition close_read (p : Pipe) : Pipe :=
  with_refs p (saturating_sub (read_refcount p) 1) (write_refcount p).
Definition close_write (p : Pipe) : Pipe :=
  with_refs p (read_refcount p) (saturating_sub (write_refcount p) 1).

(** The copying loop of [write], over the bytes to copy. *)
Fixpoint write_loop (buf : list Z) (pos : nat) (bytes : list Z)
    : outcome (list Z * nat) :=
  match bytes with
  | [] => Done (buf, pos)
  | b :: bytes' =>
      let! buf' := index_set buf pos b in
      write_loop buf' ((pos + 1) mod PIPE_BUFFER_SIZE)%nat bytes'
  end.

(** [Pipe::write]. *)
Definition write (p : Pipe) (data : list Z) : outcome (result nat ErrorCode * Pipe) :=
  if read_refcount p =? 0 then Done (Err EPIPE, p)
  else if is_full p then Done (Err EAGAIN, p)
  else
    let available_space := (PIPE_BUFFER_SIZE - count p)%nat in
    let to_write := Nat.min (length data) available_space in
    let! (buffer', write_pos') := write_loop (buffer p) (write_pos p) (take to_write data) in
    Done (Ok to_write,
          mkPipe buffer' (read_pos p) write_pos' (count p + to_write)
                 (read_refcount p) (write_refcount p)).

(** The copying loop of [read]: [n] bytes into [buf] from index [i] on. *)
Fixpoint read_loop (ring : list Z) (pos : nat) (buf : list Z) (i n : nat)
    : outcome (list Z * nat) :=
  match n with
  | O => Done (buf, pos)
  | S n' =>
      let! b := index ring pos in
      let! buf' := index_set buf i b in
      read_loop ring ((pos + 1) mod PIPE_BUFFER_SIZE)%nat buf' (S i) n'
  end.

(** [Pipe::read]: returns the result, the caller's buffer and the pipe. *)
Definition read (p : Pipe) (buf : list Z)
    : outcome (result nat ErrorCode * list Z * Pipe) :=
  if (write_refcount p =? 0) && is_empty p then Done (Ok 0%nat, buf, p)
  else if is_empty p then Done (Err EAGAIN, buf, p)
  else
    let to_read := Nat.min (length buf) (count p) in
    let! (buf', read_pos') := read_loop (buffer p) (read_pos p) buf 0 to_read in
    Done (Ok to_read, buf',
          mkPipe (buffer p) read_pos' (write_pos p) (count p - to_read)
                 (read_refcount p) (write_refcount p)).

(** ** Abstract view and invariant *)

(** The bytes in the pipe, oldest first. *)
Definition contents (p : Pipe) : list Z :=
  Ring.window 0 (buffer p) (read_pos p) (count p).

Record inv (p : Pipe) : Prop := mkInv {
  inv_length : length (buffer p) = PIPE_BUFFER_SIZE;
  inv_read_pos : (read_pos p < PIPE_BUFFER_SIZE)%nat;
  inv_count : (count p <= PIPE_BUFFER_SIZE)%nat;
  inv_write_pos : write_pos p = ((read_pos p + count p) mod PIPE_BUFFER_SIZE)%nat;
  inv_readers : 0 <= read_refcount p <= USIZE_MAX;
  inv_writers : 0 <= write_refcount p <= USIZE_MAX
}.

Definition abs (p : Pipe) : PipeSpec.Spec :=
  PipeSpec.mkSpec (contents p) (read_refcount p) (write_refcount p).

(** ** Lemmas *)

Lemma size_pos : (0 < PIPE_BUFFER_SIZE)%nat.
Proof. unfold PIPE_BUFFER_SIZE. lia. Qed.

Lemma length_contents p : length (contents p) = count p.
Proof. apply Ring.length_window. Qed.

Lemma pipe_inv_new : inv new.
Proof.
  constructor; cbn [new buffer read_pos write_pos count read_refcount write_refcount];
    try (unfold USIZE_MAX, U64_MAX; lia); try apply length_replicate; try apply size_pos;
    try apply Nat.le_0_l. symmetry. apply Nat.Div0.mod_0_l.
Qed.

Lemma inv_with_refs p r w :
  inv p -> 0 <= r <= USIZE_MAX -> 0 <= w <= USIZE_MAX -> inv (with_refs p r w).
Proof. intros []. constructor; assumption. Qed.

Lemma inv_open_close p :
  inv p -> inv (open_read p) /\ inv (open_write p) /\ inv (close_read p) /\ inv (close_write p).
Proof.
  intros H. destruct H as [? ? ? ? Hr Hw] eqn:E. repeat apply conj;
    apply inv_with_refs; try assumption; unfold saturating_add, saturating_sub;
    unfold USIZE_MAX, U64_MAX in *; lia.
Qed.

Lemma write_loop_spec bytes : forall buf start n,
  length buf = PIPE_BUFFER_SIZE -> (start < PIPE_BUFFER_SIZE)%nat ->
  (n + length bytes <= PIPE_BUFFER_SIZE)%nat ->
  exists buf', write_loop buf ((start + n) mod PIPE_BUFFER_SIZE)%nat bytes
      = Done (buf', (start + (n + length bytes)) mod PIPE_BUFFER_SIZE)%nat
    /\ length buf' = PIPE_BUFFER_SIZE
    /\ Ring.window 0 buf' start (n + length bytes) = Ring.window 0 buf start n ++ bytes.
Proof.
  pose proof size_pos as Hpos.
  induction bytes as [|b bytes IH]; intros buf start n Hlen Hs Hn; cbn [write_loop length].
  { exists buf. rewrite Nat.add_0_r, app_nil_r. auto. }
  cbn [length] in Hn. rewrite index_set_lt by (rewrite Hlen; apply Nat.mod_upper_bound; lia).
  cbn [bind]. rewrite Nat.Div0.add_mod_idemp_l, <- Nat.add_assoc, Nat.add_1_r.
  destruct (IH (<[((start + n) mod PIPE_BUFFER_SIZE)%nat := b]> buf) start (S n))
    as (buf' & -> & Hlen' & Hw); [now rewrite length_insert|assumption|lia|].
  exists buf'. replace (S n + length bytes)%nat with (n + S (length bytes))%nat in * by lia.
  split; [reflexivity|]. split; [assumption|]. rewrite Hw.
  rewrite <- Hlen, Ring.window_push by lia. rewrite <- app_assoc. reflexivity.
Qed.

Lemma pipe_read_loop_spec n : forall ring pos buf i,
  length ring = PIPE_BUFFER_SIZE -> (pos < PIPE_BUFFER_SIZE)%nat ->
  (n <= PIPE_BUFFER_SIZE)%nat -> (i + n <= length buf)%nat ->
  read_loop ring pos buf i n
  = Done (splice buf i (Ring.window 0 ring pos n), ((pos + n) mod PIPE_BUFFER_SIZE)%nat).
Proof.
  pose proof size_pos as Hpos.
  induction n as [|n IH]; intros ring pos buf i Hlen Hp Hn Hi; cbn [read_loop].
  { change (Ring.window 0 ring pos 0) with (@nil Z). unfold splice. cbn [length app].
    rewrite !Nat.add_0_r, take_drop, Nat.mod_small by lia. reflexivity. }
  destruct (index_lt ring pos ltac:(lia)) as (b & Hb & ->). cbn [bind].
  rewrite index_set_lt by lia. cbn [bind].
  rewrite IH by (rewrite ?length_insert; try lia; apply Nat.mod_upper_bound; lia).
  rewrite Nat.Div0.add_mod_idemp_l.
  replace (pos + 1 + n)%nat with (pos + S n)%nat by lia. f_equal. f_equal.
  rewrite (Ring.window_pop 0 ring pos n) by lia. rewrite nth_lookup, Hb, Hlen. cbn [default].
  apply splice_cons. lia.
Qed.

Lemma write_refines p data :
  inv p ->
  exists r p', write p data = Done (r, p') /\ inv p'
    /\ PipeSpec.write (abs p) data = (r, abs p').
Proof.
  intros Hinv. unfold write, PipeSpec.write, is_full.
  change (PipeSpec.readers (abs p)) with (read_refcount p).
  change (PipeSpec.queue (abs p)) with (contents p). rewrite length_contents.
  destruct (read_refcount p =? 0); [eauto|].
  destruct (Nat.eqb_spec (count p) PIPE_BUFFER_SIZE) as [|Hne]; [eauto|].
  destruct Hinv as [Hl Hr Hc Hw ? ?]. rewrite Hw.
  destruct (write_loop_spec (take (Nat.min (length data) (PIPE_BUFFER_SIZE - count p)) data)
              (buffer p) (read_pos p) (count p))
    as (buf' & -> & Hlen & Hwin); [assumption..|rewrite length_take; lia|].
  rewrite length_take in *. cbn [bind]. do 2 eexists. split; [reflexivity|]. split.
  - constructor; cbn [buffer read_pos write_pos count read_refcount write_refcount];
      try assumption; try lia. do 2 f_equal. lia.
  - unfold abs, contents. cbn [buffer read_pos count read_refcount write_refcount].
    rewrite <- Hwin. do 3 f_equal. lia.
Qed.

Lemma read_refines p buf :
  inv p ->
  match PipeSpec.read (abs p) (length buf) with
  | (Ok bytes, s') => exists p', inv p' /\ abs p' = s'
      /\ read p buf = Done (Ok (length bytes), splice buf 0 bytes, p')
  | (Err e, s') => s' = abs p /\ read p buf = Done (Err e, buf, p)
  end.
Proof.
  intros Hinv. unfold read, PipeSpec.read, is_empty.
  change (PipeSpec.writers (abs p)) with (write_refcount p).
  change (PipeSpec.readers (abs p)) with (read_refcount p).
  change (PipeSpec.queue (abs p)) with (contents p).
  pose proof (length_contents p) as Hlc. destruct (contents p) as [|b q] eqn:Hq.
  { cbn in Hlc. rewrite <- Hlc. cbn [Nat.eqb]. rewrite andb_true_r.
    destruct (write_refcount p =? 0); [|auto]. exists p. auto. }
  cbn [length] in Hlc. destruct (Nat.eqb_spec (count p) 0) as [|_]; [lia|]. rewrite andb_false_r.
  rewrite <- Hq. destruct Hinv as [Hl Hr Hc Hw ? ?]. unfold contents.
  rewrite Ring.window_take_min, Ring.window_drop_min by lia.
  set (n := Nat.min (length buf) (count p)).
  assert (n <= count p)%nat as Hn by (subst n; lia).
  rewrite pipe_read_loop_spec by (try assumption; subst n; lia). cbn [bind].
  rewrite Ring.length_window. eexists. split; [|split; [|reflexivity]].
  - constructor; cbn [buffer read_pos write_pos count read_refcount write_refcount];
      try assumption; try lia.
    rewrite Nat.Div0.add_mod_idemp_l, Hw. f_equal. lia.
  - unfold abs, contents. cbn [buffer read_pos count read_refcount write_refcount]. f_equal.
    now rewrite Hl.
Qed.

(** What a call does to the buffered bytes. *)
Lemma write_flow p data :
  inv p ->
  exists r p', write p data = Done (r, p') /\ inv p'
    /\ contents p' = contents p ++ match r with Ok n => take n data | Err _ => [] end.
Proof.
  intros Hinv. destruct (write_refines p data Hinv) as (r & p' & E & Hi & Hs).
  exists r, p'. split; [assumption|]. split; [assumption|].
  pose proof (f_equal fst Hs) as Hr. pose proof (f_equal (fun x => PipeSpec.queue (snd x)) Hs) as Hq.
  cbn [snd] in Hq. change (contents p') with (PipeSpec.queue (abs p')).
  rewrite <- Hq. cbn [fst] in Hr. subst r. unfold PipeSpec.write.
  destruct (PipeSpec.readers (abs p) =? 0); [|destruct (_ =? _)%nat];
    cbn [fst snd PipeSpec.queue]; rewrite ?app_nil_r; reflexivity.
Qed.

Lemma read_flow p n :
  inv p ->
  exists r buf p', read p (replicate n 0) = Done (r, buf, p') /\ inv p'
    /\ contents p = match r with Ok k => take k buf | Err _ => [] end ++ contents p'.
Proof.
  intros Hinv. pose proof (read_refines p (replicate n 0) Hinv) as H.
  destruct (PipeSpec.read _ _) as [[bytes|e] s'] eqn:Hs.
  - destruct H as (p' & Hi & Ha & E). do 3 eexists. split; [exact E|]. split; [assumption|].
    unfold splice. rewrite take_0, app_nil_l, take_app_length.
    change (contents p') with (PipeSpec.queue (abs p')). rewrite Ha.
    change (contents p) with (PipeSpec.queue (abs p)).
    unfold PipeSpec.read in Hs. destruct (PipeSpec.queue (abs p)) as [|b q] eqn:Hq.
    + case_match; [|discriminate]. injection Hs as <- <-. now rewrite Hq.
    + injection Hs as <- <-. cbn [PipeSpec.queue]. symmetry. apply take_drop.
  - destruct H as [_ E]. do 3 eexists. split; [exact E|]. auto.
Qed.

End Pipe.

Module PipePool.
Import Pipe.

(** [struct PipePool]: the array of [MAX_PIPES] pipes. *)
Notation PipePool := (list Pipe).

Definition new : PipePool := replicate MAX_PIPES Pipe.new.

(** The loop of [allocate] over the pipes from index [i] on. *)
Fixpoint allocate_from (pipes : list Pipe) (i : nat)
    : result nat ErrorCode * list Pipe :=
  match pipes with
  | [] => (Err EMFILE, [])
  | p :: pipes' =>
      if negb (is_allocated p) then (Ok i, open_write (open_read p) :: pipes')
      else let (r, rest) := allocate_from pipes' (S i) in (r, p :: rest)
  end.

(** [PipePool::allocate]. *)
Definition allocate (pool : PipePool) : result nat ErrorCode * PipePool :=
  allocate_from pool 0.

(** [PipePool::get]. *)
Definition get (pool : PipePool) (id : nat) : option Pipe :=
  match pool !! id with
  | Some p => if is_allocated p then Some p else None
  | None => None
  end.

(** [open_read_end], [open_write_end], [close_read_end], [close_write_end]:
    [f] is the change of the pipe's counts. *)
Definition update_end (f : Pipe -> Pipe) (pool : PipePool) (id : nat)
    : result unit ErrorCode * PipePool :=
  match get pool id with
  | None => (Err EBADF, pool)
  | Some p => (Ok tt, <[id := f p]> pool)
  end.

Definition open_read_end := update_end open_read.
Definition open_write_end := update_end open_write.
Definition close_read_end := update_end close_read.
Definition close_write_end := update_end close_write.

(** [PipePool::write]. *)
Definition write (pool : PipePool) (id : nat) (data : list Z)
    : outcome (result nat ErrorCode * PipePool) :=
  match get pool id with
  | None => Done (Err EBADF, pool)
  | Some p => let! (r, p') := Pipe.write p data in Done (r, <[id := p']> pool)
  end.

(** [PipePool::read]. *)
Definition read (pool : PipePool) (id : nat) (buf : list Z)
    : outcome (result nat ErrorCode * list Z * PipePool) :=
  match get pool id with
  | None => Done (Err EBADF, buf, pool)
  | Some p => let! (r, buf', p') := Pipe.read p buf in Done (r, buf', <[id := p']> pool)
  end.

(** [pipe_create]: both ends carry the same id. *)
Definition pipe_create (pool : PipePool) : result (nat * nat) ErrorCode * PipePool :=
  let (r, pool') := allocate pool in
  (match r with Ok id => Ok (id, id) | Err e => Err e end, pool').

(** ** Operation sequences *)

Inductive op : Type :=
  | OpCreate
  | OpOpenRead (id : nat) | OpOpenWrite (id : nat)
  | OpCloseRead (id : nat) | OpCloseWrite (id : nat)
  | OpWrite (id : nat) (data : list Z)
  | OpRead (id : nat) (n : nat).

(** Bytes accepted into, and handed out of, a pipe. *)
Inductive event : Type :=
  | EvNone
  | EvIn (id : nat) (bytes : list Z)
  | EvOut (id : nat) (bytes : list Z).

(** One call of the pipe interface. *)
Definition exec (pool : PipePool) (o : op) : outcome (event * PipePool) :=
  match o with
  | OpCreate => Done (EvNone, snd (pipe_create pool))
  | OpOpenRead id => Done (EvNone, snd (open_read_end pool id))
  | OpOpenWrite id => Done (EvNone, snd (open_write_end pool id))
  | OpCloseRead id => Done (EvNone, snd (close_read_end pool id))
  | OpCloseWrite id => Done (EvNone, snd (close_write_end pool id))
  | OpWrite id data =>
      let! (r, pool') := write pool id data in
      Done (match r with Ok n => EvIn id (take n data) | Err _ => EvNone end, pool')
  | OpRead id n =>
      let! (r, buf, pool') := read pool id (replicate n 0) in
      Done (match r with Ok k => EvOut id (take k buf) | Err _ => EvNone end, pool')
  end.

Fixpoint run (pool : PipePool) (ops : list op) : outcome (list event * PipePool) :=
  match ops with
  | [] => Done ([], pool)
  | o :: ops' =>
      let! (e, pool1) := exec pool o in
      let! (es, pool2) := run pool1 ops' in
      Done (e :: es, pool2)
  end.

(** The bytes that went into, and came out of, pipe [id]. *)
Fixpoint ins (id : nat) (es : list event) : list Z :=
  match es with
  | [] => []
  | EvIn id' bytes :: es' => (if (id =? id')%nat then bytes else []) ++ ins id es'
  | _ :: es' => ins id es'
  end.

Fixpoint outs (id : nat) (es : list event) : list Z :=
  match es with
  | [] => []
  | EvOut id' bytes :: es' => (if (id =? id')%nat then bytes else []) ++ outs id es'
  | _ :: es' => outs id es'
  end.

(** The bytes buffered in pipe [id]. *)
Definition buffered (pool : PipePool) (id : nat) : list Z :=
  match pool !! id with Some p => contents p | None => [] end.

Definition pool_inv (pool : PipePool) : Prop :=
  length pool = MAX_PIPES /\ Forall Pipe.inv pool.

(** ** Lemmas *)

Lemma pool_inv_new : pool_inv new.
Proof. split; [apply length_replicate|]. apply Forall_replicate, pipe_inv_new. Qed.

Lemma pool_inv_insert pool id p :
  pool_inv pool -> Pipe.inv p -> pool_inv (<[id := p]> pool).
Proof.
  intros [Hl Hf] Hp. split; [now rewrite length_insert|]. now apply Forall_insert.
Qed.

Lemma get_Some pool id p :
  get pool id = Some p -> pool !! id = Some p /\ is_allocated p = true.
Proof. unfold get. intros H. case_in H; naive_solver. Qed.

Lemma pool_lookup_inv pool id p : pool_inv pool -> pool !! id = Some p -> Pipe.inv p.
Proof. intros [_ Hf] H. rewrite Forall_lookup in Hf. eauto. Qed.

Lemma buffered_insert pool id p p' j :
  pool !! id = Some p ->
  buffered (<[id := p']> pool) j = if (id =? j)%nat then contents p' else buffered pool j.
Proof.
  intros H. unfold buffered. destruct (Nat.eqb_spec id j) as [->|Hne].
  - now rewrite list_lookup_insert_eq by (eapply lookup_lt_Some; eauto).
  - now rewrite list_lookup_insert_ne.
Qed.

(** The first free pipe, if any, is opened for reading and writing. *)
Lemma allocate_from_spec pipes : forall i,
  (forall k p, pipes !! k = Some p -> is_allocated p = true)
    /\ allocate_from pipes i = (Err EMFILE, pipes)
  \/ exists k p, pipes !! k = Some p /\ is_allocated p = false
    /\ (forall j q, (j < k)%nat -> pipes !! j = Some q -> is_allocated q = true)
    /\ allocate_from pipes i = (Ok (i + k)%nat, <[k := open_write (open_read p)]> pipes).
Proof.
  induction pipes as [|p pipes IH]; intros i; cbn [allocate_from].
  { left. split; [intros k p H; discriminate|reflexivity]. }
  destruct (is_allocated p) eqn:Hp; cbn [negb].
  - destruct (IH (S i)) as [[Hall ->]|(k & q & Hk & Hq & Hlt & ->)].
    + left. split; [|reflexivity]. intros [|k] q; cbn; [naive_solver|apply Hall].
    + right. exists (S k), q. repeat split; [assumption..| |].
      * intros [|j] r Hj; cbn; [naive_solver|]. apply Hlt. lia.
      * cbn. do 2 f_equal. lia.
  - right. exists 0%nat, p. repeat split; [assumption| |].
    + intros; lia.
    + cbn. now rewrite Nat.add_0_r.
Qed.

(** Transfers leave the counts of the open ends as they are. *)
Definition ends (p : Pipe) : Z * Z := (read_refcount p, write_refcount p).

Lemma pool_write_spec pool id data : pool_inv pool ->
  exists r pool', write pool id data = Done (r, pool') /\ pool_inv pool' /\ (forall j, ends <$> pool' !! j = ends <$> pool !! j)
    /\ forall p, get pool id = Some p -> r = fst (PipeSpec.write (abs p) data).
Proof.
  intros Hi. unfold write. destruct (get pool id) as [p|] eqn:Hg; [|exists (Err EBADF), pool; now auto].
  apply get_Some in Hg as [Hp _]. destruct (write_refines p data (pool_lookup_inv _ _ _ Hi Hp)) as (r & p' & -> & Hip & Hs).
  exists r, (<[id := p']> pool). split; [reflexivity|]. split; [now apply pool_inv_insert|]. split.
  - intros j. destruct (decide (id = j)) as [<-|]; [|now rewrite list_lookup_insert_ne].
    rewrite list_lookup_insert_eq by (eapply lookup_lt_Some; eauto). rewrite Hp. cbn. f_equal.
    pose proof (f_equal snd Hs) as E. cbn [snd] in E. unfold PipeSpec.write in E.
    change (ends p') with (PipeSpec.readers (abs p'), PipeSpec.writers (abs p')). rewrite <- E. repeat case_match; reflexivity.
  - intros q [= <-]. now rewrite Hs.
Qed.

Lemma pool_read_spec pool id buf : pool_inv pool ->
  exists r buf' pool', read pool id buf = Done (r, buf', pool') /\ pool_inv pool' /\ (forall j, ends <$> pool' !! j = ends <$> pool !! j)
    /\ forall p, get pool id = Some p -> (let? k := r in Ok k) = (let? bytes := fst (PipeSpec.read (abs p) (length buf)) in Ok (length bytes)).
Proof.
  intros Hi. unfold read. destruct (get pool id) as [p|] eqn:Hg; [|exists (Err EBADF), buf, pool; now auto].
  apply get_Some in Hg as [Hp _]. pose proof (read_refines p buf (pool_lookup_inv _ _ _ Hi Hp)) as H.
  destruct (PipeSpec.read (abs p) (length buf)) as [[bytes|e] s'] eqn:Hs.
  - destruct H as (p' & Hip & Ha & ->). do 2 eexists. exists (<[id := p']> pool). split; [reflexivity|]. split; [now apply pool_inv_insert|]. split.
    + intros j. destruct (decide (id = j)) as [<-|]; [|now rewrite list_lookup_insert_ne].
      rewrite list_lookup_insert_eq by (eapply lookup_lt_Some; eauto). rewrite Hp. cbn. f_equal.
      pose proof (f_equal snd Hs) as E. cbn [snd] in E. unfold PipeSpec.read in E.
      change (ends p') with (PipeSpec.readers (abs p'), PipeSpec.writers (abs p')). rewrite Ha, <- E. repeat case_match; reflexivity.
    + intros q [= <-]. now rewrite Hs.
  - destruct H as [_ ->]. do 2 eexists. exists (<[id := p]> pool). split; [reflexivity|]. rewrite list_insert_id by exact Hp.
    split; [exact Hi|]. split; [reflexivity|]. intros q [= <-]. now rewrite Hs.
Qed.

Lemma update_end_spec f pool id :
  pool_inv pool ->
  (forall p, Pipe.inv p -> Pipe.inv (f p) /\ contents (f p) = contents p) ->
  pool_inv (snd (update_end f pool id))
  /\ forall j, buffered (snd (update_end f pool id)) j = buffered pool j.
Proof.
  intros Hinv Hf. unfold update_end. destruct (get pool id) as [p|] eqn:Hg; [|auto].
  apply get_Some in Hg as [Hp _].
  destruct (Hf p (pool_lookup_inv _ _ _ Hinv Hp)) as [Hi Hc]. cbn [snd].
  split; [now apply pool_inv_insert|]. intros j. rewrite (buffered_insert _ _ _ _ _ Hp).
  destruct (Nat.eqb_spec id j) as [->|]; [|reflexivity]. unfold buffered. now rewrite Hp.
Qed.

Lemma exec_create pool :
  pool_inv pool ->
  pool_inv (snd (pipe_create pool))
  /\ forall j, buffered (snd (pipe_create pool)) j = buffered pool j.
Proof.
  intros Hinv. unfold pipe_create, allocate.
  destruct (allocate_from_spec pool 0) as [[_ ->]|(k & p & Hk & _ & _ & ->)]; [auto|].
  cbn [snd]. pose proof (pool_lookup_inv _ _ _ Hinv Hk) as Hp.
  destruct (inv_open_close p Hp) as (Hr & _).
  destruct (inv_open_close _ Hr) as (_ & Hw & _).
  split; [now apply pool_inv_insert|]. intros j. rewrite (buffered_insert _ _ _ _ _ Hk).
  destruct (Nat.eqb_spec k j) as [->|]; [|reflexivity]. unfold buffered. now rewrite Hk.
Qed.

(** A call that moves no bytes. *)
Lemma quiet pool pool' :
  pool_inv pool' /\ (forall j, buffered pool' j = buffered pool j) ->
  exists e pool'', Done (EvNone, pool') = Done (e, pool'') /\ pool_inv pool''
    /\ forall id, buffered pool id ++ ins id [e] = outs id [e] ++ buffered pool'' id.
Proof.
  intros [Hi Hb]. do 2 eexists. split; [reflexivity|]. split; [assumption|].
  intros id. cbn. rewrite app_nil_r. symmetry. apply Hb.
Qed.

(** One call keeps the invariant and accounts for every byte. *)
Lemma exec_conserves pool o :
  pool_inv pool ->
  exists e pool', exec pool o = Done (e, pool') /\ pool_inv pool'
    /\ forall id, buffered pool id ++ ins id [e] = outs id [e] ++ buffered pool' id.
Proof.
  intros Hinv. destruct o; cbn [exec].
  - now apply quiet, exec_create.
  - now apply quiet, update_end_spec; [|intros p Hp; split; [apply (inv_open_close p Hp)|]].
  - now apply quiet, update_end_spec; [|intros p Hp; split; [apply (inv_open_close p Hp)|]].
  - now apply quiet, update_end_spec; [|intros p Hp; split; [apply (inv_open_close p Hp)|]].
  - now apply quiet, update_end_spec; [|intros p Hp; split; [apply (inv_open_close p Hp)|]].
  - unfold write. destruct (get pool id) as [p|] eqn:Hg.
    2:{ do 2 eexists. split; [reflexivity|]. split; [assumption|]. intros. apply app_nil_r. }
    apply get_Some in Hg as [Hp _].
    destruct (write_flow p data (pool_lookup_inv _ _ _ Hinv Hp)) as (r & p' & -> & Hi & Hs).
    cbn [bind]. do 2 eexists. split; [reflexivity|].
    split; [now apply pool_inv_insert|]. intros j.
    rewrite (buffered_insert _ _ _ _ _ Hp), Nat.eqb_sym.
    destruct r; cbn [ins outs app];
      (destruct (Nat.eqb_spec j id) as [->|]; [unfold buffered; rewrite Hp|]);
      rewrite ?app_nil_r in *; cbn; rewrite ?app_nil_r; auto.
  - unfold read. destruct (get pool id) as [p|] eqn:Hg.
    2:{ do 2 eexists. split; [reflexivity|]. split; [assumption|]. intros. apply app_nil_r. }
    apply get_Some in Hg as [Hp _].
    destruct (read_flow p n (pool_lookup_inv _ _ _ Hinv Hp)) as (r & buf & p' & -> & Hi & Hs).
    cbn [bind]. do 2 eexists. split; [reflexivity|].
    split; [now apply pool_inv_insert|]. intros j.
    rewrite (buffered_insert _ _ _ _ _ Hp), Nat.eqb_sym.
    destruct r; cbn [ins outs app];
      (destruct (Nat.eqb_spec j id) as [->|]; [unfold buffered; rewrite Hp|]);
      rewrite ?app_nil_r in *; cbn; rewrite ?app_nil_r; auto.
Qed.

Lemma run_conserves ops : forall pool,
  pool_inv pool ->
  exists es pool', run pool ops = Done (es, pool') /\ pool_inv pool'
    /\ forall id, buffered pool id ++ ins id es = outs id es ++ buffered pool' id.
Proof.
  induction ops as [|o ops IH]; intros pool Hinv; cbn [run].
  { exists [], pool. split; [reflexivity|]. split; [assumption|]. intros. apply app_nil_r. }
  destruct (exec_conserves pool o Hinv) as (e & pool1 & -> & Hi1 & H1). cbn [bind].
  destruct (IH pool1 Hi1) as (es & pool2 & -> & Hi2 & H2). cbn [bind].
  exists (e :: es), pool2. split; [reflexivity|]. split; [assumption|]. intros id.
  assert (ins id (e :: es) = ins id [e] ++ ins id es) as ->
    by (destruct e; cbn; rewrite ?app_nil_r; reflexivity).
  assert (outs id (e :: es) = outs id [e] ++ outs id es) as ->
    by (destruct e; cbn; rewrite ?app_nil_r; reflexivity).
  rewrite app_assoc, H1, <- app_assoc, H2. apply app_assoc.
Qed.

Lemma run_inv ops es pool : run new ops = Done (es, pool) -> pool_inv pool.
Proof.
  intros H. destruct (run_conserves ops new pool_inv_new) as (es' & pool' & E & Hi & _).
  rewrite H in E. injection E as <- <-. assumption.
Qed.

(** ** Properties *)

(** C25: whatever the interleaving of creations, opens, closes, writes and reads
    on the sixteen pipe slots, no call panics, and for every slot the bytes
    accepted by writes are the bytes handed out by reads followed by the bytes
    still buffered: nothing is lost, duplicated, reordered or moved from slot to
    slot. This is per slot and not per pipe: a new pipe takes over a slot
    with the bytes that were left unread there. *)
Theorem pipes_are_fifo ops :
  exists es pool, run new ops = Done (es, pool)
    /\ (forall id, ins id es = outs id es ++ buffered pool id)
    /\ forall r w pool', pipe_create pool = (Ok (r, w), pool') -> buffered pool' r = buffered pool r.
Proof.
  destruct (run_conserves ops new pool_inv_new) as (es & pool & E & Hi & H).
  exists es, pool. split; [assumption|]. split.
  - intros id. rewrite <- H. unfold buffered. destruct (new !! id) as [p|] eqn:Hp; [|reflexivity].
    apply lookup_replicate in Hp as [-> _]. reflexivity.
  - intros r w pool' Hc. change pool' with (snd (Ok (r, w) : result (nat * nat) ErrorCode, pool')). rewrite <- Hc.
    now apply exec_create.
Qed.

(** On every pipe of every reachable pool, [write] and [read] behave as the
    abstract byte queue: a write fails with [EPIPE] without readers and with
    [EAGAIN] on a full buffer, otherwise takes as many bytes as fit; a read
    returns 0 at end of file (empty, no writers), [EAGAIN] on an empty pipe
    that has writers, otherwise the oldest bytes, up to the caller's buffer. *)
Theorem pipe_refines_spec ops es pool id p :
  run new ops = Done (es, pool) -> pool !! id = Some p ->
  (forall data, exists r p', Pipe.write p data = Done (r, p') /\ Pipe.inv p'
     /\ PipeSpec.write (abs p) data = (r, abs p'))
  /\ (forall buf, match PipeSpec.read (abs p) (length buf) with
      | (Ok bytes, s') => exists p', Pipe.inv p' /\ abs p' = s'
          /\ Pipe.read p buf = Done (Ok (length bytes), splice buf 0 bytes, p')
      | (Err e, s') => s' = abs p /\ Pipe.read p buf = Done (Err e, buf, p)
      end).
Proof.
  intros Hrun Hp. pose proof (pool_lookup_inv _ _ _ (run_inv _ _ _ Hrun) Hp) as Hinv.
  split; intros; [apply write_refines|apply read_refines]; assumption.
Qed.

Lemma pipe_refines_spec_witness :
  exists es pool p, run new [OpCreate; OpWrite 0 [1; 2; 3]; OpRead 0 2] = Done (es, pool)
    /\ pool !! 0%nat = Some p
    /\ exists r p', Pipe.write p [4] = Done (r, p')
       /\ PipeSpec.write (abs p) [4] = (r, abs p').
Proof.
  destruct (run_conserves [OpCreate; OpWrite 0 [1; 2; 3]; OpRead 0 2] new pool_inv_new)
    as (es & pool & E & _).
  destruct (lookup_lt_is_Some_2 pool 0) as [p Hp].
  { destruct (run_inv _ _ _ E) as [-> _]. unfold MAX_PIPES. lia. }
  exists es, pool, p. split; [assumption|]. split; [assumption|].
  destruct (pipe_refines_spec _ _ _ _ _ E Hp) as [Hw _].
  destruct (Hw [4]) as (r & p' & ? & _ & ?). eauto.
Defined.

(** [pipe_create] returns the lowest pipe with no open end, in both
    positions, with one reader and one writer, and leaves the other pipes
    alone; it fails with [EMFILE] exactly when all sixteen pipes have an open
    end, and then changes nothing. *)
Theorem pipe_create_lowest ops es pool :
  run new ops = Done (es, pool) ->
  match pipe_create pool with
  | (Ok (r, w), pool') => r = w /\ exists p, pool !! r = Some p /\ is_allocated p = false
      /\ (forall j q, (j < r)%nat -> pool !! j = Some q -> is_allocated q = true)
      /\ pool' = <[r := with_refs p 1 1]> pool
  | (Err e, pool') => e = EMFILE /\ pool' = pool
      /\ forall j q, pool !! j = Some q -> is_allocated q = true
  end.
Proof.
  intros Hrun. pose proof (run_inv _ _ _ Hrun) as Hinv. unfold pipe_create, allocate.
  destruct (allocate_from_spec pool 0) as [[Hall ->]|(k & p & Hk & Hp & Hlt & ->)]; [auto|].
  split; [reflexivity|]. exists p. repeat split; try assumption.
  destruct (pool_lookup_inv _ _ _ Hinv Hk). unfold is_allocated in Hp.
  unfold open_write, open_read, with_refs, saturating_add, USIZE_MAX, U64_MAX. cbn.
  do 2 f_equal; lia.
Qed.

Lemma pipe_create_lowest_witness :
  exists es pool p, run new [OpCreate; OpCreate; OpCloseRead 0; OpCloseWrite 0] = Done (es, pool)
    /\ pool !! 0%nat = Some p /\ is_allocated p = false.
Proof.
  assert (match run new [OpCreate; OpCreate; OpCloseRead 0; OpCloseWrite 0] with
    | Done (_, pl) => fst (pipe_create pl) | Panicked => Err EIO end = Ok (0, 0)%nat) as Hc
    by (vm_compute; reflexivity).
  destruct (run new [OpCreate; OpCreate; OpCloseRead 0; OpCloseWrite 0]) as [[es pool]|] eqn:E;
    [|discriminate].
  pose proof (pipe_create_lowest _ _ _ E) as H.
  destruct (pipe_create pool) as [r pool']. cbn [fst] in Hc. subst r.
  destruct H as (_ & p & Hp & Ha & _). exists es, pool, p. auto.
Defined.

(** [pipe_create] does not clear the slot it hands out: the new pipe starts
    with whatever bytes the slot still buffers.  Since closing both ends does
    not clear it either, the reader of a freshly created pipe can receive the
    bytes a previous, unrelated pipe left unread. *)
Theorem pipe_create_keeps_old_bytes :
  (forall ops es pool id, run new ops = Done (es, pool) ->
     buffered (snd (pipe_create pool)) id = buffered pool id)
  /\ (let! (_, pool) :=
         run new [OpCreate; OpWrite 0 [83; 69; 67]; OpCloseRead 0; OpCloseWrite 0] in
       let (r, pool') := pipe_create pool in
       let! (k, buf, _) := read pool' 0 [0; 0; 0; 0] in
       Done (r, k, buf))
     = Done (Ok (0, 0)%nat, Ok 3%nat, [83; 69; 67; 0]).
Proof.
  split.
  - intros ops es pool id Hrun. apply exec_create. eapply run_inv; eauto.
  - vm_compute. reflexivity.
Qed.

End PipePool.
