(* ===== verification/FdTable.v ===== *)
(** * File-descriptor tables (src/kernel/src/fs.rs, [FdTable])

    The data of open files and the table of sixteen descriptors, with the
    operations that need nothing but the table and the global pipe pool:
    allocation, lookup, close, [dup2], [fork_copy] and the offsets used by
    [lseek].  Reading and writing files is in Vfs.v.  Descriptors are [i32]
    values, kept as [Z]; a table is the array of optional entries. *)

From S2P Require Import Prelude Abi Pipe.
Import Abi.

Module FdTable.

Definition MAX_FDS : nat := 16.
Definition FIRST_NONSTD_FD : nat := 3.

Definition O_RDONLY : Z := 0x0000.
Definition O_WRONLY : Z := 0x0001.
Definition O_RDWR : Z := 0x0002.
Definition O_CREAT : Z := 0x0040.
Definition O_TRUNC : Z := 0x0200.
Definition O_APPEND : Z := 0x0400.

Inductive FileType : Type := File | Directory.

Global Instance FileType_eq_dec : EqDecision FileType.
Proof. solve_decision. Defined.

Record OpenFile : Type := mkOpenFile {
  of_node_index : nat; of_offset : nat; of_flags : Z }.
Record OpenDiskFile : Type := mkOpenDiskFile {
  od_inode : Z; od_offset : nat; od_flags : Z }.
Record OpenTmpfsFile : Type := mkOpenTmpfsFile {
  ot_inode : Z; ot_offset : nat; ot_flags : Z }.
Record OpenFat32File : Type := mkOpenFat32File {
  o3_cluster : Z; o3_size : Z; o3_is_dir : bool; o3_offset : nat; o3_flags : Z }.

Global Instance OpenFile_eq_dec : EqDecision OpenFile.
Proof. solve_decision. Defined.
Global Instance OpenDiskFile_eq_dec : EqDecision OpenDiskFile.
Proof. solve_decision. Defined.
Global Instance OpenTmpfsFile_eq_dec : EqDecision OpenTmpfsFile.
Proof. solve_decision. Defined.
Global Instance OpenFat32File_eq_dec : EqDecision OpenFat32File.
Proof. solve_decision. Defined.

(** [enum FdKind]; the constructors carry the prefix [Fd]. *)
Inductive FdKind : Type :=
  | FdFile (open : OpenFile) (writable : bool)
  | FdDirectory (open : OpenFile)
  | FdDiskFile (open : OpenDiskFile)
  | FdDiskDirectory (open : OpenDiskFile)
  | FdTmpfsFile (open : OpenTmpfsFile)
  | FdTmpfsDirectory (open : OpenTmpfsFile)
  | FdFat32File (open : OpenFat32File)
  | FdFat32Directory (open : OpenFat32File)
  | FdPipeRead (pipe_id : nat)
  | FdPipeWrite (pipe_id : nat).

Global Instance FdKind_eq_dec : EqDecision FdKind.
Proof. solve_decision. Defined.

(** [struct FdTable]. *)
Notation FdTable := (list (option FdKind)).

Definition new : FdTable := replicate MAX_FDS None.

(** The loop of [allocate_fd] from descriptor [fd] on, [n] left. *)
Fixpoint allocate_fd_from (t : FdTable) (fd n : nat) : outcome (result nat ErrorCode) :=
  match n with
  | O => Done (Err EMFILE)
  | S n' =>
      let! entry := index t fd in
      match entry with
      | None => Done (Ok fd)
      | Some _ => allocate_fd_from t (S fd) n'
      end
  end.

(** [allocate_fd]: the lowest free descriptor from 3 on. *)
Definition allocate_fd (t : FdTable) : outcome (result nat ErrorCode) :=
  allocate_fd_from t FIRST_NONSTD_FD (MAX_FDS - FIRST_NONSTD_FD).

(** [open_pipe_read] and [open_pipe_write]: store the given kind in the lowest
    free descriptor. *)
Definition open_kind (t : FdTable) (kind : FdKind) : outcome (result nat ErrorCode * FdTable) :=
  let! r := allocate_fd t in
  match r with
  | Err e => Done (Err e, t)
  | Ok fd => let! t' := index_set t fd (Some kind) in Done (Ok fd, t')
  end.

Definition open_pipe_read (t : FdTable) (pipe_id : nat) := open_kind t (FdPipeRead pipe_id).
Definition open_pipe_write (t : FdTable) (pipe_id : nat) := open_kind t (FdPipeWrite pipe_id).

(** [fd < 0 || fd as usize >= MAX_FDS]. *)
Definition fd_out_of_range (fd : Z) : bool := (fd <? 0) || (Z.of_nat MAX_FDS <=? fd).

(** The checks shared by [get], [read], [write] and the offset operations:
    out-of-range and standard descriptors are [EBADF], then the slot. *)
Definition get (t : FdTable) (fd : Z) : outcome (result FdKind ErrorCode) :=
  if fd_out_of_range fd then Done (Err EBADF)
  else if fd <? Z.of_nat FIRST_NONSTD_FD then Done (Err EBADF)
  else
    let! entry := index t (Z.to_nat fd) in
    Done (match entry with Some kind => Ok kind | None => Err EBADF end).

(** The pipe end of an entry is closed; other kinds need no cleanup. *)
Definition close_kind (kind : FdKind) (pool : list Pipe.Pipe)
    : result unit ErrorCode * list Pipe.Pipe :=
  match kind with
  | FdPipeRead pipe_id => PipePool.close_read_end pool pipe_id
  | FdPipeWrite pipe_id => PipePool.close_write_end pool pipe_id
  | _ => (Ok tt, pool)
  end.

(** [close]: the slot is emptied before the pipe end is closed. *)
Definition close (t : FdTable) (pool : list Pipe.Pipe) (fd : Z)
    : outcome (result unit ErrorCode * FdTable * list Pipe.Pipe) :=
  if fd_out_of_range fd then Done (Err EBADF, t, pool)
  else if fd <? Z.of_nat FIRST_NONSTD_FD then Done (Err EINVAL, t, pool)
  else
    let! entry := index t (Z.to_nat fd) in
    match entry with
    | Some kind =>
        let! t' := index_set t (Z.to_nat fd) None in
        let (r, pool') := close_kind kind pool in
        Done (r, t', pool')
    | None => Done (Err EBADF, t, pool)
    end.

(** One more reference to the pipe end of an entry. *)
Definition dup_kind (kind : FdKind) (pool : list Pipe.Pipe)
    : result unit ErrorCode * list Pipe.Pipe :=
  match kind with
  | FdPipeRead pipe_id => PipePool.open_read_end pool pipe_id
  | FdPipeWrite pipe_id => PipePool.open_write_end pool pipe_id
  | _ => (Ok tt, pool)
  end.

(** [dup2]: closes [newfd] first unless it is a standard descriptor. *)
Definition dup2 (t : FdTable) (pool : list Pipe.Pipe) (oldfd newfd : Z)
    : outcome (result unit ErrorCode * FdTable * list Pipe.Pipe) :=
  if fd_out_of_range oldfd then Done (Err EBADF, t, pool)
  else if fd_out_of_range newfd then Done (Err EBADF, t, pool)
  else if oldfd <? Z.of_nat FIRST_NONSTD_FD then Done (Err EINVAL, t, pool)
  else
    let! old := index t (Z.to_nat oldfd) in
    match old with
    | None => Done (Err EBADF, t, pool)
    | Some old_kind =>
        let! entry := index t (Z.to_nat newfd) in
        let! (r, t1, pool1) :=
          (if (Z.of_nat FIRST_NONSTD_FD <=? newfd) && bool_decide (is_Some entry)
           then close t pool newfd else Done (Ok tt, t, pool)) in
        match r with
        | Err e => Done (Err e, t1, pool1)
        | Ok _ =>
            let (r2, pool2) := dup_kind old_kind pool1 in
            match r2 with
            | Err e => Done (Err e, t1, pool2)
            | Ok _ =>
                let! t2 := index_set t1 (Z.to_nat newfd) (Some old_kind) in
                Done (Ok tt, t2, pool2)
            end
        end
    end.

(** The loop of [fork_copy] over the entries: stops at the first error. *)
Fixpoint fork_refs (entries : list (option FdKind)) (pool : list Pipe.Pipe)
    : result unit ErrorCode * list Pipe.Pipe :=
  match entries with
  | [] => (Ok tt, pool)
  | None :: rest => fork_refs rest pool
  | Some kind :: rest =>
      let (r, pool') := dup_kind kind pool in
      match r with
      | Ok _ => fork_refs rest pool'
      | Err e => (Err e, pool')
      end
  end.

(** [fork_copy]. *)
Definition fork_copy (t : FdTable) (pool : list Pipe.Pipe)
    : result FdTable ErrorCode * list Pipe.Pipe :=
  let (r, pool') := fork_refs t pool in
  (match r with Ok _ => Ok t | Err e => Err e end, pool').

(** [get_offset]: the offset as an [i64]. *)
Definition get_offset (t : FdTable) (fd : Z) : outcome (result Z ErrorCode) :=
  let! r := get t fd in
  Done (let? kind := r in
        match kind with
        | FdFile open _ => Ok (Z.of_nat (of_offset open))
        | FdDiskFile open => Ok (Z.of_nat (od_offset open))
        | FdTmpfsFile open => Ok (Z.of_nat (ot_offset open))
        | FdFat32File open => Ok (Z.of_nat (o3_offset open))
        | FdDirectory _ | FdDiskDirectory _ | FdTmpfsDirectory _ | FdFat32Directory _ =>
            Err EISDIR
        | FdPipeRead _ | FdPipeWrite _ => Err ESPIPE
        end).

(** The entry with another offset. *)
Definition with_offset (kind : FdKind) (off : nat) : FdKind :=
  match kind with
  | FdFile open w => FdFile (mkOpenFile (of_node_index open) off (of_flags open)) w
  | FdDirectory open => FdDirectory (mkOpenFile (of_node_index open) off (of_flags open))
  | FdDiskFile open => FdDiskFile (mkOpenDiskFile (od_inode open) off (od_flags open))
  | FdDiskDirectory open => FdDiskDirectory (mkOpenDiskFile (od_inode open) off (od_flags open))
  | FdTmpfsFile open => FdTmpfsFile (mkOpenTmpfsFile (ot_inode open) off (ot_flags open))
  | FdTmpfsDirectory open =>
      FdTmpfsDirectory (mkOpenTmpfsFile (ot_inode open) off (ot_flags open))
  | FdFat32File open =>
      FdFat32File (mkOpenFat32File (o3_cluster open) (o3_size open) (o3_is_dir open) off (o3_flags open))
  | FdFat32Directory open =>
      FdFat32Directory (mkOpenFat32File (o3_cluster open) (o3_size open) (o3_is_dir open) off (o3_flags open))
  | FdPipeRead _ | FdPipeWrite _ => kind
  end.

(** [set_offset]: the range checks, the sign check, then the slot. *)
Definition set_offset (t : FdTable) (fd new_offset : Z)
    : outcome (result Z ErrorCode * FdTable) :=
  if fd_out_of_range fd then Done (Err EBADF, t)
  else if fd <? Z.of_nat FIRST_NONSTD_FD then Done (Err EBADF, t)
  else if new_offset <? 0 then Done (Err EINVAL, t)
  else
    let! entry := index t (Z.to_nat fd) in
    match entry with
    | None => Done (Err EBADF, t)
    | Some kind =>
        match kind with
        | FdFile _ _ | FdDiskFile _ | FdTmpfsFile _ | FdFat32File _ =>
            let! t' := index_set t (Z.to_nat fd) (Some (with_offset kind (Z.to_nat new_offset))) in
            Done (Ok new_offset, t')
        | FdDirectory _ | FdDiskDirectory _ | FdTmpfsDirectory _ | FdFat32Directory _ =>
            Done (Err EISDIR, t)
        | FdPipeRead _ | FdPipeWrite _ => Done (Err ESPIPE, t)
        end
    end.

(** [update_directory_offset] (for getdents64). *)
Definition update_directory_offset (t : FdTable) (fd : Z) (new_offset : nat)
    : outcome (result unit ErrorCode * FdTable) :=
  let! r := get t fd in
  match r with
  | Err e => Done (Err e, t)
  | Ok kind =>
      match kind with
      | FdDirectory _ | FdDiskDirectory _ | FdTmpfsDirectory _ | FdFat32Directory _ =>
          let! t' := index_set t (Z.to_nat fd) (Some (with_offset kind new_offset)) in
          Done (Ok tt, t')
      | _ => Done (Err ENOTDIR, t)
      end
  end.

(** The table and pool part of the [pipe] system call (main.rs,
    [pipe_handler]): create a pipe, then open its two ends.  On an error the
    ends opened so far, and the pipe, stay open. *)
Definition pipe_open (t : FdTable) (pool : list Pipe.Pipe)
    : outcome (result (nat * nat) ErrorCode * FdTable * list Pipe.Pipe) :=
  let (r, pool1) := PipePool.pipe_create pool in
  match r with
  | Err e => Done (Err e, t, pool1)
  | Ok (read_id, write_id) =>
      let! (r1, t1) := open_pipe_read t read_id in
      match r1 with
      | Err e => Done (Err e, t1, pool1)
      | Ok read_fd =>
          let! (r2, t2) := open_pipe_write t1 write_id in
          match r2 with
          | Err e => Done (Err e, t2, pool1)
          | Ok write_fd => Done (Ok (read_fd, write_fd), t2, pool1)
          end
      end
  end.

(** ** All the tables of the system and the pipe pool *)

(** A descriptor operation of the process that owns table [i]. *)
Inductive op : Type :=
  | OpPipe (i : nat)
  | OpClose (i : nat) (fd : Z)
  | OpDup2 (i : nat) (oldfd newfd : Z)
  | OpFork (i : nat)
  | OpWrite (i : nat) (fd : Z) (data : list Z)
  | OpRead (i : nat) (fd : Z) (n : nat).

Record Sys : Type := mkSys { tables : list FdTable; pool : list Pipe.Pipe }.

Definition init : Sys := mkSys [new] PipePool.new.

(** The pipe part of the [write] and [read] system calls (main.rs). *)
Definition pipe_transfer (t : FdTable) (pool : list Pipe.Pipe) (fd : Z) (data : list Z + nat) : outcome (list Pipe.Pipe) :=
  let! r := get t fd in
  match r, data with
  | Ok (FdPipeWrite id), inl data => let! (_, pool') := PipePool.write pool id data in Done pool'
  | Ok (FdPipeRead id), inr n => let! (_, _, pool') := PipePool.read pool id (replicate n 0) in Done pool'
  | _, _ => Done pool
  end.

(** One operation; [None] when process [i] does not exist. *)
Definition exec (s : Sys) (o : op) : outcome (option Sys) :=
  let at_table i (f : FdTable -> outcome (FdTable * list Pipe.Pipe)) :=
    match tables s !! i with
    | None => Done None
    | Some t => let! (t', pool') := f t in
                Done (Some (mkSys (<[i := t']> (tables s)) pool'))
    end in
  match o with
  | OpPipe i => at_table i (fun t =>
      let! (_, t', pool') := pipe_open t (pool s) in Done (t', pool'))
  | OpClose i fd => at_table i (fun t =>
      let! (_, t', pool') := close t (pool s) fd in Done (t', pool'))
  | OpDup2 i oldfd newfd => at_table i (fun t =>
      let! (_, t', pool') := dup2 t (pool s) oldfd newfd in Done (t', pool'))
  | OpFork i =>
      match tables s !! i with
      | None => Done None
      | Some t =>
          let (r, pool') := fork_copy t (pool s) in
          Done (Some (mkSys (match r with Ok t' => tables s ++ [t'] | Err _ => tables s end) pool'))
      end
  | OpWrite i fd data => at_table i (fun t => let! pool' := pipe_transfer t (pool s) fd (inl data) in Done (t, pool'))
  | OpRead i fd n => at_table i (fun t => let! pool' := pipe_transfer t (pool s) fd (inr n) in Done (t, pool'))
  end.

(** States reached by operations of existing processes. *)
Inductive reachable : Sys -> Prop :=
  | reach_init : reachable init
  | reach_step s o s' : reachable s -> exec s o = Done (Some s') -> reachable s'.

(** ** Counting references *)

(** How many entries of [t] are exactly [k]. *)
Definition count_kind (k : FdKind) (t : FdTable) : nat :=
  length (filter (fun e => e = Some k) t).

(** References to [k] from all tables. *)
Definition refs (k : FdKind) (ts : list FdTable) : nat := sum_list (count_kind k <$> ts).

(** What the pool counts for a pipe end; nothing is counted for other kinds. *)
Definition end_refs (pl : list Pipe.Pipe) (k : FdKind) : option Z :=
  match k with
  | FdPipeRead id => Some (match pl !! id with Some p => Pipe.read_refcount p | None => 0 end)
  | FdPipeWrite id => Some (match pl !! id with Some p => Pipe.write_refcount p | None => 0 end)
  | _ => None
  end.

(** Every pipe end held by a table is counted by its pipe. *)
Definition accounted (s : Sys) : Prop :=
  forall k c, end_refs (pool s) k = Some c -> Z.of_nat (refs k (tables s)) <= c.

Record inv (s : Sys) : Prop := mkInv {
  inv_tables : Forall (fun t => length t = MAX_FDS) (tables s);
  inv_pool : PipePool.pool_inv (pool s);
  inv_accounted : accounted s
}.

(** The pool counts [f] more or less for [kind], and the same for others. *)
Definition ends_change (pl pl' : list Pipe.Pipe) (kind : FdKind) (f : Z -> Z) : Prop :=
  forall k, end_refs pl' k = (fun c => if decide (k = kind) then f c else c) <$> end_refs pl k.

(** The accounting seen from one table: [o] references are held elsewhere. *)
Definition acc (o : FdKind -> nat) (t : FdTable) (pl : list Pipe.Pipe) : Prop :=
  length t = MAX_FDS /\ PipePool.pool_inv pl
  /\ (forall k c, end_refs pl k = Some c -> Z.of_nat (o k + count_kind k t) <= c)
  /\ (forall k, Z.of_nat (o k + MAX_FDS) <= USIZE_MAX).

Definition small (s : Sys) : Prop := Z.of_nat (MAX_FDS * (length (tables s) + 1)) <= USIZE_MAX.

(** ** Lemmas on tables *)

Lemma fd_range fd :
  fd_out_of_range fd = false <-> 0 <= fd < 16.
Proof. unfold fd_out_of_range, MAX_FDS. lia. Qed.

Lemma count_insert (k : FdKind) (t : FdTable) i a b :
  t !! i = Some a ->
  (count_kind k (<[i := b]> t) + (if decide (a = Some k) then 1 else 0)
   = count_kind k t + (if decide (b = Some k) then 1 else 0))%nat.
Proof.
  intros H. unfold count_kind. pose proof (take_drop_middle t i a H) as E.
  apply lookup_lt_Some in H as Hlt. rewrite <- E at 2.
  rewrite insert_take_drop by assumption.
  rewrite !filter_app, !filter_cons, !length_app.
  repeat case_decide; cbn [length]; lia.
Qed.

Lemma count_new k : count_kind k new = 0%nat.
Proof. reflexivity. Qed.

Lemma refs_insert k ts i t t' :
  ts !! i = Some t ->
  (refs k (<[i := t']> ts) + count_kind k t = refs k ts + count_kind k t')%nat.
Proof.
  intros H. unfold refs. rewrite list_fmap_insert. apply sum_list_insert.
  now rewrite list_lookup_fmap, H.
Qed.

Lemma refs_app k ts t : refs k (ts ++ [t]) = (refs k ts + count_kind k t)%nat.
Proof.
  unfold refs. rewrite fmap_app, sum_list_app'. cbn. lia.
Qed.

Lemma count_le k t ts i : ts !! i = Some t -> (count_kind k t <= refs k ts)%nat.
Proof.
  intros H. pose proof (refs_insert k ts i t new H). rewrite count_new in *. lia.
Qed.

Lemma allocate_fd_from_spec (t : FdTable) n : forall fd,
  (fd + n <= length t)%nat ->
  (forall k, (fd <= k < fd + n)%nat -> exists e, t !! k = Some (Some e))
    /\ allocate_fd_from t fd n = Done (Err EMFILE)
  \/ exists k, (fd <= k < fd + n)%nat /\ t !! k = Some None
    /\ (forall j, (fd <= j < k)%nat -> exists e, t !! j = Some (Some e))
    /\ allocate_fd_from t fd n = Done (Ok k).
Proof.
  induction n as [|n IH]; intros fd Hn; cbn [allocate_fd_from].
  { left. split; [intros; lia|reflexivity]. }
  destruct (index_lt t fd ltac:(lia)) as (e & He & ->). cbn [bind].
  destruct e as [e|]; [|right; exists fd; repeat split; try lia; assumption].
  destruct (IH (S fd) ltac:(lia)) as [[Hall ->]|(k & Hk & Hn' & Hlt & ->)].
  - left. split; [|reflexivity]. intros k Hk.
    destruct (decide (k = fd)) as [->|]; [eauto|]. apply Hall. lia.
  - right. exists k. repeat split; try lia; [assumption|]. intros j Hj.
    destruct (decide (j = fd)) as [->|]; [eauto|]. apply Hlt. lia.
Qed.

Lemma open_kind_spec (t : FdTable) kind :
  length t = MAX_FDS ->
  open_kind t kind = Done (Err EMFILE, t)
  \/ exists fd, (3 <= fd < 16)%nat /\ t !! fd = Some None
     /\ (forall j, (3 <= j < fd)%nat -> exists e, t !! j = Some (Some e))
     /\ open_kind t kind = Done (Ok fd, <[fd := Some kind]> t).
Proof.
  intros Hlen. unfold open_kind, allocate_fd.
  destruct (allocate_fd_from_spec t (MAX_FDS - FIRST_NONSTD_FD) FIRST_NONSTD_FD)
    as [[_ ->]|(k & Hk & Hn & Hlt & ->)]; [rewrite Hlen; unfold MAX_FDS, FIRST_NONSTD_FD; lia|auto|].
  right. exists k. unfold MAX_FDS, FIRST_NONSTD_FD in *. cbn [bind].
  rewrite index_set_lt by lia. repeat split; try lia; assumption.
Qed.

(** ** Lemmas on pipe ends *)

Lemma end_refs_insert pl id p p' k :
  pl !! id = Some p ->
  end_refs (<[id := p']> pl) k
  = if decide (k = FdPipeRead id) then Some (Pipe.read_refcount p')
    else if decide (k = FdPipeWrite id) then Some (Pipe.write_refcount p')
    else end_refs pl k.
Proof.
  intros H. apply lookup_lt_Some in H as Hlt.
  destruct k; cbn [end_refs]; repeat case_decide; try congruence; try discriminate;
    match goal with
    | E : _ _ = _ _ |- _ => injection E as ->; now rewrite list_lookup_insert_eq
    | _ => now rewrite list_lookup_insert_ne by congruence
    | _ => reflexivity
    end.
Qed.

(** Closing or duplicating a counted end succeeds and moves its count by one. *)
Lemma update_end_counts f pl id (kind : FdKind) (g : Z -> Z) :
  (forall p, Pipe.inv p -> Pipe.inv (f p) /\ Pipe.contents (f p) = Pipe.contents p) ->
  (forall p, kind = FdPipeRead id /\ Pipe.read_refcount (f p) = g (Pipe.read_refcount p)
        /\ Pipe.write_refcount (f p) = Pipe.write_refcount p
     \/ kind = FdPipeWrite id /\ Pipe.write_refcount (f p) = g (Pipe.write_refcount p)
        /\ Pipe.read_refcount (f p) = Pipe.read_refcount p) ->
  PipePool.pool_inv pl ->
  exists r pl', PipePool.update_end f pl id = (r, pl') /\ PipePool.pool_inv pl' /\
    (r = Ok tt /\ ends_change pl pl' kind g
     \/ r = Err EBADF /\ pl' = pl /\ forall c, end_refs pl kind = Some c -> c <= 0).
Proof.
  intros Hf Hg Hinv. destruct (PipePool.update_end f pl id) as [r pl'] eqn:E.
  exists r, pl'. split; [reflexivity|]. pose proof (PipePool.update_end_spec f pl id Hinv Hf) as [Hi _].
  rewrite E in Hi. split; [exact Hi|]. unfold PipePool.update_end in E.
  destruct (PipePool.get pl id) as [p|] eqn:Hget.
  - injection E as <- <-. left. split; [reflexivity|]. apply PipePool.get_Some in Hget as [Hp _].
    intros k. rewrite (end_refs_insert pl id p (f p) k Hp).
    specialize (Hg p). destruct Hg as [(-> & Hr & Hw)|(-> & Hw & Hr)].
    + case_decide as E1; [subst k; cbn; now rewrite Hp, Hr|].
      case_decide as E2; [subst k; cbn; now rewrite Hp, Hw|]. now destruct (end_refs pl k).
    + case_decide as E1; [subst k; cbn; now rewrite Hp, Hr|].
      case_decide as E2; [subst k; cbn; now rewrite Hp, Hw|]. now destruct (end_refs pl k).
  - injection E as <- <-. right. split; [reflexivity|]. split; [reflexivity|]. intros c Hc.
    unfold PipePool.get in Hget. destruct (pl !! id) as [p|] eqn:Hp.
    + destruct (Pipe.is_allocated p) eqn:Ha; [discriminate|]. unfold Pipe.is_allocated in Ha.
      destruct (Hg p) as [(-> & _)|(-> & _)]; cbn in Hc; rewrite Hp in Hc; injection Hc as <-; lia.
    + destruct (Hg Pipe.new) as [(-> & _)|(-> & _)]; cbn in Hc; rewrite Hp in Hc;
        injection Hc as <-; lia.
Qed.

Lemma dup_kind_spec kind pl :
  PipePool.pool_inv pl ->
  exists r pl', dup_kind kind pl = (r, pl') /\ PipePool.pool_inv pl' /\
    (r = Ok tt /\ ends_change pl pl' kind (fun c => saturating_add USIZE_MAX c 1)
     \/ r = Err EBADF /\ pl' = pl /\ exists c, end_refs pl kind = Some c /\ c <= 0).
Proof.
  intros Hinv. destruct kind; cbn [dup_kind].
  1-8: exists (Ok tt), pl; split; [reflexivity|]; split; [assumption|]; left;
    split; [reflexivity|]; intros k; case_decide as E; [subst k; reflexivity|];
    now destruct (end_refs pl k).
  - destruct (update_end_counts Pipe.open_read pl pipe_id (FdPipeRead pipe_id)
      (fun c => saturating_add USIZE_MAX c 1)) as (r & pl' & E & Hi & H);
      [intros p Hp; split; [apply (Pipe.inv_open_close p Hp)|reflexivity]|left; auto|assumption|].
    exists r, pl'. split; [exact E|]. split; [assumption|].
    destruct H as [H|(-> & -> & H)]; [auto|]. right. cbn in *. eauto 10.
  - destruct (update_end_counts Pipe.open_write pl pipe_id (FdPipeWrite pipe_id)
      (fun c => saturating_add USIZE_MAX c 1)) as (r & pl' & E & Hi & H);
      [intros p Hp; split; [apply (Pipe.inv_open_close p Hp)|reflexivity]|right; auto|assumption|].
    exists r, pl'. split; [exact E|]. split; [assumption|].
    destruct H as [H|(-> & -> & H)]; [auto|]. right. cbn in *. eauto 10.
Qed.

Lemma close_kind_spec kind pl :
  PipePool.pool_inv pl ->
  exists r pl', close_kind kind pl = (r, pl') /\ PipePool.pool_inv pl' /\
    (r = Ok tt /\ ends_change pl pl' kind (fun c => saturating_sub c 1)
     \/ r = Err EBADF /\ pl' = pl /\ exists c, end_refs pl kind = Some c /\ c <= 0).
Proof.
  intros Hinv. destruct kind; cbn [close_kind].
  1-8: exists (Ok tt), pl; split; [reflexivity|]; split; [assumption|]; left;
    split; [reflexivity|]; intros k; case_decide as E; [subst k; reflexivity|];
    now destruct (end_refs pl k).
  - destruct (update_end_counts Pipe.close_read pl pipe_id (FdPipeRead pipe_id)
      (fun c => saturating_sub c 1)) as (r & pl' & E & Hi & H);
      [intros p Hp; split; [apply (Pipe.inv_open_close p Hp)|reflexivity]|left; auto|assumption|].
    exists r, pl'. split; [exact E|]. split; [assumption|].
    destruct H as [H|(-> & -> & H)]; [auto|]. right. cbn in *. eauto 10.
  - destruct (update_end_counts Pipe.close_write pl pipe_id (FdPipeWrite pipe_id)
      (fun c => saturating_sub c 1)) as (r & pl' & E & Hi & H);
      [intros p Hp; split; [apply (Pipe.inv_open_close p Hp)|reflexivity]|right; auto|assumption|].
    exists r, pl'. split; [exact E|]. split; [assumption|].
    destruct H as [H|(-> & -> & H)]; [auto|]. right. cbn in *. eauto 10.
Qed.


(** ** The accounting invariant *)

Lemma count_length k t : (count_kind k t <= length t)%nat.
Proof. apply length_filter. Qed.

Lemma entry_counted k (t : FdTable) i : t !! i = Some (Some k) -> (0 < count_kind k t)%nat.
Proof.
  intros H. pose proof (count_insert k t i (Some k) None H) as E.
  rewrite decide_True in E by reflexivity. rewrite decide_False in E by discriminate. lia.
Qed.

Lemma close_acc o t pl fd :
  acc o t pl ->
  exists r t' pl', close t pl fd = Done (r, t', pl') /\ acc o t' pl' /\
    match r with
    | Ok _ => 3 <= fd < 16 /\ t' = <[Z.to_nat fd := None]> t
        /\ exists kind, t !! Z.to_nat fd = Some (Some kind)
    | Err e => t' = t /\ pl' = pl
        /\ (fd < 0 \/ 16 <= fd \/ 0 <= fd < 3 \/ t !! Z.to_nat fd = Some None)
    end.
Proof.
  intros Hacc. pose proof Hacc as (Hlen & Hpool & Hcount & Hbound). unfold close.
  destruct (fd_out_of_range fd) eqn:Hr.
  { unfold fd_out_of_range, MAX_FDS in Hr. do 3 eexists. split; [reflexivity|].
    split; [assumption|]. repeat split. lia. }
  apply fd_range in Hr. unfold FIRST_NONSTD_FD. destruct (Z.ltb_spec fd (Z.of_nat 3)) as [Hs|Hs].
  { do 3 eexists. split; [reflexivity|]. split; [assumption|]. repeat split. lia. }
  destruct (index_lt t (Z.to_nat fd)) as (e & He & ->); [unfold MAX_FDS in Hlen; lia|]. cbn [bind].
  destruct e as [kind|]; [|do 3 eexists; split; [reflexivity|]; auto 10].
  apply lookup_lt_Some in He as Hlt. rewrite index_set_lt by assumption. cbn [bind].
  destruct (close_kind_spec kind pl Hpool) as (r & pl' & -> & Hi & H).
  do 3 eexists. split; [reflexivity|].
  pose proof (entry_counted _ _ _ He) as Hpos.
  destruct H as [(-> & Hch)|(-> & -> & c & Hc & Hle)].
  2:{ specialize (Hcount kind c Hc). lia. }
  split; [|repeat split; try lia; eauto]. repeat split; try assumption; try apply Hi.
  - now rewrite length_insert.
  - intros k c'. rewrite (Hch k). destruct (end_refs pl k) as [c|] eqn:Hc; [|discriminate].
    specialize (Hcount k c Hc). pose proof (count_insert k t _ _ None He) as Hci.
    rewrite (decide_False (P := None = Some k)) in Hci by discriminate.
    cbn. intros [= <-]. unfold saturating_sub. destruct (decide (k = kind)) as [->|Hne].
    + rewrite decide_True in Hci by reflexivity. lia.
    + rewrite decide_False in Hci by congruence. lia.
Qed.

(** Storing a duplicated kind over an existing entry. *)
Lemma store_acc o t pl pl' i kind :
  acc o t pl -> (i < MAX_FDS)%nat -> PipePool.pool_inv pl' ->
  ends_change pl pl' kind (fun c => saturating_add USIZE_MAX c 1) ->
  acc o (<[i := Some kind]> t) pl'.
Proof.
  intros (Hlen & Hpool & Hcount & Hbound) Hi Hp Hch. repeat split; try assumption; try apply Hp.
  - now rewrite length_insert.
  - intros k c'. rewrite (Hch k). destruct (end_refs pl k) as [c|] eqn:Hc; [|discriminate].
    destruct (index_lt t i ltac:(lia)) as (a & Ha & _).
    specialize (Hcount k c Hc). pose proof (count_insert k t i a (Some kind) Ha) as Hci.
    pose proof (count_length k (<[i := Some kind]> t)) as Hcl. rewrite length_insert, Hlen in Hcl.
    specialize (Hbound k). cbn. intros [= <-]. unfold saturating_add.
    destruct (decide (k = kind)) as [->|Hne].
    + rewrite (decide_True (P := Some kind = Some kind)) in Hci by reflexivity. lia.
    + rewrite (decide_False (P := Some kind = Some k)) in Hci by congruence. lia.
Qed.

Lemma dup2_acc o t pl oldfd newfd :
  acc o t pl ->
  exists r t' pl', dup2 t pl oldfd newfd = Done (r, t', pl') /\ acc o t' pl'.
Proof.
  intros Hacc. pose proof Hacc as (Hlen & Hpool & Hcount & Hbound). unfold dup2.
  destruct (fd_out_of_range oldfd) eqn:Hr1; [eauto 10|].
  destruct (fd_out_of_range newfd) eqn:Hr2; [eauto 10|].
  apply fd_range in Hr1, Hr2. destruct (oldfd <? _); [eauto 10|]. unfold MAX_FDS in Hlen.
  destruct (index_lt t (Z.to_nat oldfd)) as (e & He & ->); [lia|]. cbn [bind].
  destruct e as [old_kind|]; [|eauto 10].
  destruct (index_lt t (Z.to_nat newfd)) as (e2 & He2 & ->); [lia|]. cbn [bind].
  assert (exists r t1 pl1, (if (Z.of_nat FIRST_NONSTD_FD <=? newfd) && bool_decide (is_Some e2)
      then close t pl newfd else Done (Ok tt, t, pl)) = Done (r, t1, pl1) /\ acc o t1 pl1)
    as (r & t1 & pl1 & -> & Hacc1).
  { case_match; [|eauto 10]. destruct (close_acc o t pl newfd Hacc) as (r & t1 & pl1 & ? & ? & _).
    eauto 10. }
  cbn [bind]. destruct r as [[]|e]; [|eauto 10].
  destruct (dup_kind_spec old_kind pl1 (proj1 (proj2 Hacc1))) as (r2 & pl2 & -> & Hi2 & H).
  destruct H as [(-> & Hch)|(-> & -> & _)]; [|eauto 10].
  rewrite index_set_lt by (destruct Hacc1 as [-> _]; unfold MAX_FDS; lia). cbn [bind].
  do 3 eexists. split; [reflexivity|]. eapply store_acc; eauto. unfold MAX_FDS. lia.
Qed.

Lemma fork_refs_spec l : forall pl,
  PipePool.pool_inv pl ->
  (forall k c, end_refs pl k = Some c -> (0 < count_kind k l)%nat -> 0 < c) ->
  exists pl', fork_refs l pl = (Ok tt, pl') /\ PipePool.pool_inv pl'
    /\ forall k c, end_refs pl k = Some c -> 0 <= c ->
       exists c', end_refs pl' k = Some c'
         /\ Z.min USIZE_MAX (c + Z.of_nat (count_kind k l)) <= c'.
Proof.
  induction l as [|e l IH]; intros pl Hi Hpos; cbn [fork_refs].
  { exists pl. split; [reflexivity|]. split; [assumption|]. intros k c Hc H0.
    exists c. split; [assumption|]. unfold count_kind. cbn. lia. }
  assert (forall k, count_kind k (e :: l)
    = ((if decide (e = Some k) then 1 else 0) + count_kind k l)%nat) as Hcons
    by (intros k; unfold count_kind; rewrite filter_cons; case_decide; reflexivity).
  destruct e as [kind|].
  - destruct (dup_kind_spec kind pl Hi) as (r & pl1 & -> & Hi1 & H).
    destruct H as [(-> & Hch)|(-> & _ & c & Hc & Hle)].
    2:{ specialize (Hpos kind c Hc). rewrite Hcons, decide_True in Hpos by reflexivity. lia. }
    destruct (IH pl1 Hi1) as (pl' & -> & Hi' & Hfinal).
    { intros k c1. rewrite (Hch k). destruct (end_refs pl k) as [c|] eqn:Hc; [|discriminate].
      cbn. intros [= <-] Hk. specialize (Hpos k c Hc ltac:(rewrite Hcons; lia)).
      unfold saturating_add, USIZE_MAX, U64_MAX. case_decide; lia. }
    exists pl'. split; [reflexivity|]. split; [assumption|]. intros k c Hc H0.
    destruct (Hfinal k (if decide (k = kind) then saturating_add USIZE_MAX c 1 else c)) as (c' & E & Hle).
    { rewrite (Hch k), Hc. reflexivity. }
    { unfold saturating_add, USIZE_MAX, U64_MAX. case_decide; lia. }
    exists c'. split; [assumption|]. rewrite Hcons. unfold saturating_add in Hle.
    destruct (decide (k = kind)) as [->|]; [rewrite decide_True by reflexivity; lia|].
    rewrite decide_False by congruence. lia.
  - destruct (IH pl Hi) as (pl' & E & Hi' & Hfinal).
    { intros k c Hc Hk. apply (Hpos k c Hc). rewrite Hcons. lia. }
    exists pl'. split; [assumption|]. split; [assumption|]. intros k c Hc H0.
    destruct (Hfinal k c Hc H0) as (c' & ? & ?). exists c'. split; [assumption|].
    rewrite Hcons. case_decide; [discriminate|]. lia.
Qed.


(** Nothing refers to a pipe that has no open end. *)
Lemma fresh_pipe_unreferenced o t pl pl1 rd :
  acc o t pl -> PipePool.pipe_create pl = (Ok (rd, rd), pl1) ->
  forall k, k = FdPipeRead rd \/ k = FdPipeWrite rd -> (o k + count_kind k t = 0)%nat.
Proof.
  intros (Hlen & Hpool & Hcount & _) E k Hk. unfold PipePool.pipe_create, PipePool.allocate in E.
  destruct (PipePool.allocate_from_spec pl 0) as [[_ Ha]|(i & p & Hi & Hp & _ & Ha)];
    rewrite Ha in E; [discriminate|]. injection E as <- _. cbn in Hk.
  destruct (PipePool.pool_lookup_inv _ _ _ Hpool Hi) as [_ _ _ _ Hrd Hwr].
  unfold Pipe.is_allocated in Hp.
  assert (exists c, end_refs pl k = Some c /\ c <= 0) as (c & Hc & Hle)
    by (destruct Hk as [-> | ->]; cbn; rewrite Hi; eexists; split; reflexivity || lia).
  specialize (Hcount k c Hc). lia.
Qed.

Lemma pipe_create_ends pl r pl' :
  PipePool.pool_inv pl -> PipePool.pipe_create pl = (r, pl') ->
  PipePool.pool_inv pl' /\
  match r with
  | Err _ => pl' = pl
  | Ok (rd, wr) => rd = wr /\ forall k, end_refs pl' k
      = if decide (k = FdPipeRead rd \/ k = FdPipeWrite wr) then Some 1 else end_refs pl k
  end.
Proof.
  intros Hinv E. pose proof (PipePool.exec_create pl Hinv) as [Hi _]. rewrite E in Hi.
  split; [exact Hi|]. unfold PipePool.pipe_create, PipePool.allocate in E.
  destruct (PipePool.allocate_from_spec pl 0) as [[_ Ha]|(k & p & Hk & Hp & _ & Ha)];
    rewrite Ha in E; injection E as <- <-; [reflexivity|]. split; [reflexivity|].
  intros j. rewrite (end_refs_insert pl k p _ j Hk).
  destruct (PipePool.pool_lookup_inv _ _ _ Hinv Hk) as [_ _ _ _ Hrd Hwr].
  unfold Pipe.is_allocated in Hp.
  assert (Pipe.read_refcount p = 0 /\ Pipe.write_refcount p = 0) as [Hr0 Hw0] by lia.
  unfold Pipe.open_write, Pipe.open_read, Pipe.with_refs. cbn. rewrite Hr0, Hw0.
  repeat case_decide; naive_solver.
Qed.

Lemma pipe_open_acc o t pl :
  acc o t pl -> exists r t' pl', pipe_open t pl = Done (r, t', pl') /\ acc o t' pl'.
Proof.
  intros Hacc. pose proof Hacc as (Hlen & Hpool & Hcount & Hbound). unfold pipe_open.
  destruct (PipePool.pipe_create pl) as [r pl1] eqn:Hcr.
  destruct (pipe_create_ends pl r pl1 Hpool Hcr) as [Hi H]. destruct r as [[rd wr]|e].
  2:{ subst pl1. eauto 10. }
  destruct H as [<- Hends]. pose proof (fresh_pipe_unreferenced o t pl pl1 rd Hacc Hcr) as Hz.
  assert (forall t', length t' = MAX_FDS ->
    (forall k, (count_kind k t' <= count_kind k t
       + if decide (k = FdPipeRead rd \/ k = FdPipeWrite rd) then 1 else 0)%nat) ->
    acc o t' pl1) as Hgoal.
  { intros t' Hl' Hc'. repeat split; try assumption; try apply Hi. intros k c Hk.
    rewrite (Hends k) in Hk. specialize (Hc' k). case_decide as Hd.
    - injection Hk as <-. specialize (Hz k Hd). lia.
    - specialize (Hcount k c Hk). lia. }
  unfold open_pipe_read, open_pipe_write.
  destruct (open_kind_spec t (FdPipeRead rd) Hlen) as [-> |(fd1 & Hf1 & Hn1 & _ & ->)]; cbn [bind].
  { do 3 eexists. split; [reflexivity|]. apply Hgoal; [assumption|]. intros. lia. }
  assert (forall k, (count_kind k (<[fd1 := Some (FdPipeRead rd)]> t)
    = count_kind k t + if decide (k = FdPipeRead rd) then 1 else 0)%nat) as Hc1.
  { intros k. pose proof (count_insert k t fd1 _ (Some (FdPipeRead rd)) Hn1) as E.
    repeat case_decide; naive_solver lia. }
  destruct (open_kind_spec (<[fd1 := Some (FdPipeRead rd)]> t) (FdPipeWrite rd))
    as [-> |(fd2 & Hf2 & Hn2 & _ & ->)]; cbn [bind]; [now rewrite length_insert| |].
  { do 3 eexists. split; [reflexivity|]. apply Hgoal; [now rewrite length_insert|].
    intros k. rewrite Hc1. repeat case_decide; naive_solver lia. }
  do 3 eexists. split; [reflexivity|]. apply Hgoal; [now rewrite !length_insert|].
  intros k. pose proof (count_insert k _ fd2 _ (Some (FdPipeWrite rd)) Hn2) as E.
  rewrite Hc1 in E. repeat case_decide; naive_solver lia.
Qed.


Lemma refs_bound k ts :
  Forall (fun t => length t = MAX_FDS) ts -> (refs k ts <= MAX_FDS * length ts)%nat.
Proof.
  induction 1 as [|t ts Ht _ IH]; [cbn; lia|]. unfold refs in *. rewrite fmap_cons.
  change (sum_list (?x :: ?k)) with (x + sum_list k)%nat.
  pose proof (count_length k t). cbn [length]. unfold MAX_FDS in *. lia.
Qed.

Lemma acc_of_inv s i t :
  inv s -> small s -> tables s !! i = Some t ->
  acc (fun k => refs k (tables s) - count_kind k t)%nat t (pool s).
Proof.
  intros [Ht Hp Ha] Hs Hi. split; [rewrite Forall_lookup in Ht; eauto|]. split; [assumption|].
  split; intros k.
  - intros c Hc. specialize (Ha k c Hc). pose proof (count_le k t _ _ Hi). lia.
  - pose proof (refs_bound k _ Ht). unfold small, MAX_FDS in *. lia.
Qed.

Lemma inv_of_acc s i t t' pl' :
  inv s -> tables s !! i = Some t ->
  acc (fun k => refs k (tables s) - count_kind k t)%nat t' pl' ->
  inv (mkSys (<[i := t']> (tables s)) pl').
Proof.
  intros [Ht Hp Ha] Hi (Hlen & Hpool & Hcount & _). constructor; cbn.
  - now apply Forall_insert.
  - assumption.
  - intros k c Hc. cbn [tables pool] in *. specialize (Hcount k c Hc).
    pose proof (refs_insert k _ i t t' Hi). pose proof (count_le k t _ _ Hi). lia.
Qed.

Lemma fork_inv s i t :
  inv s -> small s -> tables s !! i = Some t ->
  exists pl', fork_copy t (pool s) = (Ok t, pl') /\ inv (mkSys (tables s ++ [t]) pl').
Proof.
  intros Hinv Hs Hi. pose proof (acc_of_inv s i t Hinv Hs Hi) as (Hlen & Hpool & Hcount & _).
  destruct Hinv as [Ht _ Ha]. unfold fork_copy.
  destruct (fork_refs_spec t (pool s) Hpool) as (pl' & -> & Hi' & Hf).
  { intros k c Hc Hk. specialize (Hcount k c Hc). lia. }
  exists pl'. split; [reflexivity|]. constructor; cbn.
  - apply Forall_app. auto.
  - assumption.
  - intros k c' Hc'. cbn [tables pool] in *. rewrite refs_app. pose proof (refs_bound k _ Ht).
    pose proof (count_length k t). unfold small, MAX_FDS in *.
    destruct (end_refs (pool s) k) as [c|] eqn:Hc; [|destruct k; discriminate].
    specialize (Ha k c Hc). destruct (Hf k c Hc ltac:(lia)) as (c1 & E & Hle). 
    rewrite E in Hc'. injection Hc' as <-. rewrite Hlen in *. lia.
Qed.

(** Reading and writing pipes changes no count. *)
Lemma transfer_acc o t pl fd data : acc o t pl -> exists pl', pipe_transfer t pl fd data = Done pl' /\ acc o t pl'.
Proof.
  intros Hacc. pose proof Hacc as (Hlen & Hpool & Hcount & Hbound). unfold pipe_transfer.
  assert (forall pl', PipePool.pool_inv pl' -> (forall j, PipePool.ends <$> pl' !! j = PipePool.ends <$> pl !! j) -> acc o t pl') as Hk.
  { intros pl' Hi He. split; [exact Hlen|]. split; [exact Hi|]. split; [|exact Hbound]. intros k c Hc. apply Hcount. rewrite <- Hc.
    destruct k as [| | | | | | | |id|id]; try reflexivity; cbn; f_equal; specialize (He id);
      destruct (pl' !! id), (pl !! id); try discriminate He; [|reflexivity| |reflexivity]; injection He as ? ?; congruence. }
  assert (exists r, get t fd = Done r) as [r ->].
  { unfold get. repeat case_match; try (eexists; reflexivity). apply not_true_iff_false in H; unfold index.
    destruct (t !! Z.to_nat fd) as [[]|] eqn:E; try (eexists; reflexivity). apply lookup_ge_None in E. unfold MAX_FDS in *.
    apply not_true_is_false in H. apply fd_range in H. lia. }
  cbn [bind]. destruct r as [[]|], data; try (eexists; split; [reflexivity|exact Hacc]).
  - destruct (PipePool.pool_read_spec pl pipe_id (replicate n 0) Hpool) as (r & b & pl' & -> & Hi & He & _). exists pl'. split; [reflexivity|auto].
  - destruct (PipePool.pool_write_spec pl pipe_id l Hpool) as (r & pl' & -> & Hi & He & _). exists pl'. split; [reflexivity|auto].
Qed.

Lemma fd_exec_inv s o :
  inv s -> small s ->
  exists r, exec s o = Done r /\ forall s', r = Some s' ->
    inv s' /\ (length (tables s) <= length (tables s'))%nat.
Proof.
  intros Hinv Hs. destruct o; cbn [exec]; destruct (tables s !! i) as [t|] eqn:Hi;
    try (eexists; split; [reflexivity|]; intros s' [=]; fail);
    pose proof (acc_of_inv s i t Hinv Hs Hi) as Hacc.
  - destruct (pipe_open_acc _ _ _ Hacc) as (r & t' & pl' & -> & Hacc'). cbn [bind].
    eexists. split; [reflexivity|]. intros s' [= <-].
    split; [eapply inv_of_acc; eauto|]. cbn. now rewrite length_insert.
  - destruct (close_acc _ _ _ fd Hacc) as (r & t' & pl' & -> & Hacc' & _). cbn [bind].
    eexists. split; [reflexivity|]. intros s' [= <-].
    split; [eapply inv_of_acc; eauto|]. cbn. now rewrite length_insert.
  - destruct (dup2_acc _ _ _ oldfd newfd Hacc) as (r & t' & pl' & -> & Hacc'). cbn [bind].
    eexists. split; [reflexivity|]. intros s' [= <-].
    split; [eapply inv_of_acc; eauto|]. cbn. now rewrite length_insert.
  - destruct (fork_inv s i t Hinv Hs Hi) as (pl' & -> & Hi').
    eexists. split; [reflexivity|]. intros s' [= <-].
    split; [assumption|]. cbn. rewrite length_app. lia.
  - destruct (transfer_acc _ _ _ fd (inl data) Hacc) as (pl' & -> & Hacc'). cbn [bind].
    eexists. split; [reflexivity|]. intros s' [= <-].
    split; [eapply inv_of_acc; eauto|]. cbn. now rewrite length_insert.
  - destruct (transfer_acc _ _ _ fd (inr n) Hacc) as (pl' & -> & Hacc'). cbn [bind].
    eexists. split; [reflexivity|]. intros s' [= <-].
    split; [eapply inv_of_acc; eauto|]. cbn. now rewrite length_insert.
Qed.

Lemma inv_init : inv init.
Proof.
  constructor; cbn.
  - repeat constructor.
  - apply PipePool.pool_inv_new.
  - intros k c. assert (refs k [new] = 0%nat) as E by reflexivity. cbn [tables init]. rewrite E.
    destruct k; cbn [end_refs]; try discriminate; intros [= <-];
      (destruct (PipePool.new !! pipe_id) as [p|] eqn:Hp; [|lia]);
      apply lookup_replicate in Hp as [-> _]; cbn; lia.
Qed.

Lemma fd_reachable_inv s : reachable s -> small s -> inv s.
Proof.
  induction 1 as [|s o s' Hr IH He]; intros Hs; [apply inv_init|].
  assert (small s) as Hs0.
  { unfold small, MAX_FDS in *. enough (length (tables s) <= length (tables s'))%nat by lia.
    clear IH Hr Hs. destruct o; cbn [exec] in He; destruct (tables s !! i); try discriminate;
      cbn in He; try (apply bind_Done in He as ([] & _ & [= <-]); cbn; now rewrite length_insert).
    destruct (fork_copy _ _) as [[]]; injection He as <-; cbn; rewrite ?length_app; lia. }
  destruct (fd_exec_inv s o (IH Hs0) Hs0) as (r & E & H). rewrite He in E. injection E as <-.
  now apply H.
Qed.


Lemma get_in_range (t : FdTable) fd e :
  t !! Z.to_nat fd = Some e -> 3 <= fd < 16 ->
  get t fd = Done (match e with Some kind => Ok kind | None => Err EBADF end).
Proof.
  intros He Hfd. unfold get. replace (fd_out_of_range fd) with false
    by (symmetry; apply fd_range; lia). unfold FIRST_NONSTD_FD.
  replace (_ <? _) with false by lia. apply index_Done in He. now rewrite He.
Qed.

Lemma get_insert_ne (t : FdTable) i e fd :
  fd <> Z.of_nat i -> get (<[i := e]> t) fd = get t fd.
Proof.
  intros Hne. unfold get. destruct (fd_out_of_range fd) eqn:Hr; [reflexivity|].
  apply fd_range in Hr. case_match; [reflexivity|]. unfold index.
  now rewrite list_lookup_insert_ne by lia.
Qed.

(** One [pipe] call of the first process. *)
Lemma pipe_demo :
  exists s t, exec init (OpPipe 0) = Done (Some s) /\ tables s !! 0%nat = Some t
    /\ t !! 3%nat = Some (Some (FdPipeRead 0)) /\ small s.
Proof.
  assert (match exec init (OpPipe 0) with
    | Done (Some s) => match tables s with
        | [t] => bool_decide (t !! 3%nat = Some (Some (FdPipeRead 0))) | _ => false end
    | _ => false end = true) as H by (vm_compute; reflexivity).
  destruct (exec init (OpPipe 0)) as [[s|]|]; try discriminate.
  exists s. destruct (tables s) as [|t [|]] eqn:Ht; try discriminate. exists t.
  apply bool_decide_eq_true in H. repeat split; [assumption|].
  unfold small. rewrite Ht. unfold MAX_FDS, USIZE_MAX, U64_MAX. cbn. lia.
Qed.

(** ** Properties *)

(** C24: in every reachable state of the descriptor tables and the pipe pool (any
    interleaving of pipe, close, dup2, fork and pipe reads and writes by any
    processes, as long as they hold fewer than 2^64 descriptors in all, so that no
    count saturates), a pipe end that some process holds is counted by its pipe.
    So while a read end is held a write to the pipe does not fail with [EPIPE]
    or [EBADF], and while a write end is held a read of at least one byte does
    not report end of file, nor [EBADF]. *)
Theorem held_pipe_ends_are_counted s t i fd :
  reachable s -> small s -> tables s !! i = Some t ->
  (forall id, t !! fd = Some (Some (FdPipeRead id)) ->
     (exists p, pool s !! id = Some p /\ 0 < Pipe.read_refcount p)
     /\ forall data, exists r pool', PipePool.write (pool s) id data = Done (r, pool') /\ r <> Err EPIPE /\ r <> Err EBADF)
  /\ (forall id, t !! fd = Some (Some (FdPipeWrite id)) ->
     (exists p, pool s !! id = Some p /\ 0 < Pipe.write_refcount p)
     /\ forall buf, buf <> [] -> exists r buf' pool', PipePool.read (pool s) id buf = Done (r, buf', pool')
        /\ r <> Ok 0%nat /\ r <> Err EBADF).
Proof.
  intros Hr Hs Hi. destruct (fd_reachable_inv s Hr Hs) as [_ Hpl Ha].
  assert (forall k c, t !! fd = Some (Some k) -> end_refs (pool s) k = Some c -> 0 < c) as Hpos.
  { intros k c Hk Hc. specialize (Ha k c Hc). pose proof (entry_counted _ _ _ Hk).
    pose proof (count_le k t _ _ Hi). lia. }
  split; intros id Hfd; specialize (Hpos _ _ Hfd eq_refl);
    destruct (pool s !! id) as [p|] eqn:Hp; try lia; (split; [now exists p|]);
    assert (PipePool.get (pool s) id = Some p) as Hg
      by (unfold PipePool.get; rewrite Hp; unfold Pipe.is_allocated; replace (_ || _) with true by lia; reflexivity).
  - intros data. destruct (PipePool.pool_write_spec (pool s) id data Hpl) as (r & pl & E & _ & _ & H).
    exists r, pl. split; [exact E|]. rewrite (H p Hg). unfold PipeSpec.write. change (PipeSpec.readers (Pipe.abs p)) with (Pipe.read_refcount p).
    destruct (Z.eqb_spec (Pipe.read_refcount p) 0); [lia|]. now case_match.
  - intros buf Hb. destruct (PipePool.pool_read_spec (pool s) id buf Hpl) as (r & b & pl & E & _ & _ & H).
    exists r, b, pl. split; [exact E|]. specialize (H p Hg). unfold PipeSpec.read in H. change (PipeSpec.writers (Pipe.abs p)) with (Pipe.write_refcount p) in H.
    destruct (PipeSpec.queue (Pipe.abs p)).
    + destruct (Z.eqb_spec (Pipe.write_refcount p) 0); [lia|]. destruct r; [discriminate H|injection H as ->; easy].
    + destruct buf; [easy|]. destruct r; [injection H as ->; easy|discriminate H].
Qed.

Lemma held_pipe_ends_are_counted_witness :
  exists s p, exec init (OpPipe 0) = Done (Some s)
    /\ pool s !! 0%nat = Some p /\ 0 < Pipe.read_refcount p.
Proof.
  destruct (pipe_demo) as (s & t & He & Hi & Hfd & Hsm).
  destruct (held_pipe_ends_are_counted s t 0 3 (reach_step _ _ _ reach_init He) Hsm Hi) as [H _].
  destruct (H 0%nat Hfd) as [(p & Hp & Hpos) _]. exists s, p. auto.
Defined.

(** Forking a process's descriptor table always succeeds and gives the
    child the same entries. *)
Theorem fork_copy_succeeds s t i :
  reachable s -> small s -> tables s !! i = Some t ->
  exists pl, fork_copy t (pool s) = (Ok t, pl)
    /\ exec s (OpFork i) = Done (Some (mkSys (tables s ++ [t]) pl)).
Proof.
  intros Hr Hs Hi. destruct (fork_inv s i t (fd_reachable_inv s Hr Hs) Hs Hi) as (pl & E & _).
  exists pl. split; [assumption|]. cbn [exec]. rewrite Hi, E. reflexivity.
Qed.

Lemma fork_copy_succeeds_witness :
  exists s t pl, exec init (OpPipe 0) = Done (Some s) /\ fork_copy t (pool s) = (Ok t, pl)
    /\ t !! 3%nat = Some (Some (FdPipeRead 0)).
Proof.
  destruct (pipe_demo) as (s & t & He & Hi & Hfd & Hsm).
  destruct (fork_copy_succeeds s t 0 (reach_step _ _ _ reach_init He) Hsm Hi) as (pl & H & _).
  exists s, t, pl. auto.
Defined.

(** A new descriptor is the lowest free one from 3 on, [get] returns the
    stored kind afterwards, the other descriptors are unchanged, and the open
    fails with [EMFILE] exactly when descriptors 3 to 15 are all in use. *)
Theorem open_kind_lowest (t : FdTable) kind :
  length t = MAX_FDS ->
  exists r t', open_kind t kind = Done (r, t') /\
    match r with
    | Ok fd => (3 <= fd < 16)%nat /\ get t (Z.of_nat fd) = Done (Err EBADF)
        /\ get t' (Z.of_nat fd) = Done (Ok kind)
        /\ (forall g, g <> Z.of_nat fd -> get t' g = get t g)
        /\ forall j, 3 <= j < Z.of_nat fd -> get t j <> Done (Err EBADF)
    | Err e => e = EMFILE /\ t' = t /\ forall j, 3 <= j < 16 -> get t j <> Done (Err EBADF)
    end.
Proof.
  intros Hlen. unfold open_kind, allocate_fd.
  destruct (allocate_fd_from_spec t (MAX_FDS - FIRST_NONSTD_FD) FIRST_NONSTD_FD)
    as [[Hall ->]|(fd & Hfd & Hn & Hlt & ->)]; [rewrite Hlen; unfold MAX_FDS, FIRST_NONSTD_FD; lia| |];
    cbn [bind]; unfold MAX_FDS, FIRST_NONSTD_FD in *.
  - do 2 eexists. split; [reflexivity|]. split; [reflexivity|]. split; [reflexivity|].
    intros j Hj. destruct (Hall (Z.to_nat j) ltac:(lia)) as [e He].
    rewrite (get_in_range t j (Some e)) by assumption. discriminate.
  - rewrite index_set_lt by lia. do 2 eexists. split; [reflexivity|]. split; [lia|].
    rewrite (get_in_range t _ None), (get_in_range (<[fd := Some kind]> t) _ (Some kind))
      by (rewrite ?Nat2Z.id, ?list_lookup_insert_eq; auto; lia).
    split; [reflexivity|]. split; [reflexivity|]. split.
    + intros g Hg. apply get_insert_ne. lia.
    + intros j Hj. destruct (Hlt (Z.to_nat j) ltac:(lia)) as [e He].
      rewrite (get_in_range t j (Some e)) by (assumption || lia). discriminate.
Qed.

Lemma open_kind_lowest_witness :
  exists r t', open_kind new (FdPipeRead 2) = Done (r, t') /\ r = Ok 3%nat.
Proof.
  destruct (open_kind_lowest new (FdPipeRead 2) eq_refl) as (r & t' & E & _).
  exists r, t'. split; [exact E|]. vm_compute in E. congruence.
Defined.

(** [dup2] onto itself of the last open end of a pipe loses the descriptor:
    the end is closed before it is duplicated, the pipe is then no longer
    allocated, and the call fails with [EBADF]. A [dup2] onto a standard
    descriptor overwrites a pipe end there without closing it: here the write
    end survives with a count of one although no table refers to it, so a
    reader of the pipe never sees end of file. *)
Theorem dup2_loses_pipe_ends :
  (let! (_, t1, p1) := pipe_open new PipePool.new in
   let! (_, t2, p2) := close t1 p1 4 in
   let! (r, t3, _) := dup2 t2 p2 3 3 in
   Done (r, t3 !! 3%nat)) = Done (Err EBADF, Some None)
  /\ (let! (_, t1, p1) := pipe_open new PipePool.new in
      let! (_, t2, p2) := dup2 t1 p1 4 1 in
      let! (_, t3, p3) := close t2 p2 4 in
      let! (_, t4, p4) := dup2 t3 p3 3 1 in
      Done (count_kind (FdPipeWrite 0) t4, end_refs p4 (FdPipeWrite 0)))
     = Done (0%nat, Some 1).
Proof. split; vm_compute; reflexivity. Qed.


End FdTable.
