(* ===== verification/Process.v ===== *)
(** * Processes and signals (src/kernel/src/process.rs, context.rs, hal/src/pid.rs)

    The process record with its saved CPU context, heap and mappings, the
    process states, the signal bitmask and its delivery.  Addresses, ids and
    register values are [Z].  Building an address space ([Process::new],
    [replace_image], [fork_from]) is the paging component's work; here
    [fork_from] takes the child's page table as an argument. *)

From S2P Require Import Prelude Abi Pipe FdTable.
Import Abi.

Module Pid.

(** [struct PidAllocator]: the counter; [fetch_add] wraps around. *)
Definition default_next_pid : Z := 2.
Definition allocate (next_pid : Z) : Z * Z := (next_pid, wrap64 (next_pid + 1)).
Definition peek (next_pid : Z) : Z := next_pid.

Definition INIT : Z := 1.
Definition KERNEL : Z := 0.

End Pid.

Module Process.

(** [struct CpuContext]. *)
Record CpuContext : Type := mkContext {
  ctx_r15 : Z;
  ctx_r14 : Z;
  ctx_r13 : Z;
  ctx_r12 : Z;
  ctx_r11 : Z;
  ctx_r10 : Z;
  ctx_r9 : Z;
  ctx_r8 : Z;
  ctx_rbp : Z;
  ctx_rdi : Z;
  ctx_rsi : Z;
  ctx_rdx : Z;
  ctx_rcx : Z;
  ctx_rbx : Z;
  ctx_rax : Z;
  ctx_rip : Z;
  ctx_rsp : Z;
  ctx_rflags : Z;
  ctx_cs : Z;
  ctx_ss : Z
}.

(** [CpuContext::new_user]. *)
Definition new_user (entry_point stack_ptr user_cs user_ss : Z) : CpuContext :=
  mkContext 0 0 0 0 0 0 0 0 0 0 0 0 0 0 0 entry_point stack_ptr 0x202 user_cs user_ss.

(** [CpuContext::zero]. *)
Definition zero : CpuContext :=
  mkContext 0 0 0 0 0 0 0 0 0 0 0 0 0 0 0 0 0 0 0 0.

(** [context.rax = v]. *)
Definition with_rax (c : CpuContext) (v : Z) : CpuContext :=
  mkContext (ctx_r15 c) (ctx_r14 c) (ctx_r13 c) (ctx_r12 c) (ctx_r11 c) (ctx_r10 c) (ctx_r9 c) (ctx_r8 c) (ctx_rbp c) (ctx_rdi c) (ctx_rsi c) (ctx_rdx c) (ctx_rcx c) (ctx_rbx c) v (ctx_rip c) (ctx_rsp c) (ctx_rflags c) (ctx_cs c) (ctx_ss c).

Inductive VMRegionType : Type := Code | Data | HeapRegion | Stack | Anonymous.

Record VMRegion : Type := mkVMRegion {
  vr_start_addr : Z; vr_end_addr : Z; vr_flags : Z; vr_region_type : VMRegionType;
  vr_file_backed : bool; vr_file_offset : Z
}.

Record MemoryMapping : Type := mkMapping {
  mm_addr : Z; mm_length : Z; mm_prot : Z; mm_flags : Z
}.

(** [struct HeapInfo]. *)
Record HeapInfo : Type := mkHeap { heap_start : Z; heap_end : Z; heap_limit : Z }.

(** Checked [u64] addition. *)
Definition add64 (a b : Z) : outcome Z := if a + b <=? U64_MAX then Done (a + b) else Panicked.

(** [HeapInfo::new]: page-aligned start, one gigabyte of room. *)
Definition HeapInfo_new (start : Z) : outcome HeapInfo :=
  let! s := add64 start 0xFFF in
  let aligned_start := Z.land s (not64 0xFFF) in
  let! limit := add64 aligned_start 0x40000000 in
  Done (mkHeap aligned_start aligned_start limit).

(** [enum Signal] and its numbers. *)
Inductive Signal : Type := SIGINT | SIGCONT | SIGTSTP.

Global Instance Signal_eq_dec : EqDecision Signal.
Proof. solve_decision. Defined.

Definition signal_num (s : Signal) : Z :=
  match s with SIGINT => 2 | SIGCONT => 18 | SIGTSTP => 20 end.

(** [Signal::from_u32]. *)
Definition Signal_from_u32 (n : Z) : option Signal :=
  match n with 2 => Some SIGINT | 18 => Some SIGCONT | 20 => Some SIGTSTP | _ => None end.

Inductive SignalAction : Type := ActNone | ActTerminate | ActStop | ActContinue.

Inductive WaitState : Type :=
  | NotWaiting | WaitingForAnyChild | WaitingForChild (pid : Z).

Global Instance WaitState_eq_dec : EqDecision WaitState.
Proof. solve_decision. Defined.

Inductive ProcessState : Type :=
  | Ready | Running | Stopped | Exited (code : Z) | Zombie (code : Z).

Global Instance ProcessState_eq_dec : EqDecision ProcessState.
Proof. solve_decision. Defined.

(** [struct Process]. *)
Record Process : Type := mkProcess {
  pid : Z;
  pgid : Z;
  parent_pid : option Z;
  state : ProcessState;
  wait_state : WaitState;
  uid : Z;
  gid : Z;
  entry_point : Z;
  user_stack_ptr : Z;
  kernel_stack_ptr : Z;
  page_table_phys : Z;
  context : CpuContext;
  fd_table : list (option FdTable.FdKind);
  pending_signals : Z;
  cwd : string;
  path_env : string;
  environ : gmap string string;
  heap : HeapInfo;
  mappings : list MemoryMapping;
  mmap_base : Z;
  vm_regions : list VMRegion
}.

(** Field assignments. *)
Definition with_pgid (p : Process) (v : Z) : Process :=
  mkProcess (pid p) v (parent_pid p) (state p) (wait_state p) (uid p) (gid p) 
    (entry_point p) (user_stack_ptr p) (kernel_stack_ptr p) (page_table_phys p) 
    (context p) (fd_table p) (pending_signals p) (cwd p) (path_env p) (environ p) 
    (heap p) (mappings p) (mmap_base p) (vm_regions p).
Definition with_state (p : Process) (v : ProcessState) : Process :=
  mkProcess (pid p) (pgid p) (parent_pid p) v (wait_state p) (uid p) (gid p) (entry_point p) 
    (user_stack_ptr p) (kernel_stack_ptr p) (page_table_phys p) (context p) 
    (fd_table p) (pending_signals p) (cwd p) (path_env p) (environ p) (heap p) 
    (mappings p) (mmap_base p) (vm_regions p).
Definition with_wait_state (p : Process) (v : WaitState) : Process :=
  mkProcess (pid p) (pgid p) (parent_pid p) (state p) v (uid p) (gid p) (entry_point p) 
    (user_stack_ptr p) (kernel_stack_ptr p) (page_table_phys p) (context p) 
    (fd_table p) (pending_signals p) (cwd p) (path_env p) (environ p) (heap p) 
    (mappings p) (mmap_base p) (vm_regions p).
Definition with_uid (p : Process) (v : Z) : Process :=
  mkProcess (pid p) (pgid p) (parent_pid p) (state p) (wait_state p) v (gid p) 
    (entry_point p) (user_stack_ptr p) (kernel_stack_ptr p) (page_table_phys p) 
    (context p) (fd_table p) (pending_signals p) (cwd p) (path_env p) (environ p) 
    (heap p) (mappings p) (mmap_base p) (vm_regions p).
Definition with_gid (p : Process) (v : Z) : Process :=
  mkProcess (pid p) (pgid p) (parent_pid p) (state p) (wait_state p) (uid p) v 
    (entry_point p) (user_stack_ptr p) (kernel_stack_ptr p) (page_table_phys p) 
    (context p) (fd_table p) (pending_signals p) (cwd p) (path_env p) (environ p) 
    (heap p) (mappings p) (mmap_base p) (vm_regions p).
Definition with_context (p : Process) (v : CpuContext) : Process :=
  mkProcess (pid p) (pgid p) (parent_pid p) (state p) (wait_state p) (uid p) (gid p) 
    (entry_point p) (user_stack_ptr p) (kernel_stack_ptr p) (page_table_phys p) v 
    (fd_table p) (pending_signals p) (cwd p) (path_env p) (environ p) (heap p) 
    (mappings p) (mmap_base p) (vm_regions p).
Definition with_fd_table (p : Process) (v : list (option FdTable.FdKind)) : Process :=
  mkProcess (pid p) (pgid p) (parent_pid p) (state p) (wait_state p) (uid p) (gid p) 
    (entry_point p) (user_stack_ptr p) (kernel_stack_ptr p) (page_table_phys p) 
    (context p) v (pending_signals p) (cwd p) (path_env p) (environ p) (heap p) 
    (mappings p) (mmap_base p) (vm_regions p).
Definition with_pending_signals (p : Process) (v : Z) : Process :=
  mkProcess (pid p) (pgid p) (parent_pid p) (state p) (wait_state p) (uid p) (gid p) 
    (entry_point p) (user_stack_ptr p) (kernel_stack_ptr p) (page_table_phys p) 
    (context p) (fd_table p) v (cwd p) (path_env p) (environ p) (heap p) 
    (mappings p) (mmap_base p) (vm_regions p).
Definition with_cwd (p : Process) (v : string) : Process :=
  mkProcess (pid p) (pgid p) (parent_pid p) (state p) (wait_state p) (uid p) (gid p) 
    (entry_point p) (user_stack_ptr p) (kernel_stack_ptr p) (page_table_phys p) 
    (context p) (fd_table p) (pending_signals p) v (path_env p) (environ p) (heap p) 
    (mappings p) (mmap_base p) (vm_regions p).
Definition with_heap (p : Process) (v : HeapInfo) : Process :=
  mkProcess (pid p) (pgid p) (parent_pid p) (state p) (wait_state p) (uid p) (gid p) 
    (entry_point p) (user_stack_ptr p) (kernel_stack_ptr p) (page_table_phys p) 
    (context p) (fd_table p) (pending_signals p) (cwd p) (path_env p) (environ p) v 
    (mappings p) (mmap_base p) (vm_regions p).
Definition with_mappings (p : Process) (v : list MemoryMapping) : Process :=
  mkProcess (pid p) (pgid p) (parent_pid p) (state p) (wait_state p) (uid p) (gid p) 
    (entry_point p) (user_stack_ptr p) (kernel_stack_ptr p) (page_table_phys p) 
    (context p) (fd_table p) (pending_signals p) (cwd p) (path_env p) (environ p) 
    (heap p) v (mmap_base p) (vm_regions p).
Definition with_mmap_base (p : Process) (v : Z) : Process :=
  mkProcess (pid p) (pgid p) (parent_pid p) (state p) (wait_state p) (uid p) (gid p) 
    (entry_point p) (user_stack_ptr p) (kernel_stack_ptr p) (page_table_phys p) 
    (context p) (fd_table p) (pending_signals p) (cwd p) (path_env p) (environ p) 
    (heap p) (mappings p) v (vm_regions p).

Definition set_running (p : Process) : Process := with_state p Running.
Definition set_exited (p : Process) (code : Z) : Process := with_state p (Exited code).
Definition set_zombie (p : Process) (code : Z) : Process := with_state p (Zombie code).
Definition set_stopped (p : Process) : Process := with_state p Stopped.

Definition is_exited (p : Process) : bool :=
  match state p with Exited _ | Zombie _ => true | _ => false end.
Definition exit_code (p : Process) : option Z :=
  match state p with Exited code | Zombie code => Some code | _ => None end.
Definition is_zombie (p : Process) : bool :=
  match state p with Zombie _ => true | _ => false end.
Definition is_stopped (p : Process) : bool :=
  match state p with Stopped => true | _ => false end.

(** [resume]. *)
Definition resume (p : Process) : Process :=
  if is_stopped p then with_state p Ready else p.

(** [send_signal], [has_signal], [clear_signal] on the [u32] mask; the
    assertion on the signal number holds for every [Signal]. *)
Definition send_signal (p : Process) (s : Signal) : Process :=
  with_pending_signals p (Z.lor (pending_signals p) (Z.shiftl 1 (signal_num s))).
Definition has_signal (p : Process) (s : Signal) : bool :=
  negb (Z.land (pending_signals p) (Z.shiftl 1 (signal_num s)) =? 0).
Definition clear_signal (p : Process) (s : Signal) : Process :=
  with_pending_signals p (Z.land (pending_signals p) (not32 (Z.shiftl 1 (signal_num s)))).

(** [deliver_signals]: at most one signal, SIGCONT first, then SIGTSTP, then
    SIGINT. *)
Definition deliver_signals (p : Process) : SignalAction * Process :=
  if has_signal p SIGCONT then
    let p := clear_signal p SIGCONT in
    (ActContinue, if is_stopped p then resume p else p)
  else if has_signal p SIGTSTP then (ActStop, clear_signal p SIGTSTP)
  else if has_signal p SIGINT then (ActTerminate, clear_signal p SIGINT)
  else (ActNone, p).

Definition is_blocked (p : Process) : bool :=
  match wait_state p with NotWaiting => false | _ => true end.
Definition block_on_any_child (p : Process) : Process := with_wait_state p WaitingForAnyChild.
Definition block_on_child (p : Process) (child : Z) : Process :=
  with_wait_state p (WaitingForChild child).
Definition wake (p : Process) : Process := with_wait_state p NotWaiting.

Definition should_wake_on_child_exit (p : Process) (child_pid : Z) : bool :=
  match wait_state p with
  | WaitingForAnyChild => true
  | WaitingForChild c => c =? child_pid
  | NotWaiting => false
  end.

(** [fork_from], given the cloned page table and the top of the child's kernel
    stack: the descriptor table is duplicated with its pipe references. *)
Definition fork_from (p : Process) (pool : list Pipe.Pipe) (child_pid child_page_table
    kernel_stack_top : Z) : result Process ErrorCode * list Pipe.Pipe :=
  let (r, pool') := FdTable.fork_copy (fd_table p) pool in
  (let? child_fd_table := r in
   Ok (mkProcess child_pid child_pid (Some (pid p)) Ready NotWaiting (uid p) (gid p)
         (entry_point p) (user_stack_ptr p) kernel_stack_top child_page_table (context p)
         child_fd_table 0 (cwd p) (path_env p) (environ p) (heap p) (mappings p)
         (mmap_base p) (vm_regions p)), pool').

(** ** Lemmas *)

Lemma has_signal_testbit p s :
  has_signal p s = Z.testbit (pending_signals p) (signal_num s).
Proof.
  unfold has_signal. rewrite land_pow2_eqb by (destruct s; cbn; lia). apply negb_involutive.
Qed.

Lemma send_signal_has p s s' :
  has_signal (send_signal p s) s' = bool_decide (s = s') || has_signal p s'.
Proof.
  rewrite !has_signal_testbit. unfold send_signal. cbn [with_pending_signals pending_signals].
  rewrite testbit_lor_pow2 by (destruct s, s'; cbn; lia).
  destruct s, s'; cbn; rewrite ?orb_true_r, ?orb_false_r; reflexivity.
Qed.

Lemma clear_signal_has p s s' :
  has_signal (clear_signal p s) s' = negb (bool_decide (s = s')) && has_signal p s'.
Proof.
  rewrite !has_signal_testbit. unfold clear_signal. cbn [with_pending_signals pending_signals].
  unfold not32. rewrite Z.land_spec, Z.lxor_spec, Z.shiftl_1_l, Z.pow2_bits_eqb
    by (destruct s; cbn; lia).
  assert (Z.testbit U32_MAX (signal_num s') = true) as -> by now destruct s'.
  destruct s, s'; cbn; rewrite ?andb_false_r, ?andb_true_r; reflexivity.
Qed.

(** ** Properties *)

(** The pending-signal mask is a set: sending adds exactly that signal,
    clearing removes exactly that one; delivery consumes one pending signal,
    SIGCONT before SIGTSTP before SIGINT, keeps the others, and does nothing
    when none is pending. *)
Theorem signals_are_a_set p s s' :
  has_signal (send_signal p s) s' = bool_decide (s = s') || has_signal p s'
  /\ has_signal (clear_signal p s) s' = negb (bool_decide (s = s')) && has_signal p s'
  /\ let (act, p') := deliver_signals p in
     match act with
     | ActContinue => has_signal p SIGCONT = true
         /\ has_signal p' s = negb (bool_decide (SIGCONT = s)) && has_signal p s
         /\ is_stopped p' = false
     | ActStop => has_signal p SIGCONT = false /\ has_signal p SIGTSTP = true
         /\ has_signal p' s = negb (bool_decide (SIGTSTP = s)) && has_signal p s
     | ActTerminate => has_signal p SIGCONT = false /\ has_signal p SIGTSTP = false
         /\ has_signal p SIGINT = true
         /\ has_signal p' s = negb (bool_decide (SIGINT = s)) && has_signal p s
     | ActNone => p' = p /\ forall s, has_signal p s = false
     end.
Proof.
  split; [apply send_signal_has|]. split; [apply clear_signal_has|]. unfold deliver_signals.
  destruct (has_signal p SIGCONT) eqn:H1.
  { split; [reflexivity|]. rewrite <- clear_signal_has. unfold resume.
    destruct (is_stopped (clear_signal p SIGCONT)) eqn:Hs; auto. }
  destruct (has_signal p SIGTSTP) eqn:H2.
  { repeat split. apply clear_signal_has. }
  destruct (has_signal p SIGINT) eqn:H3.
  { repeat split. apply clear_signal_has. }
  split; [reflexivity|]. intros []; assumption.
Qed.

End Process.
