(* ===== verification/Cow.v ===== *)
(** * Copy-on-write address spaces (src/kernel/src/paging.rs, interrupts.rs, process.rs)

    The page-fault handlers of interrupts.rs, the part of [Process::fork_from]
    that builds the child's address space, and what [clone_user_address_space]
    does to the address spaces of parent and child. *)

From S2P Require Import Prelude Bitmap FrameAlloc Memory Paging Abi Pipe FdTable Process.
Import Memory Paging.

Module Cow.

Definition PROT_WRITE : Z := 0x2.
Definition PROT_EXEC : Z := 0x4.

Section Faults.
Context {A : Type} `{FrameSource A}.

Notation paging T := (stm (Phys A) string T).

(** [.expect(..)]: an error or [None] is a panic. *)
Definition expect {T} (m : paging T) : paging T := fun s =>
  match m s with
  | Done (Ok t, s') => Done (Ok t, s')
  | _ => Panicked
  end.

Definition expect_some {T} (m : paging (option T)) : paging T :=
  let% r := m in match r with Some t => sret t | None => spanic end.

(** The flags a faulting page is mapped with: those of its region, or
    readable, writable and not executable. *)
Definition demand_flags (vm_regions : list Process.VMRegion) (page_addr : Z) : Z :=
  match find (fun r => (Process.vr_start_addr r <=? page_addr) && (page_addr <? Process.vr_end_addr r))
             vm_regions with
  | Some region =>
      let fl := Z.lor PRESENT USER_ACCESSIBLE in
      let fl := if negb (Z.land (Process.vr_flags region) PROT_WRITE =? 0) then Z.lor fl WRITABLE else fl in
      if Z.land (Process.vr_flags region) PROT_EXEC =? 0 then Z.lor fl NO_EXECUTE else fl
  | None => Z.lor (Z.lor (Z.lor PRESENT USER_ACCESSIBLE) WRITABLE) NO_EXECUTE
  end.

(** [handle_demand_paging]. *)
Definition handle_demand_paging (vm_regions : list Process.VMRegion) (page_table_phys cr2 : Z) : paging unit :=
  let page_addr := Z.land cr2 (not64 0xFFF) in
  let fl := demand_flags vm_regions page_addr in
  let% f := expect_some allocate_frame in
  let% _ := expect (map_page page_table_phys page_addr (frame_addr f) fl) in
  zero (frame_addr f).

(** [copy_nonoverlapping(old, new, 4096)]. *)
Definition copy_frame (src dst : Z) : paging unit :=
  smodify (fun s => with_mem s (copy_entries (mem s) src dst 0 ENTRY_COUNT)).

(** [handle_cow_fault]. *)
Definition handle_cow_fault (page_table_phys cr2 : Z) : paging unit :=
  let page_addr := Z.land cr2 (not64 0xFFF) in
  let% r := sread (fun s => walk (mem s) page_table_phys page_addr) in
  match r with
  | None => spanic
  | Some (t, i) =>
      let% pte := get_entry t i in
      let pte_flags := flags pte in
      if negb (contains pte_flags COPY_ON_WRITE) then spanic
      else
        let old_phys := addr pte in
        let% new_frame := expect_some allocate_frame in
        let new_phys := frame_addr new_frame in
        let% _ := copy_frame old_phys new_phys in
        let new_flags := Z.land (Z.lor pte_flags WRITABLE) (not64 COPY_ON_WRITE) in
        let% _ := set_entry t i (make_entry new_phys new_flags) in
        dec_frame_refcount (addr_frame old_phys)
  end.

(** [page_fault_handler] for a fault while a process is current. *)
Definition page_fault_handler (vm_regions : list Process.VMRegion) (page_table_phys cr2 : Z)
    (present write user : bool) : paging unit :=
  if negb present && user then handle_demand_paging vm_regions page_table_phys cr2
  else if present && write && user then handle_cow_fault page_table_phys cr2
  else if negb present && negb user && (cr2 <? USER_SPACE_MAX)
  then handle_demand_paging vm_regions page_table_phys cr2
  else spanic.

(** The address space of a forked child ([Process::fork_from]); the parent's
    table is the active one. *)
Definition fork_space (parent : Z) : paging Z :=
  let% child := clone_user_address_space parent parent in
  let% _ := allocate_kernel_stack child KERNEL_STACK_TOP KERNEL_STACK_PAGES in
  sret child.

End Faults.

(** ** The copy, abstractly *)

(** A present entry of a table of the second level maps a page of two
    megabytes. *)
Definition has_huge (m : gmap Z Z) (root : Z) : Prop :=
  exists p t i, length p = 2%nat /\ table_at m root p = Some t
    /\ is_present (entry m t i) = true /\ contains (flags (entry m t i)) HUGE_PAGE = true.

(** An entry of the parent and of the child after the copy. *)
Definition cow_parent (e : Z) : Z :=
  if contains (flags e) WRITABLE then make_entry (addr e) (cow_flags (flags e)) else e.
Definition cow_child (e : Z) : Z := make_entry (addr e) (cow_flags (flags e)).

(** The entries whose first index below [p] is less than [k]. *)
Definition below (p : list nat) (k : nat) (ix : list nat) : bool :=
  bool_decide (take (length p) ix = p)
  && match ix !! length p with Some j => (j <? k)%nat | None => false end.

(** Two address spaces share no table. *)
Definition disjoint_tables (m : gmap Z Z) (r1 r2 : Z) : Prop :=
  forall p q t, user_path p -> user_path q ->
  table_at m r1 p = Some t -> table_at m r2 q = Some t -> False.

(** [s'] is [s] with the leaf entry at [ix] of [root] set to [e]; [other] is a
    disjoint address space. *)
Record leaf_updated {A} `{FrameSource A} (s s' : Phys A) (root other : Z) (ix : list nat) (e : Z)
    : Prop := mkUpdated {
  lu_wf : wf s' root;
  lu_other : wf s' other;
  lu_disj : disjoint_tables (mem s') other root;
  lu_tab : forall q, user_path q -> table_at (mem s') root q = table_at (mem s) root q;
  lu_otab : forall q, user_path q -> table_at (mem s') other q = table_at (mem s) other q;
  lu_leaf : forall d i, user_path d -> length d = 3%nat -> (i < ENTRY_COUNT)%nat ->
    leaf (mem s') root d i = if decide (d ++ [i] = ix) then Some e else leaf (mem s) root d i;
  lu_oleaf : forall d i, user_path d -> (i < ENTRY_COUNT)%nat ->
    leaf (mem s') other d i = leaf (mem s) other d i
}.

(** Where the copy is when the entries of [D] are done; [s1] is the state in
    which it began. *)
Record copied {A} `{FrameSource A} (s1 : Phys A) (parent child : Z) (D : list nat -> bool) (s : Phys A)
    : Prop := mkCopied {
  cp_ok : src_ok (frames s);
  cp_pwf : wf s parent;
  cp_cwf : wf s child;
  cp_disj : disjoint_tables (mem s) parent child;
  cp_ptab : forall p, user_path p -> table_at (mem s) parent p = table_at (mem s1) parent p;
  cp_ctab : forall p t, user_path p -> table_at (mem s) child p = Some t ->
    is_Some (table_at (mem s1) parent p);
  cp_cnew : forall p t, user_path p -> p <> [] -> table_at (mem s) child p = Some t ->
    src_free (frames s1) (addr_frame t) = true;
  cp_pleaf : forall p i, user_path p -> length p = 3%nat -> (i < ENTRY_COUNT)%nat ->
    leaf (mem s) parent p i = (if D (p ++ [i]) then cow_parent else id) <$> leaf (mem s1) parent p i;
  cp_cleaf : forall p i, user_path p -> length p = 3%nat -> (i < ENTRY_COUNT)%nat ->
    leaf (mem s) child p i = if D (p ++ [i]) then cow_child <$> leaf (mem s1) parent p i else None;
  cp_frame : forall t i, aligned t -> (i < ENTRY_COUNT)%nat ->
    src_free (frames s1) (addr_frame t) = false ->
    (forall p, user_path p -> table_at (mem s1) parent p <> Some t) ->
    t <> child \/ (256 <= i)%nat ->
    entry (mem s) t i = entry (mem s1) t i;
  cp_free : forall f, src_free (frames s) f = true -> src_free (frames s1) f = true
}.

(** A page outside the user half that is mapped in [root] by the four entries;
    its tables and its frame are in use, and the tables are not the user's. *)
Definition kernel_page {A} `{FrameSource A} (s : Phys A) (root va : Z) : Prop :=
  exists e4 e3 e2 e1,
    (e4, e3, e2, e1) = (entry (mem s) root (p4_index va), entry (mem s) (addr e4) (p3_index va),
                        entry (mem s) (addr e3) (p2_index va), entry (mem s) (addr e2) (p1_index va))
    /\ Forall (fun e => is_present e = true /\ src_free (frames s) (addr_frame (addr e)) = false) [e4; e3; e2; e1]
    /\ Forall (fun e => forall p, user_path p -> table_at (mem s) root p <> Some (addr e)) [e4; e3; e2].

(** ** Lemmas *)

Section Same.
Context {A : Type} `{FrameSource A}.

Lemma wf_same (s s' : Phys A) root :
  wf s root ->
  (forall p t i, user_path p -> table_at (mem s) root p = Some t -> (i < ENTRY_COUNT)%nat ->
     entry (mem s') t i = entry (mem s) t i) ->
  (forall f, src_free (frames s') f = true -> src_free (frames s) f = true) ->
  wf s' root.
Proof.
  intros [Hr Hinj Hown] Hs Hf. destruct (same_tables _ _ _ Hs) as [Ht _]. constructor; [assumption| |].
  - intros p q t Hp Hq. rewrite !Ht by assumption. eauto.
  - intros p t Hp. rewrite Ht by assumption. intros Hx. apply Hown in Hx; [|assumption].
    destruct (src_free (frames s') _) eqn:E; [|reflexivity]. apply Hf in E. congruence.
Qed.

(** An operation on one address space leaves a disjoint one alone. *)
Lemma extends_other (s s' : Phys A) root other :
  extends s s' root -> wf s other -> disjoint_tables (mem s) other root ->
  forall p t i, user_path p -> table_at (mem s) other p = Some t -> (i < ENTRY_COUNT)%nat ->
  entry (mem s') t i = entry (mem s) t i.
Proof.
  intros X Hw Hd p t i Hp Ht Hi. destruct (ext_writes _ _ _ X) as [He _].
  pose proof (table_at_aligned _ _ _ _ (wf_root _ _ Hw) Ht) as Hta.
  destruct (He t i Hta Hi) as [E|[E|(q & Hq & E)]]; [assumption| |].
  - rewrite (wf_owned _ _ Hw p t) in E by assumption. discriminate.
  - destruct (Hd p q t Hp Hq Ht E).
Qed.

Lemma copied_ext (s1 s : Phys A) parent child D D' :
  (forall p i, user_path p -> length p = 3%nat -> (i < ENTRY_COUNT)%nat ->
     leaf (mem s1) parent p i <> None -> D (p ++ [i]) = D' (p ++ [i])) ->
  copied s1 parent child D s -> copied s1 parent child D' s.
Proof.
  intros HD []. constructor; try assumption.
  - intros p i Hp Hl Hi. rewrite cp_pleaf0 by assumption.
    destruct (leaf (mem s1) parent p i) eqn:E; [|reflexivity]. now rewrite HD by (assumption || congruence).
  - intros p i Hp Hl Hi. rewrite cp_cleaf0 by assumption.
    destruct (leaf (mem s1) parent p i) eqn:E; [now rewrite HD by (assumption || congruence)|].
    now destruct (D _), (D' _).
Qed.

(** Creating a table of the child below an entry the parent has. *)
Lemma copied_next_table (s1 s : Phys A) parent child D p i t msg :
  copied s1 parent child D s -> user_path (p ++ [i]) ->
  table_at (mem s) child p = Some t -> is_Some (table_at (mem s1) parent (p ++ [i])) ->
  (next_table t i msg s = Done (Err msg, s) /\ exhausted s)
  \/ exists t' s', next_table t i msg s = Done (Ok t', s') /\ copied s1 parent child D s'
     /\ table_at (mem s') child (p ++ [i]) = Some t'
     /\ forall q x, user_path q -> table_at (mem s) child q = Some x -> table_at (mem s') child q = Some x.
Proof.
  intros [Hok Hpw Hcw Hdis Hpt Hct Hcn Hpl Hcl Hfr Hfree] Hpi Ht Hpar.
  destruct (next_table_spec s child p t i msg Hok Hcw Hpi Ht)
    as [[-> Hx]|(t' & s' & -> & X & T & N & W & L)]; [now left|right].
  exists t', s'. split; [reflexivity|]. split; [|split; [assumption|apply X]].
  destruct (ext_writes _ _ _ X) as [He Hf].
  pose proof (extends_other s s' child parent X Hpw Hdis) as Hsame.
  destruct (same_tables _ _ _ Hsame) as [Htab Hleaf].
  constructor.
  - apply X.
  - eapply wf_same; eassumption.
  - apply X.
  - intros r q x Hr Hq Hx Hy. rewrite Htab in Hx by assumption.
    destruct (ext_new _ _ _ X q x Hq Hy) as [Hy'|Hy']; [eauto|].
    rewrite (wf_owned _ _ Hpw r x) in Hy' by assumption. discriminate.
  - intros r Hr. rewrite Htab by assumption. auto.
  - intros r x Hr Hx. destruct (N r x Hr Hx) as [->|Hy]; eauto.
  - intros r x Hr Hrn Hx. destruct (ext_new _ _ _ X r x Hr Hx) as [Hy|Hy]; eauto.
  - intros r j Hr Hl Hj. rewrite Hleaf by assumption. auto.
  - intros r j Hr Hl Hj. rewrite L by assumption. auto.
  - intros x j Hx Hj Hnf Hnp Hc. rewrite <- (Hfr x j) by assumption.
    destruct (W x j Hx Hj) as [E|[E|[-> ->]]]; [assumption|apply Hfree in E; congruence|].
    destruct (user_path_snoc _ _ Hpi) as [Hp Hi]. exfalso. destruct p as [|a p].
    + injection Ht as <-. destruct Hpi as (_ & _ & Hlt). cbn in Hlt. destruct Hc; [congruence|lia].
    + rewrite (Hcn (a :: p) t) in Hnf by (assumption || discriminate). discriminate.
  - auto.
Qed.

(** Writing a present leaf entry of one address space, next to a disjoint one. *)
Lemma put_effect (s s' : Phys A) root other d i t e :
  src_ok (frames s) -> wf s root -> wf s other -> disjoint_tables (mem s) other root ->
  user_path d -> length d = 3%nat -> (i < ENTRY_COUNT)%nat -> table_at (mem s) root d = Some t ->
  frames s' = frames s -> mem s' = put_entry (mem s) t i e -> is_present e = true ->
  leaf_updated s s' root other (d ++ [i]) e.
Proof.
  intros Hok Hw Ho Hdis Hd Hl Hi Ht Hf Hm He.
  destruct (leaf_put s s' root d i t e Hok Hw Hd Hl Hi Ht Hf Hm) as (X & Htab & Hleaf).
  pose proof (extends_other s s' root other X Ho Hdis) as Hsame.
  destruct (same_tables _ _ _ Hsame) as [Htab' Hleaf']. rewrite He in Hleaf.
  constructor; [apply X|eapply wf_same; try eassumption; now rewrite Hf| |assumption..].
  intros p q x Hp Hq. rewrite Htab, Htab' by assumption. eauto.
Qed.

Lemma put_nothing (s : Phys A) root other d i e :
  wf s root -> wf s other -> disjoint_tables (mem s) other root -> leaf (mem s) root d i = Some e ->
  leaf_updated s s root other (d ++ [i]) e.
Proof.
  intros Hw Ho Hdis He. constructor; try (assumption || reflexivity).
  intros d' i' _ _ _. case_decide as E; [|reflexivity]. now apply app_inj_tail in E as [-> ->].
Qed.

Lemma disjoint_sym m r1 r2 : disjoint_tables m r1 r2 -> disjoint_tables m r2 r1.
Proof. intros Hd p q t Hp Hq Ht Hx. exact (Hd q p t Hq Hp Hx Ht). Qed.

Lemma present_cow e : is_present e = true -> is_present (cow_parent e) = true /\ is_present (cow_child e) = true.
Proof.
  intros He.
  assert (is_present (cow_flags (flags e)) = true) as Hf.
  { unfold is_present, flags, cow_flags in *. destruct (contains _ _).
    - rewrite Z.land_lor_distr_l, <- !Z.land_assoc. change (Z.land COPY_ON_WRITE PRESENT) with 0.
      rewrite Z.lor_0_r. exact He.
    - rewrite <- Z.land_assoc. exact He. }
  unfold cow_parent, cow_child. split; [case_match; [|assumption]|]; now apply make_entry_present.
Qed.

(** Sharing one page. *)
Lemma copied_leaf (s1 s s' : Phys A) parent child D p i tp tc e :
  copied s1 parent child D s -> user_path p -> length p = 3%nat -> (i < ENTRY_COUNT)%nat ->
  D (p ++ [i]) = false ->
  table_at (mem s) parent p = Some tp -> table_at (mem s) child p = Some tc ->
  entry (mem s) tp i = e -> is_present e = true ->
  src_ok (frames s') -> (forall f, src_free (frames s') f = src_free (frames s) f) ->
  mem s' = put_entry (if contains (flags e) WRITABLE
                      then put_entry (mem s) tp i (cow_parent e) else mem s) tc i (cow_child e) ->
  copied s1 parent child (fun ix => D ix || bool_decide (ix = p ++ [i])) s'
  /\ forall q, user_path q -> table_at (mem s') child q = table_at (mem s) child q.
Proof.
  intros [Hok Hpw Hcw Hdis Hpt Hct Hcn Hpl Hcl Hfr Hfree] Hp Hl Hi HD Htp Htc He Hpr Hok' Hf' Hm.
  destruct (present_cow e Hpr) as [Hpp Hpc].
  assert (leaf (mem s) parent p i = Some e) as Hnow by (unfold leaf; now rewrite Htp, He, Hpr).
  assert (leaf (mem s1) parent p i = Some e) as Hold.
  { rewrite Hpl, HD in Hnow by assumption. now destruct (leaf (mem s1) parent p i). }
  set (sa := with_mem s (if contains (flags e) WRITABLE
                         then put_entry (mem s) tp i (cow_parent e) else mem s)).
  assert (leaf_updated s sa parent child (p ++ [i]) (cow_parent e)) as [W1 W2 Dj T1 T2 L1 L2].
  { apply disjoint_sym in Hdis. subst sa. destruct (contains (flags e) WRITABLE) eqn:Hw.
    - eapply put_effect; eauto.
    - replace (with_mem s (mem s)) with s by now destruct s.
      apply put_nothing; try assumption. unfold cow_parent. now rewrite Hw. }
  assert (leaf_updated sa (with_mem s (mem s')) child parent (p ++ [i]) (cow_child e))
    as [V1 V2 Ej U1 U2 M1 M2].
  { apply (put_effect _ _ _ _ _ _ tc); auto using disjoint_sym. now rewrite T2. }
  cbn [mem with_mem] in *.
  split; [|intros q Hq; rewrite U1, T2 by assumption; auto].
  constructor.
  - assumption.
  - eapply wf_same; [exact V2|reflexivity|]. intros f. cbn. now rewrite Hf'.
  - eapply wf_same; [exact V1|reflexivity|]. intros f. cbn. now rewrite Hf'.
  - assumption.
  - intros q Hq. rewrite U2, T1 by assumption. auto.
  - intros q x Hq. rewrite U1, T2 by assumption. eauto.
  - intros q x Hq. rewrite U1, T2 by assumption. eauto.
  - intros q j Hq Hlq Hj. rewrite M2, L1 by assumption. case_decide as E.
    + apply app_inj_tail in E as [-> ->]. now rewrite Hold, bool_decide_true, orb_true_r.
    + rewrite bool_decide_false, orb_false_r by assumption. auto.
  - intros q j Hq Hlq Hj. rewrite M1, L2 by assumption. case_decide as E.
    + apply app_inj_tail in E as [-> ->]. now rewrite Hold, bool_decide_true, orb_true_r.
    + rewrite bool_decide_false, orb_false_r by assumption. auto.
  - intros x j Hx Hj Hnf Hnp Hc.
    assert (x <> tp) as Hxp by (intros ->; apply (Hnp p); [assumption|now rewrite <- Hpt]).
    assert (x <> tc) as Hxc.
    { intros ->. rewrite (Hcn p tc) in Hnf; [discriminate|assumption|now destruct p|assumption]. }
    rewrite <- (Hfr x j) by assumption. rewrite Hm.
    pose proof (table_at_aligned _ _ _ _ (wf_root _ _ Hpw) Htp).
    pose proof (table_at_aligned _ _ _ _ (wf_root _ _ Hcw) Htc).
    rewrite entry_put, decide_False by (assumption || (intros [? _]; congruence)).
    destruct (contains _ _); [|reflexivity].
    now rewrite entry_put, decide_False by (assumption || (intros [? _]; congruence)).
  - intros f. rewrite Hf'. auto.
Qed.

Lemma below_succ p k ix : (length p < length ix)%nat ->
  below p (S k) ix = below p k ix || bool_decide (take (S (length p)) ix = p ++ [k]).
Proof.
  intros Hl. unfold below. destruct (lookup_lt_is_Some_2 ix (length p) Hl) as [j Hj]. rewrite Hj.
  erewrite take_S_r by exact Hj. apply eq_true_iff_eq.
  rewrite orb_true_iff, !andb_true_iff, !bool_decide_eq_true, !Nat.ltb_lt. split.
  - intros [-> Hk]. destruct (decide (j = k)) as [->|]; [now right|left; split; [reflexivity|lia]].
  - intros [[-> Hk]|E]; [split; [reflexivity|lia]|]. apply app_inj_tail in E as [-> ->]. split; [reflexivity|]. lia.
Qed.

Lemma below_full p ix : (length p < length ix)%nat -> Forall (fun i => i < ENTRY_COUNT)%nat ix ->
  below p ENTRY_COUNT ix = bool_decide (take (length p) ix = p).
Proof.
  intros Hl HF. unfold below. destruct (lookup_lt_is_Some_2 ix (length p) Hl) as [j Hj]. rewrite Hj.
  eapply Forall_lookup_1, Nat.ltb_lt in HF as ->; [|exact Hj]. apply andb_true_r.
Qed.

Lemma below_zero p ix : below p 0 ix = false.
Proof. unfold below. destruct (ix !! _); apply andb_false_r. Qed.

End Same.

(** ** The loops of the copy *)

Section Copy.
Context {A : Type} `{FrameSource A}.
Variables (s1 : Phys A) (parent child : Z).

(** The entries of [D] are copied, and the child has the tables of [K]. *)
Definition work (D : list nat -> bool) (K : list nat -> Z -> Prop) (s : Phys A) : Prop :=
  copied s1 parent child D s
  /\ forall q x, K q x -> user_path q /\ table_at (mem s) child q = Some x.

(** No entry below [p] is copied yet. *)
Definition fresh (D : list nat -> bool) (p : list nat) : Prop :=
  forall ix, take (length p) ix = p -> D ix = false.

(** The copy failed. *)
Definition stuck (s : Phys A) : Prop := exhausted s \/ has_huge (mem s) parent.

(** The triple of a level of the copy: it copies what is below [p]. *)
Definition copies (p : list nat) (n : nat) (m : Z -> Z -> stm (Phys A) string unit) : Prop :=
  forall tp tc D K, table_at (mem s1) parent p = Some tp -> K p tc -> fresh D p ->
  hoare (work D K) (m tp tc) (fun _ => work (fun ix => D ix || below p n ix) K) (fun _ => stuck).

Lemma work_ext D D' K s :
  (forall p i, user_path p -> length p = 3%nat -> (i < ENTRY_COUNT)%nat ->
     leaf (mem s1) parent p i <> None -> D (p ++ [i]) = D' (p ++ [i])) ->
  work D K s -> work D' K s.
Proof. intros HD [HC HK]. split; [|assumption]. eapply copied_ext; eauto. Qed.

Lemma path_forall p i : user_path p -> (i < ENTRY_COUNT)%nat ->
  Forall (fun i => i < ENTRY_COUNT)%nat (p ++ [i]).
Proof. intros (_ & HF & _) Hi. now apply Forall_app_2; [|constructor]. Qed.

(** The entry of the parent's table is the one it had, up to the copy. *)
Lemma work_parent D K s p tp : work D K s -> user_path p -> table_at (mem s1) parent p = Some tp ->
  table_at (mem s) parent p = Some tp.
Proof. intros [HC _] Hp Ht. now rewrite (cp_ptab _ _ _ _ _ HC). Qed.

Lemma clone_l1_copies p : user_path p -> length p = 3%nat -> copies p ENTRY_COUNT clone_l1.
Proof.
  intros Hp Hl tp tc D K Htp HKp HD. unfold clone_l1.
  apply hoare_pre with (P' := work (fun ix => D ix || below p 0 ix) K).
  { intros s. apply work_ext. intros. now rewrite below_zero, orb_false_r. }
  apply (hoare_for_range (fun k => work (fun ix => D ix || below p k ix) K) _ ENTRY_COUNT _ 0%nat).
  intros k Hk s Hw. pose proof (work_parent _ _ _ _ _ Hw Hp Htp) as Hptp.
  destruct Hw as [HC HK]. destruct (HK p tc HKp) as [_ Htc].
  unfold sbind, get_entry, sread. set (e := entry (mem s) tp k).
  assert (forall q i, length q = 3%nat -> below p (S k) (q ++ [i]) = below p k (q ++ [i])
    || bool_decide (q ++ [i] = p ++ [k])) as Hb.
  { intros q i Hlq. rewrite below_succ, firstn_all2; rewrite ?length_app; cbn; auto; lia. }
  destruct (is_present e) eqn:He; cbn [negb sret].
  - destruct (src_inc_spec (frames s) (addr_frame (addr e)) (cp_ok _ _ _ _ _ HC)) as (r & a & Ha & Hok & Hfree).
    assert (forall s', mem s' = put_entry (if contains (flags e) WRITABLE
        then put_entry (mem s) tp k (cow_parent e) else mem s) tc k (cow_child e) -> frames s' = a ->
        work (fun ix => D ix || below p (S k) ix) K s') as Hs'.
    { intros s' Hm Hf. destruct (copied_leaf s1 s s' parent child _ p k tp tc e HC) as (HC' & Ht);
        rewrite ?Hf; auto; [lia| |].
      - rewrite (HD (p ++ [k])) by now rewrite take_app_length. unfold below.
        rewrite list_lookup_middle, Nat.ltb_irrefl by reflexivity. apply andb_false_r.
      - eapply work_ext; [|split; [exact HC'|]].
        + intros q i Hq Hlq Hi _. cbn beta. now rewrite Hb, orb_assoc.
        + intros q x Hq. destruct (HK q x Hq). split; [assumption|]. now rewrite Ht. }
    destruct (contains (flags e) WRITABLE) eqn:Hw; cbn [set_entry smodify sret];
      unfold inc_frame_refcount; cbn [frames with_mem]; rewrite Ha; cbn [bind];
      (apply Hs'; [|reflexivity]); cbn [mem with_mem with_frames]; unfold cow_parent, cow_child;
      now rewrite ?Hw.
  - apply (work_ext (fun ix => D ix || below p k ix)); [|now split].
    intros q i Hq Hlq Hi Hn. rewrite Hb by assumption. rewrite bool_decide_false; [now rewrite orb_false_r|].
    intros E. apply app_inj_tail in E as [-> ->]. apply Hn. pose proof (cp_pleaf _ _ _ _ _ HC p k Hp Hl Hi) as E.
    unfold leaf at 1 in E. rewrite Hptp in E. fold e in E. rewrite He in E.
    now destruct (leaf (mem s1) parent p k).
Qed.

(** A level above the last: it creates the child's table below each present
    entry and copies there. *)
Lemma clone_level p n msg (huge : Z -> bool) (m : Z -> Z -> stm (Phys A) string unit) :
  (length p < 3)%nat -> (n <= ENTRY_COUNT)%nat ->
  (forall e, huge e = true -> length p = 2%nat /\ contains (flags e) HUGE_PAGE = true) ->
  (forall k, (k < n)%nat -> user_path (p ++ [k]) /\ copies (p ++ [k]) ENTRY_COUNT m) ->
  copies p n (fun tp tc => for_range 0 n (fun k =>
    let% e := get_entry tp k in
    if negb (is_present e) then sret tt
    else if huge e then sfail "Huge pages not supported in fork"
    else let% t := next_table tc k msg in m (addr e) t)).
Proof.
  intros Hl Hn Hhu Hm tp tc D K Htp HKp HD.
  apply hoare_pre with (P' := work (fun ix => D ix || below p 0 ix) K).
  { intros s. apply work_ext. intros. now rewrite below_zero, orb_false_r. }
  apply (hoare_for_range (fun k => work (fun ix => D ix || below p k ix) K) _ n _ 0%nat).
  intros k Hk s Hw. destruct (Hm k ltac:(lia)) as [Hpk Hcop]. destruct (user_path_snoc _ _ Hpk) as [Hp Hkl].
  pose proof (work_parent _ _ _ _ _ Hw Hp Htp) as Hptp. destruct Hw as [HC HK].
  destruct (HK p tc HKp) as [_ Htc]. unfold sbind at 1, get_entry, sread. set (e := entry (mem s) tp k).
  assert (table_at (mem s1) parent (p ++ [k]) = if is_present e then Some (addr e) else None) as Hpar.
  { rewrite <- (cp_ptab _ _ _ _ _ HC) by assumption. now rewrite table_at_snoc, Hptp. }
  assert (forall q i, length q = 3%nat -> below p (S k) (q ++ [i]) = below p k (q ++ [i])
    || bool_decide (take (length (p ++ [k])) (q ++ [i]) = p ++ [k])) as Hb.
  { intros q i Hlq. rewrite below_succ by (rewrite length_app; lia). now rewrite length_app, Nat.add_1_r. }
  destruct (is_present e) eqn:He; cbn [negb].
  - destruct (huge e) eqn:Hhe.
    { destruct (Hhu e Hhe) as [Hp2 Hc]. right. exists p, tp, k. auto. }
    destruct (copied_next_table s1 s parent child _ p k tc msg HC Hpk Htc) as [[E Hx]|(t & s' & E & HC' & Ht & Hkeep)];
      [now rewrite Hpar|unfold sbind; rewrite E..]; [now left|].
    specialize (Hcop (addr e) t (fun ix => D ix || below p k ix) (fun q x => K q x \/ q = p ++ [k] /\ x = t) Hpar).
    refine (hoare_post _ _ _ _ _ _ (Hcop _ _) s' _).
    + intros _ s2 [HC2 HK2]. eapply work_ext; [|split; [exact HC2|auto]].
      intros q i Hq Hlq Hi _. cbn beta. rewrite Hb by assumption.
      rewrite below_full; [now rewrite orb_assoc|rewrite !length_app; cbn; lia|now apply path_forall].
    + now right.
    + intros ix Hix. rewrite length_app, Nat.add_1_r in Hix.
      assert (take (length p) ix = p) as Hix'.
      { transitivity (take (length p) (take (S (length p)) ix)).
        - rewrite take_take. f_equal. lia.
        - rewrite Hix. apply take_app_length. }
      rewrite HD by exact Hix'.
      cbn. unfold below. rewrite <- (lookup_take_lt ix (S (length p))), Hix by lia.
      rewrite list_lookup_middle, Nat.ltb_irrefl by reflexivity. apply andb_false_r.
    + split; [assumption|]. intros q x [Hq|[-> ->]]; [|now split].
      destruct (HK q x Hq). split; [assumption|]. now apply Hkeep.
  - apply (work_ext (fun ix => D ix || below p k ix)); [|now split].
    intros q i Hq Hlq Hi Hne. rewrite Hb by assumption. rewrite bool_decide_false; [now rewrite orb_false_r|].
    intros E. apply Hne. unfold leaf. rewrite take_app_le in E by (rewrite length_app; cbn; lia).
    rewrite <- (take_drop (length (p ++ [k])) q), E, table_at_app, Hpar. reflexivity.
Qed.

Lemma user_path_extend p k : user_path p -> (length p < 3)%nat -> p <> [] -> (k < ENTRY_COUNT)%nat ->
  user_path (p ++ [k]).
Proof.
  intros (_ & HF & Hu) Hl Hne Hk. split; [rewrite length_app; cbn; lia|].
  split; [apply Forall_app_2; auto|]. now destruct p.
Qed.

Lemma clone_l2_copies p : user_path p -> length p = 2%nat -> copies p ENTRY_COUNT clone_l2.
Proof.
  intros Hp Hl. apply (clone_level _ _ _ (fun e => contains (flags e) HUGE_PAGE)); [lia|lia|auto|].
  intros k Hk. assert (user_path (p ++ [k])) by (apply user_path_extend; auto; [lia|now destruct p]).
  split; [assumption|]. apply clone_l1_copies; [assumption|]. rewrite length_app. cbn. lia.
Qed.

Lemma clone_l3_copies p : user_path p -> length p = 1%nat -> copies p ENTRY_COUNT clone_l3.
Proof.
  intros Hp Hl. apply (clone_level _ _ _ (fun _ => false)); [lia|lia|discriminate|].
  intros k Hk. assert (user_path (p ++ [k])) by (apply user_path_extend; auto; [lia|now destruct p]).
  split; [assumption|]. apply clone_l2_copies; [assumption|]. rewrite length_app. cbn. lia.
Qed.

(** The loop over the lower half of the parent's L4 table. *)
Definition clone_l4 (tp tc : Z) : stm (Phys A) string unit :=
  for_range 0 256 (fun p4 =>
    let% e := get_entry tp p4 in
    if negb (is_present e) then sret tt
    else
      let% child_l3 := next_table tc p4 "Failed to allocate L3 for clone" in
      clone_l3 (addr e) child_l3).

Lemma clone_l4_copies : copies [] 256 clone_l4.
Proof.
  apply (clone_level _ _ _ (fun _ => false)); [cbn; lia|unfold ENTRY_COUNT; lia|discriminate|].
  intros k Hk. assert (user_path ([] ++ [k])).
  { split; [cbn; lia|]. split; [|exact Hk]. apply Forall_singleton. unfold ENTRY_COUNT. lia. }
  split; [assumption|]. now apply clone_l3_copies.
Qed.

End Copy.

(** ** The theorems of the copy *)

Lemma user_path_nil : user_path [].
Proof. split; [cbn; lia|]. now split. Qed.

(** The state after the child's L4 table is created: nothing copied yet. *)
Lemma copied_start {A} `{FrameSource A} (s s1 : Phys A) cr3 parent child :
  src_ok (frames s) -> wf s parent ->
  src_ok (frames s1) -> aligned child -> src_free (frames s) (addr_frame child) = true ->
  (forall g, src_free (frames s1) g = negb (addr_frame child =? g)%nat && src_free (frames s) g) ->
  (forall t i, aligned t -> (i < ENTRY_COUNT)%nat ->
     entry (mem s1) t i = if decide (t = child)
                          then if (i <? 256)%nat then 0 else entry (mem s) cr3 i
                          else entry (mem s) t i) ->
  copied s1 parent child (fun _ => false) s1
  /\ (forall p, user_path p -> table_at (mem s1) parent p = table_at (mem s) parent p)
  /\ (forall p i, user_path p -> (i < ENTRY_COUNT)%nat -> leaf (mem s1) parent p i = leaf (mem s) parent p i).
Proof.
  intros Hok Hw Hok1 Hc Hcf Hfree He.
  assert (forall p t i, user_path p -> table_at (mem s) parent p = Some t -> (i < ENTRY_COUNT)%nat ->
    entry (mem s1) t i = entry (mem s) t i) as Hsame.
  { intros p t i Hp Ht Hi. pose proof (table_at_aligned _ _ _ _ (wf_root _ _ Hw) Ht).
    rewrite He, decide_False by (assumption || (intros ->; now rewrite (wf_owned _ _ Hw p child) in Hcf)).
    reflexivity. }
  destruct (same_tables _ _ _ Hsame) as [Ht Hl]. split; [|now split].
  assert (forall i, (i < 256)%nat -> entry (mem s1) child i = 0) as H0.
  { intros i Hi. rewrite He, decide_True by (reflexivity || assumption || (unfold ENTRY_COUNT; lia)).
    now apply Nat.ltb_lt in Hi as ->. }
  destruct (empty_wf s1 child Hc) as [Hcw Hce]; [now rewrite Hfree, Nat.eqb_refl|assumption|].
  constructor; auto.
  - eapply wf_same; [exact Hw|exact Hsame|]. intros f. rewrite Hfree. now intros [_ ?]%andb_true_iff.
  - intros p q t Hp Hq Hpt Hct. apply Hce in Hct as [-> ->]; [|assumption].
    rewrite Ht, (wf_owned _ _ Hw p child) in * by (assumption || now rewrite <- Ht). discriminate.
  - intros p t Hp [-> _]%Hce; [now exists parent|assumption].
  - intros p t Hp Hn [-> _]%Hce; [easy|assumption].
  - intros p i Hp Hpl Hi. symmetry. now destruct (leaf _ _ _ _).
  - intros p i Hp Hpl Hi. unfold leaf. destruct (table_at _ child p) eqn:E; [|reflexivity].
    apply Hce in E as [-> _]; [discriminate|assumption].
Qed.

(** [clone_user_address_space], whole. *)
Lemma clone_spec {A} `{FrameSource A} (s : Phys A) cr3 parent :
  src_ok (frames s) -> wf s parent -> aligned cr3 -> src_free (frames s) (addr_frame cr3) = false ->
  match clone_user_address_space cr3 parent s with
  | Done (Ok child, s') => src_ok (frames s') /\ wf s' parent /\ wf s' child /\ disjoint_tables (mem s') parent child
      /\ src_free (frames s) (addr_frame child) = true
      /\ (forall va, 0 <= va < USER_SPACE_MAX ->
            pte (mem s') child va = cow_child <$> pte (mem s) parent va
            /\ pte (mem s') parent va = cow_parent <$> pte (mem s) parent va)
      /\ (forall i, (256 <= i < ENTRY_COUNT)%nat -> entry (mem s') child i = entry (mem s) cr3 i)
      /\ (forall t i, aligned t -> (i < ENTRY_COUNT)%nat -> src_free (frames s) (addr_frame t) = false ->
         (forall p, user_path p -> table_at (mem s) parent p <> Some t) ->
         entry (mem s') t i = entry (mem s) t i)
      /\ forall f, src_free (frames s') f = true -> src_free (frames s) f = true
  | Done (Err _, s') => exhausted s' \/ has_huge (mem s') parent
  | Panicked => False
  end.
Proof.
  intros Hok Hw Hcr Hcrf. unfold clone_user_address_space. unfold sbind at 1.
  destruct (create_table_spec s cr3 Hok Hcr Hcrf) as [[-> Hx]|(child & s1 & -> & Hok1 & Hc & Hcf & Hfree & He)]; [now left|].
  destruct (copied_start s s1 cr3 parent child) as (HC & Ht & Hl); try assumption.
  pose proof (clone_l4_copies s1 parent child parent child (fun _ => false) (fun q x => q = [] /\ x = child)
    eq_refl (conj eq_refl eq_refl) (fun _ _ => eq_refl) s1) as Hrun.
  unfold clone_l4 in Hrun. unfold sbind at 1. destruct (for_range _ _ _ s1) as [[[[]|msg] s']|].
  2,3: apply Hrun; split; [assumption|]; intros q x [-> ->]; split; [exact user_path_nil|reflexivity].
  destruct Hrun as [[Fok Fpw Fcw Fd Fpt Fct Fcn Fpl Fcl Ffr Ffree] _].
  { split; [assumption|]. intros q x [-> ->]. split; [exact user_path_nil|reflexivity]. }
  cbn [sret]. split; [assumption|]. split; [assumption|]. split; [assumption|]. split; [assumption|]. split; [assumption|].
  split; [|split; [|split]].
  - intros va Hva%user_indices. pose proof (user_path_indices va Hva) as Hp. unfold pte.
    rewrite Fcl, Fpl, Hl by (assumption || reflexivity || apply table_index_lt).
    unfold below. cbn [dirs app length take lookup list_lookup]. apply Nat.ltb_lt in Hva as ->. now split.
  - intros i Hi. rewrite Ffr; [|assumption|lia|now rewrite Hfree, Nat.eqb_refl| |right; lia].
    + rewrite He, decide_True by (reflexivity || assumption || lia).
      destruct (Nat.ltb_spec i 256); [lia|reflexivity].
    + intros p Hp E. now apply (cp_disj _ _ _ _ _ HC p [] child Hp user_path_nil E).
  - intros t i Hta Hi Htf Htp. assert (t <> child) as Hne by (intros ->; congruence).
    rewrite Ffr; [rewrite He, decide_False by assumption; reflexivity|assumption|assumption| | |now left].
    + rewrite Hfree, Htf. apply andb_false_r.
    + intros p Hp. rewrite Ht by assumption. auto.
  - intros f E%Ffree. rewrite Hfree in E. now apply andb_true_iff in E as [_ E].
Qed.

(** The entry [e'] of a page shared copy-on-write, bit by bit, from the entry [e] of the page:
    bit 1 (writable) is clear; bit 9 (copy-on-write) is set if [e] was writable,
    and otherwise as it was; the frame (bits 12 to 51) and the other flags
    (bits 0 to 11) are those of [e]; bits 52 to 63 are clear. *)
Definition shares (e e' : Z) : Prop := forall n, 0 <= n ->
  Z.testbit e' n =
    if n =? 1 then false else if n =? 9 then Z.testbit e 9 || Z.testbit e 1
    else if n <? 52 then Z.testbit e n else false.

Lemma contains_bit fl n : 0 <= n -> contains fl (2 ^ n) = Z.testbit fl n.
Proof.
  intros Hn. unfold contains. destruct (Z.testbit fl n) eqn:E.
  - apply Z.eqb_eq, Z.bits_inj_iff'. intros k Hk. rewrite Z.land_spec, Z.pow2_bits_eqb by lia.
    destruct (Z.eqb_spec n k) as [<-|]; [now rewrite E|apply andb_false_r].
  - apply Z.eqb_neq. intros H. apply (f_equal (fun z => Z.testbit z n)) in H.
    rewrite Z.land_spec, E, Z.pow2_bits_true in H by lia. discriminate.
Qed.

(** Both entries that [clone_user_address_space] writes are of this form. *)
Lemma cow_child_shares e : shares e (cow_child e).
Proof.
  intros n Hn. unfold cow_child, make_entry, cow_flags, addr, flags.
  change WRITABLE with (2 ^ 1) at 1. rewrite contains_bit by lia. change ADDR_MASK with (Z.shiftl (Z.ones 40) 12).
  change 0xFFF with (Z.ones 12). rewrite (Z.land_spec e (Z.ones 12)). change (Z.testbit (Z.ones 12) 1) with true. rewrite andb_true_r.
  assert (Z.testbit (Z.shiftl (Z.ones 40) 12) n = (12 <=? n) && (n <? 52)) as Hm.
  { rewrite Z.shiftl_spec by lia. destruct (Z.leb_spec 12 n).
    - rewrite Z.testbit_ones by lia. cbn [andb]. rewrite (proj2 (Z.leb_le 0 _)) by lia. cbn [andb]. apply eq_true_iff_eq. rewrite !Z.ltb_lt. lia.
    - now rewrite Z.testbit_neg_r by lia. }
  assert (Z.testbit (Z.ones 12) n = (n <? 12)) as Ho
    by (rewrite Z.testbit_ones by lia; now rewrite (proj2 (Z.leb_le 0 n)) by lia).
  assert (Z.testbit (not64 WRITABLE) n = (n <? 64) && negb (n =? 1)) as Hw.
  { change (not64 WRITABLE) with (Z.ldiff (Z.ones 64) (2 ^ 1)). rewrite Z.ldiff_spec, Z.testbit_ones, Z.pow2_bits_eqb by lia.
    rewrite (proj2 (Z.leb_le 0 n)) by lia. now rewrite (Z.eqb_sym 1). }
  assert (Z.testbit COPY_ON_WRITE n = (n =? 9)) as Hc by (change COPY_ON_WRITE with (2 ^ 9); rewrite Z.pow2_bits_eqb by lia; now rewrite Z.eqb_sym).
  destruct (Z.testbit e 1) eqn:E1; rewrite ?Z.lor_spec, ?Z.land_spec, ?Z.lor_spec, ?Z.land_spec, ?Hm, ?Ho, ?Hw, ?Hc;
    destruct (Z.eqb_spec n 1) as [->|]; rewrite ?E1; try reflexivity;
    destruct (Z.eqb_spec n 9) as [->|]; try (now destruct (Z.testbit e 9));
    destruct (Z.leb_spec 12 n), (Z.ltb_spec n 12), (Z.ltb_spec n 52), (Z.ltb_spec n 64); try lia;
    cbn; rewrite ?andb_false_r, ?andb_true_r, ?orb_false_r; reflexivity.
Qed.

Lemma cow_parent_shares e : if Z.testbit e 1 then shares e (cow_parent e) else cow_parent e = e.
Proof.
  unfold cow_parent. change WRITABLE with (2 ^ 1). rewrite contains_bit by lia. unfold flags. rewrite Z.land_spec.
  change (Z.testbit 0xFFF 1) with true. rewrite andb_true_r. destruct (Z.testbit e 1); [apply cow_child_shares|reflexivity].
Qed.

(** C9: the copy-on-write address space of fork is a copy. For every
    well-formed parent address space, [clone_user_address_space] never panics;
    when it succeeds the child is a well-formed address space that shares no
    table with the parent and whose L4 frame was free; every user address is
    mapped in the child exactly when it was in the parent, to the same frame,
    not writable, and marked copy-on-write if it was writable; a page of the
    parent that was writable gets the same entry, and any other entry of the
    parent stays; the child's upper half is that of the active table, and no word
    of a frame that was neither free nor a table of the parent has changed. It
    fails only when no frame is left or the parent has a page of two megabytes. *)
Theorem clone_user_address_space_copies {A} `{FrameSource A} (s : Phys A) cr3 parent :
  src_ok (frames s) -> wf s parent -> aligned cr3 -> src_free (frames s) (addr_frame cr3) = false ->
  match clone_user_address_space cr3 parent s with
  | Done (Ok child, s') => wf s' parent /\ wf s' child /\ disjoint_tables (mem s') parent child
      /\ src_free (frames s) (addr_frame child) = true
      /\ (forall va, 0 <= va < USER_SPACE_MAX ->
            match pte (mem s) parent va with
            | Some e => exists ec ep, pte (mem s') child va = Some ec /\ pte (mem s') parent va = Some ep
                /\ shares e ec /\ if Z.testbit e 1 then shares e ep else ep = e
            | None => pte (mem s') child va = None /\ pte (mem s') parent va = None
            end)
      /\ (forall i, (256 <= i < ENTRY_COUNT)%nat -> entry (mem s') child i = entry (mem s) cr3 i)
      /\ forall t i, aligned t -> (i < ENTRY_COUNT)%nat -> src_free (frames s) (addr_frame t) = false ->
         (forall p, user_path p -> table_at (mem s) parent p <> Some t) ->
         entry (mem s') t i = entry (mem s) t i
  | Done (Err _, s') => exhausted s' \/ has_huge (mem s') parent
  | Panicked => False
  end.
Proof.
  intros Hok Hw Hcr Hcrf. pose proof (clone_spec s cr3 parent Hok Hw Hcr Hcrf) as Hc.
  destruct (clone_user_address_space cr3 parent s) as [[[child|msg] s']|]; [|exact Hc..].
  destruct Hc as (_ & Hpw & Hcw & Hd & Hcf & Hpte & Hup & Hkeep & _).
  split; [assumption|]. split; [assumption|]. split; [assumption|]. split; [assumption|]. split; [|auto].
  intros va Hva. destruct (Hpte va Hva) as [-> ->]. destruct (pte (mem s) parent va) as [e|]; [|now split].
  exists (cow_child e), (cow_parent e). split; [reflexivity|]. split; [reflexivity|].
  split; [apply cow_child_shares|apply cow_parent_shares].
Qed.

(** A kernel page of the parent is one of a table with the same upper half,
    when the tables in use that are not the user's are unchanged. *)
Lemma kernel_page_kept {A} `{FrameSource A} (s s' : Phys A) root child va :
  (256 <= p4_index va)%nat -> kernel_page s root va ->
  (forall i, (256 <= i < ENTRY_COUNT)%nat -> entry (mem s') child i = entry (mem s) root i) ->
  (forall t i, aligned t -> (i < ENTRY_COUNT)%nat -> src_free (frames s) (addr_frame t) = false ->
     (forall p, user_path p -> table_at (mem s) root p <> Some t) -> entry (mem s') t i = entry (mem s) t i) ->
  exists t e, table_at (mem s') child (dirs va) = Some t /\ entry (mem s') t (p1_index va) = e
    /\ is_present e = true /\ src_free (frames s) (addr_frame (addr e)) = false.
Proof.
  intros Hva (e4 & e3 & e2 & e1 & [= E4 E3 E2 E1] & Hpr & Hnu) Hup Hkeep.
  repeat setoid_rewrite Forall_cons in Hpr. repeat setoid_rewrite Forall_cons in Hnu. destruct Hpr as ([P4 F4] & [P3 F3] & [P2 F2] & [P1 F1] & _).
  destruct Hnu as (N4 & N3 & N2 & _).
  assert (forall e i, (i < ENTRY_COUNT)%nat -> src_free (frames s) (addr_frame (addr e)) = false ->
    (forall p, user_path p -> table_at (mem s) root p <> Some (addr e)) ->
    entry (mem s') (addr e) i = entry (mem s) (addr e) i) as HK by (intros; apply Hkeep; auto; apply addr_bounds).
  exists (addr e2), e1. unfold dirs. cbn [table_at].
  rewrite Hup by (split; [assumption|apply table_index_lt]). rewrite <- E4, P4.
  rewrite (HK e4), <- E3, P3 by (assumption || apply table_index_lt).
  rewrite (HK e3), <- E2, P2 by (assumption || apply table_index_lt).
  rewrite (HK e2), <- E1 by (assumption || apply table_index_lt). auto.
Qed.

(** C40: fork never succeeds. When the active address space is the parent's and
    the first page of its kernel stack is mapped, as it is in every process
    that [Process::from_elf] or [fork_from] makes, [fork_from] does not return
    a child: the child's upper half is the parent's, so the page of the kernel
    stack is already mapped in it to the parent's frame, and [map_page] of a
    new frame panics; the only other outcome is an error. *)
Theorem fork_never_succeeds {A} `{FrameSource A} (s : Phys A) parent :
  src_ok (frames s) -> wf s parent -> kernel_page s parent (KERNEL_STACK_TOP - PAGE_SIZE) ->
  match fork_space parent s with
  | Done (Ok _, _) => False
  | _ => True
  end.
Proof.
  intros Hok Hw Hk. unfold fork_space. unfold sbind at 1.
  pose proof (clone_spec s parent parent Hok Hw (wf_root _ _ Hw)
    (wf_owned _ _ Hw [] parent user_path_nil eq_refl)) as Hc.
  destruct (clone_user_address_space parent parent s) as [[[child|msg] s']|]; [|exact I..].
  destruct Hc as (Hok' & _ & _ & _ & _ & _ & Hup & Hkeep & Hfree).
  edestruct (kernel_page_kept s s' parent child) as (t & e & Ht & He & Hp & Hf); [|exact Hk|eassumption..|]; [vm_compute; lia|].
  unfold allocate_kernel_stack, allocate_stack, KERNEL_STACK_PAGES. cbn [for_range Nat.add].
  unfold sbind, ok_or, allocate_frame, sub64.
  destruct (src_alloc_spec (frames s') Hok') as (r & a & Ha & Hoka & Hr). unfold sbind. rewrite Ha.
  cbn [bind]. destruct r as [f|]; [|exact I]. destruct Hr as [Hff _]. cbn [sret].
  change (Z.of_nat 1 * PAGE_SIZE) with PAGE_SIZE. change (PAGE_SIZE <=? KERNEL_STACK_TOP) with true. cbn iota.
  cbn [sret]. rewrite (map_page_mapped _ _ _ _ _ t); [exact I|exact Ht|now rewrite <- He in Hp|].
  cbn [mem with_frames]. rewrite He. pose proof (src_free_bound _ _ Hok' Hff).
  rewrite page_align_frame by lia. intros E. apply Hfree in Hff. rewrite E, addr_frame_addr in Hf. congruence.
Qed.

(** ** The copy-on-write fault *)

(** The flags of a page after its copy. *)
Definition copied_flags (fl : Z) : Z := Z.land (Z.lor fl WRITABLE) (not64 COPY_ON_WRITE).

Lemma page_of va : 0 <= va < USER_SPACE_MAX ->
  0 <= Z.land va (not64 0xFFF) < USER_SPACE_MAX /\ Z.land va (not64 0xFFF) / 4096 = va / 4096.
Proof.
  unfold USER_SPACE_MAX. intros Hva. change 0xFFF with (Z.ones 12). rewrite land_not64 by (unfold U64_MAX; lia).
  change (2 ^ 12) with 4096. lia.
Qed.

Lemma copied_flags_bits e : let fl := copied_flags (flags e) in
  contains fl WRITABLE = true /\ contains fl COPY_ON_WRITE = false /\ Z.land fl ADDR_MASK = 0
  /\ Z.land fl 0xFFF = fl /\ is_present fl = is_present e.
Proof.
  assert (0 <= flags e < 4096) as Hb.
  { unfold flags. change 0xFFF with (Z.ones 12). rewrite Z.land_ones by lia. lia. }
  assert (is_present e = is_present (flags e)) as ->.
  { unfold is_present, flags. rewrite <- Z.land_assoc. reflexivity. }
  generalize dependent (flags e). clear e. intros fl Hb. cbn zeta.
  assert (forallb (fun n => let fl := copied_flags (Z.of_nat n) in
    contains fl WRITABLE && negb (contains fl COPY_ON_WRITE) && (Z.land fl ADDR_MASK =? 0)
    && (Z.land fl 0xFFF =? fl) && eqb (is_present fl) (is_present (Z.of_nat n))) (seq 0 4096) = true)
    as Hall by (vm_compute; reflexivity).
  rewrite forallb_forall in Hall. specialize (Hall (Z.to_nat fl)). rewrite Z2Nat.id in Hall by lia.
  cbn zeta in Hall. rewrite !andb_true_iff, !Z.eqb_eq, negb_true_iff, eqb_true_iff in Hall.
  destruct Hall as ((((? & ?) & ?) & ?) & ?); [apply in_seq; lia|]. auto.
Qed.

(** An address space does not see a write to a frame that is free. *)
Lemma free_frame_unseen {A} `{FrameSource A} (s : Phys A) m' root f :
  wf s root -> src_free (frames s) f = true ->
  (forall t i, aligned t -> (i < ENTRY_COUNT)%nat -> t <> frame_addr f -> entry m' t i = entry (mem s) t i) ->
  forall p t i, user_path p -> table_at (mem s) root p = Some t -> (i < ENTRY_COUNT)%nat ->
  entry m' t i = entry (mem s) t i.
Proof.
  intros Hw Hf He p t i Hp Ht Hi. apply He; [now apply (table_at_aligned _ _ _ _ (wf_root _ _ Hw) Ht)|assumption|].
  intros ->. pose proof (wf_owned _ _ Hw p _ Hp Ht) as E. rewrite addr_frame_addr in E. congruence.
Qed.

(** A leaf entry written after a change no table shows, before a frame that is
    no table is released. *)
Lemma updated_through {A} `{FrameSource A} (s sb s' : Phys A) root other g ix e :
  (forall p t i, user_path p -> table_at (mem s) root p = Some t -> (i < ENTRY_COUNT)%nat ->
     entry (mem sb) t i = entry (mem s) t i) ->
  (forall p t i, user_path p -> table_at (mem s) other p = Some t -> (i < ENTRY_COUNT)%nat ->
     entry (mem sb) t i = entry (mem s) t i) ->
  leaf_updated sb (with_mem sb (mem s')) root other ix e ->
  (forall h, h <> g -> src_free (frames s') h = src_free (frames sb) h) ->
  (forall p t, user_path p -> table_at (mem s) root p = Some t \/ table_at (mem s) other p = Some t ->
     addr_frame t <> g) ->
  leaf_updated s s' root other ix e.
Proof.
  intros Hr Ho [Wr Wo Dj Tr To Lr Lo] Hfr Hg. destruct (same_tables _ _ _ Hr) as [Tr' Lr'], (same_tables _ _ _ Ho) as [To' Lo'].
  cbn [mem with_mem] in *.
  assert (forall x, (forall p, user_path p -> table_at (mem s') x p = table_at (mem s) x p) -> (x = root \/ x = other) ->
    wf (with_mem sb (mem s')) x -> wf s' x) as Hwf.
  { intros x Hx Hor [Ha Hi Hf]. constructor; [assumption|exact Hi|]. intros p t Hp Ht.
    rewrite Hfr; [now apply (Hf p)|]. apply (Hg p); [assumption|].
    rewrite Hx in Ht by assumption. destruct Hor as [->| ->]; auto. }
  constructor.
  - apply Hwf; auto. intros p Hp. now rewrite Tr, Tr'.
  - apply Hwf; auto. intros p Hp. now rewrite To, To'.
  - assumption.
  - intros q Hq. now rewrite Tr, Tr'.
  - intros q Hq. now rewrite To, To'.
  - intros d i Hd Hl Hi. rewrite Lr by assumption. case_decide; [reflexivity|auto].
  - intros d i Hd Hi. rewrite Lo by assumption. auto.
Qed.

#[local] Opaque copy_entries.

(** What the fault does, entry by entry: the new frame holds the old one's
    words, and one leaf entry is written. *)
Lemma cow_fault_spec {A} `{FrameSource A} (s : Phys A) root other cr2 e :
  src_ok (frames s) -> wf s root -> wf s other -> disjoint_tables (mem s) other root ->
  0 <= cr2 < USER_SPACE_MAX -> pte (mem s) root cr2 = Some e ->
  contains (flags e) COPY_ON_WRITE = true -> src_free (frames s) (addr_frame (addr e)) = false ->
  (forall p, user_path p ->
     table_at (mem s) root p <> Some (addr e) /\ table_at (mem s) other p <> Some (addr e)) ->
  match handle_cow_fault root cr2 s with
  | Done (Ok _, s') => exists f, src_free (frames s) f = true
      /\ (forall i, (i < ENTRY_COUNT)%nat -> entry (mem s') (frame_addr f) i = entry (mem s) (addr e) i
                                             /\ entry (mem s') (addr e) i = entry (mem s) (addr e) i)
      /\ leaf_updated s s' root other (indices cr2) (make_entry (frame_addr f) (copied_flags (flags e)))
  | Done (Err _, _) => False
  | Panicked => exists a, src_alloc (frames s) = Done (None, a)
  end.
Proof.
  intros Hok Hw Ho Hdis Hva He Hcow Hnf Hnt. unfold handle_cow_fault.
  destruct (page_of cr2 Hva) as [Hpg Hdiv].
  destruct (pte_page (mem s) root cr2 _ Hva Hpg Hdiv) as (Hd & Hi & Hpte).
  set (page := Z.land cr2 (not64 0xFFF)) in *. unfold indices. rewrite <- Hd, <- Hi.
  rewrite <- Hpte in He. unfold pte, leaf in He.
  unfold sbind at 1, sread. rewrite walk_pte. destruct (table_at (mem s) root (dirs page)) as [t|] eqn:Ht; [|discriminate].
  destruct (is_present (entry (mem s) t (p1_index page))) eqn:Hpr; [|discriminate]. injection He as <-.
  set (e := entry (mem s) t (p1_index page)) in *.
  unfold sbind at 1, get_entry, sread. fold e. rewrite Hcow. cbn [negb].
  unfold sbind at 1, expect_some, sbind at 1, allocate_frame.
  destruct (src_alloc_spec (frames s) Hok) as (r & a & Ha & Hoka & Hr). rewrite Ha. cbn [bind].
  destruct r as [f|]; cbn [sret spanic]; [|eauto]. destruct Hr as [Hf Hfa].
  pose proof (user_path_indices page (user_indices page Hpg)) as Hup.
  destruct (copied_flags_bits e) as (_ & _ & _ & _ & Hpres).
  assert (addr e <> frame_addr f) as Hne by (intros E; rewrite E, addr_frame_addr in Hnf; congruence).
  unfold sbind, copy_frame, smodify, set_entry, smodify, dec_frame_refcount.
  cbn [frames with_mem with_frames mem].
  set (mb := copy_entries (mem s) (addr e) (frame_addr f) 0 ENTRY_COUNT).
  set (sb := mkPhys mb a (tracked s)).
  assert (forall x i, aligned x -> (i < ENTRY_COUNT)%nat ->
    entry (mem sb) x i = if decide (frame_addr f = x) then entry (mem s) (addr e) i else entry (mem s) x i) as Hsb.
  { intros x i Hx Hi'. cbn [mem sb]. unfold mb. rewrite entry_copy_entries by (assumption || apply addr_bounds || apply frame_addr_aligned || lia).
    apply decide_ext. split; [tauto|]. intros; split; [assumption|lia]. }
  assert (forall x, wf s x -> forall p t i, user_path p -> table_at (mem s) x p = Some t -> (i < ENTRY_COUNT)%nat ->
    entry (mem sb) t i = entry (mem s) t i) as Hun.
  { intros x Hx. apply (free_frame_unseen s _ x f Hx Hf). intros y i Hy Hi' Hyf.
    now rewrite Hsb, decide_False by congruence. }
  assert (forall x, wf s x -> wf sb x) as Hwb.
  { intros x Hx. apply (wf_same s); [assumption|now apply Hun|]. intros g. cbn [frames sb]. rewrite Hfa.
    now intros [_ ?]%andb_true_iff. }
  destruct (same_tables _ _ _ (Hun root Hw)) as [Tr _], (same_tables _ _ _ (Hun other Ho)) as [To _].
  clearbody mb. set (e' := make_entry (frame_addr f) (copied_flags (flags e))).
  assert (leaf_updated sb (with_mem sb (put_entry (mem sb) t (p1_index page) e')) root other
            (dirs page ++ [p1_index page]) e') as Hlu.
  { apply (put_effect _ _ _ _ _ _ t); auto; [|apply table_index_lt|now rewrite Tr|].
    - intros p q x Hp Hq. rewrite Tr, To by assumption. eauto.
    - apply make_entry_present. now rewrite Hpres. }
  destruct (src_dec_spec a (addr_frame (addr e)) Hoka) as (r & a' & Ha' & _ & Hdec).
  rewrite Ha'. cbn [bind]. exists f. split; [assumption|]. split.
  - intros i Hi'.
    pose proof (table_at_aligned _ _ _ _ (wf_root _ _ Hw) Ht) as Hta.
    pose proof (addr_bounds e) as [Hea _]. pose proof (frame_addr_aligned f) as Hfal.
    assert (t <> frame_addr f) as Htf.
    { intros E. pose proof (wf_owned _ _ Hw _ _ Hup Ht) as E'. rewrite E, addr_frame_addr in E'. congruence. }
    assert (t <> addr e) as Hte by (intros E; destruct (Hnt (dirs page) Hup) as [N _]; apply N; congruence).
    cbn [mem with_frames with_mem]. rewrite !entry_put by (assumption || apply table_index_lt).
    rewrite !decide_False by tauto. change mb with (mem sb). rewrite !Hsb by assumption. rewrite decide_True, decide_False by congruence. auto.
  - apply (updated_through s sb _ root other (addr_frame (addr e)));
      [now apply Hun|now apply Hun|exact Hlu|exact Hdec|].
    + intros p x Hp Hx E. destruct (Hnt p Hp) as [N1 N2].
      assert (x = addr e) as ->; [|tauto].
      rewrite (aligned_frame (addr e)) by apply addr_bounds. rewrite <- E. apply aligned_frame.
      destruct Hx as [Hx|Hx]; [exact (table_at_aligned _ _ _ _ (wf_root _ _ Hw) Hx)|exact (table_at_aligned _ _ _ _ (wf_root _ _ Ho) Hx)].
Qed.

(** C10: a write to a copy-on-write page is private. When a page of an address
    space is marked copy-on-write and its frame is in use and no table,
    [handle_cow_fault] maps the page, writable and no longer marked, to a frame
    that was free, which holds exactly the words of the old frame; the old frame's
    words, every other page of the address space and every page of a disjoint
    address space are as they were. It panics only when the allocator has no
    frame. *)
Theorem handle_cow_fault_isolates {A} `{FrameSource A} (s : Phys A) root other cr2 e :
  src_ok (frames s) -> wf s root -> wf s other -> disjoint_tables (mem s) other root ->
  0 <= cr2 < USER_SPACE_MAX -> pte (mem s) root cr2 = Some e ->
  contains (flags e) COPY_ON_WRITE = true -> src_free (frames s) (addr_frame (addr e)) = false ->
  (forall p, user_path p ->
     table_at (mem s) root p <> Some (addr e) /\ table_at (mem s) other p <> Some (addr e)) ->
  match handle_cow_fault root cr2 s with
  | Done (Ok _, s') => wf s' root /\ wf s' other
      /\ (exists f e', src_free (frames s) f = true /\ pte (mem s') root cr2 = Some e' /\ addr e' = frame_addr f
            /\ contains (flags e') WRITABLE = true /\ contains (flags e') COPY_ON_WRITE = false
            /\ forall i, (i < ENTRY_COUNT)%nat ->
               entry (mem s') (frame_addr f) i = entry (mem s) (addr e) i
               /\ entry (mem s') (addr e) i = entry (mem s) (addr e) i)
      /\ forall va, 0 <= va < USER_SPACE_MAX ->
         pte (mem s') other va = pte (mem s) other va
         /\ (va / 4096 <> cr2 / 4096 -> pte (mem s') root va = pte (mem s) root va)
  | Done (Err _, _) => False
  | Panicked => exists a, src_alloc (frames s) = Done (None, a)
  end.
Proof.
  intros Hok Hw Ho Hdis Hva He Hcow Hnf Hnt.
  pose proof (cow_fault_spec s root other cr2 e Hok Hw Ho Hdis Hva He Hcow Hnf Hnt) as Hc.
  destruct (handle_cow_fault root cr2 s) as [[[[]|msg] s']|]; [|exact Hc..].
  destruct Hc as (f & Hf & Hcont & [Wr Wo _ _ _ Lr Lo]).
  destruct (copied_flags_bits e) as (B1 & B2 & B3 & B4 & _). pose proof (src_free_bound _ _ Hok Hf) as Hb.
  split; [assumption|]. split; [assumption|]. split.
  - exists f, (make_entry (frame_addr f) (copied_flags (flags e))). split; [assumption|]. split.
    + unfold pte. rewrite Lr by (apply table_index_lt || reflexivity || now apply user_path_indices, user_indices).
      now rewrite decide_True.
    + split; [now apply make_entry_addr; [lia|]|].
      assert (flags (make_entry (frame_addr f) (copied_flags (flags e))) = copied_flags (flags e)) as ->; [|auto].
      unfold flags at 1, make_entry. rewrite Z.land_lor_distr_l, <- Z.land_assoc, Z.land_0_r. exact B4.
  - intros va Hva'. pose proof (user_path_indices va (user_indices va Hva')) as Hup. unfold pte.
    rewrite Lo, Lr by (apply table_index_lt || reflexivity || assumption). split; [reflexivity|].
    intros Hne. rewrite decide_False; [reflexivity|]. intros E. apply Hne. now apply indices_page.
Qed.

(** The copy of fork drops the no-execute flag. Every page of the child is
    executable, whatever the parent's entry says, and so is every page of the
    parent that was writable: the flags are read with the mask [0xFFF], which
    leaves out bit 63. *)
Theorem clone_drops_no_execute {A} `{FrameSource A} (s : Phys A) cr3 parent va e :
  src_ok (frames s) -> wf s parent -> aligned cr3 -> src_free (frames s) (addr_frame cr3) = false ->
  0 <= va < USER_SPACE_MAX -> pte (mem s) parent va = Some e ->
  match clone_user_address_space cr3 parent s with
  | Done (Ok child, s') =>
      (exists e', pte (mem s') child va = Some e' /\ contains e' NO_EXECUTE = false)
      /\ (contains (flags e) WRITABLE = true ->
          exists e', pte (mem s') parent va = Some e' /\ contains e' NO_EXECUTE = false)
  | Done (Err _, _) => True
  | Panicked => False
  end.
Proof.
  intros Hok Hw Hcr Hcrf Hva He. pose proof (clone_spec s cr3 parent Hok Hw Hcr Hcrf) as Hc.
  destruct (clone_user_address_space cr3 parent s) as [[[child|msg] s']|]; [|exact I|exact Hc].
  destruct Hc as (_ & _ & _ & _ & _ & Hpte & _). destruct (Hpte va Hva) as [-> ->]. rewrite He.
  assert (contains (cow_child e) NO_EXECUTE = false) as Hnx.
  { unfold contains, cow_child. apply Z.eqb_neq. intros E. apply (f_equal (fun z => Z.testbit z 63)) in E.
    rewrite Z.land_spec in E. change (Z.testbit NO_EXECUTE 63) with true in E. rewrite andb_true_r in E.
    unfold make_entry, cow_flags, flags in E. destruct (contains _ _); rewrite !Z.lor_spec, !Z.land_spec in E;
      change (Z.testbit ADDR_MASK 63) with false in E; change (Z.testbit 0xFFF 63) with false in E;
      change (Z.testbit COPY_ON_WRITE 63) with false in E;
      rewrite !andb_false_r in E; discriminate. }
  split; [now exists (cow_child e)|]. intros Hwr. exists (cow_child e). split; [|assumption].
  cbn. unfold cow_parent. now rewrite Hwr.
Qed.

(** ** Witnesses *)

(** An address space with one writable page and a kernel stack, active. *)
Definition demo_user : Phys (option FrameAllocator.FrameAllocator) :=
  match map_page (fst demo_space) 0x400000 (frame_addr 200)
          (Z.lor (Z.lor (Z.lor PRESENT WRITABLE) USER_ACCESSIBLE) NO_EXECUTE) (snd demo_space) with
  | Done (_, s) => s
  | Panicked => snd demo_space
  end.

Lemma demo_user_ok : src_ok (frames demo_user) /\ wf demo_user (fst demo_space).
Proof.
  destruct demo_space_ok as [Hok Hw]. unfold demo_user.
  pose proof (map_page_spec (snd demo_space) (fst demo_space) 0x400000 (frame_addr 200)
    (Z.lor (Z.lor (Z.lor PRESENT WRITABLE) USER_ACCESSIBLE) NO_EXECUTE) Hok Hw (user_indices 0x400000 ltac:(unfold USER_SPACE_MAX; lia)) eq_refl) as Hs.
  destruct (map_page _ _ _ _ _) as [[[[]|msg] s']|]; [..|now split]; destruct Hs as [X _]; split; apply X.
Qed.

Lemma demo_user_page : exists e, pte (mem demo_user) (fst demo_space) 0x400000 = Some e
  /\ contains e NO_EXECUTE = true /\ contains (flags e) WRITABLE = true.
Proof.
  destruct (pte (mem demo_user) (fst demo_space) 0x400000) as [e|] eqn:E.
  - exists e. split; [reflexivity|].
    assert ((e' ← pte (mem demo_user) (fst demo_space) 0x400000;
             Some (contains e' NO_EXECUTE, contains (flags e') WRITABLE)) = Some (true, true)) as Hc
      by (vm_compute; reflexivity).
    rewrite E in Hc. cbn in Hc. injection Hc. auto.
  - assert (bool_decide (is_Some (pte (mem demo_user) (fst demo_space) 0x400000)) = true) as Hc
      by (vm_compute; reflexivity).
    rewrite E in Hc. discriminate.
Qed.

Lemma clone_user_address_space_copies_witness :
  exists child s' e, clone_user_address_space (fst demo_space) (fst demo_space) demo_user = Done (Ok child, s')
    /\ wf s' child /\ pte (mem demo_user) (fst demo_space) 0x400000 = Some e
    /\ exists ec, pte (mem s') child 0x400000 = Some ec /\ shares e ec.
Proof.
  destruct demo_user_ok as [Hok Hw]. destruct demo_user_page as (e & He & _).
  pose proof (clone_user_address_space_copies demo_user (fst demo_space) (fst demo_space) Hok Hw (wf_root _ _ Hw)
    (wf_owned _ _ Hw [] _ user_path_nil eq_refl)) as Hc.
  assert (succeeds (clone_user_address_space (fst demo_space) (fst demo_space) demo_user) = true) as Hs
    by (vm_compute; reflexivity).
  destruct (clone_user_address_space _ _ _) as [[[child|msg] s']|]; [|discriminate..].
  destruct Hc as (_ & Hcw & _ & _ & Hp & _). exists child, s', e.
  specialize (Hp 0x400000 ltac:(unfold USER_SPACE_MAX; lia)). rewrite He in Hp. destruct Hp as (ec & ep & Hec & _ & Hs' & _). eauto 10.
Defined.

Lemma clone_drops_no_execute_witness :
  exists child s' e e', clone_user_address_space (fst demo_space) (fst demo_space) demo_user = Done (Ok child, s')
    /\ pte (mem demo_user) (fst demo_space) 0x400000 = Some e /\ contains e NO_EXECUTE = true
    /\ pte (mem s') child 0x400000 = Some e' /\ contains e' NO_EXECUTE = false.
Proof.
  destruct demo_user_ok as [Hok Hw]. destruct demo_user_page as (e & He & Hnx & _).
  pose proof (clone_drops_no_execute demo_user (fst demo_space) (fst demo_space) 0x400000 e Hok Hw (wf_root _ _ Hw)
    (wf_owned _ _ Hw [] _ user_path_nil eq_refl) ltac:(unfold USER_SPACE_MAX; lia) He) as Hc.
  assert (succeeds (clone_user_address_space (fst demo_space) (fst demo_space) demo_user) = true) as Hs
    by (vm_compute; reflexivity).
  destruct (clone_user_address_space _ _ _) as [[[child|msg] s']|]; [|discriminate..].
  destruct Hc as [(e' & He' & Hx) _]. exists child, s', e, e'. auto 10.
Defined.

(** The address space of [demo_space] with its kernel stack's first page. *)
Definition demo_kernel : Phys (option FrameAllocator.FrameAllocator) :=
  let va := KERNEL_STACK_TOP - PAGE_SIZE in
  let m := mem (snd demo_space) in
  let m := put_entry m (fst demo_space) (p4_index va) (make_entry 0x300000 TABLE_FLAGS) in
  let m := put_entry m 0x300000 (p3_index va) (make_entry 0x301000 TABLE_FLAGS) in
  let m := put_entry m 0x301000 (p2_index va) (make_entry 0x302000 TABLE_FLAGS) in
  let m := put_entry m 0x302000 (p1_index va) (make_entry 0x303000 (Z.lor PRESENT WRITABLE)) in
  with_mem (snd demo_space) m.

Lemma fork_never_succeeds_witness :
  succeeds (clone_user_address_space (fst demo_space) (fst demo_space) demo_kernel) = true
  /\ match fork_space (fst demo_space) demo_kernel with Done (Ok _, _) => False | _ => True end.
Proof.
  split; [vm_compute; reflexivity|]. destruct demo_space_ok as [Hok Hw].
  destruct (empty_half_wf demo_kernel (fst demo_space)) as [Hwk Hroot];
    [apply (wf_root _ _ Hw)|vm_compute; reflexivity..|].
  apply (fork_never_succeeds demo_kernel (fst demo_space) Hok Hwk).
  exists (make_entry 0x300000 TABLE_FLAGS), (make_entry 0x301000 TABLE_FLAGS), (make_entry 0x302000 TABLE_FLAGS),
    (make_entry 0x303000 (Z.lor PRESENT WRITABLE)).
  split; [vm_compute; reflexivity|]. split.
  - repeat (apply Forall_cons_2; [split; vm_compute; reflexivity|]). constructor.
  - repeat (apply Forall_cons_2; [intros p Hp [_ E]%Hroot; [vm_compute in E; discriminate|assumption]|]). constructor.
Defined.

(** The address space of [demo_space] with a copy-on-write page; another,
    empty one is at [0x300000]. *)
Definition demo_shared : Phys (option FrameAllocator.FrameAllocator) :=
  match map_page (fst demo_space) 0x400000 (frame_addr 200)
          (Z.lor (Z.lor PRESENT COPY_ON_WRITE) USER_ACCESSIBLE) (snd demo_space) with
  | Done (_, s) => s
  | Panicked => snd demo_space
  end.

Lemma demo_shared_ok : src_ok (frames demo_shared) /\ wf demo_shared (fst demo_space)
  /\ forall p t, user_path p -> table_at (mem demo_shared) (fst demo_space) p = Some t ->
     t = fst demo_space \/ src_free (frames (snd demo_space)) (addr_frame t) = true.
Proof.
  destruct demo_space_ok as [Hok Hw].
  destruct (empty_half_wf (snd demo_space) (fst demo_space)) as [_ Hroot];
    [apply (wf_root _ _ Hw)|vm_compute; reflexivity..|].
  assert (extends (snd demo_space) demo_shared (fst demo_space)) as X.
  { unfold demo_shared.
    pose proof (map_page_spec (snd demo_space) (fst demo_space) 0x400000 (frame_addr 200)
      (Z.lor (Z.lor PRESENT COPY_ON_WRITE) USER_ACCESSIBLE) Hok Hw
      (user_indices 0x400000 ltac:(unfold USER_SPACE_MAX; lia)) eq_refl) as Hs.
    destruct (map_page _ _ _ _ _) as [[[[]|msg] s']|]; [apply Hs..|now apply extends_refl]. }
  split; [apply X|]. split; [apply X|]. intros p t Hp Ht.
  destruct (ext_new _ _ _ X p t Hp Ht) as [Ho|Ho]; [left; now apply (Hroot p)|now right].
Qed.

Lemma handle_cow_fault_isolates_witness :
  exists s' f e', handle_cow_fault (fst demo_space) 0x400123 demo_shared = Done (Ok tt, s')
    /\ pte (mem s') (fst demo_space) 0x400123 = Some e' /\ addr e' = frame_addr f
    /\ contains (flags e') WRITABLE = true.
Proof.
  destruct demo_shared_ok as (Hok & Hw & Htab).
  destruct (empty_half_wf demo_shared 0x300000) as [Hwo Hother]; [unfold aligned; lia|vm_compute; reflexivity..|].
  assert (forall p, user_path p -> table_at (mem demo_shared) (fst demo_space) p <> Some (frame_addr 200)
    /\ table_at (mem demo_shared) (fst demo_space) p <> Some 0x300000) as Hno.
  { intros p Hp. split; intros E; destruct (Htab p _ Hp E) as [F|F]; vm_compute in F; discriminate. }
  pose proof (handle_cow_fault_isolates demo_shared (fst demo_space) 0x300000 0x400123
    (make_entry (frame_addr 200) (Z.lor (Z.lor PRESENT COPY_ON_WRITE) USER_ACCESSIBLE)) Hok Hw Hwo) as Hc.
  assert (succeeds (handle_cow_fault (fst demo_space) 0x400123 demo_shared) = true) as Hs by (vm_compute; reflexivity).
  destruct (handle_cow_fault _ _ _) as [[[[]|msg] s']|]; [|discriminate..].
  destruct Hc as (_ & _ & (f & e' & _ & Hp & Ha & Hwr & _) & _).
  - intros p q t Hp Hq Ho Hr. destruct (Hother p t Hp Ho) as [_ ->]. destruct (Hno q Hq) as [_ N]. exact (N Hr).
  - unfold USER_SPACE_MAX. lia.
  - vm_compute. reflexivity.
  - reflexivity.
  - vm_compute. reflexivity.
  - intros p Hp. split; [apply (Hno p Hp)|]. intros E. destruct (Hother p _ Hp E) as [_ F].
    vm_compute in F. discriminate.
  - exists s', f, e'. auto.
Defined.

End Cow.
