(* ===== verification/Scheduler.v ===== *)
(** * The round-robin scheduler (src/kernel/src/scheduler.rs)

    The ready queue is a list of processes, front first.  Every public method
    is a definition on the scheduler's state; a method that hands out a
    reference to the current process returns that process.  The step relation
    [step] collects the ways the system calls of main.rs change the scheduler:
    yield, exit, blocking in waitpid, signals, process groups, fork and
    reaping. *)

From S2P Require Import Prelude Abi Pipe FdTable Process.
Import Abi Process.

Module Scheduler.

(** [struct Scheduler]. *)
Record Scheduler : Type := mkSched {
  ready_queue : list Process;
  current : option Process;
  foreground_pgid : option Z
}.

Definition new : Scheduler := mkSched [] None None.

(** [add_process]: panics unless the process is [Ready]. *)
Definition add_process (s : Scheduler) (p : Process) : outcome Scheduler :=
  let! _ := rust_assert (bool_decide (state p = Ready)) in
  Done (mkSched (ready_queue s ++ [with_state p Ready]) (current s) (foreground_pgid s)).

(** [proc.wake()] when the process waits for the child. *)
Definition wake_if (child_pid : Z) (p : Process) : Process :=
  if should_wake_on_child_exit p child_pid then wake p else p.

(** [wake_waiters_for_child]. *)
Definition wake_waiters_for_child (s : Scheduler) (child_pid : Z) : Scheduler :=
  mkSched (wake_if child_pid <$> ready_queue s) (wake_if child_pid <$> current s)
          (foreground_pgid s).

(** [wake_waiters_for_stopped_child]. *)
Definition wake_waiters_for_stopped_child (s : Scheduler) (child_pid : Z) : Scheduler :=
  wake_waiters_for_child s child_pid.

(** The first half of [schedule_next]: the current process is taken out, and
    queued again unless it has exited or a signal terminates it. *)
Definition requeue_current (s : Scheduler) : Scheduler :=
  match current s with
  | None => s
  | Some proc =>
      let s := mkSched (ready_queue s) None (foreground_pgid s) in
      if is_exited proc then s
      else
        let (act, proc) := deliver_signals proc in
        match act with
        | ActTerminate => s  (* [set_exited(128 + SIGINT)], then dropped *)
        | ActStop =>
            let child_pid := pid proc in
            let s := mkSched (ready_queue s ++ [set_stopped proc]) None (foreground_pgid s) in
            wake_waiters_for_stopped_child s child_pid
        | ActContinue | ActNone =>
            let proc := if negb (pending_signals proc =? 0) then wake proc else proc in
            mkSched (ready_queue s ++ [with_state proc Ready]) None (foreground_pgid s)
        end
  end.

(** Blocked and stopped processes are passed over. *)
Definition skipped (p : Process) : bool := is_blocked p || is_stopped p.

(** The loop of [schedule_next], [n] turns left: rotates the queue past the
    skipped processes. *)
Fixpoint pick (queue : list Process) (n : nat) : option Process * list Process :=
  match n with
  | O => (None, queue)
  | S n' =>
      match queue with
      | [] => pick queue n'
      | next :: rest =>
          if skipped next then pick (rest ++ [next]) n'
          else (Some (with_state next Running), rest)
      end
  end.

(** [schedule_next]. *)
Definition schedule_next (s : Scheduler) : option Process * Scheduler :=
  let s1 := requeue_current s in
  let ready_count := length (ready_queue s1) in
  let (next, queue) := pick (ready_queue s1) ready_count in
  (next, mkSched queue (match next with Some p => Some p | None => current s1 end)
           (foreground_pgid s1)).

(** [exit_current]. *)
Definition exit_current (s : Scheduler) (exit_code : Z) : bool * Scheduler :=
  match current s with
  | Some proc => (true, mkSched (ready_queue s) (Some (set_exited proc exit_code)) (foreground_pgid s))
  | None => (false, s)
  end.

(** [remove_exited]. *)
Definition remove_exited (s : Scheduler) : nat * Scheduler :=
  let initial_len := length (ready_queue s) in
  let queue := filter (fun p => is_exited p = false) (ready_queue s) in
  let removed := (initial_len - length queue)%nat in
  match current s with
  | Some proc =>
      if is_exited proc then ((removed + 1)%nat, mkSched queue None (foreground_pgid s))
      else (removed, mkSched queue (current s) (foreground_pgid s))
  | None => (removed, mkSched queue (current s) (foreground_pgid s))
  end.

Definition ready_count (s : Scheduler) : nat := length (ready_queue s).
Definition total_count (s : Scheduler) : nat :=
  (length (ready_queue s) + match current s with Some _ => 1 | None => 0 end)%nat.
Definition has_runnable (s : Scheduler) : bool :=
  match ready_queue s with [] => match current s with Some _ => true | None => false end | _ => true end.

(** [yield_current]. *)
Definition yield_current (s : Scheduler) : bool * Scheduler :=
  match current s with
  | Some _ => (true, snd (schedule_next s))
  | None => (false, s)
  end.

(** A zombie child of [parent_pid]. *)
Definition zombie_child_of (parent_pid : Z) (p : Process) : bool :=
  is_zombie p && bool_decide (Process.parent_pid p = Some parent_pid).

(** The first process of a queue that satisfies [f], and the queue without it. *)
Fixpoint take_first (f : Process -> bool) (queue : list Process)
    : option Process * list Process :=
  match queue with
  | [] => (None, [])
  | p :: rest =>
      if f p then (Some p, rest)
      else let (r, rest') := take_first f rest in (r, p :: rest')
  end.

(** [find_zombie_child]: takes the zombie out of the scheduler. *)
Definition find_zombie_child (s : Scheduler) (parent : Z) : option Process * Scheduler :=
  match current s with
  | Some proc =>
      if zombie_child_of parent proc
      then (Some proc, mkSched (ready_queue s) None (foreground_pgid s))
      else let (r, queue) := take_first (zombie_child_of parent) (ready_queue s) in
           (r, mkSched queue (current s) (foreground_pgid s))
  | None =>
      let (r, queue) := take_first (zombie_child_of parent) (ready_queue s) in
      (r, mkSched queue (current s) (foreground_pgid s))
  end.

Definition find_any_zombie_child (s : Scheduler) (parent : Z) := find_zombie_child s parent.

(** [p.parent_pid == Some(parent_pid)]. *)
Definition child_of (parent : Z) (p : Process) : bool :=
  bool_decide (Process.parent_pid p = Some parent).

Definition has_children (s : Scheduler) (parent : Z) : bool :=
  match current s with Some p => child_of parent p | None => false end
  || existsb (child_of parent) (ready_queue s).

Definition has_stopped_children (s : Scheduler) (parent : Z) : bool :=
  match current s with Some p => child_of parent p && is_stopped p | None => false end
  || existsb (fun p => child_of parent p && is_stopped p) (ready_queue s).

Definition find_stopped_child (s : Scheduler) (parent : Z) : option Z :=
  let queued := pid <$> find (fun p => is_stopped p && child_of parent p) (ready_queue s) in
  match current s with
  | Some p => if is_stopped p && child_of parent p then Some (pid p) else queued
  | None => queued
  end.

(** [all_processes]. *)
Definition all_processes (s : Scheduler) : list Process :=
  match current s with Some p => [p] | None => [] end ++ ready_queue s.

Definition set_foreground_pgid (s : Scheduler) (pgid : option Z) : Scheduler :=
  mkSched (ready_queue s) (current s) pgid.

(** [signal_process_group]. *)
Definition signal_if (group : Z) (sig : Signal) (p : Process) : Process :=
  if pgid p =? group then send_signal p sig else p.

Definition signal_process_group (s : Scheduler) (group : Z) (sig : Signal) : nat * Scheduler :=
  let count := (match current s with Some p => if (pgid p =? group)%Z then 1 else 0 | None => 0 end
                + length (filter (fun p => (pgid p =? group)%Z = true) (ready_queue s)))%nat in
  (count, mkSched (signal_if group sig <$> ready_queue s) (signal_if group sig <$> current s)
            (foreground_pgid s)).

(** [current_process_mut] with a change of the process. *)
Definition update_current (s : Scheduler) (f : Process -> Process) : Scheduler :=
  mkSched (ready_queue s) (f <$> current s) (foreground_pgid s).

(** ** Steps of the scheduler *)

(** A change of the running process that keeps its identity and state: its
    registers, wait state, signals, group, descriptors, memory. *)
Definition keeps_state (f : Process -> Process) : Prop :=
  forall p, state (f p) = state p /\ pid (f p) = pid p.

Inductive step (s : Scheduler) : Scheduler -> Prop :=
  | step_add p s' : add_process s p = Done s' -> step s s'
  | step_schedule : step s (snd (schedule_next s))
  | step_exit code : step s (snd (exit_current s code))
  | step_zombie code : step s (update_current s (fun p => set_zombie p code))
  | step_update f : keeps_state f -> step s (update_current s f)
  | step_wake child : step s (wake_waiters_for_child s child)
  | step_signal group sig : step s (snd (signal_process_group s group sig))
  | step_reap parent : step s (snd (find_zombie_child s parent))
  | step_remove : step s (snd (remove_exited s))
  | step_foreground g : step s (set_foreground_pgid s g).

Inductive steps (s : Scheduler) : Scheduler -> Prop :=
  | steps_refl : steps s s
  | steps_trans s1 s2 : steps s s1 -> step s1 s2 -> steps s s2.

Definition reachable (s : Scheduler) : Prop := steps new s.

(** ** Invariant *)

Definition queued_state (st : ProcessState) : bool :=
  match st with Ready | Stopped => true | _ => false end.

Record inv (s : Scheduler) : Prop := mkInv {
  inv_queue : Forall (fun p => queued_state (state p) = true) (ready_queue s);
  inv_current : forall p, current s = Some p -> queued_state (state p) = false
}.

(** [n] context switches in a row. *)
Fixpoint switches (n : nat) (s : Scheduler) : Scheduler :=
  match n with
  | O => s
  | S n' => switches n' (snd (schedule_next s))
  end.

(** Whether [schedule_next] keeps the current process. *)
Definition survives (p : Process) : bool :=
  negb (is_exited p) && match fst (deliver_signals p) with ActTerminate => false | _ => true end.

(** The pids a context switch keeps. *)
Definition surviving_pids (s : Scheduler) : list Z :=
  (pid <$> ready_queue s)
  ++ match current s with Some p => if survives p then [pid p] else [] | None => [] end.

(** A process for the examples below. *)
Definition demo_process (n : Z) (parent : option Z) : Process :=
  mkProcess n n parent Ready NotWaiting 0 0 0x400000 0x7FFFFFFFF000 0 0 zero
    FdTable.new 0 EmptyString EmptyString ∅ (mkHeap 0 0 0) [] 0x7FFF00000000 [].

(** Three processes: 1 and its children 2 and 3. *)
Definition demo : Scheduler :=
  mkSched [demo_process 1 None; demo_process 2 (Some 1); demo_process 3 (Some 1)] None None.

(** ** Lemmas *)

Lemma skipped_with_state p st :
  is_blocked (with_state p st) = is_blocked p.
Proof. reflexivity. Qed.

Lemma wake_if_state c p : state (wake_if c p) = state p /\ pid (wake_if c p) = pid p.
Proof. unfold wake_if. now case_match. Qed.

Lemma wake_if_runnable c p : skipped p = false -> wake_if c p = p.
Proof.
  unfold skipped, is_blocked, wake_if, should_wake_on_child_exit.
  destruct (wait_state p); [reflexivity|discriminate..].
Qed.

Lemma signal_if_state g sig p :
  state (signal_if g sig p) = state p /\ pid (signal_if g sig p) = pid p.
Proof. unfold signal_if. now case_match. Qed.

Lemma deliver_signals_pid p : pid (snd (deliver_signals p)) = pid p.
Proof. unfold deliver_signals, resume. now repeat case_match. Qed.

(** Rotating the queue to its first runnable process. *)
Lemma pick_spec n : forall q,
  (n <= length q)%nat ->
  (forall i p, (i < n)%nat -> q !! i = Some p -> skipped p = true)
    /\ pick q n = (None, drop n q ++ take n q)
  \/ exists i p, (i < n)%nat /\ q !! i = Some p /\ skipped p = false
    /\ (forall j r, (j < i)%nat -> q !! j = Some r -> skipped r = true)
    /\ pick q n = (Some (with_state p Running), drop (S i) q ++ take i q).
Proof.
  induction n as [|n IH]; intros q Hn; cbn [pick].
  { left. split; [intros; lia|]. now rewrite drop_0, app_nil_r. }
  destruct q as [|x q]; [cbn in Hn; lia|]. cbn [length] in Hn.
  destruct (skipped x) eqn:Hx.
  2:{ right. exists 0%nat, x. repeat split; try assumption; [lia|intros; lia|].
      cbn. now rewrite drop_0, app_nil_r. }
  destruct (IH (q ++ [x])) as [[Hall ->]|(i & p & Hi & Hp & Hs & Hlt & ->)];
    [rewrite length_app; cbn; lia| |].
  - left. split.
    + intros [|i] p Hi Hp; cbn in Hp; [congruence|]. apply (Hall i); [lia|].
      now apply lookup_app_l_Some.
    + rewrite drop_app_le, take_app_le by lia. cbn [drop take]. now rewrite <- app_assoc.
  - right. exists (S i), p. rewrite lookup_app_l in Hp by lia. repeat split; try assumption; try lia.
    + intros [|j] r Hj Hr; cbn in Hr; [congruence|]. apply (Hlt j); [lia|].
      now apply lookup_app_l_Some.
    + rewrite drop_app_le, take_app_le by lia. cbn [drop take]. now rewrite <- app_assoc.
Qed.

(** What [schedule_next] does to the queue left by its first half. *)
Lemma schedule_next_spec s :
  let q := ready_queue (requeue_current s) in
  (forall i p, q !! i = Some p -> skipped p = true)
    /\ schedule_next s = (None, mkSched q None (foreground_pgid s))
  \/ exists i p, q !! i = Some p /\ skipped p = false
    /\ (forall j r, (j < i)%nat -> q !! j = Some r -> skipped r = true)
    /\ schedule_next s = (Some (with_state p Running),
         mkSched (drop (S i) q ++ take i q) (Some (with_state p Running)) (foreground_pgid s)).
Proof.
  intros q. unfold schedule_next.
  assert (current (requeue_current s) = None) as Hc.
  { unfold requeue_current. destruct (current s) as [p|] eqn:E; [|assumption].
    destruct (is_exited p); [reflexivity|]. destruct (deliver_signals p) as [[] ?]; reflexivity. }
  assert (foreground_pgid (requeue_current s) = foreground_pgid s) as Hf.
  { unfold requeue_current. destruct (current s) as [p|] eqn:E; [|reflexivity].
    destruct (is_exited p); [reflexivity|]. destruct (deliver_signals p) as [[] ?]; reflexivity. }
  destruct (pick_spec (length q) q ltac:(lia)) as [[Hall E]|(i & p & Hi & Hp & Hs & Hlt & E)].
  - left. subst q. rewrite E, Hc, Hf. split; [intros; eapply Hall; eauto; eapply lookup_lt_Some; eauto|].
    rewrite drop_all, take_ge by lia. reflexivity.
  - right. exists i, p. subst q. rewrite E, Hf. auto.
Qed.

Lemma requeue_queue s i p :
  ready_queue s !! i = Some p -> skipped p = false ->
  ready_queue (requeue_current s) !! i = Some p.
Proof.
  intros Hi Hs. unfold requeue_current. destruct (current s) as [c|]; [|assumption].
  destruct (is_exited c); [assumption|]. destruct (deliver_signals c) as [[] c'];
    cbn [ready_queue wake_waiters_for_stopped_child wake_waiters_for_child];
    try assumption; try (now apply lookup_app_l_Some).
  rewrite list_lookup_fmap, (lookup_app_l_Some _ _ _ _ Hi). cbn. now rewrite wake_if_runnable.
Qed.

Lemma requeue_pids s : pid <$> ready_queue (requeue_current s) = surviving_pids s.
Proof.
  unfold surviving_pids, requeue_current, survives.
  destruct (current s) as [c|]; [|now rewrite app_nil_r].
  destruct (is_exited c); cbn [negb andb]; [now rewrite app_nil_r|].
  pose proof (deliver_signals_pid c) as Hp. destruct (deliver_signals c) as [[] c']; cbn in Hp;
    cbn [fst ready_queue wake_waiters_for_stopped_child wake_waiters_for_child];
    rewrite ?app_nil_r, ?fmap_app; try reflexivity.
  - destruct (negb _); cbn; congruence.
  - rewrite <- !list_fmap_compose. cbn. f_equal.
    + apply list_fmap_ext. intros. apply wake_if_state.
    + f_equal. rewrite (proj2 (wake_if_state _ _)). exact Hp.
  - destruct (negb _); cbn; congruence.
Qed.


Lemma Forall_fmap_state (f : Process -> Process) q :
  (forall p, state (f p) = state p) ->
  Forall (fun p => queued_state (state p) = true) q ->
  Forall (fun p => queued_state (state p) = true) (f <$> q).
Proof.
  intros Hf H. apply Forall_fmap. eapply Forall_impl; [exact H|].
  intros p Hp. cbn. now rewrite Hf.
Qed.

Lemma requeue_inv s : inv s ->
  Forall (fun p => queued_state (state p) = true) (ready_queue (requeue_current s)).
Proof.
  intros [Hq Hc]. unfold requeue_current. destruct (current s) as [c|]; [|assumption].
  destruct (is_exited c); [assumption|]. destruct (deliver_signals c) as [[] c']; cbn [ready_queue];
    try assumption; try (apply Forall_app; split; [assumption|]; now repeat constructor).
  apply Forall_fmap_state; [apply wake_if_state|].
  apply Forall_app; split; [assumption|]; now repeat constructor.
Qed.

Lemma schedule_next_inv s : inv s ->
  inv (snd (schedule_next s))
  /\ forall p, current (snd (schedule_next s)) = Some p -> state p = Running.
Proof.
  intros Hi. pose proof (requeue_inv s Hi) as Hq.
  destruct (schedule_next_spec s) as [[_ ->]|(i & p & _ & _ & _ & ->)]; cbn [snd].
  - split; [constructor; cbn; [assumption|discriminate]|discriminate].
  - split; [constructor; cbn|].
    + apply Forall_app. split; [now apply Forall_drop|now apply Forall_take].
    + intros p' [= <-]. reflexivity.
    + cbn. intros p' [= <-]. reflexivity.
Qed.

Lemma take_first_spec f q :
  let (r, q') := take_first f q in
  match r with
  | Some p => f p = true /\ p :: q' ≡ₚ q
  | None => q' = q /\ forall p, p ∈ q -> f p = false
  end.
Proof.
  induction q as [|x q IH]; cbn [take_first].
  { split; [reflexivity|]. intros p Hp. now apply elem_of_nil in Hp. }
  destruct (f x) eqn:Hx; [auto|]. destruct (take_first f q) as [[p|] q'].
  - destruct IH as [Hf Hp]. split; [assumption|]. rewrite <- Hp. apply Permutation_swap.
  - destruct IH as [-> Hall]. split; [reflexivity|]. intros p [->|Hp]%elem_of_cons; auto.
Qed.

Lemma sched_inv_new : inv new.
Proof. constructor; cbn; [constructor|discriminate]. Qed.

Lemma zombie_not_queued q :
  Forall (fun p => queued_state (state p) = true) q ->
  forall p, p ∈ q -> is_zombie p = false.
Proof.
  intros H p Hp. rewrite Forall_forall in H. specialize (H p Hp).
  unfold is_zombie. now destruct (state p).
Qed.

(** In a good state, a zombie child can only be the current process. *)
Lemma find_zombie_child_spec s parent : inv s ->
  match fst (find_zombie_child s parent) with
  | Some p => current s = Some p /\ is_zombie p = true
  | None => snd (find_zombie_child s parent) = s
  end.
Proof.
  intros [Hq Hc]. pose proof (zombie_not_queued _ Hq) as Hz.
  unfold find_zombie_child. pose proof (take_first_spec (zombie_child_of parent) (ready_queue s)) as Ht.
  assert (forall p, p ∈ ready_queue s -> zombie_child_of parent p = false) as Hn
    by (intros p Hp; unfold zombie_child_of; now rewrite Hz).
  destruct (take_first (zombie_child_of parent) (ready_queue s)) as [[p|] q'].
  { destruct Ht as [Hf Hp]. exfalso. assert (p ∈ ready_queue s) as Hin by (rewrite <- Hp; left).
    rewrite (Hn p Hin) in Hf. discriminate. }
  destruct Ht as [-> _]. destruct s as [q c g]. cbn in *.
  destruct c as [c|]; [|reflexivity]. destruct (zombie_child_of parent c) eqn:E; [|reflexivity].
  cbn. split; [reflexivity|]. unfold zombie_child_of in E. now apply andb_true_iff in E.
Qed.

Lemma step_inv s s' : inv s -> step s s' -> inv s'.
Proof.
  intros Hi Hs. destruct Hs as [p s' H|  |code|code|f Hf|child|group sig|parent| |g].
  - apply bind_Done in H as (u & _ & [= <-]). destruct Hi. constructor; cbn; [|assumption].
    apply Forall_app; split; [assumption|]; now repeat constructor.
  - now apply schedule_next_inv.
  - unfold exit_current. destruct (current s) eqn:E; cbn; [|assumption].
    destruct Hi. constructor; cbn; [assumption|]. now intros p' [= <-].
  - destruct Hi as [Hq Hc]. constructor; cbn; [assumption|].
    destruct (current s); cbn; [|discriminate]. now intros p' [= <-].
  - destruct Hi as [Hq Hc]. constructor; cbn; [assumption|].
    destruct (current s) as [p|]; cbn; [|discriminate]. intros p' [= <-].
    rewrite (proj1 (Hf p)). now apply Hc.
  - destruct Hi as [Hq Hc]. constructor; cbn.
    + apply Forall_fmap_state; [apply wake_if_state|assumption].
    + destruct (current s) as [p|]; cbn; [|discriminate]. intros p' [= <-].
      rewrite (proj1 (wake_if_state child p)). now apply Hc.
  - destruct Hi as [Hq Hc]. constructor; cbn.
    + apply Forall_fmap_state; [apply signal_if_state|assumption].
    + destruct (current s) as [p|]; cbn; [|discriminate]. intros p' [= <-].
      rewrite (proj1 (signal_if_state group sig p)). now apply Hc.
  - unfold find_zombie_child.
    pose proof (take_first_spec (zombie_child_of parent) (ready_queue s)) as Ht.
    destruct (take_first _ _) as [r q']. destruct Hi as [Hq Hc].
    assert (Forall (fun p => queued_state (state p) = true) q') as Hq'.
    { destruct r as [p|]; destruct Ht as [H1 H2]; [|now subst].
      rewrite <- H2 in Hq. now apply Forall_cons_1 in Hq. }
    destruct (current s) as [c|] eqn:E; [destruct (zombie_child_of parent c)|]; constructor; cbn; try assumption;
      try discriminate; intros c1 Hc1; apply Hc; congruence.
  - unfold remove_exited. destruct Hi as [Hq Hc].
    assert (Forall (fun p => queued_state (state p) = true)
      (filter (fun p => is_exited p = false) (ready_queue s))) as Hq'
      by (apply Forall_forall; intros p [_ Hp]%list_elem_of_filter; rewrite Forall_forall in Hq; auto).
    destruct (current s) as [c|] eqn:E; [destruct (is_exited c)|]; constructor; cbn; try assumption;
      try discriminate; intros c1 Hc1; apply Hc; congruence.
  - destruct Hi. now constructor.
Qed.

Lemma sched_reachable_inv s : reachable s -> inv s.
Proof. induction 1; [apply sched_inv_new|eauto using step_inv]. Qed.


Lemma sched_demo_reachable : reachable demo.
Proof.
  eapply (steps_trans _ (mkSched [demo_process 1 None; demo_process 2 (Some 1)] None None)).
  - eapply (steps_trans _ (mkSched [demo_process 1 None] None None)).
    + eapply (steps_trans _ new); [apply steps_refl|].
      apply (step_add _ (demo_process 1 None)). reflexivity.
    + apply (step_add _ (demo_process 2 (Some 1))). reflexivity.
  - apply (step_add _ (demo_process 3 (Some 1))). reflexivity.
Qed.

Lemma running_unique q :
  Forall (fun p => queued_state (state p) = true) q ->
  filter (fun p => state p = Running) q = [].
Proof.
  induction 1 as [|p q Hp _ IH]; [reflexivity|]. rewrite filter_cons, decide_False; [assumption|].
  intros E. rewrite E in Hp. discriminate.
Qed.

Lemma bounded_waiting_aux k : forall s p,
  ready_queue s !! k = Some p -> skipped p = false ->
  exists n, (1 <= n <= S k)%nat /\ current (switches n s) = Some (with_state p Running).
Proof.
  induction k as [k IH] using lt_wf_ind. intros s p Hp Hs.
  pose proof (requeue_queue s k p Hp Hs) as Hq.
  destruct (schedule_next_spec s) as [[Hall _]|(i & r & Hi & Hr & Hlt & E)].
  { rewrite (Hall k p Hq) in Hs. discriminate. }
  destruct (decide (i = k)) as [->|Hne].
  { exists 1%nat. split; [lia|]. cbn [switches]. rewrite E. cbn. congruence. }
  assert (i < k)%nat as Hik.
  { destruct (decide (k < i)%nat) as [H|]; [|lia]. rewrite (Hlt k p H Hq) in Hs. discriminate. }
  destruct (IH (k - S i)%nat ltac:(lia) (snd (schedule_next s)) p) as (n & Hn & Hc).
  - rewrite E. cbn [snd ready_queue]. apply lookup_app_l_Some. rewrite lookup_drop.
    rewrite <- Hq. f_equal. lia.
  - assumption.
  - exists (S n). split; [lia|]. exact Hc.
Qed.

Lemma requeue_stopped s p :
  p ∈ ready_queue s -> state p = Stopped ->
  exists p', p' ∈ ready_queue (requeue_current s) /\ state p' = Stopped /\ pid p' = pid p.
Proof.
  intros Hp Hst. unfold requeue_current. destruct (current s) as [c|]; [|eauto].
  destruct (is_exited c); [eauto|]. destruct (deliver_signals c) as [[] c'];
    cbn [ready_queue wake_waiters_for_stopped_child wake_waiters_for_child]; eauto.
  - exists p. rewrite elem_of_app. auto.
  - exists (wake_if (pid c') p). destruct (wake_if_state (pid c') p) as [-> ->].
    split; [|auto]. apply list_elem_of_fmap. exists p. rewrite elem_of_app. auto.
  - exists p. rewrite elem_of_app. auto.
Qed.

Lemma stopped_step s s' p :
  step s s' -> p ∈ ready_queue s -> state p = Stopped ->
  exists p', p' ∈ ready_queue s' /\ state p' = Stopped /\ pid p' = pid p.
Proof.
  intros Hs Hp Hst. destruct Hs as [q s' H|  |code|code|f Hf|child|group sig|parent| |g];
    try (exists p; cbn; auto; fail).
  - apply bind_Done in H as (u & _ & [= <-]). exists p. cbn. rewrite elem_of_app. auto.
  - destruct (requeue_stopped s p Hp Hst) as (p' & Hp' & Hst' & Hpid).
    destruct (schedule_next_spec s) as [[_ ->]|(i & r & Hi & Hr & _ & ->)];
      cbn [snd ready_queue]; [eauto|]. exists p'. split; [|auto].
    rewrite <- (take_drop_middle _ _ _ Hi) in Hp'.
    apply elem_of_app in Hp' as [Hp'|Hp']; [apply elem_of_app; auto|].
    apply elem_of_cons in Hp' as [->|Hp']; [|apply elem_of_app; auto].
    unfold skipped, is_stopped in Hr. rewrite Hst' in Hr. now rewrite orb_true_r in Hr.
  - unfold exit_current. destruct (current s); exists p; auto.
  - exists (wake_if child p). cbn. destruct (wake_if_state child p) as [-> ->]. split; [|auto].
    apply list_elem_of_fmap. eauto.
  - exists (signal_if group sig p). cbn. destruct (signal_if_state group sig p) as [-> ->].
    split; [|auto]. apply list_elem_of_fmap. eauto.
  - exists p. split; [|auto]. unfold find_zombie_child.
    pose proof (take_first_spec (zombie_child_of parent) (ready_queue s)) as Ht.
    assert (zombie_child_of parent p = false) as Hz
      by (unfold zombie_child_of, is_zombie; now rewrite Hst).
    destruct (take_first _ _) as [r q']. assert (p ∈ q') as Hq'.
    { destruct r as [x|]; destruct Ht as [H1 H2]; [|now subst].
      rewrite <- H2 in Hp. apply elem_of_cons in Hp as [->|]; [congruence|assumption]. }
    destruct (current s) as [c|]; [destruct (zombie_child_of parent c)|]; assumption.
  - exists p. split; [|auto]. unfold remove_exited.
    assert (p ∈ filter (fun p => is_exited p = false) (ready_queue s)) as Hf.
    { apply list_elem_of_filter. split; [unfold is_exited; now rewrite Hst|assumption]. }
    destruct (current s) as [c|]; [destruct (is_exited c)|]; assumption.
Qed.

(** ** Properties *)

Lemma at_most_one_running s : inv s -> (length (filter (fun p => state p = Running) (all_processes s)) <= 1)%nat.
Proof.
  intros [Hq _]. unfold all_processes. rewrite filter_app, (running_unique _ Hq), app_nil_r.
  destruct (current s); [|cbn; lia]. etransitivity; [apply length_filter|]. reflexivity.
Qed.

(** C26: in every state the system calls can bring the scheduler into, at most
    one process is in the [Running] state and it is the current one. The queue
    holds only processes in the states [Ready] and [Stopped]: a stopped
    process stays in it, although the documentation of the scheduler says that
    the queue has ready processes only. *)
Theorem one_running_process s :
  reachable s ->
  (length (filter (fun p => state p = Running) (all_processes s)) <= 1)%nat
  /\ (forall p, p ∈ ready_queue s -> state p = Ready \/ state p = Stopped)
  /\ (forall p, current s = Some p -> state p <> Ready /\ state p <> Stopped).
Proof.
  intros Hr. pose proof (sched_reachable_inv s Hr) as Hi. pose proof (at_most_one_running s Hi).
  destruct Hi as [Hq Hc]. split; [assumption|]. split.
  - intros p Hp. rewrite Forall_forall in Hq. specialize (Hq p Hp). destruct (state p); auto; discriminate.
  - intros p Hp. specialize (Hc p Hp). split; intros E; now rewrite E in Hc.
Qed.

Lemma one_running_process_witness :
  (length (filter (fun p => state p = Running) (all_processes demo)) <= 1)%nat.
Proof. apply (one_running_process demo), sched_demo_reachable. Defined.

(** A context switch loses and duplicates no process: the pids after
    [schedule_next] are those of the queue plus the current process, except
    that a current process that has exited, or that a pending SIGINT
    terminates, is gone. The process it returns is the current one, running. *)
Theorem schedule_next_keeps_processes s :
  let (r, s') := schedule_next s in
  (pid <$> all_processes s') ≡ₚ surviving_pids s
  /\ r = current s' /\ (forall p, r = Some p -> state p = Running).
Proof.
  rewrite <- requeue_pids.
  destruct (schedule_next_spec s) as [[_ ->]|(i & p & Hi & _ & _ & ->)]; cbn [all_processes current ready_queue].
  - split; [reflexivity|]. split; [reflexivity|discriminate].
  - split; [|split; [reflexivity|now intros ? [= <-]]].
    rewrite <- (take_drop_middle _ _ _ Hi) at 3. rewrite (Permutation_app_comm (take i _)).
    reflexivity.
Qed.

(** C27: round-robin fairness. A process at position [k] of the ready queue that
    is neither blocked nor stopped is running after at most [k + 1] context
    switches. *)
Theorem bounded_waiting s k p :
  ready_queue s !! k = Some p -> skipped p = false ->
  exists n, (1 <= n <= S k)%nat /\ current (switches n s) = Some (with_state p Running).
Proof. apply bounded_waiting_aux. Qed.

Lemma bounded_waiting_witness :
  exists n, (1 <= n <= 3)%nat
    /\ current (switches n demo) = Some (with_state (demo_process 3 (Some 1)) Running).
Proof. apply (bounded_waiting demo 2); reflexivity. Defined.

(** [schedule_next] returns nothing exactly when every process left to run
    is blocked or stopped; otherwise it returns the first one in queue order
    that is not. *)
Theorem schedule_next_selects s :
  let q := ready_queue (requeue_current s) in
  fst (schedule_next s)
  = (fun p => with_state p Running) <$> find (fun p => negb (skipped p)) q.
Proof.
  intros q. destruct (schedule_next_spec s) as [[Hall ->]|(i & p & Hi & Hs & Hlt & ->)];
    cbn [fst].
  - change (ready_queue (requeue_current s)) with q in Hall. assert (forall p, In p q -> skipped p = true) as H
      by (intros p Hp%list_elem_of_In%list_elem_of_lookup_1; naive_solver).
    clear Hall. clearbody q. induction q as [|x q IH]; [reflexivity|]. cbn [find].
    rewrite (H x) by now left. apply IH. intros. apply H. now right.
  - revert Hi Hlt. change (ready_queue (requeue_current s)) with q. clearbody q. revert i. induction q as [|x q IH]; intros [|i] Hi Hlt;
      try discriminate; cbn [find]; cbn in Hi.
    + injection Hi as ->. now rewrite Hs.
    + rewrite (Hlt 0%nat x) by (lia || reflexivity). cbn. apply (IH i Hi).
      intros j r Hj Hr. apply (Hlt (S j)); [lia|assumption].
Qed.

(** No process is ever found as a zombie by a running process. A process
    that exits with a parent is marked as a zombie while it is current, and the
    context switch that follows drops it, so in every reachable state after a
    context switch no zombie child exists for any parent: its exit status can
    never be collected. *)
Theorem zombies_are_lost s parent :
  reachable s ->
  fst (find_zombie_child (snd (schedule_next s)) parent) = None
  /\ (forall p, current s = Some p -> state p = Running ->
      fst (find_zombie_child s parent) = None).
Proof.
  intros Hr. pose proof (sched_reachable_inv s Hr) as Hi. split.
  - destruct (schedule_next_inv s Hi) as [Hi' Hrun].
    pose proof (find_zombie_child_spec _ parent Hi') as H.
    destruct (fst (find_zombie_child (snd (schedule_next s)) parent)) as [p|]; [|reflexivity].
    destruct H as [Hc Hz]. specialize (Hrun p Hc). unfold is_zombie in Hz. now rewrite Hrun in Hz.
  - intros p Hc Hrun. pose proof (find_zombie_child_spec _ parent Hi) as H.
    destruct (fst (find_zombie_child s parent)) as [z|]; [|reflexivity].
    destruct H as [Hc' Hz]. rewrite Hc in Hc'. injection Hc' as <-.
    unfold is_zombie in Hz. now rewrite Hrun in Hz.
Qed.

Lemma zombies_are_lost_witness :
  let s1 := snd (schedule_next (snd (schedule_next demo))) in
  let s2 := update_current s1 (fun p => set_zombie p 7) in
  (pid <$> current s2) = Some 2
  /\ fst (find_zombie_child (snd (schedule_next (wake_waiters_for_child s2 2))) 1) = None.
Proof.
  split; [vm_compute; reflexivity|]. apply (zombies_are_lost _ 1).
  eapply steps_trans; [|apply step_wake]. eapply steps_trans; [|apply step_zombie].
  eapply steps_trans; [|apply step_schedule]. eapply steps_trans; [|apply step_schedule].
  apply sched_demo_reachable.
Defined.

(** A stopped process stays stopped forever: signals are delivered only to
    the current process, and the scheduler never makes a stopped process
    current, so whatever sequence of steps follows, SIGCONT included, the
    process is still in the ready queue, stopped. *)
Theorem stopped_forever s s' p :
  steps s s' -> p ∈ ready_queue s -> state p = Stopped ->
  exists p', p' ∈ ready_queue s' /\ state p' = Stopped /\ pid p' = pid p.
Proof.
  induction 1 as [|s1 s2 Hs IH H1]; intros Hp Hst; [eauto|].
  destruct (IH Hp Hst) as (p1 & Hp1 & Hst1 & Hpid1).
  destruct (stopped_step _ _ _ H1 Hp1 Hst1) as (p2 & ? & ? & ?). exists p2. split; [assumption|].
  split; [assumption|congruence].
Qed.

Lemma stopped_forever_witness :
  let s := mkSched [with_state (demo_process 2 (Some 1)) Stopped] None None in
  exists p', p' ∈ ready_queue (snd (schedule_next (snd (signal_process_group s 2 SIGCONT))))
    /\ state p' = Stopped /\ pid p' = 2.
Proof.
  intros s. apply (stopped_forever s _ (with_state (demo_process 2 (Some 1)) Stopped)).
  - eapply steps_trans; [|apply step_schedule]. eapply steps_trans; [|apply step_signal].
    apply steps_refl.
  - apply list_elem_of_In. left. reflexivity.
  - reflexivity.
Defined.


End Scheduler.
