(* ===== verification/Path.v ===== *)
(** * Paths (src/kernel/src/fs.rs, [resolve_path] and [normalize_path])

    A Rust [&str] is its sequence of bytes, a [string]; ['/'] and ['.'] are
    single bytes of UTF-8 that occur in no other character, so splitting at
    them is splitting the bytes.  Module [Str] holds the functions of [str]
    the file systems use; module [Path] the two path functions. *)

From Stdlib Require Import Ascii.
From S2P Require Import Prelude Abi.
Import Abi.

Module Str.

Notation slash := "/"%char.

(** [s.split('/')]: at least one part, possibly empty. *)
Fixpoint split (s : string) : list string :=
  match s with
  | EmptyString => [EmptyString]
  | String c rest =>
      if Ascii.eqb c slash then EmptyString :: split rest
      else match split rest with
           | w :: ws => String c w :: ws
           | [] => [String c EmptyString]
           end
  end.

(** [s.split(sep)] at another byte. *)
Fixpoint split_on (sep : ascii) (s : string) : list string :=
  match s with
  | EmptyString => [EmptyString]
  | String c rest =>
      if Ascii.eqb c sep then EmptyString :: split_on sep rest
      else match split_on sep rest with
           | w :: ws => String c w :: ws
           | [] => [String c EmptyString]
           end
  end.

Definition is_empty (s : string) : bool :=
  match s with EmptyString => true | _ => false end.

(** [s.starts_with('/')] and [s.ends_with('/')]. *)
Definition starts_with_slash (s : string) : bool :=
  match s with String c _ => Ascii.eqb c slash | EmptyString => false end.

Fixpoint ends_with_slash (s : string) : bool :=
  match s with
  | EmptyString => false
  | String c EmptyString => Ascii.eqb c slash
  | String _ rest => ends_with_slash rest
  end.

(** [s.contains('/')]. *)
Fixpoint contains_slash (s : string) : bool :=
  match s with
  | EmptyString => false
  | String c rest => Ascii.eqb c slash || contains_slash rest
  end.

(** [s.strip_prefix(p)]. *)
Fixpoint strip_prefix (p s : string) : option string :=
  match p, s with
  | EmptyString, _ => Some s
  | String a p', String b s' => if Ascii.eqb a b then strip_prefix p' s' else None
  | String _ _, EmptyString => None
  end.

(** [s.strip_prefix('/').unwrap_or(s)]. *)
Definition without_leading_slash (s : string) : string :=
  match strip_prefix "/" s with Some r => r | None => s end.

(** The position of the last slash, [s.rfind('/')]. *)
Fixpoint rfind_slash (s : string) : option nat :=
  match s with
  | EmptyString => None
  | String c rest =>
      match rfind_slash rest with
      | Some i => Some (S i)
      | None => if Ascii.eqb c slash then Some O else None
      end
  end.

(** [s[..n]] and [s[n..]] of a position in the string. *)
Fixpoint str_take (n : nat) (s : string) : string :=
  match n, s with
  | S n', String c rest => String c (str_take n' rest)
  | _, _ => EmptyString
  end.

Fixpoint str_drop (n : nat) (s : string) : string :=
  match n, s with
  | S n', String _ rest => str_drop n' rest
  | _, _ => s
  end.

Lemma str_app_nil_r s : s +:+ EmptyString = s.
Proof. induction s as [|c s IH]; [reflexivity|]. exact (f_equal (String c) IH). Qed.

Lemma str_app_assoc a b c : a +:+ (b +:+ c) = (a +:+ b) +:+ c.
Proof. induction a as [|x a IH]; [reflexivity|]. exact (f_equal (String x) IH). Qed.

Lemma split_on_concat sep s : String.concat (String sep EmptyString) (split_on sep s) = s.
Proof.
  assert (forall s, split_on sep s <> []) as Hne.
  { intros [|c s']; cbn; [discriminate|]. destruct (Ascii.eqb c sep); [discriminate|]. now destruct (split_on sep s'). }
  induction s as [|c rest IH]; [reflexivity|]. cbn [split_on]. specialize (Hne rest).
  destruct (split_on sep rest) as [|w ws]; [done|].
  destruct (Ascii.eqb_spec c sep) as [->|_]; [exact (f_equal (String sep) IH)|].
  destruct ws; exact (f_equal (String c) IH).
Qed.

Lemma split_not_nil s : split s <> [].
Proof. destruct s as [|c s]; cbn; [discriminate|]. destruct (Ascii.eqb c slash); [discriminate|]. now destruct (split s). Qed.

Lemma contains_slash_app a b : contains_slash (a +:+ b) = contains_slash a || contains_slash b.
Proof.
  induction a as [|c a IH]; [reflexivity|].
  change (contains_slash (String c a +:+ b)) with (Ascii.eqb c slash || contains_slash (a +:+ b)).
  rewrite IH. apply orb_assoc.
Qed.

Lemma split_no_slash s : contains_slash s = false -> split s = [s].
Proof.
  induction s as [|c s IH]; cbn; [reflexivity|]. intros [Hc Hs]%orb_false_iff.
  now rewrite Hc, IH.
Qed.

(** Splitting undoes putting a slash between two strings. *)
Lemma split_app a b : split (a +:+ String slash b) = split a ++ split b.
Proof.
  induction a as [|c a IH]; [reflexivity|].
  change (String c a +:+ String slash b) with (String c (a +:+ String slash b)).
  cbn [split]. destruct (Ascii.eqb c slash).
  - now rewrite IH.
  - rewrite IH. destruct (split a) as [|w ws] eqn:E; [now apply split_not_nil in E|]. reflexivity.
Qed.

Lemma split_parts s w : w ∈ split s -> contains_slash w = false.
Proof.
  revert w. induction s as [|c s IH]; intros w; cbn [split].
  - intros ->%list_elem_of_singleton. reflexivity.
  - destruct (Ascii.eqb c slash) eqn:Hc.
    + intros [->|H]%elem_of_cons; [reflexivity|auto].
    + destruct (split s) as [|x xs].
      * intros ->%list_elem_of_singleton. cbn. now rewrite Hc.
      * intros [->|H]%elem_of_cons; cbn; [rewrite Hc; apply IH; left|apply IH; now right].
Qed.

Lemma ends_with_slash_inv s : ends_with_slash s = true -> exists t, s = t +:+ "/".
Proof.
  induction s as [|c s IH]; [discriminate|]. cbn [ends_with_slash]. destruct s as [|d s].
  - intros ->%Ascii.eqb_eq. now exists EmptyString.
  - intros [t ->]%IH. now exists (String c t).
Qed.

End Str.

Module Path.
Import Str.

(** One turn of the loop of [normalize_path] over the components. *)
Definition push_component (components : list string) (component : string) : list string :=
  if bool_decide (component = EmptyString) || bool_decide (component = ".") then components
  else if bool_decide (component = "..") then
    match components with [] => components | _ => removelast components end
  else components ++ [component].

(** The loop that builds the normalized path, from the [i]-th component. *)
Fixpoint push_all (result : string) (i : nat) (components : list string) : string :=
  match components with
  | [] => result
  | c :: rest =>
      let result := if (0 <? i)%nat then result +:+ "/" else result in
      push_all (result +:+ c) (S i) rest
  end.

Definition render (components : list string) : string :=
  match components with
  | [] => "/"
  | _ => push_all "/" 0 components
  end.

(** The [components] vector after the loop. *)
Definition components (path : string) : list string :=
  fold_left push_component (split path) [].

(** [normalize_path]. *)
Definition normalize_path (path : string) : result string ErrorCode :=
  if negb (starts_with_slash path) then Err EINVAL
  else Ok (render (components path)).

(** [resolve_path]. *)
Definition resolve_path (cwd path : string) : result string ErrorCode :=
  if starts_with_slash path then normalize_path path
  else
    let combined :=
      if ends_with_slash cwd then cwd +:+ path else cwd +:+ "/" +:+ path in
    normalize_path combined.

(** A component a normalized path may have. *)
Definition plain (c : string) : bool :=
  negb (contains_slash c) && negb (bool_decide (c ∈ [EmptyString; "."; ".."])).

(** ** Lemmas *)

Lemma plain_push cs c : plain c = true -> push_component cs c = cs ++ [c].
Proof.
  unfold plain, push_component. intros [_ H]%andb_true_iff.
  apply negb_true_iff, bool_decide_eq_false in H. rewrite !elem_of_cons in H.
  rewrite !bool_decide_eq_false_2 by tauto. reflexivity.
Qed.

Lemma plain_fold cs : forall acc,
  Forall (fun c => plain c = true) cs -> fold_left push_component cs acc = acc ++ cs.
Proof.
  induction cs as [|c cs IH]; intros acc; [now rewrite app_nil_r|].
  intros [Hc Hcs]%Forall_cons_1. cbn [fold_left]. rewrite plain_push, IH by assumption.
  now rewrite <- (assoc_L (++)).
Qed.

Lemma push_component_plain cs c :
  contains_slash c = false -> Forall (fun c => plain c = true) cs ->
  Forall (fun c => plain c = true) (push_component cs c).
Proof.
  intros Hc Hcs. unfold push_component.
  destruct (bool_decide_reflect (c = EmptyString)); cbn [orb]; [assumption|].
  destruct (bool_decide_reflect (c = ".")); cbn [orb]; [assumption|].
  destruct (bool_decide_reflect (c = "..")).
  - destruct cs as [|x cs']; [assumption|]. rewrite removelast_firstn_len. now apply Forall_take.
  - apply Forall_app. split; [assumption|]. repeat constructor. unfold plain. rewrite Hc. cbn.
    apply negb_true_iff, bool_decide_eq_false. rewrite !elem_of_cons, elem_of_nil. tauto.
Qed.

Lemma fold_plain ws : forall acc,
  (forall w, w ∈ ws -> contains_slash w = false) ->
  Forall (fun c => plain c = true) acc ->
  Forall (fun c => plain c = true) (fold_left push_component ws acc).
Proof.
  induction ws as [|w ws IH]; intros acc Hws Hacc; [assumption|]. cbn [fold_left].
  apply IH; [intros; apply Hws; now right|]. apply push_component_plain; [|assumption].
  apply Hws. left.
Qed.

Lemma components_plain p : Forall (fun c => plain c = true) (components p).
Proof. apply fold_plain; [apply split_parts|constructor]. Qed.

Lemma push_all_spec cs : forall result i,
  Forall (fun c => plain c = true) cs ->
  split (push_all result (S i) cs) = split result ++ cs
  /\ (starts_with_slash result = true -> starts_with_slash (push_all result (S i) cs) = true).
Proof.
  induction cs as [|c cs IH]; intros result i; [now rewrite app_nil_r|].
  intros [Hc Hcs]%Forall_cons_1. cbn [push_all]. change (0 <? S i)%nat with true. cbn iota.
  destruct (IH ((result +:+ "/") +:+ c) (S i) Hcs) as [-> Hs]. split.
  - rewrite <- str_app_assoc. cbn [String.append]. change ("/" +:+ c) with (String slash c).
    rewrite split_app, (split_no_slash c); [now rewrite <- (assoc_L (++))|].
    now apply andb_true_iff in Hc as [Hc%negb_true_iff _].
  - intros Hr. apply Hs. now destruct result.
Qed.

Lemma render_split cs :
  Forall (fun c => plain c = true) cs -> cs <> [] -> split (render cs) = EmptyString :: cs.
Proof.
  destruct cs as [|c cs]; [congruence|]. intros [Hc Hcs]%Forall_cons_1 _.
  unfold render. cbn [push_all]. change (0 <? 0)%nat with false. cbn iota.
  rewrite (proj1 (push_all_spec cs ("/" +:+ c) 0 Hcs)).
  change ("/" +:+ c) with (EmptyString +:+ String slash c).
  rewrite split_app, (split_no_slash c); [reflexivity|].
  now apply andb_true_iff in Hc as [Hc%negb_true_iff _].
Qed.

Lemma render_absolute cs :
  Forall (fun c => plain c = true) cs -> starts_with_slash (render cs) = true.
Proof.
  destruct cs as [|c cs]; [reflexivity|]. intros [_ Hcs]%Forall_cons_1.
  now apply (push_all_spec cs ("/" +:+ c) 0 Hcs).
Qed.

(** Normalization forgets nothing of the components. *)
Lemma components_render cs :
  Forall (fun c => plain c = true) cs -> components (render cs) = cs.
Proof.
  intros H. destruct (decide (cs = [])) as [->|Hne]; [reflexivity|].
  unfold components. rewrite render_split by assumption. cbn [fold_left].
  change (push_component [] EmptyString) with (@nil string). now rewrite plain_fold.
Qed.

Lemma components_app a b :
  components (a +:+ String slash b) = fold_left push_component (split b) (components a).
Proof. unfold components. now rewrite split_app, fold_left_app. Qed.

(** A relative path is walked from the components of the working directory. *)
Lemma resolve_relative cwd path :
  starts_with_slash cwd = true -> starts_with_slash path = false ->
  resolve_path cwd path = Ok (render (fold_left push_component (split path) (components cwd))).
Proof.
  intros Hc Hp. unfold resolve_path. rewrite Hp. unfold normalize_path.
  destruct (ends_with_slash cwd) eqn:E.
  - assert (starts_with_slash (cwd +:+ path) = true) as -> by now destruct cwd.
    cbn [negb]. apply ends_with_slash_inv in E as [t ->]. rewrite <- str_app_assoc.
    change ("/" +:+ path) with (String slash path).
    change "/" with (String slash EmptyString). now rewrite !components_app.
  - assert (starts_with_slash (cwd +:+ "/" +:+ path) = true) as -> by now destruct cwd.
    cbn [negb]. change ("/" +:+ path) with (String slash path). now rewrite components_app.
Qed.

(** ** Properties *)

(** Every absolute path has a normal form: it is absolute, consists of
    components that are neither empty nor [.] nor [..] (so no path climbs
    above the root), and normalizing it again changes nothing. A relative path
    is refused with EINVAL. *)
Theorem normalize_path_canonical p :
  match normalize_path p with
  | Ok r =>
      starts_with_slash p = true /\ starts_with_slash r = true /\ normalize_path r = Ok r
      /\ (r = "/" \/ exists cs, split r = EmptyString :: cs /\ Forall (fun c => plain c = true) cs)
  | Err e => starts_with_slash p = false /\ e = EINVAL
  end.
Proof.
  unfold normalize_path at 1. destruct (starts_with_slash p); cbn [negb]; [|auto].
  pose proof (components_plain p) as H. split; [reflexivity|].
  split; [now apply render_absolute|]. split.
  - unfold normalize_path. rewrite render_absolute, components_render by assumption. reflexivity.
  - destruct (decide (components p = [])) as [->|Hne]; [now left|right].
    exists (components p). split; [now apply render_split|assumption].
Qed.

(** Changing the working directory to [d] and then opening a relative path
    [q] names the same file as opening [d/q] from the old working directory. *)
Theorem resolve_path_compose cwd p q d :
  starts_with_slash cwd = true -> starts_with_slash p = false -> starts_with_slash q = false ->
  p <> EmptyString ->
  resolve_path cwd p = Ok d ->
  resolve_path d q = resolve_path cwd (p +:+ "/" +:+ q).
Proof.
  intros Hc Hp Hq Hne. rewrite resolve_relative by assumption. intros [= <-].
  assert (Forall (fun c => plain c = true) (fold_left push_component (split p) (components cwd))) as Hpl
    by (apply fold_plain; [apply split_parts|apply components_plain]).
  rewrite (resolve_relative cwd) by (assumption || now destruct p).
  rewrite resolve_relative by (assumption || now apply render_absolute).
  rewrite components_render by assumption. change ("/" +:+ q) with (String slash q).
  now rewrite split_app, fold_left_app.
Qed.

Lemma resolve_path_compose_witness :
  resolve_path "/home" "cat.txt" = resolve_path "/home/user" ("../." +:+ "/" +:+ "cat.txt")
  /\ resolve_path "/home/user" "../." = Ok "/home".
Proof. split; [apply (resolve_path_compose "/home/user" "../." "cat.txt" "/home"); (reflexivity || discriminate)|reflexivity]. Defined.

End Path.
