(* ===== verification/Perm.v ===== *)
(** * File metadata and permission checks (src/kernel/src/fs.rs)

    Mode bits, the metadata [stat] returns, and the owner/group/other checks
    every path operation uses.  Modes are [u16] values, identities [u32]
    values, both kept as [Z]. *)

From S2P Require Import Prelude Abi Pipe FdTable.
Import FdTable.

Module Perm.

Definition S_IFDIR : Z := 0x4000.
Definition S_IFREG : Z := 0x8000.
Definition S_IFMT : Z := 0xF000.

Definition S_IRUSR : Z := 256.
Definition S_IWUSR : Z := 128.
Definition S_IXUSR : Z := 64.
Definition S_IRGRP : Z := 32.
Definition S_IWGRP : Z := 16.
Definition S_IXGRP : Z := 8.
Definition S_IROTH : Z := 4.
Definition S_IWOTH : Z := 2.
Definition S_IXOTH : Z := 1.

(** Octal 755, 644 and 777. *)
Definition DEFAULT_DIR_MODE : Z := Z.lor S_IFDIR 493.
Definition DEFAULT_FILE_MODE : Z := Z.lor S_IFREG 420.
Definition PERM_MASK : Z := 511.

(** [struct FileMetadata]. *)
Record FileMetadata : Type := mkMeta {
  file_type : FileType;
  size : Z;
  mode : Z;
  uid : Z;
  gid : Z
}.

Definition is_dir (m : FileMetadata) : bool := bool_decide (file_type m = Directory).
Definition is_file (m : FileMetadata) : bool := bool_decide (file_type m = File).

(** [(mode & bits) != 0]. *)
Definition has_bits (mode bits : Z) : bool := negb (Z.land mode bits =? 0).

Definition can_read (proc_uid proc_gid file_uid file_gid mode : Z) : bool :=
  if proc_uid =? 0 then has_bits mode (Z.lor (Z.lor S_IRUSR S_IRGRP) S_IROTH)
  else if proc_uid =? file_uid then has_bits mode S_IRUSR
  else if proc_gid =? file_gid then has_bits mode S_IRGRP
  else has_bits mode S_IROTH.

Definition can_write (proc_uid proc_gid file_uid file_gid mode : Z) : bool :=
  if proc_uid =? 0 then has_bits mode (Z.lor (Z.lor S_IWUSR S_IWGRP) S_IWOTH)
  else if proc_uid =? file_uid then has_bits mode S_IWUSR
  else if proc_gid =? file_gid then has_bits mode S_IWGRP
  else has_bits mode S_IWOTH.

Definition can_exec (proc_uid proc_gid file_uid file_gid mode : Z) : bool :=
  if proc_uid =? 0 then has_bits mode (Z.lor (Z.lor S_IXUSR S_IXGRP) S_IXOTH)
  else if proc_uid =? file_uid then has_bits mode S_IXUSR
  else if proc_gid =? file_gid then has_bits mode S_IXGRP
  else has_bits mode S_IXOTH.

Definition can_traverse := can_exec.
Definition can_list := can_read.

(** ** Reference definition: the permission classes of a process *)

(** The classes whose bits count, 2 for the owner, 1 for the group, 0 for the
    others: all of them for root, else the first that matches. *)
Definition classes (proc_uid proc_gid file_uid file_gid : Z) : list Z :=
  if proc_uid =? 0 then [2; 1; 0]
  else if proc_uid =? file_uid then [2]
  else if proc_gid =? file_gid then [1]
  else [0].

(** Some class of the process has the permission [bit]: 2 read, 1 write, 0
    execute. *)
Definition allowed (bit proc_uid proc_gid file_uid file_gid mode : Z) : bool :=
  existsb (fun c => Z.testbit mode (3 * c + bit)) (classes proc_uid proc_gid file_uid file_gid).

(** ** Lemmas *)

Lemma has_bits_lor m a b : has_bits m (Z.lor a b) = has_bits m a || has_bits m b.
Proof.
  unfold has_bits. rewrite Z.land_lor_distr_r.
  destruct (Z.eqb_spec (Z.land m a) 0) as [->|Ha], (Z.eqb_spec (Z.land m b) 0) as [->|Hb];
    cbn; try (destruct (Z.eqb_spec (Z.lor (Z.land m a) (Z.land m b)) 0) as [E|]; [|reflexivity];
      apply Z.lor_eq_0_iff in E; tauto); try reflexivity.
  - now apply negb_true_iff, Z.eqb_neq.
  - rewrite Z.lor_0_r. now apply negb_true_iff, Z.eqb_neq.
Qed.

Lemma has_bits_pow2 m k : 0 <= k -> has_bits m (2 ^ k) = Z.testbit m k.
Proof. intros Hk. unfold has_bits. rewrite <- Z.shiftl_1_l, land_pow2_eqb by lia. apply negb_involutive. Qed.

Lemma has_bits_testbit :
  forall m, has_bits m S_IRUSR = Z.testbit m 8 /\ has_bits m S_IWUSR = Z.testbit m 7
  /\ has_bits m S_IXUSR = Z.testbit m 6 /\ has_bits m S_IRGRP = Z.testbit m 5
  /\ has_bits m S_IWGRP = Z.testbit m 4 /\ has_bits m S_IXGRP = Z.testbit m 3
  /\ has_bits m S_IROTH = Z.testbit m 2 /\ has_bits m S_IWOTH = Z.testbit m 1
  /\ has_bits m S_IXOTH = Z.testbit m 0.
Proof. intros m. repeat split; rewrite <- has_bits_pow2 by lia; reflexivity. Qed.

(** ** Properties *)

(** The three permission checks follow the owner/group/other rule: one class
    of mode bits decides, the owner's if the process owns the file, else the
    group's if the groups agree, else the others'; for root one class that
    grants the permission is enough. *)
Theorem permission_classes pu pg fu fg m :
  can_read pu pg fu fg m = allowed 2 pu pg fu fg m
  /\ can_write pu pg fu fg m = allowed 1 pu pg fu fg m
  /\ can_exec pu pg fu fg m = allowed 0 pu pg fu fg m.
Proof.
  destruct (has_bits_testbit m) as (H8 & H7 & H6 & H5 & H4 & H3 & H2 & H1 & H0).
  unfold can_read, can_write, can_exec, allowed, classes. rewrite !has_bits_lor.
  rewrite H8, H7, H6, H5, H4, H3, H2, H1, H0.
  repeat split; case_all; cbn [existsb]; rewrite ?orb_false_r, ?orb_assoc; reflexivity.
Qed.

End Perm.
