(* ===== verification/TmpFs.v ===== *)
(** * The in-memory file system (src/kernel/src/tmpfs.rs)

    A [BTreeMap] is a finite map [gmap]; iteration over it is in key order,
    [sorted_entries].  Inodes and modes are [Z], file contents lists of bytes.
    An operation returns its result and the new file system; an operation
    that cannot change it returns only the result.  Running out of memory is
    not modelled; running out of inode numbers is (the checked addition of
    [allocate_inode] panics). *)

From stdpp Require Import sorting.
From S2P Require Import Prelude Abi Pipe FdTable Path Perm.
Import Abi FdTable Str Perm.

Module TmpFs.

(** [enum TmpFsNode]. *)
Inductive TmpFsNode : Type :=
  | NFile (data : list Z)
  | NDirectory (entries : gmap string Z).

Definition new_file : TmpFsNode := NFile [].
Definition new_directory : TmpFsNode := NDirectory ∅.

Definition node_type (n : TmpFsNode) : FileType :=
  match n with NFile _ => File | NDirectory _ => Directory end.

Definition node_size (n : TmpFsNode) : Z :=
  match n with NFile data => Z.of_nat (length data) | NDirectory _ => 0 end.

(** [struct TmpFs]. *)
Record TmpFs : Type := mkTmpFs {
  next_inode : Z;
  nodes : gmap Z TmpFsNode;
  modes : gmap Z Z;
  root_inode : Z
}.

Definition with_nodes (fs : TmpFs) (m : gmap Z TmpFsNode) : TmpFs :=
  mkTmpFs (next_inode fs) m (modes fs) (root_inode fs).

Definition new : TmpFs :=
  let root_inode := 1 in
  mkTmpFs (root_inode + 1) {[root_inode := new_directory]}
    {[root_inode := DEFAULT_DIR_MODE]} root_inode.

(** [allocate_inode]: the [u32] addition is checked. *)
Definition allocate_inode (fs : TmpFs) : outcome (Z * TmpFs) :=
  if next_inode fs <? U32_MAX
  then Done (next_inode fs,
             mkTmpFs (next_inode fs + 1) (nodes fs) (modes fs) (root_inode fs))
  else Panicked.

(** The loop of [lookup] over the components. *)
Fixpoint lookup_walk (fs : TmpFs) (current_inode : Z) (components : list string)
    : result Z ErrorCode :=
  match components with
  | [] => Ok current_inode
  | component :: rest =>
      match nodes fs !! current_inode with
      | None => Err ENOENT
      | Some (NDirectory entries) =>
          match entries !! component with
          | None => Err ENOENT
          | Some child => lookup_walk fs child rest
          end
      | Some (NFile _) => Err ENOTDIR
      end
  end.

(** [path.split('/').filter(|s| !s.is_empty())]. *)
Definition path_components (path : string) : list string :=
  filter (fun s => s <> EmptyString) (split path).

(** [lookup]. *)
Definition lookup (fs : TmpFs) (base_inode : Z) (path : string) : result Z ErrorCode :=
  if is_empty path || bool_decide (path = "/") then Ok base_inode
  else lookup_walk fs base_inode (path_components path).

(** [name.is_empty() || name.contains('/')]. *)
Definition bad_name (name : string) : bool := is_empty name || contains_slash name.

(** The entries of a directory node, or the error of the code's match. *)
Definition dir_entries (fs : TmpFs) (inode : Z) : result (gmap string Z) ErrorCode :=
  match nodes fs !! inode with
  | None => Err ENOENT
  | Some (NDirectory entries) => Ok entries
  | Some (NFile _) => Err ENOTDIR
  end.

(** A change of a directory's entries in place. *)
Definition update_dir (fs : TmpFs) (inode : Z) (f : gmap string Z -> gmap string Z)
    : result TmpFs ErrorCode :=
  let? entries := dir_entries fs inode in
  Ok (with_nodes fs (<[inode := NDirectory (f entries)]> (nodes fs))).

Definition default_mode (t : FileType) : Z :=
  match t with Directory => DEFAULT_DIR_MODE | File => DEFAULT_FILE_MODE end.

(** [create]. *)
Definition create (fs : TmpFs) (parent_inode : Z) (name : string) (is_dir : bool)
    : outcome (result Z ErrorCode * TmpFs) :=
  if bad_name name then Done (Err EINVAL, fs)
  else
    match dir_entries fs parent_inode with
    | Err e => Done (Err e, fs)
    | Ok entries =>
        if bool_decide (is_Some (entries !! name)) then Done (Err EEXIST, fs)
        else
          let! (new_inode, fs) := allocate_inode fs in
          let new_node := if is_dir then new_directory else new_file in
          let mode := if is_dir then DEFAULT_DIR_MODE else DEFAULT_FILE_MODE in
          let fs := mkTmpFs (next_inode fs) (<[new_inode := new_node]> (nodes fs))
                      (<[new_inode := mode]> (modes fs)) (root_inode fs) in
          match update_dir fs parent_inode (fun entries => <[name := new_inode]> entries) with
          | Err e => Done (Err e, fs)
          | Ok fs => Done (Ok new_inode, fs)
          end
    end.

(** [unlink]. *)
Definition unlink (fs : TmpFs) (parent_inode : Z) (name : string)
    : result unit ErrorCode * TmpFs :=
  if bad_name name then (Err EINVAL, fs)
  else
    match dir_entries fs parent_inode with
    | Err e => (Err e, fs)
    | Ok entries =>
        match entries !! name with
        | None => (Err ENOENT, fs)
        | Some inode =>
            match nodes fs !! inode with
            | None => (Err ENOENT, fs)
            | Some node =>
                if match node with
                   | NDirectory dir_entries => negb (bool_decide (dir_entries = ∅))
                   | NFile _ => false
                   end
                then (Err ENOTEMPTY, fs)
                else
                  match update_dir fs parent_inode (delete name) with
                  | Err e => (Err e, fs)
                  | Ok fs => (Ok tt, with_nodes fs (delete inode (nodes fs)))
                  end
            end
        end
    end.

(** [read] into a buffer: the count and the buffer afterwards. *)
Definition read (fs : TmpFs) (inode : Z) (offset : nat) (buffer : list Z)
    : result (nat * list Z) ErrorCode :=
  match nodes fs !! inode with
  | None => Err ENOENT
  | Some (NFile data) =>
      if (length data <=? offset)%nat then Ok (0%nat, buffer)
      else
        let available := (length data - offset)%nat in
        let to_read := Nat.min available (length buffer) in
        Ok (to_read, splice buffer 0 (sub_slice data offset (offset + to_read)))
  | Some (NDirectory _) => Err EISDIR
  end.

(** [Vec::resize(n, 0)]. *)
Definition resize (l : list Z) (n : nat) : list Z :=
  take n l ++ replicate (n - length l) 0.

(** The change [write] makes to the contents of a file. *)
Definition write_data (file_data : list Z) (offset : nat) (data : list Z) : list Z :=
  let file_data := if (length file_data <? offset)%nat then resize file_data offset else file_data in
  if (offset =? length file_data)%nat then file_data ++ data
  else
    let end_pos := (offset + length data)%nat in
    let file_data := if (length file_data <? end_pos)%nat then resize file_data end_pos else file_data in
    splice file_data offset data.

(** [write]. *)
Definition write (fs : TmpFs) (inode : Z) (offset : nat) (data : list Z)
    : result nat ErrorCode * TmpFs :=
  match nodes fs !! inode with
  | None => (Err ENOENT, fs)
  | Some (NFile file_data) =>
      (Ok (length data),
       with_nodes fs (<[inode := NFile (write_data file_data offset data)]> (nodes fs)))
  | Some (NDirectory _) => (Err EISDIR, fs)
  end.

(** [truncate]. *)
Definition truncate (fs : TmpFs) (inode : Z) : result unit ErrorCode * TmpFs :=
  match nodes fs !! inode with
  | None => (Err ENOENT, fs)
  | Some (NFile _) => (Ok tt, with_nodes fs (<[inode := NFile []]> (nodes fs)))
  | Some (NDirectory _) => (Err EISDIR, fs)
  end.

(** [stat]. *)
Definition stat (fs : TmpFs) (inode : Z) : result FileMetadata ErrorCode :=
  match nodes fs !! inode with
  | None => Err ENOENT
  | Some node =>
      let mode := match modes fs !! inode with
                  | Some m => m
                  | None => default_mode (node_type node)
                  end in
      Ok (mkMeta (node_type node) (node_size node) mode 0 0)
  end.

(** [chmod]. *)
Definition type_bits (t : FileType) : Z :=
  match t with Directory => S_IFDIR | File => S_IFREG end.

Definition chmod (fs : TmpFs) (inode new_mode : Z) : result unit ErrorCode * TmpFs :=
  match nodes fs !! inode with
  | None => (Err ENOENT, fs)
  | Some node =>
      let permission_bits := Z.land new_mode PERM_MASK in
      let final_mode := Z.lor (type_bits (node_type node)) permission_bits in
      (Ok tt, mkTmpFs (next_inode fs) (nodes fs) (<[inode := final_mode]> (modes fs)) (root_inode fs))
  end.

(** The entries of a [BTreeMap] in the order of its keys. *)
Definition name_le (a b : string * Z) : Prop := String.leb (fst a) (fst b) = true.

Global Instance name_le_dec : RelDecision name_le.
Proof. intros a b. unfold name_le. apply _. Defined.

Definition sorted_entries (entries : gmap string Z) : list (string * Z) :=
  merge_sort name_le (map_to_list entries).

(** The loop of [read_dir]. *)
Fixpoint list_entries (fs : TmpFs) (entries : list (string * Z))
    : result (list (string * FileType)) ErrorCode :=
  match entries with
  | [] => Ok []
  | (name, child_inode) :: rest =>
      match nodes fs !! child_inode with
      | None => Err ENOENT
      | Some child_node =>
          let? result := list_entries fs rest in
          Ok ((name, node_type child_node) :: result)
      end
  end.

(** [read_dir]. *)
Definition read_dir (fs : TmpFs) (inode : Z) : result (list (string * FileType)) ErrorCode :=
  let? entries := dir_entries fs inode in list_entries fs (sorted_entries entries).

(** [rename]. *)
Definition rename (fs : TmpFs) (old_parent_inode : Z) (old_name : string)
    (new_parent_inode : Z) (new_name : string) : result unit ErrorCode * TmpFs :=
  if bad_name old_name || bad_name new_name then (Err EINVAL, fs)
  else
    match dir_entries fs old_parent_inode with
    | Err e => (Err e, fs)
    | Ok entries =>
        match entries !! old_name with
        | None => (Err ENOENT, fs)
        | Some inode =>
            match dir_entries fs new_parent_inode with
            | Err e => (Err e, fs)
            | Ok entries =>
                if bool_decide (is_Some (entries !! new_name)) then (Err EEXIST, fs)
                else
                  match update_dir fs old_parent_inode (delete old_name) with
                  | Err e => (Err e, fs)
                  | Ok fs =>
                      match update_dir fs new_parent_inode (fun entries => <[new_name := inode]> entries) with
                      | Err e => (Err e, fs)
                      | Ok fs => (Ok tt, fs)
                      end
                  end
            end
        end
    end.

(** ** Runs of the file system *)

Inductive op : Type :=
  | OpCreate (parent : Z) (name : string) (is_dir : bool)
  | OpUnlink (parent : Z) (name : string)
  | OpWrite (inode : Z) (offset : nat) (data : list Z)
  | OpTruncate (inode : Z)
  | OpChmod (inode mode : Z)
  | OpRename (old_parent : Z) (old_name : string) (new_parent : Z) (new_name : string).

Definition exec (fs : TmpFs) (o : op) : outcome TmpFs :=
  match o with
  | OpCreate p n d => let! (_, fs) := create fs p n d in Done fs
  | OpUnlink p n => Done (snd (unlink fs p n))
  | OpWrite i off data => Done (snd (write fs i off data))
  | OpTruncate i => Done (snd (truncate fs i))
  | OpChmod i m => Done (snd (chmod fs i m))
  | OpRename p n p' n' => Done (snd (rename fs p n p' n'))
  end.

Inductive reachable : TmpFs -> Prop :=
  | reach_new : reachable new
  | reach_op fs o fs' : reachable fs -> exec fs o = Done fs' -> reachable fs'.

(** ** Views of a state *)

(** The inode a name stands for in a directory. *)
Definition entry (fs : TmpFs) (d : Z) (name : string) : option Z :=
  match nodes fs !! d with Some (NDirectory es) => es !! name | _ => None end.

Definition kind (fs : TmpFs) (i : Z) : option FileType := node_type <$> nodes fs !! i.

Definition content (fs : TmpFs) (i : Z) : option (list Z) :=
  match nodes fs !! i with Some (NFile data) => Some data | _ => None end.

(** The inode at the end of a path of names. *)
Fixpoint walk (fs : TmpFs) (i : Z) (path : list string) : option Z :=
  match path with
  | [] => Some i
  | n :: rest => match entry fs i n with Some c => walk fs c rest | None => None end
  end.

(** The file system is a tree with one name per node, and the mode of every
    node carries its type. *)
Record inv (fs : TmpFs) : Prop := mkInv {
  inv_root : root_inode fs = 1 /\ kind fs 1 = Some Directory;
  inv_range : forall i t, kind fs i = Some t -> 1 <= i < next_inode fs;
  inv_mode : forall i t, kind fs i = Some t ->
    exists m, modes fs !! i = Some m /\ Z.land m S_IFMT = type_bits t;
  inv_entry : forall d n c, entry fs d n = Some c ->
    bad_name n = false /\ c <> 1 /\ is_Some (kind fs c);
  inv_parent : forall c t, kind fs c = Some t -> c <> 1 -> exists d n, entry fs d n = Some c;
  inv_unique : forall d n d' n' c,
    entry fs d n = Some c -> entry fs d' n' = Some c -> d = d' /\ n = n'
}.

(** Every node is at the end of a path from the root. *)
Definition attached (fs : TmpFs) : Prop := forall i t, kind fs i = Some t -> exists q, walk fs 1 q = Some i.

(** An operation that does not move a directory into its own subtree. *)
Definition keeps_order (fs : TmpFs) (o : op) : Prop :=
  match o with
  | OpRename p n p' _ => forall c q, entry fs p n = Some c -> walk fs c q <> Some p'
  | _ => True
  end.

(** The states that such operations lead to. *)
Inductive grown : TmpFs -> Prop :=
  | grown_new : grown new
  | grown_op fs o fs' : grown fs -> keeps_order fs o -> exec fs o = Done fs' -> grown fs'.

(** The position of a byte after [data] is written at [offset]. *)
Definition byte_after (old : list Z) (offset : nat) (data : list Z) (k : nat) : option Z :=
  if ((offset <=? k) && (k <? offset + length data))%nat then data !! (k - offset)%nat
  else if (k <? length old)%nat then old !! k
  else if (k <? offset)%nat then Some 0
  else None.

(** A file system with [/a/], [/a/f] and [/g]. *)
Definition demo_ops : list op :=
  [OpCreate 1 "a" true; OpCreate 2 "f" false; OpCreate 1 "g" false; OpWrite 3 2 [7; 8; 9]].

Definition run (ops : list op) (fs : TmpFs) : outcome TmpFs :=
  fold_left (fun m o => let! fs := m in exec fs o) ops (Done fs).

Definition demo : TmpFs :=
  match run demo_ops new with Done fs => fs | Panicked => new end.

(** A directory [/a] moved into itself as [b]. *)
Definition looped : TmpFs :=
  match run [OpCreate 1 "a" true; OpRename 1 "a" 2 "b"] new with Done fs => fs | Panicked => new end.

(** ** Lemmas *)

Lemma tmpfs_run_reachable ops : forall fs fs', reachable fs -> run ops fs = Done fs' -> reachable fs'.
Proof.
  unfold run. induction ops as [|o ops IH]; intros fs fs' Hr H; cbn [fold_left bind] in H.
  - now injection H as <-.
  - destruct (exec fs o) as [fs1|] eqn:E.
    + eapply IH; [|exact H]. eapply reach_op; eauto.
    + exfalso. clear -H. induction ops; cbn in H; [discriminate|auto].
Qed.

Lemma tmpfs_demo_reachable : reachable demo.
Proof. apply (tmpfs_run_reachable demo_ops new); [constructor|vm_compute; reflexivity]. Qed.

Lemma dir_entries_Ok fs i es : dir_entries fs i = Ok es <-> nodes fs !! i = Some (NDirectory es).
Proof. unfold dir_entries. split; [|now intros ->]. case_match; [case_match|]; congruence. Qed.

Lemma dir_entries_Err fs i e :
  dir_entries fs i = Err e -> forall es, nodes fs !! i <> Some (NDirectory es).
Proof. intros H es E. unfold dir_entries in H. now rewrite E in H. Qed.

Lemma update_dir_Ok fs i f es :
  nodes fs !! i = Some (NDirectory es) ->
  update_dir fs i f = Ok (with_nodes fs (<[i := NDirectory (f es)]> (nodes fs))).
Proof. intros H. unfold update_dir. now rewrite (proj2 (dir_entries_Ok _ _ _) H). Qed.

Lemma nodes_entry fs d es : nodes fs !! d = Some (NDirectory es) -> forall n, entry fs d n = es !! n.
Proof. intros H n. unfold entry. now rewrite H. Qed.

Lemma entry_kind fs d n c : entry fs d n = Some c -> kind fs d = Some Directory.
Proof. unfold entry, kind. destruct (nodes fs !! d) as [[]|]; cbn; congruence. Qed.

(** ** What the operations do to the views *)

Record created (fs : TmpFs) (p : Z) (name : string) (t : FileType) (fs' : TmpFs) : Prop := mkCreated {
  cr_name : bad_name name = false;
  cr_parent : kind fs p = Some Directory;
  cr_free : entry fs p name = None;
  cr_fresh : kind fs (next_inode fs) = None;
  cr_next : next_inode fs' = next_inode fs + 1;
  cr_root : root_inode fs' = root_inode fs;
  cr_new : nodes fs' !! next_inode fs
    = Some (match t with Directory => new_directory | File => new_file end);
  cr_modes : modes fs' = <[next_inode fs := default_mode t]> (modes fs);
  cr_kind : forall j, kind fs' j = if decide (j = next_inode fs) then Some t else kind fs j;
  cr_entry : forall d n, entry fs' d n
    = if decide (d = p /\ n = name) then Some (next_inode fs) else entry fs d n
}.

Lemma create_spec fs p name isd r fs' :
  inv fs -> create fs p name isd = Done (r, fs') ->
  (exists e, r = Err e /\ fs' = fs)
  \/ r = Ok (next_inode fs)
     /\ created fs p name (if isd then Directory else File) fs'.
Proof.
  intros Hi. unfold create. destruct (bad_name name) eqn:Hb; [intros [= <- <-]; eauto|].
  destruct (dir_entries fs p) as [es|e] eqn:Hd; [|intros [= <- <-]; eauto].
  apply dir_entries_Ok in Hd.
  destruct (bool_decide_reflect (is_Some (es !! name))) as [_|Hn]; [intros [= <- <-]; eauto|].
  unfold allocate_inode. destruct (next_inode fs <? U32_MAX); [|discriminate]. cbn [bind nodes next_inode].
  assert (kind fs (next_inode fs) = None) as Hf.
  { destruct (kind fs (next_inode fs)) as [t|] eqn:E; [|reflexivity]. apply (inv_range _ Hi) in E. lia. }
  assert (p <> next_inode fs) as Hpi.
  { intros ->. unfold kind in Hf. now rewrite Hd in Hf. }
  rewrite (update_dir_Ok _ _ _ es) by (cbn; now rewrite lookup_insert_ne by congruence).
  intros [= <- <-]. right. split; [reflexivity|]. apply eq_None_not_Some in Hn.
  constructor; cbn [next_inode root_inode modes nodes with_nodes]; try assumption; try reflexivity.
  - unfold kind. now rewrite Hd.
  - now rewrite (nodes_entry _ _ _ Hd).
  - rewrite lookup_insert_ne, lookup_insert_eq by congruence. now destruct isd.
  - unfold default_mode. now destruct isd.
  - intros j. unfold kind. cbn [nodes with_nodes]. destruct (decide (j = next_inode fs)) as [->|Hj].
    + rewrite lookup_insert_ne, lookup_insert_eq by congruence. now destruct isd.
    + destruct (decide (j = p)) as [->|]; [now rewrite lookup_insert_eq, Hd|].
      now rewrite !lookup_insert_ne by congruence.
  - intros d n. unfold entry. cbn [nodes with_nodes]. destruct (decide (d = p)) as [->|Hdp].
    + rewrite lookup_insert_eq, Hd. destruct (decide (n = name)) as [->|].
      * rewrite decide_True by auto. apply lookup_insert_eq.
      * rewrite decide_False by naive_solver. now apply lookup_insert_ne.
    + rewrite decide_False, lookup_insert_ne by naive_solver.
      destruct (decide (d = next_inode fs)) as [->|]; [|now rewrite lookup_insert_ne by congruence].
      rewrite lookup_insert_eq. unfold kind in Hf. destruct (nodes fs !! next_inode fs); [discriminate|].
      destruct isd; [apply lookup_empty|reflexivity].
Qed.

Record unlinked (fs : TmpFs) (p : Z) (name : string) (c : Z) (fs' : TmpFs) : Prop := mkUnlinked {
  ul_entry_old : entry fs p name = Some c;
  ul_empty : forall n, entry fs c n = None;
  ul_next : next_inode fs' = next_inode fs;
  ul_root : root_inode fs' = root_inode fs;
  ul_modes : modes fs' = modes fs;
  ul_kind : forall j, kind fs' j = if decide (j = c) then None else kind fs j;
  ul_entry : forall d n, entry fs' d n = if decide (d = p /\ n = name) then None else entry fs d n
}.

Lemma unlink_spec fs p name r fs' :
  unlink fs p name = (r, fs') ->
  (exists e, r = Err e /\ fs' = fs) \/ exists c, r = Ok tt /\ unlinked fs p name c fs'.
Proof.
  unfold unlink. destruct (bad_name name) eqn:Hb; [intros [= <- <-]; eauto|].
  destruct (dir_entries fs p) as [es|e] eqn:Hd; [|intros [= <- <-]; eauto].
  apply dir_entries_Ok in Hd. destruct (es !! name) as [c|] eqn:Hn; [|intros [= <- <-]; eauto].
  destruct (nodes fs !! c) as [node|] eqn:Hc; [|intros [= <- <-]; eauto].
  case_match eqn:He; [intros [= <- <-]; eauto|].
  assert (forall n, entry fs c n = None) as Hempty.
  { intros n. unfold entry. rewrite Hc. destruct node as [|es']; [reflexivity|].
    apply negb_false_iff, bool_decide_eq_true in He as ->. apply lookup_empty. }
  assert (c <> p) as Hcp.
  { intros ->. specialize (Hempty name). rewrite (nodes_entry _ _ _ Hd) in Hempty. congruence. }
  rewrite (update_dir_Ok _ _ _ es) by assumption. intros [= <- <-]. right. exists c. split; [reflexivity|].
  constructor; cbn [next_inode root_inode modes nodes with_nodes]; try assumption; try reflexivity.
  - now rewrite (nodes_entry _ _ _ Hd).
  - intros j. unfold kind. cbn [nodes with_nodes]. destruct (decide (j = c)) as [->|Hj].
    + now rewrite lookup_delete_eq.
    + rewrite lookup_delete_ne by congruence. destruct (decide (j = p)) as [->|].
      * now rewrite lookup_insert_eq, Hd.
      * now rewrite lookup_insert_ne by congruence.
  - intros d n. destruct (decide (d = c)) as [->|Hdc].
    + rewrite decide_False, Hempty by naive_solver. unfold entry. cbn [nodes with_nodes].
      now rewrite lookup_delete_eq.
    + unfold entry. cbn [nodes with_nodes]. rewrite lookup_delete_ne by congruence.
      destruct (decide (d = p)) as [->|]; [|now rewrite decide_False, lookup_insert_ne by naive_solver].
      rewrite lookup_insert_eq, Hd. destruct (decide (n = name)) as [->|].
      * rewrite decide_True by auto. apply lookup_delete_eq.
      * rewrite decide_False by naive_solver. now apply lookup_delete_ne.
Qed.

Record renamed (fs : TmpFs) (p : Z) (name : string) (p' : Z) (name' : string) (c : Z) (fs' : TmpFs)
    : Prop := mkRenamed {
  rn_name : bad_name name' = false;
  rn_entry_old : entry fs p name = Some c;
  rn_parent : kind fs p' = Some Directory;
  rn_free : entry fs p' name' = None;
  rn_next : next_inode fs' = next_inode fs;
  rn_root : root_inode fs' = root_inode fs;
  rn_modes : modes fs' = modes fs;
  rn_kind : forall j, kind fs' j = kind fs j;
  rn_entry : forall d n, entry fs' d n
    = if decide (d = p' /\ n = name') then Some c
      else if decide (d = p /\ n = name) then None else entry fs d n
}.

Lemma update_dir_entry fs i f es :
  nodes fs !! i = Some (NDirectory es) ->
  let fs' := with_nodes fs (<[i := NDirectory (f es)]> (nodes fs)) in
  (forall d n, entry fs' d n = if decide (d = i) then f es !! n else entry fs d n)
  /\ (forall j, kind fs' j = kind fs j).
Proof.
  intros H fs'. split.
  - intros d n. unfold entry. subst fs'. cbn [nodes with_nodes].
    destruct (decide (d = i)) as [->|]; [now rewrite lookup_insert_eq|].
    now rewrite lookup_insert_ne by congruence.
  - intros j. unfold kind. subst fs'. cbn [nodes with_nodes].
    destruct (decide (j = i)) as [->|]; [now rewrite lookup_insert_eq, H|].
    now rewrite lookup_insert_ne by congruence.
Qed.

Lemma kind_dir fs i : kind fs i = Some Directory -> exists es, nodes fs !! i = Some (NDirectory es).
Proof. unfold kind. destruct (nodes fs !! i) as [[]|]; cbn; try discriminate. eauto. Qed.

Lemma rename_spec fs p name p' name' r fs' :
  rename fs p name p' name' = (r, fs') ->
  (exists e, r = Err e /\ fs' = fs)
  \/ exists c, r = Ok tt /\ renamed fs p name p' name' c fs'.
Proof.
  unfold rename. destruct (bad_name name || bad_name name') eqn:Hb; [intros [= <- <-]; eauto|].
  apply orb_false_iff in Hb as [_ Hb].
  destruct (dir_entries fs p) as [es|e] eqn:Hd; [|intros [= <- <-]; eauto].
  apply dir_entries_Ok in Hd. destruct (es !! name) as [c|] eqn:Hn; [|intros [= <- <-]; eauto].
  destruct (dir_entries fs p') as [es'|e] eqn:Hd'; [|intros [= <- <-]; eauto].
  apply dir_entries_Ok in Hd'.
  destruct (bool_decide_reflect (is_Some (es' !! name'))) as [_|Hn']; [intros [= <- <-]; eauto|].
  apply eq_None_not_Some in Hn'. rewrite (update_dir_Ok _ _ _ es) by assumption.
  destruct (update_dir_entry fs p (delete name) es Hd) as [He1 Hk1].
  set (fs1 := with_nodes fs _) in *.
  destruct (kind_dir fs1 p') as [es1 Hes1]; [rewrite Hk1; unfold kind; now rewrite Hd'|].
  rewrite (update_dir_Ok _ _ _ es1) by assumption.
  destruct (update_dir_entry fs1 p' (fun es => <[name' := c]> es) es1 Hes1) as [He2 Hk2].
  set (fs2 := with_nodes fs1 _) in *. intros [= <- <-]. right. exists c. split; [reflexivity|].
  constructor; try assumption; try reflexivity.
  - now rewrite (nodes_entry _ _ _ Hd).
  - unfold kind. now rewrite Hd'.
  - now rewrite (nodes_entry _ _ _ Hd').
  - intros j. now rewrite Hk2.
  - intros d n. rewrite He2. destruct (decide (d = p')) as [->|Hd2].
    + destruct (decide (n = name')) as [->|Hn2].
      * rewrite decide_True by auto. apply lookup_insert_eq.
      * rewrite (decide_False (P := p' = p' /\ n = name')) by naive_solver.
        rewrite lookup_insert_ne by congruence. rewrite <- (nodes_entry _ _ _ Hes1), He1.
        destruct (decide (p' = p)) as [->|]; [|now rewrite decide_False by naive_solver].
        rewrite <- (nodes_entry _ _ _ Hd) in Hn. destruct (decide (n = name)) as [->|].
        -- rewrite decide_True by auto. apply lookup_delete_eq.
        -- rewrite decide_False, lookup_delete_ne by naive_solver. now rewrite (nodes_entry _ _ _ Hd).
    + rewrite (decide_False (P := d = p' /\ n = name')) by naive_solver. rewrite He1.
      destruct (decide (d = p)) as [->|]; [|now rewrite decide_False by naive_solver].
      destruct (decide (n = name)) as [->|].
      * rewrite decide_True by auto. apply lookup_delete_eq.
      * rewrite decide_False, lookup_delete_ne by naive_solver. now rewrite (nodes_entry _ _ _ Hd).
Qed.

(** Writing and truncating keep the shape of the tree. *)
Lemma set_content_views fs i old new :
  nodes fs !! i = Some (NFile old) ->
  let fs' := with_nodes fs (<[i := NFile new]> (nodes fs)) in
  (forall d n, entry fs' d n = entry fs d n) /\ (forall j, kind fs' j = kind fs j).
Proof.
  intros H fs'. split; intros j; [intros n; unfold entry|unfold kind]; subst fs'; cbn [nodes with_nodes];
    (destruct (decide (j = i)) as [->|]; [now rewrite lookup_insert_eq, H|
     now rewrite lookup_insert_ne by congruence]).
Qed.

(** The invariant depends on the views alone. *)
Lemma inv_same_views fs fs' :
  inv fs -> root_inode fs' = root_inode fs -> next_inode fs' = next_inode fs ->
  modes fs' = modes fs -> (forall d n, entry fs' d n = entry fs d n) ->
  (forall j, kind fs' j = kind fs j) -> inv fs'.
Proof.
  intros [H1 H2 H3 H4 H5 H6] Er En Em Ee Ek. constructor.
  - now rewrite Er, Ek.
  - intros i t. rewrite Ek, En. apply H2.
  - intros i t. rewrite Ek, Em. apply H3.
  - intros d n c. rewrite Ee, Ek. apply H4.
  - intros c t Hc Hne. rewrite Ek in Hc. destruct (H5 c t Hc Hne) as (d & n & E).
    exists d, n. now rewrite Ee.
  - intros d n d' n' c. rewrite !Ee. apply H6.
Qed.

Lemma write_inv fs i off data : inv fs -> inv (snd (write fs i off data)).
Proof.
  intros Hi. unfold write. destruct (nodes fs !! i) as [[old|]|] eqn:E; cbn [snd]; try assumption.
  destruct (set_content_views fs i old (write_data old off data) E). now apply (inv_same_views fs).
Qed.

Lemma truncate_inv fs i : inv fs -> inv (snd (truncate fs i)).
Proof.
  intros Hi. unfold truncate. destruct (nodes fs !! i) as [[old|]|] eqn:E; cbn [snd]; try assumption.
  destruct (set_content_views fs i old [] E). now apply (inv_same_views fs).
Qed.

Lemma type_bits_land t m : Z.land (Z.lor (type_bits t) (Z.land m PERM_MASK)) S_IFMT = type_bits t.
Proof.
  rewrite Z.land_lor_distr_l, <- Z.land_assoc.
  change (Z.land PERM_MASK S_IFMT) with 0. rewrite Z.land_0_r, Z.lor_0_r. now destruct t.
Qed.

Lemma chmod_inv fs i m : inv fs -> inv (snd (chmod fs i m)).
Proof.
  intros Hi. unfold chmod. destruct (nodes fs !! i) as [node|] eqn:E; cbn [snd]; [|assumption].
  destruct Hi as [H1 H2 H3 H4 H5 H6]. constructor; try assumption.
  intros j t Hj. cbn [modes]. destruct (decide (j = i)) as [->|].
  - rewrite lookup_insert_eq. eexists. split; [reflexivity|]. rewrite type_bits_land.
    unfold kind in Hj. cbn [nodes] in Hj. rewrite E in Hj. now injection Hj as <-.
  - rewrite lookup_insert_ne by congruence. now apply H3.
Qed.

Lemma created_inv fs p name t fs' : inv fs -> created fs p name t fs' -> inv fs'.
Proof.
  intros [[H1 H1'] H2 H3 H4 H5 H6] [Cn Cp Cf Cfr Cnext Cr _ Cm Ck Ce].
  assert (1 < next_inode fs) as Hnext by (apply H2 in H1'; lia).
  assert (forall d n, entry fs d n <> Some (next_inode fs)) as Hno.
  { intros d n E. apply H4 in E as (_ & _ & [t' E]). congruence. }
  constructor.
  - rewrite Cr, Ck, decide_False by lia. auto.
  - intros i t'. rewrite Ck, Cnext. destruct (decide (i = next_inode fs)); [lia|].
    intros E%H2. lia.
  - intros i t'. rewrite Ck, Cm. destruct (decide (i = next_inode fs)) as [->|].
    + intros [= <-]. rewrite lookup_insert_eq. eexists. split; [reflexivity|]. now destruct t.
    + rewrite lookup_insert_ne by congruence. apply H3.
  - intros d n c. rewrite Ce. destruct (decide (d = p /\ n = name)) as [[-> ->]|].
    + intros [= <-]. split; [assumption|]. split; [lia|]. rewrite Ck, decide_True by auto. eauto.
    + intros (? & ? & ?)%H4. split; [assumption|]. split; [assumption|]. rewrite Ck. case_match; eauto.
  - intros c t'. rewrite Ck. destruct (decide (c = next_inode fs)) as [->|Hcn].
    + intros _ _. exists p, name. rewrite Ce. now rewrite decide_True by auto.
    + intros Hc Hne. destruct (H5 c t' Hc Hne) as (d & n & E). exists d, n. rewrite Ce.
      rewrite decide_False; [assumption|]. intros [-> ->]. congruence.
  - intros d n d' n' c. rewrite !Ce.
    destruct (decide (d = p /\ n = name)) as [[-> ->]|], (decide (d' = p /\ n' = name)) as [[-> ->]|];
      try (intros [= <-] E; now apply Hno in E); try (intros E [= <-]; now apply Hno in E); auto.
    apply H6.
Qed.

Lemma unlinked_inv fs p name c fs' : inv fs -> unlinked fs p name c fs' -> inv fs'.
Proof.
  intros [[H1 H1'] H2 H3 H4 H5 H6] [Uo Ue Un Ur Um Uk Uent].
  assert (c <> 1) as Hc1 by (now apply H4 in Uo).
  constructor.
  - rewrite Ur, Uk, decide_False by congruence. auto.
  - intros i t. rewrite Uk, Un. case_match; [discriminate|]. apply H2.
  - intros i t. rewrite Uk, Um. case_match; [discriminate|]. apply H3.
  - intros d n x. rewrite Uent. destruct (decide _) as [|Hne]; [discriminate|]. intros E.
    destruct (H4 _ _ _ E) as (? & ? & ?). split; [assumption|]. split; [assumption|]. rewrite Uk.
    rewrite decide_False; [assumption|]. intros ->. destruct (H6 _ _ _ _ _ E Uo). tauto.
  - intros x t. rewrite Uk. destruct (decide (x = c)); [discriminate|]. intros Hx Hne.
    destruct (H5 x t Hx Hne) as (d & n' & E). exists d, n'. rewrite Uent, decide_False; [assumption|].
    intros [-> ->]. congruence.
  - intros d n' d' n'' x. rewrite !Uent. destruct (decide _); [discriminate|].
    destruct (decide _); [discriminate|]. apply H6.
Qed.

Lemma renamed_inv fs p name p' name' c fs' : inv fs -> renamed fs p name p' name' c fs' -> inv fs'.
Proof.
  intros [H1 H2 H3 H4 H5 H6] [Rn Ro Rp Rf Rnext Rr Rm Rk Re]. constructor.
  - now rewrite Rr, Rk.
  - intros i t. rewrite Rk, Rnext. apply H2.
  - intros i t. rewrite Rk, Rm. apply H3.
  - intros d n x. rewrite Re, Rk. destruct (decide (d = p' /\ n = name')) as [[-> ->]|].
    + intros [= <-]. destruct (H4 _ _ _ Ro) as (_ & ? & ?). auto.
    + destruct (decide _); [discriminate|]. apply H4.
  - intros x t. rewrite Rk. intros Hx Hne. destruct (H5 x t Hx Hne) as (d & n & E).
    destruct (decide (d = p /\ n = name)) as [[-> ->]|Hd].
    + exists p', name'. rewrite Re, (decide_True (P := p' = p' /\ name' = name')); [congruence|auto].
    + exists d, n. rewrite Re. rewrite decide_False by (intros [-> ->]; congruence).
      now rewrite decide_False.
  - intros d n d' n' x. rewrite !Re.
    destruct (decide (d = p' /\ n = name')) as [[-> ->]|], (decide (d' = p' /\ n' = name')) as [[-> ->]|].
    + auto.
    + destruct (decide (d' = p /\ n' = name)); [discriminate|]. intros [= <-] E.
      destruct (H6 _ _ _ _ _ E Ro). tauto.
    + destruct (decide (d = p /\ n = name)); [discriminate|]. intros E [= <-].
      destruct (H6 _ _ _ _ _ E Ro). tauto.
    + destruct (decide (d = p /\ n = name)); [discriminate|].
      destruct (decide (d' = p /\ n' = name)); [discriminate|]. apply H6.
Qed.

Lemma tmpfs_exec_inv fs o fs' : inv fs -> exec fs o = Done fs' -> inv fs'.
Proof.
  intros Hi. destruct o as [p n d|p n|i off data|i|i m|p n p' n']; cbn [exec].
  - intros ([r fs1] & E & [= <-])%bind_Done.
    destruct (create_spec _ _ _ _ _ _ Hi E) as [(e & _ & ->)|[_ H]]; eauto using created_inv.
  - intros [= <-]. destruct (unlink fs p n) as [r fs1] eqn:E.
    destruct (unlink_spec _ _ _ _ _ E) as [(e & _ & ->)|(c & _ & H)]; eauto using unlinked_inv.
  - intros [= <-]. now apply write_inv.
  - intros [= <-]. now apply truncate_inv.
  - intros [= <-]. now apply chmod_inv.
  - intros [= <-]. destruct (rename fs p n p' n') as [r fs1] eqn:E.
    destruct (rename_spec _ _ _ _ _ _ _ E) as [(e & _ & ->)|(c & _ & H)]; eauto using renamed_inv.
Qed.

Lemma tmpfs_inv_new : inv new.
Proof.
  assert (forall i, kind new i = if decide (i = 1) then Some Directory else None) as Hk.
  { intros i. unfold kind, new. cbn [nodes]. destruct (decide (i = 1)) as [->|];
      [now rewrite lookup_singleton_eq|now rewrite lookup_singleton_ne by congruence]. }
  assert (forall d n, entry new d n = None) as He.
  { intros d n. unfold entry, new. cbn [nodes]. destruct (decide (d = 1)) as [->|];
      [rewrite lookup_singleton_eq; apply lookup_empty|now rewrite lookup_singleton_ne by congruence]. }
  constructor; intros *; rewrite ?Hk, ?He; try (case_match; [|discriminate]; subst); try discriminate.
  - now split.
  - intros _. cbn. lia.
  - intros [= <-]. exists DEFAULT_DIR_MODE. now split.
  - congruence.
Qed.

Lemma tmpfs_reachable_inv fs : reachable fs -> inv fs.
Proof. induction 1; [apply tmpfs_inv_new|eauto using tmpfs_exec_inv]. Qed.


(** ** Paths in the tree *)

Lemma walk_app fs p : forall i q,
  walk fs i (p ++ q) = match walk fs i p with Some c => walk fs c q | None => None end.
Proof.
  induction p as [|n p IH]; intros i q; [reflexivity|]. cbn [walk app].
  destruct (entry fs i n); [apply IH|reflexivity].
Qed.

Lemma walk_snoc fs i p n :
  walk fs i (p ++ [n]) = match walk fs i p with Some c => entry fs c n | None => None end.
Proof.
  rewrite walk_app. destruct (walk fs i p) as [c|]; [|reflexivity]. cbn. now destruct (entry fs c n).
Qed.

Lemma walk_snoc_Some fs i p n c :
  walk fs i (p ++ [n]) = Some c <-> exists d, walk fs i p = Some d /\ entry fs d n = Some c.
Proof.
  rewrite walk_snoc. destruct (walk fs i p) as [d|]; split; try discriminate; try naive_solver.
Qed.

(** [lookup] succeeds exactly where the walk does. *)
Lemma lookup_walk_Ok fs p : forall i c, lookup_walk fs i p = Ok c <-> walk fs i p = Some c.
Proof.
  induction p as [|n p IH]; intros i c; cbn [lookup_walk walk]; [naive_solver|].
  unfold entry. destruct (nodes fs !! i) as [[|es]|]; try (split; discriminate).
  destruct (es !! n); [apply IH|split; discriminate].
Qed.

(** Two paths from the root to the same node are the same path. *)
Lemma walk_inj fs : inv fs -> forall p q c,
  walk fs 1 p = Some c -> walk fs 1 q = Some c -> p = q.
Proof.
  intros Hi p. induction p as [|n p IH] using rev_ind; intros q c Hp Hq.
  - injection Hp as <-. destruct q as [|n q _] using rev_ind; [reflexivity|].
    apply walk_snoc_Some in Hq as (d & _ & E). now apply (inv_entry _ Hi) in E as (_ & ? & _).
  - apply walk_snoc_Some in Hp as (d & Hd & E). destruct q as [|n' q _] using rev_ind.
    { injection Hq as <-. now apply (inv_entry _ Hi) in E as (_ & ? & _). }
    apply walk_snoc_Some in Hq as (d' & Hd' & E').
    destruct (inv_unique _ Hi _ _ _ _ _ E E') as [-> ->]. now rewrite (IH _ _ Hd Hd').
Qed.

Lemma snoc_neq_app {A} (l k : list A) (x : A) : l ++ [x] ++ k <> l.
Proof. intros H%(f_equal length). rewrite length_app in H. cbn in H. lia. Qed.

Lemma created_walk fs p name t fs' ps :
  inv fs -> created fs p name t fs' -> walk fs 1 ps = Some p ->
  forall q, walk fs' 1 q = if decide (q = ps ++ [name]) then Some (next_inode fs) else walk fs 1 q.
Proof.
  intros Hi Hc Hps q. induction q as [|n q IH] using rev_ind.
  { rewrite decide_False by (intros E%app_cons_not_nil; contradiction). reflexivity. }
  rewrite !walk_snoc, IH. destruct (decide (q = ps ++ [name])) as [->|Hq].
  - rewrite decide_False by (intros E; apply app_inj_tail in E as [E _]; now apply (snoc_neq_app ps [] name) in E).
    rewrite walk_snoc, Hps, (cr_free _ _ _ _ _ Hc), (cr_entry _ _ _ _ _ Hc).
    pose proof (cr_fresh _ _ _ _ _ Hc) as Hf. rewrite decide_False.
    + unfold entry, kind in *. now destruct (nodes fs !! next_inode fs).
    + intros [E _]. rewrite E in Hf. rewrite (cr_parent _ _ _ _ _ Hc) in Hf. discriminate.
  - destruct (walk fs 1 q) as [d|] eqn:E.
    + rewrite (cr_entry _ _ _ _ _ Hc). destruct (decide (d = p /\ n = name)) as [[-> ->]|Hd].
      * now rewrite (walk_inj fs Hi q ps p E Hps), decide_True by reflexivity.
      * rewrite decide_False; [reflexivity|]. intros [-> ->]%app_inj_tail. rewrite Hps in E. naive_solver.
    + rewrite decide_False; [reflexivity|]. intros [-> ->]%app_inj_tail. congruence.
Qed.

Lemma unlinked_walk fs p name c fs' ps :
  inv fs -> unlinked fs p name c fs' -> walk fs 1 ps = Some p ->
  forall q, walk fs' 1 q = if decide (q = ps ++ [name]) then None else walk fs 1 q.
Proof.
  intros Hi Hu Hps q. induction q as [|n q IH] using rev_ind.
  { rewrite decide_False by (intros E%app_cons_not_nil; contradiction). reflexivity. }
  rewrite !walk_snoc, IH. destruct (decide (q = ps ++ [name])) as [->|Hq].
  - rewrite decide_False by (intros E; apply app_inj_tail in E as [E _]; now apply (snoc_neq_app ps [] name) in E).
    now rewrite walk_snoc, Hps, (ul_entry_old _ _ _ _ _ Hu), (ul_empty _ _ _ _ _ Hu).
  - destruct (walk fs 1 q) as [d|] eqn:E.
    + rewrite (ul_entry _ _ _ _ _ Hu). destruct (decide (d = p /\ n = name)) as [[-> ->]|Hd].
      * now rewrite (walk_inj fs Hi q ps p E Hps), decide_True by reflexivity.
      * rewrite decide_False; [reflexivity|]. intros [-> ->]%app_inj_tail. rewrite Hps in E. naive_solver.
    + now destruct (decide _).
Qed.

Lemma created_attached fs p name t fs' : inv fs -> created fs p name t fs' -> attached fs -> attached fs'.
Proof.
  intros Hi Hc Ha i t' Hk. destruct (Ha p _ (cr_parent _ _ _ _ _ Hc)) as [ps Hps].
  rewrite (cr_kind _ _ _ _ _ Hc) in Hk. destruct (decide (i = next_inode fs)) as [->|_].
  - exists (ps ++ [name]). now rewrite (created_walk _ _ _ _ _ _ Hi Hc Hps), decide_True.
  - destruct (Ha i _ Hk) as [q Hq]. exists q. rewrite (created_walk _ _ _ _ _ _ Hi Hc Hps), decide_False; [exact Hq|].
    intros ->. rewrite walk_snoc, Hps, (cr_free _ _ _ _ _ Hc) in Hq. discriminate.
Qed.

Lemma unlinked_attached fs p name c fs' : inv fs -> unlinked fs p name c fs' -> attached fs -> attached fs'.
Proof.
  intros Hi Hu Ha i t Hk. destruct (Ha p _ (entry_kind _ _ _ _ (ul_entry_old _ _ _ _ _ Hu))) as [ps Hps].
  rewrite (ul_kind _ _ _ _ _ Hu) in Hk. destruct (decide (i = c)) as [|Hne]; [discriminate|].
  destruct (Ha i _ Hk) as [q Hq]. exists q. rewrite (unlinked_walk _ _ _ _ _ _ Hi Hu Hps), decide_False; [exact Hq|].
  intros ->. rewrite walk_snoc, Hps, (ul_entry_old _ _ _ _ _ Hu) in Hq. congruence.
Qed.

Lemma same_views_attached fs fs' : (forall j, kind fs' j = kind fs j) -> (forall d n, entry fs' d n = entry fs d n) ->
  attached fs -> attached fs'.
Proof.
  intros Hk He Ha i t Hi. rewrite Hk in Hi. destruct (Ha i t Hi) as [q Hq]. exists q. rewrite <- Hq.
  assert (forall d, walk fs' d q = walk fs d q) as Hw; [|apply Hw].
  clear Hq. induction q as [|n q IH]; intros d; cbn [walk]; [reflexivity|]. rewrite He. destruct (entry fs d n); [apply IH|reflexivity].
Qed.

Section Rename.
Context (fs fs' : TmpFs) (p p' c : Z) (name name' : string) (ps ps' : list string).
Hypothesis Hi : inv fs.
Hypothesis Hr : renamed fs p name p' name' c fs'.
Hypothesis Hps : walk fs 1 ps = Some p.
Hypothesis Hps' : walk fs 1 ps' = Some p'.
Hypothesis Hacyclic : ~ (ps ++ [name]) `prefix_of` ps'.

(** Outside the new name, the subtree is gone from the old place. *)
Lemma renamed_walk_old q : ~ (ps' ++ [name']) `prefix_of` q ->
  walk fs' 1 q = if decide ((ps ++ [name]) `prefix_of` q) then None else walk fs 1 q.
Proof.
  induction q as [|n q IH] using rev_ind; intros Hn.
  { rewrite decide_False; [reflexivity|]. intros E%prefix_nil_inv. now destruct ps. }
  assert (~ (ps' ++ [name']) `prefix_of` q) as Hn'
    by (intros H; apply Hn; now apply prefix_app_r).
  rewrite walk_snoc, (IH Hn'). destruct (decide ((ps ++ [name]) `prefix_of` q)) as [Hq|Hq].
  { now rewrite decide_True by now apply prefix_app_r. }
  rewrite walk_snoc. destruct (walk fs 1 q) as [d|] eqn:E; [|now destruct (decide _)].
  rewrite (rn_entry _ _ _ _ _ _ _ Hr).
  destruct (decide (d = p' /\ n = name')) as [[-> ->]|Hd'].
  { exfalso. apply Hn. now rewrite (walk_inj fs Hi q ps' p' E Hps'). }
  destruct (decide (d = p /\ n = name)) as [[-> ->]|Hd].
  { now rewrite (walk_inj fs Hi q ps p E Hps), decide_True by reflexivity. }
  rewrite decide_False; [reflexivity|]. intros [k Hk]. destruct k as [|k0 k _] using rev_ind.
  - rewrite app_nil_r in Hk. apply app_inj_tail in Hk as [-> ->]. rewrite Hps in E. naive_solver.
  - rewrite (assoc_L (++)) in Hk. apply app_inj_tail in Hk as [-> ->]. apply Hq. now exists k.
Qed.

(** Under the new name, the subtree is what it was under the old one. *)
Lemma renamed_walk_new q : walk fs' 1 ((ps' ++ [name']) ++ q) = walk fs 1 ((ps ++ [name]) ++ q).
Proof.
  induction q as [|n q IH] using rev_ind.
  - rewrite !app_nil_r, !walk_snoc, Hps, (rn_entry_old _ _ _ _ _ _ _ Hr).
    rewrite renamed_walk_old.
    + rewrite decide_False, Hps', (rn_entry _ _ _ _ _ _ _ Hr) by assumption.
      now rewrite decide_True by auto.
    + intros [k Hk]. rewrite <- (assoc_L (++)) in Hk. symmetry in Hk. now apply snoc_neq_app in Hk.
  - rewrite !(assoc_L (++) _ q [n]), !walk_snoc, IH.
    destruct (walk fs 1 ((ps ++ [name]) ++ q)) as [d|] eqn:E; [|reflexivity].
    rewrite (rn_entry _ _ _ _ _ _ _ Hr). rewrite !decide_False; [reflexivity| |].
    + intros [-> _]. pose proof (walk_inj fs Hi _ _ _ E Hps) as H.
      rewrite <- (assoc_L (++)) in H. now apply snoc_neq_app in H.
    + intros [-> _]. apply Hacyclic. pose proof (walk_inj fs Hi _ _ _ E Hps') as <-. now exists q.
Qed.

End Rename.

Lemma renamed_attached fs p name p' name' c fs' : inv fs -> renamed fs p name p' name' c fs' ->
  (forall q, walk fs c q <> Some p') -> attached fs -> attached fs'.
Proof.
  intros Hi Hr Hout Ha i t Hk. rewrite (rn_kind _ _ _ _ _ _ _ Hr) in Hk.
  destruct (Ha p _ (entry_kind _ _ _ _ (rn_entry_old _ _ _ _ _ _ _ Hr))) as [ps Hps].
  destruct (Ha p' _ (rn_parent _ _ _ _ _ _ _ Hr)) as [ps' Hps'].
  assert (walk fs 1 (ps ++ [name]) = Some c) as Hc by (now rewrite walk_snoc, Hps, (rn_entry_old _ _ _ _ _ _ _ Hr)).
  assert (~ (ps ++ [name]) `prefix_of` ps') as Hac.
  { intros [k ->]. rewrite walk_app, Hc in Hps'. now apply Hout in Hps'. }
  destruct (Ha i _ Hk) as [q Hq]. destruct (decide ((ps ++ [name]) `prefix_of` q)) as [[k ->]|Hn].
  - exists ((ps' ++ [name']) ++ k). now rewrite (renamed_walk_new fs fs' p p' c name name' ps ps' Hi Hr Hps Hps' Hac).
  - exists q. rewrite (renamed_walk_old fs fs' p p' c name name' ps ps'); try assumption; [now rewrite decide_False|].
    intros [k ->]. rewrite walk_app, walk_snoc, Hps', (rn_free _ _ _ _ _ _ _ Hr) in Hq. discriminate.
Qed.

Lemma exec_attached fs o fs' : inv fs -> keeps_order fs o -> exec fs o = Done fs' -> attached fs -> attached fs'.
Proof.
  intros Hi Hk. destruct o as [p n d|p n|i off data|i|i m|p n p' n']; cbn [exec].
  - intros ([r fs1] & E & [= <-])%bind_Done.
    destruct (create_spec _ _ _ _ _ _ Hi E) as [(e & _ & ->)|[_ H]]; eauto using created_attached.
  - intros [= <-]. destruct (unlink fs p n) as [r fs1] eqn:E.
    destruct (unlink_spec _ _ _ _ _ E) as [(e & _ & ->)|(c & _ & H)]; eauto using unlinked_attached.
  - intros [= <-]. unfold write. destruct (nodes fs !! i) as [[old|]|] eqn:E; try done.
    destruct (set_content_views fs i old (write_data old off data) E). now apply same_views_attached.
  - intros [= <-]. unfold truncate. destruct (nodes fs !! i) as [[old|]|] eqn:E; try done.
    destruct (set_content_views fs i old [] E). now apply same_views_attached.
  - intros [= <-]. unfold chmod. destruct (nodes fs !! i) as [node|]; [|done]. now apply same_views_attached.
  - intros [= <-]. destruct (rename fs p n p' n') as [r fs1] eqn:E.
    destruct (rename_spec _ _ _ _ _ _ _ E) as [(e & _ & ->)|(c & _ & H)]; [done|].
    eapply renamed_attached; [exact Hi|exact H|]. intros q. apply Hk, (rn_entry_old _ _ _ _ _ _ _ H).
Qed.

Lemma grown_spec fs : grown fs -> inv fs /\ attached fs.
Proof.
  induction 1 as [|fs o fs' _ [Hi Ha] Hk E]; [split; [apply tmpfs_inv_new|]|eauto using tmpfs_exec_inv, exec_attached].
  intros i t Hk. exists []. destruct (inv_range _ tmpfs_inv_new _ _ Hk). cbn in *. f_equal. lia.
Qed.


(** ** File contents *)

Lemma length_resize l n : length (resize l n) = n.
Proof. unfold resize. rewrite length_app, length_take, length_replicate. lia. Qed.

Lemma lookup_resize l n k :
  resize l n !! k = if (k <? n)%nat then if (k <? length l)%nat then l !! k else Some 0 else None.
Proof.
  destruct (Nat.ltb_spec k n); [|apply lookup_ge_None; rewrite length_resize; lia].
  unfold resize. destruct (Nat.ltb_spec k (length l)).
  - rewrite lookup_app_l by (rewrite length_take; lia). now apply lookup_take_lt.
  - rewrite lookup_app_r, lookup_replicate_2 by (rewrite length_take; lia). reflexivity.
Qed.

Lemma write_data_spec old off data :
  length (write_data old off data) = Nat.max (length old) (off + length data)
  /\ forall k, write_data old off data !! k = byte_after old off data k.
Proof.
  assert (forall k, write_data old off data !! k = byte_after old off data k) as H.
  2:{ split; [|assumption]. unfold write_data.
      repeat case_match; breflect; rewrite ?length_app, ?length_splice, ?length_resize in *; try lia;
      rewrite ?length_resize; lia. }
  intros k. unfold write_data, byte_after. destruct (Nat.ltb_spec (length old) off).
  - rewrite length_resize, Nat.eqb_refl. destruct (Nat.leb_spec off k); cbn [andb].
    + rewrite lookup_app_r by (rewrite length_resize; lia). rewrite length_resize.
      destruct (Nat.ltb_spec k (off + length data)); [reflexivity|].
      rewrite (proj2 (Nat.ltb_ge k (length old))), (proj2 (Nat.ltb_ge k off)) by lia.
      apply lookup_ge_None. lia.
    + rewrite lookup_app_l, lookup_resize by (rewrite length_resize; lia).
      now rewrite (proj2 (Nat.ltb_lt k off)) by lia.
  - destruct (Nat.eqb_spec off (length old)) as [->|].
    + destruct (Nat.leb_spec (length old) k); cbn [andb].
      * rewrite lookup_app_r by lia. destruct (Nat.ltb_spec k (length old + length data)); [reflexivity|].
        rewrite (proj2 (Nat.ltb_ge k (length old))) by lia. apply lookup_ge_None. lia.
      * rewrite lookup_app_l by lia. now rewrite (proj2 (Nat.ltb_lt k (length old))) by lia.
    + destruct (Nat.ltb_spec (length old) (off + length data)).
      * rewrite lookup_splice by (rewrite length_resize; lia).
        destruct ((off <=? k) && (k <? off + length data))%nat eqn:E; [reflexivity|].
        rewrite lookup_resize. repeat case_match; breflect; try lia; reflexivity.
      * rewrite lookup_splice by lia.
        destruct ((off <=? k) && (k <? off + length data))%nat eqn:E; [reflexivity|].
        destruct (Nat.ltb_spec k (length old)); [reflexivity|].
        rewrite (proj2 (Nat.ltb_ge k off)) by lia. apply lookup_ge_None. lia.
Qed.

(** Reading back the range that was written. *)
Lemma write_data_read old off data :
  sub_slice (write_data old off data) off (off + length data) = data.
Proof.
  destruct (write_data_spec old off data) as [Hl H]. unfold sub_slice. apply list_eq. intros k.
  rewrite lookup_take. replace (off + length data - off)%nat with (length data) by lia.
  case_decide as Hk; [|symmetry; apply lookup_ge_None; lia].
  rewrite lookup_drop, H. unfold byte_after.
  rewrite (proj2 (Nat.leb_le off (off + k))), (proj2 (Nat.ltb_lt (off + k) (off + length data))) by lia.
  cbn [andb]. f_equal. lia.
Qed.


(** ** Directory listings *)

Lemma list_entries_Ok fs es :
  (forall n c, (n, c) ∈ es -> is_Some (kind fs c)) ->
  exists l, list_entries fs es = Ok l /\ l.*1 = es.*1
    /\ forall n t, (n, t) ∈ l <-> exists c, (n, c) ∈ es /\ kind fs c = Some t.
Proof.
  induction es as [|[n c] es IH]; intros H; cbn [list_entries].
  { exists []. split; [reflexivity|]. split; [reflexivity|]. intros n t. split.
    - intros E. now apply elem_of_nil in E.
    - intros (c & E & _). now apply elem_of_nil in E. }
  destruct IH as (l & -> & Hfst & Hin); [intros; eapply H; right; eassumption|].
  destruct (H n c ltac:(left)) as [t Ht]. unfold kind in Ht.
  destruct (nodes fs !! c) as [node|] eqn:E; [|discriminate]. cbn [result_bind].
  injection Ht as Ht. exists ((n, node_type node) :: l). split; [reflexivity|].
  split; [cbn; now rewrite Hfst|]. intros n' t'. rewrite elem_of_cons, Hin. split.
  - intros [[= -> ->]|(c' & Hc' & Hk)].
    + exists c. split; [left|]. unfold kind. now rewrite E.
    + exists c'. split; [now right|assumption].
  - intros (c' & [[= -> ->]|Hc']%elem_of_cons & Hk).
    + left. unfold kind in Hk. rewrite E in Hk. now injection Hk as <-.
    + right. eauto.
Qed.

Lemma sorted_entries_spec es :
  Sorted (fun a b => String.leb a b = true) (sorted_entries es).*1
  /\ NoDup (sorted_entries es).*1
  /\ forall n c, (n, c) ∈ sorted_entries es <-> es !! n = Some c.
Proof.
  assert (sorted_entries es ≡ₚ map_to_list es) as Hp by apply merge_sort_Permutation.
  split; [|split].
  - assert (Sorted name_le (sorted_entries es)) as Hs.
    { apply Sorted_merge_sort. intros a b. unfold name_le.
      destruct (String.leb_total (fst a) (fst b)); auto. }
    clear Hp. induction Hs as [|x l Hl IH Hx]; [constructor|]. cbn. constructor; [assumption|].
    destruct Hx; constructor. assumption.
  - rewrite Hp. apply NoDup_fst_map_to_list.
  - intros n c. rewrite Hp. apply elem_of_map_to_list.
Qed.

(** ** Properties *)

(** C21: the structure of the file system. After any operations: the root is a
    directory no entry names; every entry has a valid name and leads to an
    existing node; every other node has exactly one name in exactly one
    directory; inode numbers in use lie below the next one; and the mode of
    every node carries its file type. After operations of which none moves a
    directory into its own subtree, which [rename] does not refuse, it is a
    tree: exactly one path leads from the root to every node. *)
Theorem tmpfs_structure fs :
  (reachable fs -> inv fs)
  /\ (grown fs -> forall i t, kind fs i = Some t -> exists q, walk fs 1 q = Some i /\ forall q', walk fs 1 q' = Some i -> q' = q).
Proof.
  split; [apply tmpfs_reachable_inv|]. intros [Hi Ha]%grown_spec i t Hk. destruct (Ha i t Hk) as [q Hq].
  exists q. split; [exact Hq|]. intros q' Hq'. exact (walk_inj fs Hi q' q i Hq' Hq).
Qed.

Lemma run_grown ops : forall fs fs', grown fs -> run ops fs = Done fs' ->
  forallb (fun o => match o with OpRename _ _ _ _ => false | _ => true end) ops = true -> grown fs'.
Proof.
  unfold run. induction ops as [|o ops IH]; intros fs fs' Hr H Ho; cbn [fold_left bind forallb] in H, Ho.
  - now injection H as <-.
  - apply andb_true_iff in Ho as [Ho1 Ho2]. destruct (exec fs o) as [fs1|] eqn:E.
    + eapply IH; [|exact H|exact Ho2]. eapply grown_op; [exact Hr| |exact E]. now destruct o.
    + exfalso. clear -H. induction ops; cbn in H; [discriminate|auto].
Qed.

Lemma tmpfs_structure_witness : inv demo /\ exists q, walk demo 1 q = Some 3 /\ forall q', walk demo 1 q' = Some 3 -> q' = q.
Proof.
  split; [apply (tmpfs_structure demo), tmpfs_demo_reachable|].
  apply (proj2 (tmpfs_structure demo)) with (t := File); [|vm_compute; reflexivity].
  apply (run_grown demo_ops new); [constructor|vm_compute; reflexivity|reflexivity].
Defined.

(** A successful [create] in the directory at path [ps] makes exactly one
    more path resolve, [ps/name], to a fresh inode; every other path resolves
    as before, and the new node is an empty file or directory. *)
Theorem create_adds_one_path fs ps p name isd i fs' :
  reachable fs -> walk fs 1 ps = Some p ->
  create fs p name isd = Done (Ok i, fs') ->
  kind fs i = None /\ nodes fs' !! i = Some (if isd then new_directory else new_file)
  /\ forall q, walk fs' 1 q = if decide (q = ps ++ [name]) then Some i else walk fs 1 q.
Proof.
  intros Hr Hps Hc. pose proof (tmpfs_reachable_inv _ Hr) as Hi.
  destruct (create_spec _ _ _ _ _ _ Hi Hc) as [(e & [=] & _)|[[= ->] H]].
  split; [apply (cr_fresh _ _ _ _ _ H)|]. split; [|now apply (created_walk _ p _ _ _ ps Hi H)].
  rewrite (cr_new _ _ _ _ _ H). now destruct isd.
Qed.

Lemma create_adds_one_path_witness :
  walk (snd (match create demo 2 "h" false with Done x => x | Panicked => (Err EIO, new) end)) 1 ["a"; "h"]
  = Some 5.
Proof.
  destruct (create_adds_one_path demo ["a"] 2 "h" false 5
    (snd (match create demo 2 "h" false with Done x => x | Panicked => (Err EIO, new) end))
    tmpfs_demo_reachable ltac:(vm_compute; reflexivity) ltac:(vm_compute; reflexivity)) as (_ & _ & H).
  rewrite H. vm_compute. reflexivity.
Defined.

(** A successful [unlink] of [name] in the directory at path [ps] makes
    exactly the path [ps/name] stop resolving, and removes its node. *)
Theorem unlink_removes_one_path fs ps p name fs' :
  reachable fs -> walk fs 1 ps = Some p -> unlink fs p name = (Ok tt, fs') ->
  exists c, walk fs 1 (ps ++ [name]) = Some c /\ kind fs' c = None
  /\ (forall j, j <> c -> kind fs' j = kind fs j)
  /\ forall q, walk fs' 1 q = if decide (q = ps ++ [name]) then None else walk fs 1 q.
Proof.
  intros Hr Hps Hu. pose proof (tmpfs_reachable_inv _ Hr) as Hi.
  destruct (unlink_spec _ _ _ _ _ Hu) as [(e & [=] & _)|(c & _ & H)]. exists c.
  split; [now rewrite walk_snoc, Hps, (ul_entry_old _ _ _ _ _ H)|].
  split; [rewrite (ul_kind _ _ _ _ _ H); now rewrite decide_True by reflexivity|].
  split; [|now apply (unlinked_walk _ p _ c _ ps Hi H)].
  intros j Hj. now rewrite (ul_kind _ _ _ _ _ H), decide_False.
Qed.

Lemma unlink_removes_one_path_witness :
  walk (snd (unlink demo 2 "f")) 1 ["a"; "f"] = None.
Proof.
  destruct (unlink_removes_one_path demo ["a"] 2 "f" (snd (unlink demo 2 "f"))
    tmpfs_demo_reachable ltac:(vm_compute; reflexivity) ltac:(vm_compute; reflexivity)) as (c & _ & _ & _ & H).
  rewrite H. vm_compute. reflexivity.
Defined.

(** C22: a successful [rename] moves the whole subtree. Unless the new parent
    lies inside the moved subtree, every path under the new name resolves to
    what it resolved to under the old name, nothing resolves under the old
    name, and every other path is unchanged. *)
Theorem rename_moves_subtree fs ps p name ps' p' name' fs' :
  reachable fs -> walk fs 1 ps = Some p -> walk fs 1 ps' = Some p' ->
  ~ (ps ++ [name]) `prefix_of` ps' ->
  rename fs p name p' name' = (Ok tt, fs') ->
  (forall q, walk fs' 1 ((ps' ++ [name']) ++ q) = walk fs 1 ((ps ++ [name]) ++ q))
  /\ (forall q, ~ (ps' ++ [name']) `prefix_of` q ->
      walk fs' 1 q = if decide ((ps ++ [name]) `prefix_of` q) then None else walk fs 1 q).
Proof.
  intros Hr Hps Hps' Hac Hrn. pose proof (tmpfs_reachable_inv _ Hr) as Hi.
  destruct (rename_spec _ _ _ _ _ _ _ Hrn) as [(e & [=] & _)|(c & _ & H)]. split; intros q.
  - now apply (renamed_walk_new fs fs' p p' c).
  - now apply (renamed_walk_old fs fs' p p' c).
Qed.

Lemma rename_moves_subtree_witness :
  walk (snd (rename demo 1 "a" 1 "b")) 1 ["b"; "f"] = Some 3.
Proof.
  destruct (rename_moves_subtree demo [] 1 "a" [] 1 "b" (snd (rename demo 1 "a" 1 "b"))
    tmpfs_demo_reachable ltac:(vm_compute; reflexivity) ltac:(vm_compute; reflexivity)) as [H _].
  - intros [k Hk]. discriminate.
  - vm_compute. reflexivity.
  - etransitivity; [exact (H ["f"])|vm_compute; reflexivity].
Defined.

(** [rename] has no check against moving a directory into itself: there is
    a reachable state with a directory that no path from the root reaches and
    that contains itself. *)
Theorem rename_detaches_directory :
  exists fs, reachable fs /\ kind fs 2 = Some Directory /\ entry fs 2 "b" = Some 2
    /\ forall q, walk fs 1 q <> Some 2.
Proof.
  exists looped. split; [apply (tmpfs_run_reachable [OpCreate 1 "a" true; OpRename 1 "a" 2 "b"] new); [constructor|vm_compute; reflexivity]|].
  split; [vm_compute; reflexivity|]. split; [vm_compute; reflexivity|].
  assert (nodes looped !! 1 = Some (NDirectory ∅)) as Hroot by (vm_compute; reflexivity).
  generalize dependent looped. intros fs Hroot [|n q]; cbn [walk]; [discriminate|].
  rewrite (nodes_entry _ _ _ Hroot), lookup_empty. discriminate.
Qed.

(** [write] at an offset replaces exactly the bytes in its range, fills a
    gap past the end with zeros, extends the file to the end of the data and
    leaves every other file alone; reading the range back returns the data. *)
Theorem write_then_read fs i off data old :
  content fs i = Some old ->
  exists fs' new, write fs i off data = (Ok (length data), fs') /\ content fs' i = Some new
  /\ length new = Nat.max (length old) (off + length data)
  /\ (forall k, new !! k = byte_after old off data k)
  /\ (forall j, j <> i -> nodes fs' !! j = nodes fs !! j)
  /\ (forall buffer, length buffer = length data -> read fs' i off buffer = Ok (length data, data)).
Proof.
  unfold content, write. intros H. destruct (nodes fs !! i) as [[data0|]|] eqn:E; try discriminate.
  injection H as ->. eexists _, (write_data old off data). split; [reflexivity|].
  destruct (write_data_spec old off data) as [Hl Hk]. cbn [nodes with_nodes]. rewrite lookup_insert_eq.
  repeat (split; [auto; fail|]). split; [intros j Hj; now apply lookup_insert_ne|].
  intros buffer Hb. unfold read. cbn [nodes with_nodes]. rewrite lookup_insert_eq.
  destruct (Nat.leb_spec (length (write_data old off data)) off).
  - destruct data; [|cbn in *; lia]. destruct buffer; [reflexivity|discriminate].
  - rewrite Nat.min_r by lia. rewrite Hb, write_data_read. f_equal. f_equal.
    unfold splice. rewrite <- Hb, Nat.add_0_l, drop_all, app_nil_r. reflexivity.
Qed.

Lemma write_then_read_witness :
  exists fs' new, write demo 3 4 [1; 2] = (Ok 2%nat, fs') /\ content fs' 3 = Some new
    /\ length new = 6%nat.
Proof.
  destruct (write_then_read demo 3 4 [1; 2] [0; 0; 7; 8; 9] ltac:(vm_compute; reflexivity)) as (fs' & new & H1 & H2 & H3 & _).
  exists fs', new. auto.
Defined.

(** [read_dir] of a directory never fails, and lists each entry of the
    directory exactly once, in the order of the names and with the type of the
    node it leads to. *)
Theorem read_dir_exact fs d :
  reachable fs -> kind fs d = Some Directory ->
  exists l, read_dir fs d = Ok l
  /\ Sorted (fun a b => String.leb a b = true) l.*1 /\ NoDup l.*1
  /\ forall n t, (n, t) ∈ l <-> exists c, entry fs d n = Some c /\ kind fs c = Some t.
Proof.
  intros Hr Hd. pose proof (tmpfs_reachable_inv _ Hr) as Hi. destruct (kind_dir _ _ Hd) as [es Hes].
  unfold read_dir. rewrite (proj2 (dir_entries_Ok _ _ _) Hes). cbn [result_bind].
  destruct (sorted_entries_spec es) as (Hs & Hnd & Hin).
  destruct (list_entries_Ok fs (sorted_entries es)) as (l & -> & Hl & Hl').
  { intros n c Hc%Hin. rewrite <- (nodes_entry _ _ _ Hes) in Hc. now apply (inv_entry _ Hi) in Hc. }
  exists l. rewrite Hl. repeat (split; [assumption || reflexivity|]). intros n t. rewrite Hl'.
  split; intros (c & Hc & Hk); exists c; rewrite Hin, (nodes_entry _ _ _ Hes) in *; auto.
Qed.

Lemma read_dir_exact_witness :
  exists l, read_dir demo 1 = Ok l /\ NoDup l.*1.
Proof.
  destruct (read_dir_exact demo 1 tmpfs_demo_reachable ltac:(vm_compute; reflexivity)) as (l & H & _ & Hn & _). eauto.
Defined.


End TmpFs.
