(* ===== verification/Bytes.v ===== *)
(** * Integers as bytes

    [from_le_bytes], [from_be_bytes] and their inverses, used by the disk
    formats and the network packets.  A byte is a [Z] between 0 and 255. *)

From S2P Require Import Prelude.

Module Bytes.

(** [uN::from_le_bytes]. *)
Fixpoint from_le (bytes : list Z) : Z :=
  match bytes with
  | [] => 0
  | b :: rest => b + 256 * from_le rest
  end.

(** [x.to_le_bytes()] of an [n]-byte integer. *)
Fixpoint to_le (n : nat) (x : Z) : list Z :=
  match n with
  | O => []
  | S n' => x mod 256 :: to_le n' (x / 256)
  end.

(** [from_be_bytes] and [to_be_bytes]. *)
Definition from_be (bytes : list Z) : Z := from_le (rev bytes).
Definition to_be (n : nat) (x : Z) : list Z := rev (to_le n x).

(** The little-endian integer of [n] bytes at an offset; indexing panics when
    a byte is out of range. *)
Definition le_at (bytes : list Z) (off n : nat) : outcome Z :=
  let! b := slice bytes off (off + n) in Done (from_le b).

Definition be_at (bytes : list Z) (off n : nat) : outcome Z :=
  let! b := slice bytes off (off + n) in Done (from_be b).

(** ** Lemmas *)

Lemma length_to_le n : forall x, length (to_le n x) = n.
Proof. induction n as [|n IH]; intros x; cbn [to_le length]; [reflexivity|]. now rewrite IH. Qed.

Lemma length_to_be n x : length (to_be n x) = n.
Proof. unfold to_be. now rewrite length_rev, length_to_le. Qed.

Lemma to_le_bytes_ok n : forall x, bytes_ok (to_le n x).
Proof.
  induction n as [|n IH]; intros x; cbn [to_le]; [constructor|]. constructor; [|apply IH].
  unfold is_u8, U8_MAX. lia.
Qed.

Lemma to_be_bytes_ok n x : bytes_ok (to_be n x).
Proof. apply Forall_rev, to_le_bytes_ok. Qed.

Lemma from_to_le n : forall x, 0 <= x < 256 ^ Z.of_nat n -> from_le (to_le n x) = x.
Proof.
  induction n as [|n IH]; intros x Hx; cbn [to_le from_le].
  - change (256 ^ Z.of_nat 0) with 1 in Hx. lia.
  - rewrite Nat2Z.inj_succ, Z.pow_succ_r in Hx by lia. rewrite IH; [lia|].
    split; [apply Z.div_pos; lia|]. apply Z.div_lt_upper_bound; lia.
Qed.

Lemma from_to_be n x : 0 <= x < 256 ^ Z.of_nat n -> from_be (to_be n x) = x.
Proof. intros H. unfold from_be, to_be. rewrite rev_involutive. now apply from_to_le. Qed.

Lemma from_le_bound l : bytes_ok l -> 0 <= from_le l < 256 ^ Z.of_nat (length l).
Proof.
  induction 1 as [|b l Hb _ IH]; cbn [from_le length].
  - change (256 ^ Z.of_nat 0) with 1. lia.
  - rewrite Nat2Z.inj_succ, Z.pow_succ_r by lia. unfold is_u8, U8_MAX in Hb. lia.
Qed.

Lemma to_from_le l : bytes_ok l -> to_le (length l) (from_le l) = l.
Proof.
  induction 1 as [|b l Hb Hl IH]; cbn [from_le length to_le]; [reflexivity|].
  unfold is_u8, U8_MAX in Hb. rewrite Z.mul_comm, Z.mod_add, Z.div_add by lia.
  rewrite Z.mod_small, Z.div_small by lia. rewrite Z.add_0_l. now rewrite IH.
Qed.

Lemma from_be_bound l : bytes_ok l -> 0 <= from_be l < 256 ^ Z.of_nat (length l).
Proof.
  intros H. unfold from_be. rewrite <- (length_rev l). now apply from_le_bound, Forall_rev.
Qed.

Lemma to_from_be l : bytes_ok l -> to_be (length l) (from_be l) = l.
Proof.
  intros H. unfold to_be, from_be. rewrite <- (length_rev l), to_from_le; [apply rev_involutive|].
  now apply Forall_rev.
Qed.

Lemma slice_Done {A} (l : list A) a b :
  (a <= b <= length l)%nat -> slice l a b = Done (sub_slice l a b).
Proof.
  intros H. unfold slice. rewrite (proj2 (Nat.leb_le a b)), (proj2 (Nat.leb_le b (length l))) by lia.
  reflexivity.
Qed.

Lemma le_at_Done l off n :
  (off + n <= length l)%nat -> le_at l off n = Done (from_le (sub_slice l off (off + n))).
Proof. intros H. unfold le_at. now rewrite slice_Done by lia. Qed.

Lemma be_at_Done l off n :
  (off + n <= length l)%nat -> be_at l off n = Done (from_be (sub_slice l off (off + n))).
Proof. intros H. unfold be_at. now rewrite slice_Done by lia. Qed.

(** The bytes in the middle of an append. *)
Lemma sub_slice_middle {A} (a m b : list A) :
  sub_slice (a ++ m ++ b) (length a) (length a + length m) = m.
Proof.
  unfold sub_slice. rewrite drop_app_length.
  replace (length a + length m - length a)%nat with (length m) by lia. apply take_app_length.
Qed.

Lemma le_at_middle a n x b :
  0 <= x < 256 ^ Z.of_nat n -> le_at (a ++ to_le n x ++ b) (length a) n = Done x.
Proof.
  intros H. rewrite le_at_Done by (rewrite !length_app, length_to_le; lia). f_equal.
  pose proof (sub_slice_middle a (to_le n x) b) as E. rewrite length_to_le in E. rewrite E.
  now apply from_to_le.
Qed.

Lemma be_at_middle a n x b :
  0 <= x < 256 ^ Z.of_nat n -> be_at (a ++ to_be n x ++ b) (length a) n = Done x.
Proof.
  intros H. rewrite be_at_Done by (rewrite !length_app, length_to_be; lia). f_equal.
  pose proof (sub_slice_middle a (to_be n x) b) as E. rewrite length_to_be in E. rewrite E.
  now apply from_to_be.
Qed.

(** The same at an offset given by a number. *)
Lemma le_at_offset a n x b off :
  off = length a -> 0 <= x < 256 ^ Z.of_nat n -> le_at (a ++ to_le n x ++ b) off n = Done x.
Proof. intros ->. apply le_at_middle. Qed.

Lemma be_at_offset a n x b off :
  off = length a -> 0 <= x < 256 ^ Z.of_nat n -> be_at (a ++ to_be n x ++ b) off n = Done x.
Proof. intros ->. apply be_at_middle. Qed.

(** Reading inside a range of the buffer. *)
Lemma le_at_sub l base len o m bytes :
  sub_slice l base (base + len) = bytes -> (base + len <= length l)%nat -> (o + m <= len)%nat ->
  le_at l (base + o) m = le_at bytes o m.
Proof.
  intros <- Hl Ho. rewrite !le_at_Done by (rewrite ?length_sub_slice; lia). f_equal. f_equal.
  rewrite sub_slice_sub_slice by lia. f_equal. lia.
Qed.

End Bytes.
