(* ===== verification/Block.v ===== *)
(** * Block devices (src/hal/src/block.rs)

    The trait [BlockDevice] is a type class: what the file systems need of a
    disk. [RamDisk], the mock device of the tests, is an instance; another one is
    the disk that the ATA driver implements (see [Ata]). *)

From S2P Require Import Prelude.

Module Block.

Definition SECTOR_SIZE : nat := 512.

(** [enum BlockError]. *)
Inductive BlockError : Type := IoError | InvalidSector | BufferTooSmall | NotReady.

(** A sector buffer [[u8; SECTOR_SIZE]]. *)
Definition is_sector (l : list Z) : Prop := length l = SECTOR_SIZE /\ bytes_ok l.

(** [trait BlockDevice]. Reading does not change the medium; a sector that was
    written is read back, and the other sectors stay. *)
Class BlockDevice (D : Type) : Type := {
  read_sector : D -> Z -> result (list Z) BlockError;
  write_sector : D -> Z -> list Z -> result D BlockError;
  read_sector_ok : forall d n b, read_sector d n = Ok b -> is_sector b;
  write_sector_read : forall d n b d',
    is_sector b -> write_sector d n b = Ok d' ->
    read_sector d' n = Ok b /\ forall m, m <> n -> read_sector d' m = read_sector d m
}.

Section Default.
Context {D : Type} `{BlockDevice D}.

(** The loop of [read_sectors] from the [i]-th sector on, [n] left. *)
Fixpoint read_sectors_loop (d : D) (start_sector : Z) (i n : nat) (buffer : list Z)
    : result unit BlockError * list Z :=
  match n with
  | O => (Ok tt, buffer)
  | S n' =>
      match read_sector d (start_sector + Z.of_nat i) with
      | Err e => (Err e, buffer)
      | Ok sector_buf =>
          read_sectors_loop d start_sector (S i) n' (splice buffer (i * SECTOR_SIZE) sector_buf)
      end
  end.

(** [read_sectors]: the result and the buffer. *)
Definition read_sectors (d : D) (start_sector : Z) (count : nat) (buffer : list Z)
    : result unit BlockError * list Z :=
  if (length buffer <? count * SECTOR_SIZE)%nat then (Err BufferTooSmall, buffer)
  else read_sectors_loop d start_sector 0 count buffer.

(** The loop of [write_sectors]. *)
Fixpoint write_sectors_loop (d : D) (start_sector : Z) (i n : nat) (buffer : list Z)
    : result unit BlockError * D :=
  match n with
  | O => (Ok tt, d)
  | S n' =>
      let offset := (i * SECTOR_SIZE)%nat in
      match write_sector d (start_sector + Z.of_nat i)
              (sub_slice buffer offset (offset + SECTOR_SIZE)) with
      | Err e => (Err e, d)
      | Ok d' => write_sectors_loop d' start_sector (S i) n' buffer
      end
  end.

(** [write_sectors]. *)
Definition write_sectors (d : D) (start_sector : Z) (count : nat) (buffer : list Z)
    : result unit BlockError * D :=
  if (length buffer <? count * SECTOR_SIZE)%nat then (Err BufferTooSmall, d)
  else write_sectors_loop d start_sector 0 count buffer.

(** ** Lemmas *)

Lemma write_sectors_read n : forall d start i buffer d',
  bytes_ok buffer -> ((i + n) * SECTOR_SIZE <= length buffer)%nat ->
  write_sectors_loop d start i n buffer = (Ok tt, d') ->
  (forall k, (i <= k < i + n)%nat -> read_sector d' (start + Z.of_nat k)
     = Ok (sub_slice buffer (k * SECTOR_SIZE) (k * SECTOR_SIZE + SECTOR_SIZE)))
  /\ (forall m, m < start + Z.of_nat i \/ start + Z.of_nat (i + n) <= m ->
      read_sector d' m = read_sector d m).
Proof.
  induction n as [|n IH]; intros d start i buffer d' Hb Hl Hw; cbn [write_sectors_loop] in Hw.
  - injection Hw as <-. split; [lia|reflexivity].
  - destruct (write_sector d _ _) as [d1|e] eqn:E; [|discriminate].
    assert (is_sector (sub_slice buffer (i * SECTOR_SIZE) (i * SECTOR_SIZE + SECTOR_SIZE))) as Hs.
    { split; [rewrite length_sub_slice; lia|]. now apply Forall_take, Forall_drop. }
    destruct (write_sector_read _ _ _ _ Hs E) as [H1 H2].
    destruct (IH d1 start (S i) buffer d' Hb ltac:(lia) Hw) as [IH1 IH2]. split.
    + intros k Hk. destruct (decide (k = i)) as [->|]; [|apply IH1; lia].
      rewrite IH2 by lia. exact H1.
    + intros m Hm. rewrite IH2 by lia. apply H2. lia.
Qed.

Lemma read_sectors_written n : forall d start i buffer out,
  length out = length buffer -> ((i + n) * SECTOR_SIZE <= length buffer)%nat ->
  take (i * SECTOR_SIZE) out = take (i * SECTOR_SIZE) buffer ->
  (forall k, (i <= k < i + n)%nat -> read_sector d (start + Z.of_nat k)
     = Ok (sub_slice buffer (k * SECTOR_SIZE) (k * SECTOR_SIZE + SECTOR_SIZE))) ->
  exists out', read_sectors_loop d start i n out = (Ok tt, out') /\ length out' = length buffer
    /\ take ((i + n) * SECTOR_SIZE) out' = take ((i + n) * SECTOR_SIZE) buffer.
Proof.
  induction n as [|n IH]; intros d start i buffer out Hlen Hl Ht Hr; cbn [read_sectors_loop].
  - exists out. rewrite Nat.add_0_r. auto.
  - rewrite (Hr i) by lia. replace (i + S n)%nat with (S i + n)%nat by lia.
    assert (length (sub_slice buffer (i * SECTOR_SIZE) (i * SECTOR_SIZE + SECTOR_SIZE)) = SECTOR_SIZE)
      as Hsec by (rewrite length_sub_slice; lia).
    apply IH.
    + rewrite length_splice by lia. assumption.
    + lia.
    + unfold splice. rewrite Hsec. rewrite take_app_ge by (rewrite length_take; lia).
      rewrite length_take_le by lia. rewrite take_app_le by lia.
      replace (S i * SECTOR_SIZE - i * SECTOR_SIZE)%nat with SECTOR_SIZE by lia.
      rewrite Ht. unfold sub_slice.
      replace (i * SECTOR_SIZE + SECTOR_SIZE - i * SECTOR_SIZE)%nat with SECTOR_SIZE by lia.
      rewrite take_take, Nat.min_id, take_take_drop. f_equal. lia.
    + intros k Hk. apply Hr. lia.
Qed.

End Default.

(** The mock device of the tests, [MockDevice]: a vector of sectors. *)
Notation RamDisk := (list (list Z)).

Definition ram_read (d : RamDisk) (n : Z) : result (list Z) BlockError :=
  if n <? 0 then Err InvalidSector
  else match d !! Z.to_nat n with
       | Some b => if (length b =? SECTOR_SIZE)%nat && forallb (fun x => (0 <=? x) && (x <=? U8_MAX)) b
                   then Ok b else Err IoError
       | None => Err InvalidSector
       end.

Definition ram_write (d : RamDisk) (n : Z) (b : list Z) : result RamDisk BlockError :=
  if (n <? 0) || (Z.of_nat (length d) <=? n) then Err InvalidSector
  else Ok (<[Z.to_nat n := b]> d).

Lemma ram_read_ok d n b : ram_read d n = Ok b -> is_sector b.
Proof.
  unfold ram_read. repeat case_match; intros [= <-]. breflect. split; [assumption|].
  apply Forall_forall. intros x Hx. rewrite list_elem_of_In in Hx.
  match goal with H : forallb _ _ = true |- _ => rewrite forallb_forall in H; specialize (H x Hx) end.
  unfold is_u8. lia.
Qed.

Lemma ram_write_read d n b d' :
  is_sector b -> ram_write d n b = Ok d' ->
  ram_read d' n = Ok b /\ forall m, m <> n -> ram_read d' m = ram_read d m.
Proof.
  intros [Hl Hb]. unfold ram_write. case_match; intros [= <-]. breflect. split.
  - unfold ram_read. rewrite (proj2 (Z.ltb_ge n 0)) by lia. rewrite list_lookup_insert_eq by lia.
    rewrite Hl, Nat.eqb_refl. cbn [andb].
    replace (forallb _ b) with true; [reflexivity|]. symmetry. apply forallb_forall.
    intros x Hx. rewrite <- list_elem_of_In in Hx. unfold bytes_ok in Hb. rewrite Forall_forall in Hb.
    specialize (Hb x Hx). unfold is_u8 in Hb. lia.
  - intros m Hm. unfold ram_read. case_match; [reflexivity|]. breflect.
    now rewrite list_lookup_insert_ne by lia.
Qed.

Global Instance RamDisk_BlockDevice : BlockDevice RamDisk := {
  read_sector := ram_read;
  write_sector := ram_write;
  read_sector_ok := ram_read_ok;
  write_sector_read := ram_write_read
}.

(** ** Properties *)

(** For every block device, what [write_sectors] writes [read_sectors] reads
    back, into a buffer of any previous content. *)
Theorem write_sectors_roundtrip {D} `{BlockDevice D} (d d' : D) start count buffer out :
  bytes_ok buffer -> length buffer = (count * SECTOR_SIZE)%nat -> length out = length buffer ->
  write_sectors d start count buffer = (Ok tt, d') ->
  read_sectors d' start count out = (Ok tt, buffer)
  /\ forall m, m < start \/ start + Z.of_nat count <= m -> read_sector d' m = read_sector d m.
Proof.
  intros Hb Hl Ho Hw. unfold write_sectors in Hw. unfold read_sectors.
  rewrite (proj2 (Nat.ltb_ge (length buffer) (count * SECTOR_SIZE))) in Hw by lia.
  rewrite (proj2 (Nat.ltb_ge (length out) (count * SECTOR_SIZE))) by lia.
  destruct (write_sectors_read count d start 0 buffer d' Hb ltac:(lia) Hw) as [H1 H2].
  destruct (read_sectors_written count d' start 0 buffer out) as (out' & -> & Hlen & Ht);
    [assumption|lia|reflexivity|exact H1|].
  rewrite !take_ge in Ht by lia. subst out'. split; [reflexivity|].
  intros m Hm. apply H2. lia.
Qed.

Lemma write_sectors_roundtrip_witness :
  let d := replicate 3 (replicate 512 0) : RamDisk in
  let d' := snd (write_sectors d 1 1 (replicate 512 7)) in
  read_sectors d' 1 1 (replicate 512 9) = (Ok tt, replicate 512 7).
Proof.
  intros d d'. apply (write_sectors_roundtrip d d' 1 1 (replicate 512 7) (replicate 512 9)).
  - apply Forall_replicate. unfold is_u8, U8_MAX. lia.
  - reflexivity.
  - reflexivity.
  - vm_compute. reflexivity.
Defined.

End Block.
