(* ===== verification/Utf8.v ===== *)
(** * UTF-8 and UTF-16 (the parts of Rust's [str] the file systems use)

    [String::from_utf8_lossy], [core::str::from_utf8],
    [String::from_utf16_lossy], [trim_end] and [eq_ignore_ascii_case], on the
    bytes of a string.  An ill-formed sequence is replaced as the standard
    library does it: one U+FFFD for each maximal prefix of a well-formed
    character. *)

From Stdlib Require Import Ascii.
From S2P Require Import Prelude.

Module Utf8.

(** Strings and their bytes. *)
Fixpoint string_of_bytes (l : list Z) : string :=
  match l with
  | [] => EmptyString
  | b :: rest => String (ascii_of_N (Z.to_N b)) (string_of_bytes rest)
  end.

Fixpoint bytes_of_string (s : string) : list Z :=
  match s with
  | EmptyString => []
  | String c rest => Z.of_N (N_of_ascii c) :: bytes_of_string rest
  end.

Definition between (lo b hi : Z) : bool := (lo <=? b) && (b <=? hi).

(** A continuation byte. *)
Definition cont (b : Z) : bool := between 0x80 b 0xBF.

(** The second byte allowed after the first byte of a 3- or 4-byte character. *)
Definition second_ok (b0 b1 : Z) : bool :=
  if b0 =? 0xE0 then between 0xA0 b1 0xBF
  else if b0 =? 0xED then between 0x80 b1 0x9F
  else if b0 =? 0xF0 then between 0x90 b1 0xBF
  else if b0 =? 0xF4 then between 0x80 b1 0x8F
  else cont b1.

(** Whether the bytes start with a character, and the length of it or of the
    ill-formed prefix. *)
Definition first_char (l : list Z) : bool * nat :=
  match l with
  | [] => (true, 0%nat)
  | b0 :: r =>
      if b0 <? 0x80 then (true, 1%nat)
      else if between 0xC2 b0 0xDF then
        match r with
        | b1 :: _ => if cont b1 then (true, 2%nat) else (false, 1%nat)
        | [] => (false, 1%nat)
        end
      else if between 0xE0 b0 0xEF then
        match r with
        | b1 :: r2 =>
            if second_ok b0 b1 then
              match r2 with
              | b2 :: _ => if cont b2 then (true, 3%nat) else (false, 2%nat)
              | [] => (false, 2%nat)
              end
            else (false, 1%nat)
        | [] => (false, 1%nat)
        end
      else if between 0xF0 b0 0xF4 then
        match r with
        | b1 :: r2 =>
            if second_ok b0 b1 then
              match r2 with
              | b2 :: r3 =>
                  if cont b2 then
                    match r3 with
                    | b3 :: _ => if cont b3 then (true, 4%nat) else (false, 3%nat)
                    | [] => (false, 3%nat)
                    end
                  else (false, 2%nat)
              | [] => (false, 2%nat)
              end
            else (false, 1%nat)
        | [] => (false, 1%nat)
        end
      else (false, 1%nat)
  end.

(** U+FFFD. *)
Definition REPLACEMENT : list Z := [0xEF; 0xBF; 0xBD].

(** The characters of the bytes; [fuel] of their length is enough. *)
Fixpoint lossy (fuel : nat) (l : list Z) : list Z :=
  match fuel, l with
  | S fuel', _ :: _ =>
      let (ok, n) := first_char l in
      (if ok then take n l else REPLACEMENT) ++ lossy fuel' (drop n l)
  | _, _ => []
  end.

Fixpoint well_formed (fuel : nat) (l : list Z) : bool :=
  match fuel, l with
  | S fuel', _ :: _ => let (ok, n) := first_char l in ok && well_formed fuel' (drop n l)
  | _, _ => true
  end.

(** [String::from_utf8_lossy]. *)
Definition from_utf8_lossy (l : list Z) : string := string_of_bytes (lossy (length l) l).

(** [core::str::from_utf8]. *)
Definition from_utf8 (l : list Z) : option string :=
  if well_formed (length l) l then Some (string_of_bytes l) else None.

(** The bytes of a character. *)
Definition encode_char (c : Z) : list Z :=
  if c <? 0x80 then [c]
  else if c <? 0x800 then [0xC0 + c / 64; 0x80 + c mod 64]
  else if c <? 0x10000 then [0xE0 + c / 4096; 0x80 + (c / 64) mod 64; 0x80 + c mod 64]
  else [0xF0 + c / 262144; 0x80 + (c / 4096) mod 64; 0x80 + (c / 64) mod 64; 0x80 + c mod 64].

(** [String::from_utf16_lossy]: an unpaired surrogate is replaced. *)
Fixpoint utf16_lossy (units : list Z) : list Z :=
  match units with
  | [] => []
  | u :: rest =>
      if negb (between 0xD800 u 0xDFFF) then encode_char u ++ utf16_lossy rest
      else if 0xDC00 <=? u then REPLACEMENT ++ utf16_lossy rest
      else
        match rest with
        | u2 :: rest2 =>
            if between 0xDC00 u2 0xDFFF
            then encode_char (0x10000 + (u - 0xD800) * 1024 + (u2 - 0xDC00)) ++ utf16_lossy rest2
            else REPLACEMENT ++ utf16_lossy rest
        | [] => REPLACEMENT
        end
  end.

Definition from_utf16_lossy (units : list Z) : string := string_of_bytes (utf16_lossy units).

(** [trim_end] on the reversed bytes: the white space characters of Unicode. *)
Fixpoint trim_rev (fuel : nat) (l : list Z) : list Z :=
  match fuel with
  | O => l
  | S fuel' =>
      match l with
      | b :: rest =>
          if between 0x09 b 0x0D || (b =? 0x20) then trim_rev fuel' rest
          else
            match l with
            | b :: 0xC2 :: rest =>
                if (b =? 0x85) || (b =? 0xA0) then trim_rev fuel' rest else l
            | b :: 0x80 :: 0xE2 :: rest =>
                if between 0x80 b 0x8A || (b =? 0xA8) || (b =? 0xA9) || (b =? 0xAF)
                then trim_rev fuel' rest else l
            | 0x9F :: 0x81 :: 0xE2 :: rest => trim_rev fuel' rest
            | 0x80 :: 0x9A :: 0xE1 :: rest => trim_rev fuel' rest
            | 0x80 :: 0x80 :: 0xE3 :: rest => trim_rev fuel' rest
            | _ => l
            end
      | [] => []
      end
  end.

Definition trim_end (s : string) : string :=
  let l := bytes_of_string s in string_of_bytes (rev (trim_rev (length l) (rev l))).

(** ASCII letters to lower case. *)
Definition ascii_lower (b : Z) : Z := if between 0x41 b 0x5A then b + 0x20 else b.

(** [eq_ignore_ascii_case]. *)
Definition eq_ignore_ascii_case (a b : string) : bool :=
  bool_decide (ascii_lower <$> bytes_of_string a = ascii_lower <$> bytes_of_string b).

(** ** Lemmas *)

Lemma bytes_of_string_of_bytes l : bytes_ok l -> bytes_of_string (string_of_bytes l) = l.
Proof.
  induction 1 as [|b l Hb _ IH]; cbn [string_of_bytes bytes_of_string]; [reflexivity|].
  unfold is_u8, U8_MAX in Hb. rewrite N_ascii_embedding by lia. rewrite Z2N.id by lia. now rewrite IH.
Qed.

Lemma string_of_bytes_of_string s : string_of_bytes (bytes_of_string s) = s.
Proof.
  induction s as [|c s IH]; cbn [string_of_bytes bytes_of_string]; [reflexivity|].
  rewrite IH, N2Z.id, ascii_N_embedding. reflexivity.
Qed.

Lemma length_bytes_of_string s : length (bytes_of_string s) = String.length s.
Proof. induction s as [|c s IH]; cbn; [reflexivity|]. now rewrite IH. Qed.

Lemma bytes_of_string_ok s : bytes_ok (bytes_of_string s).
Proof.
  induction s as [|c s IH]; cbn [bytes_of_string]; constructor; [|assumption].
  unfold is_u8, U8_MAX. pose proof (N_ascii_bounded c). lia.
Qed.

Lemma first_char_pos b l : (1 <= snd (first_char (b :: l)))%nat.
Proof. cbn [first_char]. repeat case_match; cbn [snd]; lia. Qed.

(** As many turns as there are bytes are enough for the loops. *)
Lemma lossy_fuel f1 : forall f2 l, (length l <= f1)%nat -> (length l <= f2)%nat -> lossy f1 l = lossy f2 l.
Proof.
  induction f1 as [|f1 IH]; intros [|f2] [|b l] H1 H2; cbn [length] in *; try lia; try reflexivity.
  cbn [lossy]. pose proof (first_char_pos b l). destruct (first_char (b :: l)) as [ok n]. cbn [snd] in *.
  f_equal. apply IH; rewrite length_drop; cbn [length]; lia.
Qed.

Lemma well_formed_fuel f1 : forall f2 l, (length l <= f1)%nat -> (length l <= f2)%nat ->
  well_formed f1 l = well_formed f2 l.
Proof.
  induction f1 as [|f1 IH]; intros [|f2] [|b l] H1 H2; cbn [length] in *; try lia; try reflexivity.
  cbn [well_formed]. pose proof (first_char_pos b l). destruct (first_char (b :: l)) as [ok n]. cbn [snd] in *.
  f_equal. apply IH; rewrite length_drop; cbn [length]; lia.
Qed.

Lemma lossy_well_formed fuel : forall l,
  (length l <= fuel)%nat -> well_formed fuel l = true -> lossy fuel l = l.
Proof.
  induction fuel as [|fuel IH]; intros [|b l] Hl Hw; try reflexivity; [cbn in Hl; lia|].
  cbn [lossy well_formed] in *. pose proof (first_char_pos b l) as Hp.
  destruct (first_char (b :: l)) as [ok n]. cbn [snd] in Hp.
  apply andb_true_iff in Hw as [-> Hw]. rewrite IH; [apply take_drop| |assumption].
  rewrite length_drop. cbn [length] in *. lia.
Qed.

(** Decoding well-formed bytes loses nothing. *)
Lemma from_utf8_lossy_id s :
  well_formed (length (bytes_of_string s)) (bytes_of_string s) = true ->
  from_utf8_lossy (bytes_of_string s) = s.
Proof.
  intros H. unfold from_utf8_lossy. rewrite lossy_well_formed by (assumption || lia).
  apply string_of_bytes_of_string.
Qed.

End Utf8.
