(* ===== verification/UserMem.v ===== *)
(** * Memory of the active address space, as the kernel accesses it
      (src/kernel/src/usermode.rs)

    The system call handlers read and write user memory through raw pointers.
    [UserBytes] is what they need of a memory: fetching a byte and storing
    bytes.  Both may map a page, or panic, in the page-fault handler; [load] is
    the byte that a fetch finds.  [Mem], a map from addresses to bytes, is the
    ideal memory; a byte that was never written is zero, which is what a
    demand-paged page holds.  The memory behind the page tables is an instance
    in Spaces.v. *)

From S2P Require Import Prelude Abi Bytes Utf8.
Import Abi Bytes Utf8.

Module UserMem.

Class UserBytes (M : Type) : Type := {
  load : M -> Z -> Z;
  fetch : M -> Z -> outcome (Z * M);
  store : M -> Z -> list Z -> outcome M
}.

(** A memory that reading does not change. *)
Class Quiet (M : Type) {UB : UserBytes M} : Prop := fetch_load : forall m a, fetch m a = Done (load m a, m).

Notation Mem := (gmap Z Z).

Definition read8 (m : Mem) (a : Z) : Z := default 0 (m !! a).

Fixpoint write_bytes (m : Mem) (a : Z) (bytes : list Z) : Mem :=
  match bytes with
  | [] => m
  | b :: rest => write_bytes (<[a := b]> m) (a + 1) rest
  end.

#[export] Instance Mem_bytes : UserBytes Mem := {
  load := read8;
  fetch m a := Done (read8 m a, m);
  store m a bytes := Done (write_bytes m a bytes)
}.

#[export] Instance Mem_quiet : Quiet Mem.
Proof. intros m a. reflexivity. Qed.

Section Access.
Context {M : Type} {UB : UserBytes M}.

(** The bytes from an address on. *)
Fixpoint read_bytes (m : M) (a : Z) (n : nat) : list Z :=
  match n with
  | O => []
  | S n' => load m a :: read_bytes m (a + 1) n'
  end.

(** A 64-bit word. *)
Definition read64 (m : M) (a : Z) : Z := from_le (read_bytes m a 8).

(** Reading through a raw pointer: a byte, bytes, a [u64]. *)
Definition fetch8 {E} (a : Z) : stm M E Z := fun m => let! (byte, m') := fetch m a in Done (Ok byte, m').

Fixpoint fetch_bytes {E} (a : Z) (n : nat) : stm M E (list Z) :=
  match n with
  | O => sret []
  | S n' => let% byte := fetch8 a in let% rest := fetch_bytes (a + 1) n' in sret (byte :: rest)
  end.

Definition fetch64 {E} (a : Z) : stm M E Z := let% bytes := fetch_bytes a 8 in sret (from_le bytes).

(** The loop of [copy_user_cstr]: the bytes before the first zero, if it is
    among the next [n]. *)
Fixpoint cstr_loop (a : Z) (n : nat) (acc : list Z) : stm M ErrorCode (list Z) :=
  match n with
  | O => sfail EINVAL
  | S n' => let% byte := fetch8 a in if byte =? 0 then sret acc else cstr_loop (a + 1) n' (acc ++ [byte])
  end.

(** [copy_user_cstr], with a buffer of [n] bytes. *)
Definition copy_user_cstr (ptr : Z) (n : nat) : stm M ErrorCode string :=
  if ptr =? 0 then sfail EFAULT
  else
    let% bytes := cstr_loop ptr n [] in
    match from_utf8 bytes with Some s => sret s | None => sfail EINVAL end.

(** [copy_user_bytes]: the bytes that the first [len] of the buffer become. *)
Definition copy_user_bytes (ptr : Z) (len dst_len : nat) : stm M ErrorCode (list Z) :=
  if ptr =? 0 then sfail EFAULT
  else if (dst_len <? len)%nat then sfail EINVAL
  else fetch_bytes ptr len.

(** [copy_to_user_bytes]. *)
Definition copy_to_user_bytes (ptr : Z) (src : list Z) : stm M ErrorCode nat := fun m =>
  if ptr =? 0 then Done (Err EFAULT, m)
  else
    match src with
    | [] => Done (Ok 0%nat, m)
    | _ =>
        if U64_MAX <? ptr + Z.of_nat (length src) then Done (Err EFAULT, m)
        else let! m' := store m ptr src in Done (Ok (length src), m')
    end.

(** The bytes [l] are in memory at [a]. *)
Definition holds (m : M) (a : Z) (l : list Z) : Prop := read_bytes m a (length l) = l.

(** ** Lemmas *)

Lemma length_read_bytes (m : M) n : forall a, length (read_bytes m a n) = n.
Proof. induction n as [|n IH]; intros a; cbn; [reflexivity|now rewrite IH]. Qed.

Lemma read_bytes_app (m : M) k n : forall a, read_bytes m a (k + n) = read_bytes m a k ++ read_bytes m (a + Z.of_nat k) n.
Proof.
  induction k as [|k IH]; intros a; cbn [read_bytes Nat.add app].
  - now rewrite Z.add_0_r.
  - rewrite IH. do 3 f_equal. lia.
Qed.

Lemma read_bytes_ext (m m' : M) n : forall a,
  (forall x, a <= x < a + Z.of_nat n -> load m' x = load m x) -> read_bytes m' a n = read_bytes m a n.
Proof.
  induction n as [|n IH]; intros a Hx; cbn [read_bytes]; [reflexivity|].
  rewrite Hx, IH by (intros; try apply Hx; lia). reflexivity.
Qed.

Lemma holds_app (m : M) a l k : holds m a (l ++ k) <-> holds m a l /\ holds m (a + Z.of_nat (length l)) k.
Proof.
  unfold holds. rewrite length_app, read_bytes_app. split.
  - intros E. apply app_inj_1 in E; [assumption|]. apply length_read_bytes.
  - intros [-> ->]. reflexivity.
Qed.

(** What is below what is held becomes part of it. *)
Lemma holds_extend (m : M) a l k : holds m a l -> holds m (a - Z.of_nat k) (read_bytes m (a - Z.of_nat k) k ++ l).
Proof.
  intros Hl. apply holds_app. rewrite length_read_bytes. replace (a - Z.of_nat k + Z.of_nat k) with a by lia.
  split; [|assumption]. unfold holds. now rewrite length_read_bytes.
Qed.

Lemma holds_read64 (m : M) a x l : 0 <= x <= U64_MAX -> holds m a (to_le 8 x ++ l) -> read64 m a = x.
Proof.
  intros Hx [H _]%holds_app. unfold holds in H. rewrite length_to_le in H. unfold read64. rewrite H.
  apply from_to_le. unfold U64_MAX in Hx. lia.
Qed.

(** Reading a memory that does not change. *)
Section Unchanged.
Context {Q : Quiet M}.

Lemma fetch8_load {E} (m : M) a : fetch8 (E := E) a m = Done (Ok (load m a), m).
Proof. unfold fetch8. now rewrite fetch_load. Qed.

Lemma fetch_bytes_read {E} (m : M) n : forall a, fetch_bytes (E := E) a n m = Done (Ok (read_bytes m a n), m).
Proof. induction n as [|n IH]; intros a; cbn [fetch_bytes read_bytes]; [reflexivity|]. unfold sbind. now rewrite fetch8_load, IH. Qed.

Lemma fetch64_read {E} (m : M) a : fetch64 (E := E) a m = Done (Ok (read64 m a), m).
Proof. unfold fetch64, sbind. now rewrite fetch_bytes_read. Qed.

(** A string that is followed by a zero. *)
Lemma cstr_loop_holds (m : M) s rest : forall a n acc,
  Forall (fun b => b <> 0) s -> (length s < n)%nat -> holds m a (s ++ 0 :: rest) ->
  cstr_loop a n acc m = Done (Ok (acc ++ s), m).
Proof.
  induction s as [|b s IH]; intros a n acc Hs Hn Hh; destruct n as [|n]; cbn [length] in Hn; try lia;
    cbn [cstr_loop]; unfold sbind; rewrite fetch8_load.
  - unfold holds in Hh. cbn [app length read_bytes] in Hh. injection Hh as -> _. now rewrite app_nil_r.
  - inversion Hs as [|? ? Hb Hs']; subst. unfold holds in Hh. cbn [app length read_bytes] in Hh.
    injection Hh as -> Hh. apply Z.eqb_neq in Hb as ->.
    rewrite (IH _ _ _ Hs') by (assumption || lia). now rewrite <- app_assoc.
Qed.

End Unchanged.

(** Reading changes memory by fetches only. *)
Section Fetches.
Context (R : M -> M -> Prop) {HR : PreOrder R}.
Hypothesis HF : forall m a b m', fetch m a = Done (b, m') -> R m m'.

Lemma fetch8_leads {E} a : leads R (fetch8 (E := E) a).
Proof. intros m r m' ([b m1] & E1 & [= _ <-])%bind_Done. eauto. Qed.

Lemma fetch_bytes_leads {E} n : forall a, leads R (fetch_bytes (E := E) a n).
Proof. pose proof (@fetch8_leads E). induction n as [|n IH]; intros a; cbn [fetch_bytes]; leads_walk. Qed.

Lemma cstr_loop_leads n : forall a acc, leads R (cstr_loop a n acc).
Proof. pose proof (@fetch8_leads ErrorCode). induction n as [|n IH]; intros a acc; cbn [cstr_loop]; leads_walk. Qed.

Lemma copy_user_cstr_leads ptr n : leads R (copy_user_cstr ptr n).
Proof. pose proof cstr_loop_leads. unfold copy_user_cstr. leads_walk. Qed.

Lemma copy_user_bytes_leads ptr len n : leads R (copy_user_bytes ptr len n).
Proof. pose proof (@fetch_bytes_leads ErrorCode). unfold copy_user_bytes. leads_walk. Qed.

End Fetches.

End Access.

(** ** The ideal memory *)

Lemma read8_write m bytes : forall a x, x < a \/ a + Z.of_nat (length bytes) <= x ->
  read8 (write_bytes m a bytes) x = read8 m x.
Proof.
  revert m. induction bytes as [|b rest IH]; intros m a x Hx; cbn [write_bytes length] in *; [reflexivity|].
  rewrite IH by lia. unfold read8. now rewrite lookup_insert_ne by lia.
Qed.

Lemma write_holds bytes : forall m a, holds (write_bytes m a bytes) a bytes.
Proof.
  unfold holds. induction bytes as [|b rest IH]; intros m a; cbn [write_bytes read_bytes length]; [reflexivity|].
  rewrite IH. f_equal. rewrite read8_write by lia. unfold read8. now rewrite lookup_insert_eq.
Qed.

(** Writing elsewhere. *)
Lemma write_other m a l b bytes :
  b + Z.of_nat (length bytes) <= a \/ a + Z.of_nat (length l) <= b ->
  holds m a l -> holds (write_bytes m b bytes) a l.
Proof.
  intros Hd Hl. unfold holds in *. transitivity (read_bytes m a (length l)); [|assumption].
  apply read_bytes_ext. intros x Hx. apply read8_write. lia.
Qed.

(** Writing just below what is held. *)
Lemma write_below m a bytes l :
  holds m (a + Z.of_nat (length bytes)) l -> holds (write_bytes m a bytes) a (bytes ++ l).
Proof.
  intros Hl. apply holds_app. split; [apply write_holds|]. apply write_other; [lia|assumption].
Qed.

End UserMem.
