(* ===== verification/Switch.v ===== *)
(** * Context switches (src/kernel/src/context_switch.rs, interrupt_frame.rs)

    The assembly that saves and restores a context, instruction by instruction,
    on a machine with the registers and the byte memory it works on; the switch
    between two processes; and the conversions between contexts and interrupt
    frames. *)

From S2P Require Import Prelude Bytes UserMem Process.
Import Bytes UserMem Process.

Module Switch.

(** ** The machine *)

Inductive reg : Type := R15 | R14 | R13 | R12 | R11 | R10 | R9 | R8 | RBP | RDI | RSI | RDX | RCX | RBX | RAX | RSP.

Definition reg_eqb (a b : reg) : bool :=
  match a, b with
  | R15, R15 | R14, R14 | R13, R13 | R12, R12 | R11, R11 | R10, R10 | R9, R9 | R8, R8 | RBP, RBP | RDI, RDI | RSI, RSI
  | RDX, RDX | RCX, RCX | RBX, RBX | RAX, RAX | RSP, RSP => true
  | _, _ => false
  end.

Record cpu : Type := mkCpu { gpr : reg -> Z; rip : Z; rflags : Z; cs : Z; ss : Z; cr3 : Z; mem : Mem }.

Definition set (r : reg) (v : Z) (g : reg -> Z) : reg -> Z := fun r' => if reg_eqb r r' then v else g r'.
Definition with_gpr (c : cpu) (g : reg -> Z) : cpu := mkCpu g (rip c) (rflags c) (cs c) (ss c) (cr3 c) (mem c).
Definition with_mem (c : cpu) (m : Mem) : cpu := mkCpu (gpr c) (rip c) (rflags c) (cs c) (ss c) (cr3 c) m.
Definition with_rip (c : cpu) (v : Z) : cpu := mkCpu (gpr c) v (rflags c) (cs c) (ss c) (cr3 c) (mem c).
Definition with_rflags (c : cpu) (v : Z) : cpu := mkCpu (gpr c) (rip c) v (cs c) (ss c) (cr3 c) (mem c).

Definition load64 (m : Mem) (a : Z) : Z := read64 m a.
Definition store64 (m : Mem) (a v : Z) : Mem := write_bytes m a (to_le 8 v).

#[local] Arguments load64 : simpl never.
#[local] Arguments store64 : simpl never.
#[local] Arguments wrap64 : simpl never.
#[local] Arguments wrap16 : simpl never.

Inductive sel : Type := CS | SS.

(** The instructions of the two routines. *)
Inductive instr : Type :=
  | Mov (dst src : reg)                   (* mov dst, src *)
  | Load (dst base : reg) (off : Z)       (* mov dst, [base + off] *)
  | Store (base : reg) (off : Z) (src : reg)  (* mov [base + off], src *)
  | Push (r : reg)
  | PushMem (base : reg) (off : Z)        (* push qword ptr [base + off] *)
  | Pop (r : reg)
  | Pushfq
  | Popfq
  | LeaLabel (r : reg)                    (* lea r, [rip + 2f] *)
  | AddImm (r : reg) (n : Z)
  | MovSel (r : reg) (s : sel)            (* mov r16, s; movzx r, r16 *)
  | Ret.

Section Machine.

(** The arithmetic flags after an addition, and the address of label 2. *)
Context (add_flags : Z -> Z -> Z -> Z) (label : Z).

Definition push (v : Z) (c : cpu) : cpu :=
  let sp := wrap64 (gpr c RSP - 8) in with_mem (with_gpr c (set RSP sp (gpr c))) (store64 (mem c) sp v).
Definition popped (c : cpu) : Z := load64 (mem c) (gpr c RSP).
Definition drop_top (c : cpu) : cpu := with_gpr c (set RSP (wrap64 (gpr c RSP + 8)) (gpr c)).

Definition exec (i : instr) (c : cpu) : cpu :=
  match i with
  | Mov dst src => with_gpr c (set dst (gpr c src) (gpr c))
  | Load dst base off => with_gpr c (set dst (load64 (mem c) (wrap64 (gpr c base + off))) (gpr c))
  | Store base off src => with_mem c (store64 (mem c) (wrap64 (gpr c base + off)) (gpr c src))
  | Push r => push (gpr c r) c
  | PushMem base off => push (load64 (mem c) (wrap64 (gpr c base + off))) c
  | Pop r => let v := popped c in let c := drop_top c in with_gpr c (set r v (gpr c))
  | Pushfq => push (rflags c) c
  | Popfq => let v := popped c in with_rflags (drop_top c) v
  | LeaLabel r => with_gpr c (set r label (gpr c))
  | AddImm r n => with_rflags (with_gpr c (set r (wrap64 (gpr c r + n)) (gpr c))) (add_flags (rflags c) (gpr c r) n)
  | MovSel r s => with_gpr c (set r (wrap16 (match s with CS => cs c | SS => ss c end)) (gpr c))
  | Ret => let v := popped c in with_rip (drop_top c) v
  end.

Definition run (code : list instr) (c : cpu) : cpu := fold_left (fun c i => exec i c) code c.

End Machine.

(** [save_context_asm], with the register that holds [ctx]. *)
Definition save_context_asm (ctx : reg) : list instr :=
  [Push RDI; Mov RDI ctx;
   Store RDI 0x00 R15; Store RDI 0x08 R14; Store RDI 0x10 R13; Store RDI 0x18 R12; Store RDI 0x20 R11; Store RDI 0x28 R10;
   Store RDI 0x30 R9; Store RDI 0x38 R8; Store RDI 0x40 RBP; Store RDI 0x50 RSI; Store RDI 0x58 RDX; Store RDI 0x60 RCX;
   Store RDI 0x68 RBX; Store RDI 0x70 RAX;
   Pop RAX; Store RDI 0x48 RAX;
   LeaLabel RAX; Store RDI 0x78 RAX;
   Mov RAX RSP; AddImm RAX 8; Store RDI 0x80 RAX;
   Pushfq; Pop RAX; Store RDI 0x88 RAX;
   MovSel RAX CS; Store RDI 0x90 RAX;
   MovSel RAX SS; Store RDI 0x98 RAX].

(** [restore_context_asm]. *)
Definition restore_context_asm (ctx : reg) : list instr :=
  [Mov RDI ctx;
   Load RAX RDI 0x88; Push RAX; Popfq;
   Load R15 RDI 0x00; Load R14 RDI 0x08; Load R13 RDI 0x10; Load R12 RDI 0x18; Load R11 RDI 0x20; Load R10 RDI 0x28;
   Load R9 RDI 0x30; Load R8 RDI 0x38; Load RBP RDI 0x40; Load RSI RDI 0x50; Load RDX RDI 0x58; Load RCX RDI 0x60;
   Load RBX RDI 0x68; Load RAX RDI 0x70;
   Load RSP RDI 0x80;
   PushMem RDI 0x78;
   Load RDI RDI 0x48;
   Ret].

(** The context in memory, in the layout of [struct CpuContext]. *)
Definition context_at (m : Mem) (p : Z) : CpuContext :=
  mkContext (load64 m p) (load64 m (p + 0x08)) (load64 m (p + 0x10)) (load64 m (p + 0x18)) (load64 m (p + 0x20))
    (load64 m (p + 0x28)) (load64 m (p + 0x30)) (load64 m (p + 0x38)) (load64 m (p + 0x40)) (load64 m (p + 0x48))
    (load64 m (p + 0x50)) (load64 m (p + 0x58)) (load64 m (p + 0x60)) (load64 m (p + 0x68)) (load64 m (p + 0x70))
    (load64 m (p + 0x78)) (load64 m (p + 0x80)) (load64 m (p + 0x88)) (load64 m (p + 0x90)) (load64 m (p + 0x98)).

Definition CONTEXT_SIZE : Z := 160.

(** [switch_page_table]: [PhysAddr::new] refuses an address of more than 52
    bits; the register is written when the table changes. What the routines
    touch - contexts and kernel stacks - is mapped alike by every table. *)
Definition switch_page_table (page_table_phys : Z) (c : cpu) : outcome cpu :=
  if page_table_phys <? 2 ^ 52 then
    Done (if cr3 c =? page_table_phys then c
          else mkCpu (gpr c) (rip c) (rflags c) (cs c) (ss c) (page_table_phys / 4096 * 4096) (mem c))
  else Panicked.

(** [switch_to]: the current context is at the address in [cur]; the compiler
    puts the address of the next one into [nxt]. *)
Definition switch_to (add_flags : Z -> Z -> Z -> Z) (label : Z) (cur nxt : reg) (next page_table_phys : Z) (c : cpu) : outcome cpu :=
  let c := run add_flags label (save_context_asm cur) c in
  let! c := switch_page_table page_table_phys c in
  Done (run add_flags label (restore_context_asm nxt) (with_gpr c (set nxt next (gpr c)))).

(** ** Interrupt frames *)

(** [struct InterruptFrame]. *)
Record InterruptFrame : Type := mkFrame {
  fr_r15 : Z; fr_r14 : Z; fr_r13 : Z; fr_r12 : Z; fr_r11 : Z; fr_r10 : Z; fr_r9 : Z; fr_r8 : Z; fr_rbp : Z; fr_rdi : Z;
  fr_rsi : Z; fr_rdx : Z; fr_rcx : Z; fr_rbx : Z; fr_rax : Z; fr_interrupt_number : Z; fr_error_code : Z;
  fr_rip : Z; fr_cs : Z; fr_rflags : Z; fr_rsp : Z; fr_ss : Z }.

Definition new_user_frame (entry_point stack_ptr user_cs user_ss : Z) : InterruptFrame :=
  mkFrame 0 0 0 0 0 0 0 0 0 0 0 0 0 0 0 0 0 entry_point user_cs 0x202 stack_ptr user_ss.

Definition is_user_mode (f : InterruptFrame) : bool := Z.land (fr_cs f) 0x3 =? 3.

(** [impl From<InterruptFrame> for CpuContext] and back. *)
Definition context_of_frame (f : InterruptFrame) : CpuContext :=
  mkContext (fr_r15 f) (fr_r14 f) (fr_r13 f) (fr_r12 f) (fr_r11 f) (fr_r10 f) (fr_r9 f) (fr_r8 f) (fr_rbp f) (fr_rdi f)
    (fr_rsi f) (fr_rdx f) (fr_rcx f) (fr_rbx f) (fr_rax f) (fr_rip f) (fr_rsp f) (fr_rflags f) (fr_cs f) (fr_ss f).

Definition frame_of_context (c : CpuContext) : InterruptFrame :=
  mkFrame (ctx_r15 c) (ctx_r14 c) (ctx_r13 c) (ctx_r12 c) (ctx_r11 c) (ctx_r10 c) (ctx_r9 c) (ctx_r8 c) (ctx_rbp c)
    (ctx_rdi c) (ctx_rsi c) (ctx_rdx c) (ctx_rcx c) (ctx_rbx c) (ctx_rax c) 0 0 (ctx_rip c) (ctx_cs c) (ctx_rflags c)
    (ctx_rsp c) (ctx_ss c).

(** [init_context_for_first_run]. *)
Definition init_context_for_first_run (user_cs user_ss : Z) (p : Process) : Process :=
  with_context p (new_user (entry_point p) (user_stack_ptr p) user_cs user_ss).

(** The context [save_context_asm] leaves. *)
Definition saved_context (add_flags : Z -> Z -> Z -> Z) (label : Z) (c : cpu) : CpuContext :=
  mkContext (gpr c R15) (gpr c R14) (gpr c R13) (gpr c R12) (gpr c R11) (gpr c R10) (gpr c R9) (gpr c R8) (gpr c RBP)
    (gpr c RDI) (gpr c RSI) (gpr c RDX) (gpr c RCX) (gpr c RBX) (gpr c RAX) label (gpr c RSP + 8)
    (add_flags (rflags c) (gpr c RSP) 8) (wrap16 (cs c)) (wrap16 (ss c)).

(** The machine [restore_context_asm] is to produce. *)
Definition runs_as (c : cpu) (x : CpuContext) : Prop :=
  (gpr c R15, gpr c R14, gpr c R13, gpr c R12, gpr c R11, gpr c R10, gpr c R9, gpr c R8) =
    (ctx_r15 x, ctx_r14 x, ctx_r13 x, ctx_r12 x, ctx_r11 x, ctx_r10 x, ctx_r9 x, ctx_r8 x) /\
  (gpr c RBP, gpr c RDI, gpr c RSI, gpr c RDX, gpr c RCX, gpr c RBX, gpr c RAX) =
    (ctx_rbp x, ctx_rdi x, ctx_rsi x, ctx_rdx x, ctx_rcx x, ctx_rbx x, ctx_rax x) /\
  (rip c, gpr c RSP, rflags c) = (ctx_rip x, ctx_rsp x, ctx_rflags x).

(** A stack with room for one word that is not part of the context at [p]. *)
Definition clear_of (sp p : Z) : Prop := 8 <= sp /\ sp + 8 <= U64_MAX /\ (sp <= p \/ p + CONTEXT_SIZE <= sp - 8).
Definition fits (p : Z) : Prop := 0 <= p /\ p + CONTEXT_SIZE <= U64_MAX.
Definition u64_regs (c : cpu) : Prop := forall r, is_u64 (gpr c r).

(** ** Lemmas *)

Lemma load64_same m a v : is_u64 v -> load64 (store64 m a v) a = v.
Proof.
  intros Hv. apply (holds_read64 _ a v []); [exact Hv|]. rewrite app_nil_r. apply write_holds.
Qed.

Lemma load64_other m a b v : a + 8 <= b \/ b + 8 <= a -> load64 (store64 m b v) a = load64 m a.
Proof.
  intros H. unfold load64, read64, store64. f_equal. apply read_bytes_ext. intros x Hx. apply read8_write.
  rewrite length_to_le. lia.
Qed.

Lemma wrap64_id z : is_u64 z -> wrap64 z = z.
Proof. unfold is_u64, U64_MAX, wrap64. intros H. apply Z.mod_small. lia. Qed.

Lemma u64_wrap16 z : is_u64 (wrap16 z).
Proof. unfold is_u64, U64_MAX, wrap16. pose proof (Z.mod_pos_bound z 65536). lia. Qed.

#[local] Opaque load64 store64 wrap64 wrap16.

Lemma set_other r r' v g : r <> r' -> set r v g r' = g r'.
Proof. unfold set. destruct r, r'; intros H; try reflexivity; congruence. Qed.

(** Words of the context at [p], the last one written first. *)
Fixpoint store_all (m : Mem) (p : Z) (l : list (Z * Z)) : Mem :=
  match l with [] => m | (off, v) :: rest => store64 (store_all m p rest) (p + off) v end.

Fixpoint find_off (l : list (Z * Z)) (off : Z) : option Z :=
  match l with [] => None | (o, v) :: rest => if o =? off then Some v else find_off rest off end.

(** Offsets of whole words of a context. *)
Definition word_off (off : Z) : bool := (off mod 8 =? 0) && (0 <=? off) && (off <? CONTEXT_SIZE).
Definition word_offs (l : list (Z * Z)) : bool := forallb (fun x => word_off x.1) l.

Lemma load_store_all m p l off :
  word_offs l = true -> word_off off = true -> Forall (fun x => is_u64 x.2) l ->
  load64 (store_all m p l) (p + off) = default (load64 m (p + off)) (find_off l off).
Proof.
  induction l as [|[o v] l IH]; intros Hl Ho Hv; cbn [store_all find_off]; [reflexivity|].
  unfold word_offs in Hl. cbn [forallb fst] in Hl. apply andb_prop in Hl as [Hw Hl]. inversion Hv; subst.
  destruct (Z.eqb_spec o off) as [->|Hne]; [now apply load64_same|].
  rewrite load64_other; [now apply IH|]. unfold word_off in *. breflect.
  pose proof (Z.div_mod o 8). pose proof (Z.div_mod off 8). lia.
Qed.

Lemma load_store_all_outside m p l a :
  word_offs l = true -> a + 8 <= p \/ p + CONTEXT_SIZE <= a -> load64 (store_all m p l) a = load64 m a.
Proof.
  induction l as [|[o v] l IH]; intros Hl Ha; cbn [store_all]; [reflexivity|].
  unfold word_offs in Hl. cbn [forallb fst] in Hl. apply andb_prop in Hl as [Hw Hl].
  rewrite load64_other; [now apply IH|]. unfold word_off, CONTEXT_SIZE in *. breflect.
  pose proof (Z.div_mod o 8). lia.
Qed.

Lemma store_all_app m p l k : store_all (store_all m p k) p l = store_all m p (l ++ k).
Proof. induction l as [|[o v] l IH]; cbn; [reflexivity|now rewrite IH]. Qed.

Lemma find_off_app l k off : find_off (l ++ k) off = match find_off l off with Some v => Some v | None => find_off k off end.
Proof. induction l as [|[o v] l IH]; cbn; [reflexivity|]. now destruct (o =? off). Qed.

(** The words of a context, with a word elsewhere stored in between. *)
Lemma load_words m p l k slot f off :
  word_offs l = true -> word_offs k = true -> word_off off = true -> slot + 8 <= p \/ p + CONTEXT_SIZE <= slot ->
  Forall (fun x => is_u64 x.2) l -> Forall (fun x => is_u64 x.2) k ->
  load64 (store_all (store64 (store_all m p k) slot f) p l) (p + off) = default (load64 m (p + off)) (find_off (l ++ k) off).
Proof.
  intros Hl Hk Ho Hs Ul Uk. rewrite find_off_app, load_store_all by assumption.
  destruct (find_off l off); [reflexivity|]. cbn [default]. rewrite load64_other; [now apply load_store_all|].
  unfold word_off, CONTEXT_SIZE in *. breflect. pose proof (Z.div_mod off 8). lia.
Qed.

Ltac addresses := repeat match goal with |- context [wrap64 ?z] => rewrite (wrap64_id z) by (unfold is_u64; lia) end.

Ltac u64_words := cbn [app]; repeat apply Forall_cons_2; try apply Forall_nil_2; cbn [snd]; auto using u64_wrap16.

Section Routines.

Context (add_flags : Z -> Z -> Z -> Z) (label : Z).
Hypothesis flags_u64 : forall f a b, is_u64 (add_flags f a b).
Hypothesis label_u64 : is_u64 label.

(** Up to [mov [rdi + 0x70], rax]: the pointer is in [rdi], its old value on the
    stack, and every other general register in the context. *)
Definition save_first (ctx : reg) : list instr := firstn 16 (save_context_asm ctx).
Definition save_rest : list instr := skipn 16 (save_context_asm RDI).

Definition first_words (c : cpu) : list (Z * Z) :=
  [(0x70, gpr c RAX); (0x68, gpr c RBX); (0x60, gpr c RCX); (0x58, gpr c RDX); (0x50, gpr c RSI); (0x40, gpr c RBP);
   (0x38, gpr c R8); (0x30, gpr c R9); (0x28, gpr c R10); (0x20, gpr c R11); (0x18, gpr c R12); (0x10, gpr c R13);
   (0x08, gpr c R14); (0x00, gpr c R15)].

Lemma save_first_spec ctx c p :
  ctx <> RSP -> gpr c ctx = p -> fits p -> clear_of (gpr c RSP) p ->
  let c' := run add_flags label (save_first ctx) c in
  gpr c' RDI = p /\ gpr c' RSP = gpr c RSP - 8 /\ rflags c' = rflags c /\ cs c' = cs c /\ ss c' = ss c /\ cr3 c' = cr3 c /\
  mem c' = store_all (store64 (mem c) (gpr c RSP - 8) (gpr c RDI)) p (first_words c).
Proof.
  intros Hr Hp [? ?] (? & ? & ?). unfold CONTEXT_SIZE in *. cbv zeta.
  set (c0 := exec add_flags label (Mov RDI ctx) (exec add_flags label (Push RDI) c)).
  change (run add_flags label (save_first ctx) c) with (run add_flags label (skipn 2 (save_first RDI)) c0).
  assert (E0 : gpr c0 RDI = p). { unfold c0. cbn. rewrite set_other by congruence. exact Hp. }
  assert (E1 : gpr c0 RSP = gpr c RSP - 8). { unfold c0. cbn. addresses. reflexivity. }
  assert (E2 : forall r, r <> RSP -> r <> RDI -> gpr c0 r = gpr c r).
  { intros r ? ?. unfold c0. cbn. rewrite !set_other by congruence. reflexivity. }
  assert (E3 : mem c0 = store64 (mem c) (gpr c RSP - 8) (gpr c RDI)). { unfold c0. cbn. addresses. reflexivity. }
  assert (E4 : rflags c0 = rflags c /\ cs c0 = cs c /\ ss c0 = ss c /\ cr3 c0 = cr3 c) by (repeat split).
  destruct E4 as (E4 & E5 & E6 & E7). clearbody c0. cbn -[Z.add store_all first_words]. do 6 (split; [assumption|]).
  rewrite E0, E3. addresses. rewrite !E2 by congruence. reflexivity.
Qed.

Lemma save_rest_spec c p slot :
  gpr c RDI = p -> fits p -> gpr c RSP = slot -> clear_of (slot + 8) p -> is_u64 (load64 (mem c) slot) ->
  let c' := run add_flags label save_rest c in
  gpr c' RSP = slot + 8 /\ (cs c', ss c') = (cs c, ss c) /\
  mem c' = store_all (store64 (store_all (mem c) p [(0x80, slot + 8 + 8); (0x78, label); (0x48, load64 (mem c) slot)])
                        slot (add_flags (rflags c) (slot + 8) 8))
             p [(0x98, wrap16 (ss c)); (0x90, wrap16 (cs c)); (0x88, add_flags (rflags c) (slot + 8) 8)].
Proof.
  intros Hp [? ?] Hs (? & ? & ?) Hu. unfold CONTEXT_SIZE in *. cbv zeta. cbn -[Z.add store_all]. unfold popped.
  cbn -[Z.add store_all]. rewrite Hp, Hs. addresses. 
  replace (slot + 8 - 8) with slot by lia. addresses. rewrite load64_same by auto. repeat split.
Qed.

Lemma save_context_asm_spec ctx c p :
  ctx <> RSP -> gpr c ctx = p -> fits p -> clear_of (gpr c RSP) p -> u64_regs c ->
  let c' := run add_flags label (save_context_asm ctx) c in
  context_at (mem c') p = saved_context add_flags label c /\ gpr c' RSP = gpr c RSP /\ (cs c', ss c') = (cs c, ss c) /\
  (forall a, a + 8 <= p \/ p + CONTEXT_SIZE <= a -> a + 8 <= gpr c RSP - 8 \/ gpr c RSP <= a ->
     load64 (mem c') a = load64 (mem c) a).
Proof.
  intros Hr Hp Hf Hs Hu. cbv zeta.
  destruct (save_first_spec ctx c p Hr Hp Hf Hs) as (A1 & A2 & A3 & A4 & A5 & A6 & A7).
  replace (run add_flags label (save_context_asm ctx) c)
    with (run add_flags label save_rest (run add_flags label (save_first ctx) c)) by reflexivity.
  set (c1 := run add_flags label (save_first ctx) c) in *. clearbody c1.
  assert (Hslot : load64 (mem c1) (gpr c RSP - 8) = gpr c RDI).
  { rewrite A7, load_store_all_outside; [now apply load64_same|reflexivity|]. destruct Hs as (? & ? & ?). lia. }
  destruct (save_rest_spec c1 p (gpr c RSP - 8)) as (B1 & B2 & B3); [assumption..| |now rewrite Hslot|].
  { now replace (gpr c RSP - 8 + 8) with (gpr c RSP) by lia. }
  replace (gpr c RSP - 8 + 8) with (gpr c RSP) in * by lia. rewrite Hslot in B3.
  set (c2 := run add_flags label save_rest c1) in *. clearbody c2. destruct Hs as (? & ? & Hd), Hf as [? ?].
  rewrite A3, A4, A5 in B3. repeat split; [|congruence..|].
  - rewrite B3, A7. unfold context_at, saved_context, first_words. rewrite <- (Z.add_0_r p) at 4. rewrite store_all_app.
    assert (is_u64 (gpr c RSP + 8)) by (unfold is_u64; lia). unfold u64_regs in Hu.
    rewrite !load_words by (reflexivity || lia || u64_words).
    reflexivity.
  - intros a Ha Hb. rewrite B3, A7. rewrite load_store_all_outside, load64_other, load_store_all_outside by (reflexivity || lia).
    now rewrite load_store_all_outside, load64_other by (reflexivity || lia).
Qed.

(** [popfq] done, the registers still to be loaded. *)
Definition restore_flags (r : reg) : list instr := firstn 4 (restore_context_asm r).
Definition restore_gprs : list instr := firstn 14 (skipn 4 (restore_context_asm RDI)).
Definition restore_jump : list instr := skipn 18 (restore_context_asm RDI).

Lemma restore_flags_spec r c p :
  gpr c r = p -> fits p -> clear_of (gpr c RSP) p -> is_u64 (load64 (mem c) (p + 0x88)) ->
  let c' := run add_flags label (restore_flags r) c in
  gpr c' RDI = p /\ rflags c' = load64 (mem c) (p + 0x88) /\ (cs c', ss c', cr3 c') = (cs c, ss c, cr3 c) /\
  mem c' = store64 (mem c) (gpr c RSP - 8) (load64 (mem c) (p + 0x88)).
Proof.
  intros Hp [? ?] (? & ? & ?) Hf. unfold CONTEXT_SIZE in *. cbv zeta. cbn -[Z.add]. unfold popped. cbn -[Z.add].
  rewrite Hp. addresses. rewrite load64_same by assumption. repeat split.
Qed.

Lemma restore_gprs_spec c p :
  gpr c RDI = p -> fits p ->
  let c' := run add_flags label restore_gprs c in
  let l off := load64 (mem c) (p + off) in
  gpr c' RDI = p /\ rflags c' = rflags c /\ (cs c', ss c', cr3 c') = (cs c, ss c, cr3 c) /\ mem c' = mem c /\
  (gpr c' R15, gpr c' R14, gpr c' R13, gpr c' R12, gpr c' R11, gpr c' R10, gpr c' R9, gpr c' R8) =
    (l 0x00, l 0x08, l 0x10, l 0x18, l 0x20, l 0x28, l 0x30, l 0x38) /\
  (gpr c' RBP, gpr c' RSI, gpr c' RDX, gpr c' RCX, gpr c' RBX, gpr c' RAX) = (l 0x40, l 0x50, l 0x58, l 0x60, l 0x68, l 0x70).
Proof.
  intros Hp [? ?]. unfold CONTEXT_SIZE in *. cbv zeta. cbn -[Z.add]. rewrite Hp. addresses. repeat split.
Qed.

Lemma restore_jump_spec c p x :
  gpr c RDI = p -> fits p -> x = load64 (mem c) (p + 0x80) -> clear_of x p -> is_u64 (load64 (mem c) (p + 0x78)) ->
  let c' := run add_flags label restore_jump c in
  (forall r, r <> RSP -> r <> RDI -> gpr c' r = gpr c r) /\ gpr c' RDI = load64 (mem c) (p + 0x48) /\ gpr c' RSP = x /\
  rip c' = load64 (mem c) (p + 0x78) /\ rflags c' = rflags c /\ (cs c', ss c', cr3 c') = (cs c, ss c, cr3 c) /\
  mem c' = store64 (mem c) (x - 8) (load64 (mem c) (p + 0x78)).
Proof.
  intros Hp [? ?] Hx (? & ? & ?) Hi. unfold CONTEXT_SIZE in *. cbv zeta. cbn -[Z.add]. unfold popped. cbn -[Z.add].
  rewrite Hp. addresses. rewrite <- Hx. addresses. rewrite load64_same, load64_other by (assumption || lia).
  replace (x - 8 + 8) with x by lia. repeat split. intros r ? ?. rewrite !set_other by congruence. reflexivity.
Qed.

Lemma restore_context_asm_spec r c p x :
  gpr c r = p -> fits p -> context_at (mem c) p = x -> clear_of (gpr c RSP) p -> clear_of (ctx_rsp x) p ->
  is_u64 (ctx_rip x) -> is_u64 (ctx_rflags x) ->
  let c' := run add_flags label (restore_context_asm r) c in
  runs_as c' x /\ (cs c', ss c', cr3 c') = (cs c, ss c, cr3 c) /\
  load64 (mem c') (ctx_rsp x - 8) = ctx_rip x /\
  (forall a, a + 8 <= gpr c RSP - 8 \/ gpr c RSP <= a -> a + 8 <= ctx_rsp x - 8 \/ ctx_rsp x <= a ->
     load64 (mem c') a = load64 (mem c) a).
Proof.
  intros Hp Hfit Ex Hs Hx Hi Hf. cbv zeta.
  replace (run add_flags label (restore_context_asm r) c)
    with (run add_flags label restore_jump (run add_flags label restore_gprs (run add_flags label (restore_flags r) c)))
    by reflexivity.
  assert (L : forall v a, 0 <= a <= 152 -> load64 (store64 (mem c) (gpr c RSP - 8) v) (p + a) = load64 (mem c) (p + a)).
  { intros v a Ha. apply load64_other. destruct Hs as (? & ? & ?). unfold CONTEXT_SIZE in *. lia. }
  subst x. unfold context_at in Hx, Hi, Hf |- *. cbn [ctx_rsp ctx_rip ctx_rflags] in *.
  destruct (restore_flags_spec r c p Hp Hfit Hs Hf) as (A1 & A2 & A3 & A4). revert A1 A2 A3 A4.
  generalize (run add_flags label (restore_flags r) c). intros c1 A1 A2 A3 A4.
  destruct (restore_gprs_spec c1 p A1 Hfit) as (B1 & B2 & B3 & B4 & B5 & B6). revert B1 B2 B3 B4 B5 B6.
  generalize (run add_flags label restore_gprs c1). intros c2 B1 B2 B3 B4 B5 B6.
  rewrite A4 in *. repeat rewrite L in B5 by lia. repeat rewrite L in B6 by lia.
  destruct (restore_jump_spec c2 p (load64 (mem c) (p + 0x80)) B1 Hfit) as (C1 & C2 & C3 & C4 & C5 & C6 & C7);
    [rewrite B4, L by lia; reflexivity|assumption|rewrite B4, L by lia; assumption|].
  revert C1 C2 C3 C4 C5 C6 C7. generalize (run add_flags label restore_jump c2). intros c3 C1 C2 C3 C4 C5 C6 C7.
  rewrite B4, !L in C2, C4, C7 by lia. unfold runs_as. cbn [ctx_r15 ctx_r14 ctx_r13 ctx_r12 ctx_r11 ctx_r10 ctx_r9 ctx_r8].
  cbn. rewrite C2. repeat rewrite C1 by congruence. rewrite B5. rewrite Z.add_0_r.
  split; [|split; [congruence|rewrite C7; split]].
  - repeat split; [|now rewrite C3, C4, C5, B2, A2]. congruence.
  - now apply load64_same.
  - intros a Ha Hb. rewrite !load64_other by lia. reflexivity.
Qed.

(** What [switch_to] asks of its caller: the two contexts and the two stacks
    are memory of their own, and the registers hold machine words. *)
Record switchable (cur nxt : reg) (next table : Z) (c : cpu) (p : Z) (x : CpuContext) : Prop := {
  sw_cur : cur <> RSP;
  sw_nxt : nxt <> RSP;
  sw_at : gpr c cur = p;
  sw_regs : u64_regs c;
  sw_table : 0 <= table < 2 ^ 52;
  sw_fits : fits p;
  sw_fits_next : fits next;
  sw_apart : next + CONTEXT_SIZE <= p \/ p + CONTEXT_SIZE <= next;
  sw_stack : clear_of (gpr c RSP) p;
  sw_stack_next : clear_of (gpr c RSP) next;
  sw_next : context_at (mem c) next = x;
  sw_new_stack : clear_of (ctx_rsp x) next;
  sw_new_stack_cur : clear_of (ctx_rsp x) p;
  sw_rip : is_u64 (ctx_rip x);
  sw_rflags : is_u64 (ctx_rflags x)
}.

(** A context is what its words are. *)
Lemma context_at_ext m m' p :
  (forall off, 0 <= off <= 152 -> load64 m' (p + off) = load64 m (p + off)) -> context_at m' p = context_at m p.
Proof.
  intros H. pose proof (H 0) as H0. rewrite !Z.add_0_r in H0. unfold context_at. rewrite H0, !H by lia. reflexivity.
Qed.

Lemma switch_page_table_spec table c :
  table < 2 ^ 52 -> exists c', switch_page_table table c = Done c' /\ gpr c' = gpr c /\ mem c' = mem c /\
    (cs c', ss c') = (cs c, ss c).
Proof.
  intros Ht%Z.ltb_lt. unfold switch_page_table. rewrite Ht. eexists. split; [reflexivity|].
  destruct (cr3 c =? table); auto.
Qed.

Lemma switch_to_spec cur nxt next table c p x :
  switchable cur nxt next table c p x ->
  exists c', switch_to add_flags label cur nxt next table c = Done c' /\ runs_as c' x /\
    context_at (mem c') p = saved_context add_flags label c /\ load64 (mem c') (ctx_rsp x - 8) = ctx_rip x /\
    (cs c', ss c') = (cs c, ss c).
Proof.
  intros [Hcur Hnxt Hat Hregs Ht Hfp Hfn Hap Hsp Hsn Hx Hns Hnp Hrip Hfl]. unfold switch_to.
  destruct (save_context_asm_spec cur c p Hcur Hat Hfp Hsp Hregs) as (A1 & A2 & A3 & A4).
  destruct (switch_page_table_spec table (run add_flags label (save_context_asm cur) c)) as (c2 & -> & B1 & B2 & B3); [lia|].
  revert A1 A2 A3 A4 B1 B2 B3. generalize (run add_flags label (save_context_asm cur) c). intros c1 A1 A2 A3 A4 B1 B2 B3.
  cbn [bind]. set (c3 := with_gpr c2 _). eexists. split; [reflexivity|].
  assert (C1 : gpr c3 nxt = next). { cbn. unfold set. now destruct nxt. }
  assert (C2 : gpr c3 RSP = gpr c RSP). { cbn. rewrite set_other, B1 by assumption. exact A2. }
  assert (C3 : mem c3 = mem c1) by exact B2.
  assert (C4 : (cs c3, ss c3) = (cs c, ss c)) by (cbn; congruence). clearbody c3.
  assert (L : context_at (mem c3) next = x).
  { rewrite C3, <- Hx. apply context_at_ext. intros off Ho. apply A4; destruct Hsn as (? & ? & ?); unfold CONTEXT_SIZE in *; lia. }
  rewrite <- C2 in Hsn.
  destruct (restore_context_asm_spec nxt c3 next x C1 Hfn L Hsn Hns Hrip Hfl) as (D1 & D2 & D3 & D4).
  revert D1 D2 D3 D4. generalize (run add_flags label (restore_context_asm nxt) c3). intros c4 D1 D2 D3 D4.
  split; [exact D1|]. split; [|split; [exact D3|congruence]].
  rewrite <- A1, <- C3. apply context_at_ext. intros off Ho. rewrite C2 in D4.
  apply D4; destruct Hsp as (? & ? & ?), Hnp as (? & ? & ?); unfold CONTEXT_SIZE in *; lia.
Qed.

End Routines.

(** A frame that is made from a context gives the context back. *)
Lemma context_frame_round_trip x : context_of_frame (frame_of_context x) = x.
Proof. now destruct x. Qed.

(** A frame is given back but for the interrupt that made it. *)
Lemma frame_context_round_trip f :
  frame_of_context (context_of_frame f) = mkFrame (fr_r15 f) (fr_r14 f) (fr_r13 f) (fr_r12 f) (fr_r11 f) (fr_r10 f) (fr_r9 f)
    (fr_r8 f) (fr_rbp f) (fr_rdi f) (fr_rsi f) (fr_rdx f) (fr_rcx f) (fr_rbx f) (fr_rax f) 0 0
    (fr_rip f) (fr_cs f) (fr_rflags f) (fr_rsp f) (fr_ss f).
Proof. reflexivity. Qed.

(** A process that is switched away from and switched back to runs on at the
    label behind its save with every general register as it was, except that
    its stack pointer is 8 higher than it was - the pushed [rdi] is counted a
    second time after it was popped - and that the word its stack pointer
    pointed to, which belongs to the caller, holds the address of the label; the
    flags are those of the addition. *)
Theorem switched_back_loses_stack_word add_flags label cur nxt next table c p x :
  (forall f a b, is_u64 (add_flags f a b)) -> is_u64 label -> switchable cur nxt next table c p x ->
  exists c', switch_to add_flags label cur nxt next table c = Done c' /\ runs_as c' x /\
    forall cur' nxt' table' d q,
      context_at (mem d) p = context_at (mem c') p -> switchable cur' nxt' p table' d q (context_at (mem d) p) ->
      exists d', switch_to add_flags label cur' nxt' p table' d = Done d' /\
        (forall r, r <> RSP -> gpr d' r = gpr c r) /\ rip d' = label /\ gpr d' RSP = gpr c RSP + 8 /\
        load64 (mem d') (gpr c RSP) = label /\ rflags d' = add_flags (rflags c) (gpr c RSP) 8.
Proof.
  intros Hf Hl Hc. destruct (switch_to_spec add_flags label Hf Hl _ _ _ _ _ _ _ Hc) as (c' & Ec & Rc & Sc & _).
  exists c'. split; [exact Ec|]. split; [exact Rc|]. intros cur' nxt' table' d q Hd Hq. rewrite Hd, Sc in Hq.
  destruct (switch_to_spec add_flags label Hf Hl _ _ _ _ _ _ _ Hq) as (d' & E & (R1 & R2 & R3) & _ & R4 & _).
  exists d'. split; [exact E|]. unfold saved_context in *. cbn in R1, R2, R3, R4. injection R1 as ? ? ? ? ? ? ? ?.
  injection R2 as ? ? ? ? ? ? ?. injection R3 as ? ? ?.
  split; [intros []; congruence|]. repeat split; [congruence..| |congruence].
  now replace (gpr c RSP + 8 - 8) with (gpr c RSP) in R4 by lia.
Qed.

(** A process with its context at 0x1000 switches to one with its context at
    0x2000, which switches back. *)
Definition regs0 (rdi rsp : Z) : reg -> Z := fun r => match r with RDI => rdi | RSP => rsp | RBX => 7 | _ => 0 end.
Definition machine0 : cpu := mkCpu (regs0 0x1000 0x9000) 0 0x202 8 16 0x3000 (store64 ∅ 0x2080 0xA000).

Ltac concrete_switch :=
  constructor;
  lazymatch goal with
  | |- _ <> _ => discriminate
  | |- u64_regs _ => intros []; vm_compute; intuition congruence
  | |- context_at _ _ = _ => first [assumption | reflexivity]
  | |- _ => vm_compute; intuition congruence
  end.

Lemma switched_back_loses_stack_word_witness :
  exists c' d', switch_to (fun _ _ _ => 0x46) 0x5000 RDI RSI 0x2000 0x4000 machine0 = Done c' /\
    switch_to (fun _ _ _ => 0x46) 0x5000 RDI RSI 0x1000 0x3000 (mkCpu (regs0 0x2000 0xA000) 0 0x202 8 16 0x4000 (mem c')) = Done d' /\
    gpr d' RBX = 7 /\ gpr d' RSP = 0x9008 /\ load64 (mem d') 0x9000 = 0x5000.
Proof.
  assert (S : switchable RDI RSI 0x2000 0x4000 machine0 0x1000 (context_at (mem machine0) 0x2000)).
  { concrete_switch. }
  assert (F : is_u64 0x46 /\ is_u64 0x5000) by (unfold is_u64, U64_MAX; lia). destruct F as [F1 F2].
  pose proof (switched_back_loses_stack_word (fun _ _ _ => 0x46) 0x5000 RDI RSI 0x2000 0x4000 machine0 0x1000
    (context_at (mem machine0) 0x2000) (fun _ _ _ => F1) F2 S) as (c' & E & _ & H).
  assert (M : context_at (mem c') 0x1000 = saved_context (fun _ _ _ => 0x46) 0x5000 machine0).
  { assert (K : match switch_to (fun _ _ _ => 0x46) 0x5000 RDI RSI 0x2000 0x4000 machine0 with
                | Done c => context_at (mem c) 0x1000
                | Panicked => zero
                end = saved_context (fun _ _ _ => 0x46) 0x5000 machine0) by (vm_compute; reflexivity).
    rewrite E in K. exact K. }
  set (d := mkCpu (regs0 0x2000 0xA000) 0 0x202 8 16 0x4000 (mem c')).
  assert (S' : switchable RDI RSI 0x1000 0x3000 d 0x2000 (context_at (mem d) 0x1000)).
  { change (mem d) with (mem c'). rewrite M. concrete_switch. }
  destruct (H RDI RSI 0x3000 d 0x2000 eq_refl S') as (d' & D & D1 & D2 & D3 & D4 & D5).
  exists c', d'. split; [exact E|]. split; [exact D|]. split; [now rewrite D1 by congruence|]. split; [exact D3|exact D4].
Defined.

End Switch.
