(* ===== verification/Spinlock.v ===== *)
(** * Interrupt-safe spin locks (src/kernel/src/spinlock_irq.rs)

    Processors that take and release any number of locks, one atomic
    instruction at a time, while interrupts arrive: the lock word and the
    interrupt flag as [lock], [try_lock] and [drop] read and write them. *)

From S2P Require Import Prelude.

Module Spinlock.

(** [struct SpinLockIrqGuard]: the lock, and [interrupts_were_enabled]. *)
Record guard : Type := mkGuard { lock_of : nat; interrupts_were_enabled : bool }.

(** Where a piece of code is: in none of the functions, or before one of their
    instructions. [wait] tells [lock] from [try_lock]. *)
Inductive pc : Type :=
  | Running
  | Saved (l : nat) (were : bool) (wait : bool)    (* before [interrupts::disable] *)
  | Trying (l : nat) (were : bool) (wait : bool)   (* before [locked.swap] *)
  | Failed (were : bool)                           (* [try_lock] before the restore *)
  | Releasing (were : bool).                       (* [drop] before the restore *)

(** A piece of code with the guards it holds, the last one first. *)
Record activation : Type := mkAct { at_pc : pc; guards : list guard }.

(** A processor: the interrupt flag, the code that runs, and the code that was
    interrupted for it. *)
Record processor : Type := mkProc { if_flag : bool; top : activation; below : list activation }.

Record system : Type := mkSystem { locked : gset nat; procs : list processor }.

Inductive action : Type :=
  | Call (l : nat) (wait : bool)   (* [lock], [try_lock]: read the flag *)
  | Disable
  | Swap
  | Restore
  | Drop (i : nat)                 (* drop of the [i]th guard: store the lock word *)
  | Interrupt
  | Iret.

(** One instruction of a processor. Code holds as many guards as it likes and
    drops them in any order, or only the last one first. *)
Definition step_proc (lifo : bool) (a : action) (locked : gset nat) (p : processor) : option (gset nat * processor) :=
  let go locked f pc gs := Some (locked, mkProc f (mkAct pc gs) (below p)) in
  let f := if_flag p in
  let gs := guards (top p) in
  match a, at_pc (top p) with
  | Call l wait, Running => go locked f (Saved l f wait) gs
  | Disable, Saved l were wait => go locked false (Trying l were wait) gs
  | Swap, Trying l were wait =>
      if decide (l ∈ locked) then
        if wait then go locked f (Trying l were wait) gs else go locked f (Failed were) gs
      else go ({[l]} ∪ locked) f Running (mkGuard l were :: gs)
  | Restore, Failed were => go locked (f || were) Running gs
  | Drop i, Running =>
      if lifo && negb (i =? 0)%nat then None
      else
        match gs !! i with
        | Some g => go (locked ∖ {[lock_of g]}) f (Releasing (interrupts_were_enabled g)) (delete i gs)
        | None => None
        end
  | Restore, Releasing were => go locked (f || were) Running gs
  | Interrupt, _ => if f then Some (locked, mkProc false (mkAct Running []) (top p :: below p)) else None
  | Iret, Running =>
      match below p, gs with
      | t :: rest, [] => Some (locked, mkProc true t rest)
      | _, _ => None
      end
  | _, _ => None
  end.

Definition step (lifo : bool) (c : nat) (a : action) (s : system) : option system :=
  match procs s !! c with
  | None => None
  | Some p =>
      match step_proc lifo a (locked s) p with
      | None => None
      | Some (locked', p') => Some (mkSystem locked' (<[c := p']> (procs s)))
      end
  end.

Fixpoint steps (lifo : bool) (l : list (nat * action)) (s : system) : option system :=
  match l with
  | [] => Some s
  | (c, a) :: rest => match step lifo c a s with Some s' => steps lifo rest s' | None => None end
  end.

(** Processors that have just been started. *)
Definition boot (flags : list bool) : system := mkSystem ∅ (map (fun f => mkProc f (mkAct Running []) []) flags).

Inductive reachable (lifo : bool) (flags : list bool) : system -> Prop :=
  | reach_boot : reachable lifo flags (boot flags)
  | reach_step s c a s' : reachable lifo flags s -> step lifo c a s = Some s' -> reachable lifo flags s'.

(** The locks the guards of a piece of code, a processor, all processors hold. *)
Definition holds_act (a : activation) : list nat := map lock_of (guards a).
Definition holds_proc (p : processor) : list nat := holds_act (top p) ++ concat (map holds_act (below p)).
Definition holds_all (l : list processor) : list nat := concat (map holds_proc l).

(** ** Mutual exclusion *)

Definition exclusive (s : system) : Prop := NoDup (holds_all (procs s)) /\ forall l, l ∈ locked s <-> l ∈ holds_all (procs s).

Lemma holds_all_insert ps c p :
  ps !! c = Some p -> exists rest, holds_all ps ≡ₚ holds_proc p ++ rest /\
    forall p', holds_all (<[c := p']> ps) ≡ₚ holds_proc p' ++ rest.
Proof.
  intros Hc. exists (holds_all (take c ps) ++ holds_all (drop (S c) ps)). unfold holds_all. split.
  - rewrite <- (take_drop_middle ps c p Hc) at 1. rewrite map_app, concat_app. cbn. solve_Permutation.
  - intros p'. rewrite insert_take_drop by (eapply lookup_lt_Some; eassumption).
    rewrite map_app, concat_app. cbn. solve_Permutation.
Qed.

(** What an instruction does to the locks of its processor. *)
Definition effect (k k' : gset nat) (h h' : list nat) : Prop :=
  (k' = k /\ h' ≡ₚ h) \/
  (exists l, l ∉ k /\ k' = {[l]} ∪ k /\ h' ≡ₚ l :: h) \/
  (exists l, k' = k ∖ {[l]} /\ h ≡ₚ l :: h').

Lemma step_proc_effect lifo a k p k' p' :
  step_proc lifo a k p = Some (k', p') -> effect k k' (holds_proc p) (holds_proc p').
Proof.
  intros H. destruct p as [f [q gs] bel]. unfold step_proc in H. cbn in H.
  destruct a, q; try discriminate H; repeat case_match; try discriminate H; injection H as <- <-; try (left; split; reflexivity).
  - right; left. exists l. split; [assumption|]. split; [reflexivity|]. reflexivity.
  - right; right. exists (lock_of g). split; [reflexivity|]. unfold holds_proc, holds_act. cbn.
    rewrite (delete_Permutation gs i g) at 1 by assumption. reflexivity.
Qed.

Lemma effect_exclusive k k' h h' rest :
  effect k k' h h' -> NoDup (h ++ rest) -> (forall l, l ∈ k <-> l ∈ h ++ rest) ->
  NoDup (h' ++ rest) /\ forall l, l ∈ k' <-> l ∈ h' ++ rest.
Proof.
  intros [[-> Hp]|[(l & Hl & -> & Hp)|(l & -> & Hp)]] Hn Hk.
  - split; [now rewrite Hp|]. intros x. rewrite Hp. apply Hk.
  - split; [rewrite Hp; constructor; [now rewrite <- Hk|assumption]|]. intros x. rewrite Hp. cbn.
    rewrite elem_of_cons, <- Hk. set_solver.
  - rewrite Hp in Hn. inversion Hn as [|? ? Hx Hn']; subst. split; [assumption|]. intros x.
    rewrite elem_of_difference, elem_of_singleton, Hk, Hp. cbn. rewrite elem_of_cons.
    split; [tauto|]. intros Hin. split; [now right|]. intros ->. contradiction.
Qed.

Lemma step_exclusive lifo c a s s' : step lifo c a s = Some s' -> exclusive s -> exclusive s'.
Proof.
  unfold step. intros H [Hn Hk]. destruct (procs s !! c) as [p|] eqn:Hc; [|discriminate].
  destruct (step_proc lifo a (locked s) p) as [[k' p']|] eqn:Hs; [|discriminate]. injection H as <-.
  apply step_proc_effect in Hs. destruct (holds_all_insert _ _ _ Hc) as (rest & E & E').
  unfold exclusive. cbn [locked procs]. rewrite E in Hn.
  assert (Hk' : forall l, l ∈ locked s <-> l ∈ holds_proc p ++ rest) by (intros; now rewrite <- E).
  destruct (effect_exclusive _ _ _ _ rest Hs Hn Hk') as [A B]. split; [now rewrite E'|]. intros l. now rewrite E'.
Qed.

Lemma holds_boot flags : holds_all (procs (boot flags)) = [].
Proof. unfold holds_all. cbn. rewrite map_map. induction flags as [|f l IH]; [reflexivity|exact IH]. Qed.

Lemma boot_exclusive flags : exclusive (boot flags).
Proof. unfold exclusive. rewrite holds_boot. split; [apply NoDup_nil_2|]. intros l. cbn. set_solver. Qed.

(** ** Interrupts *)

(** Only the outermost guard found interrupts enabled. *)
Definition outer_only (gs : list guard) : Prop := Forall (fun g => interrupts_were_enabled g = false) (removelast gs).

(** The flag is off from [disable] on and while a guard is held, and what was
    saved under a guard is that it was off. *)
Definition act_ok (f : bool) (a : activation) : Prop :=
  outer_only (guards a) /\
  match at_pc a with
  | Running => guards a <> [] -> f = false
  | Saved _ were _ => were = f /\ (guards a <> [] -> f = false)
  | Trying _ were _ | Failed were | Releasing were => f = false /\ (guards a <> [] -> were = false)
  end.

(** Code that is interrupted holds no lock, and had the flag on. *)
Definition proc_ok (p : processor) : Prop :=
  act_ok (if_flag p) (top p) /\ Forall (fun a => guards a = [] /\ act_ok true a) (below p).

Lemma outer_only_cons g gs :
  outer_only (g :: gs) <-> outer_only gs /\ (gs <> [] -> interrupts_were_enabled g = false).
Proof.
  unfold outer_only. destruct gs as [|h gs]; cbn [removelast].
  - split; [intros _; split; [apply Forall_nil_2|congruence]|intros _; apply Forall_nil_2].
  - rewrite Forall_cons. split; [intros [? ?]; auto|intros [? H]]. split; [now apply H|assumption].
Qed.

Lemma act_ok_interrupted a : act_ok true a -> guards a = [].
Proof.
  destruct a as [q [|g gs]]; [reflexivity|]. intros [_ H]. cbn in H. exfalso.
  assert (Hg : g :: gs <> []) by discriminate. destruct q; intuition discriminate.
Qed.

Lemma act_ok_new f : act_ok f (mkAct Running []).
Proof. split; [apply Forall_nil_2|]. cbn. congruence. Qed.

Ltac cases_in H :=
  repeat match type of H with
         | context [match ?x with _ => _ end] => let E := fresh "E" in destruct x eqn:E; try discriminate H
         end.

(** Every instruction but those of interrupts, on the code that runs. *)
Lemma step_proc_ok a k p k' p' : step_proc true a k p = Some (k', p') -> proc_ok p -> proc_ok p'.
Proof.
  intros H [Ht Hb]. destruct p as [f [q gs] bel]. unfold step_proc in H. cbn in H. cbn [top below if_flag] in Ht, Hb.
  destruct a, q; try discriminate H; cases_in H; try discriminate H; injection H as <- <-; subst; split;
    cbn [top below if_flag]; try exact Hb; try apply act_ok_new;
    try (apply Forall_cons; split; [split; [exact (act_ok_interrupted _ Ht)|exact Ht]|exact Hb]);
    try (apply Forall_cons in Hb as [[_ Hb1] Hb2]; assumption);
    destruct Ht as [Ho Ht]; cbn in Ho, Ht; split; cbn; try assumption.
  - split; [reflexivity|exact Ht].
  - split; [reflexivity|]. destruct Ht as [-> ?]. assumption.
  - apply outer_only_cons. split; [exact Ho|apply Ht].
  - intros _. apply Ht.
  - intros Hg. destruct Ht as [-> Hw]. now rewrite Hw.
  - intros Hg. destruct Ht as [-> Hw]. now rewrite Hw.
  - destruct i; [|discriminate]. destruct gs; [discriminate|]. now apply outer_only_cons in Ho as [? _].
  - destruct i; [|discriminate]. destruct gs as [|h gs]; [discriminate|]. injection E0 as ->.
    split; [now apply Ht|]. now apply outer_only_cons in Ho as [_ ?].
Qed.

Lemma reachable_exclusive lifo flags s : reachable lifo flags s -> exclusive s.
Proof. induction 1; [apply boot_exclusive|eauto using step_exclusive]. Qed.

Lemma reachable_ok flags s : reachable true flags s -> Forall proc_ok (procs s).
Proof.
  induction 1 as [|s c a s' _ IH H].
  - cbn. apply Forall_map, Forall_true. intros f. split; [apply act_ok_new|apply Forall_nil_2].
  - unfold step in H. destruct (procs s !! c) as [p|] eqn:Hc; [|discriminate].
    destruct (step_proc true a (locked s) p) as [[k' p']|] eqn:Hs; [|discriminate]. injection H as <-.
    cbn. apply Forall_insert; [exact IH|]. eapply step_proc_ok; [exact Hs|]. eapply Forall_lookup_1; eassumption.
Qed.

Lemma steps_reachable lifo flags l : forall s s', reachable lifo flags s -> steps lifo l s = Some s' -> reachable lifo flags s'.
Proof.
  induction l as [|[c a] l IH]; intros s s' Hr H; cbn in H; [now injection H as <-|].
  destruct (step lifo c a s) as [s1|] eqn:Hs; [|discriminate]. eapply IH; [eapply reach_step; eassumption|exact H].
Qed.

(** ** The locks *)

(** C35: in every interleaving of the processors' instructions and of their
    interrupts, whatever the order in which guards are dropped, no lock has two
    guards, on one processor or on two, and the lock word is set exactly while
    the lock has a guard. *)
Theorem spinlock_mutual_exclusion lifo flags s :
  reachable lifo flags s -> NoDup (holds_all (procs s)) /\ forall l, l ∈ locked s <-> l ∈ holds_all (procs s).
Proof. apply reachable_exclusive. Qed.

(** Two processors with interrupts enabled; the first holds lock 3 when the
    second is waiting for it. *)
Definition contended : list (nat * action) :=
  [(0, Call 3 true); (1, Call 3 true); (0, Disable); (0, Swap); (1, Interrupt); (1, Iret); (1, Disable); (1, Swap); (0, Call 4 false);
   (0, Disable); (0, Swap)]%nat.

Lemma spinlock_mutual_exclusion_witness :
  exists s, steps true contended (boot [true; true]) = Some s /\ holds_all (procs s) = [4; 3]%nat /\ NoDup (holds_all (procs s)).
Proof.
  destruct (steps true contended (boot [true; true])) as [s|] eqn:E; [|discriminate E]. exists s.
  assert (R : reachable true [true; true] s) by (eapply steps_reachable; [apply reach_boot|exact E]).
  split; [reflexivity|]. split; [vm_compute in E; injection E as <-; reflexivity|].
  exact (proj1 (spinlock_mutual_exclusion true [true; true] s R)).
Defined.

(** When guards are dropped in the reverse order of their creation, a
    processor whose code holds a guard has interrupts disabled, and code that
    was interrupted holds none: what an interrupt handler waits for is never
    held by the code it interrupted. *)
Theorem handlers_never_wait_for_interrupted flags s c p :
  reachable true flags s -> procs s !! c = Some p ->
  (guards (top p) <> [] -> if_flag p = false) /\
  forall a l were, a ∈ below p -> at_pc (top p) = Trying l were true -> l ∉ holds_act a.
Proof.
  intros Hr Hc. pose proof (Forall_lookup_1 _ _ _ _ (reachable_ok _ _ Hr) Hc) as [[_ Ht] Hb]. split.
  - intros Hg. destruct (at_pc (top p)); intuition congruence.
  - intros a l were Ha _. rewrite Forall_forall in Hb. destruct (Hb a Ha) as [Hg _]. unfold holds_act. rewrite Hg. apply not_elem_of_nil.
Qed.

(** A handler that waits on the second processor for the lock of the first. *)
Definition handler_waits : list (nat * action) :=
  [(0, Call 3 true); (0, Disable); (0, Swap); (1, Interrupt); (1, Call 3 true); (1, Disable); (1, Swap)]%nat.

Lemma handlers_never_wait_for_interrupted_witness :
  exists s, steps true handler_waits (boot [true; true]) = Some s /\
    procs s !! 1%nat = Some (mkProc false (mkAct (Trying 3 false true) []) [mkAct Running []]) /\
    forall a, a ∈ [mkAct Running []] -> 3%nat ∉ holds_act a.
Proof.
  destruct (steps true handler_waits (boot [true; true])) as [s|] eqn:E; [|discriminate E]. exists s.
  assert (R : reachable true [true; true] s) by (eapply steps_reachable; [apply reach_boot|exact E]).
  assert (P : procs s !! 1%nat = Some (mkProc false (mkAct (Trying 3 false true) []) [mkAct Running []])).
  { vm_compute in E. injection E as <-. reflexivity. }
  split; [reflexivity|]. split; [exact P|]. intros a Ha.
  exact (proj2 (handlers_never_wait_for_interrupted [true; true] s 1 _ R P) a 3%nat false Ha eq_refl).
Defined.

(** Dropped in another order - the first of two guards first - interrupts are
    enabled while a lock is held, although the documentation says that nested
    locks are supported; a handler that takes that lock then waits for the code
    it interrupted, and no instruction ever changes anything again. *)
Theorem out_of_order_drop_deadlocks :
  exists s, steps false
      [(0, Call 0 true); (0, Disable); (0, Swap); (0, Call 1 true); (0, Disable); (0, Swap); (0, Drop 1); (0, Restore);
       (0, Interrupt); (0, Call 1 true); (0, Disable); (0, Swap)]%nat (boot [true]) = Some s /\
    locked s = {[1%nat]} /\
    procs s = [mkProc false (mkAct (Trying 1 false true) []) [mkAct Running [mkGuard 1 false]]] /\
    forall c a s', step false c a s = Some s' -> s' = s.
Proof.
  exists (mkSystem {[1%nat]} [mkProc false (mkAct (Trying 1 false true) []) [mkAct Running [mkGuard 1 false]]]).
  split; [vm_compute; reflexivity|]. split; [reflexivity|]. split; [reflexivity|].
  intros [|c] a s' H; [|discriminate H]. unfold step in H. cbn [procs lookup list_lookup locked] in H.
  destruct a; try discriminate H. unfold step_proc in H. cbn [at_pc top] in H.
  rewrite decide_True in H by set_solver. cbn in H. now injection H as <-.
Qed.

End Spinlock.
