(* ===== verification/Vga.v ===== *)
(** * The text screen (src/hal/src/vga.rs)

    The writer of the VGA text buffer: characters go to the bottom row, and a
    new line scrolls the buffer character by character. *)

From S2P Require Import Prelude.

Module Vga.

Definition BUFFER_HEIGHT : nat := 25.
Definition BUFFER_WIDTH : nat := 80.

(** [enum Color], with its codes. *)
Inductive Color : Type :=
  | Black | Blue | Green | Cyan | Red | Magenta | Brown | LightGray | DarkGray | LightBlue | LightGreen | LightCyan
  | LightRed | Pink | Yellow | White.

Definition color_num (c : Color) : Z :=
  match c with
  | Black => 0 | Blue => 1 | Green => 2 | Cyan => 3 | Red => 4 | Magenta => 5 | Brown => 6 | LightGray => 7
  | DarkGray => 8 | LightBlue => 9 | LightGreen => 10 | LightCyan => 11 | LightRed => 12 | Pink => 13
  | Yellow => 14 | White => 15
  end.

(** [ColorCode::new]. *)
Definition color_code_new (foreground background : Color) : Z :=
  Z.lor (wrap8 (Z.shiftl (color_num background) 4)) (color_num foreground).

Record ScreenChar : Type := mkChar { ascii_character : Z; char_color : Z }.

Notation Row := (list ScreenChar).
Notation Buffer := (list (list ScreenChar)).

(** [Buffer::read] and [Buffer::write]. *)
Definition read (b : Buffer) (row col : nat) : outcome ScreenChar := let! r := index b row in index r col.
Definition write (b : Buffer) (row col : nat) (c : ScreenChar) : outcome Buffer :=
  let! r := index b row in let! r := index_set r col c in index_set b row r.

Record Writer : Type := mkWriter { column_position : nat; color_code : Z; buffer : Buffer }.

(** The loop of [clear_row], [n] columns left. *)
Fixpoint clear_cols (b : Buffer) (row col n : nat) (blank : ScreenChar) : outcome Buffer :=
  match n with
  | O => Done b
  | S n' => let! b := write b row col blank in clear_cols b row (S col) n' blank
  end.

Definition clear_row (w : Writer) (row : nat) : outcome Writer :=
  let! b := clear_cols (buffer w) row 0 BUFFER_WIDTH (mkChar 32 (color_code w)) in
  Done (mkWriter (column_position w) (color_code w) b).

(** The loops of [new_line]: the columns of a row, and the rows. *)
Fixpoint copy_cols (b : Buffer) (row col n : nat) : outcome Buffer :=
  match n with
  | O => Done b
  | S n' =>
      let! character := read b row col in
      let! b := write b (row - 1) col character in
      copy_cols b row (S col) n'
  end.

Fixpoint copy_rows (b : Buffer) (row n : nat) : outcome Buffer :=
  match n with
  | O => Done b
  | S n' => let! b := copy_cols b row 0 BUFFER_WIDTH in copy_rows b (S row) n'
  end.

Definition new_line (w : Writer) : outcome Writer :=
  let! b := copy_rows (buffer w) 1 (BUFFER_HEIGHT - 1) in
  let! w := clear_row (mkWriter (column_position w) (color_code w) b) (BUFFER_HEIGHT - 1) in
  Done (mkWriter 0 (color_code w) (buffer w)).

Definition write_byte (w : Writer) (byte : Z) : outcome Writer :=
  if byte =? 10 then new_line w
  else
    let! w := (if (BUFFER_WIDTH <=? column_position w)%nat then new_line w else Done w) in
    let! b := write (buffer w) (BUFFER_HEIGHT - 1) (column_position w) (mkChar byte (color_code w)) in
    Done (mkWriter (S (column_position w)) (color_code w) b).

(** [write_string], on the bytes of the string. *)
Fixpoint write_string (w : Writer) (s : list Z) : outcome Writer :=
  match s with
  | [] => Done w
  | byte :: rest =>
      let! w := (if ((0x20 <=? byte) && (byte <=? 0x7e)) || (byte =? 10) then write_byte w byte else write_byte w 0xfe) in
      write_string w rest
  end.

(** [init], with what the screen shows. *)
Definition init (shown : Buffer) : Writer := mkWriter 0 (color_code_new Yellow Black) shown.

(** ** The text as rows *)

Definition blank_row (color : Z) : Row := replicate BUFFER_WIDTH (mkChar 32 color).

(** What a byte is shown as. *)
Definition shown (byte : Z) : Z := if (0x20 <=? byte) && (byte <=? 0x7e) then byte else 0xfe.

(** The rows a text fills, from column [col] of a row on: a new row for every
    new line, and when a row is full. *)
Fixpoint layout (color : Z) (row : Row) (col : nat) (s : list Z) : list Row * nat :=
  match s with
  | [] => ([row], col)
  | byte :: rest =>
      if byte =? 10 then let (rows, c) := layout color (blank_row color) 0 rest in (row :: rows, c)
      else if (col <? BUFFER_WIDTH)%nat then layout color (<[col := mkChar (shown byte) color]> row) (S col) rest
      else
        let (rows, c) := layout color (<[0%nat := mkChar (shown byte) color]> (blank_row color)) 1 rest in (row :: rows, c)
  end.

Definition last_rows (rows : list Row) : Buffer := drop (length rows - BUFFER_HEIGHT) rows.

Record wf (w : Writer) : Prop := {
  wf_height : length (buffer w) = BUFFER_HEIGHT;
  wf_width : Forall (fun r => length r = BUFFER_WIDTH) (buffer w);
  wf_column : (column_position w <= BUFFER_WIDTH)%nat
}.

(** ** Lemmas *)

Lemma write_spec b row col c r :
  b !! row = Some r -> (col < length r)%nat -> write b row col c = Done (<[row := <[col := c]> r]> b).
Proof.
  intros Hr Hc. unfold write. rewrite (proj2 (index_Done _ _ _) Hr). cbn [bind]. rewrite index_set_lt by assumption. cbn [bind].
  apply index_set_lt. eapply lookup_lt_Some; eassumption.
Qed.

Lemma clear_cols_spec blank row n : forall b col r,
  b !! row = Some r -> length r = (col + n)%nat ->
  clear_cols b row col n blank = Done (<[row := take col r ++ replicate n blank]> b).
Proof.
  induction n as [|n IH]; intros b col r Hr Hl; cbn [clear_cols replicate].
  { rewrite app_nil_r, take_ge, list_insert_id by (assumption || lia). reflexivity. }
  rewrite (write_spec _ _ _ _ r) by (assumption || lia). cbn [bind].
  pose proof (lookup_lt_Some _ _ _ Hr) as Hb.
  rewrite (IH _ (S col) (<[col := blank]> r)); [|now apply list_lookup_insert_eq|rewrite length_insert; lia].
  rewrite list_insert_insert_eq. do 2 f_equal. rewrite (take_S_r _ _ blank) by (apply list_lookup_insert_eq; lia).
  rewrite take_insert_ge by lia. now rewrite <- app_assoc.
Qed.

Lemma copy_cols_spec row n : forall b col r q,
  (1 <= row)%nat -> b !! row = Some r -> b !! (row - 1)%nat = Some q -> length r = (col + n)%nat -> length q = (col + n)%nat ->
  copy_cols b row col n = Done (<[(row - 1)%nat := take col q ++ drop col r]> b).
Proof.
  induction n as [|n IH]; intros b col r q H1 Hr Hq Hlr Hlq; cbn [copy_cols].
  { rewrite drop_ge, app_nil_r, take_ge, list_insert_id by (assumption || lia). reflexivity. }
  unfold read. rewrite (proj2 (index_Done _ _ _) Hr). cbn [bind].
  destruct (index_lt r col) as (c & Hc & ->); [lia|]. cbn [bind].
  rewrite (write_spec _ _ _ _ q) by (assumption || lia). cbn [bind].
  pose proof (lookup_lt_Some _ _ _ Hq) as Hb.
  rewrite (IH _ (S col) r (<[col := c]> q)); [|lia| |now apply list_lookup_insert_eq|lia|rewrite length_insert; lia].
  - rewrite list_insert_insert_eq. do 2 f_equal. rewrite (take_S_r _ _ c) by (apply list_lookup_insert_eq; lia).
    rewrite take_insert_ge by lia. rewrite <- app_assoc. now rewrite (drop_S r c col Hc).
  - rewrite list_lookup_insert_ne by lia. exact Hr.
Qed.

Definition rows_ok (b : Buffer) : Prop := Forall (fun r => length r = BUFFER_WIDTH) b.

Lemma copy_rows_spec n : forall b row,
  rows_ok b -> (1 <= row)%nat -> length b = (row + n)%nat ->
  copy_rows b row n = Done (take (row - 1) b ++ drop row b ++ drop (row + n - 1) b).
Proof.
  induction n as [|n IH]; intros b row Hb H1 Hl; cbn [copy_rows].
  { rewrite (drop_ge b row), Nat.add_0_r by lia. cbn [app]. now rewrite take_drop. }
  destruct (lookup_lt_is_Some_2 b row) as [r Hr]; [lia|]. destruct (lookup_lt_is_Some_2 b (row - 1)) as [q Hq]; [lia|].
  pose proof (Forall_lookup_1 _ _ _ _ Hb Hr) as Lr. pose proof (Forall_lookup_1 _ _ _ _ Hb Hq) as Lq. cbn in Lr, Lq.
  rewrite (copy_cols_spec row BUFFER_WIDTH b 0 r q) by (assumption || lia). cbn [bind take app drop].
  rewrite IH by (first [lia | rewrite length_insert; lia | now apply Forall_insert]).
  f_equal. replace (S row - 1)%nat with row by lia. replace (S row + n - 1)%nat with (row + n)%nat by lia.
  replace (row + S n - 1)%nat with (row + n)%nat by lia. rewrite ?drop_insert_lt by lia.
  destruct row as [|k]; [lia|]. replace (S k - 1)%nat with k in * by lia.
  rewrite (take_S_r _ _ r) by (apply list_lookup_insert_eq; lia). rewrite take_insert_ge by lia.
  rewrite <- app_assoc. now rewrite (drop_S b r (S k) Hr).
Qed.

Lemma new_line_spec w : wf w ->
  new_line w = Done (mkWriter 0 (color_code w) (drop 1 (buffer w) ++ [blank_row (color_code w)])).
Proof.
  intros [Hh Hw Hc]. unfold new_line. rewrite copy_rows_spec by (assumption || (rewrite Hh; reflexivity) || lia). cbn [bind].
  change (1 - 1)%nat with 0%nat. change (1 + (BUFFER_HEIGHT - 1) - 1)%nat with 24%nat. rewrite take_0, app_nil_l.
  destruct (lookup_lt_is_Some_2 (buffer w) 24) as [r Hr]; [rewrite Hh; unfold BUFFER_HEIGHT; lia|].
  rewrite (drop_S _ _ _ Hr). rewrite (drop_ge _ 25) by (rewrite Hh; unfold BUFFER_HEIGHT; lia).
  assert (L : length (drop 1 (buffer w)) = 24%nat) by (rewrite length_drop, Hh; reflexivity).
  pose proof (Forall_lookup_1 _ _ _ _ Hw Hr) as Lr. cbn in Lr.
  unfold clear_row. cbn [buffer column_position color_code]. change (BUFFER_HEIGHT - 1)%nat with 24%nat.
  rewrite (clear_cols_spec _ _ _ _ _ r); [|rewrite lookup_app_r by (rewrite L; lia); now rewrite L|exact Lr]. cbn [bind buffer color_code take app].
  rewrite insert_app_r_alt by (rewrite L; lia). now rewrite L.
Qed.

Lemma blank_length color : length (blank_row color) = BUFFER_WIDTH.
Proof. apply length_replicate. Qed.

(** A writer by its upper rows, its bottom row and its column. *)
Definition at_rows (w : Writer) (upper : list Row) (bottom : Row) : Prop :=
  buffer w = upper ++ [bottom] /\ length upper = 24%nat /\ rows_ok (upper ++ [bottom]) /\ (column_position w <= BUFFER_WIDTH)%nat.

Lemma at_rows_wf w upper bottom : at_rows w upper bottom -> wf w.
Proof.
  intros (Hb & Hl & Hr & Hc). split; rewrite ?Hb; [rewrite length_app, Hl; reflexivity|exact Hr|exact Hc].
Qed.

Lemma wf_at_rows w : wf w -> exists upper bottom, at_rows w upper bottom.
Proof.
  intros [Hh Hw Hc]. destruct (buffer w) as [|r rest _] eqn:E using rev_ind; [discriminate|].
  exists rest, r. rewrite length_app in Hh. cbn in Hh. unfold BUFFER_HEIGHT in Hh. repeat split; [exact E|lia|exact Hw|exact Hc].
Qed.

Lemma new_line_rows w upper bottom : at_rows w upper bottom ->
  exists w', new_line w = Done w' /\ at_rows w' (drop 1 (upper ++ [bottom])) (blank_row (color_code w)) /\
    column_position w' = 0%nat /\ color_code w' = color_code w.
Proof.
  intros H. pose proof H as (Hb & Hl & Hr & Hc). rewrite (new_line_spec w (at_rows_wf _ _ _ H)), Hb.
  eexists. split; [reflexivity|]. split; [|auto]. split; [reflexivity|].
  split; [rewrite length_drop, length_app, Hl; reflexivity|]. split; [|cbn; lia].
  apply Forall_app. split; [now apply Forall_drop|]. apply Forall_singleton, blank_length.
Qed.

Lemma put_rows w upper bottom byte : at_rows w upper bottom -> (column_position w < BUFFER_WIDTH)%nat ->
  exists w', (let! b := write (buffer w) (BUFFER_HEIGHT - 1) (column_position w) (mkChar byte (color_code w)) in
      Done (mkWriter (S (column_position w)) (color_code w) b)) = Done w' /\
    at_rows w' upper (<[column_position w := mkChar byte (color_code w)]> bottom) /\
    column_position w' = S (column_position w) /\ color_code w' = color_code w.
Proof.
  intros (Hb & Hl & Hr & _) Hc. apply Forall_app in Hr as [Hu Hbot]. apply Forall_cons in Hbot as [Hbot _].
  rewrite Hb. change (BUFFER_HEIGHT - 1)%nat with 24%nat. rewrite (write_spec _ _ _ _ bottom).
  - cbn [bind]. eexists. split; [reflexivity|]. split; [|auto]. split; [|split; [exact Hl|split; [|cbn; lia]]].
    + cbn [buffer]. rewrite insert_app_r_alt by lia. now rewrite Hl.
    + apply Forall_app. split; [exact Hu|]. apply Forall_singleton. cbn. rewrite length_insert. exact Hbot.
  - rewrite lookup_app_r by lia. now rewrite Hl.
  - lia.
Qed.

(** A row that leaves at the top. *)
Lemma last_rows_scroll l rows : (length l = BUFFER_HEIGHT)%nat -> rows <> [] -> last_rows (drop 1 l ++ rows) = last_rows (l ++ rows).
Proof.
  intros Hl Hr. unfold last_rows. rewrite !length_app, length_drop, Hl. destruct l as [|r l]; [discriminate|].
  destruct rows as [|q rows]; [congruence|]. cbn [length]. unfold BUFFER_HEIGHT.
  replace (25 + S (length rows) - 25)%nat with (S (25 - 1 + S (length rows) - 25)) by lia. reflexivity.
Qed.

Lemma layout_nonempty color s : forall row col, (layout color row col s).1 <> [].
Proof. induction s as [|b s IH]; intros row col; cbn; [discriminate|]. repeat case_match; first [apply IH | discriminate]. Qed.

Lemma shown_byte w byte : byte <> 10 ->
  (if ((0x20 <=? byte) && (byte <=? 0x7e)) || false then write_byte w byte else write_byte w 0xfe) =
  let! w := (if (BUFFER_WIDTH <=? column_position w)%nat then new_line w else Done w) in
  let! b := write (buffer w) (BUFFER_HEIGHT - 1) (column_position w) (mkChar (shown byte) (color_code w)) in
  Done (mkWriter (S (column_position w)) (color_code w) b).
Proof.
  intros Hb. apply Z.eqb_neq in Hb as E. rewrite orb_false_r. unfold shown, write_byte. rewrite E.
  now destruct ((0x20 <=? byte) && (byte <=? 0x7e)).
Qed.

Lemma write_string_rows s : forall w upper bottom, at_rows w upper bottom ->
  exists w', write_string w s = Done w' /\ wf w' /\ color_code w' = color_code w /\
    buffer w' = last_rows (upper ++ (layout (color_code w) bottom (column_position w) s).1) /\
    column_position w' = (layout (color_code w) bottom (column_position w) s).2.
Proof.
  induction s as [|byte s IH]; intros w upper bottom H; cbn [write_string layout].
  { exists w. split; [reflexivity|]. split; [eapply at_rows_wf; exact H|]. destruct H as (Hb & Hl & _). repeat split.
    rewrite Hb. unfold last_rows. rewrite length_app, Hl. reflexivity. }
  pose proof H as (_ & Hl & _ & Hc).
  assert (L : forall rows, rows <> [] -> last_rows (drop 1 (upper ++ [bottom]) ++ rows) = last_rows (upper ++ bottom :: rows)).
  { intros rows Hr. rewrite last_rows_scroll by (assumption || (rewrite length_app, Hl; reflexivity)). now rewrite <- app_assoc. }
  destruct (Z.eqb_spec byte 10) as [->|Hb].
  - rewrite orb_true_r. change (write_byte w 10) with (new_line w).
    destruct (new_line_rows _ _ _ H) as (w1 & -> & H1 & C1 & K1). cbn [bind].
    destruct (IH _ _ _ H1) as (w2 & -> & Hw & K2 & B2 & C2). rewrite K1, C1 in B2, C2. exists w2.
    pose proof (layout_nonempty (color_code w) s (blank_row (color_code w)) 0) as Hne.
    destruct (layout _ (blank_row _) 0 s) as [rows c]. cbn [fst snd] in *. rewrite B2, L by assumption.
    repeat split; congruence || apply Hw.
  - rewrite shown_byte by assumption. destruct (Nat.ltb_spec (column_position w) BUFFER_WIDTH) as [Hlt|Hge].
    + rewrite (proj2 (Nat.leb_gt _ _)) by lia. cbn [bind]. destruct (put_rows _ _ _ (shown byte) H Hlt) as (w1 & -> & H1 & C1 & K1).
      cbn [bind]. destruct (IH _ _ _ H1) as (w2 & -> & Hw & K2 & B2 & C2). rewrite K1, C1 in B2, C2. exists w2.
      repeat split; congruence || apply Hw.
    + rewrite (proj2 (Nat.leb_le _ _)) by lia. destruct (new_line_rows _ _ _ H) as (w1 & -> & H1 & C1 & K1). cbn [bind].
      destruct (put_rows _ _ _ (shown byte) H1) as (w2 & -> & H2 & C2 & K2); [rewrite C1; unfold BUFFER_WIDTH; lia|].
      cbn [bind]. destruct (IH _ _ _ H2) as (w3 & -> & Hw & K3 & B3 & C3). rewrite C2, K2, C1, K1 in B3, C3. exists w3.
      pose proof (layout_nonempty (color_code w) s (<[0%nat := mkChar (shown byte) (color_code w)]> (blank_row (color_code w))) 1) as Hne.
      destruct (layout _ (<[0%nat := _]> _) 1 s) as [rows c]. cbn [fst snd] in *. rewrite B3, L by assumption.
      repeat split; congruence || apply Hw.
Qed.

(** ** The screen *)

(** C38: whatever was on the screen, the text that is written to it is shown as
    its lines, broken at 80 columns and with every byte that is not printable as
    a square: the buffer holds the last 25 of the rows that were there and of
    the rows of the text, and writing never fails. *)
Theorem screen_shows_last_rows w s upper bottom :
  wf w -> buffer w = upper ++ [bottom] ->
  exists w', write_string w s = Done w' /\ wf w' /\
    let (rows, col) := layout (color_code w) bottom (column_position w) s in
    buffer w' = last_rows (upper ++ rows) /\ column_position w' = col.
Proof.
  intros Hw Hb. destruct (wf_at_rows w Hw) as (u & r & H). pose proof H as (Hb' & _).
  rewrite Hb in Hb'. apply app_inj_tail in Hb' as [-> ->].
  destruct (write_string_rows s w u r H) as (w' & E & Hw' & _ & B & C). exists w'. split; [exact E|]. split; [exact Hw'|].
  destruct (layout _ r _ s) as [rows col]. auto.
Qed.

(** A fresh screen of spaces, and a line that is too long for it. *)
Definition long_line : list Z := replicate 81 65 ++ [10; 7; 66].

Lemma screen_shows_last_rows_witness :
  exists w', write_string (init (replicate 25 (blank_row 7))) long_line = Done w' /\
    map (fun r => map ascii_character (take 3 r)) (drop 22 (buffer w')) = [[65; 65; 65]; [65; 32; 32]; [0xfe; 66; 32]].
Proof.
  destruct (screen_shows_last_rows (init (replicate 25 (blank_row 7))) long_line (replicate 24 (blank_row 7)) (blank_row 7))
    as (w' & E & _ & B).
  - split; [reflexivity|apply Forall_replicate, blank_length|cbn; lia].
  - reflexivity.
  - exists w'. split; [exact E|]. destruct (layout _ _ _ _) as [rows col] eqn:L.
    destruct B as [-> _]. vm_compute in L. injection L as <- <-. vm_compute. reflexivity.
Defined.

End Vga.
