(* ===== verification/Platform.v ===== *)
(** * The board and the boot sequence (src/kernel/src/pic.rs, timer.rs, gdt.rs,
      usermode.rs, boot_phases.rs, boot_watchdog.rs, boot_diagnostics.rs, percpu.rs)

    The drivers of the interrupt controllers and of the interval timer, over a
    board that is a parameter: [Board] states what the data sheets of the 8259
    and the 8254 say about their ports.  Then the segment selectors and the
    registers of the system-call instruction, with the crate that writes them as
    a parameter; the boot phases as the types that order them; the watchdog and
    the log of boot steps; and the per-processor data. *)

From S2P Require Import Prelude.

(** ** Ports and chips *)

Class Ports (C : Type) : Type := {
  inb : Z -> C -> Z * C;
  outb : Z -> Z -> C -> C
}.

(** An interrupt controller: the initialisation word it waits for (0 when it
    runs), the vector of its line 0, the wiring to the other controller, the
    mode, the masked lines and the lines in service. *)
Record Chip : Type := mkChip {
  awaiting : nat; offset : Z; cascade : Z; mode : Z; imr : Z; isr : Z
}.

(** A first initialisation word restarts the chip with nothing masked; an end
    of interrupt ends the line in service with the highest priority, which is
    the lowest. *)
Definition chip_command (ch : Chip) (v : Z) : Chip :=
  if Z.testbit v 4 then mkChip 1 (offset ch) (cascade ch) (mode ch) 0 0
  else if v =? 0x20
  then mkChip (awaiting ch) (offset ch) (cascade ch) (mode ch) (imr ch) (Z.land (isr ch) (isr ch - 1))
  else ch.

Definition chip_data (ch : Chip) (v : Z) : Chip :=
  match awaiting ch with
  | 1%nat => mkChip 2 (Z.land v 0xF8) (cascade ch) (mode ch) (imr ch) (isr ch)
  | 2%nat => mkChip 3 (offset ch) v (mode ch) (imr ch) (isr ch)
  | 3%nat => mkChip 0 (offset ch) (cascade ch) v (imr ch) (isr ch)
  | _ => mkChip 0 (offset ch) (cascade ch) (mode ch) v (isr ch)
  end.

(** Channel 0 of the timer: the control word, the low byte when the high one is
    awaited, and the divisor. *)
Record Timer : Type := mkTimer { control : Z; low : option Z; divisor : Z }.

Definition timer_data (t : Timer) (v : Z) : Timer :=
  match low t with
  | None => mkTimer (control t) (Some v) (divisor t)
  | Some l => mkTimer (control t) None (l + 256 * v)
  end.

(** The chips of a board. *)
Record Chips : Type := mkChips { master : Chip; slave : Chip; timer : Timer }.

Definition port_write (p v : Z) (h : Chips) : Chips :=
  if p =? 0x20 then mkChips (chip_command (master h) v) (slave h) (timer h)
  else if p =? 0x21 then mkChips (chip_data (master h) v) (slave h) (timer h)
  else if p =? 0xA0 then mkChips (master h) (chip_command (slave h) v) (timer h)
  else if p =? 0xA1 then mkChips (master h) (chip_data (slave h) v) (timer h)
  else if p =? 0x40 then mkChips (master h) (slave h) (timer_data (timer h) v)
  else if p =? 0x43 then mkChips (master h) (slave h) (mkTimer v None (divisor (timer h)))
  else h.

(** What the data sheets promise. *)
Class Board (C : Type) {PC : Ports C} : Type := {
  chips : C -> Chips;
  chips_write : forall p v c, p ∈ [0x20; 0x21; 0xA0; 0xA1; 0x40; 0x43; 0x80] -> 0 <= v < 256 ->
    chips (outb p v c) = port_write p v (chips c);
  mask_read : forall c, awaiting (master (chips c)) = 0%nat ->
    fst (inb 0x21 c) = imr (master (chips c)) /\ chips (snd (inb 0x21 c)) = chips c;
  slave_mask_read : forall c, awaiting (slave (chips c)) = 0%nat ->
    fst (inb 0xA1 c) = imr (slave (chips c)) /\ chips (snd (inb 0xA1 c)) = chips c
}.

Module Pic.

Definition PIC1_COMMAND : Z := 0x20.
Definition PIC1_DATA : Z := 0x21.
Definition PIC2_COMMAND : Z := 0xA0.
Definition PIC2_DATA : Z := 0xA1.
Definition ICW1_INIT : Z := 0x11.
Definition ICW4_8086 : Z := 0x01.
Definition EOI : Z := 0x20.

Section Driver.
Context {C : Type} `{Ports C}.

Definition io_wait (c : C) : C := outb 0x80 0 c.

Definition init (c : C) : C :=
  let offset1 := 32 in
  let offset2 := 40 in
  let (mask1, c) := inb PIC1_DATA c in
  let (mask2, c) := inb PIC2_DATA c in
  let c := io_wait (outb PIC1_COMMAND ICW1_INIT c) in
  let c := io_wait (outb PIC2_COMMAND ICW1_INIT c) in
  let c := io_wait (outb PIC1_DATA offset1 c) in
  let c := io_wait (outb PIC2_DATA offset2 c) in
  let c := io_wait (outb PIC1_DATA 0x04 c) in
  let c := io_wait (outb PIC2_DATA 0x02 c) in
  let c := io_wait (outb PIC1_DATA ICW4_8086 c) in
  let c := io_wait (outb PIC2_DATA ICW4_8086 c) in
  let c := outb PIC1_DATA mask1 c in
  outb PIC2_DATA mask2 c.

Definition unmask_irq (irq : Z) (c : C) : outcome C :=
  let! _ := rust_assert (irq <? 16) in
  let port := if irq <? 8 then PIC1_DATA else PIC2_DATA in
  let value := if irq <? 8 then irq else irq - 8 in
  let (mask, c) := inb port c in
  let new_mask := Z.land mask (not8 (Z.shiftl 1 value)) in
  Done (outb port new_mask c).

Definition mask_irq (irq : Z) (c : C) : outcome C :=
  let! _ := rust_assert (irq <? 16) in
  let port := if irq <? 8 then PIC1_DATA else PIC2_DATA in
  let value := if irq <? 8 then irq else irq - 8 in
  let (mask, c) := inb port c in
  let new_mask := Z.lor mask (Z.shiftl 1 value) in
  Done (outb port new_mask c).

Definition send_eoi (irq : Z) (c : C) : outcome C :=
  let! _ := rust_assert (irq <? 16) in
  let c := if 8 <=? irq then outb PIC2_COMMAND EOI c else c in
  Done (outb PIC1_COMMAND EOI c).

End Driver.

End Pic.

Module Pit.

Definition PIT_BASE_FREQUENCY : Z := 1193182.
Definition PIT_CHANNEL_0 : Z := 0x40.
Definition PIT_COMMAND : Z := 0x43.
Definition PIT_CMD_BINARY_MODE_RATE_GEN : Z := 0x36.

Definition init {C} `{Ports C} (frequency_hz : Z) (c : C) : outcome C :=
  let! _ := rust_assert (0 <? frequency_hz) in
  let! _ := rust_assert (frequency_hz <=? PIT_BASE_FREQUENCY) in
  let divisor := PIT_BASE_FREQUENCY / frequency_hz in
  let! _ := rust_assert (divisor <=? 65535) in
  let c := outb PIT_COMMAND PIT_CMD_BINARY_MODE_RATE_GEN c in
  let c := outb PIT_CHANNEL_0 (Z.land divisor 0xFF) c in
  Done (outb PIT_CHANNEL_0 (wrap8 (Z.shiftr divisor 8)) c).

End Pit.

(** ** Segments and system calls (gdt.rs, usermode.rs) *)

Module Segments.

Inductive Descriptor : Type :=
  | kernel_code_segment | kernel_data_segment | user_code_segment | user_data_segment | tss_segment.

(** [struct Selectors]. *)
Record Selectors : Type := mkSelectors {
  kernel_code : Z; kernel_data : Z; user_code : Z; user_data : Z; tss : Z
}.

(** The model-specific registers that [init_syscall] writes. *)
Record Msrs : Type := mkMsrs { star : Z; lstar : Z; sfmask : Z; system_call_extensions : bool }.

(** The x86_64 crate: its descriptor table, and [Star::write]. *)
Class Crate : Type := {
  Table : Type;
  table_new : Table;
  append : Descriptor -> Table -> Z * Table;
  star_write : Z -> Z -> Z -> Z -> Msrs -> result unit string * Msrs
}.

Section Init.
Context `{Crate}.

(** [gdt::init]: the selectors it keeps. *)
Definition gdt_init : Selectors :=
  let gdt := table_new in
  let (kernel_code, gdt) := append kernel_code_segment gdt in
  let (kernel_data, gdt) := append kernel_data_segment gdt in
  let (user_code, gdt) := append user_code_segment gdt in
  let (user_data, gdt) := append user_data_segment gdt in
  let (tss, _) := append tss_segment gdt in
  mkSelectors kernel_code kernel_data user_code user_data tss.

Definition INTERRUPT_FLAG : Z := 0x200.

(** [init_syscall], for the entry point at [entry]. *)
Definition init_syscall (entry : Z) (selectors : Selectors) (m : Msrs) : Msrs :=
  let (_, m) := star_write (user_code selectors) (user_data selectors) (kernel_code selectors) (kernel_data selectors) m in
  mkMsrs (star m) entry INTERRUPT_FLAG true.

End Init.

(** The selectors [sysretq] loads. *)
Definition sysret_cs (star : Z) : Z := Z.lor (Z.shiftr star 48 + 16) 3.
Definition sysret_ss (star : Z) : Z := Z.lor (Z.shiftr star 48 + 8) 3.

End Segments.

(** ** Boot phases (boot_phases.rs) *)

Module Phases.

Inductive Phase : Type := PhaseEarlyBoot | PhaseHalInit | PhaseMemoryInit | PhaseInterruptsInit | PhaseFullyInit.

(** A value of [KernelState<P>]: its field is private, so it is one that [new]
    and the methods made, each of which takes its argument away. *)
Inductive KernelState : Phase -> Type :=
  | new : KernelState PhaseEarlyBoot
  | init_hal : KernelState PhaseEarlyBoot -> KernelState PhaseHalInit
  | init_memory : KernelState PhaseHalInit -> KernelState PhaseMemoryInit
  | init_interrupts : KernelState PhaseMemoryInit -> KernelState PhaseInterruptsInit
  | finalize : KernelState PhaseInterruptsInit -> KernelState PhaseFullyInit.

Inductive Action : Type := SerialInit | VgaInit | MemoryPhase | InterruptsPhase | Finalized | InterruptsEnabled.

(** What was done to make the value. *)
Fixpoint actions {p} (s : KernelState p) : list Action :=
  match s with
  | new => []
  | init_hal s => actions s ++ [SerialInit; VgaInit]
  | init_memory s => actions s ++ [MemoryPhase]
  | init_interrupts s => actions s ++ [InterruptsPhase]
  | finalize s => actions s ++ [Finalized]
  end.

Definition enable_interrupts (s : KernelState PhaseFullyInit) : list Action := actions s ++ [InterruptsEnabled].

End Phases.

(** ** The boot watchdog (boot_watchdog.rs) *)

Module Watchdog.

Record Watchdog : Type := mkWatchdog { WATCHDOG_TIMEOUT : Z; WATCHDOG_TICKS : Z; WATCHDOG_ACTIVE : bool }.

Definition start (timeout_ticks : Z) (w : Watchdog) : Watchdog := mkWatchdog timeout_ticks 0 true.

Definition stop (w : Watchdog) : Watchdog :=
  if WATCHDOG_ACTIVE w then mkWatchdog (WATCHDOG_TIMEOUT w) (WATCHDOG_TICKS w) false else w.

Definition tick (w : Watchdog) : outcome (bool * Watchdog) :=
  if negb (WATCHDOG_ACTIVE w) then Done (false, w)
  else
    let w' := mkWatchdog (WATCHDOG_TIMEOUT w) (wrap32 (WATCHDOG_TICKS w + 1)) (WATCHDOG_ACTIVE w) in
    if U32_MAX <? WATCHDOG_TICKS w + 1 then Panicked
    else
      let ticks := WATCHDOG_TICKS w + 1 in
      Done (WATCHDOG_TIMEOUT w' <=? ticks, w').

(** The results of [n] ticks. *)
Fixpoint ticks (n : nat) (w : Watchdog) : outcome (list bool * Watchdog) :=
  match n with
  | O => Done ([], w)
  | S n' =>
      let! (fired, w) := tick w in
      let! (rest, w) := ticks n' w in
      Done (fired :: rest, w)
  end.

End Watchdog.

(** ** The log of boot steps (boot_diagnostics.rs) *)

Module BootLog.

Definition MAX_BOOT_STEPS : nat := 32.

Record BootLog : Type := mkLog { CURRENT_STEP : Z; BOOT_STEP_HISTORY : list Z }.

Definition initial : BootLog := mkLog 0 (replicate MAX_BOOT_STEPS 0).

Definition record_boot_step (step : Z) (b : BootLog) : outcome BootLog :=
  let prev := CURRENT_STEP b in
  let idx := (Z.to_nat prev mod MAX_BOOT_STEPS)%nat in
  let! history := index_set (BOOT_STEP_HISTORY b) idx step in
  Done (mkLog (wrap32 (prev + 1)) history).

Fixpoint record_all (steps : list Z) (b : BootLog) : outcome BootLog :=
  match steps with
  | [] => Done b
  | s :: rest => let! b := record_boot_step s b in record_all rest b
  end.

(** The loop of [get_last_steps], [n] turns from [i]. *)
Fixpoint last_steps_loop (b : BootLog) (current count i n : nat) (out : list Z) : outcome (list Z) :=
  match n with
  | O => Done out
  | S n' =>
      let idx := ((current - (count - i)) mod MAX_BOOT_STEPS)%nat in
      let! step := index (BOOT_STEP_HISTORY b) idx in
      let! out := index_set out i step in
      last_steps_loop b current count (S i) n' out
  end.

Definition get_last_steps (out : list Z) (b : BootLog) : outcome (nat * list Z) :=
  let current := Z.to_nat (CURRENT_STEP b) in
  let count := Nat.min (Nat.min (length out) current) MAX_BOOT_STEPS in
  let! out := last_steps_loop b current count 0 count out in
  Done (count, out).

End BootLog.

(** ** Per-processor data (percpu.rs) *)

Module Percpu.

Definition MAX_CPUS : nat := 8.

Record CpuLocal : Type := mkCpu { cpu_id : Z; current_pid : Z; preempt_count : Z; online : Z }.

Definition new (cpu_id : Z) : CpuLocal := mkCpu cpu_id 0 0 0.

Definition get_current_pid (c : CpuLocal) : option Z := if current_pid c =? 0 then None else Some (current_pid c).
Definition set_current_pid (c : CpuLocal) (pid : option Z) : CpuLocal :=
  mkCpu (cpu_id c) (default 0 pid) (preempt_count c) (online c).

Definition preempt_disable (c : CpuLocal) : CpuLocal :=
  mkCpu (cpu_id c) (current_pid c) (wrap32 (preempt_count c + 1)) (online c).
Definition preempt_enable (c : CpuLocal) : outcome CpuLocal :=
  if preempt_count c =? 0 then Panicked
  else Done (mkCpu (cpu_id c) (current_pid c) (preempt_count c - 1) (online c)).
Definition is_preempt_disabled (c : CpuLocal) : bool := 0 <? preempt_count c.

Definition mark_online (c : CpuLocal) : CpuLocal := mkCpu (cpu_id c) (current_pid c) (preempt_count c) 1.
Definition is_online (c : CpuLocal) : bool := negb (online c =? 0).

(** [CPU_DATA] and [CPU_COUNT]. *)
Record Cpus : Type := mkCpus { CPU_DATA : list CpuLocal; CPU_COUNT : Z }.
Definition initial : Cpus := mkCpus ((fun i => new (Z.of_nat i)) <$> seq 0 MAX_CPUS) 0.

Definition init_bsp (g : Cpus) : outcome Cpus :=
  let! c := index (CPU_DATA g) 0 in
  let! data := index_set (CPU_DATA g) 0 (mark_online c) in
  Done (mkCpus data 1).

Definition init_ap (cpu_id : nat) (g : Cpus) : outcome Cpus :=
  if (MAX_CPUS <=? cpu_id)%nat then Panicked
  else
    let! c := index (CPU_DATA g) cpu_id in
    let! data := index_set (CPU_DATA g) cpu_id (mark_online c) in
    Done (mkCpus data (wrap32 (CPU_COUNT g + 1))).

Definition get_cpu (cpu_id : nat) (g : Cpus) : outcome CpuLocal :=
  if (MAX_CPUS <=? cpu_id)%nat then Panicked else index (CPU_DATA g) cpu_id.

Fixpoint init_aps (ids : list nat) (g : Cpus) : outcome Cpus :=
  match ids with
  | [] => Done g
  | i :: rest => let! g := init_ap i g in init_aps rest g
  end.

End Percpu.

(** ** The interrupt controllers *)

(** The numbers below a bound, for case analysis by evaluation. *)
Definition below (n : nat) : list Z := Z.of_nat <$> seq 0 n.

Lemma forallb_below f n z : 0 <= z < Z.of_nat n -> forallb f (below n) = true -> f z = true.
Proof.
  intros Hz H. rewrite forallb_forall in H. apply H, list_elem_of_In, list_elem_of_fmap.
  exists (Z.to_nat z). split; [lia|]. apply elem_of_seq. lia.
Qed.

Section Interrupts.
Context {C : Type} {PC : Ports C} {BC : Board C}.

(** A controller in operation. *)
Definition running (ch : Chip) : Prop := awaiting ch = 0%nat /\ 0 <= imr ch < 256 /\ 0 <= isr ch < 256.
Definition operating (c : C) : Prop := running (master (chips c)) /\ running (slave (chips c)).

(** The vector of a line, whether the mask lets it through, and whether its
    device can interrupt: the second controller interrupts through line 2 of the
    first, so a line from 8 on needs that line unmasked too. *)
Definition vector (h : Chips) (irq : Z) : Z :=
  if irq <? 8 then offset (master h) + irq else offset (slave h) + (irq - 8).
Definition unmasked (h : Chips) (irq : Z) : bool :=
  negb (if irq <? 8 then Z.testbit (imr (master h)) irq else Z.testbit (imr (slave h)) (irq - 8)).
Definition enabled (h : Chips) (irq : Z) : bool := unmasked h irq && ((irq <? 8) || unmasked h 2).

Ltac port := rewrite chips_write by first [set_solver | lia].

Lemma init_chips c : operating c ->
  chips (Pic.init c) = mkChips (mkChip 0 32 4 1 (imr (master (chips c))) 0)
                               (mkChip 0 40 2 1 (imr (slave (chips c))) 0) (timer (chips c)).
Proof.
  intros [(Hm & Hi & _) (Hs & Hj & _)]. unfold Pic.init, Pic.io_wait.
  destruct (mask_read c Hm) as [M1 M2]. destruct (inb Pic.PIC1_DATA c) as [m1 c1] eqn:E1.
  unfold Pic.PIC1_DATA in E1. rewrite E1 in M1, M2. cbn [fst snd] in M1, M2. subst m1.
  destruct (slave_mask_read c1) as [N1 N2]; [now rewrite M2|].
  destruct (inb Pic.PIC2_DATA c1) as [m2 c2] eqn:E2.
  unfold Pic.PIC2_DATA in E2. rewrite E2 in N1, N2. cbn [fst snd] in N1, N2. subst m2. rewrite M2 in *.
  unfold Pic.PIC1_COMMAND, Pic.PIC1_DATA, Pic.PIC2_COMMAND, Pic.PIC2_DATA, Pic.ICW1_INIT, Pic.ICW4_8086.
  do 18 port. rewrite N2. reflexivity.
Qed.

(** The line of a controller an interrupt comes in on is in service. *)
Definition serving (ch : Chip) (line : Z) : Chip :=
  mkChip (awaiting ch) (offset ch) (cascade ch) (mode ch) (imr ch) (Z.lor (isr ch) (Z.shiftl 1 line)).
(** No line of at least its priority was. *)
Definition accepts (ch : Chip) (line : Z) : Prop := Z.land (isr ch) (Z.shiftl 1 (line + 1) - 1) = 0.

(** The controllers once they have sent the interrupt [irq] to the processor. *)
Definition delivered (h : Chips) (irq : Z) : Chips :=
  if irq <? 8 then mkChips (serving (master h) irq) (slave h) (timer h)
  else mkChips (serving (master h) 2) (serving (slave h) (irq - 8)) (timer h).

Lemma lowest_cleared i l : 0 <= i < 256 -> 0 <= l < 8 -> Z.land i (Z.shiftl 1 (l + 1) - 1) = 0 ->
  Z.land (Z.lor i (Z.shiftl 1 l)) (Z.lor i (Z.shiftl 1 l) - 1) = i.
Proof.
  intros Hi Hl.
  assert (forallb (fun i => forallb (fun l => implb (Z.land i (Z.shiftl 1 (l + 1) - 1) =? 0)
    (Z.land (Z.lor i (Z.shiftl 1 l)) (Z.lor i (Z.shiftl 1 l) - 1) =? i)) (below 8)) (below 256) = true)
    as H by (vm_compute; reflexivity).
  intros E%Z.eqb_eq. apply (forallb_below _ 256 i) in H; [|lia]. apply (forallb_below _ 8 l) in H; [|lia].
  cbv beta in H. rewrite E in H. now apply Z.eqb_eq in H.
Qed.

Lemma eoi_chip ch l : running ch -> 0 <= l < 8 -> accepts ch l -> chip_command (serving ch l) Pic.EOI = ch.
Proof.
  intros (_ & _ & Hi) Hl Ha. destruct ch as [a o ca mo im is']. unfold chip_command, serving, accepts in *. cbn in *.
  now rewrite lowest_cleared.
Qed.

(** The masks after a write of one of them. *)
Lemma read_mask irq c : operating c -> 0 <= irq < 16 ->
  exists c', inb (if irq <? 8 then Pic.PIC1_DATA else Pic.PIC2_DATA) c
    = (if irq <? 8 then imr (master (chips c)) else imr (slave (chips c)), c') /\ chips c' = chips c.
Proof.
  intros [(Hm & _) (Hs & _)] Hr. unfold Pic.PIC1_DATA, Pic.PIC2_DATA. destruct (irq <? 8).
  - destruct (mask_read c Hm) as [E1 E2]. destruct (inb 0x21 c) as [v c']. cbn in *. subst v. eauto.
  - destruct (slave_mask_read c Hs) as [E1 E2]. destruct (inb 0xA1 c) as [v c']. cbn in *. subst v. eauto.
Qed.

(** A write of a new mask. *)
Lemma write_mask irq v c : operating c -> 0 <= irq < 16 -> 0 <= v < 256 ->
  let c' := outb (if irq <? 8 then Pic.PIC1_DATA else Pic.PIC2_DATA) v c in
  operating c' /\ timer (chips c') = timer (chips c) /\ forall j, 0 <= j < 16 -> vector (chips c') j = vector (chips c) j
    /\ unmasked (chips c') j = if Bool.eqb (irq <? 8) (j <? 8)
                              then negb (Z.testbit v (if j <? 8 then j else j - 8)) else unmasked (chips c) j.
Proof.
  intros [(Hm & Hi & Hx) (Hs & Hj & Hy)] Hr Hv c'. unfold c', Pic.PIC1_DATA, Pic.PIC2_DATA, operating, vector, unmasked.
  destruct (irq <? 8); port; unfold port_write, chip_data; cbn; rewrite ?Hm, ?Hs; cbn;
    (split; [unfold running; cbn; auto|]); (split; [reflexivity|]); intros j Hj'; destruct (j <? 8); cbn; auto.
Qed.

Lemma mask_bit m i j : 0 <= m < 256 -> 0 <= i < 8 -> 0 <= j < 8 ->
  (0 <= Z.land m (not8 (Z.shiftl 1 i)) < 256 /\ 0 <= Z.lor m (Z.shiftl 1 i) < 256)
  /\ Z.testbit (Z.land m (not8 (Z.shiftl 1 i))) j = Z.testbit m j && negb (j =? i)
  /\ Z.testbit (Z.lor m (Z.shiftl 1 i)) j = Z.testbit m j || (j =? i).
Proof.
  intros Hm Hi Hj.
  assert (forallb (fun m => forallb (fun i => (0 <=? Z.land m (not8 (Z.shiftl 1 i))) && (Z.land m (not8 (Z.shiftl 1 i)) <? 256)
    && (0 <=? Z.lor m (Z.shiftl 1 i)) && (Z.lor m (Z.shiftl 1 i) <? 256) && forallb (fun j =>
      Bool.eqb (Z.testbit (Z.land m (not8 (Z.shiftl 1 i))) j) (Z.testbit m j && negb (j =? i))
      && Bool.eqb (Z.testbit (Z.lor m (Z.shiftl 1 i)) j) (Z.testbit m j || (j =? i))) (below 8)) (below 8)) (below 256) = true)
    as H by (vm_compute; reflexivity).
  apply (forallb_below _ 256 m) in H; [|lia]. apply (forallb_below _ 8 i) in H; [|lia].
  cbv beta in H. rewrite !andb_true_iff in H. destruct H as ((((H1 & H2) & H3) & H4) & H). apply (forallb_below _ 8 j) in H; [|lia].
  rewrite !andb_true_iff, !eqb_true_iff in H. split; [lia|]. exact H.
Qed.

Lemma line_unmasked h irq j : 0 <= irq < 16 -> 0 <= j < 16 ->
  0 <= imr (master h) < 256 -> 0 <= imr (slave h) < 256 ->
  let value := if irq <? 8 then irq else irq - 8 in
  let mask := if irq <? 8 then imr (master h) else imr (slave h) in
  let bit v := if Bool.eqb (irq <? 8) (j <? 8) then negb (Z.testbit v (if j <? 8 then j else j - 8)) else unmasked h j in
  bit (Z.land mask (not8 (Z.shiftl 1 value))) = (j =? irq) || unmasked h j
  /\ bit (Z.lor mask (Z.shiftl 1 value)) = negb (j =? irq) && unmasked h j.
Proof.
  intros Hr Hj Hm Hs value mask bit. unfold bit, unmasked.
  assert (0 <= value < 8) as Hv by (unfold value; destruct (Z.ltb_spec irq 8); lia).
  assert (0 <= mask < 256) as Hk by (unfold mask; destruct (irq <? 8); lia).
  assert (0 <= (if j <? 8 then j else j - 8) < 8) as Hjj by (destruct (Z.ltb_spec j 8); lia).
  destruct (mask_bit mask value _ Hk Hv Hjj) as (_ & -> & ->). unfold value, mask.
  destruct (Z.ltb_spec irq 8), (Z.ltb_spec j 8); cbn [Bool.eqb].
  4: replace (j - 8 =? irq - 8) with (j =? irq) by lia.
  1,4: destruct (j =? irq), (Z.testbit _ _); split; reflexivity.
  all: replace (j =? irq) with false by lia; split; reflexivity.
Qed.

Lemma init_lines c : operating c ->
  operating (Pic.init c) /\ forall j, 0 <= j < 16 ->
    vector (chips (Pic.init c)) j = 32 + j /\ unmasked (chips (Pic.init c)) j = unmasked (chips c) j.
Proof.
  intros Hop. pose proof Hop as [(Hm & Hi & Hx) (Hs & Hj & Hy)]. unfold operating. rewrite init_chips by assumption. split; [repeat split; cbn; lia|].
  intros j Hj'. unfold vector, unmasked. cbn. destruct (Z.ltb_spec j 8); split; lia || reflexivity.
Qed.

Lemma line_switched c irq : operating c -> 0 <= irq < 16 ->
  (exists c', Pic.unmask_irq irq c = Done c' /\ operating c' /\ timer (chips c') = timer (chips c) /\ forall j, 0 <= j < 16 ->
     vector (chips c') j = vector (chips c) j /\ unmasked (chips c') j = (j =? irq) || unmasked (chips c) j)
  /\ exists c', Pic.mask_irq irq c = Done c' /\ operating c' /\ timer (chips c') = timer (chips c) /\ forall j, 0 <= j < 16 ->
     vector (chips c') j = vector (chips c) j /\ unmasked (chips c') j = negb (j =? irq) && unmasked (chips c) j.
Proof.
  intros Hop Hr. pose proof Hop as [(Hm & Hi & Hx) (Hs & Hj & Hy)].
  unfold Pic.unmask_irq, Pic.mask_irq. replace (irq <? 16) with true by lia. cbn [rust_assert bind].
  destruct (read_mask irq c Hop Hr) as (c1 & -> & Hc1). assert (operating c1) as Hop1 by (unfold operating; now rewrite Hc1).
  set (value := if irq <? 8 then irq else irq - 8). set (mask := if irq <? 8 then imr _ else imr _).
  assert (0 <= value < 8) as Hv by (unfold value; destruct (Z.ltb_spec irq 8); lia).
  assert (0 <= mask < 256) as Hk by (unfold mask; destruct (irq <? 8); lia).
  destruct (mask_bit mask value 0 Hk Hv ltac:(lia)) as [[B1 B2] _].
  destruct (write_mask irq _ c1 Hop1 Hr B1) as (O1 & T1 & W1). destruct (write_mask irq _ c1 Hop1 Hr B2) as (O2 & T2 & W2).
  rewrite Hc1 in *. split; (eexists; split; [reflexivity|]; split; [assumption|]; split; [assumption|]; intros j Hj').
  - destruct (W1 j Hj') as [-> ->]. split; [reflexivity|]. now apply line_unmasked.
  - destruct (W2 j Hj') as [-> ->]. split; [reflexivity|]. now apply line_unmasked.
Qed.

(** What the devices see of it. *)
Lemma unmasked_enabled h h' irq : (forall j, 0 <= j < 16 -> unmasked h' j = (j =? irq) || unmasked h j) ->
  forall j, 0 <= j < 16 -> enabled h' j = ((j =? irq) || unmasked h j) && ((j <? 8) || (irq =? 2) || unmasked h 2).
Proof. intros H j Hj. unfold enabled. rewrite !H by lia. now rewrite (Z.eqb_sym 2), orb_assoc. Qed.

Lemma masked_enabled h h' irq : (forall j, 0 <= j < 16 -> unmasked h' j = negb (j =? irq) && unmasked h j) ->
  forall j, 0 <= j < 16 -> enabled h' j = negb ((j =? irq) || ((8 <=? j) && (irq =? 2))) && enabled h j.
Proof.
  intros H j Hj. unfold enabled. rewrite !H by lia. rewrite (Z.eqb_sym 2).
  destruct (Z.ltb_spec j 8), (Z.leb_spec 8 j); try lia; destruct (j =? irq), (irq =? 2), (unmasked h j), (unmasked h 2); reflexivity.
Qed.

(** A line of the first controller other than that to the second. *)
Lemma master_enabled h h' irq : 0 <= irq < 8 -> irq <> 2 -> (forall j, 0 <= j < 16 -> unmasked h' j = (j =? irq) || unmasked h j) ->
  forall j, 0 <= j < 16 -> enabled h' j = (j =? irq) || enabled h j.
Proof.
  intros Hr Hn H j Hj. rewrite (unmasked_enabled h h' irq H j Hj). unfold enabled. replace (irq =? 2) with false by lia.
  destruct (Z.eqb_spec j irq) as [->|]; [|now destruct (j <? 8)]. now replace (irq <? 8) with true by lia.
Qed.

(** C39: The lines of the interrupt controllers. Once the controllers are
    initialised the sixteen lines interrupt with the vectors from 32, which are
    not those of processor exceptions, and exactly the lines that were unmasked
    are, and the same devices can interrupt.  Then [unmask_irq] clears the mask
    of its line and [mask_irq] sets it, and each leaves every other mask and all
    vectors as they were.  For the devices: unmasking a line of the second
    controller is of effect only while line 2 of the first, to which the second
    is wired, is unmasked, and unmasking line 2 also lets through the unmasked
    lines from 8 on; masking line 2 silences all the lines from 8 on; any other
    line is switched by itself. *)
Theorem interrupt_lines c irq :
  operating c -> 0 <= irq < 16 ->
  (operating (Pic.init c) /\ forall j, 0 <= j < 16 ->
     vector (chips (Pic.init c)) j = 32 + j /\ unmasked (chips (Pic.init c)) j = unmasked (chips c) j
     /\ enabled (chips (Pic.init c)) j = enabled (chips c) j)
  /\ (exists c', Pic.unmask_irq irq c = Done c' /\ operating c' /\ forall j, 0 <= j < 16 ->
       vector (chips c') j = vector (chips c) j /\ unmasked (chips c') j = (j =? irq) || unmasked (chips c) j
       /\ enabled (chips c') j = ((j =? irq) || unmasked (chips c) j) && ((j <? 8) || (irq =? 2) || unmasked (chips c) 2))
  /\ exists c', Pic.mask_irq irq c = Done c' /\ operating c' /\ forall j, 0 <= j < 16 ->
       vector (chips c') j = vector (chips c) j /\ unmasked (chips c') j = negb (j =? irq) && unmasked (chips c) j
       /\ enabled (chips c') j = negb ((j =? irq) || ((8 <=? j) && (irq =? 2))) && enabled (chips c) j.
Proof.
  intros Hop Hr. destruct (init_lines c Hop) as [Oi Hi].
  destruct (line_switched c irq Hop Hr) as [(c1 & E1 & O1 & _ & H1) (c2 & E2 & O2 & _ & H2)]. split; [|split].
  - split; [exact Oi|]. intros j Hj. destruct (Hi j Hj) as [Ev Eu]. do 2 (split; [assumption|]).
    unfold enabled. rewrite Eu. f_equal. f_equal. now apply Hi.
  - exists c1. do 2 (split; [assumption|]). intros j Hj. do 2 (split; [now apply H1|]).
    apply (unmasked_enabled _ _ irq); [intros i Hi'; now apply H1|exact Hj].
  - exists c2. do 2 (split; [assumption|]). intros j Hj. do 2 (split; [now apply H2|]).
    apply (masked_enabled _ _ irq); [intros i Hi'; now apply H2|exact Hj].
Qed.

(** The end of an interrupt. When the controllers have sent an interrupt and
    its handler signals the end, the lines in service are those of before, on
    both controllers: the line can interrupt again, and nothing else that was in
    service is lost. *)
Theorem eoi_ends_interrupt c h irq :
  0 <= irq < 16 -> running (master h) -> running (slave h) ->
  accepts (master h) (if irq <? 8 then irq else 2) -> (8 <= irq -> accepts (slave h) (irq - 8)) ->
  chips c = delivered h irq ->
  exists c', Pic.send_eoi irq c = Done c' /\ chips c' = h.
Proof.
  intros Hr Hm Hs Ha Hb Hc. unfold Pic.send_eoi. replace (irq <? 16) with true by lia. cbn [rust_assert bind].
  eexists. split; [reflexivity|]. unfold Pic.PIC1_COMMAND, Pic.PIC2_COMMAND, Pic.EOI, delivered in *.
  destruct (Z.ltb_spec irq 8) as [Hl|Hl].
  - replace (8 <=? irq) with false by lia. port. rewrite Hc. unfold port_write. cbn [Z.eqb Pos.eqb master slave timer].
    change (chip_command ?x 0x20) with (chip_command x Pic.EOI). rewrite eoi_chip by (assumption || lia). now destruct h.
  - replace (8 <=? irq) with true by lia. do 2 port. rewrite Hc. unfold port_write. cbn [Z.eqb Pos.eqb master slave timer].
    change (chip_command ?x 0x20) with (chip_command x Pic.EOI). rewrite !eoi_chip by (assumption || lia || (apply Hb; lia)). now destruct h.
Qed.

(** The timer. [init] panics exactly for frequencies below 19 or above the
    base frequency; otherwise the timer divides the base frequency by the
    largest divisor whose rate is at least the one asked for. *)
Theorem timer_rate c f : 0 <= f ->
  (19 <= f <= Pit.PIT_BASE_FREQUENCY ->
   exists c' d, Pit.init f c = Done c' /\ chips c' = mkChips (master (chips c)) (slave (chips c)) (mkTimer 0x36 None d)
     /\ 1 <= d <= 65535 /\ d * f <= Pit.PIT_BASE_FREQUENCY < (d + 1) * f)
  /\ (~ 19 <= f <= Pit.PIT_BASE_FREQUENCY -> Pit.init f c = Panicked).
Proof.
  intros Hf. unfold Pit.init, Pit.PIT_BASE_FREQUENCY. split.
  - intros Hr. replace (0 <? f) with true by lia. replace (f <=? 1193182) with true by lia. cbn [rust_assert bind].
    set (d := 1193182 / f). assert (d * f <= 1193182 < (d + 1) * f) as Hd by (unfold d; nia).
    assert (1 <= d <= 65535) as Hb by nia. replace (d <=? 65535) with true by lia. cbn [rust_assert bind].
    eexists _, d. split; [reflexivity|]. split; [|auto].
    change 0xFF with (Z.ones 8). rewrite Z.land_ones, Z.shiftr_div_pow2 by lia. unfold wrap8.
    unfold Pit.PIT_CHANNEL_0, Pit.PIT_COMMAND, Pit.PIT_CMD_BINARY_MODE_RATE_GEN. do 3 port.
    unfold port_write. cbn. do 2 f_equal. rewrite (Z.mod_small (_ / _)) by lia. lia.
  - intros Hr. destruct (Z.ltb_spec 0 f); [|reflexivity]. destruct (Z.leb_spec f 1193182); [|reflexivity].
    cbn [rust_assert bind]. assert (65536 <= 1193182 / f) as Hd by (apply Z.div_le_lower_bound; lia).
    now replace (1193182 / f <=? 65535) with false by lia.
Qed.

End Interrupts.

(** A board that is its chips. *)
#[export] Instance chips_ports : Ports Chips := {
  inb p h := (if p =? 0x21 then imr (master h) else if p =? 0xA1 then imr (slave h) else 0, h);
  outb := port_write
}.
#[export] Instance chips_board : Board Chips.
Proof. now refine {| chips := fun h => h |}. Defined.

(** After the firmware: vectors 8 and 112, the keyboard enabled, the clock in service. *)
Definition firmware : Chips :=
  mkChips (mkChip 0 8 4 1 0xB8 0) (mkChip 0 112 2 1 0x8F 0) (mkTimer 0x36 None 0).

Lemma interrupt_lines_witness :
  enabled firmware 14 = true
  /\ exists c', Pic.mask_irq 2 firmware = Done c' /\ unmasked c' 14 = true /\ enabled c' 14 = false.
Proof.
  split; [reflexivity|].
  destruct (interrupt_lines firmware 2) as (_ & _ & (c' & E & _ & Hj)); [repeat split; cbn; lia|lia|].
  exists c'. split; [exact E|]. destruct (Hj 14 ltac:(lia)) as (_ & Hu & He). split; [exact Hu|exact He].
Defined.

Lemma eoi_ends_interrupt_witness :
  exists c', Pic.send_eoi 14 (delivered firmware 14) = Done c' /\ chips c' = firmware.
Proof.
  apply (eoi_ends_interrupt (delivered firmware 14) firmware 14); try reflexivity; try lia; repeat split; cbn; lia.
Defined.

Lemma timer_rate_witness :
  exists c' d, Pit.init 100 firmware = Done c' /\ chips c' = mkChips (master (chips firmware)) (slave (chips firmware)) (mkTimer 0x36 None d)
    /\ 1 <= d <= 65535 /\ d * 100 <= Pit.PIT_BASE_FREQUENCY < (d + 1) * 100.
Proof. apply (timer_rate firmware 100); [lia|]. unfold Pit.PIT_BASE_FREQUENCY. lia. Defined.

(** ** The selectors of the system-call instruction *)

Module Sysret.
Import Segments.

(** What the crate documents: [append] gives the next free index with the
    privilege level of the descriptor, after the null descriptor; and
    [Star::write] refuses selectors that [sysret] cannot load, whose data selector
    is not 8 below the code selector, without writing the register. *)
Definition privilege (d : Descriptor) : Z :=
  match d with user_code_segment | user_data_segment => 3 | _ => 0 end.

Class Documented `{Crate} : Type := {
  next_index : Table -> Z;
  new_index : next_index table_new = 1;
  append_selector : forall d t, fst (append d t) = 8 * next_index t + privilege d;
  append_index : forall d t, d <> tss_segment -> next_index (snd (append d t)) = next_index t + 1;
  sysret_offset : forall cs ss kcs kss m, cs - 16 <> ss - 8 ->
    exists e, star_write cs ss kcs kss m = (Err e, m)
}.

Section Selectors.
Context `{Documented}.

Lemma selectors_at : gdt_init = mkSelectors 0x08 0x10 0x1B 0x23 (tss gdt_init).
Proof.
  unfold gdt_init. destruct (append kernel_code_segment table_new) as [s1 t1] eqn:E1.
  destruct (append kernel_data_segment t1) as [s2 t2] eqn:E2. destruct (append user_code_segment t2) as [s3 t3] eqn:E3.
  destruct (append user_data_segment t3) as [s4 t4] eqn:E4. destruct (append tss_segment t4) as [s5 t5].
  pose proof (append_selector kernel_code_segment table_new) as S1. pose proof (append_index kernel_code_segment table_new ltac:(easy)) as I1.
  pose proof (append_selector kernel_data_segment t1) as S2. pose proof (append_index kernel_data_segment t1 ltac:(easy)) as I2.
  pose proof (append_selector user_code_segment t2) as S3. pose proof (append_index user_code_segment t2 ltac:(easy)) as I3.
  pose proof (append_selector user_data_segment t3) as S4.
  rewrite ?E1, ?E2, ?E3, ?E4 in *. cbn [fst snd privilege] in *. rewrite new_index in *. cbn [tss]. f_equal; lia.
Qed.

(** The register of [sysret] is never written. [gdt::init] puts the user's
    code segment before its data segment, and [Star::write] refuses that order;
    [init_syscall] ignores the error and enables system calls. With the
    register as it is at reset, [sysretq] returns to the program with the
    selector of the kernel's data segment instead of the user's code segment. *)
Theorem star_is_not_written entry m :
  star (init_syscall entry gdt_init m) = star m
  /\ system_call_extensions (init_syscall entry gdt_init m) = true
  /\ (star m = 0 -> sysret_cs (star (init_syscall entry gdt_init m)) = Z.lor (kernel_data gdt_init) 3
                    /\ sysret_cs (star (init_syscall entry gdt_init m)) <> user_code gdt_init).
Proof.
  rewrite selectors_at. unfold init_syscall. cbn [user_code user_data kernel_code kernel_data].
  destruct (sysret_offset 0x1B 0x23 0x08 0x10 m ltac:(lia)) as (e & ->). cbn [star system_call_extensions].
  split; [reflexivity|]. split; [reflexivity|]. intros ->. split; [reflexivity|discriminate].
Qed.

End Selectors.

(** The crate's own check, written out. *)
#[local] Instance crate : Crate := {
  Table := Z;
  table_new := 1;
  append d t := (8 * t + privilege d, t + match d with tss_segment => 2 | _ => 1 end);
  star_write cs ss kcs kss m :=
    if negb (cs - 16 =? ss - 8) then (Err "SysretOffset"%string, m)
    else if negb (kcs =? kss - 8) then (Err "SyscallOffset"%string, m)
    else (Ok tt, mkMsrs (Z.lor (Z.shiftl (ss - 8) 48) (Z.shiftl kcs 32)) (lstar m) (sfmask m) (system_call_extensions m))
}.
#[local] Instance crate_documented : Documented.
Proof.
  refine {| next_index := fun t : @Table crate => t |}; try reflexivity.
  - intros [] t Hd; try reflexivity. easy.
  - intros cs ss kcs kss m Hne. exists "SysretOffset"%string. cbn. now replace (cs - 16 =? ss - 8) with false by lia.
Defined.

Lemma star_is_not_written_witness :
  star (init_syscall 0xFFFF800000001000 gdt_init (mkMsrs 0 0 0 false)) = 0
  /\ sysret_cs (star (init_syscall 0xFFFF800000001000 gdt_init (mkMsrs 0 0 0 false))) = 0x13.
Proof.
  destruct (star_is_not_written 0xFFFF800000001000 (mkMsrs 0 0 0 false)) as (E & _ & _).
  split; [exact E|]. rewrite E. reflexivity.
Defined.

End Sysret.

(** ** Boot phases *)

Module PhasesFacts.
Import Phases.

(** The order of boot is a matter of types. A program that the compiler accepts
    can enable interrupts only when the serial line and the screen, memory and
    interrupts were initialised, each once and in this order. *)
Theorem boot_order (s : KernelState PhaseFullyInit) :
  enable_interrupts s = [SerialInit; VgaInit; MemoryPhase; InterruptsPhase; Finalized; InterruptsEnabled].
Proof.
  unfold enable_interrupts.
  assert (forall p (s : KernelState p), actions s = take (match p with
    | PhaseEarlyBoot => 0 | PhaseHalInit => 2 | PhaseMemoryInit => 3 | PhaseInterruptsInit => 4 | PhaseFullyInit => 5
    end) [SerialInit; VgaInit; MemoryPhase; InterruptsPhase; Finalized]) as H.
  { intros p s'. induction s'; cbn [actions]; rewrite ?IHs'; reflexivity. }
  now rewrite H.
Qed.

End PhasesFacts.

(** ** The watchdog *)

Module WatchdogFacts.
Import Watchdog.

Lemma ticks_spec n : forall w k, WATCHDOG_ACTIVE w = true -> WATCHDOG_TICKS w = Z.of_nat k ->
  Z.of_nat (k + n) <= U32_MAX ->
  exists w', ticks n w = Done ((fun i => WATCHDOG_TIMEOUT w <=? Z.of_nat i) <$> seq (S k) n, w').
Proof.
  induction n as [|n IH]; intros w k Ha Hk Hn; cbn [ticks]; [now exists w|].
  unfold tick. rewrite Ha, Hk. cbn [negb]. replace (U32_MAX <? Z.of_nat k + 1) with false by lia. cbn [bind].
  destruct (IH (mkWatchdog (WATCHDOG_TIMEOUT w) (wrap32 (Z.of_nat k + 1)) true) (S k)) as (w' & E).
  - reflexivity.
  - cbn. unfold wrap32, U32_MAX in *. rewrite Z.mod_small by lia. lia.
  - lia.
  - cbn in E. cbn [WATCHDOG_TIMEOUT]. rewrite E. cbn [bind]. exists w'. cbn [seq fmap list_fmap]. do 3 f_equal; lia.
Qed.

(** The watchdog. After [start] with a timeout, exactly the ticks from that
    number on report it; after [stop], none does. *)
Theorem watchdog_fires w timeout n :
  Z.of_nat n <= U32_MAX ->
  (exists w', ticks n (start timeout w) = Done ((fun i => timeout <=? Z.of_nat i) <$> seq 1 n, w'))
  /\ ticks n (stop (start timeout w)) = Done (replicate n false, stop (start timeout w)).
Proof.
  intros Hn. split; [now apply (ticks_spec n (start timeout w) 0)|].
  clear Hn. induction n as [|n IH]; [reflexivity|]. cbn [ticks]. change (tick (stop (start timeout w)))
    with (Done (false, stop (start timeout w))). cbn [bind]. now rewrite IH.
Qed.

Lemma watchdog_fires_witness : exists w', ticks 4 (start 3 (mkWatchdog 0 0 false)) = Done ([false; false; true; true], w').
Proof. apply (watchdog_fires (mkWatchdog 0 0 false) 3 4). unfold U32_MAX. lia. Defined.

End WatchdogFacts.

(** ** The log of boot steps *)

Module BootLogFacts.
Import BootLog.

(** The log after the steps [l]. *)
Definition logged (b : BootLog) (l : list Z) : Prop :=
  CURRENT_STEP b = Z.of_nat (length l) /\ length (BOOT_STEP_HISTORY b) = MAX_BOOT_STEPS
  /\ forall i, (length l - MAX_BOOT_STEPS <= i < length l)%nat -> BOOT_STEP_HISTORY b !! (i mod MAX_BOOT_STEPS)%nat = l !! i.

Lemma record_logged b l s : logged b l -> Z.of_nat (S (length l)) <= U32_MAX ->
  exists b', record_boot_step s b = Done b' /\ logged b' (l ++ [s]).
Proof.
  intros (Hc & Hl & Hh) Hn. unfold record_boot_step. rewrite Hc, Nat2Z.id.
  assert (length l mod MAX_BOOT_STEPS < length (BOOT_STEP_HISTORY b))%nat as Hi by (rewrite Hl; apply Nat.mod_upper_bound; easy).
  rewrite index_set_lt by exact Hi. cbn [bind]. eexists. split; [reflexivity|].
  unfold logged. cbn [CURRENT_STEP BOOT_STEP_HISTORY]. rewrite length_app, length_insert. cbn [length].
  split; [unfold wrap32, U32_MAX in *; rewrite Z.mod_small; lia|]. split; [assumption|]. intros i Hr.
  destruct (decide (i = length l)) as [->|Hne].
  - rewrite list_lookup_insert_eq by exact Hi. now rewrite list_lookup_middle.
  - rewrite list_lookup_insert_ne, lookup_app_l by (lia || (unfold MAX_BOOT_STEPS in *; lia)). apply Hh. lia.
Qed.

Lemma record_all_logged l : forall b done, logged b done -> Z.of_nat (length done + length l) <= U32_MAX ->
  exists b', record_all l b = Done b' /\ logged b' (done ++ l).
Proof.
  induction l as [|s l IH]; intros b done Hb Hn; cbn [record_all length] in *.
  - exists b. now rewrite app_nil_r.
  - destruct (record_logged b done s Hb) as (b1 & -> & Hb1); [lia|]. cbn [bind].
    destruct (IH b1 (done ++ [s]) Hb1) as (b2 & E & Hb2); [rewrite length_app; cbn; lia|].
    exists b2. rewrite <- app_assoc in Hb2. auto.
Qed.

Lemma loop_logged b l count n : forall i out, logged b l -> (count <= length l)%nat -> (count <= MAX_BOOT_STEPS)%nat ->
  (i + n = count)%nat -> (count <= length out)%nat ->
  last_steps_loop b (length l) count i n out
  = Done (take i out ++ sub_slice l (length l - count + i) (length l) ++ drop count out).
Proof.
  induction n as [|n IH]; intros i out Hb Hcl Hcm Hi Ho; cbn [last_steps_loop].
  - replace i with count by lia. replace (length l - count + count)%nat with (length l) by lia.
    unfold sub_slice. rewrite Nat.sub_diag, take_0. cbn. now rewrite take_drop.
  - destruct (lookup_lt_is_Some_2 l (length l - (count - i))%nat ltac:(lia)) as [x Hx].
    destruct Hb as (Hc & Hl & Hh). pose proof (Hh (length l - (count - i))%nat ltac:(lia)) as Hk. rewrite Hx in Hk.
    unfold index. rewrite Hk. cbn [bind]. rewrite index_set_lt by lia. cbn [bind].
    rewrite (IH (S i)) by (auto; rewrite ?length_insert; try lia; now repeat split).
    f_equal. replace (length l - (count - i))%nat with (length l - count + i)%nat in Hx by lia.
    rewrite (take_S_r _ i x) by (apply list_lookup_insert_eq; lia).
    rewrite take_insert_ge, drop_insert_lt by lia. rewrite <- app_assoc. f_equal. cbn [app].
    unfold sub_slice. rewrite (drop_S l x (length l - count + i)) by exact Hx.
    replace (length l - (length l - count + i))%nat with (S (length l - (length l - count + S i))) by lia.
    cbn [take app]. now rewrite Nat.add_succ_r.
Qed.

(** The log. Whatever steps were recorded, [get_last_steps] puts the last of
    them, as many as fit in its buffer and at most 32, into the buffer in the
    order they were recorded, and leaves the rest of the buffer alone. *)
Theorem last_steps_recorded l out b : Z.of_nat (length l) <= U32_MAX -> record_all l initial = Done b ->
  let count := Nat.min (Nat.min (length out) (length l)) 32 in
  get_last_steps out b = Done (count, drop (length l - count) l ++ drop count out).
Proof.
  intros Hn E count. destruct (record_all_logged l initial []) as (b' & E' & Hb).
  { split; [reflexivity|]. split; [reflexivity|]. cbn. lia. }
  { cbn. lia. }
  rewrite E in E'. apply Done_inj in E' as <-. cbn [app] in Hb. unfold get_last_steps.
  destruct Hb as (Hc & Hb). rewrite Hc, Nat2Z.id. change MAX_BOOT_STEPS with 32%nat. fold count.
  rewrite (loop_logged b l count count 0 out) by (unfold MAX_BOOT_STEPS, count in *; try lia; now split).
  cbn [bind]. unfold sub_slice. rewrite Nat.add_0_r, take_0, (take_ge (drop _ l)); [reflexivity|]. rewrite length_drop. lia.
Qed.

Lemma last_steps_recorded_witness : exists b, record_all (below 40) initial = Done b
  /\ get_last_steps (replicate 4 0) b = Done (4%nat, [36; 37; 38; 39]).
Proof.
  eexists. split; [vm_compute; reflexivity|].
  exact (last_steps_recorded (below 40) (replicate 4 0) _ ltac:(unfold U32_MAX; cbn; lia) ltac:(vm_compute; reflexivity)).
Defined.

End BootLogFacts.

(** ** Per-processor data *)

Module PercpuFacts.
Import Percpu.

(** The processors of [ids] were started, one after the other. *)
Lemma init_aps_spec ids : forall g, length (CPU_DATA g) = MAX_CPUS -> Forall (fun i => i < MAX_CPUS)%nat ids ->
  exists g', init_aps ids g = Done g' /\ length (CPU_DATA g') = MAX_CPUS
    /\ (CPU_COUNT g + Z.of_nat (length ids) <= U32_MAX -> 0 <= CPU_COUNT g -> CPU_COUNT g' = CPU_COUNT g + Z.of_nat (length ids))
    /\ forall j c, CPU_DATA g !! j = Some c ->
         CPU_DATA g' !! j = Some (if bool_decide (j ∈ ids) then mark_online c else c).
Proof.
  induction ids as [|i ids IH]; intros g Hl Hi; cbn [init_aps].
  { exists g. split; [reflexivity|]. split; [assumption|]. split; [cbn; lia|]. intros j c ->. reflexivity. }
  inversion_clear Hi as [|? ? Hi0 Hi']. unfold init_ap. apply Nat.leb_gt in Hi0 as Hlt. rewrite Hlt.
  destruct (lookup_lt_is_Some_2 (CPU_DATA g) i ltac:(lia)) as [c0 H0].
  unfold index. rewrite H0. cbn [bind]. rewrite index_set_lt by lia. cbn [bind].
  destruct (IH (mkCpus (<[i:=mark_online c0]> (CPU_DATA g)) (wrap32 (CPU_COUNT g + 1)))) as (g' & E & Hl' & Hc & Hd);
    [cbn; now rewrite length_insert|assumption|].
  exists g'. split; [exact E|]. split; [exact Hl'|]. cbn [CPU_COUNT CPU_DATA length] in *. split.
  - intros Hb Hp. unfold wrap32, U32_MAX in *. rewrite Z.mod_small in Hc by lia. rewrite Hc; lia.
  - intros j c Hj. destruct (decide (j = i)) as [->|Hne].
    + rewrite (Hd i (mark_online c0)) by (apply list_lookup_insert_eq; lia).
      rewrite H0 in Hj. injection Hj as <-. rewrite (bool_decide_eq_true_2 (i ∈ i :: ids)) by apply list_elem_of_here.
      now destruct (bool_decide _).
    + rewrite (Hd j c) by now rewrite list_lookup_insert_ne.
      now rewrite (bool_decide_ext (j ∈ i :: ids) (j ∈ ids)) by set_solver.
Qed.

(** Starting the processors. After the first processor and the others of [ids],
    each once, are started, exactly they are online, and the count is their
    number; a processor number out of range panics. *)
Theorem started_processors_online ids : NoDup ids -> Forall (fun i => 1 <= i < MAX_CPUS)%nat ids ->
  exists g, (let! g := init_bsp initial in init_aps ids g) = Done g
    /\ CPU_COUNT g = Z.of_nat (S (length ids))
    /\ forall j, match get_cpu j g with
                 | Done c => cpu_id c = Z.of_nat j /\ is_online c = bool_decide (j = 0%nat \/ j ∈ ids)
                 | Panicked => (MAX_CPUS <= j)%nat
                 end.
Proof.
  intros Hnd Hi. unfold init_bsp. change (index (CPU_DATA initial) 0) with (Done (new 0)). cbn [bind].
  rewrite index_set_lt by (cbn; lia). cbn [bind].
  destruct (init_aps_spec ids (mkCpus (<[0%nat:=mark_online (new 0)]> (CPU_DATA initial)) 1)) as (g & E & Hl & Hc & Hd);
    [reflexivity|eapply Forall_impl; [exact Hi|intros ? [_ ?]; assumption]|].
  assert (length ids <= 7)%nat as Hn.
  { rewrite <- (length_seq 7 1). apply submseteq_length, NoDup_submseteq; [exact Hnd|]. intros x Hx.
    rewrite Forall_forall in Hi. specialize (Hi x Hx). apply elem_of_seq. unfold MAX_CPUS in Hi. lia. }
  exists g. split; [exact E|]. split; [rewrite Hc; cbn; unfold U32_MAX; lia|]. intros j. unfold get_cpu.
  destruct (Nat.leb_spec MAX_CPUS j) as [|Hj]; [assumption|]. unfold index.
  rewrite (Hd j (if decide (j = 0%nat) then mark_online (new 0) else new (Z.of_nat j))).
  - case_decide as H0; subst.
    + rewrite (bool_decide_eq_true_2 (0%nat = 0%nat \/ _)) by auto. now destruct (bool_decide _).
    + destruct (bool_decide_reflect (j ∈ ids)); [rewrite bool_decide_eq_true_2 by auto|rewrite bool_decide_eq_false_2 by naive_solver];
        now split.
  - cbn [CPU_DATA]. unfold MAX_CPUS in Hj. do 8 (destruct j as [|j]; [reflexivity|]). lia.
Qed.

Lemma started_processors_online_witness :
  exists g, (let! g := init_bsp initial in init_aps [2; 1]%nat g) = Done g /\ CPU_COUNT g = 3.
Proof.
  destruct (started_processors_online [2; 1]%nat) as (g & E & Hc & _).
  - apply NoDup_ListNoDup. repeat constructor; cbn; lia.
  - unfold MAX_CPUS. repeat constructor; lia.
  - exists g. split; [exact E|exact Hc].
Defined.

(** Preemption is disabled as often as it is enabled again: after [n]
    [preempt_disable], exactly [n] [preempt_enable] give the processor back
    preemptible, and one more panics. *)
Theorem preemption_nests c n : preempt_count c = 0 -> Z.of_nat n <= U32_MAX ->
  let held := Nat.iter n preempt_disable c in
  is_preempt_disabled held = (0 <? n)%nat
  /\ Nat.iter n (fun m => let! c := m in preempt_enable c) (Done held) = Done c
  /\ preempt_enable c = Panicked.
Proof.
  intros H0 Hn held.
  assert (forall k, (k <= n)%nat -> Nat.iter k preempt_disable c
    = mkCpu (cpu_id c) (current_pid c) (Z.of_nat k) (online c)) as Hk.
  { induction k as [|k IH]; intros Hle; [destruct c; cbn in *; now subst|].
    rewrite Nat.iter_succ, IH by lia. unfold preempt_disable, wrap32, U32_MAX in *. cbn. rewrite Z.mod_small by lia. f_equal. lia. }
  assert (forall k, (k <= n)%nat -> Nat.iter k (fun m => let! c := m in preempt_enable c) (Done held)
    = Done (mkCpu (cpu_id c) (current_pid c) (Z.of_nat (n - k)) (online c))) as He.
  { induction k as [|k IH]; intros Hle; [cbn [Nat.iter nat_rect]; unfold held; now rewrite Hk, Nat.sub_0_r by lia|].
    rewrite Nat.iter_succ, IH by lia. cbn [bind]. unfold preempt_enable. cbn [preempt_count cpu_id current_pid online].
    replace (Z.of_nat (n - k) =? 0) with false by lia. do 2 f_equal. lia. }
  split; [unfold held; rewrite Hk by lia; unfold is_preempt_disabled; now destruct n|].
  split; [rewrite He, Nat.sub_diag by lia; destruct c; cbn in *; now subst|]. unfold preempt_enable. now rewrite H0.
Qed.

End PercpuFacts.
