(* ===== verification/ExecStack.v ===== *)
(** * The initial user stack of execve (src/kernel/src/exec_stack.rs)

    [setup_user_stack] writes the strings, the auxiliary vector and the
    pointer arrays of a new program below the top of its stack; [parse_argv]
    and [parse_envp] read such arrays from the memory of the caller.  The
    memory is that of [UserMem]; [u64] arithmetic that would overflow panics.
    The theorems give the exact layout, that it stays within the four pages of
    the stack, and that what is parsed back is what was written. *)

From S2P Require Import Prelude Abi Bytes Utf8 UserMem.
Import Abi Bytes UserMem.

Module ExecStack.

Definition MAX_ARGC : nat := 64.
Definition MAX_ENVC : nat := 64.
Definition MAX_STRLEN : nat := 256.
Definition MAX_TOTAL_BYTES : nat := 32 * 1024.

Inductive AuxvType : Type :=
  | Null | Phdr | Phent | Phnum | Pagesz | Entry | Uid | Euid | Gid | Egid | Random | Execfn.

Definition auxv_num (t : AuxvType) : Z :=
  match t with
  | Null => 0 | Phdr => 3 | Phent => 4 | Phnum => 5 | Pagesz => 6 | Entry => 9
  | Uid => 11 | Euid => 12 | Gid => 13 | Egid => 14 | Random => 25 | Execfn => 31
  end.

Section Stack.
Context {M : Type} {UB : UserBytes M}.

Notation stack T := (stm M ErrorCode T).

(** [a + b] and [a - b] on [u64]. *)
Definition sadd (a b : Z) : stack Z := if a + b <=? U64_MAX then sret (a + b) else spanic.
Definition ssub (a b : Z) : stack Z := if b <=? a then sret (a - b) else spanic.

(** [read_user_string]. *)
Fixpoint read_string_loop (ptr : Z) (i n : nat) (bytes : list Z) : stack (list Z) :=
  match n with
  | O => sfail E2BIG
  | S n' =>
      let% a := sadd ptr (Z.of_nat i) in
      let% byte := fetch8 a in
      if byte =? 0 then sret bytes else read_string_loop ptr (S i) n' (bytes ++ [byte])
  end.

Definition read_user_string (ptr : Z) (max_len : nat) : stack (list Z) :=
  if ptr =? 0 then sfail EFAULT else read_string_loop ptr 0 max_len [].

(** The loop of [parse_argv] and [parse_envp], which differ in the name of the
    limit only: [n] more entries are allowed.  An entry is read as a [u64],
    whose address has to be aligned. *)
Fixpoint parse_loop (ptr : Z) (i n : nat) (total_bytes : nat) (args : list (list Z)) : stack (list (list Z)) :=
  match n with
  | O => sfail E2BIG
  | S n' =>
      let% a := sadd ptr (Z.of_nat i * 8) in
      if negb (a mod 8 =? 0) then spanic
      else
        let% arg_ptr := fetch64 a in
        if arg_ptr =? 0 then sret args
        else
          let% arg := read_user_string arg_ptr MAX_STRLEN in
          let total_bytes := (total_bytes + (length arg + 1))%nat in
          if (MAX_TOTAL_BYTES <? total_bytes)%nat then sfail E2BIG
          else parse_loop ptr (S i) n' total_bytes (args ++ [arg])
  end.

Definition parse_argv (argv_ptr : Z) : stack (list (list Z)) :=
  if argv_ptr =? 0 then sret [] else parse_loop argv_ptr 0 MAX_ARGC 0 [].

Definition parse_envp (envp_ptr : Z) : stack (list (list Z)) :=
  if envp_ptr =? 0 then sret [] else parse_loop envp_ptr 0 MAX_ENVC 0 [].

(** ** The writer *)

(** [write_user_memory] and [write_user_u64]. *)
Definition write_user_memory (addr : Z) (data : list Z) : stack unit :=
  if addr =? 0 then sfail EFAULT else fun m => let! m' := store m addr data in Done (Ok tt, m').

Definition write_user_u64 (addr value : Z) : stack unit := write_user_memory addr (to_le 8 value).

(** One string and its terminator below [sp]. *)
Definition push_string (sp : Z) (s : list Z) : stack Z :=
  let% sp := ssub sp (Z.of_nat (length s) + 1) in
  let% _ := write_user_memory sp s in
  let% a := sadd sp (Z.of_nat (length s)) in
  let% _ := write_user_memory a [0] in
  sret sp.

(** The loop over the strings, last first; the pointers in the order pushed. *)
Fixpoint push_strings (sp : Z) (strings : list (list Z)) (ptrs : list Z) : stack (Z * list Z) :=
  match strings with
  | [] => sret (sp, ptrs)
  | s :: rest => let% sp := push_string sp s in push_strings sp rest (ptrs ++ [sp])
  end.

(** An entry of the auxiliary vector. *)
Definition push_aux (sp : Z) (t : AuxvType) (value : Z) : stack Z :=
  let% sp := ssub sp 16 in
  let% _ := write_user_u64 sp (auxv_num t) in
  let% a := sadd sp 8 in
  let% _ := write_user_u64 a value in
  sret sp.

Fixpoint push_auxv (sp : Z) (entries : list (AuxvType * Z)) : stack Z :=
  match entries with
  | [] => sret sp
  | (t, v) :: rest => let% sp := push_aux sp t v in push_auxv sp rest
  end.

Definition push_u64 (sp value : Z) : stack Z :=
  let% sp := ssub sp 8 in
  let% _ := write_user_u64 sp value in
  sret sp.

Fixpoint push_u64s (sp : Z) (values : list Z) : stack Z :=
  match values with
  | [] => sret sp
  | v :: rest => let% sp := push_u64 sp v in push_u64s sp rest
  end.

Definition random_bytes : list Z :=
  [0xde; 0xad; 0xbe; 0xef; 0xca; 0xfe; 0xba; 0xbe; 0x12; 0x34; 0x56; 0x78; 0x9a; 0xbc; 0xde; 0xf0].

(** The auxiliary vector in the order it is pushed. *)
Definition auxv (execfn_ptr random_ptr entry_point phdr phnum uid gid : Z) : list (AuxvType * Z) :=
  [(Null, 0); (Execfn, execfn_ptr); (Random, random_ptr); (Egid, gid); (Gid, gid); (Euid, uid); (Uid, uid);
   (Entry, entry_point); (Phnum, phnum); (Phent, 56)]
  ++ (if phdr =? 0 then [] else [(Phdr, phdr)])
  ++ [(Pagesz, 4096)].

Definition strings_size (strings : list (list Z)) : Z :=
  foldr (fun s n => Z.of_nat (length s) + 1 + n) 0 strings.

(** [(x + 15) & !15]. *)
Definition align16 (x : Z) : Z := Z.land (x + 15) (not64 15).

(** The size that is checked against the four pages; the sum of lengths of data
    in memory does not reach [usize::MAX]. *)
Definition needed (path : list Z) (argv envp : list (list Z)) : Z :=
  8 + (Z.of_nat (length argv) + 1) * 8 + (Z.of_nat (length envp) + 1) * 8 + 192
  + strings_size argv + strings_size envp + (Z.of_nat (length path) + 1) + 16.
Definition total_size (path : list Z) (argv envp : list (list Z)) : Z := align16 (needed path argv envp).

(** The first half of [setup_user_stack]: the strings, the file name and the
    random bytes; the pointers to them and where the auxiliary vector ends. *)
Definition push_data (stack_top : Z) (path : list Z) (argv envp : list (list Z))
    : stack (Z * list Z * list Z * Z * Z) :=
  let% (sp, argv_ptrs) := push_strings stack_top (rev argv) [] in
  let argv_ptrs := rev argv_ptrs in
  let% (sp, envp_ptrs) := push_strings sp (rev envp) [] in
  let envp_ptrs := rev envp_ptrs in
  let% sp := push_string sp path in
  let execfn_ptr := sp in
  let% sp := ssub sp 16 in
  let random_ptr := sp in
  let% _ := write_user_memory sp random_bytes in
  let sp := Z.land sp (not64 7) in
  sret (sp, argv_ptrs, envp_ptrs, execfn_ptr, random_ptr).

(** The second half: the auxiliary vector, the pointer arrays and argc. *)
Definition push_vectors (sp : Z) (argv_ptrs envp_ptrs : list Z) (aux : list (AuxvType * Z)) (argc : nat) : stack Z :=
  let% sp := push_auxv sp aux in
  let% sp := push_u64 sp 0 in
  let% sp := push_u64s sp (rev envp_ptrs) in
  let% sp := push_u64 sp 0 in
  let% sp := push_u64s sp (rev argv_ptrs) in
  let% sp := push_u64 sp (Z.of_nat argc) in
  sret (Z.land sp (not64 15)).

(** [setup_user_stack]; [path] is the bytes of the file name. *)
Definition setup_user_stack (stack_top : Z) (path : list Z) (argv envp : list (list Z))
    (entry_point phdr phnum uid gid : Z) : stack Z :=
  if 16384 <? total_size path argv envp then sfail E2BIG
  else
    let% (sp, argv_ptrs, envp_ptrs, execfn_ptr, random_ptr) := push_data stack_top path argv envp in
    push_vectors sp argv_ptrs envp_ptrs (auxv execfn_ptr random_ptr entry_point phdr phnum uid gid) (length argv).

End Stack.

Notation stack T := (stm Mem ErrorCode T).

(** ** The layout, abstractly *)

Definition cstr (s : list Z) : list Z := s ++ [0].

(** Strings one after the other, and where each begins. *)
Definition strings_image (strings : list (list Z)) : list Z := concat (cstr <$> strings).

Fixpoint ptrs_from (a : Z) (strings : list (list Z)) : list Z :=
  match strings with
  | [] => []
  | s :: rest => a :: ptrs_from (a + Z.of_nat (length s) + 1) rest
  end.

Definition words (values : list Z) : list Z := concat (to_le 8 <$> values).

Definition aux_image (entries : list (AuxvType * Z)) : list Z :=
  concat ((fun e => to_le 8 (auxv_num (fst e)) ++ to_le 8 (snd e)) <$> entries).

(** ** Lemmas *)

(** Memory is changed by stores only. *)
Section Stores.
Context {M : Type} {UB : UserBytes M} (R : M -> M -> Prop) {HR : PreOrder R}.
Hypothesis HS : forall m a bytes m', store m a bytes = Done m' -> R m m'.

Lemma write_user_memory_leads a data : leads R (write_user_memory a data).
Proof.
  unfold write_user_memory. destruct (a =? 0); [now apply leads_fail|].
  intros m r m' (m1 & E & [= _ <-])%bind_Done. eauto.
Qed.

Lemma push_string_leads sp s : leads R (push_string sp s).
Proof.
  pose proof write_user_memory_leads. unfold push_string, ssub, sadd. leads_walk.
Qed.

Lemma setup_user_stack_leads top path argv envp entry phdr phnum uid gid :
  leads R (setup_user_stack top path argv envp entry phdr phnum uid gid).
Proof.
  pose proof write_user_memory_leads as Hw. pose proof push_string_leads as Hp.
  assert (forall l sp ptrs, leads R (push_strings sp l ptrs)) as Hps
    by (induction l; intros; cbn [push_strings]; leads_walk).
  assert (forall sp v, leads R (push_u64 sp v)) as Hu
    by (intros; unfold push_u64, ssub, write_user_u64; leads_walk).
  assert (forall l sp, leads R (push_u64s sp l)) as Hus by (induction l; intros; cbn [push_u64s]; leads_walk).
  assert (forall l sp, leads R (push_auxv sp l)) as Ha
    by (induction l; intros; cbn [push_auxv]; unfold push_aux, ssub, sadd, write_user_u64; leads_walk).
  unfold setup_user_stack, push_data, push_vectors, ssub. leads_walk.
Qed.

End Stores.

(** Reading the arrays changes memory by fetches only. *)
Section Fetches.
Context {M : Type} {UB : UserBytes M} (R : M -> M -> Prop) {HR : PreOrder R}.
Hypothesis HF : forall m a b m', fetch m a = Done (b, m') -> R m m'.

Lemma read_user_string_leads ptr n : leads R (read_user_string ptr n).
Proof.
  pose proof (fun a => fetch8_leads R HF (E := ErrorCode) a) as H8.
  assert (forall n i acc, leads R (read_string_loop ptr i n acc)) as Hl
    by (induction n0; intros; cbn [read_string_loop]; unfold sadd; leads_walk).
  unfold read_user_string. leads_walk.
Qed.

Lemma parse_loop_leads ptr n : forall i total args, leads R (parse_loop ptr i n total args).
Proof.
  pose proof read_user_string_leads as Hs. pose proof (fun n a => fetch_bytes_leads R HF (E := ErrorCode) n a) as Hb.
  induction n as [|n IH]; intros i total args; cbn [parse_loop]; unfold sadd, fetch64; leads_walk.
Qed.

Lemma parse_argv_leads ptr : leads R (parse_argv ptr).
Proof. pose proof parse_loop_leads. unfold parse_argv. leads_walk. Qed.

Lemma parse_envp_leads ptr : leads R (parse_envp ptr).
Proof. pose proof parse_loop_leads. unfold parse_envp. leads_walk. Qed.

End Fetches.

Lemma strings_size_cons s l : strings_size (s :: l) = Z.of_nat (length s) + 1 + strings_size l.
Proof. reflexivity. Qed.

Lemma strings_size_nonneg l : 0 <= strings_size l.
Proof. induction l; cbn [strings_size foldr]; [lia|]. fold (strings_size l). lia. Qed.

Lemma length_strings_image l : Z.of_nat (length (strings_image l)) = strings_size l.
Proof.
  unfold strings_image, strings_size. induction l as [|s l IH]; cbn [fmap list_fmap concat foldr]; [reflexivity|].
  rewrite length_app. unfold cstr in *. rewrite length_app. cbn [length]. lia.
Qed.

Lemma strings_size_app l k : strings_size (l ++ k) = strings_size l + strings_size k.
Proof. rewrite <- !length_strings_image. unfold strings_image. rewrite fmap_app, concat_app, length_app. lia. Qed.

Lemma strings_size_rev l : strings_size (rev l) = strings_size l.
Proof.
  induction l as [|s l IH]; [reflexivity|]. cbn [rev]. rewrite strings_size_app, IH.
  unfold strings_size. cbn [foldr]. lia.
Qed.

Lemma ptrs_from_app l k : forall a, ptrs_from a (l ++ k) = ptrs_from a l ++ ptrs_from (a + strings_size l) k.
Proof.
  induction l as [|s l IH]; intros a; cbn [ptrs_from app strings_size foldr]; [now rewrite Z.add_0_r|].
  fold (strings_size l). rewrite IH. do 3 f_equal. lia.
Qed.

Lemma length_ptrs_from l : forall a, length (ptrs_from a l) = length l.
Proof. induction l as [|s l IH]; intros a; cbn [ptrs_from length]; [reflexivity|now rewrite IH]. Qed.

Lemma length_words l : length (words l) = (8 * length l)%nat.
Proof.
  unfold words. induction l as [|x l IH]; cbn [fmap list_fmap concat]; [reflexivity|].
  rewrite length_app, length_to_le, IH. cbn [length]. lia.
Qed.

Lemma words_app l k : words (l ++ k) = words l ++ words k.
Proof. unfold words. now rewrite fmap_app, concat_app. Qed.

(** The image of the stack: the padding below argc, argc, the pointer arrays,
    the auxiliary vector, the gap that aligns it, and the strings. *)
Definition image (stack_top : Z) (path : list Z) (argv envp : list (list Z))
    (entry_point phdr phnum uid gid : Z) (pad gap : list Z) : list Z :=
  let args := stack_top - strings_size argv in
  let envs := args - strings_size envp in
  let execfn := envs - (Z.of_nat (length path) + 1) in
  pad ++ to_le 8 (Z.of_nat (length argv))
  ++ words (ptrs_from args argv) ++ to_le 8 0
  ++ words (ptrs_from envs envp) ++ to_le 8 0
  ++ aux_image (rev (auxv execfn (execfn - 16) entry_point phdr phnum uid gid))
  ++ gap ++ random_bytes ++ cstr path ++ strings_image envp ++ strings_image argv.

(** From [sp] holding [img], a push leads to [sp'] holding [chunk] below it and
    writes between the two only. *)
Definition pushed (m : Mem) (sp : Z) (r : outcome (result Z ErrorCode * Mem)) (sp' : Z) (chunk : list Z) : Prop :=
  exists m', r = Done (Ok sp', m') /\ sp' + Z.of_nat (length chunk) = sp
    /\ (forall x, x < sp' \/ sp <= x -> read8 m' x = read8 m x)
    /\ holds m' sp' chunk.

(** ** Pushes *)

Lemma write_user_run m a data : a <> 0 ->
  write_user_memory a data m = Done (Ok tt, write_bytes m a data).
Proof. intros Ha. unfold write_user_memory. apply Z.eqb_neq in Ha as ->. reflexivity. Qed.

(** What was held stays held. *)
Lemma pushed_keeps m m' sp sp' img :
  (forall x, x < sp' \/ sp <= x -> read8 m' x = read8 m x) -> holds m sp img -> holds m' sp img.
Proof.
  intros Hx Hh. unfold holds in *. transitivity (read_bytes m sp (length img)); [|assumption].
  apply read_bytes_ext. intros x Hr. apply Hx. lia.
Qed.

Lemma push_string_run m sp s :
  Z.of_nat (length s) + 1 < sp <= U64_MAX ->
  pushed m sp (push_string sp s m) (sp - (Z.of_nat (length s) + 1)) (cstr s).
Proof.
  intros Hsp. unfold push_string, ssub, sadd, sbind.
  rewrite (proj2 (Z.leb_le _ _)) by lia. cbn [sret]. set (sp' := sp - _).
  rewrite write_user_run by lia. rewrite (proj2 (Z.leb_le _ _)) by lia. cbn [sret].
  rewrite write_user_run by lia. eexists. split; [reflexivity|]. unfold cstr. rewrite length_app. cbn [length].
  split; [lia|]. split.
  - intros x Hx. rewrite !read8_write; [reflexivity|lia|cbn [length]; lia].
  - apply holds_app. split; [|apply write_holds]. apply write_other; [lia|apply write_holds].
Qed.

Lemma push_u64_run m sp v : 8 < sp <= U64_MAX -> pushed m sp (push_u64 sp v m) (sp - 8) (to_le 8 v).
Proof.
  intros Hsp. unfold push_u64, ssub, sbind, write_user_u64. rewrite (proj2 (Z.leb_le _ _)) by lia. cbn [sret].
  rewrite write_user_run by lia. eexists. split; [reflexivity|]. rewrite length_to_le.
  split; [lia|]. split; [|apply write_holds]. intros x Hx. rewrite read8_write; [reflexivity|]. rewrite length_to_le. lia.
Qed.

Lemma push_aux_run m sp t v : 16 < sp <= U64_MAX ->
  pushed m sp (push_aux sp t v m) (sp - 16) (to_le 8 (auxv_num t) ++ to_le 8 v).
Proof.
  intros Hsp. unfold push_aux, ssub, sadd, sbind, write_user_u64. rewrite (proj2 (Z.leb_le _ _)) by lia.
  cbn [sret]. rewrite write_user_run by lia. rewrite (proj2 (Z.leb_le _ _)) by lia. cbn [sret].
  rewrite write_user_run by lia. eexists. split; [reflexivity|]. rewrite length_app, !length_to_le.
  split; [lia|]. split.
  - intros x Hx. rewrite !read8_write; rewrite ?length_to_le; [reflexivity|lia..].
  - apply holds_app. rewrite length_to_le. split; [|apply write_holds].
    apply write_other; [rewrite !length_to_le; lia|apply write_holds].
Qed.

(** Two pushes, one after the other. *)
Lemma pushed_trans m sp sp1 c1 m1 r sp2 c2 :
  sp1 + Z.of_nat (length c1) = sp -> (forall x, x < sp1 \/ sp <= x -> read8 m1 x = read8 m x) -> holds m1 sp1 c1 ->
  pushed m1 sp1 r sp2 c2 -> pushed m sp r sp2 (c2 ++ c1).
Proof.
  intros L1 F1 H1 (m2 & E2 & L2 & F2 & H2). exists m2. split; [assumption|]. rewrite length_app.
  split; [lia|]. split; [intros x Hx; rewrite F2, F1 by lia; reflexivity|].
  apply holds_app. split; [assumption|]. rewrite L2. now apply (pushed_keeps m1 m2 sp1 sp2).
Qed.

Lemma push_u64s_run vs : forall m sp, 8 * Z.of_nat (length vs) < sp <= U64_MAX ->
  pushed m sp (push_u64s sp vs m) (sp - 8 * Z.of_nat (length vs)) (words (rev vs)).
Proof.
  induction vs as [|v vs IH]; intros m sp Hsp; cbn [push_u64s length] in *.
  - exists m. rewrite Z.sub_0_r. cbn. split; [reflexivity|]. split; [lia|]. now split.
  - destruct (push_u64_run m sp v ltac:(lia)) as (m1 & E1 & L1 & F1 & H1). unfold sbind. rewrite E1.
    replace (sp - 8 * Z.of_nat (S (length vs))) with (sp - 8 - 8 * Z.of_nat (length vs)) by lia.
    cbn [rev]. rewrite words_app. unfold words at 2. cbn [fmap list_fmap concat]. rewrite app_nil_r.
    apply (pushed_trans m sp (sp - 8) _ m1); try assumption. apply IH. lia.
Qed.

Lemma push_auxv_run es : forall m sp, 16 * Z.of_nat (length es) < sp <= U64_MAX ->
  pushed m sp (push_auxv sp es m) (sp - 16 * Z.of_nat (length es)) (aux_image (rev es)).
Proof.
  induction es as [|[t v] es IH]; intros m sp Hsp; cbn [push_auxv length] in *.
  - exists m. rewrite Z.sub_0_r. cbn. split; [reflexivity|]. split; [lia|]. now split.
  - destruct (push_aux_run m sp t v ltac:(lia)) as (m1 & E1 & L1 & F1 & H1). unfold sbind. rewrite E1.
    replace (sp - 16 * Z.of_nat (S (length es))) with (sp - 16 - 16 * Z.of_nat (length es)) by lia.
    cbn [rev]. unfold aux_image in *. rewrite fmap_app, concat_app. cbn [fmap list_fmap concat fst snd].
    rewrite app_nil_r. apply (pushed_trans m sp (sp - 16) _ m1); try assumption. apply IH. lia.
Qed.

Lemma push_strings_run strings : forall m sp ptrs,
  strings_size strings < sp <= U64_MAX ->
  exists m', push_strings sp strings ptrs m
             = Done (Ok (sp - strings_size strings,
                         ptrs ++ rev (ptrs_from (sp - strings_size strings) (rev strings))), m')
    /\ pushed m sp (Done (Ok (sp - strings_size strings), m')) (sp - strings_size strings) (strings_image (rev strings)).
Proof.
  induction strings as [|s rest IH]; intros m sp ptrs Hsp; cbn [push_strings].
  - exists m. cbn. rewrite Z.sub_0_r, app_nil_r. split; [reflexivity|]. exists m. split; [reflexivity|].
    cbn. split; [lia|]. now split.
  - rewrite strings_size_cons in *. pose proof (strings_size_nonneg rest).
    destruct (push_string_run m sp s ltac:(lia)) as (m1 & E1 & L1 & F1 & H1). unfold sbind. rewrite E1.
    set (sp1 := sp - (Z.of_nat (length s) + 1)) in *.
    destruct (IH m1 sp1 (ptrs ++ [sp1]) ltac:(lia)) as (m2 & E2 & P2).
    exists m2. rewrite E2. replace (sp - (Z.of_nat (length s) + 1 + strings_size rest))
      with (sp1 - strings_size rest) by lia. cbn [rev]. split.
    + do 3 f_equal. rewrite ptrs_from_app, rev_app_distr, strings_size_rev. cbn [ptrs_from rev app].
      rewrite <- app_assoc. cbn [app]. do 3 f_equal. lia.
    + unfold strings_image. rewrite fmap_app, concat_app. cbn [fmap list_fmap concat]. rewrite app_nil_r.
      now apply (pushed_trans m sp sp1 _ m1).
Qed.

Lemma pushed_step m top sp m1 c r sp2 c2 :
  pushed m top (Done (Ok sp, m1)) sp c -> pushed m1 sp r sp2 c2 ->
  exists m2, r = Done (Ok sp2, m2) /\ pushed m top (Done (Ok sp2, m2)) sp2 (c2 ++ c).
Proof.
  intros (m1' & E1 & L1 & F1 & H1) P2. apply Done_inj in E1 as [= <-].
  destruct (pushed_trans m top sp c m1 r sp2 c2 L1 F1 H1 P2) as (m2 & -> & P). exists m2. split; [reflexivity|].
  exists m2. now split.
Qed.

(** Moving the pointer down over bytes that stay as they are. *)
Lemma pushed_gap m sp k :
  pushed m sp (Done (Ok (sp - Z.of_nat k), m)) (sp - Z.of_nat k) (read_bytes m (sp - Z.of_nat k) k).
Proof.
  exists m. split; [reflexivity|]. rewrite length_read_bytes. split; [lia|]. split; [reflexivity|].
  unfold holds. now rewrite length_read_bytes.
Qed.

Lemma align_down8 sp : 0 <= sp <= U64_MAX -> Z.land sp (not64 7) = sp - Z.of_nat (Z.to_nat (sp mod 8)).
Proof. intros H. change 7 with (Z.ones 3). rewrite land_not64 by lia. change (2 ^ 3) with 8. lia. Qed.

Lemma align_down16 sp : 0 <= sp <= U64_MAX -> Z.land sp (not64 15) = sp - Z.of_nat (Z.to_nat (sp mod 16)).
Proof. intros H. change 15 with (Z.ones 4). rewrite land_not64 by lia. change (2 ^ 4) with 16. lia. Qed.

Lemma align16_bounds x : 0 <= x -> x + 15 <= U64_MAX -> align16 x mod 16 = 0 /\ x <= align16 x < x + 16.
Proof.
  intros H1 H2. assert (align16 x = x + 15 - (x + 15) mod 16) as ->; [|lia].
  unfold align16. rewrite (land_not64 4) by lia. reflexivity.
Qed.

(** A push followed by another, as one. *)
Lemma pushed_bind m sp sp1 c1 (f : Z -> stack Z) (r : stack Z) sp2 c2 :
  pushed m sp (r m) sp1 c1 -> (forall m1, pushed m1 sp1 (f sp1 m1) sp2 c2) ->
  pushed m sp (sbind r f m) sp2 (c2 ++ c1).
Proof.
  intros (m1' & E & L & F & Hh) Hf. unfold sbind. rewrite E. exact (pushed_trans _ _ _ _ _ _ _ _ L F Hh (Hf m1')).
Qed.

Lemma push_data_run m stack_top path argv envp :
  let args := stack_top - strings_size argv in
  let envs := args - strings_size envp in
  let execfn := envs - (Z.of_nat (length path) + 1) in
  stack_top <= U64_MAX -> 16 < execfn ->
  exists m' gap, let sp := execfn - 16 - Z.of_nat (length gap) in
    push_data stack_top path argv envp m
    = Done (Ok (sp, ptrs_from args argv, ptrs_from envs envp, execfn, execfn - 16), m')
    /\ pushed m stack_top (Done (Ok sp, m')) sp
         (gap ++ random_bytes ++ cstr path ++ strings_image envp ++ strings_image argv)
    /\ length gap = Z.to_nat ((execfn - 16) mod 8).
Proof.
  intros args envs execfn Htop Hlow. unfold push_data.
  pose proof (strings_size_nonneg argv) as Ha. pose proof (strings_size_nonneg envp) as He.
  destruct (push_strings_run (rev argv) m stack_top [] ltac:(rewrite strings_size_rev; lia)) as (m1 & E1 & P).
  rewrite strings_size_rev, rev_involutive in *. cbn [app] in E1. unfold sbind at 1. rewrite E1. clear E1. fold args in P |- *.
  destruct (push_strings_run (rev envp) m1 args [] ltac:(rewrite strings_size_rev; lia)) as (m2 & E2 & P2).
  rewrite strings_size_rev, rev_involutive in *. cbn [app] in E2. unfold sbind at 1. rewrite E2. clear E2. fold envs in P2 |- *.
  destruct (pushed_step _ _ _ _ _ _ _ _ P P2) as (m2' & E & P'). apply Done_inj in E as [= <-]. clear P P2.
  destruct (pushed_step _ _ _ _ _ _ _ _ P' (push_string_run m2 envs path ltac:(lia))) as (m3 & E3 & P3).
  unfold sbind at 1. rewrite E3. clear E3 P'. fold execfn in P3 |- *.
  unfold sbind at 1, ssub at 1. rewrite (proj2 (Z.leb_le _ _)) by lia. cbn [sret].
  unfold sbind at 1. rewrite write_user_run by lia.
  assert (pushed m3 execfn (Done (Ok (execfn - 16), write_bytes m3 (execfn - 16) random_bytes)) (execfn - 16) random_bytes) as P4.
  { eexists. split; [reflexivity|]. split; [cbn; lia|]. split; [|apply write_holds].
    intros x Hx. rewrite read8_write; [reflexivity|]. cbn. lia. }
  set (m4 := write_bytes m3 _ _) in *. clearbody m4.
  destruct (pushed_step _ _ _ _ _ _ _ _ P3 P4) as (m4' & E4 & P). apply Done_inj in E4 as [= <-]. clear P3 P4. rewrite !rev_involutive. rewrite align_down8 by lia.
  set (k := Z.to_nat ((execfn - 16) mod 8)).
  destruct (pushed_step _ _ _ _ _ _ _ _ P (pushed_gap m4 (execfn - 16) k)) as (m5 & E5 & P5).
  apply Done_inj in E5 as [= <-]. exists m4, (read_bytes m4 (execfn - 16 - Z.of_nat k) k). cbn zeta.
  rewrite length_read_bytes. split; [reflexivity|]. now split.
Qed.

Lemma push_vectors_run m sp argv_ptrs envp_ptrs aux argc :
  let n := 16 * Z.of_nat (length aux) + 8 * Z.of_nat (length envp_ptrs) + 8 * Z.of_nat (length argv_ptrs) + 24 in
  sp mod 8 = 0 -> n < sp <= U64_MAX ->
  exists sp' pad, (sp' = sp - n /\ pad = [] \/ sp' = sp - n - 8 /\ length pad = 8%nat) /\ sp' mod 16 = 0
    /\ pushed m sp (push_vectors sp argv_ptrs envp_ptrs aux argc m) sp'
         (pad ++ to_le 8 (Z.of_nat argc) ++ words argv_ptrs ++ to_le 8 0 ++ words envp_ptrs ++ to_le 8 0
          ++ aux_image (rev aux)).
Proof.
  intros n Hmod Hn.
  set (base := sp - n) in *. set (k := Z.to_nat (base mod 16)).
  assert (Z.land base (not64 15) = base - Z.of_nat k) as Hk by (apply align_down16; lia).
  exists (base - Z.of_nat k).
  assert (exists m1, pushed m sp (Done (Ok base, m1)) base
      (to_le 8 (Z.of_nat argc) ++ words argv_ptrs ++ to_le 8 0 ++ words envp_ptrs ++ to_le 8 0 ++ aux_image (rev aux))
    /\ push_vectors sp argv_ptrs envp_ptrs aux argc m = Done (Ok (base - Z.of_nat k), m1)) as (m1 & Pb & Eb).
  { unfold push_vectors.
    set (s1 := sp - 16 * Z.of_nat (length aux)). set (s2 := s1 - 8).
    set (s3 := s2 - 8 * Z.of_nat (length envp_ptrs)). set (s4 := s3 - 8).
    set (s5 := s4 - 8 * Z.of_nat (length argv_ptrs)).
    destruct (push_auxv_run aux m sp ltac:(lia)) as (m1 & E1 & Q1). unfold sbind at 1. rewrite E1. fold s1 in Q1 |- *.
    assert (pushed m sp (Done (Ok s1, m1)) s1 (aux_image (rev aux))) as P by (now exists m1). clear E1 Q1.
    destruct (pushed_step _ _ _ _ _ _ _ _ P (push_u64_run m1 s1 0 ltac:(lia))) as (m2 & E2 & P2).
    unfold sbind at 1. rewrite E2. fold s2 in P2 |- *. clear E2 P.
    destruct (pushed_step _ _ _ _ _ _ _ _ P2 (push_u64s_run (rev envp_ptrs) m2 s2 ltac:(rewrite length_rev; lia))) as (m3 & E3 & P3).
    rewrite length_rev, rev_involutive in *. unfold sbind at 1. rewrite E3. fold s3 in P3 |- *. clear E3 P2.
    destruct (pushed_step _ _ _ _ _ _ _ _ P3 (push_u64_run m3 s3 0 ltac:(lia))) as (m4 & E4 & P4).
    unfold sbind at 1. rewrite E4. fold s4 in P4 |- *. clear E4 P3.
    destruct (pushed_step _ _ _ _ _ _ _ _ P4 (push_u64s_run (rev argv_ptrs) m4 s4 ltac:(rewrite length_rev; lia))) as (m5 & E5 & P5).
    rewrite length_rev, rev_involutive in *. unfold sbind at 1. rewrite E5. fold s5 in P5 |- *. clear E5 P4.
    destruct (pushed_step _ _ _ _ _ _ _ _ P5 (push_u64_run m5 s5 (Z.of_nat argc) ltac:(lia))) as (m6 & E6 & P6).
    unfold sbind at 1. rewrite E6. replace (s5 - 8) with base in * by lia. exists m6. split; [exact P6|]. cbn [sret]. now rewrite Hk. }
  destruct (pushed_step _ _ _ _ _ _ _ _ Pb (pushed_gap m1 base k)) as (m2 & E2 & P2). apply Done_inj in E2 as [= <-].
  rewrite Eb. assert (k = 0 \/ k = 8)%nat as Hk8 by lia.
  exists (read_bytes m1 (base - Z.of_nat k) k). split; [|split; [lia|exact P2]].
  destruct Hk8 as [->| ->]; [left|right]; rewrite ?length_read_bytes; split; (lia || reflexivity).
Qed.

Lemma auxv_length execfn_ptr random_ptr entry_point phdr phnum uid gid :
  (length (auxv execfn_ptr random_ptr entry_point phdr phnum uid gid) <= 12)%nat.
Proof. unfold auxv. destruct (phdr =? 0); cbn; lia. Qed.

(** [setup_user_stack], whole. *)
Lemma setup_user_stack_run m stack_top path argv envp entry_point phdr phnum uid gid :
  16384 < stack_top <= U64_MAX -> stack_top mod 16 = 0 -> needed path argv envp + 15 <= U64_MAX ->
  total_size path argv envp <= 16384 ->
  exists sp pad gap,
    pushed m stack_top (setup_user_stack stack_top path argv envp entry_point phdr phnum uid gid m) sp
      (image stack_top path argv envp entry_point phdr phnum uid gid pad gap)
    /\ sp mod 16 = 0 /\ (length gap < 8)%nat /\ (length pad = 0 \/ length pad = 8)%nat
    /\ stack_top - total_size path argv envp <= sp.
Proof.
  intros Htop Hmod Hneed Htot. unfold setup_user_stack. rewrite (proj2 (Z.ltb_ge _ _)) by lia.
  pose proof (strings_size_nonneg argv) as Ha. pose proof (strings_size_nonneg envp) as He.
  destruct (align16_bounds (needed path argv envp)) as [Htm Htb]; [unfold needed; lia|assumption|].
  fold (total_size path argv envp) in *. unfold needed in Htb.
  destruct (push_data_run m stack_top path argv envp) as (m1 & gap & E1 & P1 & Hgap); [lia..|].
  unfold image. set (args := stack_top - strings_size argv) in *. set (envs := args - strings_size envp) in *.
  set (execfn := envs - _) in *. unfold sbind. rewrite E1. clear E1.
  set (aux := auxv _ _ _ _ _ _ _). pose proof (auxv_length execfn (execfn - 16) entry_point phdr phnum uid gid) as Haux.
  fold aux in Haux. set (sp := execfn - 16 - Z.of_nat (length gap)) in *.
  destruct (push_vectors_run m1 sp (ptrs_from args argv) (ptrs_from envs envp) aux (length argv))
    as (sp' & pad & Hsp & Hm16 & P2); [lia|rewrite !length_ptrs_from; lia|].
  destruct (pushed_step _ _ _ _ _ _ _ _ P1 P2) as (m2 & -> & P). exists sp', pad, gap.
  rewrite !length_ptrs_from in Hsp. split.
  - rewrite <- !app_assoc in P. exact P.
  - split; [assumption|]. split; [lia|]. split; [destruct Hsp as [[_ ->]|[_ ?]]; auto|].
    destruct Hsp as [[-> _]|[-> _]]; lia.
Qed.

(** ** Reading back *)

(** The strings [parse_argv] accepts. *)
Definition readable (strings : list (list Z)) : Prop :=
  Forall (fun s => Forall (fun b => b <> 0) s /\ (length s < MAX_STRLEN)%nat) strings.

Lemma sadd_run (m : Mem) a b : a + b <= U64_MAX -> sadd a b m = Done (Ok (a + b), m).
Proof. intros H. unfold sadd. now rewrite (proj2 (Z.leb_le _ _) H). Qed.

Lemma read_string_loop_run m ptr s : forall i n acc,
  Forall (fun b => b <> 0) s -> (length s < n)%nat -> ptr + Z.of_nat i + Z.of_nat (length s) <= U64_MAX ->
  holds m (ptr + Z.of_nat i) (cstr s) -> read_string_loop ptr i n acc m = Done (Ok (acc ++ s), m).
Proof.
  induction s as [|b s IH]; intros i n acc Hs Hn Hb Hh; destruct n as [|n]; cbn [length] in *; try lia;
    cbn [read_string_loop]; unfold sbind; rewrite sadd_run, fetch8_load by lia; unfold holds, cstr in Hh;
    cbn [app length read_bytes load Mem_bytes] in Hh |- *.
  - injection Hh as ->. now rewrite app_nil_r.
  - inversion Hs as [|? ? Hb0 Hs']; subst. injection Hh as -> Hh. apply Z.eqb_neq in Hb0 as ->.
    rewrite (IH (S i)) by (assumption || lia || (unfold holds, cstr; now replace (ptr + Z.of_nat (S i)) with (ptr + Z.of_nat i + 1) by lia)).
    now rewrite <- app_assoc.
Qed.

Lemma words_cons x l : words (x :: l) = to_le 8 x ++ words l.
Proof. reflexivity. Qed.

Lemma strings_image_cons s l : strings_image (s :: l) = cstr s ++ strings_image l.
Proof. reflexivity. Qed.

Lemma parse_loop_run m ptr strings : forall a i n total args,
  readable strings -> 0 < a -> a + strings_size strings <= U64_MAX ->
  0 <= ptr -> ptr mod 8 = 0 -> ptr + 8 * (Z.of_nat i + Z.of_nat (length strings)) <= U64_MAX -> (length strings < n)%nat ->
  Z.of_nat total + strings_size strings <= Z.of_nat MAX_TOTAL_BYTES ->
  holds m (ptr + Z.of_nat i * 8) (words (ptrs_from a strings) ++ to_le 8 0) ->
  holds m a (strings_image strings) ->
  parse_loop ptr i n total args m = Done (Ok (args ++ strings), m).
Proof.
  induction strings as [|s strings IH]; intros a i n total args Hr Ha Hau Hp Hpm Hpu Hn Ht Hw Hi;
    destruct n as [|n]; cbn [length] in *; try lia; cbn [parse_loop ptrs_from] in *; unfold sbind at 1; rewrite sadd_run by lia;
    rewrite (proj2 (Z.eqb_eq (_ mod 8) 0)) by lia; cbn [negb]; unfold sbind at 1; rewrite fetch64_read.
  - rewrite <- (app_nil_r (to_le 8 0)) in Hw. change (words [] ++ to_le 8 0 ++ []) with (to_le 8 0 ++ []) in Hw.
    rewrite (holds_read64 m _ 0 [] ltac:(unfold U64_MAX; lia) Hw). now rewrite app_nil_r.
  - rewrite strings_size_cons in *. pose proof (strings_size_nonneg strings). inversion Hr as [|? ? [Hs Hl] Hr']; subst.
    rewrite words_cons, <- app_assoc in Hw. rewrite (holds_read64 m _ a _ ltac:(lia) Hw).
    destruct (Z.eqb_spec a 0) as [|_]; [lia|]. unfold read_user_string. destruct (Z.eqb_spec a 0) as [|_]; [lia|].
    rewrite strings_image_cons in Hi. apply holds_app in Hi as [Hi1 Hi2].
    unfold sbind. rewrite (read_string_loop_run m a s 0 MAX_STRLEN []) by (rewrite ?Z.add_0_r; assumption || lia). cbn [app].
    destruct (Nat.ltb_spec MAX_TOTAL_BYTES (total + (length s + 1))); [lia|].
    apply holds_app in Hw as [_ Hw]. rewrite length_to_le in Hw.
    rewrite (IH (a + Z.of_nat (length s) + 1)); try assumption; try lia.
    + now rewrite <- app_assoc.
    + replace (ptr + Z.of_nat (S i) * 8) with (ptr + Z.of_nat i * 8 + Z.of_nat 8) by lia. exact Hw.
    + unfold cstr in Hi2. rewrite length_app in Hi2. cbn [length] in Hi2.
      now replace (a + Z.of_nat (length s) + 1) with (a + Z.of_nat (length s + 1)) by lia.
Qed.

(** Where the parts of the image are. *)
Lemma image_parts m sp stack_top path argv envp entry_point phdr phnum uid gid pad gap :
  holds m sp (image stack_top path argv envp entry_point phdr phnum uid gid pad gap) ->
  sp + Z.of_nat (length (image stack_top path argv envp entry_point phdr phnum uid gid pad gap)) = stack_top ->
  let base := sp + Z.of_nat (length pad) in
  let args := stack_top - strings_size argv in
  let envs := args - strings_size envp in
  holds m base (to_le 8 (Z.of_nat (length argv)))
  /\ holds m (base + 8) (words (ptrs_from args argv) ++ to_le 8 0)
  /\ holds m (base + 8 + 8 * (Z.of_nat (length argv) + 1)) (words (ptrs_from envs envp) ++ to_le 8 0)
  /\ holds m envs (strings_image envp) /\ holds m args (strings_image argv).
Proof.
  unfold image. cbn zeta. set (args := stack_top - _). set (envs := args - _). set (aux := aux_image _).
  intros Hh Hlen. rewrite !length_app, !length_to_le, !length_words, !length_ptrs_from in Hlen.
  pose proof (length_strings_image argv). pose proof (length_strings_image envp).
  apply holds_app in Hh as [_ Hh]. apply holds_app in Hh as [H1 Hh]. rewrite length_to_le in Hh.
  apply holds_app in Hh as [H2 Hh]. rewrite length_words, length_ptrs_from in Hh.
  apply holds_app in Hh as [H3 Hh]. rewrite length_to_le in Hh.
  apply holds_app in Hh as [H4 Hh]. rewrite length_words, length_ptrs_from in Hh.
  apply holds_app in Hh as [H5 Hh]. rewrite length_to_le in Hh.
  do 4 (apply holds_app in Hh as [_ Hh]). apply holds_app in Hh as [H6 H7].
  split; [exact H1|]. split.
  { apply holds_app. rewrite length_words, length_ptrs_from. split; [exact H2|exact H3]. }
  split.
  { apply holds_app. rewrite length_words, length_ptrs_from.
    replace (sp + Z.of_nat (length pad) + 8 + 8 * (Z.of_nat (length argv) + 1))
      with (sp + Z.of_nat (length pad) + Z.of_nat 8 + Z.of_nat (8 * length argv) + Z.of_nat 8) by lia.
    split; [exact H4|exact H5]. }
  split.
  - replace envs with (sp + Z.of_nat (length pad) + Z.of_nat 8 + Z.of_nat (8 * length argv) + Z.of_nat 8
      + Z.of_nat (8 * length envp) + Z.of_nat 8 + Z.of_nat (length aux) + Z.of_nat (length gap)
      + Z.of_nat (length random_bytes) + Z.of_nat (length (cstr path))) by lia. exact H6.
  - replace args with (sp + Z.of_nat (length pad) + Z.of_nat 8 + Z.of_nat (8 * length argv) + Z.of_nat 8
      + Z.of_nat (8 * length envp) + Z.of_nat 8 + Z.of_nat (length aux) + Z.of_nat (length gap)
      + Z.of_nat (length random_bytes) + Z.of_nat (length (cstr path)) + Z.of_nat (length (strings_image envp))) by lia.
    exact H7.
Qed.

(** The initial stack of a program. Below an aligned top,
    [setup_user_stack] either refuses, with E2BIG and memory untouched, exactly
    when the size it computes exceeds the four pages of the stack, or it
    returns a 16-byte aligned pointer within those pages; from that pointer to
    the top memory then holds argc, the argument pointers, the environment
    pointers and the auxiliary vector, each array closed by zero, and the
    strings they point to, and no byte outside is changed. It never panics. *)
Theorem setup_user_stack_layout m stack_top path argv envp entry_point phdr phnum uid gid :
  16384 < stack_top <= U64_MAX -> stack_top mod 16 = 0 -> needed path argv envp + 15 <= U64_MAX ->
  match setup_user_stack stack_top path argv envp entry_point phdr phnum uid gid m with
  | Done (Ok sp, m') => total_size path argv envp <= 16384 /\ sp mod 16 = 0 /\ stack_top - 16384 <= sp
      /\ (exists pad gap, (length pad = 0 \/ length pad = 8)%nat /\ (length gap < 8)%nat
          /\ holds m' sp (image stack_top path argv envp entry_point phdr phnum uid gid pad gap)
          /\ sp + Z.of_nat (length (image stack_top path argv envp entry_point phdr phnum uid gid pad gap)) = stack_top)
      /\ forall x, x < sp \/ stack_top <= x -> read8 m' x = read8 m x
  | Done (Err e, m') => e = E2BIG /\ m' = m /\ 16384 < total_size path argv envp
  | Panicked => False
  end.
Proof.
  intros Htop Hmod Hneed. destruct (Z.ltb_spec 16384 (total_size path argv envp)) as [Hbig|Hfit].
  - unfold setup_user_stack. rewrite (proj2 (Z.ltb_lt _ _) Hbig). cbn [sfail]. auto.
  - destruct (setup_user_stack_run m stack_top path argv envp entry_point phdr phnum uid gid Htop Hmod Hneed Hfit)
      as (sp & pad & gap & (m' & -> & Hl & Hf & Hh) & H16 & Hg & Hp & Hlow).
    split; [assumption|]. split; [assumption|]. split; [lia|]. split; [|assumption]. exists pad, gap. auto.
Qed.

(** C13: a program finds its arguments. Whatever fits on the stack, the argument
    and environment strings [setup_user_stack] wrote are read back, through the
    pointers it wrote, by [parse_argv] and [parse_envp]: both return exactly the
    lists that were given, provided that they have fewer than 64 strings each, of fewer
    than 256 bytes and without a zero byte. *)
Theorem arguments_round_trip m stack_top path argv envp entry_point phdr phnum uid gid sp m' :
  16384 < stack_top <= U64_MAX -> stack_top mod 16 = 0 -> needed path argv envp + 15 <= U64_MAX ->
  readable argv -> readable envp -> (length argv < MAX_ARGC)%nat -> (length envp < MAX_ENVC)%nat ->
  setup_user_stack stack_top path argv envp entry_point phdr phnum uid gid m = Done (Ok sp, m') ->
  exists base, (base = sp \/ base = sp + 8) /\ read64 m' base = Z.of_nat (length argv)
    /\ parse_argv (base + 8) m' = Done (Ok argv, m')
    /\ parse_envp (base + 8 + 8 * (Z.of_nat (length argv) + 1)) m' = Done (Ok envp, m').
Proof.
  intros Htop Hmod Hneed Hra Hre Hla Hle Hset.
  destruct (Z.ltb_spec 16384 (total_size path argv envp)) as [Hbig|Hfit].
  { unfold setup_user_stack in Hset. rewrite (proj2 (Z.ltb_lt _ _) Hbig) in Hset. discriminate. }
  pose proof (strings_size_nonneg argv) as Ha. pose proof (strings_size_nonneg envp) as He.
  destruct (align16_bounds (needed path argv envp)) as [_ Htb]; [unfold needed; lia|assumption|].
  fold (total_size path argv envp) in Htb. unfold needed in Htb.
  destruct (setup_user_stack_run m stack_top path argv envp entry_point phdr phnum uid gid Htop Hmod Hneed Hfit)
    as (sp' & pad & gap & (m1 & E & Hl & _ & Hh) & H16 & _ & Hp & Hlow).
  rewrite Hset in E. apply Done_inj in E as [= <- <-].
  destruct (image_parts _ _ _ _ _ _ _ _ _ _ _ _ _ Hh Hl) as (P1 & P2 & P3 & P4 & P5).
  assert (sp + Z.of_nat (length pad) + 8 + 8 * (Z.of_nat (length argv) + 1) + 8 * (Z.of_nat (length envp) + 1) <= stack_top) as Hroom.
  { unfold image in Hl. rewrite !length_app, !length_to_le, !length_words, !length_ptrs_from in Hl. lia. }
  exists (sp + Z.of_nat (length pad)). unfold MAX_ARGC, MAX_ENVC in *. split; [lia|]. split; [|split].
  - apply (holds_read64 _ _ _ []); [lia|]. now rewrite app_nil_r.
  - unfold parse_argv. rewrite (proj2 (Z.eqb_neq _ _)) by lia.
    apply (parse_loop_run _ _ argv (stack_top - strings_size argv)); auto; unfold MAX_TOTAL_BYTES, MAX_ARGC; lia || idtac.
    change (Z.of_nat 0 * 8) with 0. now rewrite Z.add_0_r.
  - unfold parse_envp. rewrite (proj2 (Z.eqb_neq _ _)) by lia.
    apply (parse_loop_run _ _ envp (stack_top - strings_size argv - strings_size envp)); auto; unfold MAX_TOTAL_BYTES, MAX_ENVC; lia || idtac.
    change (Z.of_nat 0 * 8) with 0. now rewrite Z.add_0_r.
Qed.

(** ** Witnesses *)

Definition demo_top : Z := 0x7FFFFFFFF000.
Definition demo_path : list Z := Utf8.bytes_of_string "/bin/cat".
Definition demo_argv : list (list Z) := [Utf8.bytes_of_string "cat"; Utf8.bytes_of_string "/etc/motd"].
Definition demo_envp : list (list Z) := [Utf8.bytes_of_string "PATH=/bin"].

Lemma setup_user_stack_layout_witness :
  exists sp m', setup_user_stack demo_top demo_path demo_argv demo_envp 0x400000 0x400040 4 0 0 ∅ = Done (Ok sp, m')
    /\ sp mod 16 = 0 /\ demo_top - 16384 <= sp.
Proof.
  pose proof (setup_user_stack_layout ∅ demo_top demo_path demo_argv demo_envp 0x400000 0x400040 4 0 0
    ltac:(unfold demo_top, U64_MAX; lia) eq_refl ltac:(vm_compute; discriminate)) as H.
  assert (succeeds (setup_user_stack demo_top demo_path demo_argv demo_envp 0x400000 0x400040 4 0 0 ∅) = true) as Hs
    by (vm_compute; reflexivity).
  destruct (setup_user_stack _ _ _ _ _ _ _ _ _ _) as [[[sp|e] m']|]; [|discriminate..].
  destruct H as (_ & H16 & Hlow & _). exists sp, m'. auto.
Defined.

Lemma arguments_round_trip_witness :
  exists sp m' base, setup_user_stack demo_top demo_path demo_argv demo_envp 0x400000 0x400040 4 0 0 ∅ = Done (Ok sp, m')
    /\ parse_argv (base + 8) m' = Done (Ok demo_argv, m').
Proof.
  destruct (setup_user_stack demo_top demo_path demo_argv demo_envp 0x400000 0x400040 4 0 0 ∅) as [[[sp|e] m']|] eqn:E.
  - destruct (arguments_round_trip ∅ demo_top demo_path demo_argv demo_envp 0x400000 0x400040 4 0 0 sp m'
      ltac:(unfold demo_top, U64_MAX; lia) eq_refl ltac:(vm_compute; discriminate)) as (base & _ & _ & Hp & _);
      [repeat constructor; (discriminate || cbn; unfold MAX_STRLEN; lia)..|cbn; unfold MAX_ARGC; lia|cbn; unfold MAX_ENVC; lia|exact E|].
    exists sp, m', base. auto.
  - exfalso. assert (succeeds (setup_user_stack demo_top demo_path demo_argv demo_envp 0x400000 0x400040 4 0 0 ∅) = true) as Hs
      by (vm_compute; reflexivity). rewrite E in Hs. discriminate.
  - exfalso. assert (succeeds (setup_user_stack demo_top demo_path demo_argv demo_envp 0x400000 0x400040 4 0 0 ∅) = true) as Hs
      by (vm_compute; reflexivity). rewrite E in Hs. discriminate.
Defined.

(** Argc can be missed. The pointer [setup_user_stack] returns is rounded
    down after argc is written, so that it can be 8 bytes below it: for these
    arguments the word at the returned pointer is not argc, which is in the
    next word. *)
Theorem argc_can_be_missed :
  exists path argv sp m', setup_user_stack demo_top path argv [] 0x400000 0x400040 4 0 0 ∅ = Done (Ok sp, m')
    /\ length argv = 1%nat /\ read64 m' sp = 0 /\ read64 m' (sp + 8) = 1.
Proof.
  assert (exists path, match setup_user_stack demo_top path [[97]] [] 0x400000 0x400040 4 0 0 ∅ with
    | Done (Ok sp, m') => (read64 m' sp =? 0) && (read64 m' (sp + 8) =? 1)
    | _ => false end = true) as (path & H).
  { exists (Utf8.bytes_of_string "/a"). vm_compute. reflexivity. }
  exists path, [[97]]. destruct (setup_user_stack _ _ _ _ _ _ _ _ _ _) as [[[sp|e] m']|]; [|discriminate..].
  apply andb_true_iff in H as [H1%Z.eqb_eq H2%Z.eqb_eq]. exists sp, m'. auto.
Qed.

End ExecStack.
