(* ===== verification/Elf.v ===== *)
(** * The ELF loader (src/kernel/src/elf.rs)

    [parse_elf] checks the headers of an executable and collects its loadable
    segments; [load_elf_segments] maps a new frame for each of their pages and
    copies the file's bytes.  The headers are read at the offsets of the
    [repr(C)] structures, whose alignment is 8.  The file is in a buffer of the
    heap, which is aligned; a reference to a header at an offset that is not a
    multiple of 8 panics, as [usize] and [u64] sums that overflow do.  The
    theorems say what an accepted file satisfies, when parsing panics, and that
    a loaded segment is in memory byte by byte. *)

From S2P Require Import Prelude Bitmap FrameAlloc Memory Paging Bytes.
Import Memory Paging Bytes.

Module Elf.

Definition ELF_MAGIC : list Z := [0x7f; 0x45; 0x4c; 0x46].
Definition ELFCLASS64 : Z := 2.
Definition ELFDATA2LSB : Z := 1.
Definition EV_CURRENT : Z := 1.
Definition ET_EXEC : Z := 2.
Definition EM_X86_64 : Z := 62.
Definition PT_LOAD : Z := 1.
Definition PF_X : Z := 1.
Definition PF_W : Z := 2.
Definition PF_R : Z := 4.

(** The size of a page in bytes. *)
Notation PAGE_LEN := (Z.to_nat 4096).

(** The sizes of the two headers. *)
Definition EHDR_SIZE : nat := 64.
Definition PHDR_SIZE : nat := 56.

(** The fields of [Elf64Ehdr] and [Elf64Phdr] that are read. *)
Record Elf64Ehdr : Type := mkEhdr {
  e_ident : list Z; e_type : Z; e_machine : Z; e_version : Z;
  e_entry : Z; e_phoff : Z; e_phentsize : Z; e_phnum : Z
}.

Record Elf64Phdr : Type := mkPhdr {
  p_type : Z; p_flags : Z; p_offset : Z; p_vaddr : Z; p_filesz : Z; p_memsz : Z
}.

Inductive ElfError : Type :=
  | InvalidMagic | InvalidClass | InvalidEndian | InvalidVersion | NotExecutable | WrongMachine
  | FileTooSmall | InvalidPhdrOffset | InvalidPhdrCount | InvalidAlignment | InvalidSize.

Record LoadSegment : Type := mkSegment {
  vaddr : Z; file_offset : Z; file_size : Z; mem_size : Z; seg_flags : Z
}.

Definition is_readable (s : LoadSegment) : bool := negb (Z.land (seg_flags s) PF_R =? 0).
Definition is_writable (s : LoadSegment) : bool := negb (Z.land (seg_flags s) PF_W =? 0).
Definition is_executable (s : LoadSegment) : bool := negb (Z.land (seg_flags s) PF_X =? 0).

(** [ElfInfo]; the array of eight and its count are the list of segments. *)
Record ElfInfo : Type := mkInfo {
  entry_point : Z; load_segments : list LoadSegment; phdr_addr : Z; info_phnum : Z
}.

Definition add64 (a b : Z) : outcome Z := if a + b <=? U64_MAX then Done (a + b) else Panicked.

(** The header at the start of the file. *)
Definition read_ehdr (data : list Z) : outcome Elf64Ehdr :=
  let! ident := slice data 0 16 in
  let! ty := le_at data 16 2 in
  let! machine := le_at data 18 2 in
  let! version := le_at data 20 4 in
  let! entry := le_at data 24 8 in
  let! phoff := le_at data 32 8 in
  let! phentsize := le_at data 54 2 in
  let! phnum := le_at data 56 2 in
  Done (mkEhdr ident ty machine version entry phoff phentsize phnum).

(** A reference to a header has to be aligned. *)
Definition read_phdr (data : list Z) (off : nat) : outcome Elf64Phdr :=
  let! _ := rust_assert (off mod 8 =? 0)%nat in
  let! ty := le_at data off 4 in
  let! fl := le_at data (off + 4) 4 in
  let! offset := le_at data (off + 8) 8 in
  let! va := le_at data (off + 16) 8 in
  let! filesz := le_at data (off + 32) 8 in
  let! memsz := le_at data (off + 40) 8 in
  Done (mkPhdr ty fl offset va filesz memsz).

(** One iteration over the program headers: the segments with the header's
    added.  A ninth segment would be an index out of bounds. *)
Definition parse_phdr (data : list Z) (ehdr : Elf64Ehdr) (segments : list LoadSegment) (i : nat)
    : outcome (result (list LoadSegment) ElfError) :=
  let! phdr_offset := add64 (e_phoff ehdr) (Z.of_nat i * e_phentsize ehdr) in
  let! header_end := add64 phdr_offset (Z.of_nat PHDR_SIZE) in
  if Z.of_nat (length data) <? header_end then Done (Err InvalidPhdrOffset)
  else
    let! phdr := read_phdr data (Z.to_nat phdr_offset) in
    if negb (p_type phdr =? PT_LOAD) then Done (Ok segments)
    else if p_memsz phdr <? p_filesz phdr then Done (Err InvalidSize)
    else if U64_MAX <? p_offset phdr + p_filesz phdr then Done (Err InvalidSize)
    else if Z.of_nat (length data) <? p_offset phdr + p_filesz phdr then Done (Err InvalidSize)
    else
      let! _ := rust_assert (length segments <? 8)%nat in
      Done (Ok (segments ++ [mkSegment (p_vaddr phdr) (p_offset phdr) (p_filesz phdr) (p_memsz phdr) (p_flags phdr)])).

Fixpoint parse_phdrs (data : list Z) (ehdr : Elf64Ehdr) (segments : list LoadSegment) (i n : nat)
    : outcome (result (list LoadSegment) ElfError) :=
  match n with
  | O => Done (Ok segments)
  | S n' =>
      let* segments := parse_phdr data ehdr segments i in
      parse_phdrs data ehdr segments (S i) n'
  end.

(** [parse_elf]. *)
Definition parse_elf (data : list Z) : outcome (result ElfInfo ElfError) :=
  if (length data <? EHDR_SIZE)%nat then Done (Err FileTooSmall)
  else
    let! ehdr := read_ehdr data in
    let ident i := nth i (e_ident ehdr) 0 in
    if negb (bool_decide (take 4 (e_ident ehdr) = ELF_MAGIC)) then Done (Err InvalidMagic)
    else if negb (ident 4%nat =? ELFCLASS64) then Done (Err InvalidClass)
    else if negb (ident 5%nat =? ELFDATA2LSB) then Done (Err InvalidEndian)
    else if negb (ident 6%nat =? EV_CURRENT) || negb (e_version ehdr =? 1) then Done (Err InvalidVersion)
    else if negb (e_type ehdr =? ET_EXEC) then Done (Err NotExecutable)
    else if negb (e_machine ehdr =? EM_X86_64) then Done (Err WrongMachine)
    else if negb (e_phentsize ehdr =? Z.of_nat PHDR_SIZE) then Done (Err InvalidPhdrOffset)
    else if 8 <? e_phnum ehdr then Done (Err InvalidPhdrCount)
    else
      let* segments := parse_phdrs data ehdr [] 0 (Z.to_nat (e_phnum ehdr)) in
      let! phdr_addr :=
        match segments with
        | seg :: _ => if e_phoff ehdr <? 0x1000 then add64 (vaddr seg) (e_phoff ehdr) else Done 0
        | [] => Done 0
        end in
      Done (Ok (mkInfo (e_entry ehdr) segments phdr_addr (e_phnum ehdr))).

(** [calculate_heap_start]. *)
Fixpoint max_end (segments : list LoadSegment) (max_addr : Z) : outcome Z :=
  match segments with
  | [] => Done max_addr
  | seg :: rest =>
      let! segment_end := add64 (vaddr seg) (mem_size seg) in
      max_end rest (if max_addr <? segment_end then segment_end else max_addr)
  end.

Definition calculate_heap_start (info : ElfInfo) : outcome Z :=
  let! max_addr := max_end (load_segments info) 0 in
  let! up := add64 max_addr 0xFFF in
  Done (Z.land up (not64 0xFFF)).

(** ** Loading *)

(** The bytes of a frame, in its 512 words. *)
Definition frame_bytes (m : gmap Z Z) (t : Z) : list Z :=
  concat ((fun i => to_le 8 (entry m t i)) <$> seq 0 ENTRY_COUNT).

(** Writing the bytes of a frame from word [i] on. *)
Fixpoint put_words (m : gmap Z Z) (t : Z) (i n : nat) (bytes : list Z) : gmap Z Z :=
  match n with
  | O => m
  | S n' => put_words (put_entry m t i (from_le (take 8 bytes))) t (S i) n' (drop 8 bytes)
  end.

(** [dst.copy_from_slice(src)] at an offset in a frame. *)
Definition write_frame (m : gmap Z Z) (t : Z) (offset : nat) (src : list Z) : gmap Z Z :=
  put_words m t 0 ENTRY_COUNT (splice (frame_bytes m t) offset src).

(** The first page of a segment and the number of its pages. *)
Definition segment_pages (seg : LoadSegment) : outcome (Z * nat) :=
  let vaddr_start := Z.land (vaddr seg) (not64 0xFFF) in
  let! up := add64 (vaddr seg) (mem_size seg) in
  let! up := add64 up 0xFFF in
  let vaddr_end := Z.land up (not64 0xFFF) in
  Done (vaddr_start, Z.to_nat ((vaddr_end - vaddr_start) / 4096)).

Definition segment_flags (seg : LoadSegment) : Z :=
  let fl := Z.lor PRESENT USER_ACCESSIBLE in
  let fl := if is_writable seg then Z.lor fl WRITABLE else fl in
  if is_executable seg then fl else Z.lor fl NO_EXECUTE.

(** What is copied into a page: the offset in the page and the bytes. *)
Definition page_copy (data : list Z) (seg : LoadSegment) (page_vaddr : Z) : outcome (option (nat * list Z)) :=
  let! file_end := add64 (vaddr seg) (file_size seg) in
  if negb (page_vaddr <? file_end) then Done None
  else
    let offset_in_segment := if vaddr seg <=? page_vaddr then page_vaddr - vaddr seg else 0 in
    let! file_off := add64 (file_offset seg) offset_in_segment in
    let offset_in_page := Z.to_nat (if page_vaddr <? vaddr seg then vaddr seg - page_vaddr else 0) in
    let bytes_to_copy := Nat.min (PAGE_LEN - offset_in_page) (Z.to_nat (file_size seg - offset_in_segment)) in
    if (0 <? bytes_to_copy)%nat && (file_off <? Z.of_nat (length data))
    then
      let! src := slice data (Z.to_nat file_off) (Z.to_nat file_off + bytes_to_copy) in
      Done (Some (offset_in_page, src))
    else Done None.

Section Load.
Context {A : Type} `{FrameSource A}.

Notation paging T := (stm (Phys A) string T).

Definition lift {T} (m : outcome T) : paging T := fun s =>
  match m with Done t => Done (Ok t, s) | Panicked => Panicked end.

(** Zeroing the frame of a page and copying the file's bytes. *)
Definition fill_page (data : list Z) (seg : LoadSegment) (page : Z) (f : nat) : paging unit :=
  let% _ := zero (frame_addr f) in
  let% copy := lift (page_copy data seg page) in
  match copy with
  | None => sret tt
  | Some (offset, src) => smodify (fun s => with_mem s (write_frame (mem s) (frame_addr f) offset src))
  end.

(** The body of the loop over the pages of a segment. *)
Definition load_page (data : list Z) (page_table_phys : Z) (seg : LoadSegment) (vaddr_start : Z) (page_idx : nat)
    : paging unit :=
  let% f := ok_or allocate_frame "Failed to allocate frame for segment" in
  let% page_vaddr := lift (add64 vaddr_start (Z.of_nat page_idx * 4096)) in
  let% _ := map_page page_table_phys page_vaddr (frame_addr f) (segment_flags seg) in
  fill_page data seg page_vaddr f.

Definition load_segment (data : list Z) (page_table_phys : Z) (seg : LoadSegment) : paging unit :=
  let% (vaddr_start, num_pages) := lift (segment_pages seg) in
  for_range 0 num_pages (load_page data page_table_phys seg vaddr_start).

(** [load_elf_segments]. *)
Fixpoint load_all (data : list Z) (page_table_phys : Z) (segments : list LoadSegment) : paging unit :=
  match segments with
  | [] => sret tt
  | seg :: rest =>
      let% _ := load_segment data page_table_phys seg in
      load_all data page_table_phys rest
  end.

Definition load_elf_segments (info : ElfInfo) (data : list Z) (page_table_phys : Z) : paging unit :=
  load_all data page_table_phys (load_segments info).

End Load.

(** ** What an accepted file satisfies *)

(** A segment that lies in the file and whose memory holds what is in it. *)
Definition segment_ok (data : list Z) (seg : LoadSegment) : Prop :=
  is_u64 (vaddr seg) /\ is_u64 (mem_size seg) /\ 0 <= file_offset seg /\ 0 <= file_size seg <= mem_size seg
  /\ file_offset seg + file_size seg <= Z.min (Z.of_nat (length data)) U64_MAX.

(** The loadable segment of a program header. *)
Definition phdr_segment (data : list Z) (ehdr : Elf64Ehdr) (i : nat) : list LoadSegment :=
  match read_phdr data (Z.to_nat (e_phoff ehdr + Z.of_nat i * 56)) with
  | Done p => if p_type p =? PT_LOAD
              then [mkSegment (p_vaddr p) (p_offset p) (p_filesz p) (p_memsz p) (p_flags p)] else []
  | Panicked => []
  end.

Lemma le_at_u64 data off n x : bytes_ok data -> (n <= 8)%nat -> le_at data off n = Done x -> is_u64 x.
Proof.
  intros Hb Hn H. unfold le_at, slice in H. destruct (_ && _) eqn:E; [|discriminate]. cbn [bind] in H.
  apply Done_inj in H as <-. breflect.
  assert (bytes_ok (sub_slice data off (off + n))) as Hs by (unfold sub_slice; now apply Forall_take, Forall_drop).
  pose proof (from_le_bound _ Hs) as Hx. rewrite length_sub_slice in Hx by lia.
  replace (off + n - off)%nat with n in Hx by lia.
  assert (256 ^ Z.of_nat n <= 256 ^ 8) by (apply Z.pow_le_mono_r; lia). unfold is_u64, U64_MAX. lia.
Qed.

Lemma read_phdr_u64 data off p : bytes_ok data -> read_phdr data off = Done p ->
  is_u64 (p_offset p) /\ is_u64 (p_vaddr p) /\ is_u64 (p_filesz p) /\ is_u64 (p_memsz p).
Proof.
  intros Hb H. unfold read_phdr in H. repeat (apply bind_Done in H as (? & ? & H)). apply Done_inj in H as <-.
  cbn [p_offset p_vaddr p_filesz p_memsz].
  split; [|split; [|split]]; (eapply le_at_u64; [eassumption| |eassumption]; lia).
Qed.

Lemma read_ehdr_spec data : bytes_ok data -> (EHDR_SIZE <= length data)%nat ->
  exists e, read_ehdr data = Done e /\ length (e_ident e) = 16%nat /\ is_u64 (e_entry e) /\ is_u64 (e_phoff e)
    /\ is_u64 (e_phnum e).
Proof.
  intros Hb Hl. unfold EHDR_SIZE in Hl. unfold read_ehdr.
  rewrite slice_Done by lia. rewrite !le_at_Done by lia. cbn [bind]. eexists. split; [reflexivity|].
  cbn [e_ident e_entry e_phoff e_phnum]. rewrite length_sub_slice by lia. split; [reflexivity|].
  split; [|split]; eapply (le_at_u64 data); try apply le_at_Done; (assumption || lia).
Qed.

Lemma add64_cases a b : add64 a b = Done (a + b) /\ a + b <= U64_MAX \/ add64 a b = Panicked /\ U64_MAX < a + b.
Proof. unfold add64. destruct (Z.leb_spec (a + b) U64_MAX); auto. Qed.

(** Why a header at index [j] makes the parser panic: a sum of its offset
    overflows, or it lies in the file at an offset that is not aligned. *)
Definition bad_phdr (data : list Z) (ehdr : Elf64Ehdr) (j : nat) : Prop :=
  U64_MAX < e_phoff ehdr + Z.of_nat j * 56 + 56
  \/ e_phoff ehdr mod 8 <> 0 /\ e_phoff ehdr + Z.of_nat j * 56 + 56 <= Z.of_nat (length data).

(** The loop over headers [i .. i + n): the segments in order, or an error, or
    a header that is not aligned or whose offset overflows. *)
Definition phdrs_result (data : list Z) (ehdr : Elf64Ehdr) (segments : list LoadSegment) (i n : nat)
    (r : outcome (result (list LoadSegment) ElfError)) : Prop :=
  match r with
  | Done (Ok segs) => segs = segments ++ concat (phdr_segment data ehdr <$> seq i n) /\ Forall (segment_ok data) segs
      /\ (length segs <= i + n)%nat
  | Done (Err _) => True
  | Panicked => exists j, (i <= j < i + n)%nat /\ bad_phdr data ehdr j
  end.

Lemma phdrs_result_S data ehdr segments i n r :
  phdrs_result data ehdr (segments ++ phdr_segment data ehdr i) (S i) n r -> phdrs_result data ehdr segments i (S n) r.
Proof.
  unfold phdrs_result. destruct r as [[segs|]|]; [|done|].
  - rewrite <- app_assoc. cbn [seq fmap list_fmap concat]. intros (? & ? & ?). split; [assumption|]. split; [assumption|lia].
  - intros (j & ? & ?). exists j. split; [lia|assumption].
Qed.

Lemma parse_phdrs_spec data ehdr n : forall i segments,
  bytes_ok data -> 0 <= e_phoff ehdr -> e_phentsize ehdr = 56 -> (i + n <= 8)%nat -> (length segments <= i)%nat ->
  Forall (segment_ok data) segments -> phdrs_result data ehdr segments i n (parse_phdrs data ehdr segments i n).
Proof.
  induction n as [|n IH]; intros i segments Hb Hoff Hent Hin Hl Hok; cbn [parse_phdrs].
  { cbn. rewrite app_nil_r. split; [reflexivity|]. split; [assumption|lia]. }
  unfold bind_ok, parse_phdr. rewrite Hent.
  destruct (add64_cases (e_phoff ehdr) (Z.of_nat i * 56)) as [[-> Ho]|[-> Ho]]; cbn [bind];
    [|exists i; split; [lia|left; lia]].
  destruct (add64_cases (e_phoff ehdr + Z.of_nat i * 56) (Z.of_nat PHDR_SIZE)) as [[-> He]|[-> He]]; cbn [bind];
    [|exists i; split; [lia|left; unfold PHDR_SIZE in He; lia]].
  destruct (Z.ltb_spec (Z.of_nat (length data)) (e_phoff ehdr + Z.of_nat i * 56 + Z.of_nat PHDR_SIZE)) as [|Hle]; [exact I|].
  assert (phdr_segment data ehdr i = match read_phdr data (Z.to_nat (e_phoff ehdr + Z.of_nat i * 56)) with
    | Done p => if p_type p =? PT_LOAD then [mkSegment (p_vaddr p) (p_offset p) (p_filesz p) (p_memsz p) (p_flags p)] else []
    | Panicked => [] end) as Hseg by reflexivity.
  destruct (read_phdr data _) as [p|] eqn:Ep; cbn [bind].
  2: { unfold read_phdr in Ep. destruct (Nat.eqb_spec (Z.to_nat (e_phoff ehdr + Z.of_nat i * 56) mod 8) 0) as [|Hne]; cbn [rust_assert bind] in Ep.
       - unfold PHDR_SIZE in *. rewrite !le_at_Done in Ep by lia. discriminate.
       - exists i. split; [lia|]. right. unfold PHDR_SIZE in *. split; [lia|lia]. }
  destruct (read_phdr_u64 _ _ _ Hb Ep) as (U1 & U2 & U3 & U4). unfold is_u64 in *.
  destruct (p_type p =? PT_LOAD); cbn [negb bind].
  2: { apply phdrs_result_S. rewrite Hseg, app_nil_r. apply IH; try assumption; lia. }
  destruct (Z.ltb_spec (p_memsz p) (p_filesz p)); [exact I|].
  destruct (Z.ltb_spec U64_MAX (p_offset p + p_filesz p)); [exact I|].
  destruct (Z.ltb_spec (Z.of_nat (length data)) (p_offset p + p_filesz p)); [exact I|].
  rewrite (proj2 (Nat.ltb_lt _ _)) by lia. cbn [rust_assert bind]. apply phdrs_result_S. rewrite Hseg.
  apply IH; try assumption; [lia|rewrite length_app; cbn; lia|].
  apply Forall_app_2; [assumption|]. constructor; [|constructor]. unfold segment_ok, is_u64. cbn. lia.
Qed.


(** ** A loaded segment, abstractly *)

(** The byte of a segment at an address. *)
Definition segment_byte (data : list Z) (seg : LoadSegment) (va : Z) : Z :=
  if (vaddr seg <=? va) && (va <? vaddr seg + file_size seg)
  then nth (Z.to_nat (file_offset seg + (va - vaddr seg))) data 0 else 0.

Definition page_image (data : list Z) (seg : LoadSegment) (page_vaddr : Z) : list Z :=
  (fun j => segment_byte data seg (page_vaddr + Z.of_nat j)) <$> seq 0 PAGE_LEN.

(** ** Bytes of frames *)

Lemma put_words_entry t t' j n : forall m i bytes,
  aligned t -> aligned t' -> (i + n <= ENTRY_COUNT)%nat -> (j < ENTRY_COUNT)%nat ->
  entry (put_words m t i n bytes) t' j
  = if decide (t = t' /\ (i <= j < i + n)%nat) then from_le (sub_slice bytes (8 * (j - i)) (8 * (j - i) + 8))
    else entry m t' j.
Proof.
  induction n as [|n IH]; intros m i bytes Ht Ht' Hi Hj; cbn [put_words].
  - rewrite decide_False by lia. reflexivity.
  - rewrite IH by (assumption || lia). rewrite entry_put by (assumption || lia).
    destruct (decide (t = t')) as [->|Hne].
    2: { rewrite !decide_False by tauto. reflexivity. }
    destruct (decide (j = i)) as [->|Hji].
    + rewrite decide_False by lia. rewrite !decide_True by lia. unfold sub_slice.
      replace (8 * (i - i))%nat with 0%nat by lia. reflexivity.
    + destruct (decide (i <= j < i + S n)%nat).
      * rewrite decide_True, decide_True by (split; [reflexivity|lia]). unfold sub_slice. rewrite drop_drop.
        do 2 f_equal; [lia|]. f_equal. lia.
      * rewrite !decide_False by (intros [_ ?]; lia). reflexivity.
Qed.

Lemma concat_chunks {X} n : forall (l : list X), length l = (8 * n)%nat ->
  concat ((fun i => sub_slice l (8 * i) (8 * i + 8)) <$> seq 0 n) = l.
Proof.
  induction n as [|n IH]; intros l Hl; cbn [seq fmap list_fmap concat].
  - now destruct l.
  - rewrite <- seq_shift, <- list_fmap_compose.
    transitivity (take 8 l ++ drop 8 l); [|apply take_drop]. f_equal.
    rewrite <- (IH (drop 8 l)) by (rewrite length_drop; lia). f_equal. apply list_fmap_ext. intros _ i _. cbn.
    unfold sub_slice. rewrite drop_drop. f_equal; [lia|]. f_equal. lia.
Qed.

Lemma length_frame_bytes m t : length (frame_bytes m t) = PAGE_LEN.
Proof.
  unfold frame_bytes. change PAGE_LEN with (8 * length (seq 0 ENTRY_COUNT))%nat.
  induction (seq 0 ENTRY_COUNT) as [|i l IH]; cbn [fmap list_fmap concat length]; [reflexivity|].
  rewrite length_app, length_to_le, IH. lia.
Qed.

Lemma frame_bytes_ext m m' t : (forall i, (i < ENTRY_COUNT)%nat -> entry m' t i = entry m t i) ->
  frame_bytes m' t = frame_bytes m t.
Proof.
  intros He. unfold frame_bytes. f_equal. apply list_fmap_ext. intros k i Hi.
  apply lookup_seq in Hi as [-> Hi]. now rewrite He.
Qed.

Lemma frame_bytes_ok m t : bytes_ok (frame_bytes m t).
Proof.
  unfold frame_bytes. induction (seq 0 ENTRY_COUNT) as [|i l IH]; cbn [fmap list_fmap concat]; [constructor|].
  apply Forall_app_2; [apply to_le_bytes_ok|exact IH].
Qed.

Lemma frame_bytes_put m t bytes : aligned t -> bytes_ok bytes -> length bytes = PAGE_LEN ->
  frame_bytes (put_words m t 0 ENTRY_COUNT bytes) t = bytes.
Proof.
  intros Ht Hb Hl. unfold frame_bytes. etransitivity; [|apply (concat_chunks ENTRY_COUNT bytes); unfold ENTRY_COUNT; lia].
  f_equal. apply list_fmap_ext. intros k i Hi. apply lookup_seq in Hi as [-> Hi].
  rewrite put_words_entry, decide_True by (assumption || lia || (split; [reflexivity|lia])).
  rewrite Nat.sub_0_r. cbn [Nat.add]. set (c := sub_slice bytes _ _).
  assert (length c = 8%nat) as Hc by (unfold c; rewrite length_sub_slice; unfold ENTRY_COUNT in *; lia).
  rewrite <- Hc. apply to_from_le. unfold c, sub_slice. now apply Forall_take, Forall_drop.
Qed.

Lemma frame_bytes_zero m t : aligned t -> frame_bytes (zero_frame m t) t = replicate PAGE_LEN 0.
Proof.
  intros Ht. transitivity (concat ((fun _ : nat => to_le 8 0) <$> seq 0 ENTRY_COUNT)).
  - unfold frame_bytes. f_equal. apply list_fmap_ext. intros k i Hi. apply lookup_seq in Hi as [-> Hi].
    now rewrite entry_zero_frame, decide_True by (assumption || lia).
  - vm_compute. reflexivity.
Qed.

(** ** Pages of a segment *)

(** Where a segment begins and how many pages it has. *)
Definition seg_start (seg : LoadSegment) : Z := vaddr seg - vaddr seg mod 4096.
Definition seg_count (seg : LoadSegment) : nat :=
  Z.to_nat ((vaddr seg + mem_size seg + 4095) / 4096 - vaddr seg / 4096).

(** A segment in the lower half. *)
Definition user_segment (data : list Z) (seg : LoadSegment) : Prop :=
  segment_ok data seg /\ vaddr seg + mem_size seg <= USER_SPACE_MAX.

Lemma page_down x : 0 <= x <= U64_MAX -> Z.land x (not64 0xFFF) = x - x mod 4096.
Proof. intros H. change 0xFFF with (Z.ones 12). now rewrite land_not64 by lia. Qed.

Lemma segment_pages_spec data seg : user_segment data seg ->
  segment_pages seg = Done (seg_start seg, seg_count seg).
Proof.
  intros [(Hv & Hm & _) Hu]. unfold segment_pages, seg_start, seg_count, is_u64, USER_SPACE_MAX, U64_MAX in *.
  destruct (add64_cases (vaddr seg) (mem_size seg)) as [[-> _]|[_ ?]]; [|unfold U64_MAX in *; lia]. cbn [bind].
  destruct (add64_cases (vaddr seg + mem_size seg) 0xFFF) as [[-> _]|[_ ?]]; [|unfold U64_MAX in *; lia]. cbn [bind].
  rewrite !page_down by (unfold U64_MAX; lia). do 2 f_equal. lia.
Qed.

Lemma seg_page_bounds data seg i : user_segment data seg -> (i < seg_count seg)%nat ->
  let page := seg_start seg + Z.of_nat i * 4096 in
  0 <= page /\ page + 4096 <= USER_SPACE_MAX /\ page mod 4096 = 0 /\ page / 4096 = vaddr seg / 4096 + Z.of_nat i
  /\ vaddr seg < page + 4096.
Proof.
  intros [(Hv & Hm & _) Hu] Hi. unfold seg_start, seg_count, is_u64, USER_SPACE_MAX in *. cbn zeta. lia.
Qed.

Lemma seg_page_cover data seg va : user_segment data seg -> vaddr seg <= va < vaddr seg + mem_size seg ->
  exists i, (i < seg_count seg)%nat /\ va / 4096 = (seg_start seg + Z.of_nat i * 4096) / 4096
    /\ va = seg_start seg + Z.of_nat i * 4096 + va mod 4096.
Proof.
  intros [(Hv & Hm & _) Hu] Hva. unfold seg_start, seg_count, is_u64, USER_SPACE_MAX in *.
  exists (Z.to_nat (va / 4096 - vaddr seg / 4096)). lia.
Qed.

Lemma length_page_image data seg page : length (page_image data seg page) = PAGE_LEN.
Proof. unfold page_image. now rewrite length_fmap, length_seq. Qed.

Lemma page_image_lookup data seg page j : (j < PAGE_LEN)%nat ->
  page_image data seg page !! j = Some (segment_byte data seg (page + Z.of_nat j)).
Proof. intros Hj. unfold page_image. rewrite list_lookup_fmap, lookup_seq_lt by assumption. reflexivity. Qed.

(** The bytes of the file in a page: [ois] of the segment are before it, or the
    segment begins [oip] bytes into it. *)
Lemma segment_byte_copy data seg page ois oip j :
  0 <= file_offset seg -> 0 <= ois <= file_size seg -> 0 <= oip < 4096 -> page + oip = vaddr seg + ois ->
  ois = 0 \/ oip = 0 -> (j < PAGE_LEN)%nat ->
  let n := Nat.min (PAGE_LEN - Z.to_nat oip) (Z.to_nat (file_size seg - ois)) in
  segment_byte data seg (page + Z.of_nat j)
  = if (Z.to_nat oip <=? j)%nat && (j <? Z.to_nat oip + n)%nat
    then nth (Z.to_nat (file_offset seg + ois) + (j - Z.to_nat oip)) data 0 else 0.
Proof.
  intros Hfo H1 H2 H3 H4 Hj n. unfold segment_byte.
  assert ((vaddr seg <=? page + Z.of_nat j) && (page + Z.of_nat j <? vaddr seg + file_size seg)
    = (Z.to_nat oip <=? j)%nat && (j <? Z.to_nat oip + n)%nat) as ->.
  { apply eq_true_iff_eq. rewrite !andb_true_iff, Z.leb_le, Z.ltb_lt, Nat.leb_le, Nat.ltb_lt. lia. }
  destruct (_ && _) eqn:E; [|reflexivity]. breflect. f_equal. lia.
Qed.

(** What is copied into a zeroed page makes it the image of the segment. *)
Lemma page_copy_spec data seg i : user_segment data seg -> (i < seg_count seg)%nat ->
  let page := seg_start seg + Z.of_nat i * 4096 in
  match page_copy data seg page with
  | Done None => page_image data seg page = replicate PAGE_LEN 0
  | Done (Some (off, src)) => (off + length src <= PAGE_LEN)%nat /\ splice (replicate PAGE_LEN 0) off src = page_image data seg page
      /\ (bytes_ok data -> bytes_ok src)
  | Panicked => False
  end.
Proof.
  intros Hus Hi page. pose proof (seg_page_bounds data seg i Hus Hi) as (Hp0 & Hpu & Hpm & _ & Hpv). fold page in Hp0, Hpu, Hpm, Hpv.
  clearbody page. clear Hi Hpm.
  destruct Hus as [(Hv & Hm & Hfo & Hfs & Hin) Hu]. unfold is_u64, USER_SPACE_MAX in *. unfold page_copy.
  destruct (add64_cases (vaddr seg) (file_size seg)) as [[-> _]|[_ ?]]; [|unfold U64_MAX in *; lia]. cbn [bind].
  assert ((forall j, (j < PAGE_LEN)%nat -> segment_byte data seg (page + Z.of_nat j) = 0) ->
    page_image data seg page = replicate PAGE_LEN 0) as Hz.
  { intros Hb. apply list_eq. intros j. destruct (decide (j < PAGE_LEN)%nat).
    - rewrite page_image_lookup, lookup_replicate_2 by assumption. now rewrite Hb.
    - rewrite !lookup_ge_None_2; [reflexivity|rewrite length_replicate; lia|rewrite length_page_image; lia]. }
  destruct (Z.ltb_spec page (vaddr seg + file_size seg)) as [Hlt|Hge]; cbn [negb].
  2: { apply Hz. intros j Hj. unfold segment_byte. destruct (_ && _) eqn:E; [|reflexivity]. breflect. lia. }
  set (ois := if vaddr seg <=? page then page - vaddr seg else 0).
  set (oip := if page <? vaddr seg then vaddr seg - page else 0).
  assert (0 <= ois <= file_size seg /\ 0 <= oip < 4096 /\ page + oip = vaddr seg + ois) as (Ho1 & Ho2 & Ho3).
  { unfold ois, oip. destruct (Z.leb_spec (vaddr seg) page), (Z.ltb_spec page (vaddr seg)); lia. }
  assert (ois = 0 \/ oip = 0) as Ho4.
  { unfold ois, oip. destruct (Z.leb_spec (vaddr seg) page), (Z.ltb_spec page (vaddr seg)); lia. }
  clearbody ois oip.
  destruct (add64_cases (file_offset seg) ois) as [[-> _]|[_ ?]]; [|unfold U64_MAX in *; lia]. cbn [bind].
  set (n := Nat.min (PAGE_LEN - Z.to_nat oip) (Z.to_nat (file_size seg - ois))).
  assert (forall j, (j < PAGE_LEN)%nat -> segment_byte data seg (page + Z.of_nat j)
    = if (Z.to_nat oip <=? j)%nat && (j <? Z.to_nat oip + n)%nat
      then nth (Z.to_nat (file_offset seg + ois) + (j - Z.to_nat oip)) data 0 else 0) as Hbyte.
  { intros j Hj. now apply segment_byte_copy. }
  clear Ho4 Hlt Hu Hpu Hpv Hp0 Hv Hm.
  destruct ((0 <? n)%nat && (file_offset seg + ois <? Z.of_nat (length data))) eqn:E.
  - breflect. rewrite slice_Done by lia. cbn [bind].
    rewrite length_sub_slice by lia. split; [lia|]. split.
    + apply list_eq. intros j. destruct (decide (j < PAGE_LEN)%nat).
      * rewrite page_image_lookup, Hbyte by assumption. rewrite lookup_splice by (rewrite ?length_replicate, ?length_sub_slice; lia).
        rewrite length_sub_slice by lia. set (a := Z.to_nat (file_offset seg + ois)).
        replace (a + n - a)%nat with n by lia. destruct (_ && _) eqn:E2; [|now apply lookup_replicate_2].
        breflect. rewrite lookup_sub_slice, (proj2 (Nat.ltb_lt _ _)) by lia. rewrite nth_lookup.
        destruct (data !! (a + (j - Z.to_nat oip))%nat) eqn:E3; [reflexivity|].
        apply lookup_ge_None in E3. lia.
      * rewrite !lookup_ge_None_2; [reflexivity|rewrite length_page_image; lia|].
        rewrite length_splice; rewrite ?length_replicate, ?length_sub_slice; lia.
    + intros Hb. unfold sub_slice. now apply Forall_take, Forall_drop.
  - assert (n = 0)%nat as Hn.
    { apply andb_false_iff in E as [E%Nat.ltb_ge|E%Z.ltb_ge]; lia. }
    clear E. apply Hz. intros j Hj. rewrite Hbyte by assumption. rewrite Hn, Nat.add_0_r.
    destruct (Nat.leb_spec (Z.to_nat oip) j); [|reflexivity]. now rewrite (proj2 (Nat.ltb_ge _ _)).
Qed.

(** ** The loop *)

Section Loading.
Context {A : Type} `{FrameSource A}.
Variable root : Z.

(** A page in place: its address, the flags it is mapped with and its bytes,
    which are in the frame [f]. *)
Definition page_at (s : Phys A) (pg : Z * Z * list Z) (f : nat) : Prop :=
  let '(va, fl, bytes) := pg in
  Z.of_nat f < 2 ^ 40 /\ pte (mem s) root va = Some (make_entry (frame_addr f) fl)
  /\ frame_bytes (mem s) (frame_addr f) = bytes /\ src_free (frames s) f = false
  /\ forall p, user_path p -> table_at (mem s) root p <> Some (frame_addr f).

(** The address space while it is loaded: the pages [L] are in place and no
    other page is mapped. *)
Record loading (L : list (Z * Z * list Z)) (s : Phys A) : Prop := mkLoading {
  ld_ok : src_ok (frames s);
  ld_wf : wf s root;
  ld_done : Forall (fun pg => exists f, page_at s pg f) L;
  ld_only : forall va, 0 <= va < USER_SPACE_MAX -> pte (mem s) root va <> None ->
    exists pg, pg ∈ L /\ fst (fst pg) / 4096 = va / 4096
}.

(** A page in place stays there while frames are taken, while other pages are
    mapped and while other frames are written. *)
Lemma page_at_alloc (s : Phys A) a pg f :
  (forall g, src_free (frames s) g = false -> src_free a g = false) -> page_at s pg f -> page_at (with_frames s a) pg f.
Proof.
  destruct pg as [[va fl] bytes]. intros Hm (Hf & Hp & Hb & Hfree & Hnt).
  split; [assumption|]. split; [exact Hp|]. split; [exact Hb|]. split; [now apply Hm|exact Hnt].
Qed.

Lemma page_at_kept s s' pg f :
  page_at s pg f -> extends s s' root -> pte (mem s') root (fst (fst pg)) = pte (mem s) root (fst (fst pg)) ->
  page_at s' pg f.
Proof.
  destruct pg as [[va fl] bytes]. intros (Hf & Hp & Hb & Hfree & Hnt) X Heq. cbn [fst] in Heq.
  destruct (ext_writes _ _ _ X) as [He Hfr]. pose proof (frame_addr_aligned f) as Hal.
  split; [assumption|]. split; [congruence|]. split; [|split].
  - rewrite <- Hb. apply frame_bytes_ext. intros i Hi.
    destruct (He (frame_addr f) i Hal Hi) as [E|[E|(p & Hup & E)]]; [assumption| |].
    + rewrite addr_frame_addr in E. congruence.
    + destruct (Hnt p Hup E).
  - destruct (src_free (frames s') f) eqn:E; [|reflexivity]. apply Hfr in E. congruence.
  - intros p Hup E. destruct (ext_new _ _ _ X p _ Hup E) as [E'|E']; [exact (Hnt p Hup E')|].
    rewrite addr_frame_addr in E'. congruence.
Qed.

Lemma page_at_write (s : Phys A) m' g pg f :
  page_at s pg f -> f <> g ->
  (forall t i, aligned t -> (i < ENTRY_COUNT)%nat -> t <> frame_addr g -> entry m' t i = entry (mem s) t i) ->
  (forall p, user_path p -> table_at m' root p = table_at (mem s) root p) ->
  pte m' root (fst (fst pg)) = pte (mem s) root (fst (fst pg)) ->
  page_at (with_mem s m') pg f.
Proof.
  destruct pg as [[va fl] bytes]. intros (Hf & Hp & Hb & Hfree & Hnt) Hne He Ht Hpte. cbn [fst] in *.
  split; [assumption|]. split; [cbn [mem with_mem]; congruence|].
  split; [|split; [exact Hfree|intros p Hup; cbn [mem with_mem]; rewrite Ht by assumption; auto]].
  rewrite <- Hb. apply frame_bytes_ext. intros i Hi. apply He; [apply frame_addr_aligned|assumption|].
  intros E. apply Hne. apply (f_equal addr_frame) in E. now rewrite !addr_frame_addr in E.
Qed.

(** Filling a page: its frame then holds the image, and nothing else changes. *)
Lemma fill_page_spec (s : Phys A) data seg i f :
  bytes_ok data -> user_segment data seg -> (i < seg_count seg)%nat ->
  let page := seg_start seg + Z.of_nat i * 4096 in
  exists m', fill_page data seg page f s = Done (Ok tt, with_mem s m')
    /\ frame_bytes m' (frame_addr f) = page_image data seg page
    /\ forall t j, aligned t -> (j < ENTRY_COUNT)%nat -> t <> frame_addr f -> entry m' t j = entry (mem s) t j.
Proof.
  intros Hb Hus Hi page. pose proof (page_copy_spec data seg i Hus Hi) as Hc. cbn zeta in Hc. fold page in Hc.
  unfold fill_page, sbind, zero, smodify, lift. pose proof (frame_addr_aligned f) as Hal.
  pose proof (frame_bytes_zero (mem s) (frame_addr f) Hal) as Hz.
  assert (forall t j, aligned t -> (j < ENTRY_COUNT)%nat -> t <> frame_addr f ->
    entry (zero_frame (mem s) (frame_addr f)) t j = entry (mem s) t j) as Ho.
  { intros t j Ht Hj Hne. now rewrite entry_zero_frame, decide_False by congruence. }
  set (m0 := zero_frame (mem s) (frame_addr f)) in *. clearbody m0.
  destruct (page_copy data seg page) as [[[off src]|]|]; [| |contradiction].
  - destruct Hc as (Hl & Hsp & Hsrc). cbn [mem with_mem].
    exists (write_frame m0 (frame_addr f) off src). split; [reflexivity|].
    unfold write_frame. rewrite Hz, Hsp. split.
    + apply frame_bytes_put; [assumption| |apply length_page_image]. rewrite <- Hsp. unfold splice.
      assert (bytes_ok (replicate PAGE_LEN 0)) as Hr by (apply Forall_replicate; unfold is_u8, U8_MAX; lia).
      apply Forall_app_2; [now apply Forall_take|]. apply Forall_app_2; [exact (Hsrc Hb)|now apply Forall_drop].
    + intros t j Ht Hj Hne. rewrite put_words_entry by (assumption || lia). rewrite decide_False by (intros [? _]; congruence).
      auto.
  - exists m0. split; [reflexivity|]. split; [congruence|assumption].
Qed.

Definition seg_page (data : list Z) (seg : LoadSegment) (i : nat) : Z * Z * list Z :=
  let page := seg_start seg + Z.of_nat i * 4096 in (page, segment_flags seg, page_image data seg page).

Lemma segment_flags_ok seg : is_present (segment_flags seg) = true /\ Z.land (segment_flags seg) ADDR_MASK = 0.
Proof. unfold segment_flags. destruct (is_writable seg), (is_executable seg); split; reflexivity. Qed.

(** The allocated frame is no table. *)
Lemma loading_alloc L (s : Phys A) a f :
  loading L s -> src_ok a -> src_free (frames s) f = true ->
  (forall g, src_free a g = negb (f =? g)%nat && src_free (frames s) g) ->
  wf (with_frames s a) root
  /\ (forall p, user_path p -> table_at (mem s) root p <> Some (frame_addr f)) /\ src_free a f = false
  /\ forall g, src_free (frames s) g = false -> src_free a g = false.
Proof.
  intros [Hok Hw Hd Ho] Hoka Hf Hfa.
  assert (forall g, src_free (frames s) g = false -> src_free a g = false) as Hmono.
  { intros g Hg. rewrite Hfa, Hg. apply andb_false_r. }
  split; [|split; [|split; [|assumption]]].
  - destruct Hw as [Hr Hinj Hown]. constructor; [assumption|exact Hinj|]. intros p t Hp Ht. apply Hmono. eauto.
  - intros p Hp Ht. pose proof (wf_owned _ _ Hw p _ Hp Ht) as E. rewrite addr_frame_addr in E. congruence.
  - rewrite Hfa, Nat.eqb_refl. reflexivity.
Qed.

(** Loading a page that is not mapped yet adds it. *)
Lemma load_page_spec L data seg i :
  bytes_ok data -> user_segment data seg -> (i < seg_count seg)%nat ->
  (forall pg, pg ∈ L -> 0 <= fst (fst pg) < USER_SPACE_MAX
     /\ fst (fst pg) / 4096 <> fst (fst (seg_page data seg i)) / 4096) ->
  hoare (loading L) (load_page data root seg (seg_start seg) i) (fun _ => loading (L ++ [seg_page data seg i]))
    (fun _ => exhausted).
Proof.
  intros Hb Hus Hi HL s Hld. unfold load_page. unfold sbind at 1, ok_or, sbind at 1, allocate_frame.
  destruct (src_alloc_spec (frames s) (ld_ok _ _ Hld)) as (r & a & -> & Hoka & Hr). cbn [bind].
  destruct r as [f|]; [|destruct Hr as [-> Hr]; exact Hr]. destruct Hr as [Hf Hfa]. cbn [sret].
  destruct (loading_alloc L s a f Hld Hoka Hf Hfa) as (Hwa & Hnt & Hff & Hmono).
  destruct (seg_page_bounds data seg i Hus Hi) as (Hp0 & Hpu & _).
  cbn [seg_page fst] in HL. set (page := seg_start seg + Z.of_nat i * 4096) in *.
  destruct (segment_flags_ok seg) as [Hpr Hmask].
  assert (0 <= page < USER_SPACE_MAX) as Hpg by (unfold USER_SPACE_MAX in *; lia).
  unfold sbind at 1, lift at 1.
  destruct (add64_cases (seg_start seg) (Z.of_nat i * 4096)) as [[-> _]|[_ ?]];
    [|unfold U64_MAX, USER_SPACE_MAX in *; lia]. fold page.
  pose proof (map_page_spec (with_frames s a) root page (frame_addr f) (segment_flags seg) Hoka Hwa
    (user_indices _ Hpg) Hpr) as Hm. unfold sbind at 1.
  destruct (map_page _ _ _ _ _) as [[[[]|msg] sb]|]; [|apply Hm|].
  2: { destruct Hm as (e & He & _). destruct (ld_only _ _ Hld page Hpg) as (pg & Hin & Heq); [cbn [mem with_frames] in He; congruence|].
       now apply HL in Hin as [_ Hin]. }
  destruct Hm as (X & _ & Hpte).
  destruct (fill_page_spec sb data seg i f Hb Hus Hi) as (m' & E & Himg & Hent). fold page in Himg, E. rewrite E.
  assert (forall p, user_path p -> table_at (mem sb) root p <> Some (frame_addr f)) as Hntb.
  { intros p Hp Ht. destruct (ext_new _ _ _ X p _ Hp Ht) as [Ht'|Ht']; [exact (Hnt p Hp Ht')|].
    rewrite addr_frame_addr in Ht'. cbn [frames with_frames] in Ht'. congruence. }
  assert (forall p t j, user_path p -> table_at (mem sb) root p = Some t -> (j < ENTRY_COUNT)%nat ->
    entry m' t j = entry (mem sb) t j) as Hun.
  { intros p t j Hp Ht Hj. apply Hent; [exact (table_at_aligned _ _ _ _ (wf_root _ _ (ext_wf _ _ _ X)) Ht)|assumption|].
    intros ->. exact (Hntb p Hp Ht). }
  destruct (same_tables _ _ _ Hun) as [Ht' Hl'].
  assert (forall va, 0 <= va < USER_SPACE_MAX -> pte m' root va = pte (mem sb) root va) as Hp'.
  { intros va Hva. apply Hl'; [now apply user_path_indices, user_indices|apply table_index_lt]. }
  constructor.
  - apply X.
  - destruct (ext_wf _ _ _ X) as [Wr Wi Wo]. constructor; [assumption| |].
    + intros p q t Hp Hq. cbn [mem with_mem]. rewrite !Ht' by assumption. eauto.
    + intros p t Hp. cbn [mem with_mem frames]. rewrite Ht' by assumption. eauto.
  - apply Forall_app_2; [|constructor; [|constructor]].
    + pose proof (ld_done _ _ Hld) as Hd. rewrite Forall_forall in Hd |- *. intros pg Hin.
      destruct (Hd pg Hin) as (g & Hg). destruct (HL pg Hin) as [Hva Hne].
      assert (g <> f) as Hgf by (intros ->; destruct pg as [[? ?] ?]; destruct Hg as (_ & _ & _ & Hg & _); congruence).
      exists g. apply (page_at_write _ _ f); try assumption; [|now apply Hp'].
      apply (page_at_kept (with_frames s a)); [now apply page_at_alloc|exact X|].
      rewrite Hpte by now apply user_indices. rewrite decide_False; [reflexivity|]. now rewrite indices_page.
    + exists f. unfold seg_page. fold page. pose proof (src_free_bound _ _ (ld_ok _ _ Hld) Hf).
      split; [lia|]. cbn [mem with_mem frames]. split.
      * rewrite Hp', Hpte by (assumption || now apply user_indices). now rewrite decide_True.
      * split; [assumption|]. split; [|intros p Hp; rewrite Ht' by assumption; auto].
        destruct (src_free (frames sb) f) eqn:Ef; [|reflexivity].
        apply (proj2 (ext_writes _ _ _ X)) in Ef. cbn [frames with_frames] in Ef. congruence.
  - intros va Hva. cbn [mem with_mem]. rewrite Hp', Hpte by (assumption || now apply user_indices).
    case_decide as Hd; intros Hn.
    + exists (seg_page data seg i). split; [apply elem_of_app; right; now apply list_elem_of_singleton|].
      unfold seg_page. cbn [fst]. fold page. symmetry. now apply indices_page.
    + destruct (ld_only _ _ Hld va Hva Hn) as (pg & Hin & Heq). exists pg. split; [apply elem_of_app; now left|assumption].
Qed.


(** The pages of a segment and of a file, and their numbers. *)
Definition seg_pages (data : list Z) (seg : LoadSegment) : list (Z * Z * list Z) :=
  seg_page data seg <$> seq 0 (seg_count seg).
Definition all_pages (data : list Z) (segments : list LoadSegment) : list (Z * Z * list Z) :=
  concat (seg_pages data <$> segments).
Definition page_numbers (pages : list (Z * Z * list Z)) : list Z := (fun pg => fst (fst pg) / 4096) <$> pages.

Lemma seg_pages_user data seg : user_segment data seg ->
  Forall (fun pg => 0 <= fst (fst pg) < USER_SPACE_MAX) (seg_pages data seg).
Proof.
  intros Hus. apply Forall_forall. intros pg Hin. apply list_elem_of_fmap in Hin as (i & -> & Hi).
  apply elem_of_seq in Hi. destruct (seg_page_bounds data seg i Hus) as (? & ? & _); [lia|]. cbn [seg_page fst]. lia.
Qed.

Lemma load_segment_spec L data seg :
  bytes_ok data -> user_segment data seg -> Forall (fun pg => 0 <= fst (fst pg) < USER_SPACE_MAX) L ->
  NoDup (page_numbers (L ++ seg_pages data seg)) ->
  hoare (loading L) (load_segment data root seg) (fun _ => loading (L ++ seg_pages data seg)) (fun _ => exhausted).
Proof.
  intros Hb Hus HL Hnd. unfold load_segment. rewrite (segment_pages_spec data seg Hus).
  change (hoare (loading L) (for_range 0 (seg_count seg) (load_page data root seg (seg_start seg)))
    (fun _ => loading (L ++ seg_pages data seg)) (fun _ => exhausted)).
  apply hoare_pre with (P' := loading (L ++ (seg_page data seg <$> seq 0 0))); [intros s; cbn; now rewrite app_nil_r|].
  apply (hoare_for_range (fun k => loading (L ++ (seg_page data seg <$> seq 0 k))) _ (seg_count seg) _ 0%nat).
  intros k Hk. rewrite seq_S, fmap_app. cbn [fmap list_fmap]. rewrite app_assoc. apply load_page_spec; try assumption; [lia|].
  intros pg Hin. assert (seg_pages data seg = (seg_page data seg <$> seq 0 k) ++ seg_page data seg k
    :: (seg_page data seg <$> seq (S k) (seg_count seg - S k))) as Hsplit.
  { unfold seg_pages. replace (seg_count seg) with (k + (1 + (seg_count seg - S k)))%nat at 1 by lia.
    rewrite seq_app, fmap_app. reflexivity. }
  split.
  - apply elem_of_app in Hin as [Hin|Hin].
    + rewrite Forall_forall in HL. auto.
    + pose proof (seg_pages_user data seg Hus) as Hu. rewrite Forall_forall in Hu. apply Hu.
      rewrite Hsplit. apply elem_of_app. now left.
  - intros Heq. rewrite Hsplit, app_assoc in Hnd. unfold page_numbers in Hnd. rewrite fmap_app in Hnd.
    cbn [fmap list_fmap] in Hnd. apply NoDup_app in Hnd as (_ & Hd & _). apply (Hd (fst (fst pg) / 4096)).
    + apply list_elem_of_fmap. now exists pg.
    + rewrite Heq. apply list_elem_of_here.
Qed.

Lemma load_all_spec data segments : forall L,
  bytes_ok data -> Forall (user_segment data) segments -> Forall (fun pg => 0 <= fst (fst pg) < USER_SPACE_MAX) L ->
  NoDup (page_numbers (L ++ all_pages data segments)) ->
  hoare (loading L) (load_all data root segments) (fun _ => loading (L ++ all_pages data segments)) (fun _ => exhausted).
Proof.
  induction segments as [|seg segments IH]; intros L Hb Hus HL Hnd; cbn [load_all].
  - intros s Hs. cbn. unfold all_pages. cbn. now rewrite app_nil_r.
  - inversion Hus as [|? ? Hu Hus']; subst. unfold all_pages in *. cbn [fmap list_fmap concat] in *. rewrite app_assoc in *.
    eapply hoare_bind; [apply load_segment_spec; try assumption|intros []; apply IH; try assumption].
    + unfold page_numbers in *. rewrite fmap_app in Hnd. now apply NoDup_app in Hnd as (Hn & _).
    + apply Forall_app_2; [assumption|now apply seg_pages_user].
Qed.

End Loading.

(** The permissions of a page of a segment: present, accessible to the user,
    writable (bit 1) when the segment has [PF_W] (bit 1 of its flags), and not
    executable (bit 63) unless it has [PF_X] (bit 0). *)
Definition permits (e : Z) (seg : LoadSegment) : Prop :=
  Z.testbit e 0 = true /\ Z.testbit e 2 = true /\ Z.testbit e 1 = Z.testbit (seg_flags seg) 1
  /\ Z.testbit e 63 = negb (Z.testbit (seg_flags seg) 0).

Lemma flag_bit x n : 0 <= n -> negb (Z.land x (2 ^ n) =? 0) = Z.testbit x n.
Proof.
  intros Hn. destruct (Z.testbit x n) eqn:E.
  - apply negb_true_iff, Z.eqb_neq. intros H. apply (f_equal (fun z => Z.testbit z n)) in H.
    rewrite Z.land_spec, E, Z.pow2_bits_true, Z.bits_0 in H by lia. discriminate.
  - apply negb_false_iff, Z.eqb_eq, Z.bits_inj_iff'. intros k Hk. rewrite Z.land_spec, Z.pow2_bits_eqb, Z.bits_0 by lia.
    destruct (Z.eqb_spec n k) as [<-|]; [now rewrite E|apply andb_false_r].
Qed.

Lemma segment_flags_permit f seg : permits (make_entry (frame_addr f) (segment_flags seg)) seg.
Proof.
  assert (forall n, n = 0 \/ n = 1 \/ n = 2 \/ n = 63 -> Z.testbit (make_entry (frame_addr f) (segment_flags seg)) n = Z.testbit (segment_flags seg) n) as Hn.
  { intros n Hn. unfold make_entry. rewrite Z.lor_spec, Z.land_spec.
    replace (Z.testbit ADDR_MASK n) with false by (destruct Hn as [->|[->|[->| ->]]]; reflexivity). now rewrite andb_false_r. }
  unfold permits. rewrite !Hn by tauto. unfold segment_flags, is_writable, is_executable.
  change PF_W with (2 ^ 1). change PF_X with (2 ^ 0). rewrite !flag_bit by lia.
  destruct (Z.testbit (seg_flags seg) 1), (Z.testbit (seg_flags seg) 0); repeat split; reflexivity.
Qed.

(** Segments whose pages are all in place. *)
Lemma pages_in_memory {A} `{FrameSource A} (s : Phys A) root data segments : Forall (user_segment data) segments ->
  Forall (fun pg => exists f, page_at root s pg f) (all_pages data segments) ->
  forall seg va, seg ∈ segments -> vaddr seg <= va < vaddr seg + mem_size seg ->
  exists e f, pte (mem s) root va = Some e /\ addr e = frame_addr f /\ permits e seg
    /\ frame_bytes (mem s) (frame_addr f) !! Z.to_nat (va mod 4096) = Some (segment_byte data seg va).
Proof.
  intros Hus Hd seg va Hin Hva.
  rewrite Forall_forall in Hus. pose proof (Hus seg Hin) as Hu.
  destruct (seg_page_cover data seg va Hu Hva) as (i & Hi & Hdiv & Heq).
  destruct (seg_page_bounds data seg i Hu Hi) as (Hp0 & Hpu & _).
  set (page := seg_start seg + Z.of_nat i * 4096) in *.
  rewrite Forall_forall in Hd. destruct (Hd (seg_page data seg i)) as (f & Hf & Hp & Hbytes & _).
  { apply list_elem_of_In, in_concat. exists (seg_pages data seg). split.
    - apply list_elem_of_In, list_elem_of_fmap. now exists seg.
    - apply list_elem_of_In, list_elem_of_fmap. exists i. split; [reflexivity|]. apply elem_of_seq. lia. }
  fold page in Hp, Hbytes. exists (make_entry (frame_addr f) (segment_flags seg)), f. unfold USER_SPACE_MAX in *.
  destruct (pte_page (mem s) root page va) as (_ & _ & ->); [unfold USER_SPACE_MAX; lia..|exact Hdiv|].
  split; [assumption|]. split; [apply make_entry_addr; [assumption|apply segment_flags_ok]|].
  split; [apply segment_flags_permit|]. rewrite Hbytes, page_image_lookup by lia. do 2 f_equal. lia.
Qed.

(** C12: a loaded program is in memory. For a file whose segments lie in the
    lower half and share no page, loaded into an empty address space,
    [load_elf_segments] never panics; when it succeeds, every byte of every segment's memory is
    mapped, accessible to the user, writable exactly if the segment is, and
    executable exactly if the segment is, to a frame that holds, at its place,
    the byte of the file, or zero beyond the part that is in the file; it fails
    only when no frame is left. *)
Theorem load_elf_segments_correct {A} `{FrameSource A} (s : Phys A) root data info :
  bytes_ok data -> Forall (user_segment data) (load_segments info) ->
  NoDup (page_numbers (all_pages data (load_segments info))) ->
  src_ok (frames s) -> wf s root -> (forall va, 0 <= va < USER_SPACE_MAX -> pte (mem s) root va = None) ->
  match load_elf_segments info data root s with
  | Done (Ok _, s') => wf s' root /\ forall seg va, seg ∈ load_segments info ->
      vaddr seg <= va < vaddr seg + mem_size seg ->
      exists e f, pte (mem s') root va = Some e /\ addr e = frame_addr f /\ permits e seg
        /\ frame_bytes (mem s') (frame_addr f) !! Z.to_nat (va mod 4096) = Some (segment_byte data seg va)
  | Done (Err _, s') => exhausted s'
  | Panicked => False
  end.
Proof.
  intros Hb Hus Hnd Hok Hw Hempty.
  pose proof (load_all_spec root data (load_segments info) [] Hb Hus (Forall_nil_2 _) Hnd s) as Hl.
  unfold load_elf_segments. cbn [app] in Hl.
  assert (loading root [] s) as Hld.
  { constructor; [assumption|assumption|constructor|]. intros va Hva Hn. now rewrite Hempty in Hn. }
  specialize (Hl Hld). destruct (load_all _ _ _ s) as [[[[]|msg] s']|]; [|exact Hl..].
  destruct Hl as [Hok' Hw' Hd _]. split; [assumption|]. now apply pages_in_memory.
Qed.

(** Segments that share a page are not loaded. When a page of a segment is
    already mapped, as the last page of the segment before it is when the two
    share it, loading it does not succeed: a new frame is allocated for it and
    [map_page] panics. *)
Theorem shared_page_not_loaded {A} `{FrameSource A} (s : Phys A) root data seg start i e :
  src_ok (frames s) -> wf s root -> 0 <= start + Z.of_nat i * 4096 < USER_SPACE_MAX ->
  pte (mem s) root (start + Z.of_nat i * 4096) = Some e -> src_free (frames s) (addr_frame (addr e)) = false ->
  match load_page data root seg start i s with
  | Done (Ok _, _) => False
  | Done (Err _, _) => exists a, src_alloc (frames s) = Done (None, a)
  | Panicked => True
  end.
Proof.
  intros Hok Hw Hva He Hnf. unfold load_page. unfold sbind at 1, ok_or, sbind at 1, allocate_frame.
  destruct (src_alloc_spec (frames s) Hok) as (r & a & -> & Hoka & Hr). cbn [bind].
  destruct r as [f|]; [|now exists a]. destruct Hr as [Hf Hfa]. cbn [sret]. set (va := start + Z.of_nat i * 4096) in *.
  unfold sbind at 1, lift. destruct (add64_cases start (Z.of_nat i * 4096)) as [[-> _]|[-> _]]; [|exact I]. fold va.
  unfold pte, leaf in He. destruct (table_at (mem s) root (dirs va)) as [t|] eqn:Ht; [|discriminate].
  destruct (is_present (entry (mem s) t (p1_index va))) eqn:Hp; [|discriminate]. injection He as <-.
  unfold sbind. rewrite (map_page_mapped _ _ _ _ _ t); [exact I|exact Ht|exact Hp|]. cbn [mem with_frames].
  pose proof (src_free_bound _ _ Hok Hf). rewrite page_align_frame by lia.
  intros E. rewrite E, addr_frame_addr in Hnf. congruence.
Qed.

(** ** Witnesses *)

Definition ehdr_bytes (phoff phnum : Z) : list Z :=
  ELF_MAGIC ++ [ELFCLASS64; ELFDATA2LSB; EV_CURRENT] ++ replicate 9 0 ++ to_le 2 ET_EXEC ++ to_le 2 EM_X86_64
  ++ to_le 4 1 ++ to_le 8 0x400078 ++ to_le 8 phoff ++ to_le 8 0 ++ to_le 4 0 ++ to_le 2 64 ++ to_le 2 56
  ++ to_le 2 phnum ++ replicate 6 0.

Definition phdr_bytes (va filesz memsz : Z) : list Z :=
  to_le 4 PT_LOAD ++ to_le 4 (Z.lor PF_R PF_X) ++ to_le 8 0 ++ to_le 8 va ++ to_le 8 va ++ to_le 8 filesz
  ++ to_le 8 memsz ++ to_le 8 4096.

(** A file with one segment at an address. *)
Definition demo_elf (va : Z) : list Z := ehdr_bytes 64 1 ++ phdr_bytes va 124 5000 ++ [0x0f; 0x05; 0x90; 0x90].

Definition demo_segment : LoadSegment := mkSegment 0x400000 0 124 5000 5.

#[local] Instance is_u8_dec z : Decision (is_u8 z).
Proof. unfold is_u8. apply _. Defined.

Ltac solve_bytes := unfold bytes_ok; refine (bool_decide_unpack _ _); vm_compute; exact I.

Lemma demo_elf_ok : bytes_ok (demo_elf 0x400000).
Proof. solve_bytes. Qed.


(** Crafted files. There are files on which [parse_elf] panics, the offset
    of its program headers overflowing or not being a multiple of 8; and there is
    one that it accepts with a segment at an address of the upper half, which is
    not the user's. *)
Theorem crafted_elf_files :
  (exists data, bytes_ok data /\ parse_elf data = Panicked)
  /\ (exists data, bytes_ok data /\ parse_elf (ehdr_bytes 65 1 ++ [0] ++ data) = Panicked)
  /\ exists data info, bytes_ok data /\ parse_elf data = Done (Ok info)
     /\ Exists (fun seg => USER_SPACE_MAX <= vaddr seg) (load_segments info).
Proof.
  split; [|split].
  - exists (ehdr_bytes U64_MAX 1). split; [solve_bytes|vm_compute; reflexivity].
  - exists (phdr_bytes 0x400000 124 5000). split; [solve_bytes|vm_compute; reflexivity].
  - exists (demo_elf 0xFFFF800000000000). eexists. split; [solve_bytes|]. split; [vm_compute; reflexivity|].
    constructor. vm_compute. discriminate.
Qed.

Lemma load_elf_segments_correct_witness :
  exists s' e f, load_elf_segments (mkInfo 0x400078 [demo_segment] 0x400040 1) (demo_elf 0x400000)
                 (fst demo_space) (snd demo_space) = Done (Ok tt, s')
    /\ pte (mem s') (fst demo_space) 0x400078 = Some e /\ permits e demo_segment
    /\ frame_bytes (mem s') (frame_addr f) !! 0x78%nat = Some 0x0f.
Proof.
  destruct demo_space_ok as [Hok Hw].
  pose proof (load_elf_segments_correct (snd demo_space) (fst demo_space) (demo_elf 0x400000)
    (mkInfo 0x400078 [demo_segment] 0x400040 1) demo_elf_ok) as Hc.
  assert (succeeds (load_elf_segments (mkInfo 0x400078 [demo_segment] 0x400040 1) (demo_elf 0x400000)
    (fst demo_space) (snd demo_space)) = true) as Hs by (vm_compute; reflexivity).
  destruct (load_elf_segments _ _ _ _) as [[[[]|msg] s']|]; [|discriminate..].
  destruct Hc as [_ Hc]; [| |exact Hok|exact Hw| |].
  - constructor; [|constructor]. unfold user_segment, segment_ok, is_u64, U64_MAX, USER_SPACE_MAX. cbn. lia.
  - refine (bool_decide_unpack _ _). vm_compute. exact I.
  - intros va Hva. apply empty_half_pte; [vm_compute; reflexivity|exact Hva].
  - destruct (Hc demo_segment 0x400078) as (e & f & Hp & _ & Hpm & Hb); [apply list_elem_of_here|cbn; lia|].
    exists s', e, f. split; [reflexivity|]. split; [exact Hp|]. split; [exact Hpm|exact Hb].
Defined.

Lemma shared_page_not_loaded_witness :
  exists s e, pte (mem s) (fst demo_space) 0x400000 = Some e
    /\ match load_page (demo_elf 0x400000) (fst demo_space) demo_segment 0x400000 0 s with
       | Done (Ok _, _) => False
       | Done (Err _, _) => exists a, src_alloc (frames s) = Done (None, a)
       | Panicked => True
       end.
Proof.
  destruct demo_space_ok as [Hok Hw].
  pose proof (map_page_spec (snd demo_space) (fst demo_space) 0x400000 (frame_addr 200) TABLE_FLAGS Hok Hw
    (user_indices 0x400000 ltac:(unfold USER_SPACE_MAX; lia)) eq_refl) as Hm.
  assert (match map_page (fst demo_space) 0x400000 (frame_addr 200) TABLE_FLAGS (snd demo_space) with
    | Done (Ok _, s) => negb (src_free (frames s) 200) | _ => false end = true) as Hs by (vm_compute; reflexivity).
  destruct (map_page _ _ _ _ _) as [[[[]|msg] s]|]; [|discriminate..].
  destruct Hm as (X & _ & Hp). specialize (Hp 0x400000 (user_indices 0x400000 ltac:(unfold USER_SPACE_MAX; lia))).
  rewrite decide_True in Hp by reflexivity. exists s. eexists. split; [exact Hp|].
  eapply shared_page_not_loaded; [apply X|apply X|unfold USER_SPACE_MAX; lia|exact Hp|].
  change (addr_frame (addr (make_entry (frame_addr 200) TABLE_FLAGS))) with 200%nat. now apply negb_true_iff in Hs.
Defined.

End Elf.
