(* ===== verification/Spaces.v ===== *)
(** * Address spaces as the system calls use them
      (src/kernel/src/paging.rs, process.rs, main.rs)

    [Spaces] is what the system-call handlers ask of the memory manager: bytes
    of an address space, named by the physical address of its root table, and
    the operations that map, unmap, copy, build and free address spaces.  The
    handlers of Kernel.v are written against it.  [Phys], the physical memory
    with its page tables and frame allocator, is the kernel's own instance: an
    access translates the address by a walk of the tables, and one to a page
    that is not there, to read or to write, goes through the page-fault
    handler.  [Ideal] is the specification: every address space is a map from
    addresses to bytes.  The theorems relate the two. *)

From S2P Require Import Prelude Bitmap FrameAlloc Memory Paging Abi Pipe FdTable Process Cow Bytes UserMem Elf.
Import Memory Paging Bytes UserMem.

Module Spaces.

Class Spaces (V : Type) : Type := {
  (** The byte at an address, and reading it in kernel mode. *)
  sp_load : V -> Z -> Z -> Z;
  sp_fetch : V -> Z -> Z -> outcome (Z * V);
  (** Writing bytes from an address on, in kernel mode. *)
  sp_store : V -> Z -> Z -> list Z -> outcome V;
  (** A new frame mapped at an address with flags: its physical address. *)
  sp_map : V -> Z -> Z -> Z -> outcome (result Z string * V);
  (** A page unmapped and its frame given back, if it is mapped. *)
  sp_unmap : V -> Z -> Z -> outcome V;
  (** The address space of a forked child. *)
  sp_fork : V -> Z -> outcome (result Z string * V);
  (** The address space of a program; the second argument is the active one. *)
  sp_build : V -> Z -> Elf.ElfInfo -> list Z -> outcome (result Z string * V);
  (** Giving an address space back, with or without its kernel stack. *)
  sp_free : V -> Z -> bool -> outcome (result unit string * V)
}.

Definition is_ok {T E} (r : result T E) : bool := match r with Ok _ => true | Err _ => false end.

(** ** Physical memory behind page tables *)

(** A byte of physical memory, in its 64-bit word. *)
Definition byte_at (m : gmap Z Z) (pa : Z) : Z := nth (Z.to_nat (pa mod 8)) (to_le 8 (word m (pa / 8))) 0.

Definition put_byte (m : gmap Z Z) (pa b : Z) : gmap Z Z :=
  <[pa / 8 := from_le (splice (to_le 8 (word m (pa / 8))) (Z.to_nat (pa mod 8)) [b])]> m.

(** The entry that maps an address. *)
Definition leaf_of (m : gmap Z Z) (root va : Z) : option Z :=
  match walk m root va with Some (t, i) => Some (entry m t i) | None => None end.

(** The physical address of a byte. *)
Definition phys_of (e va : Z) : Z := addr e + va mod 4096.

Definition USER_STACK_TOP : Z := 0x7FFFFFFFF000.

Section Phys.
Context {A : Type} `{FrameSource A}.

Notation paging T := (stm (Phys A) string T).

(** The byte that is read at an address; a page that is not there is zeroed
    when the fault handler maps it. *)
Definition phys_load (s : Phys A) (root va : Z) : Z :=
  match leaf_of (mem s) root va with
  | Some e => byte_at (mem s) (phys_of e va)
  | None => 0
  end.

(** Reading one byte in kernel mode: a page that is not there is mapped by the
    fault handler, or the kernel panics, and the instruction is executed
    again. *)
Definition phys_fetch (s : Phys A) (root va : Z) : outcome (Z * Phys A) :=
  match leaf_of (mem s) root va with
  | Some e => Done (byte_at (mem s) (phys_of e va), s)
  | None =>
      match Cow.page_fault_handler [] root va false false false s with
      | Done (_, s') =>
          match leaf_of (mem s') root va with
          | Some e => Done (byte_at (mem s') (phys_of e va), s')
          | None => Panicked
          end
      | Panicked => Panicked
      end
  end.

(** Writing one byte in kernel mode; after a fault that the handler resolved
    the instruction is executed again. *)
Definition phys_store1 (s : Phys A) (root va b : Z) : outcome (Phys A) :=
  match leaf_of (mem s) root va with
  | Some e =>
      if contains (flags e) WRITABLE
      then Done (with_mem s (put_byte (mem s) (phys_of e va) b))
      else Panicked
  | None =>
      match Cow.page_fault_handler [] root va false true false s with
      | Done (_, s') =>
          match leaf_of (mem s') root va with
          | Some e => Done (with_mem s' (put_byte (mem s') (phys_of e va) b))
          | None => Panicked
          end
      | Panicked => Panicked
      end
  end.

Fixpoint phys_store (s : Phys A) (root va : Z) (bytes : list Z) : outcome (Phys A) :=
  match bytes with
  | [] => Done s
  | b :: rest => let! s := phys_store1 s root va b in phys_store s root (va + 1) rest
  end.

(** [allocate_frame] and [map_page] of a loop that grows an address space. *)
Definition phys_map (root va fl : Z) : paging Z :=
  let% f := ok_or allocate_frame "Out of memory" in
  let% _ := map_page root va (frame_addr f) fl in
  sret (frame_addr f).

(** [if let Ok(phys_addr) = unmap_page(..) { deallocate_frame(..) }]. *)
Definition phys_unmap (s : Phys A) (root va : Z) : outcome (Phys A) :=
  match unmap_page root va s with
  | Done (Ok pa, s') => match deallocate_frame (addr_frame pa) s' with Done (_, s'') => Done s'' | Panicked => Panicked end
  | Done (Err _, s') => Done s'
  | Panicked => Panicked
  end.

(** The address space [Process::replace_image] builds; it is given back when
    the program does not fit. *)
Definition phys_build (cr3 : Z) (info : Elf.ElfInfo) (data : list Z) : paging Z :=
  let% new_page_table := create_user_page_table cr3 in
  fun s =>
    match (let% _ := Elf.load_elf_segments info data new_page_table in
           allocate_user_stack new_page_table USER_STACK_TOP 4) s with
    | Done (Ok _, s') => Done (Ok new_page_table, s')
    | Done (Err err, s') =>
        match free_process_address_space new_page_table false s' with
        | Done (Ok _, s'') => Done (Err err, s'')
        | Done (Err err', s'') => Done (Err err', s'')
        | Panicked => Panicked
        end
    | Panicked => Panicked
    end.

#[export] Instance phys_spaces : Spaces (Phys A) := {
  sp_load := phys_load;
  sp_fetch := phys_fetch;
  sp_store := phys_store;
  sp_map s root va fl := phys_map root va fl s;
  sp_unmap := phys_unmap;
  sp_fork s root := Cow.fork_space root s;
  sp_build s cr3 info data := phys_build cr3 info data s;
  sp_free s root k := free_process_address_space root k s
}.

End Phys.

(** ** The specification *)

(** Every address space is a map from addresses to bytes; memory is unlimited. *)
Record Ideal : Type := mkIdeal { next_space : Z; contents : gmap Z Mem }.

Definition space (i : Ideal) (root : Z) : Mem := default ∅ (contents i !! root).

(** The bytes of the segments of a program. *)
Definition image_of (info : Elf.ElfInfo) (data : list Z) : Mem :=
  foldl (fun m seg => write_bytes m (Elf.vaddr seg)
                        (sub_slice data (Z.to_nat (Elf.file_offset seg))
                           (Z.to_nat (Elf.file_offset seg + Elf.file_size seg)))) ∅ (Elf.load_segments info).

#[export] Instance ideal_spaces : Spaces Ideal := {
  sp_load i root va := read8 (space i root) va;
  sp_fetch i root va := Done (read8 (space i root) va, i);
  sp_store i root va bytes :=
    Done (mkIdeal (next_space i) (<[root := write_bytes (space i root) va bytes]> (contents i)));
  sp_map i root va fl := Done (Ok (next_space i), mkIdeal (next_space i + 4096) (contents i));
  sp_unmap i root va :=
    Done (mkIdeal (next_space i)
            (<[root := filter (fun kv => kv.1 / 4096 <> va / 4096) (space i root)]> (contents i)));
  sp_fork i root :=
    Done (Ok (next_space i), mkIdeal (next_space i + 4096) (<[next_space i := space i root]> (contents i)));
  sp_build i _ info data :=
    Done (Ok (next_space i), mkIdeal (next_space i + 4096) (<[next_space i := image_of info data]> (contents i)));
  sp_free i root _ := Done (Ok tt, mkIdeal (next_space i) (delete root (contents i)))
}.

(** What a memory promises that keeps address spaces apart: an operation on one
    of them leaves the bytes of every other one that was made, and what is new
    was not there. *)
Definition unchanged {V} {SP : Spaces V} (v v' : V) (r : Z) : Prop := forall a, sp_load v' r a = sp_load v r a.

Class Apart (V : Type) {SP : Spaces V} : Type := {
  made : V -> Z -> Prop;
  apart_fetch : forall v root a b v' r, sp_fetch v root a = Done (b, v') -> made v r -> r <> root ->
    made v' r /\ unchanged v v' r;
  apart_store : forall v root a bytes v' r, sp_store v root a bytes = Done v' -> made v r -> r <> root ->
    made v' r /\ unchanged v v' r;
  apart_map : forall v root a fl x v' r, sp_map v root a fl = Done (x, v') -> made v r -> r <> root ->
    made v' r /\ unchanged v v' r;
  apart_unmap : forall v root a v' r, sp_unmap v root a = Done v' -> made v r -> r <> root ->
    made v' r /\ unchanged v v' r;
  apart_fork : forall v root x v' r, sp_fork v root = Done (x, v') -> made v r -> r <> root ->
    made v' r /\ unchanged v v' r /\ x <> Ok r;
  apart_build : forall v active info data x v' r, sp_build v active info data = Done (x, v') -> made v r -> r <> active ->
    made v' r /\ unchanged v v' r /\ x <> Ok r;
  apart_free : forall v root b x v' r, sp_free v root b = Done (x, v') -> made v r -> r <> root ->
    made v' r /\ unchanged v v' r
}.

(** A user address. *)
Definition user (va : Z) : Prop := 0 <= va < USER_SPACE_MAX.

(** An address space that shares no frame: its tables are distinct, its pages
    have frames of their own that are no tables, and none of these is free. *)
Record private {A} `{FrameSource A} (s : Phys A) (root : Z) : Prop := mkPrivate {
  pv_ok : src_ok (frames s);
  pv_wf : wf s root;
  pv_frame : forall va e, user va -> pte (mem s) root va = Some e ->
    src_free (frames s) (addr_frame (addr e)) = false
    /\ forall p, user_path p -> table_at (mem s) root p <> Some (addr e);
  pv_distinct : forall va va' e e', user va -> user va' ->
    pte (mem s) root va = Some e -> pte (mem s) root va' = Some e' -> addr e = addr e' ->
    va / 4096 = va' / 4096
}.

(** The user half of the address space holds the bytes of [m]. *)
Definition represents {A} `{FrameSource A} (s : Phys A) (root : Z) (m : Mem) : Prop :=
  forall va, user va -> phys_load s root va = read8 m va.

(** A page that is mapped is mapped writable. *)
Definition writable_at {A} (s : Phys A) (root va : Z) : Prop :=
  forall e, pte (mem s) root va = Some e -> contains (flags e) WRITABLE = true.

(** ** The reference memory keeps address spaces apart *)

Lemma space_other i n r root m x : r <> root -> read8 (space (mkIdeal n (<[root := m]> (contents i))) r) x = read8 (space i r) x.
Proof. intros H. unfold space. cbn [contents]. now rewrite lookup_insert_ne by congruence. Qed.

#[export, refine] Instance ideal_apart : Apart Ideal := {| made i r := r < next_space i |}.
Proof.
  - intros v root a b v' r [= _ <-] Hm _. split; [exact Hm|now intros x].
  - intros v root a bytes v' r [= <-] Hm Hn. split; [exact Hm|]. intros x. now apply space_other.
  - intros v root a fl x v' r [= _ <-] Hm _. split; [cbn; lia|now intros y].
  - intros v root a v' r [= <-] Hm Hn. split; [exact Hm|]. intros x. now apply space_other.
  - intros v root x v' r [= <- <-] Hm _. split; [cbn; lia|]. split; [intros y; apply space_other; lia|intros [=]; lia].
  - intros v active info data x v' r [= <- <-] Hm _. split; [cbn; lia|]. split; [intros y; apply space_other; lia|intros [=]; lia].
  - intros v root b x v' r [= _ <-] Hm Hn. split; [exact Hm|]. intros y. cbn. unfold space. cbn [contents].
    now rewrite lookup_delete_ne by congruence.
Defined.

(** ** Bytes in words *)

Lemma byte_put m pa pa' b : is_u8 b -> 0 <= pa -> 0 <= pa' ->
  byte_at (put_byte m pa b) pa' = if decide (pa' = pa) then b else byte_at m pa'.
Proof.
  intros Hb Hp Hp'. unfold byte_at, put_byte, word. destruct (decide (pa' / 8 = pa / 8)) as [E|E].
  - rewrite E, lookup_insert_eq. cbn [default from_option id].
    set (w := to_le 8 (default 0 (m !! (pa / 8)))). assert (length w = 8%nat) as Hw by apply length_to_le.
    assert (bytes_ok (splice w (Z.to_nat (pa mod 8)) [b])) as Hs.
    { unfold splice. repeat apply Forall_app_2; [apply Forall_take|constructor; [assumption|constructor]|apply Forall_drop];
        apply to_le_bytes_ok. }
    assert (length (splice w (Z.to_nat (pa mod 8)) [b]) = 8%nat) as Hl by (rewrite length_splice; cbn; lia).
    pose proof (to_from_le _ Hs) as Hx. rewrite Hl in Hx. rewrite Hx.
    destruct (decide (pa' = pa)) as [->|Hne].
    + unfold splice. rewrite app_nth2 by (rewrite length_take; lia). rewrite length_take.
      replace (_ - _)%nat with 0%nat by lia. reflexivity.
    + unfold splice. destruct (decide (pa' mod 8 < pa mod 8)) as [Hlt|Hlt].
      * rewrite app_nth1 by (rewrite length_take; lia).
        rewrite !nth_lookup, lookup_take_lt by lia. reflexivity.
      * rewrite app_nth2 by (rewrite length_take; lia). rewrite length_take.
        rewrite app_nth2 by (cbn; lia). cbn [length]. rewrite !nth_lookup, lookup_drop. f_equal. f_equal. lia.
  - rewrite lookup_insert_ne by congruence. rewrite decide_False by (intros ->; congruence). reflexivity.
Qed.

(** A byte belongs to one frame. *)
Lemma entry_put_byte m pa b t i : aligned t -> (i < ENTRY_COUNT)%nat -> 0 <= pa -> pa / 4096 <> t / 4096 ->
  entry (put_byte m pa b) t i = entry m t i.
Proof.
  intros [Ht0 Ht] Hi Hp Hne. unfold entry, put_byte, word, ENTRY_COUNT in *. rewrite lookup_insert_ne; [reflexivity|].
  intros E. apply Hne. lia.
Qed.

Lemma leaf_of_pte m root va : leaf_of m root va = pte m root va.
Proof.
  unfold leaf_of, pte, leaf. rewrite walk_pte. destruct (table_at _ _ _); [|reflexivity].
  cbn zeta. destruct (is_present _); reflexivity.
Qed.

Lemma phys_of_frame e va : phys_of e va / 4096 = addr e / 4096 /\ 0 <= phys_of e va
  /\ phys_of e va mod 4096 = va mod 4096.
Proof. destruct (addr_bounds e) as [[Ha Hp] _]. unfold phys_of. lia. Qed.

Lemma phys_of_eq e e' va va' : phys_of e va = phys_of e' va' <-> addr e = addr e' /\ va mod 4096 = va' mod 4096.
Proof. destruct (addr_bounds e) as [[] _], (addr_bounds e') as [[] _]. unfold phys_of. lia. Qed.

Lemma frame_of_addr t t' : aligned t -> aligned t' -> t / 4096 = t' / 4096 -> t = t'.
Proof. intros [] []. lia. Qed.

Section Store.
Context {A : Type} {FS : FrameSource A}.

(** What a private address space is, in terms of its tables and pages: it
    stays private when they stay as they are. *)
Lemma private_ext (s s' : Phys A) root : private s root -> frames s' = frames s ->
  (forall p t i, user_path p -> table_at (mem s) root p = Some t -> (i < ENTRY_COUNT)%nat ->
     entry (mem s') t i = entry (mem s) t i) ->
  private s' root /\ forall va, user va -> pte (mem s') root va = pte (mem s) root va.
Proof.
  intros [Hok Hw Hf Hd] Hfr Hs. destruct (same_tables (mem s) (mem s') root Hs) as [Ht Hl].
  assert (forall va, user va -> pte (mem s') root va = pte (mem s) root va) as Hp.
  { intros va Hva. apply Hl; [apply user_path_indices, user_indices, Hva|apply table_index_lt]. }
  split; [|exact Hp]. constructor.
  - now rewrite Hfr.
  - destruct Hw as [Hr Hi Ho]. constructor; [assumption| |].
    + intros p q t Hpp Hq. rewrite !Ht by assumption. now apply Hi.
    + intros p t Hpp. rewrite Ht by assumption. rewrite Hfr. now apply Ho.
  - intros va e Hva. rewrite Hp by assumption. intros He. rewrite Hfr.
    destruct (Hf va e Hva He) as [H1 H2]. split; [assumption|].
    intros p Hpp. rewrite Ht by assumption. now apply H2.
  - intros va va' e e' Hva Hva'. rewrite !Hp by assumption. now apply Hd.
Qed.

(** Writing a byte of a page that is mapped. *)
Lemma put_byte_spec (s : Phys A) root m va e b :
  private s root -> represents s root m -> user va -> is_u8 b -> pte (mem s) root va = Some e ->
  let s' := with_mem s (put_byte (mem s) (phys_of e va) b) in
  private s' root /\ represents s' root (<[va := b]> m)
  /\ forall va', user va' -> pte (mem s') root va' = pte (mem s) root va'.
Proof.
  intros Hpv Hr Hva Hb He s'. destruct (phys_of_frame e va) as (Hq & Hq0 & _).
  destruct (private_ext s s' root Hpv eq_refl) as [Hpv' Hp].
  { intros p t i Hpp Ht Hi. apply entry_put_byte; [|assumption..|].
    - eapply table_at_aligned; [apply (wf_root _ _ (pv_wf _ _ Hpv))|eassumption].
    - rewrite Hq. intros E. apply (proj2 (pv_frame _ _ Hpv va e Hva He) p Hpp). rewrite Ht. f_equal.
      apply frame_of_addr; [eapply table_at_aligned; [apply (wf_root _ _ (pv_wf _ _ Hpv))|eassumption]| |congruence].
      apply addr_bounds. }
  split; [exact Hpv'|]. split; [|exact Hp]. intros va' Hva'. unfold phys_load.
  rewrite leaf_of_pte, Hp by assumption. specialize (Hr va' Hva'). unfold phys_load in Hr. rewrite leaf_of_pte in Hr.
  destruct (decide (va' = va)) as [->|Hne].
  - rewrite He. unfold s'. cbn [mem with_mem]. rewrite byte_put, decide_True by (assumption || reflexivity).
    unfold read8. now rewrite lookup_insert_eq.
  - unfold read8. rewrite lookup_insert_ne by congruence. fold (read8 m va'). rewrite <- Hr.
    destruct (pte (mem s) root va') as [e'|] eqn:He'; [|reflexivity].
    unfold s'. cbn [mem with_mem]. rewrite byte_put by (assumption || apply phys_of_frame). rewrite decide_False; [reflexivity|].
    rewrite phys_of_eq. intros [Ea Em]. pose proof (pv_distinct _ _ Hpv va' va e' e Hva' Hva He' He Ea) as Ed. lia.
Qed.

(** A byte depends on the words of its frame. *)
Lemma byte_at_frame m m' e va : (forall i, (i < ENTRY_COUNT)%nat -> entry m' (addr e) i = entry m (addr e) i) ->
  byte_at m' (phys_of e va) = byte_at m (phys_of e va).
Proof.
  intros He. unfold byte_at. destruct (addr_bounds e) as [[Ha Hp] _].
  specialize (He (Z.to_nat (va mod 4096 / 8)) ltac:(unfold ENTRY_COUNT; lia)). unfold entry in He.
  replace (addr e / 8 + _) with (phys_of e va / 8) in He by (unfold phys_of; lia). now rewrite He.
Qed.

(** A frame taken from the allocator belongs to nothing. *)
Lemma private_alloc (s : Phys A) root a f : private s root -> src_ok a -> src_free (frames s) f = true ->
  (forall g, src_free a g = negb (f =? g)%nat && src_free (frames s) g) ->
  private (with_frames s a) root /\ src_free a f = false
  /\ (forall p, user_path p -> table_at (mem s) root p <> Some (frame_addr f))
  /\ forall va e, user va -> pte (mem s) root va = Some e -> addr e <> frame_addr f.
Proof.
  intros [Hok [Wr Wi Wo] Hf Hd] Hoka Hff Hfa.
  assert (forall g, src_free (frames s) g = false -> src_free a g = false) as Hmono.
  { intros g Hg. rewrite Hfa, Hg. apply andb_false_r. }
  split; [|split; [|split]].
  - constructor; [assumption| | |exact Hd].
    + constructor; [assumption|exact Wi|]. intros p t Hp Ht. apply Hmono. eauto.
    + intros va e Hva He. destruct (Hf va e Hva He). split; [now apply Hmono|assumption].
  - rewrite Hfa, Nat.eqb_refl. reflexivity.
  - intros p Hp Ht. pose proof (Wo p _ Hp Ht) as E. rewrite addr_frame_addr in E. congruence.
  - intros va e Hva He E. destruct (Hf va e Hva He) as [E' _]. rewrite E, addr_frame_addr in E'. congruence.
Qed.

(** Growing the tables keeps the pages and their bytes. *)
Lemma extends_pages (s s' : Phys A) root va e i : private s root -> extends s s' root -> user va ->
  pte (mem s) root va = Some e -> (i < ENTRY_COUNT)%nat ->
  entry (mem s') (addr e) i = entry (mem s) (addr e) i /\ src_free (frames s') (addr_frame (addr e)) = false
  /\ forall p, user_path p -> table_at (mem s') root p <> Some (addr e).
Proof.
  intros Hpv X Hva He Hi. destruct (pv_frame _ _ Hpv va e Hva He) as [Hf Hnt]. split; [|split].
  - destruct (proj1 (ext_writes _ _ _ X) (addr e) i) as [E|[E|(p & Hp & E)]]; [apply addr_bounds|assumption..| |].
    + congruence.
    + now destruct (Hnt p Hp).
  - destruct (src_free (frames s') _) eqn:E; [|reflexivity]. apply (proj2 (ext_writes _ _ _ X)) in E. congruence.
  - intros p Hp Ht. destruct (ext_new _ _ _ X p _ Hp Ht) as [E|E]; [now destruct (Hnt p Hp)|congruence].
Qed.

(** A fresh frame mapped at an address that was not mapped. *)
Lemma map_fresh_spec (s : Phys A) root va f a fl :
  private s root -> user va -> pte (mem s) root va = None ->
  src_ok a -> src_free (frames s) f = true -> (forall g, src_free a g = negb (f =? g)%nat && src_free (frames s) g) ->
  is_present fl = true -> Z.land fl ADDR_MASK = 0 ->
  match map_page root va (frame_addr f) fl (with_frames s a) with
  | Done (r, s') =>
      private s' root
      /\ (forall va' e i, user va' -> pte (mem s) root va' = Some e -> (i < ENTRY_COUNT)%nat ->
           entry (mem s') (addr e) i = entry (mem s) (addr e) i)
      /\ (forall p, user_path p -> table_at (mem s') root p <> Some (frame_addr f))
      /\ forall va', user va' -> pte (mem s') root va' =
           if is_ok r && bool_decide (va' / 4096 = va / 4096) then Some (make_entry (frame_addr f) fl)
           else pte (mem s) root va'
  | Panicked => False
  end.
Proof.
  intros Hpv Hva Hn Hoka Hf Hfa Hfl Hmask.
  destruct (private_alloc s root a f Hpv Hoka Hf Hfa) as (Hpa & Haf & Hnt & Hnp).
  pose proof (map_page_spec (with_frames s a) root va (frame_addr f) fl Hoka (pv_wf _ _ Hpa)
    (user_indices _ Hva) Hfl) as Hm.
  assert (addr (make_entry (frame_addr f) fl) = frame_addr f) as Hma.
  { apply make_entry_addr; [|assumption]. pose proof (src_free_bound _ _ (pv_ok _ _ Hpv) Hf). lia. }
  set (s0 := with_frames s a) in *. destruct (map_page _ _ _ _ s0) as [[r s']|];
    [|destruct Hm as (e & He & _); change (mem s0) with (mem s) in He; congruence].
  assert (extends s0 s' root) as X by (destruct r; apply Hm).
  assert (forall p, user_path p -> table_at (mem s') root p <> Some (frame_addr f)) as Hnt'.
  { intros p Hp Ht. destruct (ext_new _ _ _ X p _ Hp Ht) as [E|E]; [now apply (Hnt p Hp)|].
    rewrite addr_frame_addr in E. change (frames s0) with a in E. congruence. }
  assert (src_free (frames s') f = false) as Hff.
  { destruct (src_free (frames s') f) eqn:E; [|reflexivity]. apply (proj2 (ext_writes _ _ _ X)) in E.
    change (frames s0) with a in E. congruence. }
  assert (forall va', user va' -> pte (mem s') root va' =
    if is_ok r && bool_decide (va' / 4096 = va / 4096) then Some (make_entry (frame_addr f) fl)
    else pte (mem s) root va') as Hp.
  { intros va' Hva'. destruct r as [[]|msg].
    - destruct Hm as (_ & _ & P). rewrite P by now apply user_indices.
      cbn [is_ok andb]. destruct (decide (indices va' = indices va)) as [E|E].
      + apply indices_page in E; [|assumption..]. now rewrite bool_decide_eq_true_2.
      + rewrite bool_decide_eq_false_2; [reflexivity|]. intros E'. apply E. now apply indices_page.
    - destruct Hm as (_ & _ & P). now rewrite P by now apply user_indices. }
  split; [|split; [|split; [exact Hnt'|exact Hp]]].
  - constructor; [apply X|apply X| |].
    + intros va' e Hva'. rewrite Hp by assumption. destruct (is_ok r && _).
      * intros [= <-]. rewrite Hma. rewrite addr_frame_addr. auto.
      * intros He. now apply (extends_pages s0 s' root va' e 0 Hpa X Hva' He ltac:(unfold ENTRY_COUNT; lia)).
    + intros v1 v2 e1 e2 H1 H2. rewrite !Hp by assumption.
      destruct (is_ok r && bool_decide (v1 / 4096 = _)) eqn:D1, (is_ok r && bool_decide (v2 / 4096 = _)) eqn:D2;
        intros E1 E2 Ea; breflect; [lia| | |exact (pv_distinct _ _ Hpv v1 v2 e1 e2 H1 H2 E1 E2 Ea)].
      * injection E1 as <-. exfalso. apply (Hnp v2 e2 H2 E2). congruence.
      * injection E2 as <-. exfalso. apply (Hnp v1 e1 H1 E1). congruence.
  - intros va' e i Hva' He Hi. now apply (extends_pages s0 s' root va' e i Hpa X Hva' He).
Qed.

Lemma flags_make_entry f fl : flags (make_entry (frame_addr f) fl) = flags fl.
Proof.
  unfold flags, make_entry. rewrite Z.land_lor_distr_l, <- Z.land_assoc. change (Z.land ADDR_MASK 0xFFF) with 0.
  now rewrite Z.land_0_r.
Qed.

(** The flags of a demand-paged page: readable and writable. *)
Notation DEMAND := (Z.lor (Z.lor (Z.lor PRESENT USER_ACCESSIBLE) WRITABLE) NO_EXECUTE).

(** An access to a page that is not there: the handler maps a zeroed page,
    which is what the address space held there. *)
Lemma fault_spec (s : Phys A) root m va write :
  private s root -> represents s root m -> user va -> pte (mem s) root va = None ->
  match Cow.page_fault_handler [] root va false write false s with
  | Done (_, s') => private s' root /\ represents s' root m
      /\ (exists e, pte (mem s') root va = Some e /\ contains (flags e) WRITABLE = true)
      /\ forall va', user va' -> va' / 4096 <> va / 4096 -> pte (mem s') root va' = pte (mem s) root va'
  | Panicked => True
  end.
Proof.
  intros Hpv Hr Hva Hn. unfold Cow.page_fault_handler. cbn [negb andb].
  rewrite (proj2 (Z.ltb_lt va USER_SPACE_MAX)) by apply Hva.
  unfold Cow.handle_demand_paging. rewrite Elf.page_down by (unfold user, USER_SPACE_MAX, U64_MAX in *; lia).
  set (page := va - va mod 4096). assert (user page /\ page / 4096 = va / 4096) as [Hpg Hpe]
    by (unfold user, page in *; lia).
  change (Cow.demand_flags [] page) with DEMAND.
  unfold Cow.expect_some, allocate_frame, sbind.
  destruct (src_alloc_spec (frames s) (pv_ok _ _ Hpv)) as (r & a & -> & Hoka & Hf). cbn [bind].
  destruct r as [f|]; [|exact I]. destruct Hf as [Hf Hfa]. unfold sret, Cow.expect.
  assert (pte (mem s) root page = None) as Hn' by (now rewrite (proj2 (proj2 (pte_page (mem s) root va page Hva Hpg Hpe)))).
  pose proof (map_fresh_spec s root page f a DEMAND Hpv Hpg Hn' Hoka Hf Hfa eq_refl eq_refl) as Hm.
  pose proof (src_free_bound _ _ (pv_ok _ _ Hpv) Hf) as Hb.
  destruct (map_page _ _ _ _ _) as [[[[]|msg] s1]|]; [|exact I|contradiction].
  destruct Hm as (Hpv1 & Hent & Hnt & Hp). cbn [is_ok andb] in Hp. unfold zero, smodify.
  set (s' := with_mem s1 _).
  destruct (private_ext s1 s' root Hpv1 eq_refl) as [Hpv' Hp'].
  { intros p t i Hpp Ht Hi. unfold s'. cbn [mem with_mem].
    pose proof (table_at_aligned _ _ _ _ (wf_root _ _ (pv_wf _ _ Hpv1)) Ht).
    rewrite entry_zero_frame by (assumption || apply frame_addr_aligned).
    rewrite decide_False; [reflexivity|]. intros <-. now apply (Hnt p Hpp). }
  assert (addr (make_entry (frame_addr f) DEMAND) = frame_addr f) as Hma by (apply make_entry_addr; [lia|reflexivity]).
  split; [exact Hpv'|]. split; [|split].
  - intros va' Hva'. rewrite <- (Hr va' Hva'). unfold phys_load. rewrite !leaf_of_pte, Hp', Hp by assumption.
    rewrite Hpe. destruct (bool_decide (va' / 4096 = va / 4096)) eqn:D; breflect.
    + rewrite (proj2 (proj2 (pte_page (mem s) root va va' Hva Hva' D))), Hn.
      unfold byte_at, s'. cbn [mem with_mem].
      replace (word _ _) with 0; [destruct (Z.to_nat (_ mod 8)) as [|[|[|[|[|[|[|[|[|n]]]]]]]]]; reflexivity|].
      set (i := Z.to_nat (va' mod 4096 / 8)). assert (i < ENTRY_COUNT)%nat as Hi by (unfold i, ENTRY_COUNT; lia).
      pose proof (entry_zero_frame (mem s1) (frame_addr f) (frame_addr f) i (frame_addr_aligned f) (frame_addr_aligned f) Hi) as E.
      rewrite decide_True in E by reflexivity. unfold entry in E. rewrite <- E. f_equal.
      unfold phys_of. rewrite Hma. unfold i, frame_addr. lia.
    + destruct (pte (mem s) root va') as [e|] eqn:He; [|reflexivity]. apply byte_at_frame. intros i Hi.
      unfold s'. cbn [mem with_mem].
      rewrite entry_zero_frame by (assumption || apply frame_addr_aligned || apply addr_bounds).
      rewrite decide_False; [now apply (Hent va')|]. intros E. destruct (private_alloc s root a f Hpv Hoka Hf Hfa) as (_ & _ & _ & Hx). now apply (Hx va' e).
  - exists (make_entry (frame_addr f) DEMAND). rewrite Hp', Hp by assumption.
    rewrite Hpe, bool_decide_eq_true_2 by reflexivity. split; [reflexivity|]. now rewrite flags_make_entry.
  - intros va' Hva' Hne. rewrite Hp', Hp by assumption. now rewrite Hpe, bool_decide_eq_false_2.
Qed.

(** Reading one byte: what is read is the byte of the address space, which
    holds the same bytes afterwards; no page moves, and at most the page that is
    read is new. *)
Lemma phys_fetch_spec (s : Phys A) root m va :
  private s root -> represents s root m -> user va ->
  match phys_fetch s root va with
  | Done (b, s') => b = read8 m va /\ private s' root /\ represents s' root m
      /\ (forall a e, user a -> pte (mem s) root a = Some e -> pte (mem s') root a = Some e)
      /\ forall a, user a -> a / 4096 <> va / 4096 -> pte (mem s') root a = pte (mem s) root a
  | Panicked => pte (mem s) root va = None
  end.
Proof.
  intros Hpv Hr Hva. unfold phys_fetch. rewrite leaf_of_pte. destruct (pte (mem s) root va) as [e|] eqn:He.
  - split; [|auto]. rewrite <- (Hr va Hva). unfold phys_load. now rewrite leaf_of_pte, He.
  - pose proof (fault_spec s root m va false Hpv Hr Hva He) as Hf.
    destruct (Cow.page_fault_handler _ _ _ _ _ _ s) as [[r s1]|]; [|reflexivity].
    destruct Hf as (Hpv1 & Hr1 & (e & He1 & _) & Ho). rewrite leaf_of_pte, He1. split; [|do 2 (split; [assumption|]); split; [|exact Ho]].
    + rewrite <- (Hr1 va Hva). unfold phys_load. now rewrite leaf_of_pte, He1.
    + intros a e' Ha He'. rewrite Ho; [assumption..|]. intros Ed.
      rewrite (proj2 (proj2 (pte_page (mem s) root va a Hva Ha Ed))), He in He'. discriminate He'.
Qed.

(** Writing one byte. *)
Lemma phys_store1_spec (s : Phys A) root m va b :
  private s root -> represents s root m -> user va -> is_u8 b -> writable_at s root va ->
  match phys_store1 s root va b with
  | Done s' => private s' root /\ represents s' root (<[va := b]> m)
      /\ forall a, user a -> (forall e, pte (mem s) root a = Some e -> pte (mem s') root a = Some e)
           /\ (writable_at s root a -> writable_at s' root a)
  | Panicked => pte (mem s) root va = None
  end.
Proof.
  intros Hpv Hr Hva Hb Hw. unfold phys_store1. rewrite leaf_of_pte.
  destruct (pte (mem s) root va) as [e|] eqn:He.
  - rewrite (Hw e He). destruct (put_byte_spec s root m va e b Hpv Hr Hva Hb He) as (Hpv' & Hr' & Hp).
    split; [assumption|]. split; [assumption|]. intros a Ha. unfold writable_at. rewrite Hp by assumption. auto.
  - pose proof (fault_spec s root m va true Hpv Hr Hva He) as Hf.
    destruct (Cow.page_fault_handler _ _ _ _ _ _ s) as [[r s1]|]; [|reflexivity].
    destruct Hf as (Hpv1 & Hr1 & (e & He1 & Hwe) & Ho). rewrite leaf_of_pte, He1.
    destruct (put_byte_spec s1 root m va e b Hpv1 Hr1 Hva Hb He1) as (Hpv' & Hr' & Hp).
    split; [assumption|]. split; [assumption|]. intros a Ha. unfold writable_at. rewrite Hp by assumption.
    destruct (decide (a / 4096 = va / 4096)) as [Ed|Ed].
    + rewrite (proj2 (proj2 (pte_page (mem s) root va a Hva Ha Ed))), (proj2 (proj2 (pte_page (mem s1) root va a Hva Ha Ed))).
      rewrite He, He1. split; [discriminate|]. intros _ e' [= <-]. assumption.
    + rewrite Ho by assumption. auto.
Qed.

Lemma phys_store_spec root bytes : forall (s : Phys A) m va,
  private s root -> represents s root m -> bytes_ok bytes ->
  0 <= va -> va + Z.of_nat (length bytes) <= USER_SPACE_MAX ->
  (forall a, va <= a < va + Z.of_nat (length bytes) -> writable_at s root a) ->
  match phys_store s root va bytes with
  | Done s' => private s' root /\ represents s' root (write_bytes m va bytes)
      /\ forall a e, user a -> pte (mem s) root a = Some e -> pte (mem s') root a = Some e
  | Panicked => exists a, va <= a < va + Z.of_nat (length bytes) /\ pte (mem s) root a = None
  end.
Proof.
  induction bytes as [|b bytes IH]; intros s m va Hpv Hr Hb Hva Hl Hw; cbn [phys_store write_bytes length] in *; [auto|].
  inversion Hb as [|? ? Hb1 Hb2]; subst.
  pose proof (phys_store1_spec s root m va b Hpv Hr ltac:(unfold user; lia) Hb1 (Hw va ltac:(lia))) as H1.
  destruct (phys_store1 s root va b) as [s1|]; cbn [bind]; [|exists va; split; [lia|assumption]].
  destruct H1 as (Hpv1 & Hr1 & Hk).
  specialize (IH s1 _ (va + 1) Hpv1 Hr1 Hb2 ltac:(lia) ltac:(lia)).
  assert (forall a, va + 1 <= a < va + 1 + Z.of_nat (length bytes) -> writable_at s1 root a) as Hw1.
  { intros a Ha. apply Hk; [unfold user; lia|]. apply Hw. lia. }
  specialize (IH Hw1). destruct (phys_store s1 root (va + 1) bytes) as [s'|].
  - destruct IH as (Hpv' & Hr' & Hk'). split; [assumption|]. split; [assumption|]. intros a e Ha He. apply Hk'; [assumption|].
    now apply Hk.
  - destruct IH as (a & Ha & Hn). exists a. split; [lia|].
    destruct (pte (mem s) root a) as [e|] eqn:E; [|reflexivity]. apply Hk in E; [congruence|unfold user; lia].
Qed.

End Store.

(** C11: user memory behind page tables. In an address space whose pages have
    frames of their own, a write of the kernel to user addresses that are not
    mapped read-only does through the page tables, with the page-fault handler
    filling in pages that are not there, exactly what it does to the map of
    bytes the address space stands for, and no page that was mapped moves. It
    can panic, for lack of frames, only if some page of the range was not
    mapped. *)
Theorem user_store_refines {A} {FS : FrameSource A} (s : Phys A) root m va bytes :
  private s root -> represents s root m -> bytes_ok bytes ->
  0 <= va -> va + Z.of_nat (length bytes) <= USER_SPACE_MAX ->
  (forall a, va <= a < va + Z.of_nat (length bytes) -> writable_at s root a) ->
  match sp_store s root va bytes with
  | Done s' => private s' root /\ represents s' root (write_bytes m va bytes)
      /\ forall a e, user a -> pte (mem s) root a = Some e -> pte (mem s') root a = Some e
  | Panicked => exists a, va <= a < va + Z.of_nat (length bytes) /\ pte (mem s) root a = None
  end.
Proof. apply phys_store_spec. Qed.

(** User memory read behind page tables: a read of the kernel gives the byte of
    the map the address space stands for, which stays as it was although the
    page-fault handler may have mapped the page; it can panic only if the page
    was not mapped. *)
Theorem user_fetch_refines {A} {FS : FrameSource A} (s : Phys A) root m va :
  private s root -> represents s root m -> user va ->
  match sp_fetch s root va with
  | Done (b, s') => b = read8 m va /\ private s' root /\ represents s' root m
      /\ (forall a e, user a -> pte (mem s) root a = Some e -> pte (mem s') root a = Some e)
      /\ forall a, user a -> a / 4096 <> va / 4096 -> pte (mem s') root a = pte (mem s) root a
  | Panicked => pte (mem s) root va = None
  end.
Proof. apply phys_fetch_spec. Qed.

(** Bytes across two pages of a fresh address space. *)
Lemma demo_empty : empty_half (mem (snd demo_space)) (fst demo_space) = true.
Proof. vm_compute. reflexivity. Qed.

Lemma demo_private : private (snd demo_space) (fst demo_space) /\ represents (snd demo_space) (fst demo_space) ∅.
Proof.
  pose proof demo_empty as He.
  destruct demo_space_ok as [Hok Hwf]. split.
  - constructor; [assumption..| |].
    + intros va e Hva. rewrite (empty_half_pte _ _ _ He Hva). intros E. discriminate E.
    + intros va va' e e' Hva _. rewrite (empty_half_pte _ _ _ He Hva). intros E. discriminate E.
  - intros va Hva. unfold phys_load. rewrite leaf_of_pte, (empty_half_pte _ _ _ He Hva). reflexivity.
Qed.

Lemma user_store_refines_witness :
  match sp_store (snd demo_space) (fst demo_space) 0x400FFE [1; 2; 3; 4] with
  | Done s' => represents s' (fst demo_space) (write_bytes ∅ 0x400FFE [1; 2; 3; 4])
      /\ sp_load s' (fst demo_space) 0x401000 = 3
  | Panicked => False
  end.
Proof.
  destruct demo_private as [Hpv Hr].
  pose proof (user_store_refines (snd demo_space) (fst demo_space) ∅ 0x400FFE [1; 2; 3; 4] Hpv Hr
    ltac:(repeat constructor; unfold U8_MAX; lia) ltac:(lia) ltac:(cbn; unfold USER_SPACE_MAX; lia)) as H.
  assert (forall a, 0x400FFE <= a < 0x400FFE + 4 -> writable_at (snd demo_space) (fst demo_space) a) as Hw.
  { intros a Ha e He. exfalso. rewrite (empty_half_pte _ _ a demo_empty) in He;
      [discriminate He|unfold USER_SPACE_MAX; lia]. }
  specialize (H Hw). destruct (sp_store _ _ _ _) as [s'|] eqn:E.
  - split; [apply H|]. change (sp_load s' ?r ?a) with (phys_load s' r a).
    rewrite (proj1 (proj2 H)) by (unfold user, USER_SPACE_MAX; lia). reflexivity.
  - assert (match sp_store (snd demo_space) (fst demo_space) 0x400FFE [1; 2; 3; 4] with Done _ => true | Panicked => false end = true)
      as E' by (vm_compute; reflexivity).
    rewrite E in E'. discriminate E'.
Defined.

End Spaces.
