(* ===== verification/Build.v ===== *)
(** * The address space of a new program (src/kernel/src/process.rs,
      paging.rs, elf.rs)

    What [Process::new] leaves in memory: the program that [load_elf_segments]
    put there is still in place when the user stack and, in the upper half,
    the kernel stack have been allocated. *)

From S2P Require Import Prelude Bitmap FrameAlloc Memory Paging Abi Pipe FdTable Process Cow Bytes UserMem Elf Spaces.
Import Memory Paging Bytes.

Module Build.

(** The address space that [Process::new] builds; [cr3] is the active one. *)
Definition new_space {A} `{FrameSource A} (cr3 : Z) (info : Elf.ElfInfo) (data : list Z) : stm (Phys A) string Z :=
  let% page_table_phys := create_user_page_table cr3 in
  let% _ := Elf.load_elf_segments info data page_table_phys in
  let% _ := allocate_user_stack page_table_phys Spaces.USER_STACK_TOP 4 in
  let% _ := allocate_kernel_stack page_table_phys KERNEL_STACK_TOP KERNEL_STACK_PAGES in
  sret page_table_phys.

#[local] Opaque zero_frame.

Section Guarded.
Context {A : Type} `{FrameSource A}.

Notation paging T := (stm (Phys A) string T).

(** A set of table entries in frames that are not free. *)
Definition guarded (prot : Z -> nat -> Prop) (s : Phys A) : Prop :=
  src_ok (frames s) /\ forall t i, prot t i -> aligned t /\ (i < ENTRY_COUNT)%nat /\ src_free (frames s) (addr_frame t) = false.

(** From [s] to [s'] these entries stay as they are. *)
Definition keeps (prot : Z -> nat -> Prop) (s s' : Phys A) : Prop :=
  guarded prot s' /\ (forall t i, prot t i -> entry (mem s') t i = entry (mem s) t i)
  /\ forall f, src_free (frames s') f = true -> src_free (frames s) f = true.

(** A path of entries from the table [t] on, as far as its tables exist: none
    of the tables is free and none of the entries is in the set. *)
Fixpoint clear_path (prot : Z -> nat -> Prop) (s : Phys A) (t : Z) (p : list nat) : Prop :=
  match p with
  | [] => True
  | i :: rest => aligned t /\ src_free (frames s) (addr_frame t) = false /\ ~ prot t i
      /\ (is_present (entry (mem s) t i) = true -> clear_path prot s (addr (entry (mem s) t i)) rest)
  end.

(** A frame taken, mapped at the address that [place] computes, and written. *)
Definition place_page (root fl : Z) (message : string) (place : paging Z) (fill : Z -> nat -> paging unit) : paging unit :=
  let% f := ok_or allocate_frame message in
  let% va := place in
  let% _ := map_page root va (frame_addr f) fl in
  fill va f.

Lemma keeps_trans prot s1 s2 s3 : keeps prot s1 s2 -> keeps prot s2 s3 -> keeps prot s1 s3.
Proof.
  intros (_ & E1 & F1) (G & E2 & F2). split; [exact G|]. split; [|auto]. intros t i Hp. now rewrite E2, E1.
Qed.

Lemma keeps_refl prot s : guarded prot s -> keeps prot s s.
Proof. intros G. split; [exact G|]. now split. Qed.

(** Entries of frames that are free, or out of the set, may change. *)
Lemma keeps_intro prot s s' : guarded prot s -> src_ok (frames s') ->
  (forall f, src_free (frames s') f = true -> src_free (frames s) f = true) ->
  (forall t i, prot t i -> entry (mem s') t i = entry (mem s) t i) -> keeps prot s s'.
Proof.
  intros [_ G] Ho Hf He. split; [|split; assumption]. split; [exact Ho|]. intros t i Hp. destruct (G t i Hp) as (? & ? & Hn).
  split; [assumption|]. split; [assumption|]. destruct (src_free (frames s') _) eqn:E; [|reflexivity]. apply Hf in E. congruence.
Qed.

Definition bounded (p : list nat) : Prop := Forall (fun i => i < ENTRY_COUNT)%nat p.

(** An empty frame linked at an entry: paths stay clear, also of a smaller set. *)
Lemma link_clear (prot prot' : Z -> nat -> Prop) s s' t i f e : aligned t -> (i < ENTRY_COUNT)%nat -> frame_addr f <> t -> addr e = frame_addr f ->
  src_free (frames s') f = false -> (forall g, src_free (frames s) g = false -> src_free (frames s') g = false) ->
  (forall j, ~ prot (frame_addr f) j) ->
  (forall x j, (j < ENTRY_COUNT)%nat -> src_free (frames s) (addr_frame x) = false -> ~ prot' x j -> frame_addr f <> x /\ ~ prot x j) ->
  (forall x j, aligned x -> (j < ENTRY_COUNT)%nat -> entry (mem s') x j =
     if decide (t = x /\ i = j) then e else if decide (frame_addr f = x) then 0 else entry (mem s) x j) ->
  (forall p, bounded p -> clear_path prot s' (frame_addr f) p)
  /\ forall p x, bounded p -> clear_path prot' s x p -> clear_path prot s' x p.
Proof.
  intros Ht Hi Hft He Hff Hfr Hnp Hne Hm. pose proof (frame_addr_aligned f) as Hfa.
  assert (forall p, bounded p -> clear_path prot s' (frame_addr f) p) as Hnew.
  { intros [|j q] Hq; [exact I|]. inversion Hq; subst. split; [exact Hfa|]. split; [now rewrite addr_frame_addr|].
    split; [apply Hnp|]. rewrite Hm by assumption. rewrite decide_False by (intros [E _]; congruence). now rewrite decide_True. }
  split; [exact Hnew|]. induction p as [|j p IH]; intros x Hb; [constructor|]. inversion Hb; subst. intros (Hx & Hnx & Hp & Hc).
  destruct (Hne x j) as [Hfx Hpx]; [assumption..|].
  split; [exact Hx|]. split; [now apply Hfr|]. split; [exact Hpx|]. rewrite Hm by assumption.
  case_decide as Hd; [rewrite He; auto|]. rewrite decide_False by assumption. auto.
Qed.

(** "Get or create" along a clear path. *)
Lemma next_table_keeps prot s t i msg rest t' s' : guarded prot s -> bounded (i :: rest) -> clear_path prot s t (i :: rest) ->
  next_table t i msg s = Done (Ok t', s') ->
  keeps prot s s' /\ clear_path prot s' t' rest /\ forall p x, bounded p -> clear_path prot s x p -> clear_path prot s' x p.
Proof.
  intros G Hb (Ht & Hn & Hp & Hc) E. inversion Hb as [|? ? Hi Hb']; subst. unfold next_table, sbind, get_entry, sread in E.
  destruct (is_present (entry (mem s) t i)) eqn:Hpr; cbn [sret] in E.
  { injection E as <- <-. split; [now apply keeps_refl|]. auto. }
  unfold ok_or, sbind in E. destruct (alloc_table_spec s (proj1 G)) as [[E1 _]|(f & s1 & E1 & Hm & Hok1 & Hf & Hfb & Hg)]; rewrite E1 in E;
    [discriminate E|]. cbn [sret zero set_entry smodify mem with_mem frames tracked] in E. rewrite Hm in E.
  set (e := make_entry (frame_addr f) TABLE_FLAGS) in *. assert (addr e = frame_addr f) as Ha by (apply make_entry_addr; [assumption|reflexivity]).
  injection E as <- <-. pose proof (frame_addr_aligned f) as Hfa.
  set (m' := put_entry (zero_frame (mem s) (frame_addr f)) t i e).
  assert (forall x j, aligned x -> (j < ENTRY_COUNT)%nat -> entry m' x j =
     if decide (t = x /\ i = j) then e else if decide (frame_addr f = x) then 0 else entry (mem s) x j) as He.
  { intros x j Hx Hj. unfold m'. rewrite entry_put, entry_zero_frame by assumption. reflexivity. }
  assert (forall x, src_free (frames s) (addr_frame x) = false -> frame_addr f <> x) as Hne
    by (intros x Hx <-; rewrite addr_frame_addr in Hx; congruence).
  destruct (link_clear prot prot s (with_mem s1 m') t i f e) as [L1 L2]; try assumption; cbn [frames with_mem].
  { now apply Hne. }
  { now rewrite Hg, Nat.eqb_refl. }
  { intros g Hg0. rewrite Hg, Hg0. apply andb_false_r. }
  { intros j Hj. apply G in Hj as (_ & _ & Hj). rewrite addr_frame_addr in Hj. congruence. }
  { intros x j _ Hx Hpx. split; [now apply Hne|exact Hpx]. }
  split; [|split; [|exact L2]].
  - apply keeps_intro; [exact G|exact Hok1|intros g; cbn; rewrite Hg; now intros [_ ?]%andb_prop|].
    intros x j Hx. destruct (proj2 G x j Hx) as (? & ? & Hnx). cbn [mem with_mem]. rewrite He by assumption.
    rewrite decide_False by (intros [<- <-]; contradiction).
    now rewrite decide_False by (intros <-; rewrite addr_frame_addr in Hnx; congruence).
  - rewrite He, decide_True by (assumption || now split). rewrite Ha. now apply L1.
Qed.

Lemma indices_bounded va : bounded (indices va).
Proof. repeat (apply Forall_cons_2; [apply table_index_lt|]). constructor. Qed.

(** The walk of [map_page], up to the entry it writes. *)
Lemma map_page_keeps prot s root va pa fl s' : guarded prot s -> clear_path prot s root (indices va) ->
  map_page root va pa fl s = Done (Ok tt, s') ->
  exists l1 s1, keeps prot s s1 /\ clear_path prot s1 l1 [p1_index va]
    /\ (forall p x, bounded p -> clear_path prot s x p -> clear_path prot s1 x p)
    /\ s' = with_mem s1 (put_entry (mem s1) l1 (p1_index va) (make_entry pa fl)).
Proof.
  intros G Hc E. pose proof (indices_bounded va) as Hb. unfold indices, dirs in Hb, Hc. cbn [app] in Hb, Hc. unfold map_page in E. unfold sbind at 1 in E.
  destruct (next_table root _ _ s) as [[[l3|] s3]|] eqn:E3; [|discriminate E..].
  destruct (next_table_keeps _ _ _ _ _ _ _ _ G Hb Hc E3) as (K3 & C3 & P3). inversion Hb as [|? ? _ Hb3]; subst.
  unfold sbind at 1 in E. destruct (next_table l3 _ _ s3) as [[[l2|] s2]|] eqn:E2; [|discriminate E..].
  destruct (next_table_keeps _ _ _ _ _ _ _ _ (proj1 K3) Hb3 C3 E2) as (K2 & C2 & P2). inversion Hb3 as [|? ? _ Hb2]; subst.
  unfold sbind at 1 in E. destruct (next_table l2 _ _ s2) as [[[l1|] s1]|] eqn:E1; [|discriminate E..].
  destruct (next_table_keeps _ _ _ _ _ _ _ _ (proj1 K2) Hb2 C2 E1) as (K1 & C1 & P1).
  exists l1, s1. split; [eapply keeps_trans; [exact K3|]; eapply keeps_trans; eassumption|]. split; [exact C1|]. split; [auto|].
  unfold sbind, get_entry, sread in E. destruct (is_present _); [destruct (_ =? _)|]; [|discriminate E|]; injection E as <-; reflexivity.
Qed.

Lemma map_page_kept prot s root va pa fl s' : guarded prot s -> clear_path prot s root (indices va) ->
  map_page root va pa fl s = Done (Ok tt, s') -> keeps prot s s'.
Proof.
  intros G Hc E. destruct (map_page_keeps _ _ _ _ _ _ _ G Hc E) as (l1 & s1 & K & (Hl & _ & Hp & _) & _ & ->).
  eapply keeps_trans; [exact K|]. apply keeps_intro; [apply K|apply K|auto|]. intros t i Hti.
  destruct (proj2 (proj1 K) t i Hti) as (? & ? & _). cbn [mem with_mem]. rewrite entry_put by (assumption || apply table_index_lt).
  now rewrite decide_False by (intros [<- <-]; contradiction).
Qed.

(** What fills a page writes its frame only. *)
Definition fills (f : nat) (m : paging unit) : Prop :=
  forall s s', m s = Done (Ok tt, s') -> frames s' = frames s /\
    forall t j, aligned t -> (j < ENTRY_COUNT)%nat -> t <> frame_addr f -> entry (mem s') t j = entry (mem s) t j.

(** A page placed: the frame, the state with it mapped, and the last one. *)
Lemma place_page_inv root fl msg place fill s s' : src_ok (frames s) -> place_page root fl msg place fill s = Done (Ok tt, s') ->
  exists f a va s1 s2, src_alloc (frames s) = Done (Some f, a) /\ src_ok a /\ src_free (frames s) f = true
    /\ (forall g, src_free a g = negb (f =? g)%nat && src_free (frames s) g)
    /\ place (with_frames s a) = Done (Ok va, s1) /\ map_page root va (frame_addr f) fl s1 = Done (Ok tt, s2)
    /\ fill va f s2 = Done (Ok tt, s').
Proof.
  intros Hok. unfold place_page. unfold sbind at 1, ok_or, sbind at 1, allocate_frame.
  destruct (src_alloc_spec (frames s) Hok) as (r & a & -> & Hoka & Hr). cbn [bind]. destruct r as [f|]; [|discriminate].
  destruct Hr as [Hf Hfa]. cbn [sret]. unfold sbind at 1. destruct (place _) as [[[va|] s1]|] eqn:Ep; try discriminate.
  unfold sbind. destruct (map_page _ _ _ _ s1) as [[[[]|] s2]|] eqn:Em; try discriminate. intros E. exists f, a, va, s1, s2. auto 10.
Qed.

(** *** A stack in the upper half *)

Lemma kernel_page_keeps prot s root fl msg place s' : guarded prot s -> Z.land fl ADDR_MASK = 0 ->
  (forall s0 va s1, place s0 = Done (Ok va, s1) -> s1 = s0 /\ clear_path prot s root (indices va)) ->
  place_page root fl msg place (fun _ f => zero (frame_addr f)) s = Done (Ok tt, s') ->
  keeps prot s s' /\ forall p x, bounded p -> clear_path prot s x p -> clear_path prot s' x p.
Proof.
  intros G Hfl Hpl E. destruct (place_page_inv _ _ _ _ _ _ _ (proj1 G) E) as (f & a & va & s1 & s2 & _ & Hoka & Hf & Hfa & E1 & E2 & E3).
  destruct (Hpl _ _ _ E1) as [-> Hva]. pose proof (src_free_bound _ _ (proj1 G) Hf) as Hfb.
  set (prot' := fun t i => prot t i \/ (t = frame_addr f /\ (i < ENTRY_COUNT)%nat)).
  assert (forall g, src_free (frames s) g = false -> src_free a g = false) as Hmono by (intros g Hg; rewrite Hfa, Hg; apply andb_false_r).
  assert (forall j, ~ prot (frame_addr f) j) as Hnp by (intros j Hj; apply G in Hj as (_ & _ & Hj); rewrite addr_frame_addr in Hj; congruence).
  assert (guarded prot' (with_frames s a)) as G1.
  { split; [exact Hoka|]. intros t i [Hp|[-> Hi]]; [destruct (proj2 G t i Hp) as (? & ? & ?); auto|].
    split; [apply frame_addr_aligned|]. split; [exact Hi|]. cbn. now rewrite Hfa, addr_frame_addr, Nat.eqb_refl. }
  assert (forall p x, clear_path prot s x p -> clear_path prot' (with_frames s a) x p) as P1.
  { induction p as [|j p IH]; intros x; [constructor|]. intros (Hx & Hnx & Hp & Hc). split; [exact Hx|]. split; [now apply Hmono|].
    split; [|intros Hpr; apply IH; auto]. intros [Hp'|[-> _]]; [contradiction|]. rewrite addr_frame_addr in Hnx. congruence. }
  destruct (map_page_keeps prot' _ root va (frame_addr f) fl s2 G1 (P1 _ _ Hva) E2) as (l1 & s3 & (G3 & He3 & Hf3) & (Hl & Hln & Hlp & _) & P3 & ->).
  unfold zero, smodify in E3. injection E3 as <-. cbn [mem with_mem frames] in *.
  assert (frame_addr f <> l1) as Hfl1 by (intros <-; apply Hlp; right; split; [reflexivity|apply table_index_lt]).
  set (e := make_entry (frame_addr f) fl) in *. pose proof (frame_addr_aligned f) as Hal.
  assert (forall x j, aligned x -> (j < ENTRY_COUNT)%nat -> entry (zero_frame (put_entry (mem s3) l1 (p1_index va) e) (frame_addr f)) x j =
     if decide (l1 = x /\ p1_index va = j) then e else if decide (frame_addr f = x) then 0 else entry (mem s3) x j) as He.
  { intros x j Hx Hj. rewrite entry_zero_frame, entry_put by (assumption || apply table_index_lt).
    repeat case_decide; try reflexivity. destruct_and!. congruence. }
  split.
  - apply keeps_intro; [exact G|apply G3|intros g Hg; apply Hf3 in Hg; cbn in Hg; rewrite Hfa in Hg; now apply andb_prop in Hg|].
    intros t i Hp. destruct (proj2 G t i Hp) as (Ht & Hi & Hn). cbn [mem with_mem]. rewrite He by assumption.
    rewrite decide_False by (intros [<- <-]; apply Hlp; now left). rewrite decide_False by (intros <-; now apply (Hnp i)).
    apply He3. now left.
  - intros p x Hb Hp. destruct (link_clear prot prot' s3 (with_mem s3 (zero_frame (put_entry (mem s3) l1 (p1_index va) e) (frame_addr f))) l1 (p1_index va) f e)
      as [_ L]; try assumption; [apply table_index_lt|apply make_entry_addr; [lia|exact Hfl]| |auto| |apply L; [exact Hb|]; now apply P3, P1].
    + assert (prot' (frame_addr f) 0%nat) as Hp0 by (right; split; [reflexivity|unfold ENTRY_COUNT; lia]).
      destruct (proj2 G3 _ _ Hp0) as (_ & _ & Hx). cbn. now rewrite addr_frame_addr in Hx.
    + intros y j Hj _ Hy. split; [intros <-; apply Hy; right; now split|intros Hy'; apply Hy; now left].
Qed.

(** The kernel stack: entries out of the paths to its pages stay. *)
Lemma allocate_stack_keeps prot root top fl : forall n i s s', guarded prot s -> Z.land fl ADDR_MASK = 0 ->
  (forall j, (i <= j < i + n)%nat -> clear_path prot s root (indices (top - Z.of_nat (j + 1) * PAGE_SIZE))) ->
  for_range i n (fun i => place_page root fl "Failed to allocate stack frame" (sub64 top (Z.of_nat (i + 1) * PAGE_SIZE))
    (fun _ f => zero (frame_addr f))) s = Done (Ok tt, s') -> keeps prot s s'.
Proof.
  induction n as [|n IH]; intros i s s' G Hfl Hp; cbn [for_range]; [intros [= <-]; now apply keeps_refl|].
  unfold sbind at 1. destruct (place_page _ _ _ _ _ s) as [[[[]|] s1]|] eqn:E; try discriminate. intros E'.
  edestruct (fun Hx => kernel_page_keeps prot s root fl _ _ s1 G Hfl Hx E) as [K P].
  { intros s0 va s2. unfold sub64. destruct (_ <=? _); [|discriminate]. intros [= <- <-]. split; [reflexivity|]. apply Hp. lia. }
  eapply keeps_trans; [exact K|]. apply (IH (S i) s1 s'); [apply K|exact Hfl| |exact E'].
  intros j Hj. apply P; [apply indices_bounded|apply Hp; lia].
Qed.

(** *** Pages in the lower half *)

(** The upper half of the root table and the tables [K] of the kernel. *)
Definition upper (root : Z) (K : Z -> Prop) (t : Z) (i : nat) : Prop :=
  t = root /\ (256 <= i < ENTRY_COUNT)%nat \/ K t /\ (i < ENTRY_COUNT)%nat.

(** The lower half has tables and pages of its own. *)
Record separate (root : Z) (K : Z -> Prop) (s : Phys A) : Prop := {
  sep_wf : wf s root;
  sep_guard : guarded (upper root K) s;
  sep_tables : forall p t, user_path p -> table_at (mem s) root p = Some t -> ~ K t;
  sep_pages : forall va e, 0 <= va < USER_SPACE_MAX -> pte (mem s) root va = Some e -> ~ K (addr e)
}.

(** The path to a user page does not touch the upper half. *)
Lemma user_clear root K s va : separate root K s -> (p4_index va < 256)%nat -> clear_path (upper root K) s root (indices va).
Proof.
  intros [Hw _ Ht _] Hva.
  assert (forall rest q t, table_at (mem s) root q = Some t -> q ++ rest = indices va -> clear_path (upper root K) s t rest) as Hc.
  { induction rest as [|i rest IH]; intros q t Hq Hi; [constructor|].
    assert (user_path q /\ (i < ENTRY_COUNT)%nat /\ (q = [] -> (i < 256)%nat)) as (Hup & Hib & Hi0).
    { pose proof (indices_bounded va) as Hb. rewrite <- Hi in Hb. apply Forall_app in Hb as [Hbq Hbi]. inversion Hbi; subst.
      assert (length (q ++ i :: rest) = 4%nat) as Hl by now rewrite Hi. rewrite length_app in Hl. cbn in Hl.
      split; [|split; [assumption|]].
      - split; [lia|]. split; [exact Hbq|]. destruct q as [|j q]; [exact I|]. cbn in Hi. injection Hi as -> _. exact Hva.
      - intros ->. cbn in Hi. injection Hi as -> _. exact Hva. }
    pose proof (table_at_aligned _ _ _ _ (wf_root _ _ Hw) Hq) as Hal. split; [exact Hal|]. split; [now apply (wf_owned _ _ Hw q)|]. split.
    - intros [[-> Hr]|[HK _]]; [|now apply (Ht q t)]. assert (q = []) as Hn; [|specialize (Hi0 Hn); lia].
      apply (wf_inj _ _ Hw q [] root); try assumption; [|reflexivity]. split; [cbn; lia|]. now split.
    - intros Hp. apply (IH (q ++ [i])); [rewrite table_at_snoc, Hq, Hp; reflexivity|]. now rewrite <- app_assoc. }
  now apply (Hc (indices va) []).
Qed.

(** Taking a frame changes nothing of this. *)
Lemma separate_alloc root K s a : separate root K s -> src_ok a ->
  (forall g, src_free (frames s) g = false -> src_free a g = false) -> separate root K (with_frames s a).
Proof.
  intros [Hw [Ho Hg] Ht Hp] Ha Hm. constructor; [| |exact Ht|exact Hp].
  - destruct Hw as [Hr Hi Hown]. constructor; [exact Hr|exact Hi|]. intros p t Hup E. apply Hm. now apply (Hown p).
  - split; [exact Ha|]. intros t i Hti. destruct (Hg t i Hti) as (? & ? & ?). auto.
Qed.

Section Page.
Context (root : Z) (K : Z -> Prop) (s s2 s' : Phys A) (a : A) (f : nat) (va fl : Z).
Hypothesis Hs : separate root K s.
Hypothesis Hoka : src_ok a.
Hypothesis Hf : src_free (frames s) f = true.
Hypothesis Hfa : forall g, src_free a g = negb (f =? g)%nat && src_free (frames s) g.
Hypothesis Hfl : is_present fl = true /\ Z.land fl ADDR_MASK = 0.
Hypothesis Hva : 0 <= va < USER_SPACE_MAX.
Hypothesis Em : map_page root va (frame_addr f) fl (with_frames s a) = Done (Ok tt, s2).
Hypothesis Efr : frames s' = frames s2.
Hypothesis Efill : forall t j, aligned t -> (j < ENTRY_COUNT)%nat -> t <> frame_addr f -> entry (mem s') t j = entry (mem s2) t j.

Lemma page_mono g : src_free (frames s) g = false -> src_free a g = false.
Proof. intros Hg. rewrite Hfa, Hg. apply andb_false_r. Qed.

Lemma page_not_free g : src_free (frames s) g = false -> g <> f.
Proof. intros Hg ->. congruence. Qed.

Lemma page_mapped : extends (with_frames s a) s2 root
  /\ (forall e, pte (mem s) root va = Some e -> addr e = frame_addr f)
  /\ forall va', (p4_index va' < 256)%nat ->
     pte (mem s2) root va' = if decide (indices va' = indices va) then Some (make_entry (frame_addr f) fl) else pte (mem s) root va'.
Proof.
  pose proof (map_page_spec (with_frames s a) root va (frame_addr f) fl Hoka
    (sep_wf _ _ _ (separate_alloc _ _ _ _ Hs Hoka page_mono)) (user_indices _ Hva) (proj1 Hfl)) as Hm.
  rewrite Em in Hm. destruct Hm as (X & Ha & Hp). split; [exact X|]. split; [|exact Hp]. intros e He. rewrite (Ha e He).
  pose proof (src_free_bound _ _ (proj1 (sep_guard _ _ _ Hs)) Hf). apply page_align_frame. lia.
Qed.

(** The frame is no table. *)
Lemma page_no_table p : user_path p -> table_at (mem s2) root p <> Some (frame_addr f).
Proof.
  intros Hp Ht. destruct page_mapped as (X & _ & _). destruct (ext_new _ _ _ X p _ Hp Ht) as [E|E]; rewrite ?addr_frame_addr in E.
  - apply (wf_owned _ _ (sep_wf _ _ _ Hs) p _ Hp) in E. rewrite addr_frame_addr in E. congruence.
  - cbn in E. rewrite Hfa, Nat.eqb_refl in E. discriminate E.
Qed.

Lemma page_tables : (forall p, user_path p -> table_at (mem s') root p = table_at (mem s2) root p)
  /\ forall va', (p4_index va' < 256)%nat -> pte (mem s') root va' = pte (mem s2) root va'.
Proof.
  destruct page_mapped as (X & _ & _). destruct (same_tables (mem s2) (mem s') root) as [Ht Hl].
  - intros p t i Hp Ht Hi. apply Efill; [exact (table_at_aligned _ _ _ _ (wf_root _ _ (ext_wf _ _ _ X)) Ht)|exact Hi|].
    intros ->. now apply (page_no_table p).
  - split; [exact Ht|]. intros va' H'. apply Hl; [now apply user_path_indices|apply table_index_lt].
Qed.

Lemma page_keeps : keeps (upper root K) s s'.
Proof.
  pose proof (separate_alloc _ _ _ _ Hs Hoka page_mono) as Ha. pose proof (sep_guard _ _ _ Hs) as G.
  pose proof (map_page_kept _ _ _ _ _ _ _ (sep_guard _ _ _ Ha) (user_clear _ _ _ _ Ha (user_indices _ Hva)) Em) as ((Ho & _) & He & Hfr).
  apply keeps_intro; [exact G|now rewrite Efr|intros g Hg; rewrite Efr in Hg; apply Hfr in Hg; cbn in Hg; rewrite Hfa in Hg; now apply andb_prop in Hg|].
  intros t i Hp. destruct (proj2 G t i Hp) as (Ht & Hi & Hn). rewrite Efill; [now apply He|exact Ht|exact Hi|].
  intros ->. rewrite addr_frame_addr in Hn. congruence.
Qed.

Lemma page_separate : separate root K s'.
Proof.
  destruct page_mapped as (X & _ & Hp). destruct page_tables as [Ht Hpt]. pose proof page_keeps as (G & _ & _).
  assert (forall t, K t -> aligned t /\ src_free (frames s) (addr_frame t) = false) as HK.
  { intros t HK. destruct (proj2 (sep_guard _ _ _ Hs) t 0%nat) as (? & _ & ?); [right; split; [exact HK|unfold ENTRY_COUNT; lia]|auto]. }
  constructor; [|exact G| |].
  - destruct (ext_wf _ _ _ X) as [Hr Hi Ho]. constructor; [exact Hr| |].
    + intros p q t Hp' Hq. rewrite !Ht by assumption. now apply Hi.
    + intros p t Hp'. rewrite Ht, Efr by assumption. now apply Ho.
  - intros p t Hp' E HKt. rewrite Ht in E by assumption. destruct (ext_new _ _ _ X p t Hp' E) as [E'|E'].
    + now apply (sep_tables _ _ _ Hs p t).
    + apply HK in HKt as [_ HKt]. cbn in E'. apply page_mono in HKt. congruence.
  - intros v e Hv. rewrite Hpt, Hp by now apply user_indices. case_decide as Hd; [|apply (sep_pages _ _ _ Hs); assumption].
    intros [= <-] HKe. pose proof (src_free_bound _ _ (proj1 (sep_guard _ _ _ Hs)) Hf).
    rewrite make_entry_addr in HKe by (lia || apply Hfl). apply HK in HKe as [_ HKe]. rewrite addr_frame_addr in HKe. congruence.
Qed.

(** The pages that were in place still are. *)
Lemma page_stays pg : (exists g, Elf.page_at root s pg g) -> Z.land (snd (fst pg)) ADDR_MASK = 0 -> 0 <= fst (fst pg) < USER_SPACE_MAX ->
  exists g, Elf.page_at root s' pg g.
Proof.
  intros (g & Hg) Hm Hv. exists g. destruct page_mapped as (X & Ha & Hp). destruct page_tables as [Ht Hpt].
  assert (g <> f) as Hgf by (apply page_not_free; destruct pg as [[? ?] ?]; apply Hg).
  assert (pte (mem s2) root (fst (fst pg)) = pte (mem s) root (fst (fst pg))) as Hsame.
  { rewrite Hp by now apply user_indices. rewrite decide_False; [reflexivity|]. intros Hi.
    apply (indices_page va _ Hva Hv) in Hi. destruct pg as [[v flg] bytes]. destruct Hg as (Hb & Hg & _). cbn [fst snd] in *.
    destruct (pte_page (mem s) root v va Hv Hva (eq_sym Hi)) as (_ & _ & Hpp). rewrite <- Hpp in Hg.
    specialize (Ha _ Hg). rewrite make_entry_addr in Ha by assumption. apply (f_equal addr_frame) in Ha. rewrite !addr_frame_addr in Ha. congruence. }
  assert (Elf.page_at root (with_mem s2 (mem s')) pg g) as Hw.
  { apply (Elf.page_at_write _ _ _ f); [|exact Hgf|exact Efill|exact Ht|now apply Hpt, user_indices].
    eapply Elf.page_at_kept; [|exact X|exact Hsame]. now apply Elf.page_at_alloc; [apply page_mono|]. }
  destruct pg as [[v flg] bytes]. unfold Elf.page_at in *. cbn [mem with_mem frames] in Hw. now rewrite Efr.
Qed.

End Page.

(** A page placed in the lower half. *)
Lemma user_page_keeps root K s fl msg place fill s' : separate root K s -> is_present fl = true /\ Z.land fl ADDR_MASK = 0 ->
  (forall s0 va s1, place s0 = Done (Ok va, s1) -> s1 = s0 /\ 0 <= va < USER_SPACE_MAX) -> (forall va f, fills f (fill va f)) ->
  place_page root fl msg place fill s = Done (Ok tt, s') ->
  keeps (upper root K) s s' /\ separate root K s'
  /\ forall pg, (exists g, Elf.page_at root s pg g) -> Z.land (snd (fst pg)) ADDR_MASK = 0 -> 0 <= fst (fst pg) < USER_SPACE_MAX ->
     exists g, Elf.page_at root s' pg g.
Proof.
  intros Hs Hfl Hpl Hfi E.
  destruct (place_page_inv _ _ _ _ _ _ _ (proj1 (sep_guard _ _ _ Hs)) E) as (f & a & va & s1 & s2 & _ & Hoka & Hf & Hfa & E1 & E2 & E3).
  destruct (Hpl _ _ _ E1) as [-> Hva]. destruct (Hfi va f s2 s' E3) as [Efr Efill].
  split; [now apply (page_keeps root K s s2 s' a f va fl)|]. split; [now apply (page_separate root K s s2 s' a f va fl)|].
  intros pg. now apply (page_stays root K s s2 s' a f va fl).
Qed.

(** *** The lower half of a new address space *)

(** A page of a segment, with its address and its flags. *)
Definition user_page (pg : Z * Z * list Z) : Prop := Z.land (snd (fst pg)) ADDR_MASK = 0 /\ 0 <= fst (fst pg) < USER_SPACE_MAX.

Definition progress (root : Z) (K : Z -> Prop) (s s' : Phys A) : Prop :=
  keeps (upper root K) s s' /\ separate root K s'
  /\ forall pg, user_page pg -> (exists g, Elf.page_at root s pg g) -> exists g, Elf.page_at root s' pg g.

Lemma progress_refl root K s : separate root K s -> progress root K s s.
Proof. intros Hs. split; [apply keeps_refl, Hs|]. now split. Qed.

Lemma progress_trans root K s1 s2 s3 : progress root K s1 s2 -> progress root K s2 s3 -> progress root K s1 s3.
Proof. intros (K1 & _ & P1) (K2 & S2 & P2). split; [eapply keeps_trans; eassumption|]. split; [exact S2|auto]. Qed.

Lemma progress_range root K (body : nat -> paging unit) n : forall i s s', separate root K s ->
  (forall j s s', (i <= j < i + n)%nat -> separate root K s -> body j s = Done (Ok tt, s') -> progress root K s s') ->
  for_range i n body s = Done (Ok tt, s') -> progress root K s s'.
Proof.
  induction n as [|n IH]; intros i s s' Hs Hb; cbn [for_range]; [intros [= <-]; now apply progress_refl|].
  unfold sbind. destruct (body i s) as [[[[]|] s1]|] eqn:E; try discriminate. intros E'.
  pose proof (Hb i s s1 ltac:(lia) Hs E) as P. eapply progress_trans; [exact P|]. apply (IH (S i)); [apply P| |exact E'].
  intros j s2 s3 Hj. apply Hb. lia.
Qed.

Lemma fill_page_fills data seg va f : fills f (Elf.fill_page data seg va f : paging unit).
Proof.
  intros s s'. unfold Elf.fill_page, sbind, zero, smodify, Elf.lift. pose proof (frame_addr_aligned f) as Hal.
  assert (forall t j, aligned t -> (j < ENTRY_COUNT)%nat -> t <> frame_addr f ->
    entry (zero_frame (mem s) (frame_addr f)) t j = entry (mem s) t j) as Ho.
  { intros t j Ht Hj Hne. now rewrite entry_zero_frame, decide_False by congruence. }
  destruct (Elf.page_copy data seg va) as [[[off src]|]|]; [| |discriminate]; intros [= <-]; cbn [frames mem with_mem]; (split; [reflexivity|]); [|exact Ho].
  intros t j Ht Hj Hne. unfold Elf.write_frame. rewrite Elf.put_words_entry by (assumption || lia).
  rewrite decide_False by (intros [? _]; congruence). now apply Ho.
Qed.

Lemma load_progress root K data segments : forall s s', Forall (Elf.user_segment data) segments -> separate root K s ->
  Elf.load_all data root segments s = Done (Ok tt, s') -> progress root K s s'.
Proof.
  induction segments as [|seg segments IH]; intros s s' Hus Hs; cbn [Elf.load_all]; [intros [= <-]; now apply progress_refl|].
  inversion Hus as [|? ? Hu Hus']; subst. unfold sbind at 1. destruct (Elf.load_segment data root seg s) as [[[[]|] s1]|] eqn:E; try discriminate.
  intros E'. assert (progress root K s s1) as P; [|eapply progress_trans; [exact P|]; apply IH; [exact Hus'|apply P|exact E']].
  unfold Elf.load_segment in E. rewrite (Elf.segment_pages_spec data seg Hu) in E.
  change (for_range 0 (Elf.seg_count seg) (Elf.load_page data root seg (Elf.seg_start seg)) s = Done (Ok tt, s1)) in E.
  apply (progress_range root K _ _ _ _ _ Hs) in E; [exact E|]. intros i s2 s3 Hi Hs2 E2.
  destruct (Elf.seg_page_bounds data seg i Hu) as (B1 & B2 & _); [lia|].
  apply (user_page_keeps root K s2 (Elf.segment_flags seg)) in E2 as (K1 & K2 & K3);
    [|exact Hs2|apply Elf.segment_flags_ok| |intros va f; apply fill_page_fills].
  - split; [exact K1|]. split; [exact K2|]. intros pg [? ?] ?. now apply K3.
  - intros s0 va s4. unfold Elf.lift. destruct (Elf.add64_cases (Elf.seg_start seg) (Z.of_nat i * 4096)) as [[-> _]|[-> _]]; [|discriminate].
    intros [= <- <-]. split; [reflexivity|]. unfold USER_SPACE_MAX in *. lia.
Qed.

Lemma user_stack_progress root K s s' : separate root K s ->
  allocate_user_stack root Spaces.USER_STACK_TOP 4 s = Done (Ok tt, s') -> progress root K s s'.
Proof.
  intros Hs E. apply (progress_range root K _ _ _ _ _ Hs) in E; [exact E|]. intros i s1 s2 Hi Hs1 E1.
  apply (user_page_keeps root K s1 (Z.lor (Z.lor (Z.lor PRESENT WRITABLE) USER_ACCESSIBLE) NO_EXECUTE) _ _ (fun _ f => zero (frame_addr f)))
    in E1 as (K1 & K2 & K3); [|exact Hs1|split; reflexivity| |].
  - split; [exact K1|]. split; [exact K2|]. intros pg [? ?] ?. now apply K3.
  - intros s0 va s3. unfold sub64. destruct (_ <=? _) eqn:El; [|discriminate]. intros [= <- <-]. split; [reflexivity|].
    unfold Spaces.USER_STACK_TOP, USER_SPACE_MAX, PAGE_SIZE in *. lia.
  - intros _ f s3 s4 [= <-]. split; [reflexivity|]. intros t j Ht Hj Hne. cbn [mem with_mem].
    now rewrite entry_zero_frame, decide_False by (congruence || assumption || apply frame_addr_aligned).
Qed.

(** *** The whole *)

(** The path to the kernel stack, whose pages are in one table, and the tables
    of the active address space on it. *)
Definition stack_path : list nat := dirs (KERNEL_STACK_TOP - PAGE_SIZE).
Definition kernel_table (m : gmap Z Z) (cr3 t : Z) : Prop :=
  exists n, (0 < n <= 3)%nat /\ table_at m cr3 (take n stack_path) = Some t.

Lemma kernel_table_aligned m cr3 t : kernel_table m cr3 t -> aligned t.
Proof.
  intros (n & Hn & Ht). destruct n as [|n]; [lia|]. unfold stack_path, dirs in Ht. cbn [take table_at] in Ht.
  destruct (is_present _); [|discriminate Ht]. exact (table_at_aligned _ _ _ _ (proj1 (addr_bounds _)) Ht).
Qed.

(** A new address space: its lower half is empty and its upper half leads to
    the tables of the active one. *)
Lemma create_separate s cr3 child s1 : src_ok (frames s) -> aligned cr3 -> src_free (frames s) (addr_frame cr3) = false ->
  (forall t, kernel_table (mem s) cr3 t -> src_free (frames s) (addr_frame t) = false) ->
  create_user_page_table cr3 s = Done (Ok child, s1) ->
  separate child (kernel_table (mem s) cr3) s1 /\ Elf.loading child [] s1
  /\ (forall i, (256 <= i < ENTRY_COUNT)%nat -> entry (mem s1) child i = entry (mem s) cr3 i)
  /\ forall t i, kernel_table (mem s) cr3 t -> (i < ENTRY_COUNT)%nat -> entry (mem s1) t i = entry (mem s) t i.
Proof.
  intros Hok Hc Hcf HK E. destruct (create_table_spec s cr3 Hok Hc Hcf) as [[E' _]|(c & s' & E' & Hok1 & Hca & Hcn & Hfr & He)];
    rewrite E in E'; [discriminate E'|]. injection E' as <- <-.
  assert (src_free (frames s1) (addr_frame child) = false) as Hnf by (rewrite Hfr, Nat.eqb_refl; reflexivity).
  destruct (empty_wf s1 child Hca Hnf) as [Hw Hp].
  { intros i Hi. rewrite He, decide_True by (assumption || reflexivity || unfold ENTRY_COUNT; lia). now replace (i <? 256)%nat with true by lia. }
  assert (forall t, kernel_table (mem s) cr3 t -> t <> child) as Hne by (intros t Ht ->; apply HK in Ht; congruence).
  assert (forall va, 0 <= va < USER_SPACE_MAX -> pte (mem s1) child va = None) as Hempty.
  { intros va Hva. unfold pte, leaf. destruct (table_at (mem s1) child (dirs va)) as [t|] eqn:Et; [|reflexivity].
    apply Hp in Et as [Et _]; [discriminate Et|]. now apply user_path_indices, user_indices. }
  split; [|split; [|split]].
  - constructor; [exact Hw| | |intros va e Hva Hx; rewrite Hempty in Hx by assumption; discriminate Hx].
    + split; [exact Hok1|]. intros t i [[-> Hi]|[Ht Hi]]; [now split; [|split; [lia|]]|]. split; [exact (kernel_table_aligned _ _ _ Ht)|].
      split; [exact Hi|]. rewrite Hfr, (HK t Ht). apply andb_false_r.
    + intros p t Hup Hx Ht. apply Hp in Hx as [_ ->]; [|exact Hup]. now apply (Hne child).
  - constructor; [exact Hok1|exact Hw|constructor|]. intros va Hva Hx. now rewrite Hempty in Hx.
  - intros i Hi. rewrite He, decide_True by (assumption || reflexivity || lia). now replace (i <? 256)%nat with false by lia.
  - intros t i Ht Hi. rewrite He, decide_False; [reflexivity|now apply Hne|exact (kernel_table_aligned _ _ _ Ht)|exact Hi].
Qed.

(** The tables and pages of the program. *)
Definition lower (root : Z) (s : Phys A) (L : list (Z * Z * list Z)) (t : Z) (i : nat) : Prop :=
  (i < ENTRY_COUNT)%nat /\
  (t = root /\ (i < 256)%nat \/ (exists p, p <> [] /\ user_path p /\ table_at (mem s) root p = Some t)
   \/ exists pg g, pg ∈ L /\ Elf.page_at root s pg g /\ t = frame_addr g).

Lemma lower_guarded root K s L : separate root K s -> guarded (lower root s L) s.
Proof.
  intros Hs. split; [apply Hs|]. pose proof (sep_wf _ _ _ Hs) as Hw. assert (user_path []) as Hn by (split; [cbn; lia|now split]).
  intros t i [Hi [[-> _]|[(p & _ & Hp & Ht)|([[v fl] b] & g & _ & Hg & ->)]]].
  - split; [apply Hw|]. split; [exact Hi|]. now apply (wf_owned _ _ Hw []).
  - split; [exact (table_at_aligned _ _ _ _ (wf_root _ _ Hw) Ht)|]. split; [exact Hi|]. now apply (wf_owned _ _ Hw p).
  - split; [apply frame_addr_aligned|]. split; [exact Hi|]. rewrite addr_frame_addr. apply Hg.
Qed.

(** The path to the kernel stack is clear of them. *)
Lemma stack_clear root m cr3 s L i1 (K := kernel_table m cr3) : separate root K s -> Forall user_page L -> (i1 < ENTRY_COUNT)%nat ->
  (forall i, (256 <= i < ENTRY_COUNT)%nat -> entry (mem s) root i = entry m cr3 i) ->
  (forall t i, K t -> (i < ENTRY_COUNT)%nat -> entry (mem s) t i = entry m t i) ->
  clear_path (lower root s L) s root (stack_path ++ [i1]).
Proof.
  intros Hs HL Hi1 Hr HKe. pose proof (sep_wf _ _ _ Hs) as Hw. assert (user_path []) as Hn by (split; [cbn; lia|now split]).
  assert (forall t i, K t -> (i < ENTRY_COUNT)%nat -> aligned t /\ src_free (frames s) (addr_frame t) = false /\ ~ lower root s L t i) as HK.
  { intros t i Ht Hi. destruct (proj2 (sep_guard _ _ _ Hs) t i) as (? & _ & ?); [right; now split|]. split; [assumption|]. split; [assumption|].
    intros [_ [[-> _]|[(p & _ & Hp & Hx)|([[v fl] b] & g & Hin & (Hgb & Hg & _) & ->)]]].
    - now apply (sep_tables _ _ _ Hs [] root).
    - now apply (sep_tables _ _ _ Hs p t).
    - rewrite Forall_forall in HL. destruct (HL _ Hin) as [Hm Hv]. apply (sep_pages _ _ _ Hs v _ Hv Hg).
      cbn [snd fst] in Hm. now rewrite make_entry_addr. }
  assert (forall rest q t, (0 < length q)%nat -> q ++ rest = stack_path -> table_at m cr3 q = Some t ->
    clear_path (lower root s L) s t (rest ++ [i1])) as Hc.
  { induction rest as [|i rest IH]; intros q t Hq Hqr Ht; cbn [app clear_path].
    - assert (K t) as HKt by (exists 3%nat; split; [lia|]; rewrite app_nil_r in Hqr; subst q; exact Ht).
      destruct (HK t i1 HKt Hi1) as (? & ? & ?). auto.
    - assert ((length q + S (length rest) = 3)%nat) as Hl by (apply (f_equal length) in Hqr; rewrite length_app in Hqr; cbn in Hqr; lia).
      assert (K t) as HKt by (exists (length q); split; [lia|]; rewrite <- Hqr, take_app_length; exact Ht).
      assert (i < ENTRY_COUNT)%nat as Hi.
      { assert (bounded stack_path) as Hb by (repeat (apply Forall_cons_2; [apply table_index_lt|]); constructor).
        rewrite <- Hqr in Hb. apply Forall_app in Hb as [_ Hb]. now inversion Hb. }
      destruct (HK t i HKt Hi) as (? & ? & ?). split; [assumption|]. split; [assumption|]. split; [assumption|].
      rewrite (HKe t i HKt Hi). intros Hp. apply (IH (q ++ [i])); [rewrite length_app; cbn; lia|now rewrite <- app_assoc|].
      rewrite table_at_snoc, Ht, Hp. reflexivity. }
  change stack_path with ([511%nat] ++ drop 1 stack_path). rewrite <- app_assoc. cbn [app clear_path].
  split; [apply Hw|]. split; [now apply (wf_owned _ _ Hw [])|]. split.
  - intros [_ [[_ ?]|[(p & Hp0 & Hp & Hx)|([[v fl] b] & g & Hin & Hg & Hx)]]]; [lia| |].
    + apply Hp0. now apply (wf_inj _ _ Hw p [] root).
    + destruct Hg as (_ & _ & _ & _ & Hg). apply (Hg [] Hn). cbn. now rewrite Hx.
  - rewrite (Hr 511%nat) by (unfold ENTRY_COUNT; lia). intros Hp. apply (Hc _ [511%nat]); [cbn; lia|reflexivity|]. cbn [table_at]. now rewrite Hp.
Qed.

Lemma lower_stays root K s s' L pg g : separate root K s -> keeps (lower root s L) s s' -> pg ∈ L -> user_page pg ->
  Elf.page_at root s pg g -> Elf.page_at root s' pg g.
Proof.
  intros Hs (_ & He & Hf) Hin [_ Hv] Hg.
  assert (forall q, user_path q -> table_at (mem s') root q = table_at (mem s) root q) as Ht.
  { intros q Hq. apply table_at_agree. intros p i t Hpre Hp. pose proof (user_path_prefix _ _ Hpre Hq) as Hpi.
    destruct (user_path_snoc _ _ Hpi) as [Hup Hi]. apply He. split; [exact Hi|]. destruct p as [|j p].
    - left. injection Hp as <-. split; [reflexivity|]. apply Hpi.
    - right; left. exists (j :: p). split; [discriminate|]. now split. }
  assert (forall i, (i < ENTRY_COUNT)%nat -> entry (mem s') (frame_addr g) i = entry (mem s) (frame_addr g) i) as Hfr.
  { intros i Hi. apply He. split; [exact Hi|]. right; right. now exists pg, g. }
  destruct pg as [[v fl] b]. destruct Hg as (Hb & Hp & Hby & Hn & Hnt). cbn [fst] in Hv.
  pose proof (user_path_indices v (user_indices v Hv)) as Hd. split; [exact Hb|]. split; [|split; [|split]].
  - rewrite <- Hp. unfold pte, leaf. rewrite Ht by exact Hd. destruct (table_at (mem s) root (dirs v)) as [t|] eqn:Et; [|reflexivity].
    rewrite He; [reflexivity|]. split; [apply table_index_lt|]. right; left. exists (dirs v). split; [discriminate|]. now split.
  - rewrite <- Hby. now apply Elf.frame_bytes_ext.
  - destruct (src_free (frames s') g) eqn:E; [|reflexivity]. apply Hf in E. congruence.
  - intros p Hup. rewrite Ht by exact Hup. now apply Hnt.
Qed.

Lemma all_pages_user data segments : Forall (Elf.user_segment data) segments -> Forall user_page (Elf.all_pages data segments).
Proof.
  intros Hus. apply Forall_forall. intros pg Hin. apply list_elem_of_In, in_concat in Hin as (l & Hl & Hin).
  apply list_elem_of_In, list_elem_of_fmap in Hl as (seg & -> & Hseg). rewrite Forall_forall in Hus.
  apply list_elem_of_In in Hin. pose proof (Elf.seg_pages_user data seg (Hus seg Hseg)) as Hu. rewrite Forall_forall in Hu.
  split; [|now apply Hu]. apply list_elem_of_fmap in Hin as (i & -> & _). apply Elf.segment_flags_ok.
Qed.

(** A new address space holds its program: when nothing that the kernel stack
    is mapped through is free, the pages of the segments are in place. *)
Lemma new_space_loaded s cr3 info data root s' (L := Elf.all_pages data (Elf.load_segments info)) :
  src_ok (frames s) -> aligned cr3 -> src_free (frames s) (addr_frame cr3) = false ->
  (forall t, kernel_table (mem s) cr3 t -> src_free (frames s) (addr_frame t) = false) ->
  bytes_ok data -> Forall (Elf.user_segment data) (Elf.load_segments info) -> NoDup (Elf.page_numbers L) ->
  new_space cr3 info data s = Done (Ok root, s') -> Forall (fun pg => exists f, Elf.page_at root s' pg f) L.
Proof.
  intros Hok Hc Hcf HK Hb Hus Hnd E. unfold new_space in E. unfold sbind at 1 in E.
  destruct (create_user_page_table cr3 s) as [[[child|] s1]|] eqn:E1; try discriminate E.
  destruct (create_separate s cr3 child s1 Hok Hc Hcf HK E1) as (S1 & L1 & R1 & K1). unfold sbind at 1 in E.
  pose proof (Elf.load_all_spec child data (Elf.load_segments info) [] Hb Hus (Forall_nil_2 _) Hnd s1 L1) as Hld.
  unfold Elf.load_elf_segments in E. destruct (Elf.load_all data child _ s1) as [[[[]|] s2]|] eqn:E2; try discriminate E.
  destruct (load_progress _ _ _ _ _ _ Hus S1 E2) as (P2 & S2 & _). unfold sbind at 1 in E.
  destruct (allocate_user_stack child _ _ s2) as [[[[]|] s3]|] eqn:E3; try discriminate E.
  destruct (user_stack_progress _ _ _ _ S2 E3) as (P3 & S3 & G3). unfold sbind in E.
  destruct (allocate_kernel_stack child _ _ s3) as [[[[]|] s4]|] eqn:E4; try discriminate E. injection E as <- <-.
  pose proof (keeps_trans _ _ _ _ P2 P3) as (_ & P & _). pose proof (all_pages_user _ _ Hus) as HL. fold L in HL, Hld.
  assert (keeps (lower child s3 L) s3 s4) as P4.
  { apply (allocate_stack_keeps _ child KERNEL_STACK_TOP (Z.lor (Z.lor PRESENT WRITABLE) NO_EXECUTE) 4 0); [now apply (lower_guarded _ _ _ _ S3)|reflexivity| |exact E4].
    intros j Hj. replace (indices _) with (stack_path ++ [p1_index (KERNEL_STACK_TOP - Z.of_nat (j + 1) * PAGE_SIZE)])
      by (destruct j as [|[|[|[|j]]]]; [reflexivity..|lia]).
    apply (stack_clear child (mem s) cr3); [exact S3|exact HL|apply table_index_lt| |].
    - intros i Hi. rewrite P by (left; now split). now apply R1.
    - intros t i Ht Hi. rewrite P by (right; now split). now apply K1. }
  pose proof (Elf.ld_done _ _ _ Hld) as Hd. cbn [app] in Hd. rewrite Forall_forall in Hd, HL |- *. intros pg Hin.
  destruct (G3 pg (HL _ Hin) (Hd _ Hin)) as (g & Hg). exists g. now apply (lower_stays child _ s3 s4 L) with (1 := S3); auto.
Qed.

End Guarded.

End Build.
