(* ===== verification/Ps2.v ===== *)
(** * The PS/2 keyboard (src/kernel/src/input/ps2.rs)

    Scancodes of set 1 are buffered by the interrupt handler in a ring buffer
    and decoded, with the state of the modifier keys, into characters.  The
    scancodes the controller has ready are an argument of the handler: the
    ports are hardware. *)

From S2P Require Import Prelude RingBuffer.
Import RingBuffer.

Module Ps2.

Definition SCANCODE_BUFFER_SIZE : nat := 128.

(** [KEYBOARD_STATE]. *)
Record KeyboardState : Type := mkKbd { shift_pressed : bool; ctrl_pressed : bool }.
#[export] Instance KeyboardState_eq_dec : EqDecision KeyboardState.
Proof. solve_decision. Defined.
Definition new_keyboard : KeyboardState := mkKbd false false.

(** [handle_keyboard_interrupt]: each scancode the controller has is pushed. *)
Fixpoint handle_keyboard_interrupt (buffer : RingBuffer Z) (ready : list Z) : outcome (RingBuffer Z) :=
  match ready with
  | [] => Done buffer
  | scancode :: rest =>
      let! buffer := push SCANCODE_BUFFER_SIZE buffer scancode in
      handle_keyboard_interrupt buffer rest
  end.

(** [try_read_scancode]. *)
Definition try_read_scancode (buffer : RingBuffer Z) : outcome (option Z * RingBuffer Z) :=
  pop SCANCODE_BUFFER_SIZE buffer.

(** [decode_key_to_ascii]. *)
Definition decode_key_to_ascii (scancode : Z) (shift : bool) : option Z :=
  match scancode with
  | 0x02 => Some (if shift then 0x21 else 0x31)
  | 0x03 => Some (if shift then 0x40 else 0x32)
  | 0x04 => Some (if shift then 0x23 else 0x33)
  | 0x05 => Some (if shift then 0x24 else 0x34)
  | 0x06 => Some (if shift then 0x25 else 0x35)
  | 0x07 => Some (if shift then 0x5E else 0x36)
  | 0x08 => Some (if shift then 0x26 else 0x37)
  | 0x09 => Some (if shift then 0x2A else 0x38)
  | 0x0A => Some (if shift then 0x28 else 0x39)
  | 0x0B => Some (if shift then 0x29 else 0x30)
  | 0x0C => Some (if shift then 0x5F else 0x2D)
  | 0x0D => Some (if shift then 0x2B else 0x3D)
  | 0x10 => Some (if shift then 0x51 else 0x71)
  | 0x11 => Some (if shift then 0x57 else 0x77)
  | 0x12 => Some (if shift then 0x45 else 0x65)
  | 0x13 => Some (if shift then 0x52 else 0x72)
  | 0x14 => Some (if shift then 0x54 else 0x74)
  | 0x15 => Some (if shift then 0x59 else 0x79)
  | 0x16 => Some (if shift then 0x55 else 0x75)
  | 0x17 => Some (if shift then 0x49 else 0x69)
  | 0x18 => Some (if shift then 0x4F else 0x6F)
  | 0x19 => Some (if shift then 0x50 else 0x70)
  | 0x1A => Some (if shift then 0x7B else 0x5B)
  | 0x1B => Some (if shift then 0x7D else 0x5D)
  | 0x1E => Some (if shift then 0x41 else 0x61)
  | 0x1F => Some (if shift then 0x53 else 0x73)
  | 0x20 => Some (if shift then 0x44 else 0x64)
  | 0x21 => Some (if shift then 0x46 else 0x66)
  | 0x22 => Some (if shift then 0x47 else 0x67)
  | 0x23 => Some (if shift then 0x48 else 0x68)
  | 0x24 => Some (if shift then 0x4A else 0x6A)
  | 0x25 => Some (if shift then 0x4B else 0x6B)
  | 0x26 => Some (if shift then 0x4C else 0x6C)
  | 0x27 => Some (if shift then 0x3A else 0x3B)
  | 0x28 => Some (if shift then 0x22 else 0x27)
  | 0x2C => Some (if shift then 0x5A else 0x7A)
  | 0x2D => Some (if shift then 0x58 else 0x78)
  | 0x2E => Some (if shift then 0x43 else 0x63)
  | 0x2F => Some (if shift then 0x56 else 0x76)
  | 0x30 => Some (if shift then 0x42 else 0x62)
  | 0x31 => Some (if shift then 0x4E else 0x6E)
  | 0x32 => Some (if shift then 0x4D else 0x6D)
  | 0x33 => Some (if shift then 0x3C else 0x2C)
  | 0x34 => Some (if shift then 0x3E else 0x2E)
  | 0x35 => Some (if shift then 0x3F else 0x2F)
  | 0x0E => Some 0x08
  | 0x1C => Some 0x0A
  | 0x39 => Some 0x20
  | 0x0F => Some 0x09
  | 0x2B => Some (if shift then 0x7C else 0x5C)
  | _ => None
  end.

(** [decode_scancode]. *)
Definition decode_scancode (state : KeyboardState) (scancode : Z) : option Z * KeyboardState :=
  let is_release := negb (Z.land scancode 0x80 =? 0) in
  let key_code := Z.land scancode 0x7F in
  if (key_code =? 0x2A) || (key_code =? 0x36)
  then (None, mkKbd (negb is_release) (ctrl_pressed state))
  else if key_code =? 0x1D
  then (None, mkKbd (shift_pressed state) (negb is_release))
  else if is_release then (None, state)
  else if ctrl_pressed state
  then (if key_code =? 0x2E then (Some 0x03, state)
        else if key_code =? 0x2C then (Some 0x1A, state) else (None, state))
  else (decode_key_to_ascii key_code (shift_pressed state), state).

(** Decoding a sequence of scancodes. *)
Fixpoint decode_all (state : KeyboardState) (scancodes : list Z) : list Z * KeyboardState :=
  match scancodes with
  | [] => ([], state)
  | c :: rest =>
      let '(r, state) := decode_scancode state c in
      let '(out, state) := decode_all state rest in
      (match r with Some b => b :: out | None => out end, state)
  end.

(** ** Typing, abstractly *)

(** The scancodes of typing a character on the key [key]. *)
Definition stroke (key : Z) (shift : bool) : list Z :=
  (if shift then [0x2A] else []) ++ [key; Z.lor key 0x80] ++ (if shift then [0xAA] else []).

(** The key and shift that give a character, if there is one. *)
Definition keys : list (Z * bool) :=
  concat ((fun n => [(Z.of_nat n, false); (Z.of_nat n, true)]) <$> seq 0 128).

Definition key_of (c : Z) : option (Z * bool) :=
  find (fun ks => bool_decide (decode_key_to_ascii (fst ks) (snd ks) = Some c)) keys.

Definition type_text (text : list Z) : list Z :=
  concat ((fun c => match key_of c with Some (k, sh) => stroke k sh | None => [] end) <$> text).

(** Whether the last event among the presses and releases of a modifier was a
    press. *)
Definition event_of (press release : list Z) (c : Z) : bool := bool_decide (c ∈ press) || bool_decide (c ∈ release).
Definition held (press release scancodes : list Z) : bool :=
  match find (event_of press release) (rev scancodes) with
  | Some c => bool_decide (c ∈ press)
  | None => false
  end.

(** ** Lemmas *)

Lemma decode_all_app state a b :
  decode_all state (a ++ b)
  = let '(o1, s1) := decode_all state a in let '(o2, s2) := decode_all s1 b in (o1 ++ o2, s2).
Proof.
  revert state. induction a as [|c a IH]; intros state; cbn [decode_all app].
  - now destruct (decode_all state b).
  - destruct (decode_scancode state c) as [r s]. rewrite IH. destruct (decode_all s a) as [o1 s1].
    destruct (decode_all s1 b) as [o2 s2]. now destruct r.
Qed.

(** A property of every byte, by enumeration. *)
Lemma all_bytes (P : Z -> bool) : forallb P (Z.of_nat <$> seq 0 256) = true -> forall b, is_u8 b -> P b = true.
Proof.
  intros H b Hb. unfold is_u8, U8_MAX in Hb. rewrite forallb_forall in H. apply H.
  apply list_elem_of_In, list_elem_of_fmap. exists (Z.to_nat b). split; [lia|]. apply elem_of_seq. lia.
Qed.

(** One scancode and the modifiers. *)
Lemma decode_modifiers st c : is_u8 c ->
  snd (decode_scancode st c)
  = mkKbd (if bool_decide (c ∈ [0x2A; 0x36]) then true
           else if bool_decide (c ∈ [0xAA; 0xB6]) then false else shift_pressed st)
          (if bool_decide (c ∈ [0x1D]) then true
           else if bool_decide (c ∈ [0x9D]) then false else ctrl_pressed st).
Proof.
  intros Hc. assert (forallb (fun b => forallb (fun st =>
      let s := snd (decode_scancode st b) in
      eqb (shift_pressed s) (if bool_decide (b ∈ [0x2A; 0x36]) then true
        else if bool_decide (b ∈ [0xAA; 0xB6]) then false else shift_pressed st)
      && eqb (ctrl_pressed s) (if bool_decide (b ∈ [0x1D]) then true
        else if bool_decide (b ∈ [0x9D]) then false else ctrl_pressed st))
      [mkKbd true true; mkKbd true false; mkKbd false true; mkKbd false false])
    (Z.of_nat <$> seq 0 256) = true) as Hall by (vm_compute; reflexivity).
  pose proof (all_bytes _ Hall c Hc) as Hb. cbn beta in Hb. rewrite forallb_forall in Hb.
  specialize (Hb st). cbn zeta in Hb. rewrite andb_true_iff, !eqb_true_iff in Hb.
  destruct (snd (decode_scancode st c)) as [sh ct]. cbn [shift_pressed ctrl_pressed] in Hb.
  destruct Hb as [-> ->]; [destruct st as [[] []]; cbn; auto|reflexivity].
Qed.

Lemma held_snoc press release l c :
  held press release (l ++ [c])
  = if bool_decide (c ∈ press) then true else if bool_decide (c ∈ release) then false else held press release l.
Proof.
  unfold held. rewrite rev_app_distr. cbn [rev app find]. unfold event_of.
  destruct (bool_decide (c ∈ press)) eqn:E1; cbn [orb]; [now rewrite E1|].
  destruct (bool_decide (c ∈ release)); [now rewrite E1|reflexivity].
Qed.

(** Typing one character that has a key. *)
Lemma stroke_decodes c k sh : key_of c = Some (k, sh) ->
  decode_all new_keyboard (stroke k sh) = ([c], new_keyboard).
Proof.
  intros H. unfold key_of in H. apply find_some in H as [Hin Hd]. apply bool_decide_eq_true in Hd. cbn [fst snd] in Hd.
  assert (forallb (fun ks => match decode_key_to_ascii (fst ks) (snd ks) with
    | Some c => bool_decide (decode_all new_keyboard (stroke (fst ks) (snd ks)) = ([c], new_keyboard))
    | None => true end) keys = true) as Hall by (vm_compute; reflexivity).
  rewrite forallb_forall in Hall. specialize (Hall _ Hin). cbn [fst snd] in Hall. rewrite Hd in Hall.
  now apply bool_decide_eq_true in Hall.
Qed.

(** The modifier keys. After any sequence of scancodes the keyboard's state
    is what the events say: shift is held exactly when the last event of a
    shift key was a press, control exactly when the last event of a control key
    was one. *)
Theorem modifiers_track_last_event scancodes :
  Forall is_u8 scancodes ->
  snd (decode_all new_keyboard scancodes)
  = mkKbd (held [0x2A; 0x36] [0xAA; 0xB6] scancodes) (held [0x1D] [0x9D] scancodes).
Proof.
  induction scancodes as [|c l IH] using rev_ind; intros Hb; [reflexivity|].
  apply Forall_app in Hb as [Hl Hc]. apply (proj1 (Forall_singleton _ _)) in Hc. rewrite decode_all_app, !held_snoc.
  specialize (IH Hl). destruct (decode_all new_keyboard l) as [o st]. cbn [snd] in IH. subst st.
  cbn [decode_all]. pose proof (decode_modifiers (mkKbd (held [0x2A; 0x36] [0xAA; 0xB6] l) (held [0x1D] [0x9D] l)) c Hc) as E.
  destruct (decode_scancode _ c) as [r st]. exact E.
Qed.

Lemma modifiers_track_last_event_witness :
  snd (decode_all new_keyboard [0x2A; 0x1E; 0x1D; 0xAA]) = mkKbd false true.
Proof.
  rewrite (modifiers_track_last_event [0x2A; 0x1E; 0x1D; 0xAA]).
  - reflexivity.
  - repeat constructor; vm_compute; discriminate.
Defined.

Lemma typed_text text : Forall (fun c => 0x20 <= c <= 0x7E /\ c <> 0x60 /\ c <> 0x7E) text ->
  decode_all new_keyboard (type_text text) = (text, new_keyboard).
Proof.
  induction 1 as [|c text (Hr & H1 & H2) _ IH]; [reflexivity|].
  unfold type_text. cbn [fmap list_fmap concat]. fold (type_text text). rewrite decode_all_app.
  assert (exists k sh, key_of c = Some (k, sh)) as (k & sh & Hk).
  { assert (forallb (fun b => negb ((0x20 <=? b) && (b <=? 0x7E) && negb (b =? 0x60) && negb (b =? 0x7E))
      || bool_decide (is_Some (key_of b))) (Z.of_nat <$> seq 0 256) = true) as Hall by (vm_compute; reflexivity).
    pose proof (all_bytes _ Hall c ltac:(unfold is_u8, U8_MAX; lia)) as Hb. cbn beta in Hb.
    rewrite (proj2 (Z.leb_le _ _)), (proj2 (Z.leb_le _ _)), (proj2 (Z.eqb_neq _ _)), (proj2 (Z.eqb_neq _ _)) in Hb by lia.
    cbn [andb negb orb] in Hb. apply bool_decide_eq_true in Hb as [[k sh] Hk]. eauto. }
  rewrite Hk, (stroke_decodes c k sh Hk), IH. reflexivity.
Qed.

(** Any text can be typed. Every printable ASCII character but the back
    quote and the tilde has a key, and for every text of such characters the
    strokes of their keys are decoded to exactly that text, leaving no
    modifier held; no scancode is ever decoded to anything but a printable character,
    a tab, a backspace, a newline, Ctrl-C or Ctrl-Z. *)
Theorem typed_text_is_decoded text :
  Forall (fun c => 0x20 <= c <= 0x7E /\ c <> 0x60 /\ c <> 0x7E) text ->
  decode_all new_keyboard (type_text text) = (text, new_keyboard)
  /\ forall st scancode b, is_u8 scancode -> fst (decode_scancode st scancode) = Some b ->
     0x20 <= b <= 0x7E \/ b ∈ [0x03; 0x08; 0x09; 0x0A; 0x1A].
Proof.
  intros Ht. split.
  - now apply typed_text.
  - intros st sc b Hsc Hd.
    assert (forallb (fun sc => forallb (fun st => match fst (decode_scancode st sc) with
      | Some b => (0x20 <=? b) && (b <=? 0x7E) || bool_decide (b ∈ [0x03; 0x08; 0x09; 0x0A; 0x1A])
      | None => true end) [mkKbd true true; mkKbd true false; mkKbd false true; mkKbd false false])
      (Z.of_nat <$> seq 0 256) = true) as Hall by (vm_compute; reflexivity).
    pose proof (all_bytes _ Hall sc Hsc) as Hb. cbn beta in Hb. rewrite forallb_forall in Hb. specialize (Hb st).
    rewrite Hd in Hb. specialize (Hb ltac:(destruct st as [[] []]; cbn; auto)).
    apply orb_true_iff in Hb as [[Hlo Hhi]%andb_true_iff|Hb%bool_decide_eq_true]; [lia|now right].
Qed.

Lemma typed_text_is_decoded_witness :
  decode_all new_keyboard (type_text [0x48; 0x69; 0x21]) = ([0x48; 0x69; 0x21], new_keyboard).
Proof.
  apply (typed_text_is_decoded [0x48; 0x69; 0x21]). repeat constructor; lia.
Defined.

End Ps2.
