(* ===== verification/Tty.v ===== *)
(** * The terminal (src/kernel/src/tty.rs)

    A line discipline between the keyboard and the readers of standard input:
    bytes are edited into a line, a newline commits the line, and readers take
    committed bytes.  The bytes echoed to the serial port are a result of
    [input_byte].  The theorems say that the loop of [read] terminates, that
    the bytes delivered are exactly the edited input, once and in order,
    whatever the interleaving of input and reads, and that a typed line
    arrives. *)

From S2P Require Import Prelude RingBuffer Ps2.
Import Ps2.

Module Tty.

Definition MAX_LINE_LEN : nat := 256.

Record Tty : Type := mkTty { current_line : list Z; completed_lines : list (list Z); echo : bool }.

Inductive TtyAction : Type := ActionNone | LineReady | SendSignal | SendStopSignal.

Definition new : Tty := mkTty [] [] true.

(** [input_byte]: the action, the bytes echoed and the terminal. *)
Definition input_byte (t : Tty) (byte : Z) : TtyAction * list Z * Tty :=
  let echoed l := if echo t then l else [] in
  if byte =? 0x03 then (SendSignal, echoed [0x5E; 0x43; 0x0D; 0x0A], mkTty [] (completed_lines t) (echo t))
  else if byte =? 0x1A then (SendStopSignal, echoed [0x5E; 0x5A; 0x0D; 0x0A], mkTty [] (completed_lines t) (echo t))
  else if (byte =? 0x08) || (byte =? 0x7F) then
    match current_line t with
    | [] => (ActionNone, [], t)
    | _ => (ActionNone, echoed [0x08; 0x20; 0x08], mkTty (removelast (current_line t)) (completed_lines t) (echo t))
    end
  else if (byte =? 0x0A) || (byte =? 0x0D) then
    (LineReady, echoed [0x0D; 0x0A], mkTty [] (completed_lines t ++ [current_line t ++ [0x0A]]) (echo t))
  else if (0x20 <=? byte) && (byte <=? 0x7E) then
    if (length (current_line t) <? MAX_LINE_LEN)%nat
    then (ActionNone, echoed [byte], mkTty (current_line t ++ [byte]) (completed_lines t) (echo t))
    else (ActionNone, [], t)
  else (ActionNone, [], t).

(** The loop of [read]: [None] when the fuel runs out. *)
Fixpoint read_loop (fuel : nat) (lines : list (list Z)) (buf : list Z) (total_read : nat)
    : option (list (list Z) * list Z * nat) :=
  match fuel with
  | O => None
  | S fuel' =>
      if negb (total_read <? length buf)%nat then Some (lines, buf, total_read)
      else
        match lines with
        | [] => Some (lines, buf, total_read)
        | line :: rest =>
            let to_copy := Nat.min (length buf - total_read) (length line) in
            let buf := splice buf total_read (take to_copy line) in
            let total_read := (total_read + to_copy)%nat in
            let line := drop to_copy line in
            let lines := match line with [] => rest | _ => line :: rest end in
            if (0 <? total_read)%nat && (nth (total_read - 1) buf 0 =? 0x0A)
            then Some (lines, buf, total_read)
            else read_loop fuel' lines buf total_read
        end
  end.

(** [read]: the number of bytes, or [None] when there is nothing to read; the
    buffer; the terminal.  The outer option is the fuel. *)
Definition read (t : Tty) (buf : list Z) : option (option nat * list Z * Tty) :=
  match buf with
  | [] => Some (Some 0%nat, buf, t)
  | _ =>
      match read_loop (S (S (length (completed_lines t)))) (completed_lines t) buf 0 with
      | None => None
      | Some (lines, buf, total_read) =>
          Some (if (0 <? total_read)%nat then Some total_read else None, buf,
                mkTty (current_line t) lines (echo t))
      end
  end.

Definition has_data (t : Tty) : bool := match completed_lines t with [] => false | _ => true end.
Definition clear (t : Tty) : Tty := mkTty [] [] (echo t).

(** Input of several bytes: what is echoed and the terminal. *)
Fixpoint input_bytes (t : Tty) (bytes : list Z) : list Z * Tty :=
  match bytes with
  | [] => ([], t)
  | b :: rest =>
      let '(_, e, t) := input_byte t b in
      let '(e', t) := input_bytes t rest in (e ++ e', t)
  end.

(** ** The line discipline, abstractly *)

(** The bytes that a sequence of input bytes commits, with [line] typed before. *)
Fixpoint cook (line input : list Z) : list Z :=
  match input with
  | [] => []
  | b :: rest =>
      if (b =? 0x03) || (b =? 0x1A) then cook [] rest
      else if (b =? 0x08) || (b =? 0x7F) then cook (removelast line) rest
      else if (b =? 0x0A) || (b =? 0x0D) then line ++ 0x0A :: cook [] rest
      else if (0x20 <=? b) && (b <=? 0x7E) && (length line <? MAX_LINE_LEN)%nat then cook (line ++ [b]) rest
      else cook line rest
  end.

(** A line as it is stored: it ends in its only newline. *)
Definition line_ok (l : list Z) : Prop := exists body, l = body ++ [0x0A] /\ ~ In 0x0A body.

Record inv (t : Tty) : Prop := mkInv {
  inv_line : Forall (fun b => 0x20 <= b <= 0x7E) (current_line t);
  inv_len : (length (current_line t) <= MAX_LINE_LEN)%nat;
  inv_lines : Forall line_ok (completed_lines t)
}.

(** Events: a byte arrives, or a reader reads into a buffer of some size. *)
Inductive event : Type := EvInput (byte : Z) | EvRead (size : nat).

(** One event: the bytes delivered. *)
Definition step (t : Tty) (e : event) : option (list Z * Tty) :=
  match e with
  | EvInput b => Some ([], snd (input_byte t b))
  | EvRead n =>
      match read t (replicate n 0) with
      | Some (Some k, buf, t') => Some (take k buf, t')
      | Some (None, _, t') => Some ([], t')
      | None => None
      end
  end.

Fixpoint run (t : Tty) (es : list event) : option (list Z * Tty) :=
  match es with
  | [] => Some ([], t)
  | e :: rest =>
      match step t e with
      | None => None
      | Some (out, t') =>
          match run t' rest with
          | None => None
          | Some (out', t'') => Some (out ++ out', t'')
          end
      end
  end.

Fixpoint inputs (es : list event) : list Z :=
  match es with
  | [] => []
  | EvInput b :: rest => b :: inputs rest
  | EvRead _ :: rest => inputs rest
  end.

(** ** Lemmas *)

Lemma read_loop_full fuel lines buf total :
  (0 < fuel)%nat -> (length buf <= total)%nat -> read_loop fuel lines buf total = Some (lines, buf, total).
Proof.
  intros Hf Ht. destruct fuel; [lia|]. cbn [read_loop]. now rewrite (proj2 (Nat.ltb_ge _ _)).
Qed.

Lemma read_loop_total fuel : forall lines buf total,
  (length lines + 2 <= fuel)%nat -> (total <= length buf)%nat ->
  exists r, read_loop fuel lines buf total = Some r.
Proof.
  induction fuel as [|fuel IH]; intros lines buf total Hf Ht; [lia|]. cbn [read_loop].
  destruct (Nat.ltb_spec total (length buf)) as [Hlt|]; cbn [negb]; [|eauto].
  destruct lines as [|line rest]; [eauto|]. cbn [length] in Hf.
  set (n := Nat.min (length buf - total) (length line)).
  assert (length (splice buf total (take n line)) = length buf) as Hs.
  { apply length_splice. rewrite length_take. lia. }
  destruct (_ && _); [eauto|]. destruct (drop n line) as [|b l] eqn:E.
  - apply IH; rewrite ?Hs; lia.
  - assert (n < length line)%nat as Hn by (apply (f_equal length) in E; rewrite length_drop in E; cbn in E; lia).
    rewrite read_loop_full; [eauto|lia|]. rewrite Hs. lia.
Qed.

Lemma line_ok_drop l n : line_ok l -> (n < length l)%nat -> line_ok (drop n l).
Proof.
  intros (body & -> & Hb) Hn. rewrite length_app in Hn. cbn in Hn. exists (drop n body). split.
  - now rewrite drop_app_le by lia.
  - intros Hin. apply Hb. rewrite <- (take_drop n body). apply in_app_iff. now right.
Qed.

(** What [read] takes: bytes of the first line. *)
Lemma read_first_line t buf : inv t -> buf <> [] ->
  read t buf = match completed_lines t with
    | [] => Some (None, buf, t)
    | line :: rest =>
        let n := Nat.min (length buf) (length line) in
        Some (Some n, take n line ++ drop n buf,
              mkTty (current_line t) (if (n =? length line)%nat then rest else drop n line :: rest) (echo t))
    end.
Proof.
  intros [_ _ Hl] Hb. unfold read. assert (0 < length buf)%nat as Hpos by (destruct buf; [easy|cbn; lia]).
  destruct buf as [|b0 buf0]; [easy|]. set (buf := b0 :: buf0) in *. destruct t as [cur lines ec].
  cbn [completed_lines current_line echo] in *. destruct lines as [|line rest].
  { cbn [length]. unfold read_loop at 1. rewrite (proj2 (Nat.ltb_lt _ _)) by lia. reflexivity. }
  inversion Hl as [|? ? (body & -> & Hbody) Hrest]; subst.
  remember (S (S (length ((body ++ [0x0A]) :: rest)))) as fuel eqn:Hfuel. destruct fuel as [|fuel]; [discriminate|].
  cbn [length] in Hfuel. cbn [read_loop]. rewrite (proj2 (Nat.ltb_lt _ _)) by lia. cbn [negb].
  rewrite Nat.sub_0_r, !Nat.add_0_l. set (n := Nat.min (length buf) (length (body ++ [0x0A]))).
  assert (length (body ++ [0x0A]) = S (length body)) as Hlen by (rewrite length_app; cbn; lia).
  assert (1 <= n)%nat as Hn1 by lia. rewrite (proj2 (Nat.ltb_lt 0 n)) by lia. cbn [andb].
  assert (splice buf 0 (take n (body ++ [0x0A])) = take n (body ++ [0x0A]) ++ drop n buf) as ->.
  { unfold splice. cbn [take app]. rewrite length_take.
    now replace (0 + Nat.min n (length (body ++ [0x0A%Z])))%nat with n by lia. }
  assert (length (take n (body ++ [0x0A]) ++ drop n buf) = length buf) as Hlb.
  { rewrite length_app, length_take, length_drop. lia. }
  destruct (Nat.eqb_spec n (length (body ++ [0x0A]))) as [Heq|Hne].
  - rewrite (drop_ge (body ++ [0x0A])) by lia. rewrite (take_ge (body ++ [0x0A])) by lia.
    assert (nth (n - 1) ((body ++ [0x0A]) ++ drop n buf) 0 = 0x0A) as ->.
    { rewrite <- app_assoc, app_nth2 by lia. replace (n - 1 - length body)%nat with 0%nat by lia. reflexivity. }
    rewrite Z.eqb_refl. destruct (Nat.ltb_spec 0 n); [reflexivity|lia].
  - assert (n = length buf) as Hnb by lia.
    destruct (drop n (body ++ [0x0A])) as [|x l] eqn:E.
    { apply (f_equal (@length Z)) in E. rewrite length_drop in E. change (length []) with 0%nat in E. lia. }
    destruct (_ =? 0x0A); [|rewrite read_loop_full by lia]; (destruct (Nat.ltb_spec 0 n); [reflexivity|lia]).
Qed.

(** Input of a byte and what is committed. *)
Lemma input_cook t b rest :
  let t' := snd (input_byte t b) in
  concat (completed_lines t') ++ cook (current_line t') rest
  = concat (completed_lines t) ++ cook (current_line t) (b :: rest).
Proof.
  cbn zeta. unfold input_byte. cbn [cook].
  destruct (b =? 0x03); [reflexivity|]. destruct (b =? 0x1A); [reflexivity|]. cbn [orb].
  destruct (_ || _). { destruct (current_line t) eqn:E; cbn [snd current_line completed_lines]; now rewrite ?E. }
  destruct (_ || _).
  { cbn [snd current_line completed_lines]. rewrite concat_app, <- app_assoc. cbn [concat app].
    now rewrite app_nil_r, <- app_assoc. }
  destruct (_ && _); cbn [andb]; [|reflexivity]. now destruct (_ <? _)%nat.
Qed.

Lemma input_inv t b : inv t -> inv (snd (input_byte t b)).
Proof.
  intros [H1 H2 H3]. unfold input_byte.
  destruct (b =? 0x03); [constructor; cbn; (assumption || lia || constructor)|].
  destruct (b =? 0x1A); [constructor; cbn; (assumption || lia || constructor)|].
  destruct (_ || _).
  { destruct (current_line t) as [|x l] eqn:E; [constructor; cbn [snd]; rewrite ?E; assumption|].
    constructor; cbn [snd current_line completed_lines]; [| |assumption].
    - destruct (exists_last (l := x :: l) ltac:(discriminate)) as (l' & y & E'). rewrite E' in *. rewrite removelast_last.
      now apply Forall_app in H1 as [H1 _].
    - destruct (exists_last (l := x :: l) ltac:(discriminate)) as (l' & y & E'). rewrite E' in *. rewrite removelast_last.
      rewrite length_app in H2. lia. }
  destruct (_ || _).
  { constructor; cbn [snd current_line completed_lines]; [constructor|cbn; lia|].
    apply Forall_app_2; [assumption|]. constructor; [|constructor]. exists (current_line t). split; [reflexivity|].
    intros Hin. rewrite Forall_forall in H1. apply list_elem_of_In, H1 in Hin. lia. }
  destruct (_ && _) eqn:Hp; [|now constructor].
  destruct (Nat.ltb_spec (length (current_line t)) MAX_LINE_LEN); [|now constructor].
  breflect. constructor; cbn [snd current_line completed_lines]; [|rewrite length_app; cbn; lia|assumption].
  apply Forall_app_2; [assumption|]. constructor; [lia|constructor].
Qed.

(** Reading takes from what is committed. *)
Lemma read_delivers t n : inv t ->
  exists out t', step t (EvRead n) = Some (out, t') /\ inv t' /\ current_line t' = current_line t
    /\ concat (completed_lines t) = out ++ concat (completed_lines t').
Proof.
  intros Hi. cbn [step]. destruct n as [|n].
  { cbn. exists [], t. auto. }
  rewrite read_first_line by (assumption || discriminate).
  destruct t as [cur lines ec]. cbn [completed_lines current_line echo]. destruct lines as [|line rest].
  { eexists [], _. split; [reflexivity|]. auto. }
  rewrite length_replicate. set (k := Nat.min (S n) (length line)). destruct Hi as [H1 H2 H3].
  cbn [completed_lines current_line echo] in *. inversion H3 as [|? ? Hl Hr]; subst.
  eexists _, _. split; [reflexivity|]. rewrite take_app_le by (rewrite length_take; lia).
  rewrite take_take, Nat.min_id. cbn [completed_lines current_line]. split; [|split; [reflexivity|]].
  - constructor; cbn [completed_lines current_line]; [assumption..|].
    destruct (Nat.eqb_spec k (length line)); [assumption|]. constructor; [|assumption]. apply line_ok_drop; [assumption|lia].
  - destruct (Nat.eqb_spec k (length line)) as [->|]; cbn [concat]; [now rewrite take_ge|].
    rewrite app_assoc, take_drop. reflexivity.
Qed.

(** The read loop terminates. For every terminal, whatever its lines, and
    every buffer, [read] returns: the fuel it is given, one more than the
    lines and the last test, is never used up. *)
Theorem read_terminates t buf : exists r, read t buf = Some r.
Proof.
  unfold read. destruct buf as [|b buf]; [eauto|].
  destruct (read_loop_total (S (S (length (completed_lines t)))) (completed_lines t) (b :: buf) 0) as ([[lines out] n] & ->);
    [lia|cbn; lia|eauto].
Qed.

(** C31: the terminal delivers the edited input. From the new terminal, for
    every interleaving of input bytes and reads of any sizes, the bytes the
    readers got, followed by the bytes still queued, are the lines that the
    input commits, with erased characters, interrupted lines and characters
    beyond 256 left out: nothing is lost, duplicated or reordered; and the line
    being edited and the lines queued stay within their bounds. *)
Theorem tty_delivers_edited_input es :
  exists out t, run new es = Some (out, t) /\ inv t /\ out ++ concat (completed_lines t) = cook [] (inputs es).
Proof.
  assert (forall es t, inv t -> exists out t', run t es = Some (out, t') /\ inv t'
    /\ out ++ concat (completed_lines t') = concat (completed_lines t) ++ cook (current_line t) (inputs es)) as H.
  { clear es. induction es as [|e es IH]; intros t Hi; cbn [run inputs].
    - exists [], t. split; [reflexivity|]. split; [assumption|]. cbn. now rewrite app_nil_r.
    - destruct e as [b|n].
      + cbn [step inputs]. destruct (IH _ (input_inv t b Hi)) as (out & t' & -> & Hi' & E). exists out, t'.
        split; [reflexivity|]. split; [assumption|]. rewrite E. apply input_cook.
      + destruct (read_delivers t n Hi) as (out & t1 & -> & Hi1 & Hc & E1).
        destruct (IH t1 Hi1) as (out2 & t2 & -> & Hi2 & E2). exists (out ++ out2), t2.
        split; [reflexivity|]. split; [assumption|]. rewrite <- app_assoc, E2, E1, Hc, app_assoc. reflexivity. }
  destruct (H es new) as (out & t & Hr & Hi & E); [constructor; cbn; (lia || constructor)|]. exists out, t. auto.
Qed.

(** Printable characters are appended and echoed. *)
Lemma input_printable text : forall t,
  Forall (fun c => 0x20 <= c <= 0x7E) text -> echo t = true ->
  (length (current_line t) + length text <= MAX_LINE_LEN)%nat ->
  input_bytes t text = (text, mkTty (current_line t ++ text) (completed_lines t) true).
Proof.
  induction text as [|c text IH]; intros t Hp He Hl; cbn [input_bytes].
  - destruct t; cbn in *. subst. now rewrite app_nil_r.
  - inversion Hp as [|? ? Hc Hp']; subst. cbn [length] in Hl. unfold input_byte.
    rewrite (proj2 (Z.eqb_neq c 0x03)), (proj2 (Z.eqb_neq c 0x1A)), (proj2 (Z.eqb_neq c 0x08)),
      (proj2 (Z.eqb_neq c 0x7F)), (proj2 (Z.eqb_neq c 0x0A)), (proj2 (Z.eqb_neq c 0x0D)) by lia. cbn [orb].
    rewrite (proj2 (Z.leb_le _ _)), (proj2 (Z.leb_le _ _)) by lia. cbn [andb].
    rewrite (proj2 (Nat.ltb_lt _ _)) by lia. rewrite He, IH; cbn [current_line completed_lines echo].
    + cbn [app]. now rewrite <- app_assoc.
    + assumption.
    + reflexivity.
    + rewrite length_app. cbn [length]. lia.
Qed.

Lemma input_bytes_app t a b :
  input_bytes t (a ++ b)
  = let '(e1, t1) := input_bytes t a in let '(e2, t2) := input_bytes t1 b in (e1 ++ e2, t2).
Proof.
  revert t. induction a as [|c a IH]; intros t; cbn [input_bytes app].
  - now destruct (input_bytes t b).
  - destruct (input_byte t c) as [[act e] t']. rewrite IH. destruct (input_bytes t' a) as [e1 t1].
    destruct (input_bytes t1 b) as [e2 t2]. now rewrite app_assoc.
Qed.

(** A typed line reaches the reader. For every line of at most 256
    characters that have a key, typing the line and the Enter key and passing
    the decoded scancodes to the terminal echoes the line and makes a reader
    with a buffer that is large enough get exactly the line and a newline,
    after which nothing is left. *)
Theorem typed_line_is_read text buf :
  Forall (fun c => 0x20 <= c <= 0x7E /\ c <> 0x60 /\ c <> 0x7E) text -> (length text <= MAX_LINE_LEN)%nat ->
  (length text < length buf)%nat ->
  let '(bytes, _) := decode_all new_keyboard (type_text text ++ stroke 0x1C false) in
  let '(echoed, t) := input_bytes new bytes in
  echoed = text ++ [0x0D; 0x0A]
  /\ read t buf = Some (Some (S (length text)), text ++ [0x0A] ++ drop (S (length text)) buf, new).
Proof.
  intros Ht Hl Hb. rewrite decode_all_app. rewrite (typed_text text Ht).
  assert (decode_all new_keyboard (stroke 0x1C false) = ([0x0A], new_keyboard)) as -> by reflexivity.
  rewrite input_bytes_app. rewrite input_printable; [|eapply Forall_impl; [exact Ht|]; cbn; lia|reflexivity|exact Hl].
  change (input_bytes (mkTty (current_line new ++ text) (completed_lines new) true) [0x0A])
    with ([0x0D; 0x0A], mkTty [] [text ++ [0x0A]] true). split; [reflexivity|].
  rewrite read_first_line.
  - cbn [completed_lines current_line echo]. cbn zeta. rewrite length_app. cbn [length].
    replace (Nat.min (length buf) (length text + 1)) with (S (length text)) by lia.
    rewrite (take_ge (text ++ [0x0A])) by (rewrite length_app; cbn; lia).
    rewrite (proj2 (Nat.eqb_eq _ _)) by lia. now rewrite <- app_assoc.
  - constructor; cbn; [constructor|lia|]. constructor; [|constructor]. exists text. split; [reflexivity|].
    intros Hin. rewrite Forall_forall in Ht. apply list_elem_of_In, Ht in Hin. lia.
  - destruct buf; [cbn in Hb; lia|discriminate].
Qed.

Lemma typed_line_is_read_witness :
  let '(bytes, _) := decode_all new_keyboard (type_text [0x6C; 0x73] ++ stroke 0x1C false) in
  let '(echoed, t) := input_bytes new bytes in
  echoed = [0x6C; 0x73; 0x0D; 0x0A] /\ read t (replicate 8 0) = Some (Some 3%nat, [0x6C; 0x73; 0x0A; 0; 0; 0; 0; 0], new).
Proof.
  apply (typed_line_is_read [0x6C; 0x73] (replicate 8 0)); [repeat constructor; lia|unfold MAX_LINE_LEN; cbn; lia|cbn; lia].
Defined.

End Tty.
