(* ===== verification/Packets.v ===== *)
(** * Packet formats (src/kernel/src/net/ethernet.rs, arp.rs, ipv4.rs, udp.rs)

    Parsing and building of Ethernet frames, ARP packets, IPv4 packets with
    their header checksum, and UDP packets.  Addresses are lists of bytes.  An
    index or a slice out of bounds panics, so parsers return an [outcome]. *)

From S2P Require Import Prelude Bytes.
Import Bytes.

Module Ethernet.

Inductive EtherType : Type := IPv4 | ARP | IPv6 | Unknown.

(** [From<u16>] and back. *)
Definition from_u16 (value : Z) : EtherType :=
  match value with 0x0800 => IPv4 | 0x0806 => ARP | 0x86DD => IPv6 | _ => Unknown end.
Definition to_u16 (t : EtherType) : Z :=
  match t with IPv4 => 0x0800 | ARP => 0x0806 | IPv6 => 0x86DD | Unknown => 0xFFFF end.

Record EthernetFrame : Type := mkFrame {
  dst_mac : list Z; src_mac : list Z; ethertype : EtherType; payload : list Z
}.

Definition MIN_SIZE : nat := 14.

Definition parse (data : list Z) : outcome (option EthernetFrame) :=
  if (length data <? MIN_SIZE)%nat then Done None
  else
    let! dst := slice data 0 6 in
    let! src := slice data 6 12 in
    let! ethertype_raw := be_at data 12 2 in
    let! body := slice data 14 (length data) in
    Done (Some (mkFrame dst src (from_u16 ethertype_raw) body)).

Definition build_ethernet_frame (src dst : list Z) (t : EtherType) (body : list Z) : list Z :=
  dst ++ src ++ to_be 2 (to_u16 t) ++ body.

End Ethernet.

Module Arp.

Inductive ArpOp : Type := Request | Reply.

(** Any other code counts as a request. *)
Definition op_from_u16 (value : Z) : ArpOp := match value with 1 => Request | 2 => Reply | _ => Request end.
Definition op_to_u16 (o : ArpOp) : Z := match o with Request => 1 | Reply => 2 end.

Record ArpPacket : Type := mkArp {
  hardware_type : Z; protocol_type : Z; hardware_len : Z; protocol_len : Z; operation : ArpOp;
  sender_mac : list Z; sender_ip : list Z; target_mac : list Z; target_ip : list Z
}.

Definition SIZE : nat := 28.

Definition parse (data : list Z) : outcome (option ArpPacket) :=
  if (length data <? SIZE)%nat then Done None
  else
    let! hw := be_at data 0 2 in
    let! proto := be_at data 2 2 in
    let! hlen := index data 4 in
    let! plen := index data 5 in
    let! op := be_at data 6 2 in
    let! smac := slice data 8 14 in
    let! sip := slice data 14 18 in
    let! tmac := slice data 18 24 in
    let! tip := slice data 24 28 in
    Done (Some (mkArp hw proto hlen plen (op_from_u16 op) smac sip tmac tip)).

Definition to_bytes (p : ArpPacket) : list Z :=
  to_be 2 (hardware_type p) ++ to_be 2 (protocol_type p) ++ [hardware_len p] ++ [protocol_len p]
  ++ to_be 2 (op_to_u16 (operation p)) ++ sender_mac p ++ sender_ip p ++ target_mac p ++ target_ip p.

End Arp.

Module Ipv4.

Inductive IPProtocol : Type := ICMP | TCP | UDP | Unknown.

Definition from_u8 (value : Z) : IPProtocol := match value with 1 => ICMP | 6 => TCP | 17 => UDP | _ => Unknown end.
Definition to_u8 (p : IPProtocol) : Z := match p with ICMP => 1 | TCP => 6 | UDP => 17 | Unknown => 0xFF end.

Record IPv4Packet : Type := mkPacket {
  version : Z; ihl : Z; dscp : Z; ecn : Z; total_length : Z; identification : Z; flags : Z; fragment_offset : Z;
  ttl : Z; protocol : IPProtocol; checksum : Z; src_ip : list Z; dst_ip : list Z; payload : list Z
}.

(** The sum of the 16-bit words, an odd byte being the high half of a word;
    [u32] additions. *)
Fixpoint sum_words (header : list Z) (sum : Z) : outcome Z :=
  let add a b := if a + b <=? U32_MAX then Done (a + b) else Panicked in
  match header with
  | [] => Done sum
  | [a] => add sum (from_be [a; 0])
  | a :: b :: rest => let! sum := add sum (from_be [a; b]) in sum_words rest sum
  end.

(** [while (sum >> 16) != 0 { sum = (sum & 0xFFFF) + (sum >> 16); }] *)
Fixpoint fold_carries (fuel : nat) (sum : Z) : option Z :=
  match fuel with
  | O => None
  | S fuel' =>
      if Z.shiftr sum 16 =? 0 then Some sum
      else fold_carries fuel' (Z.land sum 0xFFFF + Z.shiftr sum 16)
  end.

(** Three tests of the loop condition are enough for a [u32]; without fuel the
    result stands for a loop that does not end. *)
Definition CARRY_FUEL : nat := 3.

(** [!sum as u16]. *)
Definition calculate_checksum (header : list Z) : outcome Z :=
  let! sum := sum_words header 0 in
  match fold_carries CARRY_FUEL sum with
  | Some sum => Done (wrap16 (not32 sum))
  | None => Panicked
  end.

Definition verify_checksum (header : list Z) : outcome bool :=
  let! c := calculate_checksum header in Done (c =? 0).

Definition MIN_HEADER_SIZE : nat := 20.

Definition parse (data : list Z) : outcome (option IPv4Packet) :=
  if (length data <? MIN_HEADER_SIZE)%nat then Done None
  else
    let! version_ihl := index data 0 in
    let version := Z.shiftr version_ihl 4 in
    let ihl := Z.land version_ihl 0x0F in
    if negb (version =? 4) then Done None
    else
      let header_len := (Z.to_nat ihl * 4)%nat in
      if (length data <? header_len)%nat then Done None
      else
        let! dscp_ecn := index data 1 in
        let! total_length := be_at data 2 2 in
        let! identification := be_at data 4 2 in
        let! flags_frag := be_at data 6 2 in
        let! ttl := index data 8 in
        let! proto := index data 9 in
        let! checksum := be_at data 10 2 in
        let! src := slice data 12 16 in
        let! dst := slice data 16 20 in
        let! header := slice data 0 header_len in
        let! ok := verify_checksum header in
        if negb ok then Done None
        else
          let! body := slice data header_len (length data) in
          Done (Some (mkPacket version ihl (Z.shiftr dscp_ecn 2) (Z.land dscp_ecn 0x03) total_length identification
                        (Z.shiftr flags_frag 13) (Z.land flags_frag 0x1FFF) ttl (from_u8 proto) checksum src dst body)).

(** The header with a checksum field. *)
Definition header (total_length : Z) (p : IPProtocol) (checksum : Z) (src dst : list Z) : list Z :=
  [0x45; 0x00] ++ to_be 2 total_length ++ to_be 2 0 ++ to_be 2 0 ++ [64; to_u8 p] ++ to_be 2 checksum ++ src ++ dst.

(** The checksum of the header with the field zero is then stored in it. *)
Definition build_ipv4_packet (src dst : list Z) (p : IPProtocol) (body : list Z) : outcome (result (list Z) string) :=
  let total_length := 20 + Z.of_nat (length body) in
  if 65535 <? total_length then Done (Err "Packet too large")
  else
    let! c := calculate_checksum (header total_length p 0 src dst) in
    Done (Ok (header total_length p c src dst ++ body)).

End Ipv4.

Module UdpPacket.

Record UdpPacket : Type := mkUdp {
  src_port : Z; dst_port : Z; udp_length : Z; udp_checksum : Z; udp_payload : list Z
}.

Definition HEADER_SIZE : nat := 8.

Definition parse (data : list Z) : outcome (option UdpPacket) :=
  if (length data <? HEADER_SIZE)%nat then Done None
  else
    let! src := be_at data 0 2 in
    let! dst := be_at data 2 2 in
    let! len := be_at data 4 2 in
    let! checksum := be_at data 6 2 in
    if Z.of_nat (length data) <? len then Done None
    else
      let! body := slice data HEADER_SIZE (Z.to_nat len) in
      Done (Some (mkUdp src dst len checksum body)).

Definition build_udp_packet (src dst : Z) (body : list Z) : result (list Z) string :=
  let len := 8 + Z.of_nat (length body) in
  if 65535 <? len then Err "Packet too large"
  else Ok (to_be 2 src ++ to_be 2 dst ++ to_be 2 len ++ to_be 2 0 ++ body).

End UdpPacket.

(** ** The checksum *)

Module Checksum.
Import Ipv4.

(** The sum of the 16-bit words. *)
Fixpoint words_sum (l : list Z) : Z :=
  match l with
  | [] => 0
  | [a] => 256 * a
  | a :: b :: rest => 256 * a + b + words_sum rest
  end.

(** The one's complement sum: the representative of the sum modulo 65535 that
    is 0 for 0 only. *)
Definition ones (s : Z) : Z := if s =? 0 then 0 else (s - 1) mod 65535 + 1.

(** Induction by pairs. *)
Lemma pairs_ind (P : list Z -> Prop) :
  P [] -> (forall a, P [a]) -> (forall a b l, P l -> P (a :: b :: l)) -> forall l, P l.
Proof.
  intros H0 H1 H2. fix IH 1. intros [|a [|b l]]; [exact H0|apply H1|apply H2, IH].
Qed.

Lemma from_be_pair a b : from_be [a; b] = 256 * a + b.
Proof. unfold from_be. cbn. lia. Qed.

Lemma words_sum_bound l : bytes_ok l -> 0 <= words_sum l <= 65535 * Z.of_nat (length l).
Proof.
  unfold bytes_ok, is_u8, U8_MAX. induction l as [|a|a b l IH] using pairs_ind; cbn [words_sum length]; [lia| |];
    rewrite ?Forall_cons; intros Hl; [lia|]. destruct Hl as (? & ? & Hl). apply IH in Hl. lia.
Qed.

Lemma sum_words_spec l : forall s, bytes_ok l -> 0 <= s -> s + 65535 * Z.of_nat (length l) <= U32_MAX ->
  sum_words l s = Done (s + words_sum l).
Proof.
  induction l as [|a|a b l IH] using pairs_ind; intros s Hl Hs Hb.
  - cbn. f_equal. lia.
  - assert (256 * a <= 65535) by (unfold bytes_ok, is_u8, U8_MAX in Hl; rewrite Forall_cons in Hl; lia).
    cbn [sum_words words_sum length] in *. rewrite from_be_pair. rewrite (proj2 (Z.leb_le _ _)) by lia. f_equal. lia.
  - unfold bytes_ok, is_u8, U8_MAX in Hl. rewrite !Forall_cons in Hl. destruct Hl as (Ha & Hb' & Hl).
    cbn [sum_words words_sum length] in *. rewrite from_be_pair. rewrite (proj2 (Z.leb_le _ _)) by lia. cbn [bind].
    rewrite IH by (assumption || lia). f_equal. lia.
Qed.

(** Three tests of the loop condition are enough. *)
Lemma fold_carries_spec s : 0 <= s <= U32_MAX -> fold_carries CARRY_FUEL s = Some (ones s).
Proof.
  intros Hs. unfold U32_MAX in Hs. unfold CARRY_FUEL, ones. cbn [fold_carries].
  assert (forall x, Z.land x 0xFFFF = x mod 65536) as HL
    by (intros x; change 0xFFFF with (Z.ones 16); now rewrite Z.land_ones by lia).
  rewrite !HL, !Z.shiftr_div_pow2 by lia. change (2 ^ 16) with 65536.
  destruct (s / 65536 =? 0) eqn:E1; breflect; [destruct (s =? 0) eqn:E0; breflect; f_equal; lia|].
  rewrite (proj2 (Z.eqb_neq s 0)) by lia.
  set (s1 := s mod 65536 + s / 65536). assert (s1 <= 131070 /\ (s1 - 1) mod 65535 = (s - 1) mod 65535 /\ 1 <= s1) as (? & Hm & ?)
    by (unfold s1; split; [lia|]; split; [|lia]; replace (s mod 65536 + s / 65536 - 1) with (s - 1 - 65535 * (s / 65536)) by lia; lia).
  rewrite <- Hm. clearbody s1. destruct (s1 / 65536 =? 0) eqn:E2; breflect; [f_equal; lia|].
  rewrite (proj2 (Z.eqb_eq _ 0)) by lia. f_equal. lia.
Qed.

Lemma calculate_checksum_spec l : bytes_ok l -> Z.of_nat (length l) <= 65536 ->
  calculate_checksum l = Done (65535 - ones (words_sum l)).
Proof.
  intros Hl Hn. unfold calculate_checksum. pose proof (words_sum_bound l Hl) as Hb.
  rewrite sum_words_spec by (assumption || (unfold U32_MAX; lia)). cbn [bind].
  rewrite fold_carries_spec by (unfold U32_MAX; lia). f_equal. cbn [Z.add].
  assert (0 <= ones (words_sum l) <= 65535) as Ho by (unfold ones; case_match; lia).
  set (o := ones _) in *. clearbody o. unfold wrap16, not32.
  assert (o + Z.lxor o U32_MAX = U32_MAX) as E; [|unfold U32_MAX in *; lia].
  rewrite Z.add_nocarry_lxor; [now rewrite <- Z.lxor_assoc, Z.lxor_nilpotent, Z.lxor_0_l|].
  apply Z.bits_inj'. intros n Hn0. rewrite Z.land_spec, Z.lxor_spec, Z.testbit_0_l. change U32_MAX with (Z.ones 32).
  destruct (Z.ltb_spec n 32); [rewrite Z.ones_spec_low by lia; now destruct (Z.testbit o n)|].
  assert (Z.testbit o n = false) as ->; [|reflexivity].
  apply (Z.testbit_false _ _ Hn0). rewrite Z.div_small; [reflexivity|].
  assert (2 ^ 32 <= 2 ^ n) by (apply Z.pow_le_mono_r; lia). lia.
Qed.

Lemma verify_checksum_spec l : bytes_ok l -> Z.of_nat (length l) <= 65536 ->
  verify_checksum l = Done (negb (words_sum l =? 0) && (words_sum l mod 65535 =? 0)).
Proof.
  intros Hl Hn. unfold verify_checksum. rewrite calculate_checksum_spec by assumption. cbn [bind]. f_equal.
  pose proof (words_sum_bound l Hl). unfold ones. destruct (words_sum l =? 0) eqn:E; [reflexivity|]. breflect. cbn [negb andb].
  apply eq_true_iff_eq. rewrite !Z.eqb_eq. lia.
Qed.

End Checksum.

(** ** Round trips *)

Module Formats.
Import Checksum.

(** A list of four bytes, and of six. *)
Definition ip_ok (l : list Z) : Prop := length l = 4%nat /\ bytes_ok l.
Definition mac_ok (l : list Z) : Prop := length l = 6%nat /\ bytes_ok l.

Lemma to_be_2 x : to_be 2 x = [x / 256 mod 256; x mod 256].
Proof. reflexivity. Qed.

Lemma ip_cases l : ip_ok l -> exists a b c d, l = [a; b; c; d] /\ is_u8 a /\ is_u8 b /\ is_u8 c /\ is_u8 d.
Proof.
  intros [Hl Hb]. destruct l as [|a [|b [|c [|d []]]]]; try discriminate.
  unfold bytes_ok in Hb. rewrite !Forall_cons in Hb. naive_solver.
Qed.

(** Replacing the checksum field. *)
Lemma header_sum tl p c src dst : ip_ok src -> ip_ok dst -> 0 <= c <= 65535 ->
  words_sum (Ipv4.header tl p c src dst) = words_sum (Ipv4.header tl p 0 src dst) + c.
Proof.
  intros (s0 & s1 & s2 & s3 & -> & _)%ip_cases (d0 & d1 & d2 & d3 & -> & _)%ip_cases Hc.
  unfold Ipv4.header. rewrite !to_be_2. cbn [app words_sum]. lia.
Qed.

Lemma header_bytes tl p c src dst : ip_ok src -> ip_ok dst -> bytes_ok (Ipv4.header tl p c src dst).
Proof.
  intros [_ Hs] [_ Hd]. unfold Ipv4.header. repeat apply Forall_app_2; try apply to_be_bytes_ok; try assumption;
    destruct p; repeat constructor; unfold Ipv4.to_u8, U8_MAX; lia.
Qed.

Lemma length_header tl p c src dst : ip_ok src -> ip_ok dst -> length (Ipv4.header tl p c src dst) = 20%nat.
Proof. intros [Hs _] [Hd _]. unfold Ipv4.header. rewrite !length_app, !length_to_be, Hs, Hd. reflexivity. Qed.

(** The checksum that is stored makes the header valid. *)
Lemma stored_checksum tl p src dst : ip_ok src -> ip_ok dst ->
  exists c, Ipv4.calculate_checksum (Ipv4.header tl p 0 src dst) = Done c /\ 0 <= c <= 65535
    /\ Ipv4.verify_checksum (Ipv4.header tl p c src dst) = Done true.
Proof.
  intros Hs Hd. rewrite calculate_checksum_spec by (try apply header_bytes; try rewrite length_header; (assumption || lia)).
  eexists. split; [reflexivity|]. set (w := words_sum _).
  assert (256 * 0x45 <= w) as Hw.
  { subst w. destruct (ip_cases _ Hs) as (s0 & s1 & s2 & s3 & -> & ? & ? & ? & ?),
      (ip_cases _ Hd) as (d0 & d1 & d2 & d3 & -> & ? & ? & ? & ?).
    unfold Ipv4.header. rewrite !to_be_2. cbn [app words_sum]. destruct p; unfold Ipv4.to_u8, is_u8 in *; lia. }
  assert (0 <= 65535 - ones w <= 65535) as Hc by (unfold ones; case_match; lia). split; [exact Hc|].
  rewrite verify_checksum_spec by (try apply header_bytes; try rewrite length_header; (assumption || lia)).
  rewrite header_sum by assumption. fold w. unfold ones in *. rewrite (proj2 (Z.eqb_neq w 0)) in * by lia.
  f_equal. apply andb_true_iff. rewrite negb_true_iff, Z.eqb_neq, Z.eqb_eq. lia.
Qed.

(** [parse] of a packet that is long enough, without the panics. *)
Lemma index_nth {A} (l : list A) i d : (i < length l)%nat -> index l i = Done (nth i l d).
Proof. intros Hi. destruct (index_lt l i Hi) as (a & Ha & ->). f_equal. symmetry. now apply nth_lookup_Some. Qed.

Lemma parse_unfold data : (20 <= length data)%nat ->
  Ipv4.parse data =
    let at_ i := nth i data 0 in
    let be i := from_be (sub_slice data i (i + 2)) in
    let hl := (Z.to_nat (Z.land (at_ 0%nat) 0x0F) * 4)%nat in
    if negb (Z.shiftr (at_ 0%nat) 4 =? 4) then Done None
    else if (length data <? hl)%nat then Done None
    else
      let! ok := Ipv4.verify_checksum (take hl data) in
      if negb ok then Done None
      else Done (Some (Ipv4.mkPacket (Z.shiftr (at_ 0%nat) 4) (Z.land (at_ 0%nat) 0x0F) (Z.shiftr (at_ 1%nat) 2)
             (Z.land (at_ 1%nat) 0x03) (be 2%nat) (be 4%nat) (Z.shiftr (be 6%nat) 13) (Z.land (be 6%nat) 0x1FFF)
             (at_ 8%nat) (Ipv4.from_u8 (at_ 9%nat)) (be 10%nat) (sub_slice data 12 16) (sub_slice data 16 20)
             (drop hl data))).
Proof.
  intros Hl. cbn zeta. unfold Ipv4.parse. rewrite (proj2 (Nat.ltb_ge _ _)) by (unfold Ipv4.MIN_HEADER_SIZE; lia).
  rewrite !(index_nth data _ 0) by lia. cbn [bind]. case_match; [reflexivity|].
  destruct (length data <? _)%nat eqn:Eh; [reflexivity|]. breflect.
  rewrite !be_at_Done by (cbn; lia). rewrite !slice_Done by lia. cbn [bind].
  set (hl := (_ * 4)%nat) in *.
  replace (sub_slice data 0 hl) with (take hl data) by (unfold sub_slice; now rewrite Nat.sub_0_r, drop_0).
  destruct (Ipv4.verify_checksum _) as [[]|]; cbn [bind negb]; [|reflexivity..].
  replace (sub_slice data hl (length data)) with (drop hl data); [reflexivity|].
  unfold sub_slice. rewrite take_ge by (rewrite length_drop; lia). reflexivity.
Qed.

Lemma ipv4_round src dst p body :
  ip_ok src -> ip_ok dst -> Z.of_nat (length body) <= 65515 ->
  exists data c, Ipv4.build_ipv4_packet src dst p body = Done (Ok data)
    /\ Ipv4.parse data = Done (Some (Ipv4.mkPacket 4 5 0 0 (20 + Z.of_nat (length body)) 0 0 0 64 p c src dst body)).
Proof.
  intros Hs Hd Hl. set (tl := 20 + Z.of_nat (length body)).
  destruct (stored_checksum tl p src dst Hs Hd) as (c & Hc & Hcb & Hv).
  exists (Ipv4.header tl p c src dst ++ body), c. unfold Ipv4.build_ipv4_packet. cbn zeta. fold tl.
  rewrite (proj2 (Z.ltb_ge 65535 tl)) by lia. rewrite Hc. cbn [bind]. split; [reflexivity|]. clear Hc.
  rewrite parse_unfold by (rewrite length_app, length_header by assumption; lia).
  rewrite length_app, length_header by assumption.
  destruct (ip_cases _ Hs) as (s0 & s1 & s2 & s3 & -> & _), (ip_cases _ Hd) as (d0 & d1 & d2 & d3 & -> & _).
  unfold Ipv4.header in *. rewrite !to_be_2 in *. cbn [app nth] in *. cbn zeta.
  change (Z.shiftr 69 4) with 4. change (Z.land 69 0x0F) with 5. change (Z.to_nat 5 * 4)%nat with 20%nat.
  cbn [negb Z.eqb Pos.eqb Nat.ltb Nat.leb Nat.add]. unfold sub_slice. cbn [Nat.sub take drop].
  rewrite firstn_O, Hv. cbn [bind negb]. rewrite !from_be_pair. do 3 f_equal; try (cbn; lia); try reflexivity.
  now destruct p.
Qed.

(** IPv4 round trip. A packet that [build_ipv4_packet] makes of any
    addresses, protocol and payload of at most 65515 bytes is accepted by
    [IPv4Packet::parse], checksum included, and its addresses, protocol, length
    and payload are the ones given. *)
Theorem ipv4_build_parse src dst p body :
  ip_ok src -> ip_ok dst -> Z.of_nat (length body) <= 65515 ->
  exists data c, Ipv4.build_ipv4_packet src dst p body = Done (Ok data)
    /\ Ipv4.parse data = Done (Some (Ipv4.mkPacket 4 5 0 0 (20 + Z.of_nat (length body)) 0 0 0 64 p c src dst body)).
Proof. apply ipv4_round. Qed.

Lemma ipv4_build_parse_witness :
  exists data, Ipv4.build_ipv4_packet [10; 0; 2; 15] [10; 0; 2; 2] Ipv4.UDP [116; 101; 115; 116] = Done (Ok data)
    /\ exists q, Ipv4.parse data = Done (Some q) /\ Ipv4.payload q = [116; 101; 115; 116].
Proof.
  destruct (ipv4_build_parse [10; 0; 2; 15] [10; 0; 2; 2] Ipv4.UDP [116; 101; 115; 116]) as (data & c & H1 & H2).
  - split; [reflexivity|]. repeat constructor; unfold U8_MAX; lia.
  - split; [reflexivity|]. repeat constructor; unfold U8_MAX; lia.
  - cbn. lia.
  - exists data. split; [exact H1|]. eexists. split; [exact H2|reflexivity].
Defined.

(** One byte changed in the header. *)
Lemma words_sum_insert l : forall i b old, l !! i = Some old ->
  words_sum (<[i := b]> l) = words_sum l + (b - old) * (if Nat.even i then 256 else 1).
Proof.
  induction l as [|a|a c l IH] using pairs_ind; intros i b old Hi; [discriminate| |].
  - destruct i as [|i]; [|discriminate]. injection Hi as ->. cbn. lia.
  - destruct i as [|[|i]]; cbn [lookup list_lookup] in Hi.
    + injection Hi as ->. cbn. lia.
    + injection Hi as ->. cbn. lia.
    + change (<[S (S i) := b]> (a :: c :: l)) with (a :: c :: <[i := b]> l). cbn [words_sum Nat.even].
      rewrite (IH i b old Hi). lia.
Qed.

(** Damaged headers. If one byte of the header of an accepted IPv4 packet,
    other than the first, which tells how long the header is, is replaced by a
    different byte, the packet is rejected. *)
Theorem ipv4_corruption_rejected data q i b old :
  bytes_ok data -> Ipv4.parse data = Done (Some q) -> (1 <= i)%nat -> Z.of_nat i < Ipv4.ihl q * 4 ->
  data !! i = Some old -> is_u8 b -> b <> old ->
  Ipv4.parse (<[i := b]> data) = Done None.
Proof.
  intros Hb Hp Hi Hih Ho Hbb Hne.
  assert (20 <= length data)%nat as Hl.
  { unfold Ipv4.parse in Hp. destruct (Nat.ltb_spec (length data) Ipv4.MIN_HEADER_SIZE); [discriminate|]. assumption. }
  rewrite parse_unfold in Hp by assumption. cbn zeta in Hp.
  rewrite parse_unfold by now rewrite length_insert. cbn zeta. rewrite length_insert.
  destruct i as [|i]; [lia|]. destruct data as [|d0 data]; [cbn in Hl; lia|].
  change (<[S i := b]> (d0 :: data)) with (d0 :: <[i := b]> data). change (nth 0 (d0 :: <[i := b]> data) 0) with d0.
  change (nth 0 (d0 :: data) 0) with d0 in Hp.
  destruct (negb (Z.shiftr d0 4 =? 4)); [reflexivity|]. set (hl := (Z.to_nat (Z.land d0 0x0F) * 4)%nat) in *.
  destruct (length (d0 :: data) <? hl)%nat eqn:Eh; [reflexivity|]. breflect.
  change (d0 :: <[i := b]> data) with (<[S i := b]> (d0 :: data)).
  set (h := take hl (d0 :: data)) in *. assert (bytes_ok h) as Hh by now apply Forall_take.
  assert (Z.land d0 0x0F = d0 mod 16) as Hm by (apply (Z.land_ones d0 4); lia).
  assert (Z.of_nat (length h) <= 65536) as Hhl by (unfold h, hl; rewrite length_take, Hm; lia).
  rewrite verify_checksum_spec in Hp by assumption. cbn [bind] in Hp.
  destruct (negb (words_sum h =? 0) && (words_sum h mod 65535 =? 0)) eqn:Ev; cbn [negb] in Hp; [|discriminate]. breflect.
  assert (S i < hl)%nat as Hihl by (apply Done_inj in Hp as [= <-]; cbn [Ipv4.ihl] in Hih; unfold hl; lia).
  rewrite take_insert, decide_True by assumption. fold h.
  rewrite verify_checksum_spec; [|apply Forall_insert; assumption|now rewrite length_insert]. cbn [bind].
  assert (h !! S i = Some old) as Hho by (subst h; rewrite lookup_take_lt by assumption; exact Ho).
  rewrite (words_sum_insert h (S i) b old Hho).
  assert (is_u8 old) as Hob by (apply (Forall_lookup_1 _ _ _ _ Hh Hho)).
  replace (_ && _) with false; [reflexivity|]. symmetry. apply andb_false_iff. right. apply Z.eqb_neq.
  unfold is_u8, U8_MAX in *. destruct (Nat.even (S i)); lia.
Qed.

Lemma ipv4_corruption_rejected_witness :
  exists data q, Ipv4.build_ipv4_packet [10; 0; 2; 15] [10; 0; 2; 2] Ipv4.UDP [1; 2] = Done (Ok data)
    /\ Ipv4.parse data = Done (Some q) /\ Ipv4.parse (<[19%nat := 3]> data) = Done None.
Proof.
  eexists _, _. split; [vm_compute; reflexivity|]. split; [vm_compute; reflexivity|].
  eapply ipv4_corruption_rejected with (old := 2).
  - repeat constructor; unfold U8_MAX; lia.
  - vm_compute. reflexivity.
  - lia.
  - cbn. lia.
  - reflexivity.
  - unfold is_u8, U8_MAX. lia.
  - lia.
Defined.

(** The other parsers on packets that are built. *)
Lemma ethernet_build_parse src dst t body : mac_ok src -> mac_ok dst ->
  Ethernet.parse (Ethernet.build_ethernet_frame src dst t body) = Done (Some (Ethernet.mkFrame dst src t body)).
Proof.
  intros [Hs _] [Hd _].
  destruct src as [|s0 [|s1 [|s2 [|s3 [|s4 [|s5 []]]]]]]; try discriminate Hs.
  destruct dst as [|d0 [|d1 [|d2 [|d3 [|d4 [|d5 []]]]]]]; try discriminate Hd.
  unfold Ethernet.build_ethernet_frame, Ethernet.parse. rewrite to_be_2. cbn [app length].
  rewrite (proj2 (Nat.ltb_ge _ _)) by (unfold Ethernet.MIN_SIZE; lia).
  rewrite !slice_Done, be_at_Done by (cbn; lia). cbn [bind]. unfold sub_slice. cbn [Nat.sub Nat.add take drop].
  rewrite Nat.sub_0_r, firstn_all, from_be_pair. now destruct t.
Qed.

Lemma arp_to_bytes_parse p : is_u16 (Arp.hardware_type p) -> is_u16 (Arp.protocol_type p) ->
  mac_ok (Arp.sender_mac p) -> ip_ok (Arp.sender_ip p) -> mac_ok (Arp.target_mac p) -> ip_ok (Arp.target_ip p) ->
  Arp.parse (Arp.to_bytes p) = Done (Some p).
Proof.
  destruct p as [hw proto hlen plen op smac sip tmac tip]. cbn [Arp.hardware_type Arp.protocol_type Arp.sender_mac
    Arp.sender_ip Arp.target_mac Arp.target_ip]. unfold is_u16, U16_MAX. intros Hh Hp [Hs _] [Hsi _] [Ht _] [Hti _].
  destruct smac as [|s0 [|s1 [|s2 [|s3 [|s4 [|s5 []]]]]]]; try discriminate Hs.
  destruct tmac as [|d0 [|d1 [|d2 [|d3 [|d4 [|d5 []]]]]]]; try discriminate Ht.
  destruct sip as [|i0 [|i1 [|i2 [|i3 []]]]]; try discriminate Hsi.
  destruct tip as [|t0 [|t1 [|t2 [|t3 []]]]]; try discriminate Hti.
  unfold Arp.to_bytes, Arp.parse. cbn [Arp.hardware_type Arp.protocol_type Arp.sender_mac Arp.sender_ip Arp.target_mac
    Arp.target_ip Arp.hardware_len Arp.protocol_len Arp.operation]. rewrite !to_be_2. cbn [app].
  rewrite (proj2 (Nat.ltb_ge _ _)) by (cbn; unfold Arp.SIZE; lia).
  rewrite !be_at_Done, !slice_Done, !(index_nth _ _ 0) by (cbn; lia). cbn [bind nth].
  unfold sub_slice. cbn [Nat.sub Nat.add take drop]. rewrite !from_be_pair. repeat f_equal; try lia. now destruct op.
Qed.

Lemma udp_build_parse src dst body : is_u16 src -> is_u16 dst -> Z.of_nat (length body) <= 65527 ->
  exists data, UdpPacket.build_udp_packet src dst body = Ok data
    /\ UdpPacket.parse data = Done (Some (UdpPacket.mkUdp src dst (8 + Z.of_nat (length body)) 0 body)).
Proof.
  unfold is_u16, U16_MAX. intros Hs Hd Hl. eexists. unfold UdpPacket.build_udp_packet.
  rewrite (proj2 (Z.ltb_ge 65535 _)) by lia. split; [reflexivity|].
  unfold UdpPacket.parse. rewrite !to_be_2. cbn [app length].
  rewrite (proj2 (Nat.ltb_ge _ _)) by (unfold UdpPacket.HEADER_SIZE; lia).
  rewrite !be_at_Done by (cbn; lia). cbn [bind]. unfold sub_slice. cbn [Nat.sub Nat.add take drop]. rewrite !from_be_pair.
  set (n := Z.of_nat (length body)) in *. replace (256 * ((8 + n) / 256 mod 256) + (8 + n) mod 256) with (8 + n) by lia.
  rewrite (proj2 (Z.ltb_ge _ _)) by lia.
  rewrite slice_Done by (unfold UdpPacket.HEADER_SIZE; cbn; lia). cbn [bind]. unfold sub_slice, UdpPacket.HEADER_SIZE. cbn [drop].
  rewrite drop_0, take_ge by (unfold n; lia). do 2 f_equal. f_equal; (lia || reflexivity).
Qed.

End Formats.
