(* ===== verification/Net.v ===== *)
(** * The network stack (src/kernel/src/net/mod.rs, arp.rs, udp.rs, virtio_net.rs)

    The configuration, the ARP cache and the UDP sockets, with the handlers of
    received frames and the sending side.  The network card is a parameter,
    [Driver]: sending a frame and the frames a poll finds.  [virtio] is the
    driver of the kernel, whose send and poll are stubs.  The polling loops
    have the bounds of the code. *)

From S2P Require Import Prelude Bytes Packets.
Import Bytes.

Module Net.

Class Driver (N : Type) : Type := {
  drv_send : N -> list Z -> result unit string * N;
  drv_poll : N -> list (list Z) * N
}.

(** The driver: a device that may be initialised, with a MAC address. *)
Record VirtioNet : Type := mkVirtio { mac_address : option (list Z) }.

Definition send_packet (d : VirtioNet) (data : list Z) : result unit string * VirtioNet :=
  match mac_address d with
  | None => (Err "Device not initialized", d)
  | Some _ => (Ok tt, d)
  end.

(** [poll_rx] of the driver finds nothing. *)
#[export] Instance virtio : Driver VirtioNet := {
  drv_send := send_packet;
  drv_poll d := ([], d)
}.

Record NetConfig : Type := mkConfig {
  ip_addr : list Z; netmask : list Z; gateway : list Z; dns_server : list Z; mac_addr : list Z
}.

Definition default_qemu : NetConfig :=
  mkConfig [10; 0; 2; 15] [255; 255; 255; 0] [10; 0; 2; 2] [10; 0; 2; 3] [0x52; 0x54; 0x00; 0x12; 0x34; 0x56].

(** A datagram in a receive queue: data, sender address, sender port. *)
Notation datagram := (list Z * list Z * Z)%type.

Section Net.
Context {N : Type} {DN : Driver N}.

Record Net : Type := mkNet {
  config : option NetConfig;
  arp_cache : gmap (list Z) (list Z);
  udp_sockets : gmap Z (list datagram);
  next_ephemeral_port : Z;
  driver : N
}.

Definition with_cache (n : Net) (c : gmap (list Z) (list Z)) : Net :=
  mkNet (config n) c (udp_sockets n) (next_ephemeral_port n) (driver n).
Definition with_sockets (n : Net) (s : gmap Z (list datagram)) : Net :=
  mkNet (config n) (arp_cache n) s (next_ephemeral_port n) (driver n).
Definition with_port (n : Net) (p : Z) : Net :=
  mkNet (config n) (arp_cache n) (udp_sockets n) p (driver n).
Definition with_driver (n : Net) (d : N) : Net :=
  mkNet (config n) (arp_cache n) (udp_sockets n) (next_ephemeral_port n) d.

Notation net T := (stm Net string T).

(** [get_config().ok_or("Network not initialized")?] *)
Definition get_config : net NetConfig := fun n =>
  match config n with Some c => Done (Ok c, n) | None => Done (Err "Network not initialized"%string, n) end.

Definition send_frame (frame : list Z) : net unit := fun n =>
  let (r, d) := drv_send (driver n) frame in Done (r, with_driver n d).

(** ** ARP *)

Definition send_arp_reply (request : Arp.ArpPacket) (c : NetConfig) : net unit :=
  let reply := Arp.mkArp 1 0x0800 6 4 Arp.Reply (mac_addr c) (ip_addr c) (Arp.sender_mac request) (Arp.sender_ip request) in
  send_frame (Ethernet.build_ethernet_frame (mac_addr c) (Arp.sender_mac request) Ethernet.ARP (Arp.to_bytes reply)).

Definition BROADCAST : list Z := [0xff; 0xff; 0xff; 0xff; 0xff; 0xff].

Definition send_arp_request (target_ip : list Z) : net unit :=
  let% c := get_config in
  let request := Arp.mkArp 1 0x0800 6 4 Arp.Request (mac_addr c) (ip_addr c) [0; 0; 0; 0; 0; 0] target_ip in
  send_frame (Ethernet.build_ethernet_frame (mac_addr c) BROADCAST Ethernet.ARP (Arp.to_bytes request)).

(** [handle_arp_packet]: a failure to send the reply is only logged. *)
Definition handle_arp_packet (data : list Z) (n : Net) : outcome Net :=
  let! p := Arp.parse data in
  match p with
  | None => Done n
  | Some packet =>
      if negb (Arp.hardware_type packet =? 1) || negb (Arp.protocol_type packet =? 0x0800) then Done n
      else
        let n := with_cache n (<[Arp.sender_ip packet := Arp.sender_mac packet]> (arp_cache n)) in
        match Arp.operation packet, config n with
        | Arp.Request, Some c =>
            if bool_decide (Arp.target_ip packet = ip_addr c)
            then let! (_, n) := send_arp_reply packet c n in Done n
            else Done n
        | _, _ => Done n
        end
  end.

(** ** UDP *)

Definition MAX_QUEUE : nat := 100.

Definition enqueue (queue : list datagram) (d : datagram) : list datagram :=
  if (length queue <? MAX_QUEUE)%nat then queue ++ [d] else queue.

Definition handle_udp_packet (src_ip data : list Z) (n : Net) : outcome Net :=
  let! p := UdpPacket.parse data in
  match p with
  | None => Done n
  | Some packet =>
      match udp_sockets n !! UdpPacket.dst_port packet with
      | None => Done n
      | Some queue =>
          Done (with_sockets n (<[UdpPacket.dst_port packet :=
                  enqueue queue (UdpPacket.udp_payload packet, src_ip, UdpPacket.src_port packet)]> (udp_sockets n)))
      end
  end.

(** [bind]: port 0 asks for an ephemeral one. *)
Definition bind (port : Z) (n : Net) : result Z string * Net :=
  let (actual_port, n) :=
    if port =? 0 then
      let allocated := next_ephemeral_port n in
      (allocated, with_port n (if allocated =? 65535 then 49152 else allocated + 1))
    else (port, n) in
  match udp_sockets n !! actual_port with
  | Some _ => (Err "Port already in use", n)
  | None => (Ok actual_port, with_sockets n (<[actual_port := []]> (udp_sockets n)))
  end.

Definition unbind (port : Z) (n : Net) : Net := with_sockets n (delete port (udp_sockets n)).

(** [recv_udp_packet]. *)
Definition recv_udp_packet (port : Z) : net (option datagram) := fun n =>
  match udp_sockets n !! port with
  | None => Done (Err "Socket not bound"%string, n)
  | Some [] => Done (Ok None, n)
  | Some (d :: rest) => Done (Ok (Some d), with_sockets n (<[port := rest]> (udp_sockets n)))
  end.

(** ** Receiving *)

Definition handle_ipv4_packet (packet : Ipv4.IPv4Packet) (n : Net) : outcome Net :=
  match config n with
  | None => Done n
  | Some c =>
      if negb (bool_decide (Ipv4.dst_ip packet = ip_addr c)) then Done n
      else
        match Ipv4.protocol packet with
        | Ipv4.UDP => handle_udp_packet (Ipv4.src_ip packet) (Ipv4.payload packet) n
        | _ => Done n
        end
  end.

Definition handle_rx_frame (frame : list Z) (n : Net) : outcome Net :=
  let! f := Ethernet.parse frame in
  match f with
  | None => Done n
  | Some eth_frame =>
      match Ethernet.ethertype eth_frame with
      | Ethernet.ARP => handle_arp_packet (Ethernet.payload eth_frame) n
      | Ethernet.IPv4 =>
          let! p := Ipv4.parse (Ethernet.payload eth_frame) in
          match p with Some packet => handle_ipv4_packet packet n | None => Done n end
      | _ => Done n
      end
  end.

(** The frames a poll finds are handled in turn. *)
Fixpoint handle_frames (frames : list (list Z)) (n : Net) : outcome Net :=
  match frames with
  | [] => Done n
  | f :: rest => let! n := handle_rx_frame f n in handle_frames rest n
  end.

Definition poll_rx : net unit := fun n =>
  let (frames, d) := drv_poll (driver n) in
  let! n := handle_frames frames (with_driver n d) in Done (Ok tt, n).

(** ** Sending *)

(** The polling loop of [resolve]. *)
Fixpoint resolve_loop (attempts : nat) (ip : list Z) : net (list Z) :=
  match attempts with
  | O => sfail "ARP resolution timeout"%string
  | S attempts' =>
      let% _ := poll_rx in
      let% entry := sread (fun n => arp_cache n !! ip) in
      match entry with Some mac => sret mac | None => resolve_loop attempts' ip end
  end.

Definition resolve (ip : list Z) : net (list Z) :=
  let% entry := sread (fun n => arp_cache n !! ip) in
  match entry with
  | Some mac => sret mac
  | None => let% _ := send_arp_request ip in resolve_loop 100 ip
  end.

(** A result of a packet builder. *)
Definition built {T} (m : outcome (result T string)) : net T := fun n => let! r := m in Done (r, n).

Definition send_ipv4_packet (dst_ip : list Z) (protocol : Ipv4.IPProtocol) (payload : list Z) : net unit :=
  let% c := get_config in
  let% dst_mac := resolve dst_ip in
  let% packet := built (Ipv4.build_ipv4_packet (ip_addr c) dst_ip protocol payload) in
  send_frame (Ethernet.build_ethernet_frame (mac_addr c) dst_mac Ethernet.IPv4 packet).

Definition send_udp_packet (src_port : Z) (dst_ip : list Z) (dst_port : Z) (payload : list Z) : net unit :=
  let% udp := built (Done (UdpPacket.build_udp_packet src_port dst_port payload)) in
  send_ipv4_packet dst_ip Ipv4.UDP udp.

(** [recv_udp_packet_blocking]. *)
Fixpoint recv_udp_packet_blocking (port : Z) (max_attempts : nat) : net datagram :=
  match max_attempts with
  | O => sfail "Receive timeout"%string
  | S attempts =>
      let% _ := poll_rx in
      let% packet := recv_udp_packet port in
      match packet with Some d => sret d | None => recv_udp_packet_blocking port attempts end
  end.

End Net.
(** ** Theorems *)

Import Packets.Checksum Formats.

Section Stack.
Context {N : Type} {DN : Driver N}.

Definition config_ok (c : NetConfig) : Prop := ip_ok (ip_addr c) /\ mac_ok (mac_addr c).

(** C32: a datagram arrives. Once the address of the receiver is in the ARP
    cache of the sender, [send_udp_packet] hands the driver one frame; a host
    with that address that is given the frame appends exactly the payload, the
    sender's address and its port to the queue of the destination port, if that
    is bound and its queue is not full, and changes nothing else. *)
Theorem datagram_delivered (n m : Net (N := N)) c c' dmac sport dport payload queue :
  config n = Some c -> config_ok c -> config m = Some c' -> ip_ok (ip_addr c') ->
  arp_cache n !! ip_addr c' = Some dmac -> mac_ok dmac ->
  is_u16 sport -> is_u16 dport -> Z.of_nat (length payload) <= 65507 ->
  udp_sockets m !! dport = Some queue -> (length queue < MAX_QUEUE)%nat ->
  exists frame,
    send_udp_packet sport (ip_addr c') dport payload n = send_frame frame n
    /\ handle_rx_frame frame m
       = Done (with_sockets m (<[dport := queue ++ [(payload, ip_addr c, sport)]]> (udp_sockets m))).
Proof.
  intros Hc [Hip Hmac] Hc' Hip' Harp Hdm Hsp Hdp Hl Hq Hql.
  destruct (udp_build_parse sport dport payload Hsp Hdp ltac:(lia)) as (udp & Eu & Pu).
  assert (length udp = (8 + length payload)%nat) as Hul.
  { unfold UdpPacket.build_udp_packet in Eu. case_match; [discriminate|]. injection Eu as <-. reflexivity. }
  destruct (ipv4_round (ip_addr c) (ip_addr c') Ipv4.UDP udp Hip Hip' ltac:(lia)) as (pkt & k' & Ei & Pi).
  exists (Ethernet.build_ethernet_frame (mac_addr c) dmac Ethernet.IPv4 pkt). split.
  - unfold send_udp_packet, built. unfold sbind at 1. rewrite Eu. cbn [Prelude.bind].
    unfold send_ipv4_packet, sbind at 1, get_config. rewrite Hc.
    unfold sbind at 1, resolve, sbind at 1, sread. rewrite Harp. cbn [sret].
    unfold sbind at 1, built. rewrite Ei. reflexivity.
  - unfold handle_rx_frame. rewrite ethernet_build_parse by assumption. cbn [Prelude.bind Ethernet.ethertype Ethernet.payload].
    rewrite Pi. cbn [Prelude.bind]. unfold handle_ipv4_packet. rewrite Hc'. cbn [Ipv4.dst_ip Ipv4.protocol Ipv4.src_ip Ipv4.payload].
    rewrite bool_decide_eq_true_2 by reflexivity. cbn [negb]. unfold handle_udp_packet. rewrite Pu.
    cbn [Prelude.bind UdpPacket.dst_port UdpPacket.udp_payload UdpPacket.src_port]. rewrite Hq. unfold enqueue.
    now rewrite (proj2 (Nat.ltb_lt _ _)).
Qed.

(** Address resolution. The request [send_arp_request] broadcasts makes the
    host that has the address remember the asking host and answer it; and the
    answer makes the asking host remember the address and the MAC address that
    belongs to it. *)
Theorem arp_exchange (a a' b : Net (N := N)) ca cb :
  config a = Some ca -> config a' = Some ca -> config b = Some cb -> config_ok ca -> config_ok cb ->
  exists request reply,
    send_arp_request (ip_addr cb) a = send_frame request a
    /\ handle_rx_frame request b
       = Done (with_driver (with_cache b (<[ip_addr ca := mac_addr ca]> (arp_cache b))) (snd (drv_send (driver b) reply)))
    /\ handle_rx_frame reply a' = Done (with_cache a' (<[ip_addr cb := mac_addr cb]> (arp_cache a'))).
Proof.
  intros Ha Ha' Hb [Hipa Hmaca] [Hipb Hmacb].
  assert (mac_ok [0; 0; 0; 0; 0; 0] /\ mac_ok BROADCAST) as [Hz Hbc].
  { split; (split; [reflexivity|]); repeat constructor; unfold U8_MAX; lia. }
  eexists _, _. split; [|split].
  - unfold send_arp_request, sbind, get_config. rewrite Ha. reflexivity.
  - unfold handle_rx_frame. rewrite ethernet_build_parse by assumption. cbn [Prelude.bind Ethernet.ethertype Ethernet.payload].
    unfold handle_arp_packet. rewrite arp_to_bytes_parse by (assumption || (cbn; unfold is_u16, U16_MAX; lia)).
    cbn -[decide Arp.to_bytes Ethernet.build_ethernet_frame insert]. rewrite Hb.
    rewrite bool_decide_eq_true_2 by reflexivity. unfold send_arp_reply, send_frame. cbn [driver with_cache].
    destruct (drv_send _ _) as [r d] eqn:E. cbn [Prelude.bind Arp.sender_mac Arp.sender_ip] in *.
    unfold with_driver. cbn [config arp_cache udp_sockets next_ephemeral_port with_cache]. rewrite E. reflexivity.
  - unfold handle_rx_frame. rewrite ethernet_build_parse by assumption. cbn [Prelude.bind Ethernet.ethertype Ethernet.payload].
    unfold handle_arp_packet. rewrite arp_to_bytes_parse by (assumption || (cbn; unfold is_u16, U16_MAX; lia)).
    reflexivity.
Qed.

Lemma ethernet_parse_returns data : returns (Ethernet.parse data).
Proof.
  unfold Ethernet.parse. destruct (Nat.ltb_spec (length data) Ethernet.MIN_SIZE) as [|Hl]; [apply returns_Done|].
  unfold Ethernet.MIN_SIZE in Hl. rewrite !slice_Done, be_at_Done by lia. apply returns_Done.
Qed.

Lemma arp_parse_returns data : returns (Arp.parse data).
Proof.
  unfold Arp.parse. destruct (Nat.ltb_spec (length data) Arp.SIZE) as [|Hl]; [apply returns_Done|].
  unfold Arp.SIZE in Hl. rewrite !be_at_Done, !slice_Done, !(index_nth data _ 0) by lia. apply returns_Done.
Qed.

Lemma ipv4_parse_returns data : bytes_ok data -> returns (Ipv4.parse data).
Proof.
  intros Hb. destruct (Nat.ltb_spec (length data) 20) as [Hs|Hl].
  - unfold Ipv4.parse. unfold Ipv4.MIN_HEADER_SIZE. rewrite (proj2 (Nat.ltb_lt _ _) Hs). apply returns_Done.
  - rewrite parse_unfold by assumption. cbn zeta. case_match; [apply returns_Done|]. case_match; [apply returns_Done|].
    rewrite verify_checksum_spec; [|now apply Forall_take|].
    + cbn [Prelude.bind]. case_match; apply returns_Done.
    + assert (Z.land (nth 0 data 0) 0x0F = nth 0 data 0 mod 16) as Hm by (apply (Z.land_ones _ 4); lia).
      rewrite length_take, Hm. lia.
Qed.

(** A UDP packet that says it is shorter than its header. *)
Definition short_udp (data : list Z) : Prop :=
  (8 <= length data)%nat /\ from_be (sub_slice data 4 6) < 8.

Lemma udp_parse_panics data : UdpPacket.parse data = Panicked <-> short_udp data.
Proof.
  unfold UdpPacket.parse, short_udp, UdpPacket.HEADER_SIZE.
  destruct (Nat.ltb_spec (length data) 8) as [Hs|Hl]; [split; [discriminate|lia]|].
  rewrite !be_at_Done by lia. cbn [Prelude.bind Nat.add]. set (len := from_be (sub_slice data 4 6)).
  destruct (Z.ltb_spec (Z.of_nat (length data)) len) as [H|H]; [split; [discriminate|lia]|].
  unfold slice. destruct (8 <=? Z.to_nat len)%nat eqn:E1; breflect.
  - rewrite (proj2 (Nat.leb_le _ _)) by lia. cbn [andb Prelude.bind]. split; [discriminate|lia].
  - cbn [andb Prelude.bind]. split; [lia|reflexivity].
Qed.

(** The frame carries a UDP packet for this host that is too short. *)
Definition short_udp_frame (frame : list Z) (n : Net (N := N)) : Prop :=
  exists f p c, Ethernet.parse frame = Done (Some f) /\ Ethernet.ethertype f = Ethernet.IPv4
    /\ Ipv4.parse (Ethernet.payload f) = Done (Some p) /\ config n = Some c /\ Ipv4.dst_ip p = ip_addr c
    /\ Ipv4.protocol p = Ipv4.UDP /\ short_udp (Ipv4.payload p).

Lemma ethernet_payload_ok frame f : bytes_ok frame -> Ethernet.parse frame = Done (Some f) -> bytes_ok (Ethernet.payload f).
Proof.
  intros Hb. unfold Ethernet.parse. destruct (Nat.ltb_spec (length frame) Ethernet.MIN_SIZE) as [|Hl]; [discriminate|].
  unfold Ethernet.MIN_SIZE in Hl. rewrite !slice_Done, be_at_Done by lia. cbn [Prelude.bind].
  intros [= <-]. cbn [Ethernet.payload]. apply Forall_take, Forall_drop, Hb.
Qed.

Lemma handle_arp_returns data n : returns (handle_arp_packet (N := N) data n).
Proof.
  unfold handle_arp_packet. apply returns_bind; [apply arp_parse_returns|]. intros [p|] _; [|apply returns_Done].
  case_match; [apply returns_Done|]. cbn zeta. cbn [config with_cache].
  destruct (Arp.operation p), (config n); try apply returns_Done.
  case_match; [|apply returns_Done]. unfold send_arp_reply, send_frame. destruct (drv_send _ _). apply returns_Done.
Qed.

(** C33: frames that crash the kernel. A received frame makes the handler panic
    exactly when it is an IPv4 packet with a valid checksum for this host that
    carries a UDP header whose length field is less than 8; every other frame,
    however malformed, is handled or ignored. *)
Theorem rx_frame_panics_iff frame (n : Net (N := N)) :
  bytes_ok frame -> handle_rx_frame frame n = Panicked <-> short_udp_frame frame n.
Proof.
  intros Hb. unfold handle_rx_frame, short_udp_frame. destruct (ethernet_parse_returns frame) as [r Hr]. rewrite Hr.
  cbn [Prelude.bind]. destruct r as [f|]; [|split; [discriminate|intros (? & ? & ? & [=] & _)]].
  assert (bytes_ok (Ethernet.payload f)) as Hbf by now apply (ethernet_payload_ok frame).
  destruct (ipv4_parse_returns _ Hbf) as [r4 Hr4]. destruct (Ethernet.ethertype f) eqn:Et.
  - rewrite Hr4. cbn [Prelude.bind]. destruct r4 as [p|]; [|split; [discriminate|intros (? & ? & ? & [= <-] & _ & E & _); congruence]].
    unfold handle_ipv4_packet. destruct (config n) as [c|] eqn:Ec; [|split; [discriminate|naive_solver]].
    destruct (bool_decide (Ipv4.dst_ip p = ip_addr c)) eqn:Ed; breflect; cbn [negb].
    2: { split; [discriminate|]. intros (? & ? & ? & [= <-] & _ & E & [= <-] & Hd & _).
         rewrite Hr4 in E. injection E as <-. contradiction. }
    destruct (Ipv4.protocol p) eqn:Ep;
      try (split; [discriminate|intros (? & ? & ? & [= <-] & _ & E & _ & _ & Hu & _); rewrite Hr4 in E; injection E as <-; congruence]).
    unfold handle_udp_packet. pose proof (udp_parse_panics (Ipv4.payload p)) as Hu.
    destruct (UdpPacket.parse _) as [u|]; cbn [Prelude.bind].
    + split; [destruct u; [case_match|]; discriminate|].
      intros (? & ? & ? & [= <-] & _ & E & _ & _ & _ & Hs). rewrite Hr4 in E. injection E as <-. apply Hu in Hs. discriminate.
    + split; [|reflexivity]. intros _. exists f, p, c. tauto.
  - destruct (handle_arp_returns (Ethernet.payload f) n) as [m ->]. split; [discriminate|intros (? & ? & ? & [= <-] & ? & _); congruence].
  - split; [discriminate|intros (? & ? & ? & [= <-] & ? & _); congruence].
  - split; [discriminate|intros (? & ? & ? & [= <-] & ? & _); congruence].
Qed.

End Stack.

(** A frame for the default address that carries eight zero bytes as UDP. *)
Definition crash_frame : list Z :=
  match Ipv4.build_ipv4_packet [10; 0; 2; 2] (ip_addr default_qemu) Ipv4.UDP [0; 0; 0; 0; 0; 0; 0; 0] with
  | Done (Ok packet) => Ethernet.build_ethernet_frame (mac_addr default_qemu) (mac_addr default_qemu) Ethernet.IPv4 packet
  | _ => []
  end.

Definition demo_net : Net (N := VirtioNet) :=
  mkNet (Some default_qemu) ∅ ∅ 49152 (mkVirtio (Some (mac_addr default_qemu))).

Lemma rx_frame_panics_iff_witness : handle_rx_frame crash_frame demo_net = Panicked /\ handle_rx_frame [1; 2; 3] demo_net <> Panicked.
Proof.
  split.
  - apply rx_frame_panics_iff; [refine (bool_decide_unpack _ _); vm_compute; exact I|].
    eexists _, _, _. split; [vm_compute; reflexivity|]. split; [reflexivity|]. split; [vm_compute; reflexivity|].
    split; [reflexivity|]. split; [reflexivity|]. split; [reflexivity|]. split; [cbn; lia|vm_compute; reflexivity].
  - intros E. apply rx_frame_panics_iff in E; [|repeat constructor; unfold U8_MAX; lia].
    destruct E as (f & p & c & E & _). discriminate E.
Defined.

Definition demo_sender : Net (N := VirtioNet) :=
  mkNet (Some default_qemu) {[ [10; 0; 2; 2] := [1; 2; 3; 4; 5; 6] ]} ∅ 49152 (mkVirtio (Some (mac_addr default_qemu))).
Definition demo_receiver : Net (N := VirtioNet) :=
  mkNet (Some (mkConfig [10; 0; 2; 2] [255; 255; 255; 0] [10; 0; 2; 2] [10; 0; 2; 3] [1; 2; 3; 4; 5; 6])) ∅
    {[ 53 := [] ]} 49152 (mkVirtio None).

Lemma demo_config_ok : config_ok default_qemu /\ ip_ok [10; 0; 2; 2] /\ mac_ok [1; 2; 3; 4; 5; 6].
Proof. repeat split; repeat constructor; cbn; unfold U8_MAX; lia. Qed.

Lemma datagram_delivered_witness :
  exists frame, send_udp_packet 49152 [10; 0; 2; 2] 53 [104; 105] demo_sender = Done (Ok tt, demo_sender)
    /\ exists m, handle_rx_frame frame demo_receiver = Done m
       /\ udp_sockets m !! 53 = Some [([104; 105], [10; 0; 2; 15], 49152)].
Proof.
  destruct demo_config_ok as (H1 & H2 & H3).
  destruct (datagram_delivered demo_sender demo_receiver default_qemu
    (mkConfig [10; 0; 2; 2] [255; 255; 255; 0] [10; 0; 2; 2] [10; 0; 2; 3] [1; 2; 3; 4; 5; 6]) [1; 2; 3; 4; 5; 6]
    49152 53 [104; 105] [] eq_refl H1 eq_refl H2 eq_refl H3) as (frame & Es & Er);
    try (unfold is_u16, U16_MAX; lia); try (cbn; lia); try reflexivity.
  - unfold MAX_QUEUE. cbn. lia.
  - exists frame. split; [vm_compute; reflexivity|]. eexists. split; [exact Er|reflexivity].
Defined.

Lemma arp_exchange_witness :
  exists request reply, send_arp_request [10; 0; 2; 2] demo_net = send_frame request demo_net
    /\ handle_rx_frame reply demo_net = Done (with_cache demo_net {[ [10; 0; 2; 2] := [1; 2; 3; 4; 5; 6] ]}).
Proof.
  destruct demo_config_ok as (H1 & H2 & H3).
  destruct (arp_exchange demo_net demo_net demo_receiver default_qemu _ eq_refl eq_refl eq_refl H1 (conj H2 H3))
    as (request & reply & E1 & _ & E3).
  exists request, reply. split; [exact E1|exact E3].
Defined.

(** ** The driver of the kernel *)

Lemma virtio_poll (n : Net (N := VirtioNet)) : poll_rx n = Done (Ok tt, n).
Proof. destruct n. reflexivity. Qed.

Lemma virtio_resolve_loop ip k : forall n : Net (N := VirtioNet), arp_cache n !! ip = None ->
  resolve_loop k ip n = Done (Err "ARP resolution timeout"%string, n).
Proof.
  induction k as [|k IH]; intros n Hn; [reflexivity|].
  cbn [resolve_loop]. unfold sbind at 1. rewrite virtio_poll. unfold sbind, sread. rewrite Hn. auto.
Qed.

(** The shipped driver. With the driver of the kernel, whose send and poll
    are stubs, no address outside the ARP cache is ever resolved, so a datagram
    to it is never handed to the card: [send_udp_packet] fails with a timeout,
    and leaves the network as it was. *)
Lemma virtio_never_resolves (n : Net (N := VirtioNet)) c sport ip dport payload :
  config n = Some c -> mac_address (driver n) <> None -> arp_cache n !! ip = None ->
  Z.of_nat (length payload) <= 65507 ->
  send_udp_packet sport ip dport payload n = Done (Err "ARP resolution timeout"%string, n).
Proof.
  intros Hc Hm Hn Hl.
  assert (forall frame, send_frame frame n = Done (Ok tt, n)) as Hs.
  { intros frame. destruct n as [cfg cache socks port [[mac|]]]; [reflexivity|]. now destruct Hm. }
  unfold send_udp_packet, sbind at 1, built, UdpPacket.build_udp_packet.
  rewrite (proj2 (Z.ltb_ge 65535 _)) by lia. cbn [Prelude.bind].
  unfold send_ipv4_packet, sbind at 1, get_config. rewrite Hc. unfold sbind at 1, resolve, sbind at 1, sread. rewrite Hn.
  unfold sbind at 1, send_arp_request, sbind at 1, get_config. rewrite Hc, Hs. now rewrite virtio_resolve_loop.
Qed.

End Net.
