(* ===== verification/Dns.v ===== *)
(** * The DNS client (src/kernel/src/net/dns.rs)

    Names in wire format, queries, and the parser of responses.  The loop that
    decodes a name follows compression pointers without a limit; it has fuel
    here, and [None] stands for a loop that is still running. *)

From Stdlib Require Import Ascii ListDec.
From S2P Require Import Prelude Bytes Abi Path Utf8 Packets Net.
Import Bytes Utf8 Net.

Module Dns.

Inductive DnsType : Type := A | AAAA.
Definition dns_type (t : DnsType) : Z := match t with A => 1 | AAAA => 28 end.
Definition CLASS_IN : Z := 1.

Inductive DnsRCode : Type := NoError | FormatError | ServerFailure | NameError | NotImplemented | Refused.
Definition rcode_from_u8 (value : Z) : DnsRCode :=
  match value with
  | 0 => NoError | 1 => FormatError | 2 => ServerFailure | 3 => NameError | 4 => NotImplemented | 5 => Refused
  | _ => ServerFailure
  end.

(** A label is preceded by its length as a byte; empty ones are skipped. *)
Definition encode_label (label : string) : list Z :=
  if Str.is_empty label then []
  else wrap8 (Z.of_nat (length (bytes_of_string label))) :: bytes_of_string label.

Definition encode_domain_name (name : string) : list Z := concat (encode_label <$> Str.split_on "." name) ++ [0].

(** The loop of [decode_domain_name]: the name and the offset after it, or a
    failure; [None] when the fuel runs out. *)
Fixpoint decode_loop (fuel : nat) (data : list Z) (jump_offset : nat) (jumped : bool) (offset : nat) (first : bool)
    (name : string) : option (option (string * nat)) :=
  match fuel with
  | O => None
  | S fuel' =>
      match data !! jump_offset with
      | None => Some None
      | Some len =>
          if len =? 0 then Some (Some (name, if jumped then offset else S jump_offset))
          else if Z.land len 0xC0 =? 0xC0 then
            match data !! S jump_offset with
            | None => Some None
            | Some low =>
                let ptr := Z.to_nat (from_be [Z.land len 0x3F; low]) in
                decode_loop fuel' data ptr true (if jumped then offset else S (S jump_offset)) first name
            end
          else
            let start := S jump_offset in
            let stop := (start + Z.to_nat len)%nat in
            if (length data <? stop)%nat then Some None
            else
              match from_utf8 (sub_slice data start stop) with
              | None => Some None
              | Some s =>
                  decode_loop fuel' data stop jumped offset false
                    (name ++ (if first then EmptyString else ".") ++ s)%string
              end
      end
  end.

Definition decode_domain_name (fuel : nat) (data : list Z) (offset : nat) : option (option (string * nat)) :=
  decode_loop fuel data offset false offset true EmptyString.

Definition TXID : Z := 0x1234.

Definition build_dns_query (hostname : string) (query_type : DnsType) : list Z :=
  to_be 2 TXID ++ to_be 2 0x0100 ++ to_be 2 1 ++ to_be 2 0 ++ to_be 2 0 ++ to_be 2 0
  ++ encode_domain_name hostname ++ to_be 2 (dns_type query_type) ++ to_be 2 CLASS_IN.

(** The loop over the questions: the offset after them. *)
Fixpoint skip_questions (fuel : nat) (data : list Z) (qdcount : nat) (offset : nat) : option (option nat) :=
  match qdcount with
  | O => Some (Some offset)
  | S n =>
      match decode_domain_name fuel data offset with
      | None => None
      | Some None => Some None
      | Some (Some (_, offset)) => skip_questions fuel data n (offset + 4)
      end
  end.

(** [u16::from_be_bytes] of two bytes that are in range. *)
Definition u16_at (data : list Z) (i : nat) : Z := from_be (sub_slice data i (i + 2)).

(** The loop over the answers: the addresses of the A records. *)
Fixpoint parse_answers (fuel : nat) (data : list Z) (ancount : nat) (offset : nat) (addresses : list (list Z))
    : option (option (list (list Z))) :=
  match ancount with
  | O => Some (Some addresses)
  | S n =>
      match decode_domain_name fuel data offset with
      | None => None
      | Some None => Some None
      | Some (Some (_, offset)) =>
          if (length data <? offset + 10)%nat then Some None
          else
            let rtype := u16_at data offset in
            let rdlength := Z.to_nat (u16_at data (offset + 8)) in
            let offset := (offset + 10)%nat in
            if (length data <? offset + rdlength)%nat then Some None
            else
              let addresses :=
                if (rtype =? dns_type A) && (rdlength =? 4)%nat
                then addresses ++ [sub_slice data offset (offset + 4)] else addresses in
              parse_answers fuel data n (offset + rdlength) addresses
      end
  end.

Definition parse_dns_response (fuel : nat) (data : list Z) : option (option (list (list Z))) :=
  if (length data <? 12)%nat then Some None
  else
    match rcode_from_u8 (Z.land (u16_at data 2) 0x0F) with
    | NoError =>
        match skip_questions fuel data (Z.to_nat (u16_at data 4)) 12 with
        | None => None
        | Some None => Some None
        | Some (Some offset) => parse_answers fuel data (Z.to_nat (u16_at data 6)) offset []
        end
    | _ => Some None
    end.

Section Lookup.
Context {N : Type} {DN : Driver N}.

(** [lookup]; [Ok None] when the parser of the response ran out of fuel. *)
Definition lookup (fuel : nat) (hostname : string) : stm (Net (N := N)) string (option (list Z)) :=
  let% c := get_config in
  let% src_port := (fun n => let (r, n) := bind 0 n in Done (r, n)) in
  let query := build_dns_query hostname A in
  let% _ := send_udp_packet src_port (dns_server c) 53 query in
  let% (response, _, _) := recv_udp_packet_blocking src_port (Z.to_nat 1000) in
  let% _ := smodify (unbind src_port) in
  match parse_dns_response fuel response with
  | None => sret None
  | Some None => sfail "Invalid DNS response"%string
  | Some (Some []) => sfail "No addresses found"%string
  | Some (Some (ip :: _)) => sret (Some ip)
  end.

End Lookup.

(** ** Names *)

Definition label_ok (label : string) : Prop :=
  label <> EmptyString /\ (String.length label <= 63)%nat
  /\ well_formed (length (bytes_of_string label)) (bytes_of_string label) = true.

(** The labels appended to a name that is being decoded. *)
Fixpoint joined (first : bool) (name : string) (labels : list string) : string :=
  match labels with
  | [] => name
  | l :: ls => joined false (name ++ (if first then EmptyString else ".") ++ l)%string ls
  end.

Lemma joined_tail ls : forall name l, joined false (name ++ l)%string ls = (name ++ String.concat "." (l :: ls))%string.
Proof.
  induction ls as [|l' ls IH]; intros name l; [reflexivity|]. cbn [joined].
  rewrite Str.str_app_assoc, IH.
  rewrite <- !Str.str_app_assoc. reflexivity.
Qed.

Lemma joined_concat ls : joined true EmptyString ls = String.concat "." ls.
Proof. destruct ls as [|l ls]; [reflexivity|]. apply (joined_tail ls EmptyString l). Qed.

Lemma encode_label_ok l :
  label_ok l -> encode_label l = Z.of_nat (length (bytes_of_string l)) :: bytes_of_string l
                /\ 0 < Z.of_nat (length (bytes_of_string l)) <= 63.
Proof.
  intros (Hne & Hlen & _). unfold encode_label. rewrite length_bytes_of_string.
  destruct l as [|c l]; [done|]. cbn [Str.is_empty]. cbn [String.length] in *. split; [|lia].
  f_equal. unfold wrap8. apply Z.mod_small. lia.
Qed.

Lemma short_is_no_pointer len : 0 <= len <= 63 -> (Z.land len 0xC0 =? 0xC0) = false.
Proof.
  intros H. apply Z.eqb_neq.
  assert (Z.land len 63 = len mod 2 ^ 6) as E by (apply (Z.land_ones len 6); lia).
  rewrite Z.mod_small in E by lia. rewrite <- E.
  rewrite <- Z.land_assoc. change (Z.land 63 192) with 0. now rewrite Z.land_0_r.
Qed.

Lemma decode_loop_labels labels : forall fuel pre post first name off,
  Forall label_ok labels -> (length labels < fuel)%nat ->
  decode_loop fuel (pre ++ concat (encode_label <$> labels) ++ 0 :: post) (length pre) false off first name
  = Some (Some (joined first name labels, (length pre + length (concat (encode_label <$> labels)) + 1)%nat)).
Proof.
  induction labels as [|l ls IH]; intros [|fuel] pre post first name off Hok Hf; try (cbn in Hf; lia);
    cbn [decode_loop concat fmap list_fmap joined].
  - cbn [app length]. rewrite list_lookup_middle by done. cbn. do 3 f_equal. lia.
  - apply Forall_cons in Hok as [Hl Hok]. destruct (encode_label_ok l Hl) as [-> Hlen].
    set (b := bytes_of_string l) in *. cbn [app]. rewrite <- app_assoc.
    set (rest := concat _ ++ _) in *. rewrite list_lookup_middle by done.
    rewrite (proj2 (Z.eqb_neq _ 0)) by lia. rewrite short_is_no_pointer by lia. rewrite Nat2Z.id.
    assert (length (pre ++ Z.of_nat (length b) :: b ++ rest) <? S (length pre) + length b = false)%nat as ->
      by (apply Nat.ltb_ge; rewrite !length_app; cbn [length]; rewrite length_app; lia).
    change (pre ++ Z.of_nat (length b) :: b ++ rest) with (pre ++ [Z.of_nat (length b)] ++ b ++ rest).
    rewrite app_assoc. set (pre' := pre ++ [Z.of_nat (length b)]).
    replace (S (length pre)) with (length pre') by (unfold pre'; rewrite length_app; cbn; lia).
    rewrite sub_slice_middle. unfold from_utf8. destruct Hl as (_ & _ & Hwf). fold b in Hwf. rewrite Hwf.
    assert (string_of_bytes b = l) as -> by apply string_of_bytes_of_string.
    rewrite app_assoc, <- length_app. subst rest. rewrite IH by (done || cbn in Hf; lia).
    do 3 f_equal. unfold pre'. rewrite !length_app. cbn [length]. rewrite length_app. lia.
Qed.

(** Names. Decoding a name from where it was encoded gives the name back and
    the offset of the byte after it, whatever surrounds it in the packet, if no
    label of it is empty or longer than 63 bytes. *)
Theorem domain_name_round_trip name pre post fuel :
  Forall label_ok (Str.split_on "." name) -> (length (Str.split_on "." name) < fuel)%nat ->
  decode_domain_name fuel (pre ++ encode_domain_name name ++ post) (length pre)
  = Some (Some (name, (length pre + length (encode_domain_name name))%nat)).
Proof.
  intros Hok Hf. unfold decode_domain_name, encode_domain_name. rewrite <- app_assoc. cbn [app].
  rewrite decode_loop_labels by done. rewrite joined_concat, Str.split_on_concat.
  rewrite length_app. cbn [length]. do 3 f_equal. lia.
Qed.

Lemma domain_name_round_trip_witness :
  Forall label_ok (Str.split_on "." "example.com")
  /\ decode_domain_name 3 ([1; 2] ++ encode_domain_name "example.com" ++ [9]) 2 = Some (Some ("example.com"%string, 15%nat)).
Proof.
  assert (Forall label_ok (Str.split_on "." "example.com")) as H.
  { cbn. repeat constructor; try discriminate; cbn; lia. }
  split; [exact H|]. apply (domain_name_round_trip "example.com" [1; 2] [9] 3 H). cbn. lia.
Defined.

(** ** Does decoding end? *)

(** The offset the loop reads next; [None] when it ends at this one. *)
Definition next (data : list Z) (o : nat) : option nat :=
  match data !! o with
  | None => None
  | Some len =>
      if len =? 0 then None
      else if Z.land len 0xC0 =? 0xC0 then
        match data !! S o with
        | None => None
        | Some low => Some (Z.to_nat (from_be [Z.land len 0x3F; low]))
        end
      else if (length data <? S o + Z.to_nat len)%nat then None
      else
        match from_utf8 (sub_slice data (S o) (S o + Z.to_nat len)) with
        | None => None
        | Some _ => Some (S o + Z.to_nat len)%nat
        end
  end.

Fixpoint after (data : list Z) (k : nat) (o : nat) : option nat :=
  match k with O => Some o | S k' => next data o ≫= after data k' end.

Lemma decode_loop_runs data fuel : forall o jumped off first name,
  decode_loop fuel data o jumped off first name = None <-> is_Some (after data fuel o).
Proof.
  induction fuel as [|fuel IH]; intros; [split; [by eexists|reflexivity]|].
  cbn [decode_loop after]. unfold next.
  assert (forall x : option (string * nat), Some x = None <-> is_Some (@None nat)) as Hno.
  { intros x. split; [discriminate|intros [? E]; discriminate E]. }
  destruct (data !! o) as [len|]; [|apply Hno]. destruct (len =? 0); [apply Hno|].
  destruct (Z.land len 0xC0 =? 0xC0).
  - destruct (data !! S o); [apply IH|apply Hno].
  - destruct (_ <? _)%nat; [apply Hno|]. destruct (from_utf8 _); [apply IH|apply Hno].
Qed.

Lemma after_add data a b : forall o, after data (a + b) o = after data a o ≫= after data b.
Proof.
  induction a as [|a IH]; intros o; [reflexivity|]. cbn [after Nat.add].
  destruct (next data o); [apply IH|reflexivity].
Qed.

Lemma after_prefix data k m o : (m <= k)%nat -> is_Some (after data k o) -> is_Some (after data m o).
Proof.
  intros H. replace k with (m + (k - m))%nat by lia. rewrite after_add.
  destruct (after data m o); [by eexists|done].
Qed.

Lemma after_bound data k o x : after data k o = Some x -> is_Some (after data (S k) o) -> (x < length data)%nat.
Proof.
  intros Hx. rewrite <- Nat.add_1_r, after_add, Hx. cbn. unfold next.
  destruct (data !! x) eqn:E; [intros _; by eapply lookup_lt_Some|by intros [? ?]].
Qed.

(** An offset read twice is read for ever. *)
Lemma after_cycle data o i j x :
  (i < j)%nat -> after data i o = Some x -> after data j o = Some x -> forall k, is_Some (after data k o).
Proof.
  intros Hij Hi Hj k. induction k as [k IH] using lt_wf_ind.
  destruct (decide (k <= j)%nat) as [Hle|Hgt]; [apply (after_prefix data j); [done|by eexists]|].
  specialize (IH (i + (k - j))%nat ltac:(lia)).
  replace k with (j + (k - j))%nat by lia. rewrite after_add in *. rewrite Hi in IH. now rewrite Hj.
Qed.

Lemma pigeonhole (f : nat -> nat) n :
  (forall i, (i <= n)%nat -> (f i < n)%nat) -> exists i j, (i < j)%nat /\ (j <= n)%nat /\ f i = f j.
Proof.
  intros Hf. destruct (ListDec.not_NoDup Nat.eq_decidable (l := f <$> seq 0 (S n))) as (a & l1 & l2 & l3 & E).
  - intros Hnd. apply (List.NoDup_incl_length (l' := seq 0 n)) in Hnd.
    + rewrite length_fmap, !length_seq in Hnd. lia.
    + intros x Hx. apply list_elem_of_In, list_elem_of_fmap in Hx as (i & -> & Hi).
      apply elem_of_seq in Hi. apply list_elem_of_In, elem_of_seq. specialize (Hf i). lia.
  - assert (forall k x, (f <$> seq 0 (S n)) !! k = Some x -> (k <= n)%nat /\ f k = x) as Hk.
    { intros k x Hx. apply list_lookup_fmap_Some in Hx as (i & -> & Hi).
      apply lookup_seq in Hi as [-> Hi]. split; [lia|reflexivity]. }
    destruct (Hk (length l1) a) as [_ H1]; [rewrite E; by apply list_lookup_middle|].
    destruct (Hk (length (l1 ++ a :: l2)) a) as [H2 H3].
    { rewrite E. change (l1 ++ a :: l2 ++ a :: l3) with (l1 ++ (a :: l2) ++ a :: l3).
      rewrite app_assoc. by apply list_lookup_middle. }
    exists (length l1), (length (l1 ++ a :: l2)). rewrite length_app in *. cbn [length] in *.
    split; [lia|]. split; [lia|congruence].
Qed.

(** A compression pointer is at the offset. *)
Definition is_pointer (data : list Z) (o : nat) : Prop := exists len, data !! o = Some len /\ Z.land len 0xC0 = 0xC0.

(** Without a pointer every round goes forward. *)
Lemma next_forward data o y : next data o = Some y -> is_pointer data o \/ (o < y)%nat.
Proof.
  unfold next. destruct (data !! o) as [len|] eqn:Eo; [|discriminate]. destruct (len =? 0); [discriminate|].
  destruct (Z.eqb_spec (Z.land len 0xC0) 0xC0) as [Hp|_]; [left; now exists len|].
  destruct (_ <? _)%nat; [discriminate|]. destruct (from_utf8 _); [|discriminate]. intros [= <-]. right. lia.
Qed.

Lemma pointer_or_forward data n : forall o y, after data n o = Some y ->
  (exists m x, (m < n)%nat /\ after data m o = Some x /\ is_pointer data x) \/ (o + n <= y)%nat.
Proof.
  induction n as [|n IH]; intros o y; [intros [= ->]; right; lia|]. cbn [after]. destruct (next data o) as [o1|] eqn:E; [|discriminate].
  cbn. intros Hy. destruct (next_forward _ _ _ E) as [Hp|Hf]; [left; exists 0%nat, o; split; [lia|now split]|].
  destruct (IH _ _ Hy) as [(m & x & Hm & Hx & Hp)|Hf']; [|right; lia].
  left. exists (S m), x. split; [lia|]. cbn [after]. rewrite E. now split.
Qed.

(** The rounds that an endless decoding repeats: they lead from an offset back
    to it, and one of them follows a pointer. *)
Definition pointer_cycle (data : list Z) (o : nat) : Prop :=
  exists i c n m x, after data i o = Some c /\ after data n c = Some c /\ (m < n)%nat /\ after data m c = Some x /\ is_pointer data x.

Lemma after_all_or_none data o : is_Some (after data (S (length data)) o) -> pointer_cycle data o /\ forall k, is_Some (after data k o).
Proof.
  intros H. destruct (pigeonhole (fun i => default 0%nat (after data i o)) (length data)) as (i & j & Hij & Hj & E).
  - intros i Hi. destruct (after_prefix data (S (length data)) i o ltac:(lia) H) as [x Hx]. rewrite Hx. cbn.
    apply (after_bound data i o x Hx). apply (after_prefix data (S (length data))); [lia|done].
  - destruct (after_prefix data (S (length data)) i o ltac:(lia) H) as [x Hx].
    destruct (after_prefix data (S (length data)) j o ltac:(lia) H) as [y Hy].
    rewrite Hx, Hy in E. cbn in E. subst y. split; [|exact (after_cycle data o i j x Hij Hx Hy)].
    assert (after data (j - i) x = Some x) as Hc by (replace j with (i + (j - i))%nat in Hy by lia; rewrite after_add, Hx in Hy; exact Hy).
    destruct (pointer_or_forward _ _ _ _ Hc) as [(m & z & Hm & Hz & Hp)|Hf]; [|lia].
    now exists i, x, (j - i)%nat, m, z.
Qed.

Lemma decode_loop_mono data fuel k : forall o jumped off first name r,
  decode_loop fuel data o jumped off first name = Some r ->
  decode_loop (fuel + k) data o jumped off first name = Some r.
Proof.
  induction fuel as [|fuel IH]; intros; [discriminate|]. cbn [decode_loop Nat.add] in *.
  repeat case_match; eauto.
Qed.

(** C34: termination. Decoding a name either ends within as many rounds as the
    packet has bytes, plus one, with the same result for any larger bound, or
    it never ends, and then there is a cycle of compression pointers: the
    rounds lead back to an offset that was read before, and as a label always
    leads forward, one of the rounds in between follows a pointer. *)
Theorem decoding_ends_or_loops data o :
  (exists r, forall fuel, (length data < fuel)%nat -> decode_domain_name fuel data o = Some r)
  \/ (forall fuel, decode_domain_name fuel data o = None) /\ pointer_cycle data o.
Proof.
  unfold decode_domain_name.
  destruct (decode_loop (S (length data)) data o false o true EmptyString) as [r|] eqn:E.
  - left. exists r. intros fuel Hf. replace fuel with (S (length data) + (fuel - S (length data)))%nat by lia.
    now apply decode_loop_mono.
  - right. apply decode_loop_runs, after_all_or_none in E as [Hc Hk]. split; [|exact Hc].
    intros fuel. apply decode_loop_runs, Hk.
Qed.

(** An endless response. A response with at least one question whose first
    name is a compression pointer to itself is never parsed: the loop of
    [decode_domain_name] does not end, for any number of rounds. *)
Theorem self_pointer_never_ends data fuel :
  Z.land (u16_at data 2) 0x0F = 0 -> (1 <= Z.to_nat (u16_at data 4))%nat ->
  data !! 12%nat = Some 0xC0 -> data !! 13%nat = Some 12 ->
  parse_dns_response fuel data = None.
Proof.
  intros Hr Hq H1 H2. unfold parse_dns_response.
  assert (12 < length data)%nat as Hl by (eapply lookup_lt_Some; eassumption).
  rewrite (proj2 (Nat.ltb_ge _ _)) by lia. rewrite Hr. cbn [rcode_from_u8].
  destruct (Z.to_nat (u16_at data 4)) as [|n]; [lia|]. cbn [skip_questions].
  assert (decode_domain_name fuel data 12 = None) as ->; [|reflexivity].
  apply decode_loop_runs, (after_cycle data 12 0 1 12); [lia|reflexivity|].
  cbn [after]. unfold next. rewrite H1, H2. reflexivity.
Qed.

Lemma self_pointer_never_ends_witness :
  parse_dns_response 1000 ([0x12; 0x34; 0x81; 0x80; 0; 1; 0; 1; 0; 0; 0; 0] ++ [0xC0; 12]) = None.
Proof. apply self_pointer_never_ends; reflexivity. Defined.

(** Lookups leak their port. With the driver of the kernel a lookup whose
    server is not in the ARP cache fails, and the port bound for it stays
    bound: nothing releases it on the error path. *)
Theorem failed_lookup_leaks_port (n : Net (N := VirtioNet)) c fuel hostname :
  config n = Some c -> mac_address (driver n) <> None -> arp_cache n !! dns_server c = None ->
  udp_sockets n !! next_ephemeral_port n = None ->
  Z.of_nat (length (build_dns_query hostname A)) <= 65507 ->
  exists n', lookup fuel hostname n = Done (Err "ARP resolution timeout"%string, n')
    /\ udp_sockets n' = <[next_ephemeral_port n := []]> (udp_sockets n).
Proof.
  intros Hc Hm Ha Hp Hl. unfold lookup, sbind at 1, get_config. rewrite Hc. unfold sbind at 1, bind.
  cbn -[send_udp_packet build_dns_query recv_udp_packet_blocking]. rewrite Hp.
  eexists. split; [unfold sbind at 1|].
  - match goal with |- context [send_udp_packet _ _ _ _ ?m] => set (n1 := m) end. rewrite (virtio_never_resolves n1 c) by done. reflexivity.
  - reflexivity.
Qed.

Lemma failed_lookup_leaks_port_witness :
  exists n', lookup 100 "example.com" demo_net = Done (Err "ARP resolution timeout"%string, n')
    /\ udp_sockets n' = <[next_ephemeral_port demo_net := []]> (udp_sockets demo_net).
Proof.
  apply (failed_lookup_leaks_port demo_net default_qemu); [reflexivity|discriminate|reflexivity|reflexivity|].
  vm_compute. discriminate.
Defined.

End Dns.
