(* ===== verification/VirtioPci.v ===== *)
(** * Finding and starting the network card (src/kernel/src/net/virtio_net.rs, net/mod.rs)

    The scan of the PCI bus, the start of the virtio card and the configuration
    of the network, port access by port access.  The machine behind the ports
    is a parameter; the laws are those of PCI configuration mechanism 1 and of
    the registers of a legacy virtio card. *)

From S2P Require Import Prelude Bytes Packets Net.
Import Bytes Net.

Module VirtioPci.

Class Ports (C : Type) : Type := {
  in8 : Z -> C -> Z * C;
  out8 : Z -> Z -> C -> C;
  in32 : Z -> C -> Z * C;
  out32 : Z -> Z -> C -> C
}.

Definition VIRTIO_VENDOR_ID : Z := 0x1AF4.
Definition VIRTIO_NET_DEVICE_ID : Z := 0x1000.
Definition VIRTIO_STATUS_ACKNOWLEDGE : Z := 1.
Definition VIRTIO_STATUS_DRIVER : Z := 2.
Definition VIRTIO_STATUS_FEATURES_OK : Z := 8.
Definition VIRTIO_STATUS_DRIVER_OK : Z := 4.

Section Driver.
Context {C : Type} {PC : Ports C}.

Definition pci_address (bus device function offset : Z) : Z :=
  Z.lor (Z.lor (Z.lor (Z.lor 0x80000000 (Z.shiftl bus 16)) (Z.shiftl device 11)) (Z.shiftl function 8)) (Z.land offset 0xFC).

Definition read_pci_config (bus device function offset : Z) (c : C) : Z * C :=
  in32 0xCFC (out32 0xCF8 (pci_address bus device function offset) c).

(** The loop over the devices of bus 0, from [device], for [n] more. *)
Fixpoint scan_devices (n : nat) (device : Z) (c : C) : result (Z * Z * Z * Z) string * C :=
  match n with
  | O => (Err "VirtIO-Net device not found", c)
  | S n =>
      let (id, c) := read_pci_config 0 device 0 0 c in
      if wrap16 id =? VIRTIO_VENDOR_ID then
        let (id, c) := read_pci_config 0 device 0 0 c in
        if wrap16 (Z.shiftr id 16) =? VIRTIO_NET_DEVICE_ID then
          let (bar0, c) := read_pci_config 0 device 0 0x10 c in
          (Ok (0, device, 0, Z.land bar0 0xFFFC), c)
        else scan_devices n (device + 1) c
      else scan_devices n (device + 1) c
  end.

Definition scan_pci_for_virtio_net (c : C) : result (Z * Z * Z * Z) string * C := scan_devices 32 0 c.

(** Addition of 16-bit integers. *)
Definition add16 (a b : Z) : outcome Z := if a + b <=? 0xFFFF then Done (a + b) else Panicked.

Definition write_port_u8 (io_base off v : Z) (c : C) : outcome C :=
  let! port := add16 io_base off in Done (out8 port v c).

(** [for i in 0..6 { mac_addr[i] = read_port_u8(io_base + 20 + i) }] *)
Fixpoint read_mac (io_base : Z) (i : Z) (n : nat) (c : C) : outcome (list Z * C) :=
  match n with
  | O => Done ([], c)
  | S n =>
      let! base := add16 io_base 20 in
      let! port := add16 base i in
      let (b, c) := in8 port c in
      let! (rest, c) := read_mac io_base (i + 1) n c in
      Done (b :: rest, c)
  end.

(** [virtio_net::init]. The buffers it allocates are not used. *)
Definition init (d : VirtioNet) (c : C) : outcome (result unit string * VirtioNet * C) :=
  match scan_pci_for_virtio_net c with
  | (Err e, c) => Done (Err e, d, c)
  | (Ok (_, _, _, io_base), c) =>
      let! c := write_port_u8 io_base 18 0 c in
      let! c := write_port_u8 io_base 18 VIRTIO_STATUS_ACKNOWLEDGE c in
      let! c := write_port_u8 io_base 18 (Z.lor VIRTIO_STATUS_ACKNOWLEDGE VIRTIO_STATUS_DRIVER) c in
      let! (mac_addr, c) := read_mac io_base 0 6 c in
      let! features := add16 io_base 0 in
      let (_, c) := in32 features c in
      let! guest := add16 io_base 4 in
      let c := out32 guest 0 c in
      let! c := write_port_u8 io_base 18
                  (Z.lor (Z.lor VIRTIO_STATUS_ACKNOWLEDGE VIRTIO_STATUS_DRIVER) VIRTIO_STATUS_FEATURES_OK) c in
      let! c := write_port_u8 io_base 18
                  (Z.lor (Z.lor (Z.lor VIRTIO_STATUS_ACKNOWLEDGE VIRTIO_STATUS_DRIVER) VIRTIO_STATUS_FEATURES_OK)
                     VIRTIO_STATUS_DRIVER_OK) c in
      Done (Ok tt, mkVirtio (Some mac_addr), c)
  end.

Definition get_mac_address (d : VirtioNet) : result (list Z) string :=
  match mac_address d with Some m => Ok m | None => Err "Device not initialized" end.

(** [net::init]: the configuration and the driver. *)
Definition net_init (n : Net) (c : C) : outcome (result unit string * Net * C) :=
  let! (r, d, c) := init (driver n) c in
  match r with
  | Err e => Done (Err e, with_driver n d, c)
  | Ok _ =>
      match get_mac_address d with
      | Err e => Done (Err e, with_driver n d, c)
      | Ok mac =>
          let q := default_qemu in
          Done (Ok tt, mkNet (Some (mkConfig (ip_addr q) (netmask q) (gateway q) (dns_server q) mac)) (arp_cache n) (udp_sockets n)
                         (next_ephemeral_port n) d, c)
      end
  end.

End Driver.

(** ** The machine *)

(** A legacy virtio card: the values written to its status register, the
    features the driver chose and its address. *)
Record Card : Type := mkCard { status_log : list Z; guest_features : option Z; mac : list Z }.

Class Machine (C : Type) {PC : Ports C} : Type := {
  pci_config : C -> Z -> Z;
  card_base : Z;
  card : C -> Card;
  config_read : forall a c, exists c', in32 0xCFC (out32 0xCF8 a c) = (pci_config c a, c') /\ pci_config c' = pci_config c /\ card c' = card c;
  status_write : forall v c, card (out8 (card_base + 18) v c) = mkCard (status_log (card c) ++ [v]) (guest_features (card c)) (mac (card c));
  mac_read : forall i c, 0 <= i < 6 -> exists c', in8 (card_base + 20 + i) c = (nth (Z.to_nat i) (mac (card c)) 0, c') /\ card c' = card c;
  features_read : forall c, card (in32 card_base c).2 = card c;
  features_write : forall v c, card (out32 (card_base + 4) v c) = mkCard (status_log (card c)) (Some v) (mac (card c))
}.

Section Facts.
Context {C : Type} {PC : Ports C} {MC : Machine C}.

(** The device in a slot is a virtio network card. *)
Definition is_net (c : C) (d : Z) : bool :=
  let id := pci_config c (pci_address 0 d 0 0) in
  (wrap16 id =? VIRTIO_VENDOR_ID) && (wrap16 (Z.shiftr id 16) =? VIRTIO_NET_DEVICE_ID).

(** The first slot with a card. *)
Fixpoint first_net (c : C) (n : nat) (d : Z) : option Z :=
  match n with O => None | S n => if is_net c d then Some d else first_net c n (d + 1) end.

Lemma is_net_ext c c' : pci_config c' = pci_config c -> forall d, is_net c' d = is_net c d.
Proof. intros H d. unfold is_net. now rewrite H. Qed.

Lemma first_net_ext c c' n : pci_config c' = pci_config c -> forall d, first_net c' n d = first_net c n d.
Proof. intros H. induction n as [|n IH]; intros d; cbn; [reflexivity|]. now rewrite (is_net_ext c c' H), IH. Qed.

Lemma scan_spec n : forall d c, exists c', pci_config c' = pci_config c /\ card c' = card c
  /\ scan_devices n d c = (match first_net c n d with
                           | Some d' => Ok (0, d', 0, Z.land (pci_config c (pci_address 0 d' 0 0x10)) 0xFFFC)
                           | None => Err "VirtIO-Net device not found"
                           end, c').
Proof.
  induction n as [|n IH]; intros d c; cbn [scan_devices first_net]; [now exists c|]. unfold is_net, read_pci_config.
  destruct (config_read (pci_address 0 d 0 0) c) as (c1 & -> & P1 & K1).
  destruct (wrap16 _ =? VIRTIO_VENDOR_ID); cbn [andb].
  - destruct (config_read (pci_address 0 d 0 0) c1) as (c2 & -> & P2 & K2). rewrite P1.
    destruct (wrap16 _ =? VIRTIO_NET_DEVICE_ID).
    + destruct (config_read (pci_address 0 d 0 0x10) c2) as (c3 & -> & P3 & K3). rewrite P2, P1. exists c3. split; [congruence|]. split; [congruence|reflexivity].
    + destruct (IH (d + 1) c2) as (c3 & P3 & K3 & ->). exists c3. split; [congruence|]. split; [congruence|].
      rewrite (first_net_ext c c2), P2, P1 by congruence. reflexivity.
  - destruct (IH (d + 1) c1) as (c3 & P3 & K3 & ->). exists c3. split; [congruence|]. split; [congruence|].
    rewrite (first_net_ext c c1), P1 by congruence. reflexivity.
Qed.

Lemma add16_Done a b : a + b <= 0xFFFF -> add16 a b = Done (a + b).
Proof. intros H. unfold add16. now rewrite (proj2 (Z.leb_le _ _) H). Qed.

Lemma read_mac_spec n : forall i c, card_base + 25 <= 0xFFFF -> 0 <= i -> i + Z.of_nat n <= 6 ->
  exists c', read_mac card_base i n c = Done ((fun j => nth j (mac (card c)) 0) <$> seq (Z.to_nat i) n, c') /\ card c' = card c.
Proof.
  induction n as [|n IH]; intros i c Hb H0 Hn; cbn [read_mac seq fmap list_fmap]; [now exists c|].
  rewrite !add16_Done by lia. cbn [Prelude.bind]. rewrite add16_Done by lia. cbn [Prelude.bind].
  destruct (mac_read i c) as (c1 & -> & K1); [lia|]. destruct (IH (i + 1) c1) as (c2 & -> & K2); [lia..|].
  exists c2. split; [|congruence]. cbn [Prelude.bind]. rewrite K1. replace (Z.to_nat (i + 1)) with (S (Z.to_nat i)) by lia. reflexivity.
Qed.

(** Starting the network. When no slot of the bus has a virtio network card, the
    stack stays as it was and the error says so. Otherwise the card of the first
    such slot is taken through the stages of its start, in order - reset, seen,
    driver found, features accepted (none), running - and the network has the
    address of that card. *)
Theorem network_starts n c :
  (first_net c 32 0 = None -> exists c', net_init n c = Done (Err "VirtIO-Net device not found", n, c') /\ card c' = card c)
  /\ (forall d, first_net c 32 0 = Some d -> Z.land (pci_config c (pci_address 0 d 0 0x10)) 0xFFFC = card_base ->
        card_base + 25 <= 0xFFFF -> length (mac (card c)) = 6%nat ->
        exists c', net_init n c
            = Done (Ok tt, mkNet (Some (mkConfig (ip_addr default_qemu) (netmask default_qemu) (gateway default_qemu)
                                          (dns_server default_qemu) (mac (card c))))
                             (arp_cache n) (udp_sockets n) (next_ephemeral_port n) (mkVirtio (Some (mac (card c)))), c')
          /\ card c' = mkCard (status_log (card c) ++ [0; 1; 3; 11; 15]) (Some 0) (mac (card c))).
Proof.
  unfold net_init, init, scan_pci_for_virtio_net. destruct (scan_spec 32 0 c) as (c1 & P1 & K1 & ->). split.
  - intros ->. exists c1. split; [now destruct n|exact K1].
  - intros d -> -> Hb Hm. unfold write_port_u8. rewrite !add16_Done by lia. cbn [Prelude.bind].
    destruct (read_mac_spec 6 0 (out8 (card_base + 18) (Z.lor VIRTIO_STATUS_ACKNOWLEDGE VIRTIO_STATUS_DRIVER)
      (out8 (card_base + 18) VIRTIO_STATUS_ACKNOWLEDGE (out8 (card_base + 18) 0 c1)))) as (c2 & -> & K2); [lia..|].
    rewrite !status_write, K1 in K2. cbn [mac status_log guest_features] in K2. cbn [Prelude.bind]. rewrite !status_write, K1. cbn [mac].
    rewrite Z.add_0_r. destruct (in32 card_base c2) as [f c3] eqn:E3.
    pose proof (features_read c2) as K3. rewrite E3 in K3. cbn [snd] in K3. cbn [Prelude.bind]. eexists. split.
    + destruct (mac (card c)) as [|m0 [|m1 [|m2 [|m3 [|m4 [|m5 [|]]]]]]]; try discriminate Hm. reflexivity.
    + rewrite !status_write, features_write, K3, K2. cbn [status_log guest_features mac]. now rewrite <- !app_assoc.
Qed.

End Facts.

(** A machine with a card in slot 3, at port 0xC000. *)
Record demo : Type := mkDemo { address : Z; demo_card : Card }.

#[local] Instance demo_ports : Ports demo := {
  in8 p c := (nth (Z.to_nat (p - 0xC014)) (mac (demo_card c)) 0, c);
  out8 p v c := mkDemo (address c) (mkCard (status_log (demo_card c) ++ [v]) (guest_features (demo_card c)) (mac (demo_card c)));
  in32 p c := (if address c =? pci_address 0 3 0 0 then 0x10001AF4 else if address c =? pci_address 0 3 0 0x10 then 0xC001 else 0xFFFFFFFF, c);
  out32 p v c := if p =? 0xCF8 then mkDemo v (demo_card c)
                 else mkDemo (address c) (mkCard (status_log (demo_card c)) (Some v) (mac (demo_card c)))
}.

#[local] Program Instance demo_machine : Machine demo := {
  pci_config c a := if a =? pci_address 0 3 0 0 then 0x10001AF4 else if a =? pci_address 0 3 0 0x10 then 0xC001 else 0xFFFFFFFF;
  card_base := 0xC000;
  card := demo_card
}.
Next Obligation. intros a c. eexists. split; [reflexivity|split; reflexivity]. Qed.
Next Obligation. reflexivity. Qed.
Next Obligation.
  intros i c Hi. eexists. split; [|reflexivity]. cbn [in8 demo_ports]. do 3 f_equal. lia.
Qed.
Next Obligation. reflexivity. Qed.
Next Obligation. reflexivity. Qed.

Lemma network_starts_witness :
  exists c', net_init (mkNet None ∅ ∅ 49152 (mkVirtio None)) (mkDemo 0 (mkCard [] None [2; 0; 0; 0; 0; 7]))
    = Done (Ok tt, mkNet (Some (mkConfig [10; 0; 2; 15] [255; 255; 255; 0] [10; 0; 2; 2] [10; 0; 2; 3] [2; 0; 0; 0; 0; 7])) ∅ ∅ 49152
                     (mkVirtio (Some [2; 0; 0; 0; 0; 7])), c')
    /\ demo_card c' = mkCard [0; 1; 3; 11; 15] (Some 0) [2; 0; 0; 0; 0; 7].
Proof.
  destruct (proj2 (network_starts (mkNet None ∅ ∅ 49152 (mkVirtio None)) (mkDemo 0 (mkCard [] None [2; 0; 0; 0; 0; 7]))) 3)
    as (c' & E & K); [reflexivity|reflexivity|cbn; lia|reflexivity|].
  exists c'. split; [exact E|exact K].
Defined.

End VirtioPci.
