(* ===== verification/DiskFs.v ===== *)
(** * The read-only disk file system (src/kernel/src/diskfs.rs)

    The reader, over any block device.  The program that makes its images is in
    MkDiskImg.v, with the theorem that ties the two together. *)

From S2P Require Import Prelude Bytes Block Utf8 Abi Path.
Import Bytes Block Utf8 Str.

Module DiskFs.

Definition FS_MAGIC : Z := 0x50414E44.
Definition FS_VERSION : Z := 1.
Definition MAX_DIRECT_BLOCKS : nat := 28.
Definition MAX_FILENAME_LEN : nat := 255.
Definition DIRENT_HEADER_SIZE : nat := 5.
(** [size_of::<Inode>()]. *)
Definition INODE_SIZE : nat := 128.

Inductive InodeType : Type := IFile | IDirectory.

Global Instance InodeType_eq_dec : EqDecision InodeType.
Proof. solve_decision. Defined.

(** [InodeType::from_u32]. *)
Definition InodeType_from_u32 (val : Z) : option InodeType :=
  if val =? 1 then Some IFile else if val =? 2 then Some IDirectory else None.

Inductive DiskFsError : Type :=
  | IoError | InvalidMagic | InvalidVersion | InvalidInode | InvalidInodeType
  | InvalidPath | NotFound | NotADirectory | NotAFile.

(** [struct DiskFile] and [struct DiskDirEntry]. *)
Record DiskFile : Type := mkDiskFile {
  df_inode : Z; df_type : InodeType; df_size : Z; df_blocks : list Z }.
Record DiskDirEntry : Type := mkDirEntry { de_inode : Z; de_name : string }.

Section Reader.
Context {D : Type} `{BlockDevice D}.

(** [struct DiskFs]. *)
Record DiskFs : Type := mkDiskFs {
  device : D; root_inode : Z; total_inodes : Z; first_data_block : Z }.

(** [read_sector(..).map_err(|_| DiskFsError::IoError)]. *)
Definition get_sector (d : D) (n : Z) : outcome (result (list Z) DiskFsError) :=
  Done (map_err (fun _ => IoError) (read_sector d n)).

(** [DiskFs::new]. *)
Definition new (d : D) : outcome (result DiskFs DiskFsError) :=
  let* sector := get_sector d 0 in
  let! magic := le_at sector 0 4 in
  let! version := le_at sector 4 4 in
  let! root_inode := le_at sector 8 4 in
  let! total_inodes := le_at sector 12 4 in
  let! first_data_block := le_at sector 16 4 in
  Done (if negb (magic =? FS_MAGIC) then Err InvalidMagic
        else if negb (version =? FS_VERSION) then Err InvalidVersion
        else Ok (mkDiskFs d root_inode total_inodes first_data_block)).

(** The loop over the direct blocks, from the [i]-th on, [n] left. *)
Fixpoint read_blocks (sector : list Z) (base i n : nat) : outcome (list Z) :=
  match n with
  | O => Done []
  | S n' =>
      let! block := le_at sector (base + i * 4) 4 in
      let! blocks := read_blocks sector base (S i) n' in
      Done (if negb (block =? 0) then block :: blocks else blocks)
  end.

(** [read_inode]. *)
Definition read_inode (fs : DiskFs) (inode_num : Z) : outcome (result DiskFile DiskFsError) :=
  if total_inodes fs <=? inode_num then Done (Err InvalidInode)
  else
    let inodes_per_sector := (SECTOR_SIZE / INODE_SIZE)%nat in
    let sector_num := 1 + inode_num / Z.of_nat inodes_per_sector in
    let base := (Z.to_nat (inode_num mod Z.of_nat inodes_per_sector) * INODE_SIZE)%nat in
    let* sector := get_sector (device fs) sector_num in
    let! inode_num_on_disk := le_at sector base 4 in
    let! file_type_raw := le_at sector (base + 4) 4 in
    let! size := le_at sector (base + 8) 8 in
    match InodeType_from_u32 file_type_raw with
    | None => Done (Err InvalidInodeType)
    | Some file_type =>
        let! blocks := read_blocks sector (base + 16) 0 MAX_DIRECT_BLOCKS in
        Done (Ok (mkDiskFile inode_num_on_disk file_type size blocks))
    end.

(** The data blocks of a directory, one after the other. *)
Fixpoint read_all (d : D) (blocks : list Z) : outcome (result (list Z) DiskFsError) :=
  match blocks with
  | [] => Done (Ok [])
  | block_num :: rest =>
      let* sector := get_sector d block_num in
      let* buffer := read_all d rest in
      Done (Ok (sector ++ buffer))
  end.

(** The loop of [read_dir] over the buffer; every turn advances the offset, so
    [fuel] turns are enough when it is the length of the buffer. *)
Fixpoint parse_dir (fuel : nat) (buffer : list Z) (limit offset : nat)
    : outcome (list DiskDirEntry) :=
  match fuel with
  | O => Done []
  | S fuel' =>
      if negb (offset <? limit)%nat then Done []
      else if (limit <? offset + DIRENT_HEADER_SIZE)%nat then Done []
      else
        let! inode_num := le_at buffer offset 4 in
        let! b := index buffer (offset + 4) in
        let name_len := Z.to_nat b in
        let offset := (offset + DIRENT_HEADER_SIZE)%nat in
        if (name_len =? 0)%nat || (MAX_FILENAME_LEN <? name_len)%nat
           || (limit <? offset + name_len)%nat then Done []
        else
          let! name_bytes := slice buffer offset (offset + name_len) in
          let name := from_utf8_lossy name_bytes in
          let offset := (offset + name_len)%nat in
          (* [(offset + 3) & !3] *)
          let offset := ((offset + 3) / 4 * 4)%nat in
          let! entries := parse_dir fuel' buffer limit offset in
          Done (mkDirEntry inode_num name :: entries)
  end.

(** [read_dir]. *)
Definition read_dir (fs : DiskFs) (inode_num : Z)
    : outcome (result (list DiskDirEntry) DiskFsError) :=
  let* file := read_inode fs inode_num in
  if negb (bool_decide (df_type file = IDirectory)) then Done (Err NotADirectory)
  else
    let* buffer := read_all (device fs) (df_blocks file) in
    let limit := Z.to_nat (Z.min (df_size file) (Z.of_nat (length buffer))) in
    let! entries := parse_dir (length buffer) buffer limit 0 in
    Done (Ok entries).

(** [lookup]. *)
Definition lookup (fs : DiskFs) (dir_inode : Z) (name : string) : outcome (result Z DiskFsError) :=
  let* entries := read_dir fs dir_inode in
  Done (match find (fun e => bool_decide (de_name e = name)) entries with
        | Some entry => Ok (de_inode entry)
        | None => Err NotFound
        end).

Fixpoint resolve_components (fs : DiskFs) (current_inode : Z) (components : list string)
    : outcome (result Z DiskFsError) :=
  match components with
  | [] => Done (Ok current_inode)
  | component :: rest =>
      let* current_inode := lookup fs current_inode component in
      resolve_components fs current_inode rest
  end.

(** [resolve_path]. *)
Definition resolve_path (fs : DiskFs) (path : string) : outcome (result Z DiskFsError) :=
  if is_empty path || negb (starts_with_slash path) then Done (Err InvalidPath)
  else if bool_decide (path = "/") then Done (Ok (root_inode fs))
  else resolve_components fs (root_inode fs) (filter (fun s => s <> EmptyString) (split path)).

(** The loop of [read_file] over the blocks from the start block on: [first]
    is true for the start block, whose reading begins at
    [start_block_offset]. *)
Fixpoint read_loop (d : D) (blocks : list Z) (first : bool) (start_block_offset : nat)
    (available bytes_read : nat) (buffer : list Z)
    : outcome (result (nat * list Z) DiskFsError) :=
  match blocks with
  | [] => Done (Ok (bytes_read, buffer))
  | block_num :: rest =>
      if (available <=? bytes_read)%nat then Done (Ok (bytes_read, buffer))
      else
        let* sector := get_sector d block_num in
        let block_offset := if first then start_block_offset else 0%nat in
        let to_read := Nat.min (SECTOR_SIZE - block_offset) (available - bytes_read) in
        let! src := slice sector block_offset (block_offset + to_read) in
        let! _ := rust_assert (bytes_read + to_read <=? length buffer)%nat in
        read_loop d rest false start_block_offset available (bytes_read + to_read)
          (splice buffer bytes_read src)
  end.

(** [read_file]: the count and the buffer. *)
Definition read_file (fs : DiskFs) (inode_num : Z) (offset : nat) (buffer : list Z)
    : outcome (result (nat * list Z) DiskFsError) :=
  let* file := read_inode fs inode_num in
  if negb (bool_decide (df_type file = IFile)) then Done (Err NotAFile)
  else if df_size file <=? Z.of_nat offset then Done (Ok (0%nat, buffer))
  else
    let available := Z.to_nat (Z.min (df_size file - Z.of_nat offset) (Z.of_nat (length buffer))) in
    let start_block_idx := (offset / SECTOR_SIZE)%nat in
    let start_block_offset := (offset mod SECTOR_SIZE)%nat in
    read_loop (device fs) (drop start_block_idx (df_blocks file)) true start_block_offset
      available 0 buffer.

Definition stat (fs : DiskFs) (inode_num : Z) : outcome (result DiskFile DiskFsError) :=
  read_inode fs inode_num.

(** A block of the device and its contents. *)
Definition holds (d : D) (block : Z) (s : list Z) : Prop := read_sector d block = Ok s.

End Reader.
Arguments DiskFs : clear implicits.

(** ** Lemmas *)

Section ReaderLemmas.
Context {D : Type} `{BlockDevice D}.

Lemma get_sector_returns (d : D) n : returns (get_sector d n).
Proof. apply returns_Done. Qed.

Lemma get_sector_Ok (d : D) n b : get_sector d n = Done (Ok b) <-> read_sector d n = Ok b.
Proof. unfold get_sector. destruct (read_sector d n); cbn; naive_solver. Qed.

Lemma diskfs_get_sector_ok (d : D) n b : get_sector d n = Done (Ok b) -> is_sector b.
Proof. rewrite get_sector_Ok. apply read_sector_ok. Qed.

Lemma le_at_returns l off n : (off + n <= length l)%nat -> returns (le_at l off n).
Proof. intros. rewrite le_at_Done by assumption. apply returns_Done. Qed.

Lemma new_returns (d : D) : returns (new d).
Proof.
  apply returns_bind_ok; [apply get_sector_returns|]. intros s [Hl _]%diskfs_get_sector_ok.
  unfold SECTOR_SIZE in Hl. rewrite !le_at_Done by lia. cbn [bind]. apply returns_Done.
Qed.

Lemma read_blocks_returns s base n : forall i,
  (base + (i + n) * 4 <= length s)%nat -> returns (read_blocks s base i n).
Proof.
  induction n as [|n IH]; intros i Hl; cbn [read_blocks]; [apply returns_Done|].
  apply returns_bind; [apply le_at_returns; lia|]. intros b _.
  apply returns_bind; [apply IH; lia|]. intros bs _. apply returns_Done.
Qed.

Lemma read_inode_returns (fs : DiskFs D) i : returns (read_inode fs i).
Proof.
  unfold read_inode. case_match; [apply returns_Done|].
  apply returns_bind_ok; [apply get_sector_returns|]. intros s [Hl _]%diskfs_get_sector_ok.
  change (SECTOR_SIZE / INODE_SIZE)%nat with 4%nat. change (Z.of_nat 4) with 4.
  unfold SECTOR_SIZE, INODE_SIZE in *.
  assert (Z.to_nat (i mod 4) <= 3)%nat by lia.
  rewrite !le_at_Done by lia. cbn [bind]. case_match; [|apply returns_Done].
  apply returns_bind; [apply read_blocks_returns; unfold MAX_DIRECT_BLOCKS; lia|].
  intros. apply returns_Done.
Qed.

Lemma read_all_returns (d : D) bs : returns (read_all d bs).
Proof.
  induction bs as [|b bs IH]; cbn [read_all]; [apply returns_Done|].
  apply returns_bind_ok; [apply get_sector_returns|]. intros s _.
  apply returns_bind_ok; [assumption|]. intros. apply returns_Done.
Qed.

Lemma parse_dir_returns buffer limit fuel : forall offset,
  (limit <= length buffer)%nat -> returns (parse_dir fuel buffer limit offset).
Proof.
  induction fuel as [|fuel IH]; intros offset Hl; cbn [parse_dir]; [apply returns_Done|].
  unfold DIRENT_HEADER_SIZE. case_match; [apply returns_Done|]. case_match; [apply returns_Done|]. breflect.
  rewrite le_at_Done by lia. cbn [bind].
  destruct (index_lt buffer (offset + 4) ltac:(lia)) as (b & _ & ->). cbn [bind].
  case_match; [apply returns_Done|]. breflect. rewrite slice_Done by lia. cbn [bind].
  apply returns_bind; [apply IH; lia|]. intros. apply returns_Done.
Qed.

Lemma read_dir_returns (fs : DiskFs D) i : returns (read_dir fs i).
Proof.
  apply returns_bind_ok; [apply read_inode_returns|]. intros file _. case_match; [apply returns_Done|].
  apply returns_bind_ok; [apply read_all_returns|]. intros buffer _.
  apply returns_bind; [apply parse_dir_returns; lia|]. intros. apply returns_Done.
Qed.

Lemma resolve_components_returns (fs : DiskFs D) cs : forall i, returns (resolve_components fs i cs).
Proof.
  induction cs as [|c cs IH]; intros i; cbn [resolve_components]; [apply returns_Done|].
  apply returns_bind_ok; [|intros; apply IH].
  apply returns_bind_ok; [apply read_dir_returns|]. intros. apply returns_Done.
Qed.

Lemma diskfs_resolve_path_returns (fs : DiskFs D) path : returns (resolve_path fs path).
Proof.
  unfold resolve_path. repeat case_match; try apply returns_Done. apply resolve_components_returns.
Qed.

(** The loop of [read_dir] ends within as many turns as the range has bytes. *)
Lemma parse_dir_fuel buffer limit f1 : forall f2 offset,
  (limit - offset <= f1)%nat -> (limit - offset <= f2)%nat ->
  parse_dir f1 buffer limit offset = parse_dir f2 buffer limit offset.
Proof.
  induction f1 as [|f1 IH]; intros f2 offset H1 H2; destruct f2 as [|f2]; cbn [parse_dir].
  - reflexivity.
  - rewrite (proj2 (Nat.ltb_ge offset limit)) by lia. reflexivity.
  - rewrite (proj2 (Nat.ltb_ge offset limit)) by lia. reflexivity.
  - unfold DIRENT_HEADER_SIZE. case_match; [reflexivity|]. case_match; [reflexivity|].
    destruct (le_at _ _ _); [|reflexivity]. cbn [bind]. destruct (index _ _); [|reflexivity]. cbn [bind].
    case_match; [reflexivity|]. destruct (slice _ _ _); [|reflexivity]. cbn [bind]. breflect.
    rewrite (IH f2); [reflexivity|lia|lia].
Qed.

(** The loop of [read_file] copies the bytes of the blocks from the start on. *)
Lemma diskfs_read_loop_spec (d : D) blocks : forall sectors (first : bool) so avail br buffer,
  Forall2 (holds d) blocks sectors ->
  (so < SECTOR_SIZE)%nat -> (br <= avail <= length buffer)%nat ->
  let data := drop (if first then so else 0%nat) (concat sectors) in
  let n := Nat.min (avail - br) (length data) in
  read_loop d blocks first so avail br buffer
  = Done (Ok ((br + n)%nat, splice buffer br (take n data))).
Proof.
  induction blocks as [|b blocks IH]; intros sectors first so avail br buffer Hf Hso Hbr data n;
    inversion Hf as [|? s ? ss Hs Hss]; subst; cbn [read_loop].
  { subst n data. cbn [concat]. rewrite drop_nil. cbn [length]. rewrite Nat.min_0_r, take_0, splice_nil.
    do 3 f_equal. lia. }
  set (off := if first then so else 0%nat) in *.
  assert (off < SECTOR_SIZE)%nat as Hoff by (subst off; destruct first; lia).
  destruct (Nat.leb_spec avail br).
  { replace n with 0%nat by (subst n; lia). rewrite take_0, splice_nil. do 3 f_equal. lia. }
  rewrite (proj2 (get_sector_Ok d b s) Hs). cbn [bind_ok].
  pose proof (read_sector_ok _ _ _ Hs) as [Hsl _].
  set (tr := Nat.min (SECTOR_SIZE - off) (avail - br)).
  rewrite slice_Done by lia. cbn [bind]. rewrite (proj2 (Nat.leb_le _ _)) by lia. cbn [rust_assert bind].
  set (src := sub_slice s off (off + tr)).
  assert (length src = tr) as Hsrc by (subst src; rewrite length_sub_slice; lia).
  rewrite (IH ss false so avail (br + tr)%nat) by (assumption || rewrite ?length_splice; lia).
  cbn [drop]. rewrite drop_0. set (n' := Nat.min (avail - (br + tr)) (length (concat ss))).
  assert (data = drop off s ++ concat ss) as Hd.
  { subst data. cbn [concat]. now rewrite drop_app_le by lia. }
  assert (length data = SECTOR_SIZE - off + length (concat ss))%nat as Hdl
    by (rewrite Hd, length_app, length_drop; lia).
  assert (take n data = src ++ take n' (concat ss)) as Ht.
  { rewrite Hd. unfold src, sub_slice. replace (off + tr - off)%nat with tr by lia.
    destruct (decide (tr = SECTOR_SIZE - off)%nat).
    - rewrite (take_ge (drop off s)) by (rewrite length_drop; lia).
      rewrite take_app_ge by (rewrite length_drop; lia). do 2 f_equal. rewrite length_drop. lia.
    - replace n' with 0%nat by lia. rewrite take_0, app_nil_r, take_app_le by (rewrite length_drop; lia).
      f_equal. lia. }
  rewrite Ht, <- Hsrc, splice_app.
  - do 3 f_equal. lia.
  - rewrite Hsrc, length_take. lia.
Qed.

Lemma concat_sectors_length (d : D) blocks sectors :
  Forall2 (holds d) blocks sectors ->
  length (concat sectors) = (length blocks * SECTOR_SIZE)%nat.
Proof.
  induction 1 as [|b s bs ss Hs _ IH]; cbn [concat length]; [reflexivity|].
  rewrite length_app, IH. destruct (read_sector_ok _ _ _ Hs) as [-> _]. lia.
Qed.

Lemma concat_drop_sectors (d : D) k : forall blocks sectors,
  Forall2 (holds d) blocks sectors ->
  concat (drop k sectors) = drop (k * SECTOR_SIZE) (concat sectors).
Proof.
  induction k as [|k IH]; intros blocks sectors Hf; [reflexivity|].
  destruct Hf as [|b s bs ss Hs Hss]; [now rewrite !drop_nil|]. cbn [drop concat].
  rewrite (IH bs ss Hss). destruct (read_sector_ok _ _ _ Hs) as [Hl _].
  rewrite drop_app_ge by lia. f_equal. lia.
Qed.

(** The contents of a file: its blocks one after the other, up to its size. *)
Lemma read_file_contents (fs : DiskFs D) i file offset buffer sectors :
  read_inode fs i = Done (Ok file) -> df_type file = IFile -> 0 <= df_size file ->
  Forall2 (holds (device fs)) (df_blocks file) sectors ->
  let data := take (Z.to_nat (df_size file)) (concat sectors) in
  let n := Nat.min (length buffer) (length data - offset) in
  read_file fs i offset buffer
  = Done (Ok (n, splice buffer 0 (sub_slice data offset (offset + n)))).
Proof.
  intros Hi Ht Hsz Hf data n. unfold read_file. rewrite Hi. cbn [bind_ok].
  rewrite bool_decide_eq_true_2 by assumption. cbn [negb].
  assert (length data = Nat.min (Z.to_nat (df_size file)) (length (concat sectors))) as Hdl
    by (subst data; apply length_take).
  destruct (Z.leb_spec (df_size file) (Z.of_nat offset)).
  { replace n with 0%nat by lia. rewrite Nat.add_0_r. unfold sub_slice.
    now rewrite Nat.sub_diag, take_0, splice_nil. }
  rewrite (diskfs_read_loop_spec (device fs) (drop (offset / SECTOR_SIZE) (df_blocks file))
    (drop (offset / SECTOR_SIZE) sectors)).
  2:{ now apply Forall2_drop. }
  2:{ apply Nat.mod_upper_bound. unfold SECTOR_SIZE. lia. }
  2:{ lia. }
  assert (drop (offset mod SECTOR_SIZE) (concat (drop (offset / SECTOR_SIZE) sectors))
    = drop offset (concat sectors)) as ->.
  { rewrite (concat_drop_sectors (device fs) _ _ _ Hf), drop_drop. f_equal.
    pose proof (Nat.div_mod_eq offset SECTOR_SIZE). lia. }
  rewrite Nat.sub_0_r, length_drop, Nat.add_0_l.
  replace (Nat.min _ (length (concat sectors) - offset)) with n by lia.
  do 4 f_equal. unfold sub_slice. replace (offset + n - offset)%nat with n by lia.
  subst data. rewrite skipn_firstn_comm, take_take. f_equal. lia.
Qed.

End ReaderLemmas.

Lemma diskfs_read_loop_returns {D} `{BlockDevice D} (d : D) blocks : forall first so avail br buffer,
  (so < SECTOR_SIZE)%nat -> (br <= avail <= length buffer)%nat ->
  returns (read_loop d blocks first so avail br buffer).
Proof.
  induction blocks as [|b bs IH]; intros first so avail br buffer Hso Hbr; cbn [read_loop];
    [apply returns_Done|].
  destruct (Nat.leb_spec avail br); [apply returns_Done|].
  apply returns_bind_ok; [apply get_sector_returns|]. intros s [Hl _]%diskfs_get_sector_ok.
  set (off := if first then so else 0%nat).
  assert (off < SECTOR_SIZE)%nat by (subst off; destruct first; lia).
  rewrite slice_Done by lia. cbn [bind]. rewrite (proj2 (Nat.leb_le _ _)) by lia. cbn [rust_assert bind].
  apply IH; [assumption|]. rewrite length_splice by (rewrite length_sub_slice; lia). lia.
Qed.

Lemma diskfs_read_file_returns {D} `{BlockDevice D} (fs : DiskFs D) i offset buffer :
  returns (read_file fs i offset buffer).
Proof.
  apply returns_bind_ok; [apply read_inode_returns|]. intros file _. case_match; [apply returns_Done|].
  case_match; [apply returns_Done|]. apply diskfs_read_loop_returns; [|lia].
  apply Nat.mod_upper_bound. unfold SECTOR_SIZE. lia.
Qed.

(** ** Properties *)

(** No disk image can crash the kernel through the disk file system: for
    every block device and whatever its sectors hold, mounting, looking up a
    path, listing a directory, reading metadata and reading a file all return
    a value or an error; none of their slice accesses is out of range and the
    directory scan ends. *)
Theorem diskfs_never_panics {D} `{BlockDevice D} (d : D) (fs : DiskFs D) :
  returns (new d)
  /\ (forall i, returns (stat fs i)) /\ (forall i, returns (read_dir fs i))
  /\ (forall path, returns (resolve_path fs path))
  /\ (forall i offset buffer, returns (read_file fs i offset buffer))
  /\ (forall buffer limit f, (limit <= f)%nat ->
        parse_dir f buffer limit 0 = parse_dir limit buffer limit 0).
Proof.
  split; [apply new_returns|]. split; [apply read_inode_returns|]. split; [apply read_dir_returns|].
  split; [apply diskfs_resolve_path_returns|]. split; [apply diskfs_read_file_returns|].
  intros buffer limit f Hf. apply parse_dir_fuel; lia.
Qed.

End DiskFs.
