(* ===== verification/MkDiskImg.v ===== *)
(** * The disk image builder (src/scripts/mkdiskimg.py)

    The Python program that writes the images the disk file system reads.  A
    Python exception ([struct.error], [IndexError], a failed [assert]) is
    [Panicked]: no image is written.  The theorems tie it to DiskFs.v: the
    driver reads back every file and every directory of a built image. *)

From S2P Require Import Prelude Bytes Block Utf8 Abi Path DiskFs.
Import Bytes Block Utf8 DiskFs.

Module MkDiskImg.

Definition INODES_PER_SECTOR : nat := 4.
Definition INODE_FILE : Z := 1.
Definition INODE_DIR : Z := 2.

(** [struct.pack] of an unsigned integer of [n] bytes, little endian. *)
Definition pack (n : nat) (x : Z) : outcome (list Z) :=
  if (0 <=? x) && (x <? 256 ^ Z.of_nat n) then Done (to_le n x) else Panicked.

(** [class Inode]. *)
Record Inode : Type := mkInode {
  inode_num : Z; file_type : Z; size : Z; direct_blocks : list Z }.

(** [Inode.__init__]. *)
Definition make_inode (num ftype sz : Z) (blocks : list Z) : Inode :=
  let blocks := take MAX_DIRECT_BLOCKS blocks in
  mkInode num ftype sz (blocks ++ replicate (MAX_DIRECT_BLOCKS - length blocks) 0).

Fixpoint pack_blocks (blocks : list Z) : outcome (list Z) :=
  match blocks with
  | [] => Done []
  | b :: rest => let! x := pack 4 b in let! y := pack_blocks rest in Done (x ++ y)
  end.

(** [Inode.to_bytes]. *)
Definition inode_to_bytes (i : Inode) : outcome (list Z) :=
  let! a := pack 4 (inode_num i) in
  let! b := pack 4 (file_type i) in
  let! c := pack 8 (size i) in
  let! d := pack_blocks (direct_blocks i) in
  let data := a ++ b ++ c ++ d in
  let! _ := rust_assert (length data =? INODE_SIZE)%nat in
  Done data.

(** [DirEntry.to_bytes]. *)
Definition dirent_to_bytes (e : DiskDirEntry) : outcome (list Z) :=
  let! a := pack 4 (de_inode e) in
  let name := bytes_of_string (de_name e) in
  let! b := pack 1 (Z.of_nat (length name)) in
  let data := a ++ b ++ name in
  let padding := ((4 - length data mod 4) mod 4)%nat in
  Done (data ++ replicate padding 0).

Fixpoint dirents_to_bytes (entries : list DiskDirEntry) : outcome (list Z) :=
  match entries with
  | [] => Done []
  | e :: rest => let! x := dirent_to_bytes e in let! y := dirents_to_bytes rest in Done (x ++ y)
  end.

(** [class DiskImage]; the root inode is an argument of [finalize]. *)
Record DiskImage : Type := mkImage {
  sectors : list (list Z);
  inodes : list Inode;
  next_inode : nat;
  next_data_block : nat
}.

(** [DiskImage(size_sectors)] with [next_data_block] set by [main]. *)
Definition new_image (size_sectors first_data_block : nat) : DiskImage :=
  mkImage (replicate size_sectors (replicate SECTOR_SIZE 0)) [] 0 first_data_block.

Definition blocks_needed (sz : nat) : nat := ((sz + SECTOR_SIZE - 1) / SECTOR_SIZE)%nat.

(** [allocate_data_blocks]. *)
Definition allocate_data_blocks (img : DiskImage) (sz : nat) : list nat * DiskImage :=
  let n := blocks_needed sz in
  (seq (next_data_block img) n,
   mkImage (sectors img) (inodes img) (next_inode img) (next_data_block img + n)).

(** [write_data_blocks]. *)
Fixpoint write_data_blocks (secs : list (list Z)) (blocks : list nat) (data : list Z)
    : outcome (list (list Z)) :=
  match blocks with
  | [] => Done secs
  | block_num :: rest =>
      let chunk := take SECTOR_SIZE data in
      let! old := index secs block_num in
      write_data_blocks (<[block_num := splice old 0 chunk]> secs) rest (drop SECTOR_SIZE data)
  end.

(** The common part of [add_file] and [add_directory]. *)
Definition add_data (img : DiskImage) (ftype : Z) (data : list Z) : outcome (nat * DiskImage) :=
  let inode_num := next_inode img in
  let img := mkImage (sectors img) (inodes img) (S (next_inode img)) (next_data_block img) in
  let (blocks, img) := allocate_data_blocks img (length data) in
  let! secs := write_data_blocks (sectors img) blocks data in
  let inode := make_inode (Z.of_nat inode_num) ftype (Z.of_nat (length data)) (Z.of_nat <$> blocks) in
  Done (inode_num, mkImage secs (inodes img ++ [inode]) (next_inode img) (next_data_block img)).

Definition add_file (img : DiskImage) (content : list Z) : outcome (nat * DiskImage) :=
  add_data img INODE_FILE content.

Definition add_directory (img : DiskImage) (entries : list DiskDirEntry) : outcome (nat * DiskImage) :=
  let! dir_data := dirents_to_bytes entries in add_data img INODE_DIR dir_data.

(** [write_inodes], from the [i]-th inode on. *)
Fixpoint write_inodes (secs : list (list Z)) (i : nat) (l : list Inode) : outcome (list (list Z)) :=
  match l with
  | [] => Done secs
  | inode :: rest =>
      let sector_num := (1 + i / INODES_PER_SECTOR)%nat in
      let sector_offset := (i mod INODES_PER_SECTOR * INODE_SIZE)%nat in
      let! inode_bytes := inode_to_bytes inode in
      let! old := index secs sector_num in
      write_inodes (<[sector_num := splice old sector_offset inode_bytes]> secs) (S i) rest
  end.

(** [write_superblock]. *)
Definition write_superblock (secs : list (list Z)) (root count first : Z) : outcome (list (list Z)) :=
  let! a := pack 4 FS_MAGIC in
  let! b := pack 4 FS_VERSION in
  let! c := pack 4 root in
  let! d := pack 4 count in
  let! e := pack 4 first in
  let superblock := a ++ b ++ c ++ d ++ e in
  index_set secs 0 (superblock ++ replicate (SECTOR_SIZE - length superblock) 0).

(** [finalize]. *)
Definition finalize (img : DiskImage) (root : Z) : outcome (list (list Z)) :=
  let! secs := write_inodes (sectors img) 0 (inodes img) in
  write_superblock secs root (Z.of_nat (length (inodes img))) (Z.of_nat (next_data_block img)).

(** What [main] adds, in order: files and directories. *)
Inductive item : Type :=
  | AFile (content : list Z)
  | ADir (entries : list DiskDirEntry).

Definition add_item (img : DiskImage) (it : item) : outcome DiskImage :=
  let! (_, img) := match it with
                   | AFile content => add_file img content
                   | ADir entries => add_directory img entries
                   end in
  Done img.

Fixpoint add_items (img : DiskImage) (items : list item) : outcome DiskImage :=
  match items with
  | [] => Done img
  | it :: rest => let! img := add_item img it in add_items img rest
  end.

(** [main] for a list of items: the inode table is sized up front. *)
Definition build (size_sectors : nat) (items : list item) (root : Z) : outcome (list (list Z)) :=
  let inode_sectors := ((length items + INODES_PER_SECTOR - 1) / INODES_PER_SECTOR)%nat in
  let! img := add_items (new_image size_sectors (1 + inode_sectors)) items in
  finalize img root.

(** ** Contents of sectors *)

(** The sectors that hold the bytes of [data], 512 each; what follows the data
    in the last one is free. *)
Fixpoint holds_data (ss : list (list Z)) (data : list Z) : Prop :=
  match ss with
  | [] => data = []
  | s :: rest =>
      length s = SECTOR_SIZE /\ data <> []
      /\ take (length (take SECTOR_SIZE data)) s = take SECTOR_SIZE data
      /\ holds_data rest (drop SECTOR_SIZE data)
  end.

(** The bytes and the type an item is stored with. *)
Definition item_bytes (it : item) : outcome (list Z) :=
  match it with AFile content => Done content | ADir entries => dirents_to_bytes entries end.

Definition item_type (it : item) : Z :=
  match it with AFile _ => INODE_FILE | ADir _ => INODE_DIR end.

(** Where an item's data is. *)
Record placed (secs : list (list Z)) (l : list Inode) (first limit k : nat) (it : item) : Prop := mkPlaced {
  pl_placed : exists data start ss,
    item_bytes it = Done data /\ bytes_ok data
    /\ l !! k = Some (make_inode (Z.of_nat k) (item_type it) (Z.of_nat (length data))
                        (Z.of_nat <$> seq start (length ss)))
    /\ holds_data ss data /\ (first <= start)%nat /\ (start + length ss <= limit)%nat
    /\ forall j s, ss !! j = Some s -> secs !! (start + j)%nat = Some s
}.

Record good (first : nat) (img : DiskImage) (items : list item) : Prop := mkGood {
  g_sectors : Forall is_sector (sectors img);
  g_next : next_inode img = length items;
  g_inodes : length (inodes img) = length items;
  g_first : (first <= next_data_block img)%nat;
  g_placed : forall k it, items !! k = Some it ->
    placed (sectors img) (inodes img) first (next_data_block img) k it
}.

(** Contents that are bytes; the entries of a directory have names the format
    can hold. *)
Definition entry_ok (e : DiskDirEntry) : Prop :=
  (1 <= length (bytes_of_string (de_name e)))%nat
  /\ well_formed (length (bytes_of_string (de_name e))) (bytes_of_string (de_name e)) = true.

Definition item_ok (it : item) : Prop :=
  match it with AFile content => bytes_ok content | ADir entries => Forall entry_ok entries end.

(** The 128 bytes of the [i]-th inode in the table. *)
Definition slot (secs : list (list Z)) (i : nat) : option (list Z) :=
  (fun s => sub_slice s (i mod INODES_PER_SECTOR * INODE_SIZE)
              (i mod INODES_PER_SECTOR * INODE_SIZE + INODE_SIZE))
  <$> secs !! (1 + i / INODES_PER_SECTOR)%nat.

(** A file of three bytes, and the directory that names it. *)
Definition demo_items : list item := [AFile [10; 20; 30]; ADir [mkDirEntry 0 "notes"]].

(** ** Lemmas *)

Lemma pack_Done n x b : pack n x = Done b <-> b = to_le n x /\ 0 <= x < 256 ^ Z.of_nat n.
Proof.
  unfold pack. destruct (Z.leb_spec 0 x), (Z.ltb_spec x (256 ^ Z.of_nat n)); cbn [andb];
    split; try discriminate; try (intros [-> ?]; lia); try (intros [= <-]; split; [reflexivity|lia]).
  intros [-> _]. reflexivity.
Qed.

Lemma holds_data_concat ss : forall data, holds_data ss data -> take (length data) (concat ss) = data.
Proof.
  induction ss as [|s ss IH]; intros data; cbn [holds_data concat]; [now intros ->|].
  intros (Hl & _ & Ht & Hr). destruct (decide (length data <= SECTOR_SIZE)%nat).
  - rewrite (take_ge data) in Ht by lia. rewrite take_app_le by lia. exact Ht.
  - rewrite length_take_le, (take_ge s) in Ht by lia. rewrite take_app_ge by lia.
    rewrite <- (take_drop SECTOR_SIZE data) at 2. rewrite <- Ht. f_equal.
    etransitivity; [|exact (IH _ Hr)]. f_equal. rewrite length_drop. lia.
Qed.

Lemma holds_data_take k : forall ss data,
  holds_data ss data -> holds_data (take k ss) (take (k * SECTOR_SIZE) data).
Proof.
  induction k as [|k IH]; intros [|s ss] data; cbn [holds_data take].
  - now intros ->.
  - intros _. apply take_0.
  - intros ->. apply take_nil.
  - intros (Hl & Hne & Ht & Hr). split; [assumption|]. split.
    { destruct data; [congruence|]. discriminate. }
    rewrite take_take. replace (SECTOR_SIZE `min` (S k * SECTOR_SIZE))%nat with SECTOR_SIZE by lia.
    split; [assumption|]. rewrite skipn_firstn_comm.
    replace (S k * SECTOR_SIZE - SECTOR_SIZE)%nat with (k * SECTOR_SIZE)%nat by lia. now apply IH.
Qed.

Lemma holds_data_bound ss : forall data,
  holds_data ss data -> (length data <= length ss * SECTOR_SIZE)%nat.
Proof.
  induction ss as [|s ss IH]; intros data; cbn [holds_data length]; [now intros ->|].
  intros (_ & _ & _ & Hr). specialize (IH _ Hr). rewrite length_drop in IH. lia.
Qed.

Lemma blocks_needed_cons (data : list Z) :
  data <> [] ->
  blocks_needed (length data) = S (blocks_needed (length (drop SECTOR_SIZE data))).
Proof.
  intros H. rewrite length_drop. unfold blocks_needed, SECTOR_SIZE.
  destruct data as [|x data]; [congruence|]. cbn [length]. lia.
Qed.

Lemma splice_sector s chunk :
  is_sector s -> bytes_ok chunk -> (length chunk <= SECTOR_SIZE)%nat ->
  is_sector (splice s 0 chunk) /\ take (length chunk) (splice s 0 chunk) = chunk.
Proof.
  intros [Hl Hb] Hc Hle. split; [split|].
  - rewrite length_splice; lia.
  - unfold splice. apply Forall_app. split; [constructor|]. apply Forall_app. split; [assumption|].
    now apply Forall_drop.
  - unfold splice. rewrite take_0. exact (take_app_length chunk _).
Qed.

Lemma write_data_blocks_spec n : forall data secs start secs',
  Forall is_sector secs -> bytes_ok data -> n = blocks_needed (length data) ->
  write_data_blocks secs (seq start n) data = Done secs' ->
  Forall is_sector secs' /\ length secs' = length secs
  /\ (forall i, (i < start \/ start + n <= i)%nat -> secs' !! i = secs !! i)
  /\ exists ss, length ss = n /\ holds_data ss data
     /\ forall j s, ss !! j = Some s -> secs' !! (start + j)%nat = Some s.
Proof.
  induction n as [|n IH]; intros data secs start secs' Hs Hb Hn Hw; cbn [seq write_data_blocks] in Hw.
  - injection Hw as <-. repeat split; auto. exists []. repeat split; [|intros; discriminate].
    destruct data; [reflexivity|]. rewrite blocks_needed_cons in Hn by discriminate. lia.
  - assert (data <> []) as Hne by (intros ->; discriminate Hn).
    rewrite blocks_needed_cons in Hn by assumption. injection Hn as Hn.
    apply bind_Done in Hw as (old & Ho%index_Done & Hw).
    assert (is_sector old) as Hold by (rewrite Forall_lookup in Hs; eauto).
    assert (bytes_ok (take SECTOR_SIZE data)) as Hck by now apply Forall_take.
    destruct (splice_sector old _ Hold Hck ltac:(rewrite length_take; lia)) as [Hns Htk].
    destruct (IH (drop SECTOR_SIZE data) (<[start := splice old 0 (take SECTOR_SIZE data)]> secs)
      (S start) secs' ltac:(now apply Forall_insert) ltac:(now apply Forall_drop) Hn Hw) as (H1 & H2 & H3 & ss & H4 & H5 & H6).
    rewrite length_insert in H2. split; [assumption|]. split; [assumption|]. split.
    + intros i Hi. rewrite H3 by lia. apply list_lookup_insert_ne. lia.
    + exists (splice old 0 (take SECTOR_SIZE data) :: ss). split; [cbn; lia|]. split.
      * cbn [holds_data]. split; [apply Hns|]. split; [assumption|]. split; [exact Htk|exact H5].
      * intros [|j] s; cbn; intros Hj.
        -- injection Hj as <-. rewrite Nat.add_0_r, H3 by lia.
           apply list_lookup_insert_eq. apply lookup_lt_Some in Ho. assumption.
        -- rewrite Nat.add_succ_r. now apply H6.
Qed.

Lemma dirents_bytes_ok entries : forall b, dirents_to_bytes entries = Done b -> bytes_ok b.
Proof.
  induction entries as [|e es IH]; intros b; cbn [dirents_to_bytes]; [intros [= <-]; constructor|].
  intros (x & Hx & (y & Hy & [= <-])%bind_Done)%bind_Done. apply Forall_app. split; [|exact (IH _ Hy)].
  unfold dirent_to_bytes in Hx. apply bind_Done in Hx as (a & [-> _]%pack_Done & Hx).
  apply bind_Done in Hx as (c & [-> _]%pack_Done & <-%Done_inj).
  repeat (apply Forall_app; split); try apply to_le_bytes_ok; [apply bytes_of_string_ok|].
  apply Forall_replicate. unfold is_u8, U8_MAX. lia.
Qed.

Lemma item_bytes_ok it data : item_ok it -> item_bytes it = Done data -> bytes_ok data.
Proof.
  destruct it; cbn; [now intros ? [= <-]|intros _; apply dirents_bytes_ok].
Qed.

Lemma add_item_data img it img' :
  add_item img it = Done img' ->
  exists data n, item_bytes it = Done data /\ add_data img (item_type it) data = Done (n, img').
Proof.
  unfold add_item. intros ([n i] & H & [= <-])%bind_Done. destruct it as [c|es]; cbn in *.
  - exists c, n. auto.
  - unfold add_directory in H. apply bind_Done in H as (d & Hd & H). exists d, n. auto.
Qed.

Lemma placed_mono secs secs' l x first limit limit' k it :
  placed secs l first limit k it ->
  (forall i, (first <= i < limit)%nat -> secs' !! i = secs !! i) -> (limit <= limit')%nat ->
  placed secs' (l ++ [x]) first limit' k it.
Proof.
  intros [(data & start & ss & H1 & H2 & H3 & H4 & H5 & H6 & H7)] Hs Hl. constructor.
  exists data, start, ss. repeat split; try assumption; [|lia|].
  - now apply lookup_app_l_Some.
  - intros j s Hj. rewrite Hs; [now apply H7|]. apply lookup_lt_Some in Hj. lia.
Qed.

Lemma add_item_good first img items it img' :
  (1 <= first)%nat -> good first img items -> item_ok it -> add_item img it = Done img' ->
  good first img' (items ++ [it]).
Proof.
  intros Hf [Gs Gn Gi Gf Gp] Hok Ha. apply add_item_data in Ha as (data & n & Hd & Ha).
  pose proof (item_bytes_ok it data Hok Hd) as Hb. unfold add_data, allocate_data_blocks in Ha.
  apply bind_Done in Ha as (secs & Hw & [= Hn Himg]).
  destruct (write_data_blocks_spec _ _ _ _ _ Gs Hb eq_refl Hw) as (H1 & H2 & H3 & ss & H4 & H5 & H6).
  subst img'. constructor; cbn [sectors inodes next_inode next_data_block].
  - assumption.
  - rewrite length_app, Gn. cbn. lia.
  - rewrite !length_app, Gi. reflexivity.
  - lia.
  - intros k it' Hk. apply lookup_app_Some in Hk as [Hk|[Hle Hk]].
    + eapply placed_mono; [now apply Gp| |lia]. intros i Hi. apply H3. cbn. lia.
    + destruct (k - length items)%nat eqn:E; [|discriminate]. injection Hk as <-.
      assert (k = length items) as -> by lia. constructor. exists data, (next_data_block img), ss.
      rewrite H4. repeat split; try assumption; try lia.
      rewrite lookup_app_r, Gi, Nat.sub_diag by lia. cbn. now rewrite Gn.
Qed.

Lemma add_items_good first rest : forall img items img',
  (1 <= first)%nat -> good first img items -> Forall item_ok rest ->
  add_items img rest = Done img' -> good first img' (items ++ rest).
Proof.
  induction rest as [|it rest IH]; intros img items img' Hf Hg Hok Ha; cbn [add_items] in Ha.
  - injection Ha as <-. now rewrite app_nil_r.
  - apply bind_Done in Ha as (img1 & H1 & H2). apply Forall_cons_1 in Hok as [Hit Hok].
    change (it :: rest) with ([it] ++ rest). rewrite (assoc_L (++)). eapply IH; eauto.
    now apply (add_item_good first img).
Qed.


(** ** The inode table *)

Lemma inode_to_bytes_Done i b :
  inode_to_bytes i = Done b ->
  exists d, pack_blocks (direct_blocks i) = Done d
  /\ b = to_le 4 (inode_num i) ++ to_le 4 (file_type i) ++ to_le 8 (size i) ++ d
  /\ length b = INODE_SIZE
  /\ 0 <= inode_num i < 256 ^ 4 /\ 0 <= file_type i < 256 ^ 4 /\ 0 <= size i < 256 ^ 8.
Proof.
  unfold inode_to_bytes. intros (a & [-> H1]%pack_Done & H)%bind_Done.
  apply bind_Done in H as (c & [-> H2]%pack_Done & H).
  apply bind_Done in H as (e & [-> H3]%pack_Done & H).
  apply bind_Done in H as (d & Hd & H).
  apply bind_Done in H as (u & Hu%rust_assert_Done & <-%Done_inj).
  exists d. split; [assumption|]. split; [reflexivity|]. split; [now apply Nat.eqb_eq in Hu|]. auto.
Qed.

Lemma pack_blocks_spec blocks : forall d, pack_blocks blocks = Done d ->
  length d = (length blocks * 4)%nat /\ bytes_ok d
  /\ forall j x, blocks !! j = Some x -> le_at d (j * 4) 4 = Done x.
Proof.
  induction blocks as [|b bs IH]; intros d; cbn [pack_blocks].
  - intros <-%Done_inj. repeat split; [constructor|]. intros; discriminate.
  - intros (x & [-> Hx]%pack_Done & (y & Hy & <-%Done_inj)%bind_Done)%bind_Done.
    destruct (IH y Hy) as (Hl & Hb & Hat). split; [rewrite length_app, length_to_le, Hl; cbn; lia|].
    split; [apply Forall_app; split; [apply to_le_bytes_ok|assumption]|].
    intros [|j] z Hz; cbn in Hz.
    + injection Hz as <-. now apply (le_at_offset []).
    + specialize (Hat j z Hz). assert (j < length bs)%nat by now apply lookup_lt_Some in Hz.
      rewrite <- Hat. change (S j * 4)%nat with (4 + j * 4)%nat.
      apply (le_at_sub _ 4 (length y)); rewrite ?length_app, ?length_to_le; try lia.
      pose proof (sub_slice_app_r (to_le 4 b) y 4 (length_to_le _ _)) as E.
      rewrite length_app, length_to_le in E. exact E.
Qed.

Lemma inode_to_bytes_ok i b : inode_to_bytes i = Done b -> bytes_ok b.
Proof.
  intros (d & (_ & Hd & _)%pack_blocks_spec & -> & _)%inode_to_bytes_Done.
  repeat (apply Forall_app; split); try apply to_le_bytes_ok. assumption.
Qed.

Lemma slot_insert secs i old bytes q :
  Forall is_sector secs -> secs !! (1 + i / INODES_PER_SECTOR)%nat = Some old ->
  length bytes = INODE_SIZE ->
  slot (<[(1 + i / INODES_PER_SECTOR)%nat
          := splice old (i mod INODES_PER_SECTOR * INODE_SIZE) bytes]> secs) q
  = if decide (q = i) then Some bytes else slot secs q.
Proof.
  intros Hs Ho Hl. assert (length old = SECTOR_SIZE) as Hlo
    by (rewrite Forall_lookup in Hs; now apply Hs in Ho as [? _]).
  unfold INODES_PER_SECTOR, INODE_SIZE, SECTOR_SIZE in *. unfold slot, INODES_PER_SECTOR, INODE_SIZE.
  destruct (decide (q = i)) as [->|Hq].
  - rewrite list_lookup_insert_eq by now apply lookup_lt_Some in Ho. cbn [fmap option_fmap option_map].
    f_equal. pose proof (sub_slice_splice_same old bytes (i mod 4 * 128)) as E.
    rewrite Hl in E. apply E. lia.
  - destruct (decide (q / 4 = i / 4)%nat) as [E|].
    + rewrite E, list_lookup_insert_eq by now apply lookup_lt_Some in Ho.
      rewrite Ho. cbn [fmap option_fmap option_map]. f_equal. apply sub_slice_splice_other; lia.
    + now rewrite list_lookup_insert_ne by lia.
Qed.

Lemma splice_is_sector s off bytes :
  is_sector s -> bytes_ok bytes -> (off + length bytes <= SECTOR_SIZE)%nat ->
  is_sector (splice s off bytes).
Proof.
  intros [Hl Hb] Hc Hle. split; [rewrite length_splice; lia|].
  unfold splice. apply Forall_app. split; [now apply Forall_take|].
  apply Forall_app. split; [assumption|now apply Forall_drop].
Qed.

Lemma write_inodes_spec l : forall secs i secs',
  Forall is_sector secs -> write_inodes secs i l = Done secs' ->
  Forall is_sector secs' /\ length secs' = length secs
  /\ (forall m, (m < 1 + i / 4 \/ (i + length l + 3) / 4 < m)%nat -> secs' !! m = secs !! m)
  /\ (forall q, (q < i)%nat -> slot secs' q = slot secs q)
  /\ (forall k inode, l !! k = Some inode ->
        exists b, inode_to_bytes inode = Done b /\ slot secs' (i + k) = Some b).
Proof.
  induction l as [|inode l IH]; intros secs i secs' Hs Hw; cbn [write_inodes] in Hw.
  - injection Hw as <-. repeat split; auto. intros; discriminate.
  - apply bind_Done in Hw as (b & Hb & Hw). apply bind_Done in Hw as (old & Ho%index_Done & Hw).
    pose proof (inode_to_bytes_ok _ _ Hb) as Hbo.
    destruct (inode_to_bytes_Done _ _ Hb) as (_ & _ & _ & Hbl & _).
    set (secs1 := <[(1 + i / INODES_PER_SECTOR)%nat
      := splice old (i mod INODES_PER_SECTOR * INODE_SIZE) b]> secs) in *.
    assert (Forall is_sector secs1) as Hs1.
    { apply Forall_insert; [assumption|]. apply splice_is_sector; [|assumption|].
      - rewrite Forall_lookup in Hs; eauto.
      - rewrite Hbl. unfold INODES_PER_SECTOR, INODE_SIZE, SECTOR_SIZE. lia. }
    destruct (IH secs1 (S i) secs' Hs1 Hw) as (H1 & H2 & H3 & H4 & H5).
    split; [assumption|]. split; [subst secs1; now rewrite length_insert in H2|]. split; [|split].
    + intros m Hm. cbn [length] in Hm. rewrite H3 by lia. apply list_lookup_insert_ne.
      unfold INODES_PER_SECTOR. lia.
    + intros q Hq. rewrite H4 by lia. subst secs1. rewrite slot_insert by assumption.
      rewrite decide_False by lia. reflexivity.
    + intros [|k] x Hx; cbn in Hx.
      * injection Hx as <-. exists b. split; [assumption|]. rewrite Nat.add_0_r, H4 by lia.
        subst secs1. rewrite slot_insert by assumption. now rewrite decide_True.
      * rewrite Nat.add_succ_r. exact (H5 k x Hx).
Qed.

(** ** Reading the table *)

Lemma ram_read_lookup secs m s :
  secs !! m = Some s -> is_sector s -> ram_read secs (Z.of_nat m) = Ok s.
Proof.
  intros Hm [Hl Hb]. unfold ram_read. rewrite (proj2 (Z.ltb_ge _ _)) by lia. rewrite Nat2Z.id, Hm, Hl.
  rewrite Nat.eqb_refl. cbn [andb]. replace (forallb _ s) with true; [reflexivity|].
  symmetry. apply forallb_forall. intros x Hx. rewrite <- list_elem_of_In in Hx.
  unfold bytes_ok in Hb. rewrite Forall_forall in Hb. specialize (Hb x Hx). unfold is_u8 in Hb. lia.
Qed.

Lemma read_blocks_packed s base blocks : forall i,
  (forall j x, blocks !! j = Some x -> le_at s (base + (i + j) * 4) 4 = Done x) ->
  read_blocks s base i (length blocks) = Done (filter (fun x => x <> 0) blocks).
Proof.
  induction blocks as [|b bs IH]; intros i Hat; cbn [length read_blocks]; [reflexivity|].
  pose proof (Hat 0%nat b eq_refl) as H0. rewrite Nat.add_0_r in H0. rewrite H0. cbn [bind].
  rewrite IH; [|intros j x Hx; rewrite <- (Hat (S j) x Hx); f_equal; lia]. cbn [bind].
  rewrite filter_cons. destruct (Z.eqb_spec b 0) as [->|Hb]; cbn [negb].
  - now rewrite decide_False by tauto.
  - now rewrite decide_True.
Qed.

Lemma read_inode_built (secs : RamDisk) root total first k inode t b :
  Forall is_sector secs -> slot secs k = Some b -> inode_to_bytes inode = Done b ->
  Z.of_nat k < total -> InodeType_from_u32 (file_type inode) = Some t ->
  length (direct_blocks inode) = MAX_DIRECT_BLOCKS ->
  read_inode (mkDiskFs secs root total first) (Z.of_nat k)
  = Done (Ok (mkDiskFile (inode_num inode) t (size inode)
                (filter (fun x => x <> 0) (direct_blocks inode)))).
Proof.
  intros Hs Hk Hb Ht Hty Hd. unfold read_inode. cbn [total_inodes device].
  rewrite (proj2 (Z.leb_gt _ _)) by lia. change (SECTOR_SIZE / INODE_SIZE)%nat with 4%nat.
  unfold slot in Hk. destruct (secs !! (1 + k / INODES_PER_SECTOR)%nat) as [s|] eqn:Hsec; [|discriminate].
  injection Hk as Hk. assert (is_sector s) as Hss by (rewrite Forall_lookup in Hs; eauto).
  replace (1 + Z.of_nat k / Z.of_nat 4) with (Z.of_nat (1 + k / INODES_PER_SECTOR))
    by (unfold INODES_PER_SECTOR; lia).
  replace (Z.to_nat (Z.of_nat k mod Z.of_nat 4)) with (k mod INODES_PER_SECTOR)%nat
    by (unfold INODES_PER_SECTOR; lia).
  unfold get_sector. cbn [read_sector RamDisk_BlockDevice]. rewrite (ram_read_lookup _ _ _ Hsec Hss).
  cbn [map_err bind_ok]. set (base := (k mod INODES_PER_SECTOR * INODE_SIZE)%nat) in *.
  assert (base + INODE_SIZE <= length s)%nat as Hbase.
  { destruct Hss as [-> _]. subst base. unfold INODES_PER_SECTOR, INODE_SIZE, SECTOR_SIZE. lia. }
  pose proof (fun o m => le_at_sub s base INODE_SIZE o m b Hk Hbase) as Hat.
  destruct (inode_to_bytes_Done _ _ Hb) as (d & Hpb & Hbeq & Hbl & B1 & B2 & B3).
  destruct (pack_blocks_spec _ _ Hpb) as (Hdl & _ & Hdat).
  replace (le_at s base 4) with (le_at s (base + 0) 4) by now rewrite Nat.add_0_r.
  rewrite !Hat by (unfold INODE_SIZE; lia).
  assert (le_at b 0 4 = Done (inode_num inode)) as ->
    by (rewrite Hbeq; now apply (le_at_offset [])).
  assert (le_at b 4 4 = Done (file_type inode)) as ->
    by (rewrite Hbeq; now apply le_at_offset).
  assert (le_at b 8 8 = Done (size inode)) as ->
    by (rewrite Hbeq, (assoc_L (++)); now apply le_at_offset).
  cbn [bind]. rewrite Hty, <- Hd, read_blocks_packed; [reflexivity|].
  intros j x Hx. assert (j < length (direct_blocks inode))%nat by now apply lookup_lt_Some in Hx.
  replace (base + 16 + (0 + j) * 4)%nat with (base + (16 + j * 4))%nat by lia.
  rewrite Hat by (unfold INODE_SIZE; rewrite Hd in *; unfold MAX_DIRECT_BLOCKS in *; lia).
  rewrite <- (Hdat j x Hx), Hbeq. apply (le_at_sub _ 16 (length d)); [| |lia].
  - pose proof (sub_slice_app_r (to_le 4 (inode_num inode) ++ to_le 4 (file_type inode)
      ++ to_le 8 (size inode)) d 16) as E.
    rewrite <- !(assoc_L (++)) in E. rewrite !length_app, !length_to_le in E.
    exact (E eq_refl).
  - rewrite !length_app, !length_to_le. lia.
Qed.


(** ** Directories *)

Lemma dirent_to_bytes_Done e b :
  dirent_to_bytes e = Done b -> entry_ok e ->
  let name := bytes_of_string (de_name e) in
  exists pad, b = to_le 4 (de_inode e) ++ [Z.of_nat (length name)] ++ name ++ pad
  /\ (length b mod 4 = 0)%nat /\ (length b = 5 + length name + length pad)%nat /\ (length pad < 4)%nat
  /\ 0 <= de_inode e < 256 ^ 4 /\ (1 <= length name <= 255)%nat.
Proof.
  intros H [Hlen _] name. unfold dirent_to_bytes in H. fold name in H, Hlen.
  apply bind_Done in H as (a & [-> Ha]%pack_Done & H).
  apply bind_Done in H as (c & [-> Hc]%pack_Done & <-%Done_inj).
  change (256 ^ Z.of_nat 1) with 256 in Hc.
  assert (to_le 1 (Z.of_nat (length name)) = [Z.of_nat (length name)]) as ->.
  { cbn [to_le]. now rewrite Z.mod_small by lia. }
  set (pad := replicate _ 0). exists pad. split; [now rewrite <- !(assoc_L (++))|].
  assert (length pad = (4 - (5 + length name) mod 4) mod 4)%nat as Hp.
  { subst pad. rewrite length_replicate, !length_app, length_to_le. reflexivity. }
  rewrite !length_app, length_to_le. cbn [length]. repeat split; lia.
Qed.

Lemma parse_dir_entries entries : forall fuel pre enc post,
  dirents_to_bytes entries = Done enc -> Forall entry_ok entries ->
  (length pre mod 4 = 0)%nat -> (length entries <= fuel)%nat ->
  parse_dir fuel (pre ++ enc ++ post) (length pre + length enc) (length pre) = Done entries.
Proof.
  induction entries as [|e es IH]; intros fuel pre enc post Henc Hok Hpre Hfuel; cbn [dirents_to_bytes] in Henc.
  - injection Henc as <-. destruct fuel; cbn [parse_dir]; [reflexivity|].
    rewrite (proj2 (Nat.ltb_ge _ _)) by (cbn; lia). reflexivity.
  - apply bind_Done in Henc as (b & Hb & (y & Hy & <-%Done_inj)%bind_Done).
    apply Forall_cons_1 in Hok as [He Hok]. destruct fuel as [|fuel]; [cbn in Hfuel; lia|].
    destruct (dirent_to_bytes_Done e b Hb He) as (pad & Hbeq & Hmod & Hbl & Hpad & Hino & Hname).
    set (name := bytes_of_string (de_name e)) in *. cbn [parse_dir].
    set (buffer := pre ++ (b ++ y) ++ post). rewrite length_app.
    rewrite (proj2 (Nat.ltb_lt _ _)) by lia. cbn [negb]. unfold DIRENT_HEADER_SIZE.
    rewrite (proj2 (Nat.ltb_ge _ _)) by lia.
    assert (buffer = pre ++ to_le 4 (de_inode e)
      ++ ([Z.of_nat (length name)] ++ name ++ pad ++ y ++ post)) as E1
      by (subst buffer; rewrite Hbeq, <- !(assoc_L (++)); reflexivity).
    rewrite E1 at 1. rewrite le_at_middle by assumption. cbn [bind].
    assert (index buffer (length pre + 4) = Done (Z.of_nat (length name))) as ->.
    { apply index_Done. rewrite E1, (assoc_L (++)). apply list_lookup_middle.
      rewrite length_app, length_to_le. reflexivity. }
    cbn [bind]. rewrite Nat2Z.id. replace (_ || _ || _) with false by (unfold MAX_FILENAME_LEN; lia).
    assert (slice buffer (length pre + 5) (length pre + 5 + length name) = Done name) as ->.
    { rewrite slice_Done by (rewrite E1, !length_app, length_to_le; cbn; lia). f_equal.
      pose proof (sub_slice_middle (pre ++ to_le 4 (de_inode e) ++ [Z.of_nat (length name)]) name
        (pad ++ y ++ post)) as E. rewrite !length_app, length_to_le in E.
      rewrite <- E at 2. f_equal. rewrite E1, <- !(assoc_L (++)). reflexivity. }
    cbn [bind]. replace ((length pre + 5 + length name + 3) / 4 * 4)%nat
      with (length (pre ++ b)) by (rewrite length_app; lia).
    assert (buffer = (pre ++ b) ++ y ++ post) as -> by (subst buffer; now rewrite <- !(assoc_L (++))).
    replace (length pre + (length b + length y))%nat with (length (pre ++ b) + length y)%nat
      by (rewrite length_app; lia).
    rewrite IH; [|assumption|assumption|rewrite length_app; lia|cbn in Hfuel; lia].
    cbn [bind]. destruct He as [_ Hwf]. unfold name. rewrite from_utf8_lossy_id by assumption. now destruct e.
Qed.

Lemma dirents_length entries : forall b,
  dirents_to_bytes entries = Done b -> Forall entry_ok entries -> (length entries <= length b)%nat.
Proof.
  induction entries as [|e es IH]; intros b Hb Hok; cbn [dirents_to_bytes length] in *; [lia|].
  apply Forall_cons_1 in Hok as [He Hok].
  apply bind_Done in Hb as (x & Hx & (y & Hy & <-%Done_inj)%bind_Done).
  destruct (dirent_to_bytes_Done e x Hx He) as (pad & _ & _ & Hl & _).
  rewrite length_app. specialize (IH y Hy Hok). lia.
Qed.

(** ** Built images *)

Lemma filter_all {A} (P : A -> Prop) `{!forall x, Decision (P x)} (l : list A) :
  Forall P l -> filter P l = l.
Proof. induction 1 as [|x l Hx _ IH]; [reflexivity|]. rewrite filter_cons, decide_True, IH; auto. Qed.

(** The blocks of an inode are the ones it was made with, up to the limit. *)
Lemma make_inode_blocks num t sz start n :
  (1 <= start)%nat ->
  filter (fun x => x <> 0) (direct_blocks (make_inode num t sz (Z.of_nat <$> seq start n)))
  = Z.of_nat <$> seq start (Nat.min MAX_DIRECT_BLOCKS n)
  /\ length (direct_blocks (make_inode num t sz (Z.of_nat <$> seq start n))) = MAX_DIRECT_BLOCKS.
Proof.
  intros Hs. cbn [make_inode direct_blocks]. split.
  - rewrite filter_app, <- fmap_take, take_seq, filter_all.
    + set (k := (_ - _)%nat). assert (filter (fun x => x <> 0) (replicate k 0) = []) as ->.
      { induction k; [reflexivity|]. cbn [replicate]. now rewrite filter_cons, decide_False by tauto. }
      now rewrite app_nil_r.
    + apply Forall_fmap, Forall_seq. intros j Hj. cbn. lia.
  - rewrite length_app, length_replicate, length_take, length_fmap, length_seq. lia.
Qed.

Lemma new_image_good n first : good first (new_image n first) [].
Proof.
  constructor; try reflexivity; [|intros; discriminate].
  apply Forall_replicate. split; [apply length_replicate|]. apply Forall_replicate.
  unfold is_u8, U8_MAX. lia.
Qed.

(** The driver accepts the superblock the script writes. *)
Lemma write_superblock_read secs root count first disk :
  Forall is_sector secs -> write_superblock secs root count first = Done disk ->
  Forall is_sector disk /\ (forall m, (1 <= m)%nat -> disk !! m = secs !! m)
  /\ new disk = Done (Ok (mkDiskFs disk root count first)).
Proof.
  intros Hs Hsb. unfold write_superblock in Hsb.
  apply bind_Done in Hsb as (a & [-> Ha]%pack_Done & Hsb).
  apply bind_Done in Hsb as (b & [-> Hb]%pack_Done & Hsb).
  apply bind_Done in Hsb as (c & [-> Hc]%pack_Done & Hsb).
  apply bind_Done in Hsb as (d & [-> Hd]%pack_Done & Hsb).
  apply bind_Done in Hsb as (e & [-> He]%pack_Done & Hsb).
  unfold index_set in Hsb. destruct (Nat.ltb_spec 0 (length secs)) as [H0|]; [|discriminate].
  apply Done_inj in Hsb. rewrite <- !(assoc_L (++)) in Hsb. set (pad := replicate _ 0) in Hsb.
  set (sb := _ ++ _) in Hsb. assert (is_sector sb) as Hsec.
  { split.
    - subst sb pad. rewrite !length_app, length_replicate, !length_to_le. reflexivity.
    - repeat (apply Forall_app; split); try apply to_le_bytes_ok. apply Forall_replicate.
      unfold is_u8, U8_MAX. lia. }
  split; [rewrite <- Hsb; now apply Forall_insert|]. split.
  { intros m Hm. rewrite <- Hsb. apply list_lookup_insert_ne. lia. }
  assert (disk !! 0%nat = Some sb) as Hd0 by (rewrite <- Hsb; now apply list_lookup_insert_eq).
  unfold new, get_sector. cbn [read_sector RamDisk_BlockDevice].
  rewrite (ram_read_lookup disk 0 sb Hd0 Hsec : ram_read disk 0 = Ok sb). cbn [map_err bind_ok].
  assert (le_at sb 0 4 = Done FS_MAGIC) as -> by now apply (le_at_offset []).
  assert (le_at sb 4 4 = Done FS_VERSION) as -> by now apply le_at_offset.
  assert (le_at sb 8 4 = Done root) as -> by (subst sb; rewrite (assoc_L (++)); now apply le_at_offset).
  assert (le_at sb 12 4 = Done count) as ->
    by (subst sb; do 2 rewrite (assoc_L (++)); now apply le_at_offset).
  assert (le_at sb 16 4 = Done first) as ->
    by (subst sb; do 3 rewrite (assoc_L (++)); now apply le_at_offset).
  cbn [bind]. now rewrite !Z.eqb_refl.
Qed.

Lemma build_Done n items root disk :
  build n items root = Done disk -> Forall item_ok items ->
  exists first nd secs l,
    ((length items + 3) / 4 < first)%nat
    /\ (forall m, (first <= m)%nat -> disk !! m = secs !! m)
    /\ (forall k it, items !! k = Some it -> placed secs l first nd k it)
    /\ (forall k inode, l !! k = Some inode ->
          exists b, inode_to_bytes inode = Done b /\ slot disk k = Some b)
    /\ Forall is_sector disk
    /\ new disk = Done (Ok (mkDiskFs disk root (Z.of_nat (length items)) (Z.of_nat nd))).
Proof.
  intros Hb Hok. unfold build in Hb.
  set (first := (1 + (length items + INODES_PER_SECTOR - 1) / INODES_PER_SECTOR)%nat) in *.
  apply bind_Done in Hb as (img & Hadd & Hfin).
  assert (good first img items) as [Gs Gn Gi Gf Gp].
  { apply (add_items_good first items (new_image n first) [] img);
      [lia|apply new_image_good|assumption|assumption]. }
  unfold finalize in Hfin. apply bind_Done in Hfin as (secs & Hw & Hsb).
  destruct (write_inodes_spec _ _ _ _ Gs Hw) as (W1 & W2 & W3 & _ & W5).
  destruct (write_superblock_read _ _ _ _ _ W1 Hsb) as (S1 & S2 & S3).
  exists first, (next_data_block img), (sectors img), (inodes img).
  split; [unfold first, INODES_PER_SECTOR; lia|]. split.
  { intros m Hm. rewrite S2 by (unfold first in Hm; lia). apply W3.
    rewrite Gi. unfold first, INODES_PER_SECTOR in Hm. lia. }
  split; [exact Gp|]. split; [|now rewrite <- Gi].
  intros k inode Hin. destruct (W5 k inode Hin) as (b & Hb & Hslot). exists b. split; [assumption|].
  rewrite <- Hslot. unfold slot. now rewrite S2 by lia.
Qed.

Lemma read_all_holds (secs : RamDisk) blocks ss :
  Forall2 (holds secs) blocks ss -> read_all secs blocks = Done (Ok (concat ss)).
Proof.
  induction 1 as [|b s bs ss Hs _ IH]; cbn [read_all concat]; [reflexivity|].
  rewrite (proj2 (get_sector_Ok secs b s) Hs). cbn [bind_ok]. now rewrite IH.
Qed.

(** What the driver finds for an item: the inode, and sectors with its data. *)
Lemma built_item n items root disk :
  build n items root = Done disk -> Forall item_ok items ->
  exists fs, new disk = Done (Ok fs) /\ root_inode fs = root /\ device fs = disk
  /\ forall k it, items !! k = Some it -> exists data blocks ss t,
       item_bytes it = Done data /\ InodeType_from_u32 (item_type it) = Some t
       /\ read_inode fs (Z.of_nat k)
          = Done (Ok (mkDiskFile (Z.of_nat k) t (Z.of_nat (length data)) blocks))
       /\ Forall2 (holds disk) blocks ss
       /\ holds_data ss (take (MAX_DIRECT_BLOCKS * SECTOR_SIZE) data)
       /\ (length (concat ss) <= MAX_DIRECT_BLOCKS * SECTOR_SIZE)%nat.
Proof.
  intros Hb Hok. destruct (build_Done _ _ _ _ Hb Hok) as (first & nd & secs & l & Hf & Hd & Hp & Hsl & Hs & Hnew).
  eexists. split; [exact Hnew|]. split; [reflexivity|]. split; [reflexivity|]. intros k it Hk.
  destruct (Hp k it Hk) as [(data & start & ss & H1 & H2 & H3 & H4 & H5 & H6 & H7)].
  destruct (Hsl k _ H3) as (b & Hbytes & Hslot).
  assert (exists t, InodeType_from_u32 (item_type it) = Some t) as [t Ht] by (destruct it; cbn; eauto).
  destruct (make_inode_blocks (Z.of_nat k) (item_type it) (Z.of_nat (length data)) start (length ss)
    ltac:(lia)) as [Hbl Hlen].
  assert (Z.of_nat k < Z.of_nat (length items)) as Hkl by (apply lookup_lt_Some in Hk; lia).
  pose proof (read_inode_built disk root _ (Z.of_nat nd) k _ t b Hs Hslot Hbytes Hkl Ht Hlen) as Hri.
  rewrite Hbl in Hri. cbn [inode_num make_inode size] in Hri.
  exists data, (Z.of_nat <$> seq start (Nat.min MAX_DIRECT_BLOCKS (length ss))), (take MAX_DIRECT_BLOCKS ss), t.
  split; [assumption|]. split; [assumption|]. split; [exact Hri|].
  assert (Forall2 (holds disk) (Z.of_nat <$> seq start (Nat.min MAX_DIRECT_BLOCKS (length ss)))
            (take MAX_DIRECT_BLOCKS ss)) as Hh.
  { apply Forall2_same_length_lookup_2; [rewrite length_fmap, length_seq, length_take; reflexivity|].
    intros j x y Hx Hy. apply list_lookup_fmap_Some in Hx as (m & -> & Hm).
    apply lookup_seq in Hm as [-> Hm]. rewrite lookup_take_lt in Hy by lia.
    assert (disk !! (start + j)%nat = Some y) as Hj by (rewrite Hd by lia; now apply H7).
    apply ram_read_lookup; [assumption|]. rewrite Forall_lookup in Hs. eauto. }
  split; [exact Hh|]. split; [now apply holds_data_take|].
  rewrite (concat_sectors_length disk _ _ Hh), length_fmap, length_seq. nia.
Qed.

(** ** Properties *)

(** C20: every image the builder script writes is read back by the driver. The
    superblock is accepted and names the root the script chose; every read of
    a file, at any offset and into a buffer of any size, returns the bytes of
    the file's content up to the [MAX_DIRECT_BLOCKS] = 28 blocks that an inode
    of 128 bytes names, for the driver and the script alike (the module comment
    of diskfs.rs says 12, and its unit test expects an inode of 64 bytes); and
    every directory that fits these blocks lists exactly the entries it was
    made with, in order. *)
Theorem built_image_is_readable n items root disk :
  build n items root = Done disk -> Forall item_ok items ->
  exists fs, new disk = Done (Ok fs) /\ root_inode fs = root
  /\ forall k it, items !! k = Some it ->
     match it with
     | AFile content => forall offset buffer,
         let data := take (MAX_DIRECT_BLOCKS * SECTOR_SIZE) content in
         let count := Nat.min (length buffer) (length data - offset) in
         read_file fs (Z.of_nat k) offset buffer
         = Done (Ok (count, splice buffer 0 (sub_slice data offset (offset + count))))
     | ADir entries => forall bytes,
         dirents_to_bytes entries = Done bytes ->
         (length bytes <= MAX_DIRECT_BLOCKS * SECTOR_SIZE)%nat ->
         read_dir fs (Z.of_nat k) = Done (Ok entries)
     end.
Proof.
  intros Hb Hok. destruct (built_item _ _ _ _ Hb Hok) as (fs & Hnew & Hroot & Hdev & Hit).
  exists fs. split; [assumption|]. split; [assumption|]. intros k it Hk.
  destruct (Hit k it Hk) as (data & blocks & ss & t & H1 & H2 & H3 & H4 & H5 & H6).
  pose proof (holds_data_concat _ _ H5) as Hc. rewrite length_take in Hc. rewrite <- Hdev in H4.
  destruct it as [content|entries]; cbn in H1, H2; injection H2 as <-.
  - injection H1 as ->. intros offset buffer.
    pose proof (read_file_contents fs (Z.of_nat k) _ offset buffer ss H3 eq_refl ltac:(cbn; lia) H4) as Hr.
    cbn [df_size] in Hr. rewrite Nat2Z.id in Hr.
    assert (take (length data) (concat ss) = take (MAX_DIRECT_BLOCKS * SECTOR_SIZE) data) as E.
    { rewrite <- Hc. destruct (decide (length data <= MAX_DIRECT_BLOCKS * SECTOR_SIZE)%nat).
      - f_equal. lia.
      - rewrite !take_ge by lia. reflexivity. }
    rewrite E in Hr. exact Hr.
  - intros bytes Hbytes Hle. rewrite Hbytes in H1. injection H1 as ->.
    rewrite Nat.min_r in Hc by assumption. rewrite (take_ge data) in Hc by assumption.
    unfold read_dir. rewrite H3. cbn [bind_ok df_type df_blocks df_size].
    rewrite bool_decide_eq_true_2 by reflexivity. cbn [negb]. rewrite Hdev in *.
    rewrite (read_all_holds _ _ _ H4). cbn [bind_ok].
    assert (length data <= length (concat ss))%nat as Hlen by (rewrite <- Hc, length_take; lia).
    rewrite Z.min_l, Nat2Z.id by lia.
    assert (Forall entry_ok entries) as Hen by (rewrite Forall_lookup in Hok; exact (Hok k _ Hk)).
    pose proof (parse_dir_entries entries (length (concat ss)) [] data (drop (length data) (concat ss))
      Hbytes Hen eq_refl) as Hp.
    rewrite <- Hc in Hp at 1. cbn [app length] in Hp. rewrite take_drop, Nat.add_0_l in Hp. rewrite Hp; [reflexivity|].
    pose proof (dirents_length _ _ Hbytes Hen). lia.
Qed.

Lemma built_image_is_readable_witness :
  exists disk fs, build 5 demo_items 1 = Done disk /\ new disk = Done (Ok fs)
    /\ read_dir fs 1 = Done (Ok [mkDirEntry 0 "notes"])
    /\ read_file fs 0 1 [0; 0; 0; 0] = Done (Ok (2%nat, [20; 30; 0; 0])).
Proof.
  destruct (build 5 demo_items 1) as [disk|] eqn:E; [|vm_compute in E; discriminate].
  destruct (built_image_is_readable 5 demo_items 1 disk E) as (fs & Hn & _ & H).
  - repeat constructor; try (unfold is_u8, U8_MAX; lia); vm_compute; lia.
  - exists disk, fs. split; [reflexivity|]. split; [exact Hn|]. split.
    + eapply (H 1%nat (ADir _)); [reflexivity|vm_compute; reflexivity|cbn; lia].
    + exact (H 0%nat (AFile _) eq_refl 1%nat [0; 0; 0; 0]).
Defined.


End MkDiskImg.
