(* ===== verification/HomeFs.v ===== *)
(** * The writable disk file system (src/kernel/src/homefs.rs)

    The file system for [/home], over any block device: a superblock, two
    bitmaps, a table of 256 inodes of eight direct blocks, and directories of
    two entries per block.  Module [HomeFs] has all operations; the format is
    described in FS_ON_DISK.md.  The superblock and the bitmaps are kept in
    memory and written through. *)

From S2P Require Import Prelude Bytes Block Utf8.
Import Bytes Block Utf8.

Module HomeFs.

Definition FS_MAGIC : Z := 0x50414E44.
Definition FS_VERSION : Z := 2.
Definition BLOCK_SIZE : nat := 512.
Definition MAX_DIRECT_BLOCKS : nat := 8.
Definition INODE_SIZE : nat := 64.
Definition INODES_PER_SECTOR : Z := 8.
Definition DIR_ENTRY_SIZE : nat := 256.
Definition ENTRIES_PER_BLOCK : nat := 2.
Definition MAX_FILENAME_LEN : nat := 248.
Definition TOTAL_SECTORS : Z := 1024.
Definition MAX_INODES : Z := 256.
Definition MAX_DATA_BLOCKS : Z := TOTAL_SECTORS - 35.

(** [struct Superblock].  The struct has 516 bytes, four more than a sector:
    [padding] has those of its bytes that are in the sector. *)
Record Superblock : Type := mkSuperblock {
  magic : Z; version : Z; block_size : Z; total_blocks : Z; inode_count : Z; free_blocks : Z; free_inodes : Z;
  first_data_block : Z; inode_bitmap_sector : Z; block_bitmap_sector : Z; inode_table_sector : Z; sb_root_inode : Z;
  sb_padding : list Z
}.

(** [struct Inode]. *)
Record Inode : Type := mkInode {
  inode_num : Z; file_type : Z; mode : Z; uid : Z; gid : Z; link_count : Z; size : Z; blocks_used : Z;
  direct_blocks : list Z; padding : list Z
}.

(** [struct DirEntry]. *)
Record DirEntry : Type := mkDirEntry {
  de_inode : Z; name_len : Z; de_type : Z; de_padding : Z; name : list Z
}.

(** [enum FileType]. *)
Inductive FileType : Type := File | Directory.

Definition type_num (t : FileType) : Z := match t with File => 1 | Directory => 2 end.

Definition FileType_from_u32 (val : Z) : option FileType :=
  if val =? 1 then Some File else if val =? 2 then Some Directory else None.

Inductive HomeFsError : Type :=
  | IoError | NotFound | AlreadyExists | NotDirectory | IsDirectory | NoSpace | InvalidArgument | NotEmpty | Corrupted.

Global Instance HomeFsError_eq_dec : EqDecision HomeFsError.
Proof. solve_decision. Defined.

(** ** Structures as bytes *)

Definition field (bytes : list Z) (off n : nat) : Z := from_le (sub_slice bytes off (off + n)).

Definition superblock_bytes (sb : Superblock) : list Z :=
  to_le 4 (magic sb) ++ to_le 4 (version sb) ++ to_le 4 (block_size sb) ++ to_le 4 (total_blocks sb)
  ++ to_le 4 (inode_count sb) ++ to_le 4 (free_blocks sb) ++ to_le 4 (free_inodes sb) ++ to_le 4 (first_data_block sb)
  ++ to_le 4 (inode_bitmap_sector sb) ++ to_le 4 (block_bitmap_sector sb) ++ to_le 4 (inode_table_sector sb)
  ++ to_le 4 (sb_root_inode sb) ++ sb_padding sb.

Definition superblock_of (b : list Z) : Superblock :=
  mkSuperblock (field b 0 4) (field b 4 4) (field b 8 4) (field b 12 4) (field b 16 4) (field b 20 4) (field b 24 4)
    (field b 28 4) (field b 32 4) (field b 36 4) (field b 40 4) (field b 44 4) (drop 48 b).

Definition blocks_bytes (blocks : list Z) : list Z := concat (map (to_le 4) blocks).

Definition blocks_of (b : list Z) (off n : nat) : list Z := map (fun i => field b (off + 4 * i) 4) (seq 0 n).

Definition inode_bytes (i : Inode) : list Z :=
  to_le 4 (inode_num i) ++ to_le 4 (file_type i) ++ to_le 2 (mode i) ++ to_le 2 (uid i) ++ to_le 2 (gid i)
  ++ to_le 2 (link_count i) ++ to_le 4 (size i) ++ to_le 4 (blocks_used i) ++ blocks_bytes (direct_blocks i) ++ padding i.

Definition inode_of (b : list Z) : Inode :=
  mkInode (field b 0 4) (field b 4 4) (field b 8 2) (field b 10 2) (field b 12 2) (field b 14 2) (field b 16 4)
    (field b 20 4) (blocks_of b 24 MAX_DIRECT_BLOCKS) (sub_slice b 56 64).

Definition entry_bytes (e : DirEntry) : list Z :=
  to_le 4 (de_inode e) ++ to_le 1 (name_len e) ++ to_le 1 (de_type e) ++ to_le 2 (de_padding e) ++ name e.

Definition entry_of (b : list Z) : DirEntry :=
  mkDirEntry (field b 0 4) (field b 4 1) (field b 5 1) (field b 6 2) (sub_slice b 8 256).

(** A name in the array of an entry: [copy_from_slice] into a zeroed array. *)
Definition name_array (bytes : list Z) : list Z := splice (replicate MAX_FILENAME_LEN 0) 0 bytes.

(** An entry as the code builds it. *)
Definition new_entry (inode : Z) (bytes : list Z) (t : FileType) : DirEntry :=
  mkDirEntry inode (wrap8 (Z.of_nat (length bytes))) (type_num t) 0 (name_array bytes).

Definition empty_entry : DirEntry := mkDirEntry 0 0 0 0 (replicate MAX_FILENAME_LEN 0).

(** [".".as_bytes()] and [".."]. *)
Definition dot : list Z := [0x2E].
Definition dotdot : list Z := [0x2E; 0x2E].

(** [write_dir_entry_to_buf(&mut buf[offset..], entry)]. *)
Definition write_dir_entry_to_buf (buf : list Z) (offset : nat) (e : DirEntry) : outcome (list Z) :=
  let! _ := rust_assert (DIR_ENTRY_SIZE <=? length buf - offset)%nat in
  Done (splice buf offset (entry_bytes e)).

(** ** Loops with [break] and [return] *)

(** How a turn of a loop ends: with the variables of the loop, or by leaving it
    or the function. *)
Inductive flow (A R : Type) : Type := Next (a : A) | Break (a : A) | Return (r : R).
Arguments Next {A R} a.
Arguments Break {A R} a.
Arguments Return {A R} r.

(** [for i in i..i + n { body }]: the variables after the loop, or [Return]. *)
Fixpoint loop {S E A R} (i n : nat) (body : nat -> A -> stm S E (flow A R)) (a : A) : stm S E (flow A R) :=
  match n with
  | O => sret (Next a)
  | Datatypes.S n' =>
      let% x := body i a in
      match x with
      | Next a => loop (Datatypes.S i) n' body a
      | Break a => sret (Next a)
      | Return r => sret (Return r)
      end
  end.

(** [if let Err(e) = m] and [m.is_ok()]: the error is a value. *)
Definition attempt {S E T} (m : stm S E T) : stm S E (result T E) := fun s =>
  let! (r, s) := m s in Done (Ok r, s).

Definition lift {S E T} (m : outcome T) : stm S E T := fun s => let! t := m in Done (Ok t, s).

(** [a + b] of [u32] and [u64]. *)
Definition add32 {S E} (a b : Z) : stm S E Z := if a + b <=? U32_MAX then sret (a + b) else spanic.
Definition add64 {S E} (a b : Z) : stm S E Z := if a + b <=? U64_MAX then sret (a + b) else spanic.

(** ** Bitmaps *)

Definition bit_is_free (byte : Z) (bit : nat) : bool := Z.land byte (Z.shiftl 1 (Z.of_nat bit)) =? 0.

(** The inner loop of the allocators: the first free bit of a byte, from [bit]
    on, whose number is usable. *)
Fixpoint free_in_byte (usable : Z -> bool) (byte : Z) (byte_idx bit n : nat) : option Z :=
  match n with
  | O => None
  | S n' =>
      let num := Z.of_nat (byte_idx * 8 + bit) in
      if bit_is_free byte bit && usable num then Some num
      else free_in_byte usable byte byte_idx (S bit) n'
  end.

(** The outer loop, over [n] bytes from [byte_idx] on. *)
Fixpoint free_in_map (usable : Z -> bool) (bitmap : list Z) (byte_idx n : nat) : outcome (option Z) :=
  match n with
  | O => Done None
  | S n' =>
      let! byte := index bitmap byte_idx in
      match (if negb (byte =? 0xFF) then free_in_byte usable byte byte_idx 0 8 else None) with
      | Some num => Done (Some num)
      | None => free_in_map usable bitmap (S byte_idx) n'
      end
  end.

Definition byte_of (num : Z) : nat := Z.to_nat (num / 8).
Definition mask_of (num : Z) : Z := Z.shiftl 1 (num mod 8).

(** [bitmap[byte_idx] |= 1 << bit], [&= !(1 << bit)] and the test. *)
Definition set_bit (bitmap : list Z) (num : Z) : outcome (list Z) :=
  let! byte := index bitmap (byte_of num) in index_set bitmap (byte_of num) (Z.lor byte (mask_of num)).
Definition clear_bit (bitmap : list Z) (num : Z) : outcome (list Z) :=
  let! byte := index bitmap (byte_of num) in index_set bitmap (byte_of num) (Z.land byte (not8 (mask_of num))).
Definition bit_is_set (bitmap : list Z) (num : Z) : outcome bool :=
  let! byte := index bitmap (byte_of num) in Done (negb (Z.land byte (mask_of num) =? 0)).

(** ** The file system *)

Section HomeFs.
Context {D : Type} {BD : BlockDevice D}.

(** [struct HomeFs]. *)
Record HomeFs : Type := mkHomeFs {
  device : D; superblock : Superblock; inode_bitmap : list Z; block_bitmap : list Z }.

Notation fs T := (stm HomeFs HomeFsError T).

Definition with_device (s : HomeFs) (d : D) : HomeFs := mkHomeFs d (superblock s) (inode_bitmap s) (block_bitmap s).
Definition with_superblock (s : HomeFs) (sb : Superblock) : HomeFs := mkHomeFs (device s) sb (inode_bitmap s) (block_bitmap s).
Definition with_inode_bitmap (s : HomeFs) (b : list Z) : HomeFs := mkHomeFs (device s) (superblock s) b (block_bitmap s).
Definition with_block_bitmap (s : HomeFs) (b : list Z) : HomeFs := mkHomeFs (device s) (superblock s) (inode_bitmap s) b.
Definition with_free (sb : Superblock) (blocks inodes : Z) : Superblock :=
  mkSuperblock (magic sb) (version sb) (block_size sb) (total_blocks sb) (inode_count sb) blocks inodes
    (first_data_block sb) (inode_bitmap_sector sb) (block_bitmap_sector sb) (inode_table_sector sb) (sb_root_inode sb)
    (sb_padding sb).

(** [device.read_sector(..)?] and [device.write_sector(..)?]: every error of
    the device is [IoError]. *)
Definition get (d : D) (n : Z) : result (list Z) HomeFsError := map_err (fun _ => IoError) (read_sector d n).
Definition put (d : D) (n : Z) (b : list Z) : result D HomeFsError := map_err (fun _ => IoError) (write_sector d n b).

Definition load (n : Z) : fs (list Z) := fun s => Done (get (device s) n, s).
Definition on_device (f : D -> result D HomeFsError) : fs unit := fun s =>
  match f (device s) with Ok d => Done (Ok tt, with_device s d) | Err e => Done (Err e, s) end.
Definition store (n : Z) (b : list Z) : fs unit := on_device (fun d => put d n b).

(** [read_superblock], [write_superblock]. *)
Definition read_superblock (d : D) : result Superblock HomeFsError :=
  let? buf := get d 0 in Ok (superblock_of buf).
Definition write_superblock (d : D) (sb : Superblock) : result D HomeFsError := put d 0 (superblock_bytes sb).

Definition inode_sector (inode_num : Z) : Z := 3 + (inode_num - 1) / INODES_PER_SECTOR.
Definition inode_offset (inode_num : Z) : nat := (Z.to_nat ((inode_num - 1) mod INODES_PER_SECTOR) * INODE_SIZE)%nat.
Definition bad_inode_num (inode_num : Z) : bool := (inode_num =? 0) || (MAX_INODES <? inode_num).

Definition read_inode (inode_num : Z) : fs Inode :=
  if bad_inode_num inode_num then sfail InvalidArgument
  else
    let% buf := load (inode_sector inode_num) in
    let offset := inode_offset inode_num in
    sret (inode_of (sub_slice buf offset (offset + INODE_SIZE))).

Definition write_inode_direct (d : D) (inode : Inode) : result D HomeFsError :=
  if bad_inode_num (inode_num inode) then Err InvalidArgument
  else
    let sector := inode_sector (inode_num inode) in
    let? buf := get d sector in
    put d sector (splice buf (inode_offset (inode_num inode)) (inode_bytes inode)).

Definition write_inode (inode : Inode) : fs unit := on_device (fun d => write_inode_direct d inode).

(** [create]: a file system on a device. *)
Definition create (d : D) : outcome (result HomeFs HomeFsError) :=
  let superblock :=
    mkSuperblock FS_MAGIC FS_VERSION (Z.of_nat BLOCK_SIZE) TOTAL_SECTORS MAX_INODES (MAX_DATA_BLOCKS - 1) (MAX_INODES - 1)
      35 1 2 3 1 (replicate 464 0) in
  let inode_bitmap := <[0%nat := 0x02]> (replicate 512 0) in
  let block_bitmap := <[0%nat := 0x01]> (replicate 512 0) in
  let root_inode :=
    mkInode 1 (type_num Directory) 0x1ED 0 0 1 (Z.of_nat BLOCK_SIZE) 1 [35; 0; 0; 0; 0; 0; 0; 0] (replicate 8 0) in
  let* d := Done (write_superblock d superblock) in
  let* d := Done (put d 1 inode_bitmap) in
  let* d := Done (put d 2 block_bitmap) in
  let* d := Done (write_inode_direct d root_inode) in
  let! root_block := write_dir_entry_to_buf (replicate 512 0) 0 (new_entry 1 dot Directory) in
  let! root_block := write_dir_entry_to_buf root_block DIR_ENTRY_SIZE (new_entry 1 dotdot Directory) in
  let* d := Done (put d 35 root_block) in
  Done (Ok (mkHomeFs d superblock inode_bitmap block_bitmap)).

(** [open]: an existing file system. *)
Definition open (d : D) : result HomeFs HomeFsError :=
  let? superblock := read_superblock d in
  if negb (magic superblock =? FS_MAGIC) then Err Corrupted
  else if negb (version superblock =? FS_VERSION) then Err InvalidArgument
  else
    let? inode_bitmap := get d 1 in
    let? block_bitmap := get d 2 in
    Ok (mkHomeFs d superblock inode_bitmap block_bitmap).

(** ** Allocation *)

Definition usable_inode (num : Z) : bool := negb ((num =? 0) || (MAX_INODES <=? num)).
Definition usable_block (num : Z) : bool := negb (MAX_DATA_BLOCKS <=? num).

(** Writing a bitmap and the superblock through. *)
Definition flush_inodes : fs unit :=
  let% b := sread inode_bitmap in
  let% _ := store 1 b in
  let% sb := sread superblock in
  on_device (fun d => write_superblock d sb).
Definition flush_blocks : fs unit :=
  let% b := sread block_bitmap in
  let% _ := store 2 b in
  let% sb := sread superblock in
  on_device (fun d => write_superblock d sb).

Definition allocate_inode : fs Z :=
  let% sb := sread superblock in
  if free_inodes sb =? 0 then sfail NoSpace
  else
    let% bitmap := sread inode_bitmap in
    let% found := lift (free_in_map usable_inode bitmap 0 32) in
    match found with
    | None => sfail NoSpace
    | Some num =>
        let% bitmap := lift (set_bit bitmap num) in
        let% _ := smodify (fun s => with_superblock (with_inode_bitmap s bitmap)
                                     (with_free sb (free_blocks sb) (free_inodes sb - 1))) in
        let% _ := flush_inodes in
        sret num
    end.

Definition free_inode (num : Z) : fs unit :=
  if (num =? 0) || (MAX_INODES <=? num) then sfail InvalidArgument
  else
    let% bitmap := sread inode_bitmap in
    let% set := lift (bit_is_set bitmap num) in
    if negb set then sfail InvalidArgument
    else
      let% bitmap := lift (clear_bit bitmap num) in
      let% sb := sread superblock in
      let% n := add32 (free_inodes sb) 1 in
      let% _ := smodify (fun s => with_superblock (with_inode_bitmap s bitmap) (with_free sb (free_blocks sb) n)) in
      flush_inodes.

Definition allocate_block : fs Z :=
  let% sb := sread superblock in
  if free_blocks sb =? 0 then sfail NoSpace
  else
    let% bitmap := sread block_bitmap in
    let% found := lift (free_in_map usable_block bitmap 0 (Z.to_nat (MAX_DATA_BLOCKS / 8))) in
    match found with
    | None => sfail NoSpace
    | Some num =>
        let% bitmap := lift (set_bit bitmap num) in
        let% _ := smodify (fun s => with_superblock (with_block_bitmap s bitmap)
                                     (with_free sb (free_blocks sb - 1) (free_inodes sb))) in
        let% _ := flush_blocks in
        sret num
    end.

Definition free_block (num : Z) : fs unit :=
  if MAX_DATA_BLOCKS <=? num then sfail InvalidArgument
  else
    let% bitmap := sread block_bitmap in
    let% set := lift (bit_is_set bitmap num) in
    if negb set then sfail InvalidArgument
    else
      let% bitmap := lift (clear_bit bitmap num) in
      let% sb := sread superblock in
      let% n := add32 (free_blocks sb) 1 in
      let% _ := smodify (fun s => with_superblock (with_block_bitmap s bitmap) (with_free sb n (free_inodes sb))) in
      flush_blocks.

Definition root_inode : fs Z := sread (fun s => sb_root_inode (superblock s)).
Definition statfs : fs (Z * Z * Z * Z) :=
  sread (fun s => (free_blocks (superblock s), MAX_DATA_BLOCKS, free_inodes (superblock s), MAX_INODES)).

(** ** Directories *)

Definition read_dir_entry (block_sector : Z) (index : nat) : fs DirEntry :=
  let% buf := load block_sector in
  let offset := (index * DIR_ENTRY_SIZE)%nat in
  if (SECTOR_SIZE <? offset + DIR_ENTRY_SIZE)%nat then sfail InvalidArgument
  else sret (entry_of (sub_slice buf offset (offset + DIR_ENTRY_SIZE))).

Definition write_dir_entry (block_sector : Z) (index : nat) (entry : DirEntry) : fs unit :=
  let% buf := load block_sector in
  let offset := (index * DIR_ENTRY_SIZE)%nat in
  if (SECTOR_SIZE <? offset + DIR_ENTRY_SIZE)%nat then sfail InvalidArgument
  else store block_sector (splice buf offset (entry_bytes entry)).

(** The sector of a data block. *)
Definition block_sector (block_num : Z) : fs Z :=
  let% first := sread (fun s => first_data_block (superblock s)) in add32 first block_num.

(** [0..blocks_used]: every loop over it leaves at the ninth turn. *)
Definition block_turns (inode : Inode) : nat := Z.to_nat (Z.min (blocks_used inode) 9).

(** The loops of [lookup_in_dir], [remove_dir_entry], [rmdir] and [readdir]
    over the entries of a directory that are in use. *)
Definition for_entries {A R} (dir_inode : Inode) (body : Z -> nat -> DirEntry -> A -> fs (flow A R)) (a : A) : fs (flow A R) :=
  loop 0 (block_turns dir_inode) (fun block_idx a =>
    if (MAX_DIRECT_BLOCKS <=? block_idx)%nat then sret (Break a)
    else
      let% block_num := lift (index (direct_blocks dir_inode) block_idx) in
      if block_num =? 0 then sret (Break a)
      else
        let% sector := block_sector block_num in
        loop 0 ENTRIES_PER_BLOCK (fun entry_idx a =>
          let% entry := read_dir_entry sector entry_idx in
          if de_inode entry =? 0 then sret (Next a) else body sector entry_idx entry a) a) a.

(** [from_utf8(&entry.name[..entry.name_len as usize])]: a length above that of
    the array panics. *)
Definition entry_name (entry : DirEntry) : fs string :=
  let% bytes := lift (slice (name entry) 0 (Z.to_nat (name_len entry))) in
  match from_utf8 bytes with Some s => sret s | None => sfail Corrupted end.

Definition read_directory (dir_inode_num : Z) : fs Inode :=
  let% dir_inode := read_inode dir_inode_num in
  if negb (file_type dir_inode =? type_num Directory) then sfail NotDirectory else sret dir_inode.

Definition lookup_in_dir (dir_inode_num : Z) (name : string) : fs Z :=
  if (MAX_FILENAME_LEN <? length (bytes_of_string name))%nat then sfail InvalidArgument
  else
    let% dir_inode := read_directory dir_inode_num in
    let% x := for_entries dir_inode (fun _ _ entry _ =>
      let% n := entry_name entry in
      if bool_decide (n = name) then sret (Return (de_inode entry)) else sret (Next tt)) tt in
    match x with Return inode => sret inode | _ => sfail NotFound end.

(** The search for a free slot in [add_dir_entry]: there, a block number of 0
    does not end the loop. *)
Definition find_slot {R} (dir_inode : Inode) (found : Z -> nat -> fs R) : fs (flow unit R) :=
  loop 0 (block_turns dir_inode) (fun block_idx _ =>
    if (MAX_DIRECT_BLOCKS <=? block_idx)%nat then sfail NoSpace
    else
      let% block_num := lift (index (direct_blocks dir_inode) block_idx) in
      let% sector := block_sector block_num in
      loop 0 ENTRIES_PER_BLOCK (fun entry_idx _ =>
        let% entry := read_dir_entry sector entry_idx in
        if de_inode entry =? 0 then let% r := found sector entry_idx in sret (Return r) else sret (Next tt)) tt) tt.

Definition with_blocks (i : Inode) (size blocks_used : Z) (direct_blocks : list Z) : Inode :=
  mkInode (inode_num i) (file_type i) (mode i) (uid i) (gid i) (link_count i) size blocks_used direct_blocks (padding i).

Definition add_dir_entry (dir_inode_num : Z) (name : string) (child_inode : Z) (child_type : FileType) : fs unit :=
  let bytes := bytes_of_string name in
  if (length bytes =? 0)%nat || (MAX_FILENAME_LEN <? length bytes)%nat then sfail InvalidArgument
  else
    let% exists_ := attempt (lookup_in_dir dir_inode_num name) in
    if is_ok exists_ then sfail AlreadyExists
    else
      let% dir_inode := read_directory dir_inode_num in
      let entry := new_entry child_inode bytes child_type in
      let% x := find_slot dir_inode (fun sector entry_idx => write_dir_entry sector entry_idx entry) in
      match x with
      | Return _ => sret tt
      | _ =>
          if Z.of_nat MAX_DIRECT_BLOCKS <=? blocks_used dir_inode then sfail NoSpace
          else
            let% new_block := allocate_block in
            let% blocks := lift (index_set (direct_blocks dir_inode) (Z.to_nat (blocks_used dir_inode)) new_block) in
            let used := blocks_used dir_inode + 1 in
            let dir_inode := with_blocks dir_inode (used * Z.of_nat BLOCK_SIZE) used blocks in
            let% sector := block_sector new_block in
            let% _ := store sector (replicate 512 0) in
            let% _ := write_dir_entry sector 0 entry in
            write_inode dir_inode
      end.

Definition create_file (dir_inode_num : Z) (name : string) (mode : Z) : fs Z :=
  let% inode_num := allocate_inode in
  let inode := mkInode inode_num (type_num File) mode 0 0 1 0 0 (replicate MAX_DIRECT_BLOCKS 0) (replicate 8 0) in
  let% _ := write_inode inode in
  let% r := attempt (add_dir_entry dir_inode_num name inode_num File) in
  match r with
  | Err e => let% _ := attempt (free_inode inode_num) in sfail e
  | Ok _ => sret inode_num
  end.

Definition create_directory (parent_inode_num : Z) (name : string) (mode : Z) : fs Z :=
  let% inode_num := allocate_inode in
  let% block := attempt allocate_block in
  match block with
  | Err e => let% _ := attempt (free_inode inode_num) in sfail e
  | Ok block_num =>
      let inode := mkInode inode_num (type_num Directory) mode 0 0 1 (Z.of_nat BLOCK_SIZE) 1
                     (<[0%nat := block_num]> (replicate MAX_DIRECT_BLOCKS 0)) (replicate 8 0) in
      let% sector := block_sector block_num in
      let% dir_block := lift (write_dir_entry_to_buf (replicate 512 0) 0 (new_entry inode_num dot Directory)) in
      let% dir_block := lift (write_dir_entry_to_buf dir_block DIR_ENTRY_SIZE (new_entry parent_inode_num dotdot Directory)) in
      let% _ := store sector dir_block in
      let% _ := write_inode inode in
      let% r := attempt (add_dir_entry parent_inode_num name inode_num Directory) in
      match r with
      | Err e =>
          let% _ := attempt (free_block block_num) in
          let% _ := attempt (free_inode inode_num) in
          sfail e
      | Ok _ => sret inode_num
      end
  end.

(** ** Files *)

(** The loop of [read_file]: [to_read] bytes, of which [bytes_read] are there.
    Each turn moves on to the next block, and the eighth is the last. *)
Fixpoint read_loop (fuel : nat) (inode : Inode) (offset to_read bytes_read : nat) (buf : list Z) : fs (nat * list Z) :=
  match fuel with
  | O => spanic
  | S fuel' =>
      if negb (bytes_read <? to_read)%nat then sret (bytes_read, buf)
      else
        let block_idx := ((offset + bytes_read) / BLOCK_SIZE)%nat in
        let block_offset := ((offset + bytes_read) mod BLOCK_SIZE)%nat in
        if (MAX_DIRECT_BLOCKS <=? block_idx)%nat || (blocks_used inode <=? Z.of_nat block_idx) then sret (bytes_read, buf)
        else
          let% block_num := lift (index (direct_blocks inode) block_idx) in
          if block_num =? 0 then sret (bytes_read, buf)
          else
            let% sector := block_sector block_num in
            let% block_buf := load sector in
            let chunk_size := Nat.min (BLOCK_SIZE - block_offset) (to_read - bytes_read) in
            let buf := splice buf bytes_read (sub_slice block_buf block_offset (block_offset + chunk_size)) in
            read_loop fuel' inode offset to_read (bytes_read + chunk_size) buf
  end.

Definition LOOP_FUEL : nat := 10.

Definition read_regular (inode_num : Z) : fs Inode :=
  let% inode := read_inode inode_num in
  if negb (file_type inode =? type_num File) then sfail IsDirectory else sret inode.

Definition read_file (inode_num : Z) (offset : nat) (buf : list Z) : fs (nat * list Z) :=
  let% inode := read_regular inode_num in
  if size inode <=? Z.of_nat offset then sret (0%nat, buf)
  else
    let to_read := Z.to_nat (Z.min (Z.of_nat (length buf)) (size inode - Z.of_nat offset)) in
    read_loop LOOP_FUEL inode offset to_read 0 buf.

(** [while blocks_used < blocks_needed], [n] blocks missing. *)
Fixpoint grow (n : nat) (inode : Inode) : fs Inode :=
  match n with
  | O => sret inode
  | S n' =>
      let% new_block := allocate_block in
      let% blocks := lift (index_set (direct_blocks inode) (Z.to_nat (blocks_used inode)) new_block) in
      grow n' (with_blocks inode (size inode) (blocks_used inode + 1) blocks)
  end.

(** The loop of [write_file]. *)
Fixpoint write_loop (fuel : nat) (inode : Inode) (offset bytes_written : nat) (buf : list Z) : fs nat :=
  match fuel with
  | O => spanic
  | S fuel' =>
      if negb (bytes_written <? length buf)%nat then sret bytes_written
      else
        let block_idx := ((offset + bytes_written) / BLOCK_SIZE)%nat in
        let block_offset := ((offset + bytes_written) mod BLOCK_SIZE)%nat in
        if (MAX_DIRECT_BLOCKS <=? block_idx)%nat then sret bytes_written
        else
          let% block_num := lift (index (direct_blocks inode) block_idx) in
          if block_num =? 0 then sret bytes_written
          else
            let% sector := block_sector block_num in
            let% block_buf := load sector in
            let chunk_size := Nat.min (BLOCK_SIZE - block_offset) (length buf - bytes_written) in
            let% _ := store sector
              (splice block_buf block_offset (sub_slice buf bytes_written (bytes_written + chunk_size))) in
            write_loop fuel' inode offset (bytes_written + chunk_size) buf
  end.

Definition write_file (inode_num : Z) (offset : nat) (buf : list Z) : fs nat :=
  let% inode := read_regular inode_num in
  let% end_offset := add64 (Z.of_nat offset) (Z.of_nat (length buf)) in
  let% rounded := add64 end_offset (Z.of_nat BLOCK_SIZE) in
  let blocks_needed := (rounded - 1) / Z.of_nat BLOCK_SIZE in
  if Z.of_nat MAX_DIRECT_BLOCKS <? blocks_needed then sfail NoSpace
  else
    let% inode := grow (Z.to_nat (blocks_needed - blocks_used inode)) inode in
    let% bytes_written := write_loop LOOP_FUEL inode offset 0 buf in
    let inode := if size inode <? end_offset
                 then with_blocks inode end_offset (blocks_used inode) (direct_blocks inode) else inode in
    let% _ := write_inode inode in
    sret bytes_written.

(** ** Removing *)

Definition remove_dir_entry (dir_inode_num : Z) (name : string) : fs unit :=
  let% dir_inode := read_directory dir_inode_num in
  let% x := for_entries dir_inode (fun sector entry_idx entry _ =>
    let% n := entry_name entry in
    if bool_decide (n = name) then
      let% _ := write_dir_entry sector entry_idx empty_entry in sret (Return tt)
    else sret (Next tt)) tt in
  match x with Return _ => sret tt | _ => sfail NotFound end.

(** [for block_idx in 0..blocks_used { .. self.free_block(..)?; }]. *)
Definition free_blocks_of (inode : Inode) : fs unit :=
  let% _ := loop (R := unit) 0 (block_turns inode) (fun block_idx _ =>
    if (MAX_DIRECT_BLOCKS <=? block_idx)%nat then sret (Break tt)
    else
      let% block_num := lift (index (direct_blocks inode) block_idx) in
      if block_num =? 0 then sret (Next tt)
      else let% _ := free_block block_num in sret (Next tt)) tt in
  sret tt.

Definition unlink_file (dir_inode_num : Z) (name : string) : fs unit :=
  let% file_inode_num := lookup_in_dir dir_inode_num name in
  let% file_inode := read_inode file_inode_num in
  if file_type file_inode =? type_num Directory then sfail IsDirectory
  else
    let% _ := free_blocks_of file_inode in
    let% _ := free_inode file_inode_num in
    remove_dir_entry dir_inode_num name.

Definition rmdir (parent_inode_num : Z) (name : string) : fs unit :=
  let% dir_inode_num := lookup_in_dir parent_inode_num name in
  let% dir_inode := read_directory dir_inode_num in
  let% x := for_entries (R := unit) dir_inode (fun _ _ _ entry_count => sret (Next (entry_count + 1)%nat)) 0%nat in
  let entry_count := match x with Next n | Break n => n | Return _ => 0%nat end in
  if (2 <? entry_count)%nat then sfail NotEmpty
  else
    let% _ := free_blocks_of dir_inode in
    let% _ := free_inode dir_inode_num in
    remove_dir_entry parent_inode_num name.

Definition rename (old_dir : Z) (old_name : string) (new_dir : Z) (new_name : string) : fs unit :=
  let% inode_num := lookup_in_dir old_dir old_name in
  let% inode := read_inode inode_num in
  let% exists_ := attempt (lookup_in_dir new_dir new_name) in
  if is_ok exists_ then sfail AlreadyExists
  else
    let file_type := if file_type inode =? type_num Directory then Directory else File in
    let% _ := add_dir_entry new_dir new_name inode_num file_type in
    remove_dir_entry old_dir old_name.

Definition readdir (dir_inode_num : Z) : fs (list (Z * string * FileType)) :=
  let% dir_inode := read_directory dir_inode_num in
  let% x := for_entries (R := unit) dir_inode (fun _ _ entry entries =>
    let% name := entry_name entry in
    match FileType_from_u32 (de_type entry) with
    | None => sfail Corrupted
    | Some t => sret (Next (entries ++ [(de_inode entry, name, t)]))
    end) [] in
  sret (match x with Next l | Break l => l | Return _ => [] end).

Definition truncate (inode_num : Z) : fs unit :=
  let% inode := read_regular inode_num in
  let% _ := free_blocks_of inode in
  write_inode (with_blocks inode 0 0 (replicate MAX_DIRECT_BLOCKS 0)).

Definition chmod (inode_num : Z) (new_mode : Z) : fs unit :=
  let% i := read_inode inode_num in
  write_inode (mkInode (HomeFs.inode_num i) (file_type i) (Z.land new_mode 0x1FF) (uid i) (gid i) (link_count i) (size i)
    (blocks_used i) (direct_blocks i) (padding i)).

End HomeFs.
Arguments HomeFs : clear implicits.

(** ** Structures and bytes *)

Definition sb_ok (sb : Superblock) : Prop :=
  magic sb = FS_MAGIC /\ version sb = FS_VERSION
  /\ Forall is_u32 [block_size sb; total_blocks sb; inode_count sb; free_blocks sb; free_inodes sb; first_data_block sb;
       inode_bitmap_sector sb; block_bitmap_sector sb; inode_table_sector sb; sb_root_inode sb]
  /\ length (sb_padding sb) = 464%nat /\ bytes_ok (sb_padding sb).

Record inode_ok (i : Inode) : Prop := mkInodeOk {
  ok_words : Forall is_u32 [inode_num i; file_type i; size i; blocks_used i];
  ok_halves : Forall is_u16 [mode i; uid i; gid i; link_count i];
  ok_blocks : Forall is_u32 (direct_blocks i);
  ok_count : length (direct_blocks i) = MAX_DIRECT_BLOCKS;
  ok_pad_len : length (padding i) = 8%nat;
  ok_pad : bytes_ok (padding i)
}.

Record entry_ok (e : DirEntry) : Prop := mkEntryOk {
  ok_inode : is_u32 (de_inode e);
  ok_name_len : is_u8 (name_len e);
  ok_type : is_u8 (de_type e);
  ok_de_pad : is_u16 (de_padding e);
  ok_len : length (name e) = MAX_FILENAME_LEN;
  ok_name : bytes_ok (name e)
}.

Lemma field_u32 x : is_u32 x -> from_le (to_le 4 x) = x.
Proof. intros H. apply from_to_le. change (256 ^ Z.of_nat 4) with (U32_MAX + 1). unfold is_u32 in H. lia. Qed.

Lemma field_u16 x : is_u16 x -> from_le (to_le 2 x) = x.
Proof. intros H. apply from_to_le. change (256 ^ Z.of_nat 2) with (U16_MAX + 1). unfold is_u16 in H. lia. Qed.

Lemma field_u8 x : is_u8 x -> from_le (to_le 1 x) = x.
Proof. intros H. apply from_to_le. change (256 ^ Z.of_nat 1) with (U8_MAX + 1). unfold is_u8 in H. lia. Qed.

Ltac forall_inv := repeat match goal with H : Forall _ (_ :: _) |- _ => inversion H; subst; clear H end.

Lemma superblock_round_trip sb : sb_ok sb -> superblock_of (superblock_bytes sb) = sb.
Proof.
  intros (H1 & H2 & H3 & _). destruct sb. cbn in *. subst. forall_inv. unfold superblock_of, superblock_bytes. cbn [magic version
    block_size total_blocks inode_count free_blocks free_inodes first_data_block inode_bitmap_sector block_bitmap_sector
    inode_table_sector sb_root_inode sb_padding].
  f_equal; try (match goal with |- field _ _ _ = ?x =>
    transitivity (from_le (to_le 4 x)); [reflexivity|apply field_u32; (assumption || (unfold is_u32; vm_compute; split; discriminate))] end).
Qed.

Lemma length_superblock sb : sb_ok sb -> length (superblock_bytes sb) = SECTOR_SIZE.
Proof.
  intros (_ & _ & _ & Hl & _). unfold superblock_bytes. rewrite !length_app, !length_to_le, Hl. reflexivity.
Qed.

Lemma superblock_bytes_ok sb : sb_ok sb -> bytes_ok (superblock_bytes sb).
Proof. intros (_ & _ & _ & _ & Hp). unfold superblock_bytes, bytes_ok. repeat apply Forall_app_2; auto; apply to_le_bytes_ok. Qed.

Lemma superblock_sector sb : sb_ok sb -> is_sector (superblock_bytes sb).
Proof. intros H. split; [now apply length_superblock|now apply superblock_bytes_ok]. Qed.

Lemma inode_round_trip i : inode_ok i -> inode_of (inode_bytes i) = i.
Proof.
  intros []. destruct i as [num ty m u g lc sz bu blocks pad]. cbn in *. unfold MAX_DIRECT_BLOCKS in *.
  do 9 (destruct blocks as [|? blocks]; try discriminate). do 9 (destruct pad as [|? pad]; try discriminate).
  forall_inv. unfold inode_of, inode_bytes. cbn [inode_num file_type mode uid gid link_count size blocks_used direct_blocks padding].
  f_equal; try (match goal with |- field _ _ 4 = ?x => transitivity (from_le (to_le 4 x)); [reflexivity|now apply field_u32] end);
    try (match goal with |- field _ _ 2 = ?x => transitivity (from_le (to_le 2 x)); [reflexivity|now apply field_u16] end).
  unfold blocks_of. cbn [map seq MAX_DIRECT_BLOCKS].
  repeat f_equal; match goal with |- field _ _ _ = ?x => transitivity (from_le (to_le 4 x)); [reflexivity|now apply field_u32] end.
Qed.

Lemma length_inode_bytes i : length (direct_blocks i) = MAX_DIRECT_BLOCKS -> length (padding i) = 8%nat ->
  length (inode_bytes i) = INODE_SIZE.
Proof.
  intros Hb Hp. unfold inode_bytes, blocks_bytes. rewrite !length_app, !length_to_le.
  destruct i as [num ty m u g lc sz bu blocks pad]. cbn in *. unfold MAX_DIRECT_BLOCKS in *.
  do 9 (destruct blocks as [|? blocks]; try discriminate). rewrite Hp. reflexivity.
Qed.

Lemma inode_bytes_ok i : bytes_ok (padding i) -> bytes_ok (inode_bytes i).
Proof.
  intros Hp. unfold inode_bytes, bytes_ok. repeat apply Forall_app_2; auto; try apply to_le_bytes_ok.
  apply Forall_concat, Forall_forall. intros l (x & <- & _)%list_elem_of_In%in_map_iff. apply to_le_bytes_ok.
Qed.

Lemma entry_round_trip e : entry_ok e -> entry_of (entry_bytes e) = e.
Proof.
  intros []. destruct e as [i nl t p nm]. cbn in *. unfold entry_of, entry_bytes. cbn [de_inode name_len de_type de_padding name].
  f_equal.
  - transitivity (from_le (to_le 4 i)); [reflexivity|now apply field_u32].
  - transitivity (from_le (to_le 1 nl)); [reflexivity|now apply field_u8].
  - transitivity (from_le (to_le 1 t)); [reflexivity|now apply field_u8].
  - transitivity (from_le (to_le 2 p)); [reflexivity|now apply field_u16].
  - unfold sub_slice. cbn [to_le app drop]. change (256 - 8)%nat with MAX_FILENAME_LEN. now apply take_ge, Nat.eq_le_incl.
Qed.

Lemma length_entry_bytes e : length (name e) = MAX_FILENAME_LEN -> length (entry_bytes e) = DIR_ENTRY_SIZE.
Proof. intros H. unfold entry_bytes. rewrite !length_app, !length_to_le, H. reflexivity. Qed.

Lemma entry_bytes_ok e : bytes_ok (name e) -> bytes_ok (entry_bytes e).
Proof. intros H. unfold entry_bytes, bytes_ok. repeat apply Forall_app_2; auto; apply to_le_bytes_ok. Qed.

End HomeFs.
