(* ===== verification/HomeSync.v ===== *)
(** * The writable file system survives a remount

    The superblock and the bitmaps that src/kernel/src/homefs.rs keeps in memory
    are on the disk after every operation, whether it succeeds or fails, as long
    as the disk accepts writes of its first three sectors; so opening the disk
    again gives the file system back. *)

From S2P Require Import Prelude Bytes Block Utf8 HomeFs.
Import Bytes Block Utf8 HomeFs.

Module HomeSync.

(** What is asked of the disk: the sectors of the superblock and of the bitmaps
    can always be written. *)
Class Reliable (D : Type) {BD : BlockDevice D} : Type := {
  healthy : D -> Prop;
  healthy_write : forall d n b d', healthy d -> is_sector b -> write_sector d n b = Ok d' -> healthy d';
  healthy_meta : forall d n b, healthy d -> 0 <= n <= 2 -> is_sector b -> exists d', write_sector d n b = Ok d'
}.

#[export, refine] Instance ram_reliable : Reliable RamDisk := { healthy := fun d => (3 <= length d)%nat }.
Proof.
  - intros d n b d' Hd _. cbn. unfold ram_write. case_match; intros [= <-]. now rewrite length_insert.
  - intros d n b Hd Hn _. cbn. unfold ram_write. rewrite (proj2 (Z.ltb_ge n 0)), (proj2 (Z.leb_gt _ n)) by lia. eauto.
Defined.

(** The operations of the file system. *)
Inductive op : Type :=
  | OpCreateFile (dir : Z) (name : string) (mode : Z)
  | OpCreateDirectory (parent : Z) (name : string) (mode : Z)
  | OpReadFile (inode : Z) (offset : nat) (buf : list Z)
  | OpWriteFile (inode : Z) (offset : nat) (buf : list Z)
  | OpLookup (dir : Z) (name : string)
  | OpAddEntry (dir : Z) (name : string) (child : Z) (t : FileType)
  | OpUnlink (dir : Z) (name : string)
  | OpRmdir (parent : Z) (name : string)
  | OpRename (old_dir : Z) (old_name : string) (new_dir : Z) (new_name : string)
  | OpReaddir (dir : Z)
  | OpTruncate (inode : Z)
  | OpChmod (inode : Z) (mode : Z).

(** What is written is bytes. *)
Definition op_ok (o : op) : Prop := match o with OpWriteFile _ _ buf => bytes_ok buf | _ => True end.

Section Sync.
Context {D : Type} {BD : BlockDevice D} {RD : Reliable D}.

Notation HomeFs := (HomeFs D).
Notation fs T := (stm HomeFs HomeFsError T).

(** One operation, and several: errors are answers like others, and the
    operations go on; a panic ends everything. *)
Definition discard {T} (m : fs T) (s : HomeFs) : outcome HomeFs := let! (_, s) := m s in Done s.

Definition perform (o : op) : HomeFs -> outcome HomeFs :=
  match o with
  | OpCreateFile dir name mode => discard (create_file dir name mode)
  | OpCreateDirectory parent name mode => discard (create_directory parent name mode)
  | OpReadFile inode offset buf => discard (read_file inode offset buf)
  | OpWriteFile inode offset buf => discard (write_file inode offset buf)
  | OpLookup dir name => discard (lookup_in_dir dir name)
  | OpAddEntry dir name child t => discard (add_dir_entry dir name child t)
  | OpUnlink dir name => discard (unlink_file dir name)
  | OpRmdir parent name => discard (rmdir parent name)
  | OpRename od on nd nn => discard (rename od on nd nn)
  | OpReaddir dir => discard (readdir dir)
  | OpTruncate inode => discard (truncate inode)
  | OpChmod inode mode => discard (chmod inode mode)
  end.

Fixpoint perform_all (os : list op) (s : HomeFs) : outcome HomeFs :=
  match os with
  | [] => Done s
  | o :: os => let! s := perform o s in perform_all os s
  end.

(** Memory and disk agree. *)
Record good (s : HomeFs) : Prop := mkGood {
  g_superblock : get (device s) 0 = Ok (superblock_bytes (superblock s));
  g_inodes : get (device s) 1 = Ok (inode_bitmap s);
  g_blocks : get (device s) 2 = Ok (block_bitmap s);
  g_ok : sb_ok (superblock s);
  g_first : 3 <= first_data_block (superblock s);
  g_healthy : healthy (device s)
}.

(** From a good state, [m] leads to a good state, and what it returns has [Q]. *)
Definition keeps {T} (m : fs T) (Q : T -> Prop) : Prop :=
  forall s r s', good s -> m s = Done (r, s') -> good s' /\ match r with Ok t => Q t | Err _ => True end.

(** Arithmetic on what a computation is known to return. *)
Ltac klia := cbn beta in *; lia.

Lemma keeps_ret {T} (t : T) (Q : T -> Prop) : Q t -> keeps (sret t) Q.
Proof. intros H s r s' Hs [= <- <-]. auto. Qed.

Lemma keeps_fail {T} e (Q : T -> Prop) : keeps (sfail e) Q.
Proof. intros s r s' Hs [= <- <-]. auto. Qed.

Lemma keeps_panic {T} (Q : T -> Prop) : keeps spanic Q.
Proof. intros s r s' Hs H. discriminate H. Qed.

Lemma keeps_read {T} (f : HomeFs -> T) (Q : T -> Prop) : (forall s, good s -> Q (f s)) -> keeps (sread f) Q.
Proof. intros H s r s' Hs [= <- <-]. auto. Qed.

Lemma keeps_bind {T U} (m : fs T) (f : T -> fs U) (M : T -> Prop) (Q : U -> Prop) :
  keeps m M -> (forall t, M t -> keeps (f t) Q) -> keeps (sbind m f) Q.
Proof.
  intros Hm Hf s r s' Hs. unfold sbind. destruct (m s) as [[[t|e] s1]|] eqn:E; [| |discriminate].
  - destruct (Hm _ _ _ Hs E) as [Hs1 Ht]. apply Hf; assumption.
  - intros [= <- <-]. destruct (Hm _ _ _ Hs E). auto.
Qed.

Lemma keeps_weaken {T} (m : fs T) (M Q : T -> Prop) : keeps m M -> (forall t, M t -> Q t) -> keeps m Q.
Proof. intros H HQ s r s' Hs E. destruct (H _ _ _ Hs E) as [H1 H2]. split; [exact H1|]. destruct r; auto. Qed.

Lemma keeps_attempt {T} (m : fs T) (M : T -> Prop) :
  keeps m M -> keeps (attempt m) (fun r => match r with Ok t => M t | Err _ => True end).
Proof.
  intros H s r s' Hs. unfold attempt. intros ([r1 s1] & E & [= <- <-])%bind_Done. exact (H _ _ _ Hs E).
Qed.

Lemma keeps_lift {T} (m : outcome T) (Q : T -> Prop) : (forall t, m = Done t -> Q t) -> keeps (lift m) Q.
Proof. intros H s r s' Hs (t & E & [= <- <-])%bind_Done. auto. Qed.

Lemma keeps_add32 a b (Q : Z -> Prop) : (a + b <= U32_MAX -> Q (a + b)) -> keeps (add32 a b) Q.
Proof. intros H. unfold add32. destruct (Z.leb_spec (a + b) U32_MAX); [apply keeps_ret; auto|apply keeps_panic]. Qed.

Lemma keeps_add64 a b (Q : Z -> Prop) : (a + b <= U64_MAX -> Q (a + b)) -> keeps (add64 a b) Q.
Proof. intros H. unfold add64. destruct (Z.leb_spec (a + b) U64_MAX); [apply keeps_ret; auto|apply keeps_panic]. Qed.

Definition flow_ok {A R} (I : A -> Prop) (Q : R -> Prop) (x : flow A R) : Prop :=
  match x with Next a | Break a => I a | Return r => Q r end.

Lemma keeps_loop {A R} (I : A -> Prop) (Q : R -> Prop) n body : forall i (a : A),
  (forall i a, I a -> keeps (body i a) (flow_ok I Q)) -> I a -> keeps (loop i n body a) (flow_ok I Q).
Proof.
  induction n as [|n IH]; intros i a Hb Ha; cbn [loop]; [now apply keeps_ret|].
  eapply keeps_bind; [apply Hb, Ha|]. intros [a'|a'|r] Hx; [apply IH; auto|now apply keeps_ret..].
Qed.

(** ** The disk *)

Lemma get_sector_ok (d : D) n b : get d n = Ok b -> is_sector b.
Proof. unfold get. destruct (read_sector d n) eqn:E; intros [= <-]. eapply read_sector_ok, E. Qed.

Lemma put_get (d : D) n b d' : is_sector b -> put d n b = Ok d' ->
  get d' n = Ok b /\ forall m, m <> n -> get d' m = get d m.
Proof.
  unfold put, get. destruct (write_sector d n b) as [d1|] eqn:E; intros Hb [= <-].
  destruct (write_sector_read _ _ _ _ Hb E) as [-> H]. split; [reflexivity|]. intros m Hm. now rewrite H.
Qed.

Lemma put_healthy (d : D) n b d' : healthy d -> is_sector b -> put d n b = Ok d' -> healthy d'.
Proof. unfold put. destruct (write_sector d n b) as [d1|] eqn:E; intros Hd Hb [= <-]. eapply healthy_write, E; assumption. Qed.

Lemma put_meta (d : D) n b : healthy d -> 0 <= n <= 2 -> is_sector b -> exists d', put d n b = Ok d'.
Proof. intros Hd Hn Hb. unfold put. destruct (healthy_meta d n b Hd Hn Hb) as [d' ->]. now exists d'. Qed.

Lemma good_open s : good s -> open (device s) = Ok s.
Proof.
  intros [H0 H1 H2 Hok _ _]. unfold open, read_superblock. rewrite H0. cbn [result_bind]. rewrite superblock_round_trip by exact Hok.
  destruct Hok as (-> & -> & _). rewrite H1, H2. now destruct s.
Qed.

Lemma inodes_sector s : good s -> is_sector (inode_bitmap s).
Proof. intros Hs. eapply get_sector_ok, g_inodes, Hs. Qed.

Lemma blocks_sector s : good s -> is_sector (block_bitmap s).
Proof. intros Hs. eapply get_sector_ok, g_blocks, Hs. Qed.

(** Data and inodes are not in the first three sectors. *)
Lemma good_put s n b d' : good s -> 3 <= n -> is_sector b -> put (device s) n b = Ok d' -> good (with_device s d').
Proof.
  intros [H0 H1 H2 H3 H4 H5] Hn Hb E. destruct (put_get _ _ _ _ Hb E) as [_ Ho].
  constructor; cbn; try rewrite Ho by lia; try assumption. eapply put_healthy, E; assumption.
Qed.

Lemma keeps_load n : keeps (load n) is_sector.
Proof. intros s r s' Hs [= <- <-]. split; [exact Hs|]. destruct (get (device s) n) eqn:E; [|exact I]. eapply get_sector_ok, E. Qed.

Lemma keeps_store n b : 3 <= n -> is_sector b -> keeps (store n b) (fun _ => True).
Proof.
  intros Hn Hb s r s' Hs. unfold store, on_device. destruct (put (device s) n b) as [d'|e] eqn:E; intros [= <- <-]; [|auto].
  split; [|exact I]. eapply good_put; eassumption.
Qed.

(** ** Metadata *)

Definition same_layout (sb sb' : Superblock) : Prop := sb_ok sb' /\ first_data_block sb' = first_data_block sb.

Lemma with_free_layout sb b i : sb_ok sb -> is_u32 b -> is_u32 i -> same_layout sb (with_free sb b i).
Proof.
  intros (H1 & H2 & H3 & H4) Hb Hi. split; [|reflexivity]. split; [exact H1|]. split; [exact H2|]. split; [|exact H4].
  cbn in *. forall_inv. repeat (constructor; [assumption|]). constructor.
Qed.

Lemma flush_superblock (s : HomeFs) sb d : healthy d -> sb_ok sb -> 3 <= first_data_block sb ->
  get d 1 = Ok (inode_bitmap s) -> get d 2 = Ok (block_bitmap s) ->
  exists s', on_device (fun d => write_superblock d sb) (mkHomeFs d sb (inode_bitmap s) (block_bitmap s)) = Done (Ok tt, s')
    /\ good s'.
Proof.
  intros Hd Hsb Hf H1 H2. pose proof (superblock_sector sb Hsb) as Hb.
  destruct (put_meta d 0 (superblock_bytes sb) Hd ltac:(lia) Hb) as [d' E]. destruct (put_get _ _ _ _ Hb E) as [Hg Ho].
  unfold on_device, write_superblock. cbn [device]. rewrite E. eexists. split; [reflexivity|].
  constructor; cbn; rewrite ?Ho by lia; try assumption. eapply put_healthy, E; assumption.
Qed.

Lemma flush_inodes_good s b sb : good s -> is_sector b -> same_layout (superblock s) sb ->
  exists s', flush_inodes (with_superblock (with_inode_bitmap s b) sb) = Done (Ok tt, s') /\ good s'.
Proof.
  intros [H0 H1 H2 H3 H4 H5] Hb [Hsb Hf]. destruct (put_meta (device s) 1 b H5 ltac:(lia) Hb) as [d E].
  destruct (put_get _ _ _ _ Hb E) as [Hg Ho].
  unfold flush_inodes, sbind at 1, sread, sbind at 1, store, on_device at 1. cbn [device with_superblock with_inode_bitmap inode_bitmap].
  rewrite E. unfold sbind, sread. cbn [superblock with_superblock with_device with_inode_bitmap inode_bitmap block_bitmap].
  apply (flush_superblock (mkHomeFs d sb b (block_bitmap s))); [eapply put_healthy, E; assumption|exact Hsb|cbn; lia|exact Hg|].
  cbn. rewrite Ho by lia. exact H2.
Qed.

Lemma flush_blocks_good s b sb : good s -> is_sector b -> same_layout (superblock s) sb ->
  exists s', flush_blocks (with_superblock (with_block_bitmap s b) sb) = Done (Ok tt, s') /\ good s'.
Proof.
  intros [H0 H1 H2 H3 H4 H5] Hb [Hsb Hf]. destruct (put_meta (device s) 2 b H5 ltac:(lia) Hb) as [d E].
  destruct (put_get _ _ _ _ Hb E) as [Hg Ho].
  unfold flush_blocks, sbind at 1, sread, sbind at 1, store, on_device at 1. cbn [device with_superblock with_block_bitmap block_bitmap].
  rewrite E. unfold sbind, sread. cbn [superblock with_superblock with_device with_block_bitmap inode_bitmap block_bitmap].
  apply (flush_superblock (mkHomeFs d sb (inode_bitmap s) b)); [eapply put_healthy, E; assumption|exact Hsb|cbn; lia| |exact Hg].
  cbn. rewrite Ho by lia. exact H1.
Qed.

(** ** Bitmaps *)

Lemma is_u8_lor a b : is_u8 a -> is_u8 b -> is_u8 (Z.lor a b).
Proof.
  unfold is_u8. change U8_MAX with (2 ^ 8 - 1). intros Ha Hb. split; [apply Z.lor_nonneg; lia|].
  destruct (decide (Z.lor a b = 0)) as [->|Hn]; [lia|]. assert (0 < Z.lor a b) by (assert (0 <= Z.lor a b) by (apply Z.lor_nonneg; lia); lia).
  enough (Z.lor a b < 2 ^ 8) by lia. apply Z.log2_lt_pow2; [lia|]. rewrite Z.log2_lor by lia.
  apply Z.max_lub_lt; [destruct (decide (a = 0)) as [->|]|destruct (decide (b = 0)) as [->|]]; try (cbn; lia);
    apply Z.log2_lt_pow2; lia.
Qed.

Lemma is_u8_land a b : is_u8 a -> 0 <= b -> is_u8 (Z.land a b).
Proof.
  unfold is_u8. change U8_MAX with (2 ^ 8 - 1). intros Ha Hb. assert (0 <= Z.land a b) by (apply Z.land_nonneg; lia).
  split; [assumption|]. destruct (decide (Z.land a b = 0)) as [->|Hn]; [lia|]. destruct (decide (a = 0)) as [->|]; [done|].
  enough (Z.land a b < 2 ^ 8) by lia. apply Z.log2_lt_pow2; [lia|].
  pose proof (Z.log2_land a b ltac:(lia) Hb). assert (Z.log2 a < 8) by (apply Z.log2_lt_pow2; lia). lia.
Qed.

Lemma mask_of_u8 num : is_u8 (mask_of num).
Proof.
  unfold mask_of, is_u8. rewrite Z.shiftl_mul_pow2 by lia. assert (0 <= num mod 8 < 8) as H by lia.
  assert (2 ^ (num mod 8) <= 2 ^ 7) by (apply Z.pow_le_mono_r; lia). assert (0 < 2 ^ (num mod 8)) by lia. unfold U8_MAX. lia.
Qed.

Lemma set_bit_sector b num b' : is_sector b -> set_bit b num = Done b' -> is_sector b'.
Proof.
  intros [Hl Hb]. unfold set_bit. intros (byte & Hi & H)%bind_Done. unfold index_set in H. case_match; [|discriminate].
  injection H as <-. split; [now rewrite length_insert|]. apply Forall_insert; [exact Hb|].
  apply index_Done in Hi. apply is_u8_lor; [eapply Forall_lookup_1; eassumption|apply mask_of_u8].
Qed.

Lemma clear_bit_sector b num b' : is_sector b -> clear_bit b num = Done b' -> is_sector b'.
Proof.
  intros [Hl Hb]. unfold clear_bit. intros (byte & Hi & H)%bind_Done. unfold index_set in H. case_match; [|discriminate].
  injection H as <-. split; [now rewrite length_insert|]. apply Forall_insert; [exact Hb|].
  apply index_Done in Hi. apply is_u8_land; [eapply Forall_lookup_1; eassumption|].
  pose proof (mask_of_u8 num) as [Hm _]. apply Z.lxor_nonneg. unfold U8_MAX. lia.
Qed.

Lemma free_in_byte_usable usable byte byte_idx n : forall bit num,
  free_in_byte usable byte byte_idx bit n = Some num -> usable num = true /\ 0 <= num.
Proof.
  induction n as [|n IH]; intros bit num; cbn [free_in_byte]; [discriminate|].
  case_match eqn:E; [|apply IH]. intros [= <-]. apply andb_true_iff in E as [_ E]. split; [exact E|lia].
Qed.

Lemma free_in_map_usable usable bitmap n : forall byte_idx num,
  free_in_map usable bitmap byte_idx n = Done (Some num) -> usable num = true /\ 0 <= num.
Proof.
  induction n as [|n IH]; intros byte_idx num; cbn [free_in_map]; [discriminate|].
  intros (byte & _ & H)%bind_Done. destruct (if negb _ then _ else None) as [num'|] eqn:E; [|eapply IH, H].
  injection H as <-. destruct (negb _); [|discriminate]. eapply free_in_byte_usable, E.
Qed.

Lemma free_u32 s : good s -> is_u32 (free_blocks (superblock s)) /\ is_u32 (free_inodes (superblock s)).
Proof. intros Hs. destruct (g_ok _ Hs) as (_ & _ & H & _). forall_inv. auto. Qed.

Lemma keeps_allocate_inode : keeps allocate_inode (fun n => 1 <= n < MAX_INODES).
Proof.
  intros s r s' Hs. unfold allocate_inode, sbind at 1, sread. destruct (Z.eqb_spec (free_inodes (superblock s)) 0) as [|Hn];
    [intros [= <- <-]; auto|].
  unfold sbind at 1, sbind at 1, lift at 1.
  destruct (free_in_map _ _ _ _) as [[num|]|] eqn:E; cbn [bind]; [|intros [= <- <-]; auto|discriminate].
  unfold sbind at 1, lift. destruct (set_bit (inode_bitmap s) num) as [b|] eqn:Eb; cbn [bind]; [|discriminate].
  unfold sbind at 1, smodify. unfold sbind.
  destruct (flush_inodes_good s b (with_free (superblock s) (free_blocks (superblock s)) (free_inodes (superblock s) - 1)))
    as (s1 & -> & Hs1); [exact Hs|eapply set_bit_sector, Eb; now apply inodes_sector| |].
  { destruct (free_u32 s Hs). apply with_free_layout; [apply Hs|assumption|]. unfold is_u32 in *. lia. }
  intros [= <- <-]. split; [exact Hs1|]. apply free_in_map_usable in E as [E Hp]. unfold usable_inode in E. breflect. lia.
Qed.

Lemma keeps_allocate_block : keeps allocate_block (fun n => 0 <= n < MAX_DATA_BLOCKS).
Proof.
  intros s r s' Hs. unfold allocate_block, sbind at 1, sread. destruct (Z.eqb_spec (free_blocks (superblock s)) 0) as [|Hn];
    [intros [= <- <-]; auto|].
  unfold sbind at 1, sbind at 1, lift at 1.
  destruct (free_in_map _ _ _ _) as [[num|]|] eqn:E; cbn [bind]; [|intros [= <- <-]; auto|discriminate].
  unfold sbind at 1, lift. destruct (set_bit (block_bitmap s) num) as [b|] eqn:Eb; cbn [bind]; [|discriminate].
  unfold sbind at 1, smodify. unfold sbind.
  destruct (flush_blocks_good s b (with_free (superblock s) (free_blocks (superblock s) - 1) (free_inodes (superblock s))))
    as (s1 & -> & Hs1); [exact Hs|eapply set_bit_sector, Eb; now apply blocks_sector| |].
  { destruct (free_u32 s Hs). apply with_free_layout; [apply Hs| |assumption]. unfold is_u32 in *. lia. }
  intros [= <- <-]. split; [exact Hs1|]. apply free_in_map_usable in E as [E Hp]. unfold usable_block in E. breflect. lia.
Qed.

Lemma keeps_free_inode num : keeps (free_inode num) (fun _ => True).
Proof.
  intros s r s' Hs. unfold free_inode. destruct (_ || _); [intros [= <- <-]; auto|].
  unfold sbind at 1, sread at 1, sbind at 1, lift at 1. destruct (bit_is_set (inode_bitmap s) num) as [[|]|]; cbn [bind negb];
    [|intros [= <- <-]; auto|discriminate].
  unfold sbind at 1, lift. destruct (clear_bit (inode_bitmap s) num) as [b|] eqn:Eb; cbn [bind]; [|discriminate].
  unfold sbind at 1, sread, sbind at 1, add32. destruct (Z.leb_spec (free_inodes (superblock s) + 1) U32_MAX); [|discriminate].
  unfold sret, sbind, smodify.
  destruct (flush_inodes_good s b (with_free (superblock s) (free_blocks (superblock s)) (free_inodes (superblock s) + 1)))
    as (s1 & -> & Hs1); [exact Hs|eapply clear_bit_sector, Eb; now apply inodes_sector| |].
  { destruct (free_u32 s Hs). apply with_free_layout; [apply Hs|assumption|]. unfold is_u32 in *. lia. }
  intros [= <- <-]. auto.
Qed.

Lemma keeps_free_block num : keeps (free_block num) (fun _ => True).
Proof.
  intros s r s' Hs. unfold free_block. destruct (_ <=? _); [intros [= <- <-]; auto|].
  unfold sbind at 1, sread at 1, sbind at 1, lift at 1. destruct (bit_is_set (block_bitmap s) num) as [[|]|]; cbn [bind negb];
    [|intros [= <- <-]; auto|discriminate].
  unfold sbind at 1, lift. destruct (clear_bit (block_bitmap s) num) as [b|] eqn:Eb; cbn [bind]; [|discriminate].
  unfold sbind at 1, sread, sbind at 1, add32. destruct (Z.leb_spec (free_blocks (superblock s) + 1) U32_MAX); [|discriminate].
  unfold sret, sbind, smodify.
  destruct (flush_blocks_good s b (with_free (superblock s) (free_blocks (superblock s) + 1) (free_inodes (superblock s))))
    as (s1 & -> & Hs1); [exact Hs|eapply clear_bit_sector, Eb; now apply blocks_sector| |].
  { destruct (free_u32 s Hs). apply with_free_layout; [apply Hs| |assumption]. unfold is_u32 in *. lia. }
  intros [= <- <-]. auto.
Qed.

(** ** Inodes *)

Lemma field_bound b off n : bytes_ok b -> 0 <= field b off n < 256 ^ Z.of_nat n.
Proof.
  intros Hb. unfold field. assert (bytes_ok (sub_slice b off (off + n))) as Hs by (now apply Forall_take, Forall_drop).
  pose proof (from_le_bound _ Hs) as [H1 H2]. split; [exact H1|]. eapply Z.lt_le_trans; [exact H2|].
  apply Z.pow_le_mono_r; [lia|]. unfold sub_slice. rewrite length_take. lia.
Qed.

Lemma inode_of_ok b : bytes_ok b -> length b = INODE_SIZE -> inode_ok (inode_of b).
Proof.
  intros Hb Hl.
  assert (forall off, is_u32 (field b off 4)) as H4 by (intros off; pose proof (field_bound b off 4 Hb) as H; unfold is_u32, U32_MAX; lia).
  assert (forall off, is_u16 (field b off 2)) as H2 by (intros off; pose proof (field_bound b off 2 Hb) as H; unfold is_u16, U16_MAX; lia).
  constructor; cbn [inode_of inode_num file_type mode uid gid link_count size blocks_used direct_blocks padding];
    try (repeat (constructor; [auto|]); constructor).
  - rewrite length_sub_slice; [reflexivity|]. rewrite Hl. unfold INODE_SIZE. lia.
  - now apply Forall_take, Forall_drop.
Qed.

Lemma entry_of_ok b : bytes_ok b -> length b = DIR_ENTRY_SIZE -> entry_ok (entry_of b).
Proof.
  intros Hb Hl. constructor; cbn [entry_of de_inode name_len de_type de_padding name].
  - pose proof (field_bound b 0 4 Hb) as H. unfold is_u32, U32_MAX. lia.
  - pose proof (field_bound b 4 1 Hb) as H. unfold is_u8, U8_MAX. lia.
  - pose proof (field_bound b 5 1 Hb) as H. unfold is_u8, U8_MAX. lia.
  - pose proof (field_bound b 6 2 Hb) as H. unfold is_u16, U16_MAX. lia.
  - rewrite length_sub_slice; [reflexivity|]. rewrite Hl. unfold DIR_ENTRY_SIZE. lia.
  - now apply Forall_take, Forall_drop.
Qed.

(** What the operations need of an inode. *)
Record shape (i : Inode) : Prop := mkShape {
  sh_num : 0 <= inode_num i;
  sh_used : 0 <= blocks_used i;
  sh_blocks : Forall (Z.le 0) (direct_blocks i);
  sh_count : length (direct_blocks i) = MAX_DIRECT_BLOCKS;
  sh_pad_len : length (padding i) = 8%nat;
  sh_pad : bytes_ok (padding i)
}.

Lemma inode_ok_shape i : inode_ok i -> shape i.
Proof.
  intros [H1 H2 H3 H4 H5 H6]. forall_inv. constructor; try assumption; try (unfold is_u32 in *; lia).
  eapply Forall_impl; [exact H3|]. unfold is_u32. cbn. lia.
Qed.

Lemma spliced_sector b off new : is_sector b -> bytes_ok new -> (off + length new <= SECTOR_SIZE)%nat -> is_sector (splice b off new).
Proof.
  intros [Hl Hb] Hn Ho. split; [rewrite length_splice; lia|]. unfold splice.
  apply Forall_app_2; [now apply Forall_take|]. apply Forall_app_2; [exact Hn|now apply Forall_drop].
Qed.

Lemma inode_offset_bound num : (inode_offset num + INODE_SIZE <= SECTOR_SIZE)%nat.
Proof. unfold inode_offset, INODES_PER_SECTOR, INODE_SIZE, SECTOR_SIZE. lia. Qed.

Lemma keeps_read_inode num : keeps (read_inode num) shape.
Proof.
  unfold read_inode. destruct (bad_inode_num num); [apply keeps_fail|].
  eapply keeps_bind; [apply keeps_load|]. intros buf [Hl Hb]. apply keeps_ret, inode_ok_shape, inode_of_ok.
  - now apply Forall_take, Forall_drop.
  - pose proof (inode_offset_bound num). rewrite length_sub_slice; lia.
Qed.

Lemma keeps_write_inode i : shape i -> keeps (write_inode i) (fun _ => True).
Proof.
  intros Hi s r s' Hs. unfold write_inode, on_device, write_inode_direct.
  destruct (bad_inode_num (inode_num i)) eqn:Eb; [intros [= <- <-]; auto|].
  destruct (get (device s) (inode_sector (inode_num i))) as [buf|] eqn:E; cbn [result_bind]; [|intros [= <- <-]; auto].
  destruct (put _ _ _) as [d'|] eqn:Ep; [|intros [= <- <-]; auto]. intros [= <- <-]. split; [|exact I].
  unfold bad_inode_num in Eb. breflect. destruct Hi.
  eapply good_put; [exact Hs| | |exact Ep]; [unfold inode_sector, INODES_PER_SECTOR; lia|].
  apply spliced_sector; [eapply get_sector_ok, E|now apply inode_bytes_ok|].
  rewrite length_inode_bytes by assumption. apply inode_offset_bound.
Qed.

Lemma keeps_read_directory num : keeps (read_directory num) shape.
Proof.
  unfold read_directory. eapply keeps_bind; [apply keeps_read_inode|]. intros i Hi.
  destruct (negb _); [apply keeps_fail|now apply keeps_ret].
Qed.

Lemma keeps_read_regular num : keeps (read_regular num) shape.
Proof.
  unfold read_regular. eapply keeps_bind; [apply keeps_read_inode|]. intros i Hi.
  destruct (negb _); [apply keeps_fail|now apply keeps_ret].
Qed.

Lemma keeps_block_sector num : 0 <= num -> keeps (block_sector num) (fun n => 3 <= n).
Proof.
  intros Hn. unfold block_sector. eapply keeps_bind; [apply keeps_read with (Q := fun f => 3 <= f); apply g_first|].
  intros f Hf. apply keeps_add32. cbn beta in *. lia.
Qed.

Lemma keeps_block i idx : shape i -> keeps (lift (index (direct_blocks i) idx)) (fun b => 0 <= b).
Proof. intros Hi. apply keeps_lift. intros b Hb%index_Done. eapply Forall_lookup_1; [apply Hi|exact Hb]. Qed.

Lemma keeps_read_dir_entry sector idx : keeps (read_dir_entry sector idx) (fun _ => True).
Proof.
  unfold read_dir_entry. eapply keeps_bind; [apply keeps_load|]. intros buf _.
  destruct (_ <? _)%nat; [apply keeps_fail|now apply keeps_ret].
Qed.

Lemma keeps_write_dir_entry sector idx e : 3 <= sector -> length (name e) = MAX_FILENAME_LEN -> bytes_ok (name e) ->
  keeps (write_dir_entry sector idx e) (fun _ => True).
Proof.
  intros Hs Hl Hb. unfold write_dir_entry. eapply keeps_bind; [apply keeps_load|]. intros buf Hbuf.
  destruct (Nat.ltb_spec SECTOR_SIZE (idx * DIR_ENTRY_SIZE + DIR_ENTRY_SIZE)); [apply keeps_fail|].
  apply keeps_store; [exact Hs|]. apply spliced_sector; [exact Hbuf|now apply entry_bytes_ok|].
  rewrite length_entry_bytes by exact Hl. lia.
Qed.

Lemma name_array_ok bytes : (length bytes <= MAX_FILENAME_LEN)%nat -> bytes_ok bytes ->
  length (name_array bytes) = MAX_FILENAME_LEN /\ bytes_ok (name_array bytes).
Proof.
  intros Hl Hb. unfold name_array. split; [rewrite length_splice; rewrite length_replicate; [reflexivity|exact Hl]|].
  unfold splice. apply Forall_app_2; [constructor|]. apply Forall_app_2; [exact Hb|].
  apply Forall_drop, Forall_replicate. unfold is_u8, U8_MAX. lia.
Qed.

Lemma keeps_for_entries {A R} (I : A -> Prop) (Q : R -> Prop) i body (a : A) : shape i ->
  (forall sector idx e a, 3 <= sector -> I a -> keeps (body sector idx e a) (flow_ok I Q)) -> I a ->
  keeps (for_entries i body a) (flow_ok I Q).
Proof.
  intros Hi Hb Ha. unfold for_entries. apply keeps_loop; [|exact Ha]. clear a Ha. intros idx a Ha.
  destruct (_ <=? _)%nat; [now apply keeps_ret|]. eapply keeps_bind; [now apply keeps_block|]. intros b Hb0.
  destruct (b =? 0); [now apply keeps_ret|]. eapply keeps_bind; [now apply keeps_block_sector|]. intros sector Hs.
  apply keeps_loop; [|exact Ha]. clear a Ha. intros j a Ha. eapply keeps_bind; [apply keeps_read_dir_entry|]. intros e _.
  destruct (_ =? 0); [now apply keeps_ret|]. now apply Hb.
Qed.

Lemma keeps_entry_name e : keeps (entry_name e) (fun _ => True).
Proof.
  unfold entry_name. eapply keeps_bind; [apply keeps_lift with (Q := fun _ => True); auto|]. intros bytes _.
  destruct (from_utf8 bytes); [now apply keeps_ret|apply keeps_fail].
Qed.

(** ** The operations *)

Lemma keeps_lookup dir name : keeps (lookup_in_dir dir name) (fun _ => True).
Proof.
  unfold lookup_in_dir. destruct (_ <? _)%nat; [apply keeps_fail|]. eapply keeps_bind; [apply keeps_read_directory|].
  intros i Hi. eapply keeps_bind with (M := flow_ok (fun _ => True) (fun _ => True)).
  - apply keeps_for_entries; [exact Hi| |exact I]. intros sector idx e a _ _. eapply keeps_bind; [apply keeps_entry_name|].
    intros n _. destruct (bool_decide _); now apply keeps_ret.
  - intros [a|a|r] _; [apply keeps_fail..|now apply keeps_ret].
Qed.

Lemma keeps_find_slot i (found : Z -> nat -> fs unit) : shape i ->
  (forall sector idx, 3 <= sector -> keeps (found sector idx) (fun _ => True)) ->
  keeps (find_slot i found) (fun _ => True).
Proof.
  intros Hi Hf. unfold find_slot. apply keeps_weaken with (M := flow_ok (fun _ => True) (fun _ => True)); [|auto].
  apply keeps_loop; [|exact I]. intros idx a _. destruct (_ <=? _)%nat; [apply keeps_fail|].
  eapply keeps_bind; [now apply keeps_block|]. intros b Hb. eapply keeps_bind; [now apply keeps_block_sector|]. intros sector Hs.
  apply keeps_loop; [|exact I]. intros j a' _. eapply keeps_bind; [apply keeps_read_dir_entry|]. intros e _.
  destruct (_ =? 0); [|now apply keeps_ret]. eapply keeps_bind; [now apply Hf|]. intros r _. now apply keeps_ret.
Qed.

Lemma with_blocks_shape i sz used idx b blocks : shape i -> 0 <= used -> 0 <= b ->
  index_set (direct_blocks i) idx b = Done blocks -> shape (with_blocks i sz used blocks).
Proof.
  intros [] Hu Hb H. unfold index_set in H. case_match; [|discriminate]. injection H as <-. constructor; cbn; try assumption.
  - now apply Forall_insert.
  - now rewrite length_insert.
Qed.

Lemma zero_sector : is_sector (replicate 512 0).
Proof. split; [reflexivity|]. apply Forall_replicate. unfold is_u8, U8_MAX. lia. Qed.

Lemma keeps_add_dir_entry dir name child t : keeps (add_dir_entry dir name child t) (fun _ => True).
Proof.
  unfold add_dir_entry. destruct ((_ =? _)%nat || _) eqn:En; [apply keeps_fail|]. apply orb_false_iff in En as [_ En%Nat.ltb_ge].
  eapply keeps_bind; [apply keeps_attempt, keeps_lookup|]. intros r _. destruct (is_ok r); [apply keeps_fail|].
  eapply keeps_bind; [apply keeps_read_directory|]. intros i Hi.
  destruct (name_array_ok (bytes_of_string name) En (bytes_of_string_ok name)) as [Hl Hb].
  eapply keeps_bind; [apply keeps_find_slot; [exact Hi|]; intros sector idx Hs; now apply keeps_write_dir_entry|]. intros x _.
  assert (keeps (if Z.of_nat MAX_DIRECT_BLOCKS <=? blocks_used i then sfail NoSpace else
    let% new_block := allocate_block in
    let% blocks := lift (index_set (direct_blocks i) (Z.to_nat (blocks_used i)) new_block) in
    let% sector := block_sector new_block in
    let% _ := store sector (replicate 512 0) in
    let% _ := write_dir_entry sector 0 (new_entry child (bytes_of_string name) t) in
    write_inode (with_blocks i ((blocks_used i + 1) * Z.of_nat BLOCK_SIZE) (blocks_used i + 1) blocks)) (fun _ => True)) as Hn.
  { destruct (_ <=? _); [apply keeps_fail|]. eapply keeps_bind; [apply keeps_allocate_block|]. intros b Hb0.
    eapply keeps_bind; [apply keeps_lift; intros t0 H0; exact H0|]. intros blocks Hbl.
    eapply keeps_bind; [apply keeps_block_sector; klia|]. intros sector Hs.
    eapply keeps_bind; [apply keeps_store; [exact Hs|apply zero_sector]|]. intros _ _.
    eapply keeps_bind; [now apply keeps_write_dir_entry|]. intros _ _. apply keeps_write_inode.
    eapply with_blocks_shape; [exact Hi| |apply Hb0|exact Hbl]. pose proof (sh_used _ Hi). lia. }
  destruct x; [exact Hn..|now apply keeps_ret].
Qed.

Lemma keeps_rollback {T} (m : fs unit) e (Q : T -> Prop) : keeps m (fun _ => True) -> keeps (let% _ := attempt m in sfail e) Q.
Proof. intros Hm. eapply keeps_bind; [apply keeps_attempt, Hm|]. intros _ _. apply keeps_fail. Qed.

Lemma fresh_shape num ft md sz used blocks : 0 <= num -> 0 <= used -> Forall (Z.le 0) blocks -> length blocks = MAX_DIRECT_BLOCKS ->
  shape (mkInode num ft md 0 0 1 sz used blocks (replicate 8 0)).
Proof.
  intros. constructor; try assumption; [reflexivity|]. apply (Forall_replicate is_u8 8). unfold is_u8, U8_MAX. lia.
Qed.

Lemma keeps_create_file dir name md : keeps (create_file dir name md) (fun _ => True).
Proof.
  unfold create_file. eapply keeps_bind; [apply keeps_allocate_inode|]. intros num Hn.
  eapply keeps_bind; [apply keeps_write_inode, fresh_shape; [klia|klia|now apply Forall_replicate|reflexivity]|]. intros _ _.
  eapply keeps_bind; [apply keeps_attempt, keeps_add_dir_entry|]. intros [|e] _; [now apply keeps_ret|].
  apply keeps_rollback, keeps_free_inode.
Qed.

Lemma dir_block_sector num parent b1 b2 :
  write_dir_entry_to_buf (replicate 512 0) 0 (new_entry num dot Directory) = Done b1 ->
  write_dir_entry_to_buf b1 DIR_ENTRY_SIZE (new_entry parent dotdot Directory) = Done b2 -> is_sector b2.
Proof.
  unfold write_dir_entry_to_buf. intros (? & _ & [= <-])%bind_Done (? & _ & [= <-])%bind_Done.
  assert (forall n bytes, (length bytes <= MAX_FILENAME_LEN)%nat -> bytes_ok bytes ->
    length (entry_bytes (new_entry n bytes Directory)) = DIR_ENTRY_SIZE /\ bytes_ok (entry_bytes (new_entry n bytes Directory))) as He.
  { intros n bytes Hl Hb. destruct (name_array_ok bytes Hl Hb). split; [now apply length_entry_bytes|now apply entry_bytes_ok]. }
  assert (bytes_ok dot /\ bytes_ok dotdot) as [Hd Hdd] by (split; repeat (constructor; [unfold is_u8, U8_MAX; lia|]); constructor).
  destruct (He num dot) as [L1 B1]; [unfold MAX_FILENAME_LEN; cbn; lia|exact Hd|].
  destruct (He parent dotdot) as [L2 B2]; [unfold MAX_FILENAME_LEN; cbn; lia|exact Hdd|].
  apply spliced_sector; [apply spliced_sector; [apply zero_sector|exact B1|]|exact B2|]; rewrite ?L1, ?L2;
    unfold DIR_ENTRY_SIZE, SECTOR_SIZE; lia.
Qed.

Lemma keeps_create_directory parent name md : keeps (create_directory parent name md) (fun _ => True).
Proof.
  unfold create_directory. eapply keeps_bind; [apply keeps_allocate_inode|]. intros num Hn.
  eapply keeps_bind; [apply keeps_attempt, keeps_allocate_block|]. intros [b|e] Hb; [|apply keeps_rollback, keeps_free_inode].
  eapply keeps_bind; [apply keeps_block_sector; klia|]. intros sector Hs.
  eapply keeps_bind; [apply keeps_lift; intros t H; exact H|]. intros b1 H1.
  eapply keeps_bind; [apply keeps_lift; intros t H; exact H|]. intros b2 H2.
  eapply keeps_bind; [apply keeps_store; [exact Hs|exact (dir_block_sector _ _ _ _ H1 H2)]|]. intros _ _.
  eapply keeps_bind; [apply keeps_write_inode, fresh_shape; [klia|klia| |]|].
  - apply Forall_insert; [now apply Forall_replicate|klia].
  - now rewrite length_insert.
  - intros _ _. eapply keeps_bind; [apply keeps_attempt, keeps_add_dir_entry|]. intros [|e] _; [now apply keeps_ret|].
    eapply keeps_bind; [apply keeps_attempt, keeps_free_block|]. intros _ _. apply keeps_rollback, keeps_free_inode.
Qed.

Lemma keeps_read_loop fuel i : shape i -> forall offset to_read n buf, keeps (read_loop fuel i offset to_read n buf) (fun _ => True).
Proof.
  intros Hi. induction fuel as [|fuel IH]; intros offset to_read n buf; cbn [read_loop]; [apply keeps_panic|].
  destruct (negb _); [now apply keeps_ret|]. destruct (_ || _); [now apply keeps_ret|].
  eapply keeps_bind; [now apply keeps_block|]. intros b Hb. destruct (b =? 0); [now apply keeps_ret|].
  eapply keeps_bind; [now apply keeps_block_sector|]. intros sector Hs. eapply keeps_bind; [apply keeps_load|]. intros bb _. apply IH.
Qed.

Lemma keeps_read_file num offset buf : keeps (read_file num offset buf) (fun _ => True).
Proof.
  unfold read_file. eapply keeps_bind; [apply keeps_read_regular|]. intros i Hi. destruct (_ <=? _); [now apply keeps_ret|].
  now apply keeps_read_loop.
Qed.

Lemma keeps_grow n : forall i, shape i -> keeps (grow n i) shape.
Proof.
  induction n as [|n IH]; intros i Hi; cbn [grow]; [now apply keeps_ret|].
  eapply keeps_bind; [apply keeps_allocate_block|]. intros b Hb.
  eapply keeps_bind; [apply keeps_lift; intros t H; exact H|]. intros blocks Hbl. apply IH.
  eapply with_blocks_shape; [exact Hi| |apply Hb|exact Hbl]. pose proof (sh_used _ Hi). lia.
Qed.

Lemma keeps_write_loop fuel i buf : shape i -> bytes_ok buf -> forall offset n,
  keeps (write_loop fuel i offset n buf) (fun _ => True).
Proof.
  intros Hi Hb. induction fuel as [|fuel IH]; intros offset n; cbn [write_loop]; [apply keeps_panic|].
  destruct (negb _); [now apply keeps_ret|]. destruct (_ <=? _)%nat; [now apply keeps_ret|].
  eapply keeps_bind; [now apply keeps_block|]. intros b Hb0. destruct (b =? 0); [now apply keeps_ret|].
  eapply keeps_bind; [now apply keeps_block_sector|]. intros sector Hs. eapply keeps_bind; [apply keeps_load|]. intros bb Hbb.
  eapply keeps_bind; [apply keeps_store; [exact Hs|]|intros _ _; apply IH].
  apply spliced_sector; [exact Hbb|now apply Forall_take, Forall_drop|].
  unfold sub_slice. rewrite length_take. unfold BLOCK_SIZE, SECTOR_SIZE. lia.
Qed.

Lemma keeps_write_file num offset buf : bytes_ok buf -> keeps (write_file num offset buf) (fun _ => True).
Proof.
  intros Hb. unfold write_file. eapply keeps_bind; [apply keeps_read_regular|]. intros i Hi.
  eapply keeps_bind; [apply keeps_add64 with (Q := fun _ => True); auto|]. intros e _.
  eapply keeps_bind; [apply keeps_add64 with (Q := fun _ => True); auto|]. intros e2 _.
  destruct (_ <? _); [apply keeps_fail|]. eapply keeps_bind; [now apply keeps_grow|]. intros i1 Hi1.
  eapply keeps_bind; [now apply keeps_write_loop|]. intros n _.
  eapply keeps_bind; [apply keeps_write_inode|intros _ _; now apply keeps_ret].
  destruct (_ <? _); [|exact Hi1]. now destruct Hi1; constructor.
Qed.

Lemma keeps_remove_dir_entry dir name : keeps (remove_dir_entry dir name) (fun _ => True).
Proof.
  unfold remove_dir_entry. eapply keeps_bind; [apply keeps_read_directory|].
  intros i Hi. eapply keeps_bind with (M := flow_ok (fun _ => True) (fun _ => True)).
  - apply keeps_for_entries; [exact Hi| |exact I]. intros sector idx e a Hs _. eapply keeps_bind; [apply keeps_entry_name|].
    intros n _. destruct (bool_decide _); [|now apply keeps_ret].
    eapply keeps_bind; [apply keeps_write_dir_entry; [exact Hs|reflexivity|]|intros _ _; now apply keeps_ret].
    apply Forall_replicate. unfold is_u8, U8_MAX. lia.
  - intros [a|a|r] _; [apply keeps_fail..|now apply keeps_ret].
Qed.

Lemma keeps_free_blocks_of i : shape i -> keeps (free_blocks_of i) (fun _ => True).
Proof.
  intros Hi. unfold free_blocks_of. eapply keeps_bind with (M := flow_ok (fun _ => True) (fun _ => True)); [|intros _ _; now apply keeps_ret].
  apply keeps_loop; [|exact I]. intros idx a _. destruct (_ <=? _)%nat; [now apply keeps_ret|].
  eapply keeps_bind; [now apply keeps_block|]. intros b _. destruct (b =? 0); [now apply keeps_ret|].
  eapply keeps_bind; [apply keeps_free_block|]. intros _ _. now apply keeps_ret.
Qed.

Lemma keeps_unlink_file dir name : keeps (unlink_file dir name) (fun _ => True).
Proof.
  unfold unlink_file. eapply keeps_bind; [apply keeps_lookup|]. intros num _. eapply keeps_bind; [apply keeps_read_inode|].
  intros i Hi. destruct (_ =? _); [apply keeps_fail|]. eapply keeps_bind; [now apply keeps_free_blocks_of|]. intros _ _.
  eapply keeps_bind; [apply keeps_free_inode|]. intros _ _. apply keeps_remove_dir_entry.
Qed.

Lemma keeps_rmdir parent name : keeps (rmdir parent name) (fun _ => True).
Proof.
  unfold rmdir. eapply keeps_bind; [apply keeps_lookup|]. intros num _. eapply keeps_bind; [apply keeps_read_directory|].
  intros i Hi. eapply keeps_bind with (M := flow_ok (fun _ => True) (fun _ => True)).
  { apply keeps_for_entries; [exact Hi| |exact I]. intros. now apply keeps_ret. }
  intros x _. destruct (_ <? _)%nat; [apply keeps_fail|]. eapply keeps_bind; [now apply keeps_free_blocks_of|]. intros _ _.
  eapply keeps_bind; [apply keeps_free_inode|]. intros _ _. apply keeps_remove_dir_entry.
Qed.

Lemma keeps_rename od on nd nn : keeps (rename od on nd nn) (fun _ => True).
Proof.
  unfold rename. eapply keeps_bind; [apply keeps_lookup|]. intros num _. eapply keeps_bind; [apply keeps_read_inode|].
  intros i _. eapply keeps_bind; [apply keeps_attempt, keeps_lookup|]. intros r _. destruct (is_ok r); [apply keeps_fail|].
  eapply keeps_bind; [apply keeps_add_dir_entry|]. intros _ _. apply keeps_remove_dir_entry.
Qed.

Lemma keeps_readdir dir : keeps (readdir dir) (fun _ => True).
Proof.
  unfold readdir. eapply keeps_bind; [apply keeps_read_directory|]. intros i Hi.
  eapply keeps_bind with (M := flow_ok (fun _ => True) (fun _ => True)); [|intros x _; now apply keeps_ret].
  apply keeps_for_entries; [exact Hi| |exact I]. intros sector idx e a _ _. eapply keeps_bind; [apply keeps_entry_name|].
  intros n _. destruct (FileType_from_u32 _); [now apply keeps_ret|apply keeps_fail].
Qed.

Lemma keeps_truncate num : keeps (truncate num) (fun _ => True).
Proof.
  unfold truncate. eapply keeps_bind; [apply keeps_read_regular|]. intros i Hi.
  eapply keeps_bind; [now apply keeps_free_blocks_of|]. intros _ _. apply keeps_write_inode.
  destruct Hi. constructor; cbn [with_blocks inode_num blocks_used direct_blocks padding]; try assumption; [lia| |reflexivity].
  apply Forall_replicate. lia.
Qed.

Lemma keeps_chmod num m : keeps (chmod num m) (fun _ => True).
Proof.
  unfold chmod. eapply keeps_bind; [apply keeps_read_inode|]. intros i Hi. apply keeps_write_inode. now destruct Hi; constructor.
Qed.

Lemma discard_good {T} (m : fs T) Q s s' : keeps m Q -> good s -> discard m s = Done s' -> good s'.
Proof. intros Hm Hs. unfold discard. intros ([r s1] & E & [= <-])%bind_Done. now destruct (Hm _ _ _ Hs E). Qed.

Lemma perform_good o s s' : op_ok o -> good s -> perform o s = Done s' -> good s'.
Proof.
  intros Ho. destruct o; apply discard_good with (Q := fun _ => True);
    auto using keeps_create_file, keeps_create_directory, keeps_read_file, keeps_write_file, keeps_lookup,
      keeps_add_dir_entry, keeps_unlink_file, keeps_rmdir, keeps_rename, keeps_readdir, keeps_truncate, keeps_chmod.
Qed.

Lemma perform_all_good os : forall s s', Forall op_ok os -> good s -> perform_all os s = Done s' -> good s'.
Proof.
  induction os as [|o os IH]; intros s s' Ho Hs; cbn [perform_all]; [now intros [= <-]|].
  intros (s1 & E & H)%bind_Done. inversion Ho; subst. eapply IH; [eassumption| |exact H]. eapply perform_good; eassumption.
Qed.

(** ** Opening and creating *)

Lemma bind_ok_Ok {T U E} (r : result T E) (f : T -> outcome (result U E)) u :
  bind_ok (Done r) f = Done (Ok u) -> exists t, r = Ok t /\ f t = Done (Ok u).
Proof. destruct r; cbn; [eauto|discriminate]. Qed.

Lemma create_good (d : D) s : healthy d -> create d = Done (Ok s) -> good s.
Proof.
  intros Hd. unfold create. set (sb := mkSuperblock _ _ _ _ _ _ _ _ _ _ _ _ _). set (ib := <[_ := 2]> _).
  set (bb := <[_ := 1]> _). set (root := mkInode _ _ _ _ _ _ _ _ _ _).
  intros (d0 & E0 & (d1 & E1 & (d2 & E2 & (d3 & E3 & H)%bind_ok_Ok)%bind_ok_Ok)%bind_ok_Ok)%bind_ok_Ok.
  apply bind_Done in H as (b1 & B1 & (b2 & B2 & (d4 & E4 & [= <-])%bind_ok_Ok)%bind_Done).
  assert (sb_ok sb) as Hsb.
  { split; [reflexivity|]. split; [reflexivity|]. split; [|split; [reflexivity|apply Forall_replicate; unfold is_u8, U8_MAX; lia]].
    repeat (constructor; [unfold is_u32; vm_compute; split; discriminate|]). constructor. }
  assert (is_sector ib) as Hib by (split; [reflexivity|apply Forall_insert; [apply zero_sector|unfold is_u8, U8_MAX; lia]]).
  assert (is_sector bb) as Hbb by (split; [reflexivity|apply Forall_insert; [apply zero_sector|unfold is_u8, U8_MAX; lia]]).
  destruct (put_get _ _ _ _ (superblock_sector sb Hsb) E0) as [G0 O0].
  destruct (put_get _ _ _ _ Hib E1) as [G1 O1]. destruct (put_get _ _ _ _ Hbb E2) as [G2 O2].
  assert (good (mkHomeFs d2 sb ib bb)) as Hg2.
  { constructor; cbn [device superblock inode_bitmap block_bitmap]; rewrite ?O2, ?O1 by lia; try assumption; [cbn; lia|].
    eauto using put_healthy, superblock_sector. }
  assert (good (mkHomeFs d3 sb ib bb)) as Hg3.
  { eapply (keeps_write_inode root); [|exact Hg2|unfold write_inode, on_device; cbn [device]; rewrite E3; reflexivity].
    apply fresh_shape; [lia|lia|repeat (constructor; [lia|]); constructor|reflexivity]. }
  eapply (good_put (mkHomeFs d3 sb ib bb) 35); [exact Hg3|lia|eapply dir_block_sector; eassumption|exact E4].
Qed.

(** C17: the file system survives a remount. From a file system made by [create]
    on a disk whose first three sectors can be written, after any sequence of
    operations, whether they succeed or fail, opening the disk gives back
    exactly the file system there was: its superblock with the counts of free
    blocks and inodes, and both bitmaps. *)
Theorem remount_gives_back (d : D) s os s' :
  healthy d -> create d = Done (Ok s) -> Forall op_ok os -> perform_all os s = Done s' -> open (device s') = Ok s'.
Proof. intros Hd Hc Ho H. eapply good_open, perform_all_good; [exact Ho| |exact H]. eapply create_good; eassumption. Qed.

End Sync.

(** ** Examples *)

(** A blank disk of 1024 sectors, and the file system on it. *)
Definition blank : RamDisk := replicate 1024 (replicate 512 0).

Definition fresh : HomeFs RamDisk :=
  match create blank with Done (Ok s) => s | _ => mkHomeFs blank (superblock_of []) [] [] end.

Definition ops : list op :=
  [OpCreateFile 1 "notes" 0x1A4; OpWriteFile 2 0 [104; 105]; OpCreateDirectory 1 "src" 0x1ED; OpUnlink 1 "nothing"].

Definition after : HomeFs RamDisk := match perform_all ops fresh with Done s => s | Panicked => fresh end.

Lemma remount_gives_back_witness :
  open (device after) = Ok after /\ free_blocks (superblock after) = 986 /\ free_inodes (superblock after) = 253.
Proof.
  split; [|split; vm_compute; reflexivity].
  apply (remount_gives_back blank fresh ops after); [|vm_compute; reflexivity| |vm_compute; reflexivity].
  - apply Nat.leb_le. vm_compute. reflexivity.
  - repeat constructor; vm_compute; discriminate.
Defined.

End HomeSync.
