(* ===== verification/HomeFiles.v ===== *)
(** * Files and directories of the writable file system

    What src/kernel/src/homefs.rs does to the contents of files and directories:
    the allocator of blocks, writing and reading a file, adding and finding
    directory entries; the image that src/scripts/mkhomefs.py makes; and what
    goes wrong with the root directory. *)

From S2P Require Import Prelude Bytes Block Utf8 HomeFs HomeSync.
Import Bytes Block Utf8 HomeFs HomeSync.

Module HomeFiles.

(** A disk of 1024 sectors that works. *)
Class Working (D : Type) {BD : BlockDevice D} {RD : Reliable D} : Type := {
  intact : D -> Prop;
  intact_healthy : forall d, intact d -> healthy d;
  intact_read : forall d n, intact d -> 0 <= n < TOTAL_SECTORS -> exists b, read_sector d n = Ok b;
  intact_write : forall d n b, intact d -> 0 <= n < TOTAL_SECTORS -> is_sector b ->
    exists d', write_sector d n b = Ok d' /\ intact d'
}.

#[export, refine] Instance ram_working : Working RamDisk :=
  { intact := fun d => length d = Z.to_nat TOTAL_SECTORS /\ Forall is_sector d }.
Proof.
  - intros d [H _]. unfold healthy, ram_reliable. rewrite H. unfold TOTAL_SECTORS. lia.
  - intros d n [Hl Hd] Hn. cbn. unfold ram_read. rewrite (proj2 (Z.ltb_ge n 0)) by lia.
    destruct (lookup_lt_is_Some_2 d (Z.to_nat n)) as [b Hb]; [rewrite Hl; unfold TOTAL_SECTORS in *; lia|]. rewrite Hb.
    destruct (proj1 (Forall_lookup _ _) Hd _ _ Hb) as [Hlb Hbb]. rewrite Hlb, Nat.eqb_refl. cbn [andb].
    replace (forallb _ b) with true; [eauto|]. symmetry. apply forallb_forall. intros x Hx%list_elem_of_In.
    unfold bytes_ok in Hbb. rewrite Forall_forall in Hbb. specialize (Hbb x Hx). unfold is_u8 in Hbb. lia.
  - intros d n b [Hl Hd] Hn Hb. cbn. unfold ram_write. rewrite (proj2 (Z.ltb_ge n 0)), (proj2 (Z.leb_gt _ n)) by lia.
    eexists. split; [reflexivity|]. split; [now rewrite length_insert|]. now apply Forall_insert.
Defined.

(** ** Bitmaps *)

(** Bit [m] of a bitmap. *)
Definition used (bitmap : list Z) (m : nat) : bool :=
  match bitmap !! (m / 8)%nat with Some byte => Z.testbit byte (Z.of_nat (m mod 8)) | None => true end.

Lemma free_in_byte_spec usable byte idx n : forall bit,
  match free_in_byte usable byte idx bit n with
  | Some num => exists k, (bit <= k < bit + n)%nat /\ num = Z.of_nat (idx * 8 + k)
      /\ Z.testbit byte (Z.of_nat k) = false /\ usable num = true
  | None => forall k, (bit <= k < bit + n)%nat -> Z.testbit byte (Z.of_nat k) = true \/ usable (Z.of_nat (idx * 8 + k)) = false
  end.
Proof.
  induction n as [|n IH]; intros bit; cbn [free_in_byte]; [lia|].
  unfold bit_is_free. rewrite land_pow2_eqb by lia.
  destruct (Z.testbit byte (Z.of_nat bit)) eqn:Et; destruct (usable (Z.of_nat (idx * 8 + bit))) eqn:Eu; cbn [negb andb].
  all: try (exists bit; split; [lia|auto]; fail).
  all: specialize (IH (S bit)); destruct (free_in_byte usable byte idx (S bit) n);
    [destruct IH as (k & Hk & H); exists k; split; [lia|exact H]
    |intros k Hk; destruct (decide (k = bit)) as [->|]; [auto|apply IH; lia]].
Qed.

Lemma used_at bitmap idx k byte : bitmap !! idx = Some byte -> (k < 8)%nat -> used bitmap (idx * 8 + k) = Z.testbit byte (Z.of_nat k).
Proof.
  intros Hb Hk. unfold used. replace ((idx * 8 + k) / 8)%nat with idx by lia. replace ((idx * 8 + k) mod 8)%nat with k by lia.
  now rewrite Hb.
Qed.

Lemma free_in_map_spec usable bitmap n : forall idx, (idx + n <= length bitmap)%nat ->
  match free_in_map usable bitmap idx n with
  | Done (Some num) => exists m, (idx * 8 <= m < (idx + n) * 8)%nat /\ num = Z.of_nat m /\ used bitmap m = false /\ usable num = true
  | Done None => forall m, (idx * 8 <= m < (idx + n) * 8)%nat -> used bitmap m = true \/ usable (Z.of_nat m) = false
  | Panicked => False
  end.
Proof.
  induction n as [|n IH]; intros idx Hl; cbn [free_in_map]; [lia|].
  destruct (lookup_lt_is_Some_2 bitmap idx) as [byte Hb]; [lia|]. unfold index. rewrite Hb. cbn [bind].
  assert (match (if negb (byte =? 255) then free_in_byte usable byte idx 0 8 else None) with
    | Some num => exists k, (k < 8)%nat /\ num = Z.of_nat (idx * 8 + k) /\ Z.testbit byte (Z.of_nat k) = false /\ usable num = true
    | None => forall k, (k < 8)%nat -> Z.testbit byte (Z.of_nat k) = true \/ usable (Z.of_nat (idx * 8 + k)) = false
    end) as H.
  { destruct (Z.eqb_spec byte 255) as [->|_]; cbn [negb]; [intros k Hk; left; apply testbit_255; lia|].
    pose proof (free_in_byte_spec usable byte idx 8 0) as H. destruct (free_in_byte usable byte idx 0 8).
    - destruct H as (k & Hk & H). exists k. split; [lia|exact H].
    - intros k Hk. apply H. lia. }
  destruct (if negb _ then _ else None) as [num|].
  - destruct H as (k & Hk & -> & Ht & Hu). exists (idx * 8 + k)%nat. split; [lia|]. split; [reflexivity|].
    split; [|exact Hu]. now rewrite (used_at _ _ _ byte).
  - specialize (IH (S idx) ltac:(lia)). destruct (free_in_map usable bitmap (S idx) n) as [[num|]|]; [| |exact IH].
    + destruct IH as (m & Hm & IH). exists m. split; [lia|exact IH].
    + intros m Hm. destruct (decide (m < S idx * 8)%nat); [|apply IH; lia].
      specialize (H (m - idx * 8)%nat ltac:(lia)). rewrite <- (used_at bitmap idx _ byte) in H by (assumption || lia).
      now replace (idx * 8 + (m - idx * 8))%nat with m in H by lia.
Qed.

Lemma set_bit_used bitmap m : (m / 8 < length bitmap)%nat ->
  exists b, set_bit bitmap (Z.of_nat m) = Done b /\ length b = length bitmap /\ forall k, used b k = used bitmap k || (k =? m)%nat.
Proof.
  intros Hl. unfold set_bit, byte_of, mask_of. replace (Z.to_nat (Z.of_nat m / 8)) with (m / 8)%nat by lia.
  destruct (lookup_lt_is_Some_2 bitmap (m / 8)%nat Hl) as [byte Hb]. unfold index. rewrite Hb. cbn [bind].
  unfold index_set. rewrite (proj2 (Nat.ltb_lt _ _)) by exact Hl. eexists. split; [reflexivity|]. split; [apply length_insert|].
  intros k. unfold used. destruct (decide (k / 8 = m / 8)%nat) as [E|E].
  - rewrite E, list_lookup_insert_eq by exact Hl. rewrite Hb, testbit_lor_pow2 by lia. f_equal.
    destruct (Nat.eqb_spec k m) as [->|]; [apply Z.eqb_eq; lia|apply Z.eqb_neq; lia].
  - rewrite list_lookup_insert_ne by auto. rewrite (proj2 (Nat.eqb_neq k m)) by congruence. now rewrite orb_false_r.
Qed.

(** The blocks the allocator can give. *)
Definition BLOCKS : nat := Z.to_nat (MAX_DATA_BLOCKS / 8 * 8).
Definition free_count (bitmap : list Z) : nat := count_range (fun m => negb (used bitmap m)) 0 BLOCKS.

Lemma BLOCKS_val : BLOCKS = 984%nat.
Proof. reflexivity. Qed.

Section Files.
Context {D : Type} {BD : BlockDevice D} {RD : Reliable D} {WD : Working D}.

Notation HomeFs := (HomeFs D).
Notation fs T := (stm HomeFs HomeFsError T).

(** A file system in order: memory and disk agree, the data area is where the
    format has it, and block 0 is in use, as [create] leaves it. *)
Record ready (s : HomeFs) : Prop := mkReady {
  r_good : good s;
  r_intact : intact (device s);
  r_first : first_data_block (superblock s) = 35;
  r_zero : used (block_bitmap s) 0 = true
}.

Lemma get_intact (d : D) n : intact d -> 0 <= n < TOTAL_SECTORS -> exists b, get d n = Ok b /\ is_sector b.
Proof.
  intros Hd Hn. unfold get. destruct (intact_read d n Hd Hn) as [b E]. rewrite E. exists b. split; [reflexivity|].
  eapply read_sector_ok, E.
Qed.

Lemma put_intact (d : D) n b : intact d -> 0 <= n < TOTAL_SECTORS -> is_sector b -> exists d', put d n b = Ok d' /\ intact d'.
Proof. intros Hd Hn Hb. unfold put. destruct (intact_write d n b Hd Hn Hb) as (d' & -> & H). now exists d'. Qed.

(** The state after writing the block bitmap through. *)
Lemma flush_blocks_ready s b sb : ready s -> is_sector b -> same_layout (superblock s) sb -> used b 0 = true ->
  exists d, flush_blocks (with_superblock (with_block_bitmap s b) sb) = Done (Ok tt, mkHomeFs d sb (inode_bitmap s) b)
    /\ ready (mkHomeFs d sb (inode_bitmap s) b) /\ forall n, 3 <= n -> get d n = get (device s) n.
Proof.
  intros Hr Hb Hl Hz. destruct (flush_blocks_good s b sb (r_good _ Hr) Hb Hl) as (s' & E & Hg). revert E.
  unfold flush_blocks, sbind, sread, store, on_device. cbn [device with_superblock with_block_bitmap block_bitmap].
  destruct (put_intact (device s) 2 b (r_intact _ Hr) ltac:(unfold TOTAL_SECTORS; lia) Hb) as (d1 & E1 & H1). rewrite E1.
  cbn [superblock with_superblock with_device with_block_bitmap inode_bitmap block_bitmap device]. unfold write_superblock.
  pose proof (superblock_sector sb (proj1 Hl)) as Hsb.
  destruct (put_intact d1 0 (superblock_bytes sb) H1 ltac:(unfold TOTAL_SECTORS; lia) Hsb) as (d2 & E2 & H2). rewrite E2.
  intros [= <-]. exists d2. split; [reflexivity|]. split.
  - constructor; cbn; try assumption. rewrite (proj2 Hl). apply Hr.
  - intros n Hn. destruct (put_get _ _ _ _ Hb E1) as [_ O1]. destruct (put_get _ _ _ _ Hsb E2) as [_ O2].
    rewrite O2, O1 by lia. reflexivity.
Qed.

(** ** The allocator *)

Lemma bitmap_length s : ready s -> length (block_bitmap s) = 512%nat.
Proof. intros Hr. apply (blocks_sector s), Hr. Qed.

(** While there are free blocks, the allocator gives one of them, marks it and
    only it, and leaves the inodes and the data as they are. *)
Lemma allocate_block_spec s : ready s -> 0 < free_blocks (superblock s) -> (0 < free_count (block_bitmap s))%nat ->
  exists m s', allocate_block s = Done (Ok (Z.of_nat m), s') /\ ready s' /\ (0 < m < BLOCKS)%nat
    /\ used (block_bitmap s) m = false
    /\ (forall k, used (block_bitmap s') k = used (block_bitmap s) k || (k =? m)%nat)
    /\ (forall n, 3 <= n -> get (device s') n = get (device s) n)
    /\ free_blocks (superblock s') = free_blocks (superblock s) - 1.
Proof.
  intros Hr Hf Hc. pose proof (bitmap_length s Hr) as Hlen. unfold allocate_block, sbind at 1, sread.
  rewrite (proj2 (Z.eqb_neq _ _)) by lia. unfold sbind at 1, sbind at 1, lift at 1.
  change (Z.to_nat (MAX_DATA_BLOCKS / 8)) with 123%nat.
  pose proof (free_in_map_spec usable_block (block_bitmap s) 123 0 ltac:(lia)) as H.
  destruct (free_in_map usable_block (block_bitmap s) 0 123) as [[num|]|]; [|exfalso|destruct H].
  - destruct H as (m & Hm & -> & Hu & Hus). cbn [bind]. unfold sbind at 1, lift.
    destruct (set_bit_used (block_bitmap s) m ltac:(lia)) as (b & Eb & Hbl & Hbu). rewrite Eb. cbn [bind].
    unfold sbind at 1, smodify, sbind at 1.
    assert (m <> 0%nat) by (intros ->; rewrite (r_zero _ Hr) in Hu; discriminate Hu).
    destruct (flush_blocks_ready s b (with_free (superblock s) (free_blocks (superblock s) - 1) (free_inodes (superblock s))) Hr)
      as (d & -> & Hr' & Hd).
    + eapply set_bit_sector; [apply blocks_sector, Hr|exact Eb].
    + destruct (free_u32 s (r_good _ Hr)). apply with_free_layout; [apply Hr| |assumption]. unfold is_u32 in *. lia.
    + now rewrite Hbu, (r_zero _ Hr).
    + exists m. eexists. split; [reflexivity|]. split; [exact Hr'|]. rewrite BLOCKS_val. split; [lia|]. auto.
  - apply Nat.lt_nge in Hc. apply Hc. unfold free_count. rewrite BLOCKS_val, count_range_none; [lia|].
    intros m Hm. destruct (H m ltac:(lia)) as [->|Hu]; [reflexivity|].
    unfold usable_block, MAX_DATA_BLOCKS, TOTAL_SECTORS in Hu. breflect. lia.
Qed.

Lemma free_count_used b b' m : (m < BLOCKS)%nat -> used b m = false -> (forall k, used b' k = used b k || (k =? m)%nat) ->
  free_count b = S (free_count b').
Proof.
  intros Hm Hu Hb. unfold free_count.
  rewrite (count_range_remove (fun k => negb (used b k)) BLOCKS 0 m); [|lia|now rewrite Hu].
  f_equal. apply count_range_ext. intros k _. rewrite Hb, negb_orb, andb_comm, (Nat.eqb_sym k m). reflexivity.
Qed.

(** ** Files *)

(** The blocks of a file. *)
Definition file_blocks (i : Inode) : list Z := take (Z.to_nat (blocks_used i)) (direct_blocks i).

Record file_ok (s : HomeFs) (i : Inode) : Prop := mkFileOk {
  f_inode : inode_ok i;
  f_num : 0 < inode_num i <= MAX_INODES;
  f_used : blocks_used i <= Z.of_nat MAX_DIRECT_BLOCKS;
  f_nodup : NoDup (file_blocks i);
  f_blocks : Forall (fun b => 0 < b < MAX_DATA_BLOCKS /\ used (block_bitmap s) (Z.to_nat b) = true) (file_blocks i);
  f_size : size i <= blocks_used i * Z.of_nat BLOCK_SIZE
}.

Lemma used_nonneg s i : file_ok s i -> 0 <= blocks_used i.
Proof. intros [[H _ _ _ _ _] _ _ _ _ _]. forall_inv. unfold is_u32 in *. lia. Qed.

Lemma length_file_blocks s i : file_ok s i -> length (file_blocks i) = Z.to_nat (blocks_used i).
Proof. intros Hf. unfold file_blocks. rewrite length_take, (ok_count _ (f_inode _ _ Hf)). pose proof (f_used _ _ Hf). lia. Qed.

Lemma grow_step s i m s' : file_ok s i -> blocks_used i < Z.of_nat MAX_DIRECT_BLOCKS -> (0 < m < BLOCKS)%nat ->
  used (block_bitmap s) m = false -> (forall k, used (block_bitmap s') k = used (block_bitmap s) k || (k =? m)%nat) ->
  exists blocks, index_set (direct_blocks i) (Z.to_nat (blocks_used i)) (Z.of_nat m) = Done blocks
    /\ let i' := with_blocks i (size i) (blocks_used i + 1) blocks in
       file_ok s' i' /\ file_blocks i' = file_blocks i ++ [Z.of_nat m].
Proof.
  intros Hf Hu Hm Hfree Hb. pose proof (used_nonneg _ _ Hf) as Hn. pose proof (ok_count _ (f_inode _ _ Hf)) as Hl.
  unfold index_set. rewrite (proj2 (Nat.ltb_lt _ _)) by lia. eexists. split; [reflexivity|].
  assert (file_blocks (with_blocks i (size i) (blocks_used i + 1) (<[Z.to_nat (blocks_used i) := Z.of_nat m]> (direct_blocks i)))
    = file_blocks i ++ [Z.of_nat m]) as E.
  { unfold file_blocks. cbn. replace (Z.to_nat (blocks_used i + 1)) with (S (Z.to_nat (blocks_used i))) by lia.
    rewrite (take_S_r _ _ (Z.of_nat m)) by (apply list_lookup_insert_eq; lia). now rewrite take_insert_ge by lia. }
  split; [|exact E]. destruct Hf as [Hi Hnum Hu8 Hd Hbl Hs]. rewrite BLOCKS_val in Hm.
  constructor; cbn [with_blocks blocks_used inode_num size]; try assumption; try lia.
  - destruct Hi as [H1 H2 H3 H4 H5 H6]. constructor; cbn; try assumption; [| |now rewrite length_insert].
    + forall_inv. repeat (constructor; [assumption|]). constructor; [unfold is_u32, U32_MAX, MAX_DIRECT_BLOCKS in *; lia|constructor].
    + apply Forall_insert; [assumption|unfold is_u32, U32_MAX; lia].
  - rewrite E. apply NoDup_app. split; [exact Hd|]. split; [|apply NoDup_singleton].
    intros x Hx ->%list_elem_of_singleton. rewrite Forall_forall in Hbl. destruct (Hbl _ Hx) as [_ H]. rewrite Nat2Z.id in H. congruence.
  - rewrite E. apply Forall_app_2.
    + eapply Forall_impl; [exact Hbl|]. intros x [H1 H2]. split; [exact H1|]. now rewrite Hb, H2.
    + constructor; [|constructor]. rewrite Nat2Z.id, Hb, Nat.eqb_refl, orb_true_r. split; [|reflexivity].
      unfold MAX_DATA_BLOCKS, TOTAL_SECTORS. lia.
Qed.

Lemma grow_spec n : forall s i, ready s -> file_ok s i -> blocks_used i + Z.of_nat n <= Z.of_nat MAX_DIRECT_BLOCKS ->
  Z.of_nat n <= free_blocks (superblock s) -> (n <= free_count (block_bitmap s))%nat ->
  exists i' s' ext, grow n i s = Done (Ok i', s') /\ ready s' /\ file_ok s' i'
    /\ blocks_used i' = blocks_used i + Z.of_nat n /\ size i' = size i /\ inode_num i' = inode_num i /\ file_type i' = file_type i
    /\ file_blocks i' = file_blocks i ++ ext /\ Forall (fun b => used (block_bitmap s) (Z.to_nat b) = false) ext
    /\ (forall k, used (block_bitmap s) k = true -> used (block_bitmap s') k = true)
    /\ (forall k, 3 <= k -> get (device s') k = get (device s) k).
Proof.
  induction n as [|n IH]; intros s i Hr Hf Hu Hb Hc; cbn [grow].
  { exists i, s, []. rewrite app_nil_r. repeat split; auto; try apply Hr; try apply Hf; lia. }
  destruct (allocate_block_spec s Hr) as (m & s1 & E & Hr1 & Hm & Hfree & Hb1 & Hd1 & Hf1); [lia..|].
  destruct (grow_step s i m s1 Hf ltac:(lia) Hm Hfree Hb1) as (blocks & Ei & Hf2 & Hbl2).
  pose proof (free_count_used _ _ m (proj2 Hm) Hfree Hb1) as Hcount.
  unfold sbind at 1. rewrite E. unfold sbind at 1, lift. rewrite Ei. cbn [bind].
  destruct (IH s1 _ Hr1 Hf2) as (i' & s' & ext & Eg & Hr' & Hf' & Hu' & Hs' & Hn' & Ht' & Hbl' & Hext & Hk' & Hd');
    [cbn [with_blocks blocks_used]; lia|lia|lia|].
  exists i', s', (Z.of_nat m :: ext). split; [exact Eg|]. split; [exact Hr'|]. split; [exact Hf'|].
  split; [rewrite Hu'; cbn [with_blocks blocks_used]; lia|]. split; [exact Hs'|]. split; [exact Hn'|]. split; [exact Ht'|].
  split; [rewrite Hbl', Hbl2, <- app_assoc; reflexivity|]. split; [|split].
  - constructor; [now rewrite Nat2Z.id|]. eapply Forall_impl; [exact Hext|]. cbn. intros x Hx. rewrite Hb1 in Hx.
    now apply orb_false_iff in Hx as [Hx _].
  - intros k Hk. apply Hk'. now rewrite Hb1, Hk.
  - intros k Hk. rewrite Hd', Hd1 by exact Hk. reflexivity.
Qed.

(** The contents of blocks, one after the other. *)
Definition contents (d : D) (b : Z) : list Z := match get d (35 + b) with Ok x => x | Err _ => [] end.
Definition flat (d : D) (blocks : list Z) : list Z := concat (map (contents d) blocks).

Definition in_range (b : Z) : Prop := 0 < b < MAX_DATA_BLOCKS.

Lemma block_get (d : D) b : intact d -> in_range b -> get d (35 + b) = Ok (contents d b) /\ is_sector (contents d b).
Proof.
  intros Hd Hb. unfold in_range, MAX_DATA_BLOCKS, TOTAL_SECTORS in Hb. unfold contents.
  destruct (get_intact d (35 + b) Hd) as (x & -> & Hx); [unfold TOTAL_SECTORS; lia|]. auto.
Qed.

Lemma splice_middle {A} (a x b new : list A) off : (off + length new <= length x)%nat ->
  splice (a ++ x ++ b) (length a + off) new = a ++ splice x off new ++ b.
Proof.
  intros H. unfold splice. rewrite take_app_add', take_app_le by (reflexivity || lia).
  rewrite <- !app_assoc. do 3 f_equal. rewrite <- Nat.add_assoc, drop_app_add', drop_app_le by (reflexivity || lia). reflexivity.
Qed.

Lemma sub_slice_inside {A} (a x b : list A) lo hi : (lo <= hi <= length x)%nat ->
  sub_slice (a ++ x ++ b) (length a + lo) (length a + hi) = sub_slice x lo hi.
Proof.
  intros H. unfold sub_slice. rewrite drop_app_add' by reflexivity. rewrite drop_app_le, take_app_le by (rewrite ?length_drop; lia).
  f_equal. lia.
Qed.

(** A block of a file is a part of its contents. *)
Lemma flat_split (d : D) blocks k b : intact d -> Forall in_range blocks -> blocks !! k = Some b ->
  exists l1 l2, flat d blocks = l1 ++ contents d b ++ l2 /\ length l1 = (k * BLOCK_SIZE)%nat
    /\ forall d', intact d' -> (forall c, c ∈ blocks -> c <> b -> contents d' c = contents d c) -> NoDup blocks ->
       flat d' blocks = l1 ++ contents d' b ++ l2.
Proof.
  intros Hd. revert k. induction blocks as [|c blocks IH]; intros k Hr Hk; [discriminate|]. inversion Hr; subst.
  unfold flat. cbn [map concat]. destruct k as [|k].
  - injection Hk as ->. exists [], (flat d blocks). split; [reflexivity|]. split; [reflexivity|].
    intros d' Hd' Hsame Hnd. inversion Hnd; subst. cbn [app]. f_equal. unfold flat. f_equal. apply map_ext_in. intros c Hc.
    apply Hsame; [right; now apply list_elem_of_In|]. intros ->. apply list_elem_of_In in Hc. contradiction.
  - change (blocks !! k = Some b) in Hk. destruct (IH k) as (l1 & l2 & E & Hl & H); [assumption|exact Hk|]. exists (contents d c ++ l1), l2.
    split; [unfold flat in E; rewrite E, <- app_assoc; reflexivity|]. split.
    + rewrite length_app, Hl. destruct (block_get d c Hd) as [_ [-> _]]; [assumption|]. cbn. lia.
    + intros d' Hd' Hsame Hnd. inversion Hnd; subst. unfold flat in H.
      rewrite H; [|assumption|intros x Hx; apply Hsame; now right|assumption].
      rewrite (Hsame c); [now rewrite <- app_assoc|left|]. intros ->. apply list_elem_of_lookup_2 in Hk. contradiction.
Qed.

Lemma length_flat (d : D) blocks : intact d -> Forall in_range blocks -> length (flat d blocks) = (length blocks * BLOCK_SIZE)%nat.
Proof.
  intros Hd. induction blocks as [|b blocks IH]; intros Hr; [reflexivity|]. inversion Hr; subst. unfold flat in *. cbn [map concat length].
  rewrite length_app, IH by assumption. destruct (block_get d b Hd) as [_ [-> _]]; [assumption|]. cbn. lia.
Qed.

Lemma block_sector_run s b : ready s -> in_range b -> block_sector b s = Done (Ok (35 + b), s).
Proof.
  intros Hr Hb. unfold block_sector, sbind, sread. rewrite (r_first _ Hr). unfold add32.
  rewrite (proj2 (Z.leb_le _ _)); [reflexivity|]. unfold in_range, MAX_DATA_BLOCKS, TOTAL_SECTORS, U32_MAX in *. lia.
Qed.

Lemma load_block_run s b : ready s -> in_range b -> load (35 + b) s = Done (Ok (contents (device s) b), s).
Proof. intros Hr Hb. unfold load. now rewrite (proj1 (block_get _ b (r_intact _ Hr) Hb)). Qed.

Lemma file_block_at s i k : file_ok s i -> (k < length (file_blocks i))%nat ->
  exists b, index (direct_blocks i) k = Done b /\ file_blocks i !! k = Some b /\ in_range b /\ (b =? 0) = false.
Proof.
  intros Hf Hk. destruct (lookup_lt_is_Some_2 _ _ Hk) as [b Hb]. exists b.
  destruct (proj1 (Forall_lookup _ _) (f_blocks _ _ Hf) _ _ Hb) as [Hr _].
  split; [apply index_Done; unfold file_blocks in Hb; now apply lookup_take_Some in Hb as [Hb _]|].
  split; [exact Hb|]. split; [exact Hr|]. apply Z.eqb_neq. lia.
Qed.

Lemma file_in_range s i : file_ok s i -> Forall in_range (file_blocks i).
Proof. intros Hf. eapply Forall_impl; [apply (f_blocks _ _ Hf)|]. intros b [H _]. exact H. Qed.

(** What a turn of either loop covers of the file. *)
Lemma chunk_facts p len n : (n < len)%nat ->
  let k := (p / BLOCK_SIZE)%nat in let o := (p mod BLOCK_SIZE)%nat in
  let c := Nat.min (BLOCK_SIZE - o) (len - n) in
  p = (k * BLOCK_SIZE + o)%nat /\ (o + c <= BLOCK_SIZE)%nat /\ (0 < c)%nat /\ (n + c <= len)%nat
  /\ (n + c = len \/ ((p + c) / BLOCK_SIZE = S k))%nat.
Proof. unfold BLOCK_SIZE. cbn zeta. lia. Qed.

Lemma sub_slice_cat {A} (l : list A) x y z : (x <= y <= z)%nat -> sub_slice l x y ++ sub_slice l y z = sub_slice l x z.
Proof.
  intros H. unfold sub_slice. replace (z - x)%nat with ((y - x) + (z - y))%nat by lia.
  rewrite <- take_take_drop, drop_drop. do 3 f_equal. lia.
Qed.

Section Loops.
Context (i : Inode) (offset : nat).

Lemma read_loop_spec s to_read fuel : ready s -> file_ok s i -> (offset + to_read <= length (file_blocks i) * BLOCK_SIZE)%nat ->
  forall n buf, (n <= to_read <= length buf)%nat -> (1 <= fuel)%nat -> (n < to_read -> 10 <= fuel + (offset + n) / BLOCK_SIZE)%nat ->
  read_loop fuel i offset to_read n buf s
  = Done (Ok (to_read, splice buf n (sub_slice (flat (device s) (file_blocks i)) (offset + n) (offset + to_read))), s).
Proof.
  intros Hr Hf Hlen. pose proof (length_file_blocks _ _ Hf) as Hlb. pose proof (f_used _ _ Hf) as Hu8.
  unfold MAX_DIRECT_BLOCKS in Hu8. pose proof (length_flat (device s) _ (r_intact _ Hr) (file_in_range _ _ Hf)) as HF.
  induction fuel as [|fuel IH]; intros n buf Hn Hf1 Hf2; [lia|]. cbn [read_loop].
  destruct (Nat.ltb_spec n to_read) as [Hlt|Hge]; cbn [negb].
  2:{ replace n with to_read by lia. unfold sub_slice. rewrite Nat.sub_diag, take_0, splice_nil. reflexivity. }
  destruct (chunk_facts (offset + n) to_read n Hlt) as (Hp & Hoc & Hc & Hnc & Hnext). specialize (Hf2 Hlt).
  set (k := ((offset + n) / BLOCK_SIZE)%nat) in *. set (o := ((offset + n) mod BLOCK_SIZE)%nat) in *.
  set (c := Nat.min (BLOCK_SIZE - o) (to_read - n)) in *. clearbody c o k.
  assert (k < length (file_blocks i))%nat as Hk by (unfold BLOCK_SIZE in *; lia).
  rewrite (proj2 (Nat.leb_gt _ _)), (proj2 (Z.leb_gt _ _)) by (unfold MAX_DIRECT_BLOCKS; lia). cbn [orb].
  destruct (file_block_at s i k Hf Hk) as (b & Ei & Hb & Hrange & H0). unfold sbind at 1, lift. rewrite Ei. cbn [bind].
  rewrite H0. unfold sbind at 1. rewrite block_sector_run by assumption. unfold sbind at 1. rewrite load_block_run by assumption.
  destruct (flat_split (device s) _ k b (r_intact _ Hr) (file_in_range _ _ Hf) Hb) as (l1 & l2 & E & Hl1 & _).
  destruct (block_get _ b (r_intact _ Hr) Hrange) as [_ [Hcl _]]. change SECTOR_SIZE with BLOCK_SIZE in Hcl.
  assert (sub_slice (contents (device s) b) o (o + c) = sub_slice (flat (device s) (file_blocks i)) (offset + n) (offset + (n + c))) as Hsub.
  { rewrite E. replace (offset + n)%nat with (length l1 + o)%nat by lia. replace (offset + (n + c))%nat with (length l1 + (o + c))%nat by lia.
    rewrite sub_slice_inside by lia. reflexivity. }
  assert (length (sub_slice (contents (device s) b) o (o + c)) = c) as Hsl by (rewrite length_sub_slice; lia).
  rewrite IH; [|rewrite length_splice; lia|unfold BLOCK_SIZE in *; lia|rewrite Nat.add_assoc; lia].
  rewrite Hsub in *. rewrite <- (sub_slice_cat _ (offset + n) (offset + (n + c)) (offset + to_read)) by lia.
  rewrite <- splice_app by (rewrite Hsl, length_sub_slice; lia). now rewrite Hsl.
Qed.

(** The file system after writes to the data area. *)
Definition same_meta (s s' : HomeFs) : Prop :=
  superblock s' = superblock s /\ inode_bitmap s' = inode_bitmap s /\ block_bitmap s' = block_bitmap s.

Lemma store_block s b x : ready s -> in_range b -> is_sector x ->
  exists s', store (35 + b) x s = Done (Ok tt, s') /\ ready s' /\ same_meta s s'
    /\ get (device s') (35 + b) = Ok x /\ forall k, k <> 35 + b -> get (device s') k = get (device s) k.
Proof.
  intros Hr Hb Hx. unfold in_range, MAX_DATA_BLOCKS, TOTAL_SECTORS in Hb.
  destruct (put_intact (device s) (35 + b) x (r_intact _ Hr)) as (d' & E & Hd'); [unfold TOTAL_SECTORS; lia|exact Hx|].
  unfold store, on_device. rewrite E. exists (with_device s d'). split; [reflexivity|]. split.
  - constructor; [|exact Hd'|apply (r_first _ Hr)|apply (r_zero _ Hr)]. eapply (good_put s (35 + b)); [apply Hr|lia|exact Hx|exact E].
  - split; [now split|]. apply (put_get _ _ _ _ Hx E).
Qed.

Lemma file_ok_meta s s' j : same_meta s s' -> file_ok s j -> file_ok s' j.
Proof. intros (_ & _ & E) []. constructor; try assumption. now rewrite E. Qed.

Lemma home_write_loop_spec buf fuel : bytes_ok buf -> (offset + length buf <= length (file_blocks i) * BLOCK_SIZE)%nat ->
  forall n s, ready s -> file_ok s i -> (n <= length buf)%nat -> (1 <= fuel)%nat ->
  (n < length buf -> 10 <= fuel + (offset + n) / BLOCK_SIZE)%nat ->
  exists s', write_loop fuel i offset n buf s = Done (Ok (length buf), s') /\ ready s' /\ same_meta s s'
    /\ flat (device s') (file_blocks i) = splice (flat (device s) (file_blocks i)) (offset + n) (drop n buf)
    /\ forall k, (forall b, b ∈ file_blocks i -> k <> 35 + b) -> get (device s') k = get (device s) k.
Proof.
  intros Hbuf Hlen. induction fuel as [|fuel IH]; intros n s Hr Hf Hn Hf1 Hf2; [lia|]. cbn [write_loop].
  pose proof (length_file_blocks _ _ Hf) as Hlb. pose proof (f_used _ _ Hf) as Hu8. unfold MAX_DIRECT_BLOCKS in Hu8.
  pose proof (length_flat (device s) _ (r_intact _ Hr) (file_in_range _ _ Hf)) as HF.
  destruct (Nat.ltb_spec n (length buf)) as [Hlt|Hge]; cbn [negb].
  2:{ exists s. replace n with (length buf) by lia. rewrite drop_all, splice_nil. split; [reflexivity|]. split; [exact Hr|].
      split; [now split|]. auto. }
  destruct (chunk_facts (offset + n) (length buf) n Hlt) as (Hp & Hoc & Hc & Hnc & Hnext). specialize (Hf2 Hlt).
  set (k := ((offset + n) / BLOCK_SIZE)%nat) in *. set (o := ((offset + n) mod BLOCK_SIZE)%nat) in *.
  set (c := Nat.min (BLOCK_SIZE - o) (length buf - n)) in *. clearbody c o k.
  assert (k < length (file_blocks i))%nat as Hk by (unfold BLOCK_SIZE in *; lia).
  rewrite (proj2 (Nat.leb_gt _ _)) by (unfold MAX_DIRECT_BLOCKS; lia).
  destruct (file_block_at s i k Hf Hk) as (b & Ei & Hb & Hrange & H0). unfold sbind at 1, lift. rewrite Ei. cbn [bind].
  rewrite H0. unfold sbind at 1. rewrite block_sector_run by assumption. unfold sbind at 1. rewrite load_block_run by assumption.
  destruct (block_get _ b (r_intact _ Hr) Hrange) as [_ Hcs]. pose proof (proj1 Hcs) as Hcl.
  assert (length (sub_slice buf n (n + c)) = c) as Hsl by (rewrite length_sub_slice; lia).
  destruct (store_block s b (splice (contents (device s) b) o (sub_slice buf n (n + c))) Hr Hrange) as (s1 & Es & Hr1 & Hm1 & Hg1 & Ho1).
  { apply spliced_sector; [exact Hcs|now apply Forall_take, Forall_drop|]. rewrite Hsl. exact Hoc. }
  unfold sbind at 1. rewrite Es.
  destruct (IH (n + c)%nat s1 Hr1 (file_ok_meta _ _ _ Hm1 Hf)) as (s' & E' & Hr' & Hm' & Hflat & Hother);
    [lia|unfold BLOCK_SIZE in *; lia|rewrite Nat.add_assoc; lia|].
  exists s'. split; [exact E'|]. split; [exact Hr'|]. split; [destruct Hm1 as (?&?&?), Hm' as (?&?&?); repeat split; congruence|].
  split.
  - assert (flat (device s1) (file_blocks i) = splice (flat (device s) (file_blocks i)) (offset + n) (sub_slice buf n (n + c))) as H1.
    { destruct (flat_split (device s) _ k b (r_intact _ Hr) (file_in_range _ _ Hf) Hb) as (l1 & l2 & E & Hl1 & Hsame).
      rewrite (Hsame (device s1)); [|apply Hr1| |apply (f_nodup _ _ Hf)].
      - unfold contents at 1. rewrite Hg1, E. replace (offset + n)%nat with (length l1 + o)%nat by lia.
        rewrite splice_middle by (rewrite Hsl, Hcl; exact Hoc). reflexivity.
      - intros x _ Hx. unfold contents. rewrite Ho1 by lia. reflexivity. }
    rewrite Hflat, H1. rewrite Nat.add_assoc. replace (offset + n + c)%nat with (offset + n + length (sub_slice buf n (n + c)))%nat by lia.
    rewrite splice_app by (rewrite Hsl, length_drop; lia). f_equal. unfold sub_slice.
    replace (n + c - n)%nat with c by lia. rewrite <- (drop_drop buf c n). apply take_drop.
  - intros x Hx. rewrite Hother by exact Hx. apply Ho1, Hx. eapply list_elem_of_lookup_2, Hb.
Qed.

End Loops.

(** ** Inodes on the disk *)

Definition inode_slot (num : Z) (buf : list Z) : list Z := sub_slice buf (inode_offset num) (inode_offset num + INODE_SIZE).

Definition stored_inode (d : D) (num : Z) : Inode :=
  inode_of (inode_slot num (match get d (inode_sector num) with Ok buf => buf | Err _ => [] end)).

Definition valid_num (num : Z) : Prop := 0 < num <= MAX_INODES.

Lemma valid_num_ok num : valid_num num -> bad_inode_num num = false /\ 3 <= inode_sector num < 35.
Proof. unfold valid_num, bad_inode_num, inode_sector, INODES_PER_SECTOR, MAX_INODES. intros H. split; [apply orb_false_iff|]; lia. Qed.

Lemma read_inode_run s num : ready s -> valid_num num -> read_inode num s = Done (Ok (stored_inode (device s) num), s).
Proof.
  intros Hr Hn. destruct (valid_num_ok num Hn) as [Hb Hs]. unfold read_inode. rewrite Hb. unfold sbind, load, stored_inode.
  destruct (get_intact (device s) (inode_sector num) (r_intact _ Hr)) as (buf & -> & _); [unfold TOTAL_SECTORS; lia|]. reflexivity.
Qed.

Lemma slots_disjoint a b : valid_num a -> valid_num b -> a <> b -> inode_sector a = inode_sector b ->
  (inode_offset a + INODE_SIZE <= inode_offset b \/ inode_offset b + INODE_SIZE <= inode_offset a)%nat.
Proof. unfold valid_num, inode_sector, inode_offset, INODES_PER_SECTOR, INODE_SIZE. lia. Qed.

Lemma write_inode_spec s i : ready s -> inode_ok i -> valid_num (inode_num i) ->
  exists s', write_inode i s = Done (Ok tt, s') /\ ready s' /\ same_meta s s' /\ stored_inode (device s') (inode_num i) = i
    /\ (forall num, valid_num num -> num <> inode_num i -> stored_inode (device s') num = stored_inode (device s) num)
    /\ forall k, 35 <= k -> get (device s') k = get (device s) k.
Proof.
  intros Hr Hi Hn. destruct (valid_num_ok _ Hn) as [Hb Hs]. unfold write_inode, on_device, write_inode_direct. rewrite Hb.
  destruct (get_intact (device s) (inode_sector (inode_num i)) (r_intact _ Hr)) as (buf & Eg & Hbuf); [unfold TOTAL_SECTORS; lia|].
  rewrite Eg. cbn [result_bind]. pose proof (length_inode_bytes i (ok_count _ Hi) (ok_pad_len _ Hi)) as Hl.
  pose proof (inode_offset_bound (inode_num i)) as Hob. destruct Hbuf as [Hbl Hbb].
  assert (is_sector (splice buf (inode_offset (inode_num i)) (inode_bytes i))) as Hsec
    by (apply spliced_sector; [now split|apply inode_bytes_ok, Hi|lia]).
  destruct (put_intact (device s) (inode_sector (inode_num i)) _ (r_intact _ Hr) ltac:(unfold TOTAL_SECTORS; lia) Hsec) as (d' & Ep & Hd').
  rewrite Ep. exists (with_device s d'). split; [reflexivity|]. destruct (put_get _ _ _ _ Hsec Ep) as [Hg Ho]. split.
  { constructor; [|exact Hd'|apply (r_first _ Hr)|apply (r_zero _ Hr)]. eapply good_put; [apply Hr| |exact Hsec|exact Ep]. lia. }
  split; [now split|]. cbn [device with_device]. split; [|split].
  - unfold stored_inode. rewrite Hg. unfold inode_slot. rewrite <- Hl at 1. rewrite sub_slice_splice_same by lia. now apply inode_round_trip.
  - intros num Hv Hne. unfold stored_inode. destruct (decide (inode_sector num = inode_sector (inode_num i))) as [E|E].
    + rewrite E, Hg, Eg. f_equal. unfold inode_slot. apply sub_slice_splice_other; [lia|].
      pose proof (slots_disjoint num (inode_num i) Hv Hn Hne E). lia.
    + now rewrite Ho by exact E.
  - intros k Hk. apply Ho. lia.
Qed.

(** A regular file. *)
Record is_file (s : HomeFs) (num : Z) : Prop := mkIsFile {
  if_ok : file_ok s (stored_inode (device s) num);
  if_num : inode_num (stored_inode (device s) num) = num;
  if_type : file_type (stored_inode (device s) num) = type_num File
}.

Definition file_data (s : HomeFs) (num : Z) : list Z := flat (device s) (file_blocks (stored_inode (device s) num)).

Lemma is_file_valid s num : is_file s num -> valid_num num.
Proof. intros [H E _]. pose proof (f_num _ _ H). now rewrite E in *. Qed.

Lemma read_regular_run s num : ready s -> is_file s num -> read_regular num s = Done (Ok (stored_inode (device s) num), s).
Proof.
  intros Hr Hf. unfold read_regular, sbind. rewrite read_inode_run by (assumption || now apply is_file_valid in Hf).
  now rewrite (if_type _ _ Hf), Z.eqb_refl.
Qed.

(** Reading inside a file gives its bytes. *)
Lemma read_file_run s num a out : ready s -> is_file s num ->
  Z.of_nat (a + length out) <= size (stored_inode (device s) num) ->
  read_file num a out s = Done (Ok (length out, sub_slice (file_data s num) a (a + length out)), s).
Proof.
  intros Hr Hf Hs. unfold read_file, sbind. rewrite read_regular_run by assumption.
  set (i := stored_inode (device s) num) in *. destruct (Z.leb_spec (size i) (Z.of_nat a)) as [Hle|Hgt].
  - assert (length out = 0%nat) as E by lia. apply length_zero_iff_nil in E as ->. cbn. unfold sub_slice.
    now rewrite Nat.add_0_r, Nat.sub_diag, take_0.
  - replace (Z.to_nat (Z.min (Z.of_nat (length out)) (size i - Z.of_nat a))) with (length out) by lia.
    pose proof (if_ok _ _ Hf) as Hok. fold i in Hok. pose proof (f_size _ _ Hok). pose proof (length_file_blocks _ _ Hok) as Hlb.
    pose proof (used_nonneg _ _ Hok). pose proof (length_flat (device s) _ (r_intact _ Hr) (file_in_range _ _ Hok)) as HF.
    assert (a + length out <= length (file_blocks i) * BLOCK_SIZE)%nat as Hin by (unfold BLOCK_SIZE in *; lia).
    rewrite (read_loop_spec i a s (length out)) by (assumption || unfold LOOP_FUEL; lia). rewrite Nat.add_0_r.
    do 3 f_equal. unfold splice. rewrite take_0, drop_ge; [now rewrite app_nil_r|].
    rewrite length_sub_slice by lia. lia.
Qed.

(** The blocks that writing [len] bytes at [offset] needs beyond those there are. *)
Definition missing (i : Inode) (offset len : nat) : nat :=
  Z.to_nat ((Z.of_nat (offset + len) + Z.of_nat BLOCK_SIZE - 1) / Z.of_nat BLOCK_SIZE - blocks_used i).

(** The inode with the size that [write_file] gives it. *)
Definition resize (i : Inode) (end_offset : nat) : Inode :=
  if size i <? Z.of_nat end_offset then with_blocks i (Z.of_nat end_offset) (blocks_used i) (direct_blocks i) else i.

Lemma resize_ok s i e : file_ok s i -> (e <= length (file_blocks i) * BLOCK_SIZE)%nat ->
  file_ok s (resize i e) /\ file_blocks (resize i e) = file_blocks i /\ size (resize i e) = Z.max (size i) (Z.of_nat e)
  /\ inode_num (resize i e) = inode_num i /\ file_type (resize i e) = file_type i.
Proof.
  intros Hf He. pose proof (length_file_blocks _ _ Hf) as Hl. pose proof (used_nonneg _ _ Hf) as Hu. unfold resize.
  destruct (Z.ltb_spec (size i) (Z.of_nat e)) as [Hlt|Hge]; [|split; [exact Hf|]; repeat split; lia].
  split; [|repeat split; cbn; lia]. pose proof (f_used _ _ Hf) as Hu8. destruct Hf as [Hi H1 H2 H3 H4 H5].
  constructor; try assumption; [|cbn [with_blocks size blocks_used]; unfold BLOCK_SIZE in *; lia].
  destruct Hi as [W1 W2 W3 W4 W5 W6]. constructor; try assumption. forall_inv. cbn [with_blocks inode_num file_type size blocks_used].
  repeat (constructor; [first [assumption | unfold is_u32, U32_MAX, BLOCK_SIZE, MAX_DIRECT_BLOCKS in *; lia]|]). constructor.
Qed.

(** What [write_file] leaves: the file with its data, everything else. *)
Lemma write_file_spec s num offset buf : let i := stored_inode (device s) num in
  ready s -> is_file s num -> bytes_ok buf -> (offset + length buf <= MAX_DIRECT_BLOCKS * BLOCK_SIZE)%nat ->
  Z.of_nat (missing i offset (length buf)) <= free_blocks (superblock s) ->
  (missing i offset (length buf) <= free_count (block_bitmap s))%nat ->
  exists s' ext, write_file num offset buf s = Done (Ok (length buf), s') /\ ready s' /\ is_file s' num
    /\ size (stored_inode (device s') num) = Z.max (size i) (Z.of_nat (offset + length buf))
    /\ file_data s' num = splice (file_data s num ++ flat (device s) ext) offset buf
    /\ (offset + length buf <= length (file_data s num ++ flat (device s) ext))%nat
    /\ (forall b, used (block_bitmap s) b = true -> used (block_bitmap s') b = true)
    /\ (forall n, valid_num n -> n <> num -> stored_inode (device s') n = stored_inode (device s) n)
    /\ (forall b, used (block_bitmap s) (Z.to_nat b) = true -> 0 < b -> b ∉ file_blocks i -> contents (device s') b = contents (device s) b).
Proof.
  intros i Hr Hf Hbuf Hend Hfree Hcount. pose proof (if_ok _ _ Hf) as Hok. fold i in Hok. pose proof (used_nonneg _ _ Hok) as Hu0.
  unfold MAX_DIRECT_BLOCKS, BLOCK_SIZE in Hend.
  unfold write_file, sbind at 1. rewrite read_regular_run by assumption. fold i. unfold sbind at 1, add64 at 1.
  rewrite (proj2 (Z.leb_le _ _)) by (unfold U64_MAX; lia). unfold sret at 1, sbind at 1, add64.
  rewrite (proj2 (Z.leb_le _ _)) by (unfold U64_MAX, BLOCK_SIZE; lia). unfold sret at 1. rewrite <- Nat2Z.inj_add.
  rewrite (proj2 (Z.ltb_ge _ _)) by (unfold MAX_DIRECT_BLOCKS, BLOCK_SIZE; lia).
  set (n := missing i offset (length buf)) in *. unfold sbind at 1.
  change (Z.to_nat ((Z.of_nat (offset + length buf) + Z.of_nat BLOCK_SIZE - 1) / Z.of_nat BLOCK_SIZE - blocks_used i)) with n.
  destruct (grow_spec n s i Hr Hok) as (i1 & s1 & ext & Eg & Hr1 & Hok1 & Hu1 & Hs1 & Hn1 & Ht1 & Hbl1 & Hext & Hk1 & Hd1);
    [pose proof (f_used _ _ Hok); unfold n, missing, MAX_DIRECT_BLOCKS, BLOCK_SIZE in *; lia|exact Hfree|exact Hcount|].
  rewrite Eg. pose proof (length_file_blocks _ _ Hok1) as Hlb.
  assert (offset + length buf <= length (file_blocks i1) * BLOCK_SIZE)%nat as Hfit
    by (rewrite Hlb, Hu1; unfold n, missing, BLOCK_SIZE in *; lia).
  clearbody n. unfold sbind at 1.
  destruct (home_write_loop_spec i1 offset buf LOOP_FUEL Hbuf Hfit 0 s1 Hr1 Hok1) as (s2 & Ew & Hr2 & Hm2 & Hflat & Ho2);
    [lia|unfold LOOP_FUEL; lia..|]. rewrite Ew. rewrite Nat.add_0_r, drop_0 in Hflat.
  destruct (resize_ok s2 i1 (offset + length buf) (file_ok_meta _ _ _ Hm2 Hok1)) as (Hok2 & Hb2 & Hz2 & Hn2 & Ht2);
    [unfold BLOCK_SIZE in *; lia|]. fold (resize i1 (offset + length buf)). set (i2 := resize i1 (offset + length buf)) in *.
  assert (inode_num i2 = num) as Hnum by (rewrite Hn2, Hn1; apply (if_num _ _ Hf)).
  destruct (write_inode_spec s2 i2 Hr2 (f_inode _ _ Hok2) (f_num _ _ Hok2)) as (s3 & E3 & Hr3 & Hm3 & Hst & Hsto & Hd3).
  rewrite Hnum in *. unfold sbind. rewrite E3. exists s3, ext. split; [reflexivity|]. split; [exact Hr3|].
  assert (forall b, in_range b -> contents (device s3) b = contents (device s2) b) as Hc3
    by (intros b Hb; unfold contents; rewrite Hd3; [reflexivity|unfold in_range in Hb; lia]).
  assert (flat (device s1) (file_blocks i1) = file_data s num ++ flat (device s) ext) as H1.
  { unfold file_data. fold i. unfold flat. rewrite <- concat_app, <- map_app, <- Hbl1. f_equal. apply map_ext_in. intros b Hb%list_elem_of_In.
    pose proof (proj1 (Forall_forall _ _) (file_in_range _ _ Hok1) b Hb) as Hrb. unfold contents. rewrite Hd1; [reflexivity|].
    unfold in_range in Hrb. lia. }
  split; [constructor; rewrite Hst; [eapply file_ok_meta; eassumption|exact Hnum|rewrite Ht2, Ht1; apply (if_type _ _ Hf)]|].
  split; [rewrite Hst, Hz2, Hs1; reflexivity|]. split.
  { unfold file_data at 1. rewrite Hst, Hb2, <- H1, <- Hflat. unfold flat. f_equal. apply map_ext_in. intros b Hb%list_elem_of_In.
    apply Hc3. exact (proj1 (Forall_forall _ _) (file_in_range _ _ Hok1) b Hb). }
  split; [rewrite <- H1, (length_flat _ _ (r_intact _ Hr1) (file_in_range _ _ Hok1)); exact Hfit|].
  destruct Hm2 as (_ & _ & Em2), Hm3 as (_ & _ & Em3). split; [intros b Hb; rewrite Em3, Em2; now apply Hk1|]. split.
  - intros m Hm Hne. rewrite Hsto by assumption. unfold stored_inode. destruct (valid_num_ok m Hm) as [_ Hsec]. rewrite Ho2.
    + rewrite Hd1 by lia. reflexivity.
    + intros b Hb. pose proof (proj1 (Forall_forall _ _) (file_in_range _ _ Hok1) b Hb) as Hrb. unfold in_range in Hrb. lia.
  - intros b Hb Hb0 Hnb. unfold contents. rewrite Hd3, Ho2, Hd1; [reflexivity|lia| |lia].
    intros c Hc. rewrite Hbl1 in Hc. intros E. assert (b = c) as -> by lia. apply elem_of_app in Hc as [Hc|Hc]; [contradiction|].
    rewrite Forall_forall in Hext. rewrite (Hext _ Hc) in Hb. discriminate Hb.
Qed.

(** C18: files hold what is written to them. While there are blocks for it and the
    end is within the 4096 bytes a file can have, writing to a file succeeds in
    full; reading the range gives the data back; what was in the file before and
    after the range is still read; and other files that share no block with it
    are read as before. *)
Theorem homefs_write_then_read s num offset buf : let i := stored_inode (device s) num in
  ready s -> is_file s num -> bytes_ok buf -> (offset + length buf <= MAX_DIRECT_BLOCKS * BLOCK_SIZE)%nat ->
  Z.of_nat (missing i offset (length buf)) <= free_blocks (superblock s) ->
  (missing i offset (length buf) <= free_count (block_bitmap s))%nat ->
  exists s', write_file num offset buf s = Done (Ok (length buf), s') /\ ready s' /\ is_file s' num
    /\ (forall out, length out = length buf -> read_file num offset out s' = Done (Ok (length buf, buf), s'))
    /\ (forall a out, Z.of_nat (a + length out) <= size i -> (a + length out <= offset \/ offset + length buf <= a)%nat ->
        exists bytes, read_file num a out s = Done (Ok (length out, bytes), s) /\ read_file num a out s' = Done (Ok (length out, bytes), s'))
    /\ (forall other a out, other <> num -> is_file s other ->
        (forall b, b ∈ file_blocks (stored_inode (device s) other) -> b ∉ file_blocks i) ->
        Z.of_nat (a + length out) <= size (stored_inode (device s) other) ->
        exists bytes, read_file other a out s = Done (Ok (length out, bytes), s) /\ read_file other a out s' = Done (Ok (length out, bytes), s')).
Proof.
  intros i Hr Hf Hbuf Hend Hfree Hcount.
  destruct (write_file_spec s num offset buf Hr Hf Hbuf Hend Hfree Hcount)
    as (s' & ext & E & Hr' & Hf' & Hs' & Hd' & Hin & Hk & Hsame & Hcont). fold i in Hs', Hcont.
  exists s'. split; [exact E|]. split; [exact Hr'|]. split; [exact Hf'|]. split; [|split].
  - intros out Hout. rewrite read_file_run; [|assumption..|rewrite Hs'; lia]. rewrite Hout, Hd'. now rewrite sub_slice_splice_same.
  - intros a out Ha Hdis. eexists. split; [now apply read_file_run|]. rewrite read_file_run; [|assumption..|rewrite Hs'; lia].
    rewrite Hd'. rewrite sub_slice_splice_other by (assumption || lia). do 3 f_equal. unfold sub_slice.
    rewrite skipn_app, take_app_le; [reflexivity|]. rewrite length_drop. unfold file_data.
    pose proof (if_ok _ _ Hf) as Hok. rewrite (length_flat _ _ (r_intact _ Hr) (file_in_range _ _ Hok)).
    rewrite (length_file_blocks _ _ Hok). pose proof (f_size _ _ Hok). fold i. fold i in H. unfold BLOCK_SIZE in *. lia.
  - intros other a out Hne Ho Hdis Ha. pose proof (is_file_valid _ _ Ho) as Hv. pose proof (Hsame other Hv Hne) as Est.
    assert (is_file s' other) as Ho'.
    { destruct Ho as [[]]. constructor; rewrite Est; try assumption. constructor; try assumption.
      eapply Forall_impl; [eassumption|]. cbn. intros b [Hb1 Hb2]. split; [exact Hb1|]. now apply Hk. }
    eexists. split; [now apply read_file_run|]. rewrite read_file_run by (assumption || now rewrite Est).
    enough (file_data s' other = file_data s other) as -> by reflexivity.
    unfold file_data. rewrite Est. unfold flat. f_equal. apply map_ext_in. intros b Hb%list_elem_of_In.
    pose proof (proj1 (Forall_forall _ _) (f_blocks _ _ (if_ok _ _ Ho)) b Hb) as [Hrb Hub].
    apply Hcont; [exact Hub|lia|now apply Hdis].
Qed.

End Files.

(** ** The image of src/scripts/mkhomefs.py *)

Module MkHomeFs.

Definition TOTAL_SECTORS : nat := 1024.
Definition MAX_INODES : Z := 256.
Definition MAX_DATA_BLOCKS : Z := 1024 - 35.
Definition INODE_DIR : Z := 2.

(** [struct.pack_into('<I', buf, off, x)], ['<H'] and ['<B']. *)
Definition pack_I (buf : list Z) (off : nat) (x : Z) : list Z := splice buf off (to_le 4 x).
Definition pack_H (buf : list Z) (off : nat) (x : Z) : list Z := splice buf off (to_le 2 x).
Definition pack_B (buf : list Z) (off : nat) (x : Z) : list Z := splice buf off (to_le 1 x).

Definition create_superblock : list Z :=
  let sb := replicate SECTOR_SIZE 0 in
  let sb := pack_I sb 0 FS_MAGIC in
  let sb := pack_I sb 4 FS_VERSION in
  let sb := pack_I sb 8 (Z.of_nat SECTOR_SIZE) in
  let sb := pack_I sb 12 (Z.of_nat TOTAL_SECTORS) in
  let sb := pack_I sb 16 MAX_INODES in
  let sb := pack_I sb 20 (MAX_DATA_BLOCKS - 1) in
  let sb := pack_I sb 24 (MAX_INODES - 1) in
  let sb := pack_I sb 28 35 in
  let sb := pack_I sb 32 1 in
  let sb := pack_I sb 36 2 in
  let sb := pack_I sb 40 3 in
  pack_I sb 44 1.

Definition create_inode_bitmap : list Z := <[0%nat := 0x02]> (replicate SECTOR_SIZE 0).
Definition create_block_bitmap : list Z := <[0%nat := 0x01]> (replicate SECTOR_SIZE 0).

Definition create_root_inode : list Z :=
  let inode := replicate INODE_SIZE 0 in
  let inode := pack_I inode 0 1 in
  let inode := pack_I inode 4 INODE_DIR in
  let inode := pack_H inode 8 0x1ED in
  let inode := pack_H inode 10 0 in
  let inode := pack_H inode 12 0 in
  let inode := pack_H inode 14 1 in
  let inode := pack_I inode 16 (Z.of_nat SECTOR_SIZE) in
  let inode := pack_I inode 20 1 in
  pack_I inode 24 35.

Definition create_inode_table : list Z := splice (replicate (SECTOR_SIZE * 32) 0) 0 create_root_inode.

(** [create_dir_entry]; the names are ASCII, so [len(name)] is their size. *)
Definition create_dir_entry (inode : Z) (name : list Z) (file_type : Z) : list Z :=
  let entry := replicate DIR_ENTRY_SIZE 0 in
  let entry := pack_I entry 0 inode in
  let entry := pack_B entry 4 (Z.of_nat (length name)) in
  let entry := pack_B entry 5 file_type in
  splice entry 8 name.

Definition create_root_directory : list Z :=
  let block := replicate SECTOR_SIZE 0 in
  let block := splice block 0 (create_dir_entry 1 dot INODE_DIR) in
  splice block DIR_ENTRY_SIZE (create_dir_entry 1 dotdot INODE_DIR).

(** What [main] writes to the file. *)
Definition main : list Z :=
  create_superblock ++ create_inode_bitmap ++ create_block_bitmap ++ create_inode_table ++ create_root_directory
  ++ concat (replicate (TOTAL_SECTORS - 36) (replicate SECTOR_SIZE 0)).

End MkHomeFs.

(** ** Examples *)

Definition run {T} (m : stm (HomeFs RamDisk) HomeFsError T) (s : HomeFs RamDisk) : option (result T HomeFsError) :=
  match m s with Done (r, _) => Some r | Panicked => None end.

(** [n] files of 4096 bytes in the root directory. *)
Fixpoint fill (n : nat) : stm (HomeFs RamDisk) HomeFsError unit :=
  match n with
  | O => sret tt
  | S n' =>
      let% _ := fill n' in
      let% f := create_file 1 (string_of_bytes [0x66; 0x30 + Z.of_nat n]) 0x1A4 in
      let% _ := write_file f 0 (replicate 4096 7) in
      sret tt
  end.

(** ** Properties of concrete disks *)

(** A new file in a new file system. *)
Definition noted : HomeFs RamDisk :=
  match perform_all [OpCreateFile 1 "notes" 0x1A4] fresh with Done s => s | Panicked => fresh end.

Definition notes : Inode := mkInode 2 1 0x1A4 0 0 1 0 0 (replicate 8 0) (replicate 8 0).

(** The conditions of [ready] that can be evaluated. *)
Definition disk_ok (s : HomeFs RamDisk) : bool :=
  (length (device s) =? Z.to_nat TOTAL_SECTORS)%nat
  && forallb (fun b => (length b =? 512)%nat && forallb (fun x => (0 <=? x) && (x <=? 255)) b) (device s)
  && (first_data_block (superblock s) =? 35) && used (block_bitmap s) 0.

Lemma performed_ready os s : Forall op_ok os -> perform_all os fresh = Done s -> disk_ok s = true -> ready s.
Proof.
  intros Ho E Hd. unfold disk_ok in Hd. apply andb_true_iff in Hd as [[[H1 H2]%andb_true_iff H3]%andb_true_iff H4].
  constructor; [|split; [now apply Nat.eqb_eq|]|now apply Z.eqb_eq|exact H4].
  - eapply perform_all_good; [exact Ho| |exact E].
    apply (create_good blank); [apply Nat.leb_le; vm_compute; reflexivity|vm_compute; reflexivity].
  - apply Forall_forall. intros b Hb. rewrite forallb_forall in H2. apply list_elem_of_In, H2, andb_true_iff in Hb as [Hl Hx].
    split; [now apply Nat.eqb_eq|]. apply Forall_forall. intros x Hin. rewrite forallb_forall in Hx.
    apply list_elem_of_In, Hx in Hin. unfold is_u8, U8_MAX. lia.
Qed.

Lemma noted_ready : ready noted.
Proof.
  apply (performed_ready [OpCreateFile 1 "notes" 0x1A4]); [repeat constructor|vm_compute; reflexivity|vm_compute; reflexivity].
Qed.

Lemma noted_file : is_file noted 2.
Proof.
  assert (stored_inode (device noted) 2 = notes) as E by (vm_compute; reflexivity).
  assert (file_blocks notes = []) as Ef by reflexivity.
  constructor; rewrite E; [|reflexivity..]. split; rewrite ?Ef; [|split; vm_compute; congruence|vm_compute; discriminate|
    apply NoDup_nil_2|apply Forall_nil_2|vm_compute; discriminate].
  constructor; try reflexivity; repeat (apply Forall_cons_2; [vm_compute; split; discriminate|]); apply Forall_nil_2.
Qed.

Lemma homefs_write_then_read_witness :
  exists s', write_file 2 500 (replicate 20 9) noted = Done (Ok 20%nat, s')
    /\ read_file 2 500 (replicate 20 0) s' = Done (Ok (20%nat, replicate 20 9), s').
Proof.
  destruct (homefs_write_then_read noted 2 500 (replicate 20 9)) as (s' & H1 & _ & _ & H2 & _);
    [exact noted_ready|exact noted_file|apply Forall_replicate; unfold is_u8, U8_MAX; lia| | | |].
  - apply Nat.leb_le. vm_compute. reflexivity.
  - vm_compute. discriminate.
  - apply Nat.leb_le. vm_compute. reflexivity.
  - exists s'. split; [exact H1|]. apply (H2 (replicate 20 0)). reflexivity.
Defined.

(** C19: the script and the kernel make the same disk. The image that mkhomefs.py
    writes is, byte for byte, what [create] makes of a blank disk. *)
Theorem mkhomefs_is_create :
  exists s : HomeFs RamDisk, create blank = Done (Ok s) /\ concat (device s) = MkHomeFs.main.
Proof.
  exists fresh. split; [vm_compute; reflexivity|].
  set (zero := replicate SECTOR_SIZE 0).
  assert (device fresh = [MkHomeFs.create_superblock; MkHomeFs.create_inode_bitmap; MkHomeFs.create_block_bitmap]
    ++ (splice zero 0 MkHomeFs.create_root_inode :: replicate 31 zero) ++ [MkHomeFs.create_root_directory]
    ++ replicate (MkHomeFs.TOTAL_SECTORS - 36) zero) as -> by (vm_compute; reflexivity).
  assert (MkHomeFs.create_inode_table = concat (splice zero 0 MkHomeFs.create_root_inode :: replicate 31 zero)) as Et
    by (vm_compute; reflexivity).
  unfold MkHomeFs.main. rewrite Et. fold zero. clearbody zero. clear Et. generalize MkHomeFs.create_superblock, MkHomeFs.create_inode_bitmap,
    MkHomeFs.create_block_bitmap, MkHomeFs.create_root_directory, (splice zero 0 MkHomeFs.create_root_inode :: replicate 31 zero),
    (replicate (MkHomeFs.TOTAL_SECTORS - 36) zero).
  intros a b c d l m. rewrite !concat_app. cbn [concat]. rewrite !app_nil_r, <- !app_assoc. reflexivity.
Qed.

(** The root directory is lost. In a file system that [create] has just made
    not even [.] is found in the root directory: its inode has the sector of its
    block where the lookup expects the number of the block, relative to the
    first data block.  That block is not marked as used either: after a file is
    created there, and found, writing five more files of 4096 bytes puts the data
    of one of them over the root directory, and the file is not found any more. *)
Theorem root_directory_is_lost :
  run (lookup_in_dir 1 ".") fresh = Some (Err NotFound)
  /\ run (let% _ := create_file 1 "notes" 0x1A4 in let% _ := fill 4 in lookup_in_dir 1 "notes") fresh = Some (Ok 2)
  /\ run (let% _ := create_file 1 "notes" 0x1A4 in let% _ := fill 5 in lookup_in_dir 1 "notes") fresh = Some (Err NotFound).
Proof. split; [|split]; vm_compute; reflexivity. Qed.

(** A gap in a file shows deleted data. Blocks are not cleared when they are
    given to a file: after a file with data is deleted, a write beyond the end
    of a new, empty file makes the old data readable in the gap. *)
Theorem gap_shows_deleted_data :
  run (let% f := create_file 1 "secret" 0x180 in let% _ := write_file f 0 (replicate 512 7) in let% _ := unlink_file 1 "secret" in
       let% g := create_file 1 "mine" 0x180 in let% _ := write_file g 100 [1] in read_file g 0 (replicate 101 0)) fresh
  = Some (Ok (101%nat, replicate 100 7 ++ [1])).
Proof. vm_compute. reflexivity. Qed.

End HomeFiles.
