(* ===== verification/HomeDirs.v ===== *)
(** * Directories of the writable file system

    A directory of src/kernel/src/homefs.rs is a list of slots, two in a block.
    [lookup_in_dir] finds the first slot in use with a name, and what
    [add_dir_entry] adds is found, with everything that was found before. *)

From S2P Require Import Prelude Bytes Block Utf8 HomeFs HomeSync HomeFiles.
Import Bytes Block Utf8 HomeFs HomeSync HomeFiles.

Module HomeDirs.

(** ** Slots *)

Definition halves (c : list Z) : list DirEntry :=
  [entry_of (sub_slice c 0 DIR_ENTRY_SIZE); entry_of (sub_slice c DIR_ENTRY_SIZE (2 * DIR_ENTRY_SIZE))].

Definition in_use (e : DirEntry) : bool := negb (de_inode e =? 0).

(** The name of an entry, when it is one. *)
Definition entry_string (e : DirEntry) : option string :=
  if (Z.to_nat (name_len e) <=? length (name e))%nat then from_utf8 (take (Z.to_nat (name_len e)) (name e)) else None.

Definition readable (e : DirEntry) : Prop := in_use e = true -> is_Some (entry_string e).

Definition matches (n : string) (e : DirEntry) : bool := in_use e && bool_decide (entry_string e = Some n).

Definition find_entry (n : string) (l : list DirEntry) : option DirEntry := find (matches n) l.

(** The slots in use, in order, until one ends the search. *)
Fixpoint walk {A R} (step : DirEntry -> A -> A + R) (l : list DirEntry) (a : A) : A + R :=
  match l with
  | [] => inl a
  | e :: l => if in_use e then match step e a with inl a => walk step l a | inr r => inr r end else walk step l a
  end.

Definition to_flow {A R} (x : A + R) : flow A R := match x with inl a => Next a | inr r => Return r end.

Lemma walk_slots_app {A R} (step : DirEntry -> A -> A + R) l l' a :
  walk step (l ++ l') a = match walk step l a with inl a => walk step l' a | inr r => inr r end.
Proof. revert a. induction l as [|e l IH]; intros a; cbn; [reflexivity|]. destruct (in_use e); [destruct (step e a); auto|auto]. Qed.

Lemma lookup_map_Some {A B} (f : A -> B) l j y : map f l !! j = Some y -> exists x, l !! j = Some x /\ y = f x.
Proof. revert j. induction l as [|x l IH]; intros [|j] H; try discriminate H; [injection H as <-; eauto|exact (IH j H)]. Qed.

Section Dirs.
Context {D : Type} {BD : BlockDevice D} {RD : Reliable D} {WD : Working D}.

Notation HomeFs := (HomeFs D).
Notation fs T := (stm HomeFs HomeFsError T).

Definition slots (d : D) (blocks : list Z) : list DirEntry := concat (map (fun b => halves (contents d b)) blocks).

Lemma read_dir_entry_run s b j e : ready s -> in_range b -> halves (contents (device s) b) !! j = Some e ->
  read_dir_entry (35 + b) j s = Done (Ok e, s).
Proof.
  intros Hr Hb He. unfold read_dir_entry, sbind. rewrite load_block_run by assumption.
  destruct j as [|[|j]]; [injection He as <-; reflexivity..|discriminate He].
Qed.

(** A loop whose turns each take one part of a list of slots. *)
Lemma loop_walk {A R} s (step : DirEntry -> A -> A + R) (body : nat -> A -> fs (flow A R)) : forall parts i a,
  (forall j part a, parts !! j = Some part -> body (i + j)%nat a s = Done (Ok (to_flow (walk step part a)), s)) ->
  loop i (length parts) body a s = Done (Ok (to_flow (walk step (concat parts) a)), s).
Proof.
  induction parts as [|part parts IH]; intros i a Hb; cbn [length loop concat]; [reflexivity|].
  unfold sbind. pose proof (Hb 0%nat part a eq_refl) as H0. rewrite Nat.add_0_r in H0. rewrite H0, walk_slots_app.
  destruct (walk step part a) as [a'|r]; cbn [to_flow]; [|reflexivity]. apply IH. intros j part' a1 Hj.
  specialize (Hb (S j) part' a1 Hj). now rewrite Nat.add_succ_r in Hb.
Qed.

Lemma slots_parts (l : list DirEntry) : concat (map (fun e => [e]) l) = l.
Proof. induction l as [|e l IH]; cbn; [reflexivity|]. now rewrite IH. Qed.

(** One block of the loops over a directory. *)
Lemma block_loop {A R} s b (step : DirEntry -> A -> A + R) body a : ready s -> in_range b ->
  (forall j e a, e ∈ halves (contents (device s) b) -> in_use e = true -> body j e a s = Done (Ok (to_flow (step e a)), s)) ->
  loop 0 ENTRIES_PER_BLOCK (fun j a =>
    let% entry := read_dir_entry (35 + b) j in
    if de_inode entry =? 0 then sret (Next a) else body j entry a) a s
  = Done (Ok (to_flow (walk step (halves (contents (device s) b)) a)), s).
Proof.
  intros Hr Hb Hbody. change ENTRIES_PER_BLOCK with (length (map (fun e => [e]) (halves (contents (device s) b)))).
  rewrite (loop_walk s step); [now rewrite slots_parts|]. intros j part a1 Hj. rewrite Nat.add_0_l.
  apply lookup_map_Some in Hj as (e & Hj & ->). unfold sbind. rewrite (read_dir_entry_run s b j e) by assumption.
  cbn [walk]. unfold in_use. destruct (Z.eqb_spec (de_inode e) 0) as [E|E]; cbn [negb]; [reflexivity|].
  rewrite Hbody; [|eapply list_elem_of_lookup_2, Hj|unfold in_use; now apply negb_true_iff, Z.eqb_neq].
  now destruct (step e a1).
Qed.

Lemma turns_blocks (s : HomeFs) i : file_ok s i -> block_turns i = length (file_blocks i).
Proof.
  intros Hf. unfold block_turns. rewrite (length_file_blocks _ _ Hf). pose proof (f_used _ _ Hf). unfold MAX_DIRECT_BLOCKS in *. lia.
Qed.

Lemma for_entries_run {A R} s i (step : DirEntry -> A -> A + R) body a : ready s -> file_ok s i ->
  (forall sector j e a, e ∈ slots (device s) (file_blocks i) -> in_use e = true ->
     body sector j e a s = Done (Ok (to_flow (step e a)), s)) ->
  for_entries i body a s = Done (Ok (to_flow (walk step (slots (device s) (file_blocks i)) a)), s).
Proof.
  intros Hr Hf Hbody. unfold for_entries. rewrite (turns_blocks s i Hf).
  rewrite <- (length_map (fun b => halves (contents (device s) b)) (file_blocks i)).
  apply (loop_walk s step). intros k part a1 Hk. rewrite Nat.add_0_l. apply lookup_map_Some in Hk as (b & Hk & ->).
  pose proof (lookup_lt_Some _ _ _ Hk) as Hlt. destruct (file_block_at s i k Hf Hlt) as (b' & Ei & Hb & Hrange & H0).
  rewrite Hk in Hb. injection Hb as <-. pose proof (length_file_blocks _ _ Hf). pose proof (f_used _ _ Hf).
  rewrite (proj2 (Nat.leb_gt _ _)) by (unfold MAX_DIRECT_BLOCKS in *; lia).
  unfold sbind at 1, lift. rewrite Ei. cbn [bind]. rewrite H0. unfold sbind at 1. rewrite block_sector_run by assumption.
  apply (block_loop s b step (body (35 + b))); [assumption..|]. intros j e a2 He. apply Hbody.
  unfold slots. apply list_elem_of_In, in_concat. exists (halves (contents (device s) b)).
  split; [apply in_map_iff; exists b; split; [reflexivity|]; eapply list_elem_of_In, list_elem_of_lookup_2, Hk|now apply list_elem_of_In].
Qed.

(** ** Lookup *)

Record is_dir (s : HomeFs) (num : Z) : Prop := mkIsDir {
  id_ok : file_ok s (stored_inode (device s) num);
  id_num : inode_num (stored_inode (device s) num) = num;
  id_type : file_type (stored_inode (device s) num) = type_num Directory;
  id_names : Forall readable (slots (device s) (file_blocks (stored_inode (device s) num)))
}.

Definition dir_slots (s : HomeFs) (num : Z) : list DirEntry := slots (device s) (file_blocks (stored_inode (device s) num)).

Lemma read_directory_run s num : ready s -> is_dir s num -> read_directory num s = Done (Ok (stored_inode (device s) num), s).
Proof.
  intros Hr Hd. unfold read_directory, sbind. rewrite read_inode_run; [|assumption|].
  - now rewrite (id_type _ _ Hd), Z.eqb_refl.
  - pose proof (f_num _ _ (id_ok _ _ Hd)) as H. now rewrite (id_num _ _ Hd) in H.
Qed.

Lemma entry_name_run (s : HomeFs) e n : entry_string e = Some n -> entry_name e s = Done (Ok n, s).
Proof.
  unfold entry_string, entry_name. destruct (Nat.leb_spec (Z.to_nat (name_len e)) (length (name e))) as [Hl|]; [|discriminate].
  intros Hs. unfold sbind, lift, slice. rewrite (proj2 (Nat.leb_le _ _)) by lia. cbn [andb].
  rewrite (proj2 (Nat.leb_le (Z.to_nat (name_len e)) _)) by exact Hl. cbn [bind]. unfold sub_slice. rewrite Nat.sub_0_r, drop_0. now rewrite Hs.
Qed.

(** The search of [lookup_in_dir]. *)
Definition seek (n : string) (e : DirEntry) (_ : unit) : unit + Z :=
  if bool_decide (entry_string e = Some n) then inr (de_inode e) else inl tt.

Lemma walk_seek n l : walk (seek n) l tt = match find_entry n l with Some e => inr (de_inode e) | None => inl tt end.
Proof.
  induction l as [|e l IH]; cbn [walk find_entry find]; [reflexivity|]. unfold matches, seek at 1.
  destruct (in_use e); [|exact IH]. cbn [andb]. destruct (bool_decide _); [reflexivity|exact IH].
Qed.

Lemma lookup_run s num n : ready s -> is_dir s num -> (length (bytes_of_string n) <= MAX_FILENAME_LEN)%nat ->
  lookup_in_dir num n s = Done (match find_entry n (dir_slots s num) with Some e => Ok (de_inode e) | None => Err NotFound end, s).
Proof.
  intros Hr Hd Hn. unfold lookup_in_dir. rewrite (proj2 (Nat.ltb_ge _ _)) by exact Hn. unfold sbind at 1.
  rewrite read_directory_run by assumption. unfold sbind at 1.
  rewrite (for_entries_run s _ (seek n)); [|exact Hr|apply Hd|].
  - rewrite walk_seek. unfold dir_slots. now destruct (find_entry n _).
  - intros sector j e a He Hu. destruct (proj1 (Forall_forall _ _) (id_names _ _ Hd) e He Hu) as [m Hm].
    unfold sbind. rewrite (entry_name_run s e m Hm). unfold seek. destruct a. rewrite Hm.
    destruct (decide (m = n)) as [->|Hne]; [now rewrite !bool_decide_true|].
    rewrite !bool_decide_false by congruence. reflexivity.
Qed.

(** ** Adding *)

Lemma loop_skip {R} (s : HomeFs) (body : nat -> unit -> fs (flow unit R)) k : forall i n, (k <= n)%nat ->
  (forall j, (j < k)%nat -> body (i + j)%nat tt s = Done (Ok (Next tt), s)) ->
  loop i n body tt s = loop (i + k) (n - k) body tt s.
Proof.
  induction k as [|k IH]; intros i n Hn Hb; [now rewrite Nat.add_0_r, Nat.sub_0_r|]. destruct n as [|n]; [lia|].
  cbn [loop]. unfold sbind. pose proof (Hb 0%nat ltac:(lia)) as H0. rewrite Nat.add_0_r in H0. rewrite H0.
  rewrite (IH (S i) n ltac:(lia)); [f_equal; lia|]. intros j Hj. specialize (Hb (S j) ltac:(lia)). now rewrite Nat.add_succ_r in Hb.
Qed.

Lemma loop_return {R} (s : HomeFs) (body : nat -> unit -> fs (flow unit R)) i n (m : fs R) :
  body i tt s = (let% r := m in sret (Return r)) s -> loop i (S n) body tt s = (let% r := m in sret (Return r)) s.
Proof. intros H. cbn [loop]. unfold sbind at 1. rewrite H. unfold sbind. now destruct (m s) as [[[r|e] s']|]. Qed.

Lemma length_slots d blocks : length (slots d blocks) = (length blocks * 2)%nat.
Proof. induction blocks as [|b blocks IH]; [reflexivity|]. unfold slots in *. cbn [map concat length]. rewrite length_app, IH. reflexivity. Qed.

Lemma slots_lookup d blocks k j b : blocks !! k = Some b -> (j < 2)%nat -> slots d blocks !! (k * 2 + j)%nat = halves (contents d b) !! j.
Proof.
  revert k. induction blocks as [|c blocks IH]; intros k Hk Hj; [discriminate|]. unfold slots in *. cbn [map concat].
  destruct k as [|k].
  - injection Hk as ->. rewrite lookup_app_l by (cbn; lia). reflexivity.
  - rewrite lookup_app_r by (cbn; lia). change (length (halves (contents d c))) with 2%nat.
    replace (S k * 2 + j - 2)%nat with (k * 2 + j)%nat by lia. now apply IH.
Qed.

Section Slot.
Context (s : HomeFs) (i : Inode) (found : Z -> nat -> fs unit).
Hypothesis Hr : ready s.
Hypothesis Hf : file_ok s i.

(** The body of the inner loop of [find_slot]. *)
Definition slot_turn (sector : Z) (j : nat) (_ : unit) : fs (flow unit unit) :=
  let% entry := read_dir_entry sector j in
  if de_inode entry =? 0 then let% r := found sector j in sret (Return r) else sret (Next tt).

Lemma slot_turn_used b j e : in_range b -> halves (contents (device s) b) !! j = Some e -> in_use e = true ->
  slot_turn (35 + b) j tt s = Done (Ok (Next tt), s).
Proof.
  intros Hb He Hu. unfold slot_turn, sbind. rewrite (read_dir_entry_run s b j e) by assumption.
  unfold in_use in Hu. apply negb_true_iff in Hu. now rewrite Hu.
Qed.

Lemma block_used k b : file_blocks i !! k = Some b ->
  (forall j e, (j < 2)%nat -> slots (device s) (file_blocks i) !! (k * 2 + j)%nat = Some e -> in_use e = true) -> in_range b ->
  loop 0 ENTRIES_PER_BLOCK (slot_turn (35 + b)) tt s = Done (Ok (Next tt), s).
Proof.
  intros Hk Hall Hb. rewrite (loop_skip s _ 2); [reflexivity|unfold ENTRIES_PER_BLOCK; lia|].
  intros j Hj. rewrite Nat.add_0_l. destruct (lookup_lt_is_Some_2 (halves (contents (device s) b)) j Hj) as [e He].
  eapply slot_turn_used; [exact Hb|exact He|]. apply (Hall j e Hj). now rewrite (slots_lookup _ _ _ _ b).
Qed.

(** The body of the outer loop at a block of the directory. *)
Lemma find_slot_body k : (k < length (file_blocks i))%nat -> exists b, file_blocks i !! k = Some b /\ in_range b
  /\ (if (MAX_DIRECT_BLOCKS <=? k)%nat then sfail NoSpace
      else
        let% block_num := lift (index (direct_blocks i) k) in
        let% sector := block_sector block_num in
        loop 0 ENTRIES_PER_BLOCK (slot_turn sector) tt) s
     = loop 0 ENTRIES_PER_BLOCK (slot_turn (35 + b)) tt s.
Proof.
  intros Hk. destruct (file_block_at s i k Hf Hk) as (b & Ei & Hb & Hrange & _). exists b. split; [exact Hb|]. split; [exact Hrange|].
  pose proof (length_file_blocks _ _ Hf). pose proof (f_used _ _ Hf).
  rewrite (proj2 (Nat.leb_gt _ _)) by (unfold MAX_DIRECT_BLOCKS in *; lia).
  unfold sbind at 1, lift. rewrite Ei. cbn [bind]. unfold sbind at 1. now rewrite block_sector_run.
Qed.

Lemma find_slot_full : Forall (fun e => in_use e = true) (slots (device s) (file_blocks i)) ->
  find_slot i found s = Done (Ok (Next tt), s).
Proof.
  intros Hall. unfold find_slot. rewrite (turns_blocks s i Hf). rewrite (loop_skip s _ (length (file_blocks i))); [|lia|].
  - now rewrite Nat.sub_diag.
  - intros k Hk. rewrite Nat.add_0_l. destruct (find_slot_body k Hk) as (b & Hb & Hrange & E). etransitivity; [exact E|].
    apply (block_used k b Hb); [|exact Hrange]. intros j e _ He. exact (proj1 (Forall_lookup _ _) Hall _ _ He).
Qed.

Lemma find_slot_free k j b e : file_blocks i !! k = Some b -> (j < 2)%nat -> halves (contents (device s) b) !! j = Some e ->
  in_use e = false ->
  (forall q e, (q < k * 2 + j)%nat -> slots (device s) (file_blocks i) !! q = Some e -> in_use e = true) ->
  find_slot i found s = (let% r := found (35 + b) j in sret (Return r)) s.
Proof.
  intros Hb Hj He Hu Hbefore. pose proof (lookup_lt_Some _ _ _ Hb) as Hk. unfold find_slot. rewrite (turns_blocks s i Hf).
  rewrite (loop_skip s _ k); [|lia|].
  2:{ intros k' Hk'. rewrite Nat.add_0_l. destruct (find_slot_body k' ltac:(lia)) as (b' & Hb' & Hrange & E). etransitivity; [exact E|].
      apply (block_used k' b' Hb'); [|exact Hrange]. intros j' e' Hj' He'. eapply Hbefore, He'. lia. }
  rewrite Nat.add_0_l. replace (length (file_blocks i) - k)%nat with (S (length (file_blocks i) - k - 1)) by lia.
  apply loop_return. destruct (find_slot_body k Hk) as (b' & Hb' & Hrange & E). rewrite Hb in Hb'. injection Hb' as <-.
  etransitivity; [exact E|]. rewrite (loop_skip s _ j); [|unfold ENTRIES_PER_BLOCK; lia|].
  - rewrite Nat.add_0_l. replace (ENTRIES_PER_BLOCK - j)%nat with (S (1 - j)) by (unfold ENTRIES_PER_BLOCK; lia). apply loop_return.
    unfold slot_turn, sbind at 1. rewrite (read_dir_entry_run s b j e) by assumption. unfold in_use in Hu.
    apply negb_false_iff in Hu. now rewrite Hu.
  - intros j' Hj'. rewrite Nat.add_0_l. destruct (lookup_lt_is_Some_2 (halves (contents (device s) b)) j' ltac:(cbn; lia)) as [e' He'].
    eapply slot_turn_used; [exact Hrange|exact He'|]. apply (Hbefore (k * 2 + j')%nat); [lia|].
    now rewrite (slots_lookup _ _ _ _ b) by (assumption || lia).
Qed.

End Slot.

Lemma halves_splice c j e : length c = SECTOR_SIZE -> (j < 2)%nat -> entry_ok e ->
  halves (splice c (j * DIR_ENTRY_SIZE) (entry_bytes e)) = <[j := e]> (halves c).
Proof.
  intros Hc Hj He. pose proof (length_entry_bytes e (ok_len _ He)) as Hl. unfold SECTOR_SIZE, DIR_ENTRY_SIZE in *. unfold halves, DIR_ENTRY_SIZE.
  destruct j as [|[|j]]; [| |lia]; cbn [Nat.mul Nat.add insert list_insert].
  - rewrite (sub_slice_splice_other c (entry_bytes e) 0 256 512) by lia. f_equal.
    rewrite <- (entry_round_trip e He) at 2. f_equal. rewrite <- Hl at 1. apply (sub_slice_splice_same c (entry_bytes e) 0). lia.
  - rewrite (sub_slice_splice_other c (entry_bytes e) 256 0 256) by lia. f_equal.
    rewrite <- (entry_round_trip e He) at 2. do 2 f_equal. replace 512%nat with (256 + length (entry_bytes e))%nat by lia.
    apply sub_slice_splice_same. lia.
Qed.

Lemma write_dir_entry_run s b j e : ready s -> in_range b -> (j < 2)%nat -> entry_ok e ->
  exists s', write_dir_entry (35 + b) j e s = Done (Ok tt, s') /\ ready s' /\ same_meta s s'
    /\ halves (contents (device s') b) = <[j := e]> (halves (contents (device s) b))
    /\ forall k, k <> 35 + b -> get (device s') k = get (device s) k.
Proof.
  intros Hr Hb Hj He. destruct (block_get (device s) b (r_intact _ Hr) Hb) as [_ Hc].
  destruct (store_block s b (splice (contents (device s) b) (j * DIR_ENTRY_SIZE) (entry_bytes e)) Hr Hb) as (s' & E & Hr' & Hm & Hg & Ho).
  { apply spliced_sector; [exact Hc|apply entry_bytes_ok, He|]. rewrite (length_entry_bytes e (ok_len _ He)).
    unfold DIR_ENTRY_SIZE, SECTOR_SIZE. lia. }
  exists s'. unfold write_dir_entry, sbind. rewrite load_block_run by assumption.
  rewrite (proj2 (Nat.ltb_ge _ _)) by (unfold DIR_ENTRY_SIZE, SECTOR_SIZE; lia). split; [exact E|]. split; [exact Hr'|].
  split; [exact Hm|]. split; [|exact Ho]. unfold contents at 1. rewrite Hg. apply halves_splice; [apply Hc|exact Hj|exact He].
Qed.

Lemma slots_update d d' blocks k j b e : NoDup blocks -> blocks !! k = Some b -> (j < 2)%nat ->
  halves (contents d' b) = <[j := e]> (halves (contents d b)) ->
  (forall c, c ∈ blocks -> c <> b -> contents d' c = contents d c) ->
  slots d' blocks = <[(k * 2 + j)%nat := e]> (slots d blocks).
Proof.
  revert k. induction blocks as [|c blocks IH]; intros k Hnd Hk Hj Hb Hsame; [discriminate|]. inversion Hnd; subst.
  unfold slots in *. cbn [map concat]. destruct k as [|k].
  - injection Hk as ->. rewrite Hb, insert_app_l by (cbn; lia). do 2 f_equal. apply map_ext_in. intros c Hc%list_elem_of_In.
    rewrite Hsame; [reflexivity|now right|]. intros ->. contradiction.
  - change (blocks !! k = Some b) in Hk. assert (c <> b) by (intros ->; apply list_elem_of_lookup_2 in Hk; contradiction).
    rewrite insert_app_r_alt by (cbn; lia). change (length (halves (contents d c))) with 2%nat.
    replace (S k * 2 + j - 2)%nat with (k * 2 + j)%nat by lia. rewrite (Hsame c) by (assumption || left).
    f_equal. apply (IH k); auto. intros x Hx. apply Hsame. now right.
Qed.

Lemma new_entry_ok child bytes t : is_u32 child -> (length bytes <= MAX_FILENAME_LEN)%nat -> bytes_ok bytes ->
  entry_ok (new_entry child bytes t).
Proof.
  intros Hc Hl Hb. destruct (name_array_ok bytes Hl Hb) as [H1 H2]. constructor; cbn [new_entry de_inode name_len de_type de_padding name];
    try assumption; [unfold is_u8, wrap8, U8_MAX; lia|destruct t; unfold is_u8, U8_MAX; cbn; lia|unfold is_u16, U16_MAX; lia].
Qed.

Lemma new_entry_string child n t : (length (bytes_of_string n) <= MAX_FILENAME_LEN)%nat ->
  from_utf8 (bytes_of_string n) = Some n -> entry_string (new_entry child (bytes_of_string n) t) = Some n.
Proof.
  intros Hl Hn. unfold entry_string. cbn [new_entry name_len name]. destruct (name_array_ok _ Hl (bytes_of_string_ok n)) as [-> _].
  unfold MAX_FILENAME_LEN in *. unfold wrap8. rewrite Z.mod_small by lia. rewrite Nat2Z.id.
  rewrite (proj2 (Nat.leb_le _ _)) by lia. unfold name_array, splice. rewrite take_0. cbn [app]. now rewrite take_app_length.
Qed.

Lemma first_free (l : list DirEntry) : Forall (fun e => in_use e = true) l
  \/ exists p e, l !! p = Some e /\ in_use e = false /\ forall q e', (q < p)%nat -> l !! q = Some e' -> in_use e' = true.
Proof.
  induction l as [|e l IH]; [left; constructor|]. destruct (in_use e) eqn:Eu.
  - destruct IH as [IH|(p & e' & H1 & H2 & H3)]; [left; now constructor|]. right. exists (S p), e'. split; [exact H1|]. split; [exact H2|].
    intros [|q] x Hq Hx; [injection Hx as <-; exact Eu|]. apply (H3 q); [lia|exact Hx].
  - right. exists 0%nat, e. split; [reflexivity|]. split; [exact Eu|]. lia.
Qed.

(** Searching after an entry was put in a free slot, or behind the others. *)
Lemma find_insert n l p e old : l !! p = Some old -> in_use old = false ->
  (forall m, m <> n -> matches m e = false) -> matches n e = true -> find_entry n l = None ->
  find_entry n (<[p := e]> l) = Some e /\ forall m, m <> n -> find_entry m (<[p := e]> l) = find_entry m l.
Proof.
  revert p. induction l as [|x l IH]; intros [|p] Hp Hold Hother Hn Hnone; try discriminate Hp.
  - injection Hp as ->. cbn [insert list_insert]. unfold find_entry in *. cbn [find] in *. rewrite Hn. split; [reflexivity|].
    intros m Hm. assert (matches m old = false) as Ho by (unfold matches; now rewrite Hold). now rewrite Hother, Ho.
  - unfold find_entry in *. cbn [insert list_insert find] in *. destruct (matches n x) eqn:Ex; [discriminate Hnone|].
    destruct (IH p Hp Hold Hother Hn Hnone) as [H1 H2]. split; [exact H1|]. intros m Hm. destruct (matches m x); [reflexivity|now apply H2].
Qed.

Lemma find_app n l r : find_entry n (l ++ r) = match find_entry n l with Some e => Some e | None => find_entry n r end.
Proof. unfold find_entry. induction l as [|x l IH]; [reflexivity|]. cbn. destruct (matches n x); auto. Qed.

(** What an added entry [e] changes: it is found under its name, and the others
    as before. *)
Definition added (s s' : HomeFs) (num : Z) (n : string) (e : DirEntry) : Prop :=
  ready s' /\ is_dir s' num /\ find_entry n (dir_slots s' num) = Some e
  /\ forall m, m <> n -> find_entry m (dir_slots s' num) = find_entry m (dir_slots s num).

Lemma stored_inode_same (d d' : D) num : valid_num num -> (forall k, 3 <= k < 35 -> get d' k = get d k) ->
  stored_inode d' num = stored_inode d num.
Proof. intros Hn Hd. destruct (valid_num_ok num Hn) as [_ Hs]. unfold stored_inode. now rewrite Hd. Qed.

Lemma is_dir_valid (s : HomeFs) num : is_dir s num -> valid_num num.
Proof. intros Hd. pose proof (f_num _ _ (id_ok _ _ Hd)) as H. now rewrite (id_num _ _ Hd) in H. Qed.

Section Add.
Context (s : HomeFs) (num child : Z) (n : string) (t : FileType).
Hypothesis Hr : ready s.
Hypothesis Hd : is_dir s num.
Hypothesis Hchild : 0 < child <= U32_MAX.
Hypothesis Hlen : (0 < length (bytes_of_string n) <= MAX_FILENAME_LEN)%nat.
Hypothesis Hutf8 : from_utf8 (bytes_of_string n) = Some n.
Hypothesis Hnew : find_entry n (dir_slots s num) = None.

Let e : DirEntry := new_entry child (bytes_of_string n) t.
Let i : Inode := stored_inode (device s) num.

Lemma added_entry_ok : entry_ok e.
Proof. apply new_entry_ok; [unfold is_u32; lia|apply Hlen|apply bytes_of_string_ok]. Qed.

Lemma added_entry_matches : matches n e = true /\ forall m, m <> n -> matches m e = false.
Proof.
  assert (in_use e = true) as Hu by (unfold in_use, e; cbn; apply negb_true_iff, Z.eqb_neq; lia).
  unfold matches. rewrite Hu. unfold e. rewrite new_entry_string by (assumption || apply Hlen). cbn [andb]. split; [now rewrite bool_decide_true|].
  intros m Hm. rewrite bool_decide_false; [reflexivity|congruence].
Qed.

Lemma added_readable : readable e.
Proof. intros _. unfold e. rewrite new_entry_string by (assumption || apply Hlen). eauto. Qed.

Lemma add_in_slot p old : dir_slots s num !! p = Some old -> in_use old = false ->
  (forall q e', (q < p)%nat -> dir_slots s num !! q = Some e' -> in_use e' = true) ->
  exists s', find_slot i (fun sector j => write_dir_entry sector j e) s = Done (Ok (Return tt), s') /\ added s s' num n e.
Proof.
  intros Hp Hold Hbefore. pose proof (id_ok _ _ Hd) as Hok. fold i in Hok.
  assert (p < length (file_blocks i) * 2)%nat as Hlt by (rewrite <- (length_slots (device s)); eapply lookup_lt_Some, Hp).
  destruct (lookup_lt_is_Some_2 (file_blocks i) (p / 2)%nat ltac:(lia)) as [b Hb].
  assert (p = p / 2 * 2 + p mod 2)%nat as Epos by lia. assert (p mod 2 < 2)%nat as Hj by lia.
  set (k := (p / 2)%nat) in *. set (j := (p mod 2)%nat) in *. clearbody k j. subst p.
  unfold dir_slots in *. fold i in Hp, Hbefore. rewrite (slots_lookup _ _ _ _ b Hb Hj) in Hp.
  pose proof (proj1 (Forall_lookup _ _) (file_in_range _ _ Hok) _ _ Hb) as Hrange.
  rewrite (find_slot_free s i _ Hr Hok k j b old) by assumption.
  destruct (write_dir_entry_run s b j e Hr Hrange Hj added_entry_ok) as (s' & E & Hr' & Hm & Hh & Ho).
  exists s'. split; [unfold sbind; now rewrite E|].
  assert (stored_inode (device s') num = i) as Est.
  { apply stored_inode_same; [now apply is_dir_valid in Hd|]. intros x Hx. apply Ho. unfold in_range in Hrange. lia. }
  assert (slots (device s') (file_blocks i) = <[(k * 2 + j)%nat := e]> (slots (device s) (file_blocks i))) as Esl.
  { eapply slots_update; [apply (f_nodup _ _ Hok)|exact Hb|exact Hj|exact Hh|]. intros c _ Hc. unfold contents. rewrite Ho by lia. reflexivity. }
  split; [exact Hr'|]. split.
  - constructor; rewrite Est; [eapply file_ok_meta; eassumption|apply Hd|apply Hd|]. rewrite Esl.
    apply Forall_insert; [apply Hd|exact added_readable].
  - unfold dir_slots. rewrite Est, Esl. destruct added_entry_matches. eapply find_insert; try eassumption.
    now rewrite (slots_lookup _ _ _ _ b Hb Hj).
Qed.

Lemma dir_resize (x : HomeFs) dir : file_ok x dir ->
  let dir' := with_blocks dir (blocks_used dir * Z.of_nat BLOCK_SIZE) (blocks_used dir) (direct_blocks dir) in
  file_ok x dir' /\ file_blocks dir' = file_blocks dir.
Proof.
  intros Hf. split; [|reflexivity]. pose proof (used_nonneg _ _ Hf) as Hu. destruct Hf as [Hi H1 H2 H3 H4 H5].
  constructor; try assumption; [|cbn [with_blocks size blocks_used]; lia].
  destruct Hi as [W1 W2 W3 W4 W5 W6]. constructor; try assumption. forall_inv. cbn [with_blocks inode_num file_type size blocks_used].
  repeat (constructor; [first [assumption | unfold is_u32, U32_MAX, BLOCK_SIZE, MAX_DIRECT_BLOCKS in *; lia]|]). constructor.
Qed.

Lemma zero_halves : halves (replicate 512 0) = [empty_entry; empty_entry].
Proof. vm_compute. reflexivity. Qed.

(** The end of [add_dir_entry] when every slot is taken. *)
Definition extend : fs unit :=
  let% new_block := allocate_block in
  let% blocks := lift (index_set (direct_blocks i) (Z.to_nat (blocks_used i)) new_block) in
  let% sector := block_sector new_block in
  let% _ := store sector (replicate 512 0) in
  let% _ := write_dir_entry sector 0 e in
  write_inode (with_blocks i ((blocks_used i + 1) * Z.of_nat BLOCK_SIZE) (blocks_used i + 1) blocks).

Lemma add_new_block : blocks_used i < Z.of_nat MAX_DIRECT_BLOCKS -> 0 < free_blocks (superblock s) ->
  (0 < free_count (block_bitmap s))%nat -> exists s', extend s = Done (Ok tt, s') /\ added s s' num n e.
Proof.
  intros Hu Hfree Hcount. pose proof (id_ok _ _ Hd) as Hok. fold i in Hok. pose proof (is_dir_valid _ _ Hd) as Hvalid.
  destruct (allocate_block_spec s Hr Hfree Hcount) as (m & s1 & E1 & Hr1 & Hm & Hfresh & Hb1 & Hd1 & _).
  destruct (grow_step s i m s1 Hok Hu Hm Hfresh Hb1) as (blocks & Ei & Hok1 & Hbl1). cbn zeta in Hok1, Hbl1.
  assert (in_range (Z.of_nat m)) as Hrange by (rewrite BLOCKS_val in Hm; unfold in_range, MAX_DATA_BLOCKS, TOTAL_SECTORS; lia).
  unfold extend, sbind at 1. rewrite E1. unfold sbind at 1, lift. rewrite Ei. cbn [bind]. unfold sbind at 1. rewrite block_sector_run by assumption.
  destruct (store_block s1 (Z.of_nat m) (replicate 512 0) Hr1 Hrange zero_sector) as (s2 & E2 & Hr2 & Hm2 & Hg2 & Ho2).
  unfold sbind at 1. rewrite E2.
  destruct (write_dir_entry_run s2 (Z.of_nat m) 0 e Hr2 Hrange ltac:(lia) added_entry_ok) as (s3 & E3 & Hr3 & Hm3 & Hh3 & Ho3).
  unfold sbind at 1. rewrite E3.
  set (i' := with_blocks i ((blocks_used i + 1) * Z.of_nat BLOCK_SIZE) (blocks_used i + 1) blocks).
  assert (file_ok s3 i' /\ file_blocks i' = file_blocks i ++ [Z.of_nat m]) as [Hok3 Hbl3].
  { destruct (dir_resize s3 _ (file_ok_meta _ _ _ Hm3 (file_ok_meta _ _ _ Hm2 Hok1))) as [HA HB].
    split; [exact HA|]. etransitivity; [exact HB|exact Hbl1]. }
  assert (inode_num i' = num) as Hnum by exact (id_num _ _ Hd).
  destruct (write_inode_spec s3 i' Hr3 (f_inode _ _ Hok3) (f_num _ _ Hok3)) as (s4 & E4 & Hr4 & Hm4 & Hst & _ & Hd4).
  rewrite Hnum in Hst. exists s4. split; [exact E4|].
  assert (slots (device s4) (file_blocks i') = dir_slots s num ++ [e; empty_entry]) as Esl.
  { rewrite Hbl3. unfold slots. rewrite map_app, concat_app. cbn [map concat]. rewrite app_nil_r.
    assert (forall c, in_range c -> contents (device s4) c = contents (device s3) c) as Hc4
      by (intros c Hc; unfold contents; rewrite Hd4; [reflexivity|unfold in_range in Hc; lia]). f_equal.
    - unfold dir_slots, slots. f_equal. apply map_ext_in. intros c Hc%list_elem_of_In.
      pose proof (proj1 (Forall_forall _ _) (f_blocks _ _ Hok) c Hc) as [Hcr Hcu]. rewrite Hc4 by exact Hcr. unfold contents.
      assert (c <> Z.of_nat m) by (intros ->; rewrite Nat2Z.id in Hcu; congruence). rewrite Ho3, Ho2, Hd1 by lia. reflexivity.
    - rewrite (Hc4 _ Hrange), Hh3. replace (contents (device s2) (Z.of_nat m)) with (replicate 512 0) by (unfold contents; now rewrite Hg2).
      rewrite zero_halves. reflexivity. }
  split; [exact Hr4|]. split.
  - constructor; rewrite Hst; [eapply file_ok_meta; eassumption|exact Hnum|apply Hd|]. rewrite Esl. apply Forall_app_2; [apply Hd|].
    constructor; [exact added_readable|]. constructor; [discriminate|constructor].
  - unfold dir_slots at 1 2. rewrite Hst, Esl. destruct added_entry_matches as [Hme Hmo]. split.
    + rewrite find_app, Hnew. unfold find_entry. cbn [find]. now rewrite Hme.
    + intros x Hx. rewrite find_app. destruct (find_entry x (dir_slots s num)); [reflexivity|]. unfold find_entry. cbn [find]. now rewrite Hmo.
Qed.

(** A name added to a directory is found. Adding an entry with a new name to
    a directory that has a free slot, or can grow by a block, succeeds; looking
    the name up gives the inode it was added with, and looking any other name up
    gives what it gave before. *)
Theorem added_name_is_found :
  (exists old, old ∈ dir_slots s num /\ in_use old = false)
  \/ blocks_used (stored_inode (device s) num) < Z.of_nat MAX_DIRECT_BLOCKS /\ 0 < free_blocks (superblock s)
     /\ (0 < free_count (block_bitmap s))%nat ->
  exists s', add_dir_entry num n child t s = Done (Ok tt, s') /\ ready s' /\ is_dir s' num
    /\ lookup_in_dir num n s' = Done (Ok child, s')
    /\ forall m, m <> n -> (length (bytes_of_string m) <= MAX_FILENAME_LEN)%nat ->
       exists r, lookup_in_dir num m s = Done (r, s) /\ lookup_in_dir num m s' = Done (r, s').
Proof.
  intros Hroom. fold i in Hroom. pose proof (id_ok _ _ Hd) as Hok. fold i in Hok.
  assert (exists s', add_dir_entry num n child t s = Done (Ok tt, s') /\ added s s' num n e) as (s' & E & Hr' & Hd' & Hfound & Hothers).
  { unfold add_dir_entry. rewrite (proj2 (Nat.eqb_neq _ _)), (proj2 (Nat.ltb_ge _ _)) by lia. cbn [orb].
    unfold sbind at 1, attempt. rewrite lookup_run by (assumption || lia). rewrite Hnew. cbn [bind is_ok].
    unfold sbind at 1. rewrite read_directory_run by assumption. fold i. fold e. unfold sbind at 1.
    destruct (first_free (dir_slots s num)) as [Hfull|(p & old & H1 & H2 & H3)].
    - rewrite (find_slot_full s i _ Hr Hok Hfull). destruct Hroom as [(old & Hold & Hu)|(Hu & Hf & Hc)].
      { rewrite Forall_forall in Hfull. rewrite (Hfull _ Hold) in Hu. discriminate Hu. }
      rewrite (proj2 (Z.leb_gt _ _)) by exact Hu. exact (add_new_block Hu Hf Hc).
    - destruct (add_in_slot p old H1 H2 H3) as (s' & E & Ha). rewrite E. exists s'. split; [reflexivity|exact Ha]. }
  exists s'. split; [exact E|]. split; [exact Hr'|]. split; [exact Hd'|]. split.
  - rewrite lookup_run by (assumption || lia). now rewrite Hfound.
  - intros m Hm Hml. eexists. split; [now apply lookup_run|]. rewrite lookup_run by assumption. now rewrite Hothers.
Qed.

End Add.

End Dirs.

(** ** Example *)

(** A new directory, whose two slots are taken. *)
Definition nested : HomeFs RamDisk :=
  match perform_all [OpCreateDirectory 1 "src" 0x1ED] fresh with Done s => s | Panicked => fresh end.

Definition src : Inode := mkInode 2 2 0x1ED 0 0 1 512 1 [1; 0; 0; 0; 0; 0; 0; 0] (replicate 8 0).

Lemma nested_ready : ready nested.
Proof.
  apply (performed_ready [OpCreateDirectory 1 "src" 0x1ED]); [repeat constructor|vm_compute; reflexivity|vm_compute; reflexivity].
Qed.

Lemma nested_dir : is_dir nested 2.
Proof.
  assert (stored_inode (device nested) 2 = src) as E by (vm_compute; reflexivity).
  assert (file_blocks src = [1]) as Ef by reflexivity.
  assert (slots (device nested) [1] = [new_entry 2 dot Directory; new_entry 1 dotdot Directory]) as Es by (vm_compute; reflexivity).
  constructor; rewrite E; [|reflexivity|reflexivity|].
  - split; rewrite ?Ef; [|split; vm_compute; congruence|vm_compute; discriminate|apply NoDup_singleton| |vm_compute; discriminate].
    + constructor; try reflexivity; repeat (apply Forall_cons_2; [vm_compute; split; discriminate|]); apply Forall_nil_2.
    + apply Forall_cons_2; [|apply Forall_nil_2]. split; [split; vm_compute; congruence|vm_compute; reflexivity].
  - rewrite Ef, Es. repeat (apply Forall_cons_2; [intros _; eexists; vm_compute; reflexivity|]). apply Forall_nil_2.
Qed.

Lemma added_name_is_found_witness :
  exists s', add_dir_entry 2 "main.rs" 7 File nested = Done (Ok tt, s') /\ lookup_in_dir 2 "main.rs" s' = Done (Ok 7, s').
Proof.
  destruct (added_name_is_found nested 2 7 "main.rs" File) as (s' & H1 & _ & _ & H2 & _);
    [exact nested_ready|exact nested_dir|vm_compute; split; congruence| |vm_compute; reflexivity|vm_compute; reflexivity| |].
  - split; apply Nat.leb_le; vm_compute; reflexivity.
  - right. split; [vm_compute; reflexivity|]. split; [vm_compute; reflexivity|]. apply Nat.ltb_lt. vm_compute. reflexivity.
  - exists s'. split; [exact H1|exact H2].
Defined.

End HomeDirs.
