(* ===== verification/Ata.v ===== *)
(** * The ATA driver (src/hal/src/ata.rs)

    The driver of the primary bus, port access by port access. The controller is
    hardware: [AtaHardware] states what the ATA standard says about its
    registers - a command is taken when the drive is not busy, the sector count
    and the address are those that were latched, a sector goes through the data
    port word by word, and the drive may take any time and may report an error,
    in the error bit of its status.
    One hypothesis goes beyond the standard, which leaves the other bits of the
    status open while the drive is busy: [hw_quiet] says that they are clear,
    since the driver tests for data without testing that the drive is not busy.
    The driver is shown to implement the block device interface the file
    systems are written against, with the exceptions that a slow or a failing
    drive makes. *)

From S2P Require Import Prelude Bytes Block HomeFs HomeSync HomeFiles.
Import Bytes Block.

Module Ata.

Definition ATA_PRIMARY_IO : Z := 0x1F0.
Definition ATA_DATA : Z := 0.
Definition ATA_SECTOR_COUNT : Z := 2.
Definition ATA_LBA_LOW : Z := 3.
Definition ATA_LBA_MID : Z := 4.
Definition ATA_LBA_HIGH : Z := 5.
Definition ATA_DRIVE_SELECT : Z := 6.
Definition ATA_COMMAND : Z := 7.
Definition ATA_STATUS : Z := 7.
Definition ATA_STATUS_BSY : Z := 0x80.
Definition ATA_STATUS_DRQ : Z := 0x08.
Definition ATA_STATUS_ERR : Z := 0x01.
Definition ATA_CMD_READ_SECTORS : Z := 0x20.
Definition ATA_CMD_WRITE_SECTORS : Z := 0x30.

(** [struct AtaDisk]. *)
Record AtaDisk : Type := mkAta { io_base : Z; drive_select_base : Z }.
Definition new : AtaDisk := mkAta ATA_PRIMARY_IO 0xE0.
Definition new_slave : AtaDisk := mkAta ATA_PRIMARY_IO 0xF0.

(** Ports of 8 and of 16 bits. *)
Class Ports (C : Type) : Type := {
  in8 : Z -> C -> Z * C;
  out8 : Z -> Z -> C -> C;
  in16 : Z -> C -> Z * C;
  out16 : Z -> Z -> C -> C
}.

Section Driver.

Context {C : Type} `{Ports C}.

Definition read8 (p : Z) : stm C BlockError Z := fun c => let (v, c) := in8 p c in Done (Ok v, c).
Definition write8 (p v : Z) : stm C BlockError unit := fun c => Done (Ok tt, out8 p v c).
Definition read16 (p : Z) : stm C BlockError Z := fun c => let (v, c) := in16 p c in Done (Ok v, c).
Definition write16 (p v : Z) : stm C BlockError unit := fun c => Done (Ok tt, out16 p v c).

(** The loop of [wait_not_busy], [n] polls left. *)
Fixpoint poll_bsy (p : Z) (n : nat) : stm C BlockError unit :=
  match n with
  | O => sfail NotReady
  | S n' =>
      let% status := read8 p in
      if Z.land status ATA_STATUS_BSY =? 0 then sret tt else poll_bsy p n'
  end.

Definition wait_not_busy (a : AtaDisk) : stm C BlockError unit := poll_bsy (io_base a + ATA_STATUS) 1000.

(** The loop of [wait_drq]. *)
Fixpoint poll_drq (p : Z) (n : nat) : stm C BlockError unit :=
  match n with
  | O => sfail NotReady
  | S n' =>
      let% status := read8 p in
      if negb (Z.land status ATA_STATUS_DRQ =? 0) then sret tt
      else if negb (Z.land status ATA_STATUS_ERR =? 0) then sfail IoError
      else poll_drq p n'
  end.

Definition wait_drq (a : AtaDisk) : stm C BlockError unit := poll_drq (io_base a + ATA_STATUS) 1000.

(** The registers and the command, common to reading and writing. *)
Definition send_command (a : AtaDisk) (sector command : Z) : stm C BlockError unit :=
  let drive := Z.lor (drive_select_base a) (Z.land (Z.shiftr sector 24) 0x0F) in
  let% _ := write8 (io_base a + ATA_DRIVE_SELECT) drive in
  let% _ := write8 (io_base a + ATA_SECTOR_COUNT) 1 in
  let% _ := write8 (io_base a + ATA_LBA_LOW) (Z.land sector 0xFF) in
  let% _ := write8 (io_base a + ATA_LBA_MID) (Z.land (Z.shiftr sector 8) 0xFF) in
  let% _ := write8 (io_base a + ATA_LBA_HIGH) (Z.land (Z.shiftr sector 16) 0xFF) in
  write8 (io_base a + ATA_COMMAND) command.

(** The loop that reads the words, [n] left. *)
Fixpoint read_words (p : Z) (n : nat) : stm C BlockError (list Z) :=
  match n with
  | O => sret []
  | S n' =>
      let% word := read16 p in
      let% rest := read_words p n' in
      sret (Z.land word 0xFF :: Z.land (Z.shiftr word 8) 0xFF :: rest)
  end.

(** [read_sector]: the buffer it fills. *)
Definition read_sector (a : AtaDisk) (sector : Z) : stm C BlockError (list Z) :=
  if 2 ^ 28 <=? sector then sfail InvalidSector
  else
    let% _ := wait_not_busy a in
    let% _ := send_command a sector ATA_CMD_READ_SECTORS in
    let% _ := wait_drq a in
    read_words (io_base a + ATA_DATA) 256.

(** The loop that writes the words of a buffer. *)
Fixpoint write_words (p : Z) (buffer : list Z) : stm C BlockError unit :=
  match buffer with
  | lo :: hi :: rest =>
      let% _ := write16 p (Z.lor lo (wrap16 (Z.shiftl hi 8))) in
      write_words p rest
  | _ => sret tt
  end.

(** [write_sector]. *)
Definition write_sector (a : AtaDisk) (sector : Z) (buffer : list Z) : stm C BlockError unit :=
  if 2 ^ 28 <=? sector then sfail InvalidSector
  else
    let% _ := wait_not_busy a in
    let% _ := send_command a sector ATA_CMD_WRITE_SECTORS in
    let% _ := wait_drq a in
    let% _ := write_words (io_base a + ATA_DATA) buffer in
    wait_not_busy a.

End Driver.

(** ** The controller *)

(** What a transfer is waiting for. *)
Inductive mode : Type :=
  | Idle
  | Sending (bytes : list Z)
  | Receiving (slave : bool) (lba : Z) (bytes : list Z)
  | Faulted.

(** The registers, how many more polls find the drive busy, and the media. *)
Record controller : Type := mkController {
  latched : Z -> Z; busy : nat; at_mode : mode; media : bool -> list (list Z) }.

Definition with_latched (s : controller) (p v : Z) : controller :=
  mkController (fun q => if q =? p then v else latched s q) (busy s) (at_mode s) (media s).
Definition with_busy (s : controller) (n : nat) : controller := mkController (latched s) n (at_mode s) (media s).
Definition with_mode (s : controller) (m : mode) : controller := mkController (latched s) (busy s) m (media s).
Definition with_sector (s : controller) (slave : bool) (lba : Z) (b : list Z) : controller :=
  mkController (latched s) (busy s) (at_mode s)
    (fun x => if Bool.eqb x slave then <[Z.to_nat lba := b]> (media s x) else media s x).

(** Bit 4 of the drive register is the drive, bits 0 to 3 are the top of the address. *)
Definition slave_of (s : controller) : bool := Z.testbit (latched s 0x1F6) 4.
Definition lba_of (s : controller) : Z :=
  latched s 0x1F3 + latched s 0x1F4 * 2 ^ 8 + latched s 0x1F5 * 2 ^ 16 + Z.land (latched s 0x1F6) 0x0F * 2 ^ 24.

Definition transferring (m : mode) : bool := match m with Sending _ | Receiving _ _ _ => true | _ => false end.
Definition faulted (m : mode) : bool := match m with Faulted => true | _ => false end.

(** The status: the other bits mean something when the drive is not busy. *)
Definition status_ok (s : controller) (v : Z) : Prop :=
  Z.testbit v 7 = (0 <? busy s)%nat /\
  (busy s = 0%nat -> Z.testbit v 3 = transferring (at_mode s) /\ Z.testbit v 0 = faulted (at_mode s)).

(** The mode after a command that names a sector of the medium, or does not;
    the drive may report an error for a sector that it has. *)
Definition started (s : controller) (command : Z) (error : bool) : controller :=
  match media s (slave_of s) !! Z.to_nat (lba_of s) with
  | Some b =>
      with_mode s (if error then Faulted
                   else if command =? ATA_CMD_READ_SECTORS then Sending b else Receiving (slave_of s) (lba_of s) [])
  | None => with_mode s Faulted
  end.

(** The last word of a sector was written: the sector is, or the drive reports
    an error and the sector holds something. *)
Definition stored (s : controller) (slave : bool) (lba : Z) (b junk : list Z) (error : bool) : controller :=
  if error then with_mode (with_sector s slave lba junk) Faulted else with_mode (with_sector s slave lba b) Idle.

Class AtaHardware (C : Type) `{Ports C} : Type := {
  shows : C -> controller -> Prop;
  (** How many polls find the drive busy after a command or a sector, and
      whether it reports an error then. *)
  behaves : nat -> bool -> Prop;
  hw_status : forall c s, shows c s ->
    exists v c', in8 0x1F7 c = (v, c') /\ status_ok s v /\ shows c' (with_busy s (pred (busy s)));
  hw_quiet : forall c s v c', shows c s -> in8 0x1F7 c = (v, c') -> (0 < busy s)%nat ->
    Z.testbit v 3 = false /\ Z.testbit v 0 = false;
  hw_register : forall c s p v, shows c s -> busy s = 0%nat -> transferring (at_mode s) = false ->
    0x1F2 <= p <= 0x1F6 -> is_u8 v -> shows (out8 p v c) (with_latched s p v);
  hw_command : forall c s v, shows c s -> busy s = 0%nat -> transferring (at_mode s) = false -> latched s 0x1F2 = 1 ->
    v = ATA_CMD_READ_SECTORS \/ v = ATA_CMD_WRITE_SECTORS ->
    exists n error, behaves n error /\ shows (out8 0x1F7 v c) (with_busy (started s v error) n);
  hw_send : forall c s lo hi rest, shows c s -> busy s = 0%nat -> at_mode s = Sending (lo :: hi :: rest) ->
    exists c', in16 0x1F0 c = (lo + 256 * hi, c') /\
      shows c' (with_mode s (match rest with [] => Idle | _ => Sending rest end));
  hw_receive : forall c s slave lba acc lo hi, shows c s -> busy s = 0%nat -> at_mode s = Receiving slave lba acc ->
    is_u8 lo -> is_u8 hi -> (length acc + 2 < SECTOR_SIZE)%nat ->
    shows (out16 0x1F0 (lo + 256 * hi) c) (with_mode s (Receiving slave lba (acc ++ [lo; hi])));
  hw_received : forall c s slave lba acc lo hi, shows c s -> busy s = 0%nat -> at_mode s = Receiving slave lba acc ->
    is_u8 lo -> is_u8 hi -> (length acc + 2 = SECTOR_SIZE)%nat ->
    exists n error junk, behaves n error /\ is_sector junk /\
      shows (out16 0x1F0 (lo + 256 * hi) c) (with_busy (stored s slave lba (acc ++ [lo; hi]) junk error) n)
}.

(** A drive that answers within the 1000 polls of the driver and reports no
    error for a sector that it has. *)
Definition prompt (C : Type) `{AtaHardware C} : Prop := forall n error, behaves n error -> (n < 1000)%nat /\ error = false.

(** ** What the driver implements *)

(** A disk of up to 2^28 sectors. *)
Record medium : Type := mkMedium { sectors : list (list Z) }.

Definition medium_read (d : medium) (n : Z) : result (list Z) BlockError :=
  if 2 ^ 28 <=? n then Err InvalidSector
  else match ram_read (sectors d) n with Ok b => Ok b | Err _ => Err IoError end.

Definition medium_write (d : medium) (n : Z) (b : list Z) : result medium BlockError :=
  if 2 ^ 28 <=? n then Err InvalidSector
  else match ram_write (sectors d) n b with Ok l => Ok (mkMedium l) | Err _ => Err IoError end.

#[export, refine] Instance medium_device : BlockDevice medium :=
  { Block.read_sector := medium_read; Block.write_sector := medium_write }.
Proof.
  - intros d n b. unfold medium_read. case_match; [discriminate|]. destruct (ram_read (sectors d) n) eqn:E; intros [= <-].
    eapply ram_read_ok; exact E.
  - intros d n b d' Hb. unfold medium_write, medium_read. destruct (2 ^ 28 <=? n) eqn:En; [discriminate|].
    destruct (ram_write (sectors d) n b) as [l|] eqn:E; intros [= <-]. cbn [sectors].
    destruct (ram_write_read (sectors d) n b l Hb E) as [H1 H2]. rewrite H1. split; [reflexivity|].
    intros m Hm. now rewrite (H2 m Hm).
Defined.

(** The drives of the bus. *)
Definition ata (slave : bool) : AtaDisk := if slave then new_slave else new.

(** The controller has no transfer going on, is busy for at most [k] polls, and
    its drives hold the given media. *)
Definition attached {C} `{AtaHardware C} (k : nat) (c : C) (ds : bool -> medium) : Prop :=
  exists s, shows c s /\ (busy s <= k)%nat /\ transferring (at_mode s) = false /\
    forall x, media s x = sectors (ds x) /\ Forall is_sector (sectors (ds x)).

(** The controller shows an error. *)
Definition reports_error {C} `{AtaHardware C} (c : C) : Prop := exists s, shows c s /\ busy s = 0%nat /\ at_mode s = Faulted.

Definition replaced (ds : bool -> medium) (slave : bool) (d : medium) : bool -> medium :=
  fun x => if Bool.eqb x slave then d else ds x.

(** ** Lemmas *)

Lemma land_bit v k : 0 <= k -> (Z.land v (2 ^ k) =? 0) = negb (Z.testbit v k).
Proof.
  intros Hk. destruct (Z.testbit v k) eqn:E; cbn [negb].
  - apply Z.eqb_neq. intros H. assert (T : Z.testbit (Z.land v (2 ^ k)) k = true)
      by (rewrite Z.land_spec, E, Z.pow2_bits_true by lia; reflexivity). rewrite H, Z.bits_0 in T. discriminate.
  - apply Z.eqb_eq. apply Z.bits_inj'. intros m Hm. rewrite Z.land_spec, Z.pow2_bits_eqb, Z.bits_0 by lia.
    destruct (Z.eqb_spec k m) as [<-|]; [now rewrite E|apply andb_false_r].
Qed.

Section Hardware.

Context {C : Type} `{AtaHardware C}.

(** Polling ends when the drive is not busy, or after [n] polls. *)
Lemma poll_bsy_spec n : forall c s, shows c s ->
  exists c', shows c' (with_busy s (busy s - n)) /\ poll_bsy 0x1F7 n c = Done (if (busy s <? n)%nat then Ok tt else Err NotReady, c').
Proof.
  induction n as [|n IH]; intros c s Hs.
  { exists c. rewrite Nat.sub_0_r. split; [now destruct s|reflexivity]. }
  cbn [poll_bsy]. unfold sbind, read8.
  destruct (hw_status c s Hs) as (v & c' & -> & (Hb & _) & Hs'). change ATA_STATUS_BSY with (2 ^ 7).
  rewrite land_bit, Hb by lia. destruct (busy s) as [|k] eqn:Ek; cbn [Nat.ltb Nat.leb negb].
  - exists c'. split; [exact Hs'|reflexivity].
  - destruct (IH c' _ Hs') as (c2 & Hs2 & E). exists c2. split; [exact Hs2|]. rewrite E. reflexivity.
Qed.

Lemma poll_drq_spec n : forall c s, shows c s -> transferring (at_mode s) || faulted (at_mode s) = true ->
  exists c', shows c' (with_busy s (busy s - n)) /\
    poll_drq 0x1F7 n c = Done (if (busy s <? n)%nat then if transferring (at_mode s) then Ok tt else Err IoError else Err NotReady, c').
Proof.
  induction n as [|n IH]; intros c s Hs Hm.
  { exists c. rewrite Nat.sub_0_r. split; [now destruct s|reflexivity]. }
  cbn [poll_drq]. unfold sbind, read8.
  destruct (hw_status c s Hs) as (v & c' & E0 & (_ & Hd) & Hs'). pose proof (hw_quiet c s v c' Hs E0) as Hq. rewrite E0.
  change ATA_STATUS_DRQ with (2 ^ 3). change ATA_STATUS_ERR with (2 ^ 0). rewrite !land_bit by lia.
  destruct (busy s) as [|k] eqn:Ek.
  - destruct (Hd eq_refl) as [-> ->]. exists c'. split; [exact Hs'|]. cbn [Nat.ltb Nat.leb]. rewrite !negb_involutive.
    destruct (transferring (at_mode s)); [reflexivity|]. cbn in Hm. now rewrite Hm.
  - destruct (Hq ltac:(lia)) as [-> ->]. cbn [negb]. destruct (IH c' _ Hs' Hm) as (c2 & Hs2 & E). exists c2. split; [exact Hs2|]. rewrite E. reflexivity.
Qed.

End Hardware.

Lemma lba_parts x : 0 <= x < 2 ^ 28 ->
  x = Z.land x 0xFF + Z.land (Z.shiftr x 8) 0xFF * 2 ^ 8 + Z.land (Z.shiftr x 16) 0xFF * 2 ^ 16 +
      Z.land (Z.shiftr x 24) 0x0F * 2 ^ 24.
Proof.
  intros Hx. change 0xFF with (Z.ones 8). change 0x0F with (Z.ones 4). rewrite !Z.land_ones, !Z.shiftr_div_pow2 by lia.
  replace (x / 2 ^ 24) with (x / 2 ^ 8 / 2 ^ 8 / 2 ^ 8) by (rewrite !Z.div_div by lia; reflexivity).
  replace (x / 2 ^ 16) with (x / 2 ^ 8 / 2 ^ 8) by (rewrite !Z.div_div by lia; reflexivity).
  pose proof (Z.div_mod x (2 ^ 8) ltac:(lia)). pose proof (Z.div_mod (x / 2 ^ 8) (2 ^ 8) ltac:(lia)).
  pose proof (Z.div_mod (x / 2 ^ 8 / 2 ^ 8) (2 ^ 8) ltac:(lia)).
  rewrite (Z.mod_small (x / 2 ^ 8 / 2 ^ 8 / 2 ^ 8) (2 ^ 4)).
  - lia.
  - rewrite !Z.div_div by lia. split; [apply Z.div_pos; lia|]. apply Z.div_lt_upper_bound; lia.
Qed.

Lemma land_u8 x : is_u8 (Z.land x 0xFF).
Proof. change 0xFF with (Z.ones 8). rewrite Z.land_ones by lia. pose proof (Z.mod_pos_bound x (2 ^ 8)). unfold is_u8, U8_MAX. lia. Qed.

(** The drive register. *)
Lemma drive_register slave x :
  let v := Z.lor (drive_select_base (ata slave)) (Z.land x 0x0F) in
  is_u8 v /\ Z.testbit v 4 = slave /\ Z.land v 0x0F = Z.land x 0x0F.
Proof.
  cbv zeta. change 0x0F with (Z.ones 4). rewrite Z.land_ones by lia.
  pose proof (Z.mod_pos_bound x (2 ^ 4) ltac:(lia)) as Hb. set (y := x mod 2 ^ 4) in *. clearbody y.
  assert (Hc : y = 0 \/ y = 1 \/ y = 2 \/ y = 3 \/ y = 4 \/ y = 5 \/ y = 6 \/ y = 7 \/ y = 8 \/ y = 9 \/ y = 10 \/ y = 11 \/
    y = 12 \/ y = 13 \/ y = 14 \/ y = 15) by lia.
  clear Hb. unfold is_u8, U8_MAX.
  destruct slave; cbn [ata new new_slave drive_select_base];
    repeat (destruct Hc as [->|Hc]; [vm_compute; intuition congruence|]); subst; vm_compute; intuition congruence.
Qed.

Section Transfers.

Context {C : Type} `{AtaHardware C}.

Lemma send_command_spec slave sector command c s :
  shows c s -> busy s = 0%nat -> transferring (at_mode s) = false -> 0 <= sector < 2 ^ 28 ->
  command = ATA_CMD_READ_SECTORS \/ command = ATA_CMD_WRITE_SECTORS ->
  exists n error c' s1, send_command (ata slave) sector command c = Done (Ok tt, c') /\ behaves n error /\
    shows c' (with_busy (started s1 command error) n) /\ media s1 = media s /\ slave_of s1 = slave /\ lba_of s1 = sector.
Proof.
  intros Hs Hb Ht Hx Hc. destruct (drive_register slave (Z.shiftr sector 24)) as (V1 & V2 & V3).
  unfold send_command, sbind, write8. replace (io_base (ata slave)) with 0x1F0 by now destruct slave.
  set (drive := Z.lor _ _) in *. clearbody drive.
  change (0x1F0 + ATA_DRIVE_SELECT) with 0x1F6. change (0x1F0 + ATA_SECTOR_COUNT) with 0x1F2.
  change (0x1F0 + ATA_LBA_LOW) with 0x1F3. change (0x1F0 + ATA_LBA_MID) with 0x1F4. change (0x1F0 + ATA_LBA_HIGH) with 0x1F5.
  change (0x1F0 + ATA_COMMAND) with 0x1F7.
  pose proof (hw_register _ _ 0x1F6 drive Hs Hb Ht ltac:(lia) V1) as S1.
  pose proof (hw_register _ _ 0x1F2 1 S1 Hb Ht ltac:(lia) ltac:(unfold is_u8, U8_MAX; lia)) as S2.
  pose proof (hw_register _ _ 0x1F3 _ S2 Hb Ht ltac:(lia) (land_u8 sector)) as S3.
  pose proof (hw_register _ _ 0x1F4 _ S3 Hb Ht ltac:(lia) (land_u8 (Z.shiftr sector 8))) as S4.
  pose proof (hw_register _ _ 0x1F5 _ S4 Hb Ht ltac:(lia) (land_u8 (Z.shiftr sector 16))) as S5.
  destruct (hw_command _ _ command S5 Hb Ht eq_refl Hc) as (n & error & Hn & S6).
  eexists n, error, _, _. split; [reflexivity|]. split; [exact Hn|]. split; [exact S6|]. split; [reflexivity|].
  split; [exact V2|]. unfold lba_of. cbn [latched with_latched]. cbn -[Z.land Z.shiftr Z.mul Z.add Z.pow].
  rewrite V3. symmetry. now apply lba_parts.
Qed.

Lemma word_bytes lo hi : is_u8 lo -> is_u8 hi ->
  Z.land (lo + 256 * hi) 0xFF = lo /\ Z.land (Z.shiftr (lo + 256 * hi) 8) 0xFF = hi /\ Z.lor lo (wrap16 (Z.shiftl hi 8)) = lo + 256 * hi.
Proof.
  unfold is_u8, U8_MAX, wrap16. intros Hl Hh. change 0xFF with (Z.ones 8).
  rewrite !Z.land_ones, Z.shiftr_div_pow2, Z.shiftl_mul_pow2 by lia.
  replace (lo + 256 * hi) with (lo + hi * 2 ^ 8) by lia. rewrite Z_mod_plus_full, Z.mod_small by lia.
  rewrite Z_div_plus_full, (Z.div_small lo) by lia. rewrite Z.add_0_l, !Z.mod_small by lia. split; [reflexivity|]. split; [reflexivity|].
  rewrite <- Z.shiftl_mul_pow2 by lia. rewrite Z.lor_comm, Z.add_comm, <- Z.add_lor_land, Z.land_comm.
  replace (Z.land lo (Z.shiftl hi 8)) with 0; [lia|]. symmetry. apply Z.bits_inj'. intros m Hm.
  rewrite Z.land_spec, Z.bits_0, Z.shiftl_spec by lia. destruct (Z.ltb_spec m 8).
  - rewrite (Z.testbit_neg_r hi) by lia. apply andb_false_r.
  - rewrite <- (Z.mod_small lo (2 ^ 8)) by lia. rewrite Z.mod_pow2_bits_high by lia. reflexivity.
Qed.

Lemma read_words_spec n : forall bytes c s,
  shows c s -> busy s = 0%nat -> at_mode s = Sending bytes -> length bytes = (2 * S n)%nat -> bytes_ok bytes ->
  exists c', read_words 0x1F0 (S n) c = Done (Ok bytes, c') /\ shows c' (with_mode s Idle).
Proof.
  induction n as [|n IH]; intros bytes c s Hs Hb Hm Hl Hok; destruct bytes as [|lo [|hi rest]]; try discriminate Hl;
    apply Forall_cons in Hok as [Hlo Hok]; apply Forall_cons in Hok as [Hhi Hok];
    destruct (word_bytes lo hi Hlo Hhi) as (W1 & W2 & _); destruct (hw_send c s lo hi rest Hs Hb Hm) as (c' & E & S1).
  - destruct rest; [|cbn in Hl; lia]. exists c'. cbn [read_words]. unfold sbind, read16. rewrite E, W1, W2. split; [reflexivity|exact S1].
  - assert (Hr : rest <> []) by (intros ->; cbn in Hl; lia).
    assert (S2 : shows c' (with_mode s (Sending rest))) by now destruct rest.
    destruct (IH rest c' _ S2 Hb eq_refl) as (c2 & E2 & S3); [cbn in Hl; lia|exact Hok|].
    exists c2. split; [|exact S3]. change (read_words 0x1F0 (S (S n)))
      with (sbind (read16 0x1F0) (fun word => sbind (read_words 0x1F0 (S n))
              (fun rest => sret (Z.land word 0xFF :: Z.land (Z.shiftr word 8) 0xFF :: rest)))).
    unfold sbind at 1, read16. rewrite E. unfold sbind. rewrite E2, W1, W2. reflexivity.
Qed.

Lemma write_words_spec k : forall buffer c s slave lba acc,
  shows c s -> busy s = 0%nat -> at_mode s = Receiving slave lba acc -> bytes_ok buffer ->
  length buffer = (2 * S k)%nat -> (length acc + length buffer = SECTOR_SIZE)%nat ->
  exists n error junk c', write_words 0x1F0 buffer c = Done (Ok tt, c') /\ behaves n error /\ is_sector junk /\
    shows c' (with_busy (stored s slave lba (acc ++ buffer) junk error) n).
Proof.
  induction k as [|k IH]; intros buffer c s slave lba acc Hs Hb Hm Hok Hl Ha; destruct buffer as [|lo [|hi rest]]; try discriminate Hl;
    apply Forall_cons in Hok as [Hlo Hok]; apply Forall_cons in Hok as [Hhi Hok];
    destruct (word_bytes lo hi Hlo Hhi) as (_ & _ & W); cbn [write_words]; unfold sbind, write16; rewrite W; cbn [length] in *.
  - destruct rest; [|cbn in Hl; lia]. cbn [length] in Ha.
    destruct (hw_received c s slave lba acc lo hi Hs Hb Hm Hlo Hhi) as (n & error & junk & Hn & Hj & S1); [lia|].
    exists n, error, junk. eexists. split; [reflexivity|]. auto.
  - pose proof (hw_receive c s slave lba acc lo hi Hs Hb Hm Hlo Hhi ltac:(lia)) as S1.
    destruct (IH rest _ _ slave lba (acc ++ [lo; hi]) S1 Hb eq_refl Hok) as (n & error & junk & c' & E & Hn & Hj & S2);
      [lia|rewrite length_app; cbn; lia|].
    exists n, error, junk, c'. rewrite <- app_assoc in S2. auto.
Qed.

Lemma wait_not_busy_spec slave c s : shows c s ->
  exists c', shows c' (with_busy s (busy s - 1000)) /\ wait_not_busy (ata slave) c = Done (if (busy s <? 1000)%nat then Ok tt else Err NotReady, c').
Proof. intros Hs. unfold wait_not_busy. replace (io_base (ata slave) + ATA_STATUS) with 0x1F7 by now destruct slave. now apply poll_bsy_spec. Qed.

Lemma wait_drq_spec slave c s : shows c s -> transferring (at_mode s) || faulted (at_mode s) = true ->
  exists c', shows c' (with_busy s (busy s - 1000)) /\
    wait_drq (ata slave) c = Done (if (busy s <? 1000)%nat then if transferring (at_mode s) then Ok tt else Err IoError else Err NotReady, c').
Proof. intros Hs. unfold wait_drq. replace (io_base (ata slave) + ATA_STATUS) with 0x1F7 by now destruct slave. now apply poll_drq_spec. Qed.

#[local] Opaque wait_not_busy wait_drq send_command read_words write_words.

(** From the readiness of the drive to the transfer, or to the error: the drive
    is too slow, or it transfers, or it reports an error. *)
Lemma command_phase slave n command c s :
  shows c s -> transferring (at_mode s) = false -> 0 <= n < 2 ^ 28 -> command = ATA_CMD_READ_SECTORS \/ command = ATA_CMD_WRITE_SECTORS ->
  exists r c', (let% _ := wait_not_busy (ata slave) in let% _ := send_command (ata slave) n command in wait_drq (ata slave)) c = Done (r, c') /\
    (r = Err NotReady /\ ((1000 <= busy s)%nat \/ exists k error, behaves k error /\ (1000 <= k)%nat)
     \/ exists k error s', behaves k error /\ shows c' s' /\ busy s' = 0%nat /\ media s' = media s /\
        match media s slave !! Z.to_nat n, error with
        | Some b, false => r = Ok tt /\ at_mode s' = if command =? ATA_CMD_READ_SECTORS then Sending b else Receiving slave n []
        | _, _ => r = Err IoError /\ at_mode s' = Faulted
        end).
Proof.
  intros Hs Ht Hn Hc. destruct (wait_not_busy_spec slave c s Hs) as (c1 & S1 & E1). unfold sbind. rewrite E1.
  destruct (Nat.ltb_spec (busy s) 1000) as [Hb|Hb]; [|exists (Err NotReady), c1; split; [reflexivity|left; auto]].
  replace (busy s - 1000)%nat with 0%nat in S1 by lia.
  destruct (send_command_spec slave n command c1 _ S1 eq_refl Ht Hn Hc) as (k & error & c2 & s2 & E2 & Hk & S2 & M & V & L).
  rewrite E2. unfold started in S2. rewrite M, V, L in S2. cbn [media with_busy] in S2, M.
  assert (exists mode2, shows c2 (with_busy (with_mode s2 mode2) k) /\ transferring mode2 || faulted mode2 = true /\
    mode2 = match media s slave !! Z.to_nat n, error with
            | Some b, false => if command =? ATA_CMD_READ_SECTORS then Sending b else Receiving slave n [] | _, _ => Faulted end) as (m2 & S3 & Hm2 & Em2).
  { destruct (media s slave !! Z.to_nat n) as [b|], error; eexists; (split; [exact S2|]); (split; [|reflexivity]); try reflexivity.
    now destruct (command =? ATA_CMD_READ_SECTORS). }
  destruct (wait_drq_spec slave c2 _ S3 Hm2) as (c3 & S4 & E3). cbn [busy with_busy at_mode with_mode] in S4, E3. eexists _, c3. split; [exact E3|].
  destruct (Nat.ltb_spec k 1000) as [Hk1|Hk1]; [right|left; split; [reflexivity|right; now exists k, error]].
  exists k, error. eexists. split; [exact Hk|]. split; [exact S4|]. split; [cbn; lia|]. split; [cbn; exact M|]. cbn [at_mode with_busy with_mode].
  rewrite Em2. destruct (media s slave !! Z.to_nat n) as [b|], error; try (now split). now destruct (command =? ATA_CMD_READ_SECTORS).
Qed.

Lemma after_phase {S E T} (a b d : stm S E unit) (k : stm S E T) s :
  (let% _ := a in let% _ := b in let% _ := d in k) s = (let% _ := (let% _ := a in let% _ := b in d) in k) s.
Proof. unfold sbind. repeat case_match; simplify_eq; reflexivity. Qed.

Lemma ram_read_some l n b : Forall is_sector l -> 0 <= n -> l !! Z.to_nat n = Some b -> ram_read l n = Ok b.
Proof.
  intros Hl Hn Hb. unfold ram_read. rewrite (proj2 (Z.ltb_ge n 0)), Hb by lia.
  destruct (proj1 (Forall_lookup _ _) Hl _ _ Hb) as [-> Hok]. cbn [Nat.eqb andb]. rewrite Nat.eqb_refl. cbn [andb].
  replace (forallb _ b) with true; [reflexivity|]. symmetry. apply forallb_forall. intros x Hx%list_elem_of_In.
  unfold bytes_ok in Hok. rewrite Forall_forall in Hok. specialize (Hok x Hx). unfold is_u8 in Hok. lia.
Qed.

(** Reading: too slow; or the abstract disk's answer; or an error that the drive
    reports for a sector that it has. *)
Lemma ata_read_spec slave c ds k n : attached k c ds -> 0 <= n ->
  exists r c', read_sector (ata slave) n c = Done (r, c') /\
    (r = Err NotReady /\ ((1000 <= k)%nat \/ exists d error, behaves d error /\ (1000 <= d)%nat)
     \/ attached k c' ds /\ (r = Block.read_sector (ds slave) n \/ r = Err IoError /\ exists d, behaves d true)).
Proof.
  intros (s & Hs & Hb & Ht & Hm) Hn. cbn [Block.read_sector medium_device]. unfold read_sector, medium_read.
  destruct (Z.leb_spec (2 ^ 28) n) as [Hbig|Hlt]; [do 2 eexists; split; [reflexivity|]; right; split; [exists s; auto|now left]|].
  destruct (Hm slave) as [M1 M2]. rewrite after_phase. unfold sbind at 1.
  destruct (command_phase slave n ATA_CMD_READ_SECTORS c s Hs Ht ltac:(lia) ltac:(now left)) as (r & c1 & -> & [[-> Hc]|(d & error & s1 & Hd & S1 & B1 & D1 & A1)]).
  { do 2 eexists. split; [reflexivity|]. left. split; [reflexivity|]. destruct Hc; [left; lia|now right]. }
  rewrite M1 in A1. replace (io_base (ata slave) + ATA_DATA) with 0x1F0 by now destruct slave.
  assert (forall c2 m, transferring m = false -> shows c2 (with_mode s1 m) -> attached k c2 ds) as Hatt.
  { intros c2 m Htm S2. eexists. split; [exact S2|]. split; [cbn; lia|]. split; [exact Htm|]. intros x. cbn. rewrite D1. apply Hm. }
  assert (at_mode s1 = Faulted -> attached k c1 ds) as Hfault by (intros Ef; apply (Hatt c1 Faulted eq_refl); rewrite <- Ef; now destruct s1).
  destruct (sectors (ds slave) !! Z.to_nat n) as [b|] eqn:Eb; [destruct error|].
  - destruct A1 as [-> A1]. do 2 eexists. split; [reflexivity|]. right. split; [now apply Hfault|]. right. split; [reflexivity|now exists d].
  - destruct A1 as [-> A1]. rewrite (ram_read_some _ _ _ M2 Hn Eb). destruct (proj1 (Forall_lookup _ _) M2 _ _ Eb) as [Lb Ob].
    destruct (read_words_spec 255 b c1 s1 S1 B1 A1 Lb Ob) as (c2 & -> & S2). do 2 eexists. split; [reflexivity|]. right.
    split; [now apply (Hatt c2 Idle)|now left].
  - destruct A1 as [-> A1]. unfold ram_read. rewrite (proj2 (Z.ltb_ge n 0)), Eb by lia. do 2 eexists. split; [reflexivity|]. right.
    split; [now apply Hfault|now left].
Qed.

(** Writing: too slow; or the abstract disk's answer; or an error. The error of
    a drive that could not store the sector is not noticed. *)
Lemma ata_write_spec slave c ds k n b : attached k c ds -> 0 <= n -> is_sector b ->
  exists r c', write_sector (ata slave) n b c = Done (r, c') /\
    (r = Err NotReady /\ ((1000 <= k)%nat \/ exists d error, behaves d error /\ (1000 <= d)%nat)
     \/ match Block.write_sector (ds slave) n b with
        | Ok d => r = Ok tt /\ attached k c' (replaced ds slave d)
        | Err e => r = Err e /\ attached k c' ds
        end
     \/ (exists d, behaves d true) /\
        (r = Err IoError /\ attached k c' ds
         \/ r = Ok tt /\ reports_error c' /\
            exists junk d, is_sector junk /\ Block.write_sector (ds slave) n junk = Ok d /\ attached k c' (replaced ds slave d))).
Proof.
  intros (s & Hs & Hb & Ht & Hm) Hn [Lb Ob]. cbn [Block.write_sector medium_device]. unfold write_sector, medium_write.
  destruct (Z.leb_spec (2 ^ 28) n) as [Hbig|Hlt]; [do 2 eexists; split; [reflexivity|]; right; left; split; [reflexivity|exists s; auto]|].
  destruct (Hm slave) as [M1 M2]. rewrite after_phase. unfold sbind at 1.
  destruct (command_phase slave n ATA_CMD_WRITE_SECTORS c s Hs Ht ltac:(lia) ltac:(now right)) as (r & c1 & -> & [[-> Hc]|(d & error & s1 & Hd & S1 & B1 & D1 & A1)]).
  { do 2 eexists. split; [reflexivity|]. left. split; [reflexivity|]. destruct Hc; [left; lia|now right]. }
  rewrite M1 in A1. replace (io_base (ata slave) + ATA_DATA) with 0x1F0 by now destruct slave. unfold ram_write.
  assert (at_mode s1 = Faulted -> attached k c1 ds) as Hfault.
  { intros Ef. exists s1. split; [exact S1|]. split; [lia|]. split; [now rewrite Ef|]. intros x. rewrite D1. apply Hm. }
  destruct (sectors (ds slave) !! Z.to_nat n) as [old|] eqn:Eb; [destruct error|].
  - destruct A1 as [-> A1]. do 2 eexists. split; [reflexivity|]. right; right. split; [now exists d|]. left. split; [reflexivity|now apply Hfault].
  - destruct A1 as [-> A1]. pose proof (lookup_lt_Some _ _ _ Eb) as Hlen. rewrite (proj2 (Z.ltb_ge n 0)), (proj2 (Z.leb_gt _ n)) by lia. cbn [orb].
    destruct (write_words_spec 255 b c1 s1 slave n [] S1 B1 A1 Ob Lb Lb) as (d2 & error & junk & c2 & E2 & Hd2 & Hj & S2).
    unfold sbind. rewrite E2. destruct (wait_not_busy_spec slave c2 _ S2) as (c3 & S3 & ->). cbn [busy with_busy] in S3. cbn [busy with_busy].
    do 2 eexists. split; [reflexivity|]. destruct (Nat.ltb_spec d2 1000) as [Hk|Hk]; [|left; split; [reflexivity|right; eauto]].
    replace (d2 - 1000)%nat with 0%nat in S3 by lia. right.
    assert (forall x, is_sector x -> forall m, transferring m = false -> shows c3 (with_busy (with_mode (with_sector s1 slave n x) m) 0) ->
      attached k c3 (replaced ds slave (mkMedium (<[Z.to_nat n := x]> (sectors (ds slave)))))) as Hatt.
    { intros x Hx m Htm S4. eexists. split; [exact S4|]. split; [cbn; lia|]. split; [exact Htm|]. intros y. cbn. rewrite D1. unfold replaced.
      destruct (Bool.eqb y slave) eqn:Ex; [|apply Hm]. apply eqb_prop in Ex as ->. cbn [sectors]. rewrite M1.
      split; [reflexivity|]. now apply Forall_insert. }
    destruct error; cbn [stored] in S3.
    + right. split; [now exists d2|]. right. split; [reflexivity|]. split; [eexists; split; [exact S3|now split]|].
      exists junk. eexists. split; [exact Hj|]. split; [reflexivity|]. now apply (Hatt junk Hj Faulted).
    + left. split; [reflexivity|]. now apply (Hatt b (conj Lb Ob) Idle).
  - destruct A1 as [-> A1]. apply lookup_ge_None in Eb. rewrite (proj2 (Z.leb_le _ n)), orb_true_r by lia. do 2 eexists. split; [reflexivity|].
    right; left. split; [reflexivity|now apply Hfault].
Qed.

End Transfers.

(** ** What the file systems rely on *)

#[export, refine] Instance medium_reliable : HomeSync.Reliable medium := { HomeSync.healthy := fun d => (3 <= length (sectors d))%nat }.
Proof.
  - intros d n b d' Hd _. cbn. unfold medium_write, ram_write. repeat case_match; intros [= <-]; simplify_eq.
    cbn. now rewrite length_insert.
  - intros d n b Hd Hn _. cbn. unfold medium_write, ram_write.
    rewrite (proj2 (Z.leb_gt _ n)), (proj2 (Z.ltb_ge n 0)), (proj2 (Z.leb_gt _ n)) by lia. eauto.
Defined.

#[export, refine] Instance medium_working : HomeFiles.Working medium :=
  { HomeFiles.intact := fun d => length (sectors d) = Z.to_nat HomeFs.TOTAL_SECTORS /\ Forall is_sector (sectors d) }.
Proof.
  - intros d [H _]. cbn. rewrite H. unfold HomeFs.TOTAL_SECTORS. lia.
  - intros d n [Hl Hd] Hn. cbn. unfold medium_read. unfold HomeFs.TOTAL_SECTORS in *. rewrite (proj2 (Z.leb_gt _ n)) by lia.
    destruct (lookup_lt_is_Some_2 (sectors d) (Z.to_nat n)) as [b Hb]; [lia|].
    rewrite (ram_read_some _ _ _ Hd (proj1 Hn) Hb). eauto.
  - intros d n b [Hl Hd] Hn Hb. cbn. unfold medium_write, ram_write. unfold HomeFs.TOTAL_SECTORS in *.
    rewrite (proj2 (Z.leb_gt _ n)), (proj2 (Z.ltb_ge n 0)), (proj2 (Z.leb_gt _ n)) by lia. eexists. split; [reflexivity|].
    cbn. rewrite length_insert. split; [exact Hl|]. now apply Forall_insert.
Defined.

(** ** A controller that answers soon *)

Module Simulated.

Definition sim_in8 (p : Z) (s : controller) : Z * controller :=
  (if 0 <? Z.of_nat (busy s) then 0x80 else if transferring (at_mode s) then 0x48 else if faulted (at_mode s) then 0x41 else 0x40,
   with_busy s (pred (busy s))).
Definition sim_out8 (p v : Z) (s : controller) : controller :=
  if p =? 0x1F7 then with_busy (started s v false) 2 else with_latched s p v.
Definition sim_in16 (p : Z) (s : controller) : Z * controller :=
  match at_mode s with
  | Sending (lo :: hi :: rest) => (lo + 256 * hi, with_mode s (match rest with [] => Idle | _ => Sending rest end))
  | _ => (0, s)
  end.
Definition sim_out16 (p v : Z) (s : controller) : controller :=
  match at_mode s with
  | Receiving slave lba acc =>
      let bytes := acc ++ [v mod 256; v / 256] in
      if (length bytes =? SECTOR_SIZE)%nat then with_busy (with_mode (with_sector s slave lba bytes) Idle) 3
      else with_mode s (Receiving slave lba bytes)
  | _ => s
  end.

#[export] Instance sim_ports : Ports controller :=
  { in8 := sim_in8; out8 := sim_out8; in16 := sim_in16; out16 := sim_out16 }.

Lemma word_split lo hi : is_u8 lo -> is_u8 hi -> (lo + 256 * hi) mod 256 = lo /\ (lo + 256 * hi) / 256 = hi.
Proof.
  unfold is_u8, U8_MAX. intros Hl Hh. rewrite (Z.mul_comm 256), Z_mod_plus_full, Z_div_plus_full, Z.mod_small, Z.div_small by lia. lia.
Qed.

#[export, refine] Instance sim_hardware : AtaHardware controller := { shows := fun c s => c = s; behaves := fun n error => (n <= 3)%nat /\ error = false }.
Proof.
  - intros c s ->. do 2 eexists. split; [reflexivity|]. split; [|reflexivity]. unfold status_ok.
    destruct (busy s); [|split; [reflexivity|discriminate]]. cbn. now destruct (at_mode s).
  - intros c s v c' -> [= <- _] Hb. unfold sim_in8. replace (0 <? Z.of_nat (busy s)) with true by lia. now split.
  - intros c s p v -> _ _ Hp _. cbn. unfold sim_out8. replace (p =? 0x1F7) with false by lia. reflexivity.
  - intros c s v -> _ _ _ _. exists 2%nat, false. split; [split; [lia|reflexivity]|reflexivity].
  - intros c s lo hi rest -> _ Hm. eexists. cbn. unfold sim_in16. rewrite Hm. split; reflexivity.
  - intros c s slave lba acc lo hi -> _ Hm Hlo Hhi Ha. cbn. unfold sim_out16. rewrite Hm.
    destruct (word_split lo hi Hlo Hhi) as [-> ->]. rewrite length_app. cbn [length].
    now replace (_ =? _)%nat with false by lia.
  - intros c s slave lba acc lo hi -> _ Hm Hlo Hhi Ha. exists 3%nat, false, (replicate SECTOR_SIZE 0). split; [split; [lia|reflexivity]|].
    split; [split; [reflexivity|apply Forall_replicate; unfold is_u8, U8_MAX; lia]|]. cbn. unfold sim_out16. rewrite Hm.
    destruct (word_split lo hi Hlo Hhi) as [-> ->]. rewrite length_app. cbn [length].
    now replace (_ =? _)%nat with true by lia.
Defined.

End Simulated.

Import Simulated.

(** ** Properties *)

(** C15: on a controller that behaves as the ATA standard says, and whose status
    shows neither data nor an error while the drive is busy, the driver of
    either drive returns after a bounded number of polls. Unless the drive
    stays busy for 1000 polls (NotReady), a read gives what the abstract disk
    gives or an error that the drive reports, never other bytes, and leaves the
    disks as they were; a write makes the abstract disk's write, or fails and
    writes nothing, or, when the drive reports an error after the last word,
    returns success all the same with something else in that sector: the driver
    does not look. With a drive that answers in time and reports no error for
    the sectors it has, every call returns what the abstract disk returns, its
    errors included, and leaves the controller ready with the abstract disk's
    new contents on that drive and the other drive unchanged. *)
Theorem ata_implements_block_device {C} `{AtaHardware C} (slave : bool) (c : C) ds k n :
  attached k c ds -> 0 <= n ->
  (exists r c', read_sector (ata slave) n c = Done (r, c') /\
     (r = Err NotReady \/ attached k c' ds /\ (r = Block.read_sector (ds slave) n \/ r = Err IoError))) /\
  (forall b, is_sector b -> exists r c', write_sector (ata slave) n b c = Done (r, c') /\
     (r = Err NotReady
      \/ (match Block.write_sector (ds slave) n b with
          | Ok d => r = Ok tt /\ attached k c' (replaced ds slave d)
          | Err e => r = Err e /\ attached k c' ds
          end)
      \/ r = Err IoError /\ attached k c' ds
      \/ r = Ok tt /\ reports_error c' /\
         exists junk d, is_sector junk /\ Block.write_sector (ds slave) n junk = Ok d /\ attached k c' (replaced ds slave d))) /\
  (prompt C -> (k < 1000)%nat ->
     (exists c', read_sector (ata slave) n c = Done (Block.read_sector (ds slave) n, c') /\ attached k c' ds) /\
     forall b, is_sector b ->
       match Block.write_sector (ds slave) n b with
       | Ok d => exists c', write_sector (ata slave) n b c = Done (Ok tt, c') /\ attached k c' (replaced ds slave d)
       | Err e => exists c', write_sector (ata slave) n b c = Done (Err e, c') /\ attached k c' ds
       end).
Proof.
  intros Hc Hn. destruct (ata_read_spec slave c ds k n Hc Hn) as (r & c1 & Er & Hr).
  pose proof (fun b => ata_write_spec slave c ds k n b Hc Hn) as Hw. split; [|split].
  - exists r, c1. split; [exact Er|]. destruct Hr as [[-> _]|[Ha Hr]]; [now left|right]. split; [exact Ha|]. tauto.
  - intros b Hb. destruct (Hw b Hb) as (r2 & c2 & E2 & H2). exists r2, c2. split; [exact E2|]. tauto.
  - intros Hp Hk. assert (forall d error, behaves d error -> ~ (1000 <= d)%nat /\ error <> true) as Hno.
    { intros d error Hd. destruct (Hp d error Hd) as [? ->]. split; [lia|discriminate]. }
    split.
    + destruct Hr as [[_ [Hx|(d & e & Hd & Hx)]]|[Ha [->|[_ (d & Hd)]]]]; [lia|now apply Hno in Hd|eauto|now apply Hno in Hd].
    + intros b Hb. destruct (Hw b Hb) as (r2 & c2 & E2 & [[_ [Hx|(d & e & Hd & Hx)]]|[H2|[(d & Hd) _]]]); [lia|now apply Hno in Hd| |now apply Hno in Hd].
      destruct (Block.write_sector (ds slave) n b); destruct H2 as [-> Ha]; eauto.
Qed.

(** Two drives of four sectors, the first of which is in use. *)
Definition bus : controller :=
  mkController (fun _ => 0) 5 Idle (fun slave => replicate 4 (replicate 512 (if slave : bool then 7 else 3))).

Lemma ata_implements_block_device_witness :
  exists c', write_sector (ata true) 2 (replicate 512 9) bus = Done (Ok tt, c') /\
    attached 5 c' (replaced (fun x => mkMedium (media bus x)) true (mkMedium (<[2%nat := replicate 512 9]> (media bus true)))).
Proof.
  refine (proj2 (proj2 (proj2 (ata_implements_block_device true bus (fun x => mkMedium (media bus x)) 5 2 _ ltac:(lia))) _ ltac:(lia)) (replicate 512 9) _).
  - exists bus. split; [reflexivity|]. split; [cbn; lia|]. split; [reflexivity|]. intros x. split; [reflexivity|].
    cbn [sectors media bus]. apply Forall_replicate. split; [reflexivity|]. apply Forall_replicate. unfold is_u8, U8_MAX. destruct x; lia.
  - intros d e [Hd ->]. split; [lia|reflexivity].
  - split; [reflexivity|]. apply Forall_replicate. unfold is_u8, U8_MAX. lia.
Defined.

End Ata.
