(* ===== verification/Fat32.v ===== *)
(** * The read-only FAT32 file system (src/kernel/src/fat32.rs)

    The driver over any block device.  [str::to_lowercase] follows tables of
    the Unicode standard; it is a parameter of the model, and nothing depends
    on what it does.  Machine arithmetic that can overflow is checked, as in
    the development build. *)

From S2P Require Import Prelude Bytes Block Utf8 Abi Path.
Import Bytes Block Utf8 Str.

Module Fat32.

Definition FAT32_SIGNATURE : Z := 0xAA55.
Definition EOC_MARKER : Z := 0x0FFFFFF8.
Definition BAD_CLUSTER : Z := 0x0FFFFFF7.
Definition MAX_CLUSTER : Z := 0x0FFFFFFF.
Definition DIRENT_SIZE : nat := 32.
Definition ATTR_VOLUME_ID : Z := 0x08.
Definition ATTR_DIRECTORY : Z := 0x10.
Definition ATTR_LONG_NAME : Z := 0x0F.
Definition MAX_CHAIN_LENGTH : nat := Z.to_nat 65536.

Inductive Fat32Error : Type :=
  | FIoError | InvalidSignature | InvalidBpb | UnsupportedSectorSize | InvalidCluster
  | BadCluster | FNotFound | FNotADirectory | FInvalidPath.

(** [struct Bpb]. *)
Record Bpb : Type := mkBpb {
  bytes_per_sector : Z;
  sectors_per_cluster : Z;
  reserved_sectors : Z;
  num_fats : Z;
  total_sectors : Z;
  sectors_per_fat : Z;
  root_cluster : Z;
  fat_start_sector : Z;
  data_start_sector : Z
}.

(** [u8::is_power_of_two]. *)
Definition is_power_of_two (x : Z) : bool :=
  existsb (Z.eqb x) [1; 2; 4; 8; 16; 32; 64; 128].

(** [u32] multiplication and addition. *)
Definition mul32 (a b : Z) : outcome Z := if a * b <=? U32_MAX then Done (a * b) else Panicked.
Definition add32 (a b : Z) : outcome Z := if a + b <=? U32_MAX then Done (a + b) else Panicked.

(** [Bpb::parse]. *)
Definition Bpb_parse (boot_sector : list Z) : outcome (result Bpb Fat32Error) :=
  let! signature := le_at boot_sector 510 2 in
  if negb (signature =? FAT32_SIGNATURE) then Done (Err InvalidSignature)
  else
    let! bytes_per_sector := le_at boot_sector 11 2 in
    let! sectors_per_cluster := index boot_sector 13 in
    let! reserved_sectors := le_at boot_sector 14 2 in
    let! num_fats := index boot_sector 16 in
    let! total_sectors := le_at boot_sector 32 4 in
    let! sectors_per_fat := le_at boot_sector 36 4 in
    let! root_cluster := le_at boot_sector 44 4 in
    let fat_start_sector := reserved_sectors in
    let! fat_size := mul32 num_fats sectors_per_fat in
    let! data_start_sector := add32 fat_start_sector fat_size in
    Done (if negb (bytes_per_sector =? Z.of_nat SECTOR_SIZE) then Err UnsupportedSectorSize
          else if (sectors_per_cluster =? 0) || negb (is_power_of_two sectors_per_cluster)
          then Err InvalidBpb
          else if (num_fats =? 0) || (reserved_sectors =? 0) then Err InvalidBpb
          else Ok (mkBpb bytes_per_sector sectors_per_cluster reserved_sectors num_fats
                     total_sectors sectors_per_fat root_cluster fat_start_sector
                     data_start_sector)).

(** [Bpb::cluster_to_sector] and [Bpb::bytes_per_cluster]. *)
Definition cluster_to_sector (b : Bpb) (cluster : Z) : Z :=
  let cluster_offset := if 2 <=? cluster then cluster - 2 else 0 in
  data_start_sector b + cluster_offset * sectors_per_cluster b.

Definition bytes_per_cluster (b : Bpb) : nat :=
  Z.to_nat (bytes_per_sector b * sectors_per_cluster b).

(** [struct DirEntry]. *)
Record DirEntry : Type := mkDirEntry {
  name : string; attributes : Z; first_cluster : Z; file_size : Z }.

Definition is_directory (e : DirEntry) : bool := negb (Z.land (attributes e) ATTR_DIRECTORY =? 0).

Definition with_name (e : DirEntry) (n : string) : DirEntry :=
  mkDirEntry n (attributes e) (first_cluster e) (file_size e).

(** The 16-bit characters at the given offsets of a long-name entry. *)
Fixpoint lfn_chars (data : list Z) (offsets : list nat) : outcome (list Z) :=
  match offsets with
  | [] => Done []
  | off :: rest =>
      let! ch := le_at data off 2 in
      let! chars := lfn_chars data rest in
      Done (if negb (ch =? 0) && negb (ch =? 0xFFFF) then ch :: chars else chars)
  end.

Definition lfn_offsets : list nat := [1; 3; 5; 7; 9; 14; 16; 18; 20; 22; 24; 28; 30]%nat.

(** [LfnEntry::parse]; of the entry only the name part is used. *)
Definition LfnEntry_parse (data : list Z) : outcome (option string) :=
  if (length data <? DIRENT_SIZE)%nat then Done None
  else
    let! attributes := index data 11 in
    if negb (attributes =? ATTR_LONG_NAME) then Done None
    else
      let! sequence := index data 0 in
      if (sequence =? 0x00) || (sequence =? 0xE5) then Done None
      else
        let! name_chars := lfn_chars data lfn_offsets in
        Done (Some (from_utf16_lossy name_chars)).

Section Driver.
Context {D : Type} `{BlockDevice D}.
Context (to_lowercase : string -> string).

(** [DirEntry::parse_short_name]. *)
Definition parse_short_name (name_bytes : list Z) : string :=
  let unwrap_or o d := match o with Some s => s | None => d end in
  let name_part := trim_end (unwrap_or (from_utf8 (sub_slice name_bytes 0 8)) "????????") in
  let ext_part := trim_end (unwrap_or (from_utf8 (sub_slice name_bytes 8 11)) "???") in
  if is_empty ext_part then to_lowercase name_part
  else to_lowercase name_part +:+ "." +:+ to_lowercase ext_part.

(** [DirEntry::parse]. *)
Definition DirEntry_parse (data : list Z) : outcome (option DirEntry) :=
  if (length data <? DIRENT_SIZE)%nat then Done None
  else
    let! first_byte := index data 0 in
    if (first_byte =? 0x00) || (first_byte =? 0xE5) then Done None
    else
      let! attributes := index data 11 in
      if negb (Z.land attributes ATTR_VOLUME_ID =? 0) && (Z.land attributes ATTR_DIRECTORY =? 0)
      then Done None
      else
        let! name_bytes := slice data 0 11 in
        let name := parse_short_name name_bytes in
        let! first_cluster_high := le_at data 20 2 in
        let! first_cluster_low := le_at data 26 2 in
        let first_cluster := Z.lor (Z.shiftl first_cluster_high 16) first_cluster_low in
        let! file_size := le_at data 28 4 in
        Done (Some (mkDirEntry name attributes first_cluster file_size)).

(** [struct Fat32]. *)
Record Fat32 : Type := mkFat32 { device : D; bpb : Bpb }.

Definition get_sector (d : D) (n : Z) : outcome (result (list Z) Fat32Error) :=
  Done (map_err (fun _ => FIoError) (read_sector d n)).

(** [Fat32::new]. *)
Definition new (d : D) : outcome (result Fat32 Fat32Error) :=
  let* boot_sector := get_sector d 0 in
  let* bpb := Bpb_parse boot_sector in
  Done (Ok (mkFat32 d bpb)).

(** [read_fat_entry]. *)
Definition read_fat_entry (fs : Fat32) (cluster : Z) : outcome (result Z Fat32Error) :=
  if (cluster <? 2) || (MAX_CLUSTER <=? cluster) then Done (Err InvalidCluster)
  else
    let! fat_offset := mul32 cluster 4 in
    let fat_sector := fat_start_sector (bpb fs) + fat_offset / Z.of_nat SECTOR_SIZE in
    let entry_offset := Z.to_nat (fat_offset mod Z.of_nat SECTOR_SIZE) in
    let* sector := get_sector (device fs) fat_sector in
    let! raw := le_at sector entry_offset 4 in
    Done (Ok (Z.land raw 0x0FFFFFFF)).

(** The loop of [get_cluster_chain]: [n] is how many clusters the chain may
    still take, so the loop ends at the code's own limit. *)
Fixpoint follow_chain (fs : Fat32) (n : nat) (current_cluster : Z)
    : outcome (result (list Z) Fat32Error) :=
  match n with
  | O => Done (Ok [])
  | S n' =>
      if negb (current_cluster <? EOC_MARKER) then Done (Ok [])
      else if current_cluster =? BAD_CLUSTER then Done (Err BadCluster)
      else
        let* next := read_fat_entry fs current_cluster in
        let* chain := follow_chain fs n' next in
        Done (Ok (current_cluster :: chain))
  end.

(** [get_cluster_chain]. *)
Definition get_cluster_chain (fs : Fat32) (start_cluster : Z) : outcome (result (list Z) Fat32Error) :=
  if start_cluster =? 0 then Done (Ok [])
  else follow_chain fs MAX_CHAIN_LENGTH start_cluster.

(** The sectors of a cluster, [n] left. *)
Fixpoint read_cluster_sectors (d : D) (sector : Z) (n : nat) : outcome (result (list Z) Fat32Error) :=
  match n with
  | O => Done (Ok [])
  | S n' =>
      let* s := get_sector d sector in
      let* rest := read_cluster_sectors d (sector + 1) n' in
      Done (Ok (s ++ rest))
  end.

(** [read_cluster]: the bytes it appends to the buffer. *)
Definition read_cluster (fs : Fat32) (cluster : Z) : outcome (result (list Z) Fat32Error) :=
  let* bytes := read_cluster_sectors (device fs) (cluster_to_sector (bpb fs) cluster)
                  (Z.to_nat (sectors_per_cluster (bpb fs))) in
  let! _ := rust_assert (length bytes =? bytes_per_cluster (bpb fs))%nat in
  Done (Ok bytes).

Fixpoint read_clusters (fs : Fat32) (chain : list Z) : outcome (result (list Z) Fat32Error) :=
  match chain with
  | [] => Done (Ok [])
  | c :: rest =>
      let* bytes := read_cluster fs c in
      let* buffer := read_clusters fs rest in
      Done (Ok (bytes ++ buffer))
  end.

Definition concat_strings (l : list string) : string := foldr String.append EmptyString l.

(** The loop of [read_directory]: [lfn] are the name parts seen since the last
    entry, oldest first. *)
Fixpoint parse_entries (fuel : nat) (buffer : list Z) (offset : nat) (lfn : list string)
    : outcome (list DirEntry) :=
  match fuel with
  | O => Done []
  | S fuel' =>
      if negb (offset + DIRENT_SIZE <=? length buffer)%nat then Done []
      else
        let! entry_data := slice buffer offset (offset + DIRENT_SIZE) in
        let! b0 := index entry_data 0 in
        if b0 =? 0x00 then Done []
        else
          let! l := LfnEntry_parse entry_data in
          match l with
          | Some part => parse_entries fuel' buffer (offset + DIRENT_SIZE) (lfn ++ [part])
          | None =>
              let! e := DirEntry_parse entry_data in
              match e with
              | Some dir_entry =>
                  let dir_entry := match lfn with
                                   | [] => dir_entry
                                   | _ => with_name dir_entry (concat_strings (rev lfn))
                                   end in
                  let! rest := parse_entries fuel' buffer (offset + DIRENT_SIZE) [] in
                  Done (if bool_decide (name dir_entry = ".") || bool_decide (name dir_entry = "..")
                        then rest else dir_entry :: rest)
              | None => parse_entries fuel' buffer (offset + DIRENT_SIZE) []
              end
          end
  end.

(** [read_directory]. *)
Definition read_directory (fs : Fat32) (cluster : Z) : outcome (result (list DirEntry) Fat32Error) :=
  let* chain := get_cluster_chain fs cluster in
  let* buffer := read_clusters fs chain in
  let! entries := parse_entries (length buffer) buffer 0 [] in
  Done (Ok entries).

(** [lookup]. *)
Definition lookup (fs : Fat32) (dir_cluster : Z) (n : string) : outcome (result DirEntry Fat32Error) :=
  let* entries := read_directory fs dir_cluster in
  Done (match find (fun e => eq_ignore_ascii_case (name e) n) entries with
        | Some e => Ok e
        | None => Err FNotFound
        end).

(** The loop of [resolve_path]. *)
Fixpoint resolve_components (fs : Fat32) (current_cluster : Z) (current_entry : option DirEntry)
    (components : list string) : outcome (result DirEntry Fat32Error) :=
  match components with
  | [] => Done (match current_entry with Some e => Ok e | None => Err FNotFound end)
  | component :: rest =>
      let* entry := lookup fs current_cluster component in
      if negb (is_directory entry) && match current_entry with Some _ => true | None => false end
      then Done (Err FNotADirectory)
      else resolve_components fs (first_cluster entry) (Some entry) rest
  end.

(** [path.split('/').filter(|s| !s.is_empty())]. *)
Definition path_components (path : string) : list string :=
  filter (fun s => s <> EmptyString) (split path).

(** [resolve_path]. *)
Definition resolve_path (fs : Fat32) (path : string) : outcome (result DirEntry Fat32Error) :=
  if is_empty path || negb (starts_with_slash path) then Done (Err FInvalidPath)
  else if bool_decide (path = "/")
  then Done (Ok (mkDirEntry "/" ATTR_DIRECTORY (root_cluster (bpb fs)) 0))
  else resolve_components fs (root_cluster (bpb fs)) None (path_components path).

(** The loop of [read_file] over the clusters from the start cluster on. *)
Fixpoint read_loop (fs : Fat32) (chain : list Z) (first : bool) (cluster_offset : nat)
    (max_read bytes_read : nat) (buffer : list Z) : outcome (result (nat * list Z) Fat32Error) :=
  match chain with
  | [] => Done (Ok (bytes_read, buffer))
  | cluster_num :: rest =>
      if (max_read <=? bytes_read)%nat then Done (Ok (bytes_read, buffer))
      else
        let* cluster_data := read_cluster fs cluster_num in
        let copy_start := if first then cluster_offset else 0%nat in
        let copy_end := Nat.min (length cluster_data) (copy_start + (max_read - bytes_read)) in
        let! _ := rust_assert (copy_start <=? copy_end)%nat in
        let copy_len := (copy_end - copy_start)%nat in
        if (0 <? copy_len)%nat then
          let! src := slice cluster_data copy_start copy_end in
          let! _ := rust_assert (bytes_read + copy_len <=? length buffer)%nat in
          read_loop fs rest false cluster_offset max_read (bytes_read + copy_len)
            (splice buffer bytes_read src)
        else read_loop fs rest false cluster_offset max_read bytes_read buffer
  end.

(** [read_file]: the count and the buffer. *)
Definition read_file (fs : Fat32) (start_cluster fsize : Z) (offset : nat) (buffer : list Z)
    : outcome (result (nat * list Z) Fat32Error) :=
  if (start_cluster =? 0) || (fsize =? 0) then Done (Ok (0%nat, buffer))
  else if fsize <=? Z.of_nat offset then Done (Ok (0%nat, buffer))
  else
    let* chain := get_cluster_chain fs start_cluster in
    match chain with
    | [] => Done (Ok (0%nat, buffer))
    | _ =>
        let bpc := bytes_per_cluster (bpb fs) in
        let max_read := Z.to_nat (Z.min (fsize - Z.of_nat offset) (Z.of_nat (length buffer))) in
        let start_cluster_idx := (offset / bpc)%nat in
        let cluster_offset := (offset mod bpc)%nat in
        read_loop fs (drop start_cluster_idx chain) true cluster_offset max_read 0 buffer
    end.

End Driver.
Arguments Fat32 : clear implicits.

(** ** Lemmas *)

(** What a successful mount guarantees of the parameters. *)
Definition mounted {D} (fs : Fat32 D) : Prop :=
  bytes_per_sector (bpb fs) = 512 /\ 1 <= sectors_per_cluster (bpb fs) <= 128.

(** The contents of a cluster. *)
Definition cluster_holds {D} `{BlockDevice D} (fs : Fat32 D) (c : Z) (bytes : list Z) : Prop :=
  read_cluster fs c = Done (Ok bytes).

(** A chain of clusters as the table links them, of at most [n] clusters. *)
Fixpoint linked {D} `{BlockDevice D} (fs : Fat32 D) (n : nat) (c : Z) (chain : list Z) : Prop :=
  match chain, n with
  | [], _ => n = O \/ EOC_MARKER <= c
  | x :: rest, S n' =>
      x = c /\ c < EOC_MARKER /\ c <> BAD_CLUSTER
      /\ exists next, read_fat_entry fs c = Done (Ok next) /\ linked fs n' next rest
  | _ :: _, O => False
  end.

(** A boot sector with 255 tables of 2^32 - 1 sectors. *)
Definition huge_boot_sector : list Z :=
  replicate 16 0 ++ [255] ++ replicate 19 0 ++ [255; 255; 255; 255] ++ replicate 470 0 ++ [0x55; 0xAA].

(** A volume of one-sector clusters: the root directory at cluster 2 holds the
    directory [SUB] at cluster 3, which holds the directory [DEEP] at
    cluster 4. *)
Definition demo_entry (short_name : string) (cluster : Z) : list Z :=
  bytes_of_string short_name ++ [ATTR_DIRECTORY] ++ replicate 14 0 ++ to_le 2 cluster ++ replicate 4 0.

Definition demo_disk : RamDisk :=
  [ replicate 11 0 ++ to_le 2 512 ++ [1] ++ to_le 2 1 ++ [1] ++ replicate 19 0 ++ to_le 4 1
      ++ replicate 4 0 ++ to_le 4 2 ++ replicate 462 0 ++ [0x55; 0xAA];
    replicate 8 0 ++ to_le 4 EOC_MARKER ++ to_le 4 EOC_MARKER ++ to_le 4 EOC_MARKER ++ replicate 492 0;
    demo_entry "SUB        " 3 ++ replicate 480 0;
    demo_entry "DEEP       " 4 ++ replicate 480 0;
    replicate 512 7 ].

Definition demo_fs : Fat32 RamDisk :=
  mkFat32 demo_disk (mkBpb 512 1 1 1 0 1 2 1 2).

Lemma is_power_of_two_bound x : is_power_of_two x = true -> 1 <= x <= 128.
Proof. unfold is_power_of_two. cbn [existsb]. lia. Qed.

Section DriverLemmas.
Context {D : Type} `{BlockDevice D}.
Context (to_lowercase : string -> string).

Lemma fat32_get_sector_ok (d : D) n b : get_sector d n = Done (Ok b) -> is_sector b.
Proof.
  unfold get_sector. destruct (read_sector d n) eqn:E; intros [= <-].
  exact (read_sector_ok _ _ _ E).
Qed.

Lemma Bpb_parse_Ok s b :
  Bpb_parse s = Done (Ok b) -> bytes_per_sector b = 512 /\ 1 <= sectors_per_cluster b <= 128.
Proof.
  unfold Bpb_parse. intros (sig & _ & Hb)%bind_Done. case_match; [discriminate|].
  apply bind_Done in Hb as (bps & _ & Hb). apply bind_Done in Hb as (spc & _ & Hb).
  apply bind_Done in Hb as (res & _ & Hb). apply bind_Done in Hb as (nf & _ & Hb).
  apply bind_Done in Hb as (tot & _ & Hb). apply bind_Done in Hb as (spf & _ & Hb).
  apply bind_Done in Hb as (rc & _ & Hb). apply bind_Done in Hb as (fsz & _ & Hb).
  apply bind_Done in Hb as (ds & _ & Hb). apply Done_inj in Hb.
  repeat (case_match; [discriminate|]). injection Hb as <-. cbn [bytes_per_sector sectors_per_cluster].
  breflect. split; [assumption|]. now apply is_power_of_two_bound.
Qed.

Lemma new_mounted (d : D) fs : new d = Done (Ok fs) -> mounted fs.
Proof.
  unfold new. intros [(s & _ & [(b & Hb & [= <-])|(e & _ & [=])]%bind_ok_Done)|(e & _ & [=])]%bind_ok_Done.
  exact (Bpb_parse_Ok _ _ Hb).
Qed.

Lemma read_fat_entry_returns (fs : Fat32 D) c : returns (read_fat_entry fs c).
Proof.
  unfold read_fat_entry. case_match; [apply returns_Done|]. breflect. unfold MAX_CLUSTER in *.
  unfold mul32. rewrite (proj2 (Z.leb_le _ _)) by (unfold U32_MAX; lia). cbn [bind].
  apply returns_bind_ok; [apply returns_Done|]. intros s [Hl _]%fat32_get_sector_ok.
  rewrite le_at_Done; [apply returns_Done|]. rewrite Hl. unfold SECTOR_SIZE. lia.
Qed.

Lemma follow_chain_returns (fs : Fat32 D) n : forall c, returns (follow_chain fs n c).
Proof.
  induction n as [|n IH]; intros c; cbn [follow_chain]; [apply returns_Done|].
  case_match; [apply returns_Done|]. case_match; [apply returns_Done|].
  apply returns_bind_ok; [apply read_fat_entry_returns|]. intros next _.
  apply returns_bind_ok; [apply IH|]. intros. apply returns_Done.
Qed.

Lemma follow_chain_length (fs : Fat32 D) n : forall c chain, follow_chain fs n c = Done (Ok chain) -> (length chain <= n)%nat.
Proof.
  induction n as [|n IH]; intros c chain; cbn [follow_chain]; [now intros [= <-]|].
  case_match; [intros [= <-]; cbn; lia|]. case_match; [discriminate|].
  intros [(next & _ & [(rest & Hr & [= <-])|(e & _ & [=])]%bind_ok_Done)|(e & _ & [=])]%bind_ok_Done.
  apply IH in Hr. cbn [length]. lia.
Qed.

(** A cluster that follows itself fills the chain. *)
Lemma follow_chain_cycle (fs : Fat32 D) n c : c < EOC_MARKER -> c <> BAD_CLUSTER -> read_fat_entry fs c = Done (Ok c) ->
  follow_chain fs n c = Done (Ok (replicate n c)).
Proof.
  intros He Hb Hc. induction n as [|n IH]; cbn [follow_chain replicate]; [reflexivity|].
  rewrite (proj2 (Z.ltb_lt _ _)) by exact He. cbn [negb]. rewrite (proj2 (Z.eqb_neq _ _)) by exact Hb. rewrite Hc. cbn [bind_ok]. now rewrite IH.
Qed.

Lemma get_cluster_chain_returns (fs : Fat32 D) c : returns (get_cluster_chain fs c).
Proof. unfold get_cluster_chain. case_match; [apply returns_Done|apply follow_chain_returns]. Qed.

Lemma read_cluster_sectors_spec (d : D) n : forall sec,
  returns (read_cluster_sectors d sec n)
  /\ forall b, read_cluster_sectors d sec n = Done (Ok b) -> length b = (n * SECTOR_SIZE)%nat.
Proof.
  induction n as [|n IH]; intros sec; cbn [read_cluster_sectors].
  { split; [apply returns_Done|]. now intros b [= <-]. }
  split.
  - apply returns_bind_ok; [apply returns_Done|]. intros s _.
    apply returns_bind_ok; [apply IH|]. intros. apply returns_Done.
  - intros b [(s & [Hs _]%fat32_get_sector_ok & [(r & Hr & [= <-])|(e & _ & [=])]%bind_ok_Done)|(e & _ & [=])]%bind_ok_Done.
    apply IH in Hr. rewrite length_app. lia.
Qed.

Lemma read_cluster_spec (fs : Fat32 D) c : mounted fs ->
  returns (read_cluster fs c)
  /\ forall b, read_cluster fs c = Done (Ok b) -> length b = bytes_per_cluster (bpb fs).
Proof.
  intros [Hb Hs]. unfold read_cluster. set (m := read_cluster_sectors _ _ _).
  destruct (read_cluster_sectors_spec (device fs) (Z.to_nat (sectors_per_cluster (bpb fs)))
    (cluster_to_sector (bpb fs) c)) as [Hr Hl]. fold m in Hr, Hl.
  assert (forall b, m = Done (Ok b) -> length b = bytes_per_cluster (bpb fs)) as Hl'.
  { intros b E. rewrite (Hl b E). unfold bytes_per_cluster, SECTOR_SIZE. rewrite Hb. lia. }
  split.
  - apply returns_bind_ok; [assumption|]. intros b E. rewrite (Hl' b E), Nat.eqb_refl. apply returns_Done.
  - intros b [(x & E & Hx)|(e & _ & [=])]%bind_ok_Done. apply bind_Done in Hx as (u & _ & [= <-]). auto.
Qed.

Lemma read_clusters_returns (fs : Fat32 D) chain : mounted fs -> returns (read_clusters fs chain).
Proof.
  intros Hm. induction chain as [|c chain IH]; cbn [read_clusters]; [apply returns_Done|].
  apply returns_bind_ok; [now apply read_cluster_spec|]. intros b _.
  apply returns_bind_ok; [assumption|]. intros. apply returns_Done.
Qed.

Lemma lfn_chars_returns data offs :
  Forall (fun o => o + 2 <= length data)%nat offs -> returns (lfn_chars data offs).
Proof.
  induction 1 as [|o offs Ho _ IH]; cbn [lfn_chars]; [apply returns_Done|].
  rewrite le_at_Done by assumption. cbn [bind]. apply returns_bind; [assumption|].
  intros. apply returns_Done.
Qed.

Lemma LfnEntry_parse_returns data : returns (LfnEntry_parse data).
Proof.
  unfold LfnEntry_parse, DIRENT_SIZE. destruct (Nat.ltb_spec (length data) 32); [apply returns_Done|].
  destruct (index_lt data 11 ltac:(lia)) as (a & _ & ->). cbn [bind]. case_match; [apply returns_Done|].
  destruct (index_lt data 0 ltac:(lia)) as (b & _ & ->). cbn [bind]. case_match; [apply returns_Done|].
  apply returns_bind; [|intros; apply returns_Done]. apply lfn_chars_returns.
  unfold lfn_offsets. repeat constructor; lia.
Qed.

Lemma DirEntry_parse_returns data : returns (DirEntry_parse to_lowercase data).
Proof.
  unfold DirEntry_parse, DIRENT_SIZE. destruct (Nat.ltb_spec (length data) 32); [apply returns_Done|].
  destruct (index_lt data 0 ltac:(lia)) as (a & _ & ->). cbn [bind]. case_match; [apply returns_Done|].
  destruct (index_lt data 11 ltac:(lia)) as (b & _ & ->). cbn [bind]. case_match; [apply returns_Done|].
  rewrite slice_Done, !le_at_Done by lia. cbn [bind]. apply returns_Done.
Qed.

Lemma parse_entries_returns buffer fuel : forall offset lfn,
  returns (parse_entries to_lowercase fuel buffer offset lfn).
Proof.
  induction fuel as [|fuel IH]; intros offset lfn; cbn [parse_entries]; [apply returns_Done|].
  unfold DIRENT_SIZE. case_match; [apply returns_Done|]. breflect. rewrite slice_Done by lia. cbn [bind].
  assert (length (sub_slice buffer offset (offset + 32)) = 32)%nat as Hl
    by (rewrite length_sub_slice; lia).
  destruct (index_lt (sub_slice buffer offset (offset + 32)) 0 ltac:(lia)) as (b & _ & ->).
  cbn [bind]. case_match; [apply returns_Done|].
  apply returns_bind; [apply LfnEntry_parse_returns|]. intros [part|] _; [apply IH|].
  apply returns_bind; [apply DirEntry_parse_returns|]. intros [e|] _; [|apply IH].
  apply returns_bind; [apply IH|]. intros. apply returns_Done.
Qed.

Lemma read_directory_returns (fs : Fat32 D) c : mounted fs -> returns (read_directory to_lowercase fs c).
Proof.
  intros Hm. apply returns_bind_ok; [apply get_cluster_chain_returns|]. intros chain _.
  apply returns_bind_ok; [now apply read_clusters_returns|]. intros buffer _.
  apply returns_bind; [apply parse_entries_returns|]. intros. apply returns_Done.
Qed.

Lemma fat32_resolve_path_returns (fs : Fat32 D) path : mounted fs -> returns (resolve_path to_lowercase fs path).
Proof.
  intros Hm. unfold resolve_path. case_match; [apply returns_Done|]. case_match; [apply returns_Done|].
  generalize (root_cluster (bpb fs)), (@None DirEntry).
  induction (path_components path) as [|c cs IH]; intros cl e; cbn [resolve_components]; [apply returns_Done|].
  apply returns_bind_ok.
  - apply returns_bind_ok; [now apply read_directory_returns|]. intros. apply returns_Done.
  - intros x _. case_match; [apply returns_Done|apply IH].
Qed.

Lemma bytes_per_cluster_pos (fs : Fat32 D) : mounted fs -> (0 < bytes_per_cluster (bpb fs))%nat.
Proof. intros [Hb Hs]. unfold bytes_per_cluster. rewrite Hb. lia. Qed.

(** The end of the loop of [parse_entries]: as many turns as the buffer has bytes. *)
Lemma parse_entries_fuel buffer f1 : forall f2 offset lfn,
  (length buffer - offset <= f1)%nat -> (length buffer - offset <= f2)%nat ->
  parse_entries to_lowercase f1 buffer offset lfn = parse_entries to_lowercase f2 buffer offset lfn.
Proof.
  induction f1 as [|f1 IH]; intros f2 offset lfn H1 H2; destruct f2 as [|f2]; cbn [parse_entries].
  - reflexivity.
  - rewrite (proj2 (Nat.leb_gt _ _)) by (unfold DIRENT_SIZE; lia). reflexivity.
  - rewrite (proj2 (Nat.leb_gt _ _)) by (unfold DIRENT_SIZE; lia). reflexivity.
  - destruct (Nat.leb_spec (offset + DIRENT_SIZE) (length buffer)); [|reflexivity]. cbn [negb].
    destruct (slice _ _ _) as [ed|]; [|reflexivity]. cbn [bind].
    destruct (index ed 0) as [b0|]; [|reflexivity]. cbn [bind]. case_match; [reflexivity|].
    unfold DIRENT_SIZE in *. assert (forall l, parse_entries to_lowercase f1 buffer (offset + 32) l
      = parse_entries to_lowercase f2 buffer (offset + 32) l) as E by (intros; apply IH; lia).
    destruct (LfnEntry_parse ed) as [[p|]|]; [apply E| |reflexivity]. cbn [bind].
    destruct (DirEntry_parse to_lowercase ed) as [[e|]|]; [|apply E|reflexivity]. cbn [bind]. now rewrite E.
Qed.

(** The loop of [read_file] copies the bytes of the clusters from the start on. *)
Lemma fat32_read_loop_spec (fs : Fat32 D) chain : forall datas (first : bool) co max br buffer,
  mounted fs -> Forall2 (cluster_holds fs) chain datas ->
  (co < bytes_per_cluster (bpb fs))%nat -> (br <= max <= length buffer)%nat ->
  let data := drop (if first then co else 0%nat) (concat datas) in
  let n := Nat.min (max - br) (length data) in
  read_loop fs chain first co max br buffer
  = Done (Ok ((br + n)%nat, splice buffer br (take n data))).
Proof.
  induction chain as [|c chain IH]; intros datas first co max br buffer Hm Hf Hco Hbr data n;
    inversion Hf as [|? s ? ss Hs Hss]; subst; cbn [read_loop].
  { subst n data. cbn [concat]. rewrite drop_nil. cbn [length]. rewrite Nat.min_0_r, take_0, splice_nil.
    do 3 f_equal. lia. }
  set (off := if first then co else 0%nat) in *.
  destruct (read_cluster_spec fs c Hm) as [_ Hsl]. specialize (Hsl s Hs).
  assert (off < length s)%nat as Hoff by (subst off; destruct first; lia).
  destruct (Nat.leb_spec max br).
  { replace n with 0%nat by (subst n; lia). rewrite take_0, splice_nil. do 3 f_equal. lia. }
  rewrite Hs. cbn [bind_ok].
  set (tr := Nat.min (length s - off) (max - br)).
  replace (Nat.min (length s) (off + (max - br))) with (off + tr)%nat by lia.
  rewrite (proj2 (Nat.leb_le off _)) by lia. cbn [rust_assert bind].
  replace (off + tr - off)%nat with tr by lia. rewrite (proj2 (Nat.ltb_lt 0 tr)) by lia.
  rewrite slice_Done by lia. cbn [bind]. rewrite (proj2 (Nat.leb_le (br + tr) _)) by lia.
  cbn [rust_assert bind]. set (src := sub_slice s off (off + tr)).
  assert (length src = tr) as Hsrc by (subst src; rewrite length_sub_slice; lia).
  rewrite (IH ss false co max (br + tr)%nat) by (assumption || rewrite ?length_splice; lia).
  cbn [drop]. rewrite drop_0. set (n' := Nat.min (max - (br + tr)) (length (concat ss))).
  assert (data = drop off s ++ concat ss) as Hd.
  { subst data. cbn [concat]. now rewrite drop_app_le by lia. }
  assert (length data = length s - off + length (concat ss))%nat as Hdl
    by (rewrite Hd, length_app, length_drop; lia).
  assert (take n data = src ++ take n' (concat ss)) as Ht.
  { rewrite Hd. unfold src, sub_slice. replace (off + tr - off)%nat with tr by lia.
    destruct (decide (tr = length s - off)%nat).
    - rewrite (take_ge (drop off s)) by (rewrite length_drop; lia).
      rewrite take_app_ge by (rewrite length_drop; lia). do 2 f_equal. rewrite length_drop. lia.
    - replace n' with 0%nat by lia. rewrite take_0, app_nil_r, take_app_le by (rewrite length_drop; lia).
      f_equal. lia. }
  rewrite Ht, <- Hsrc, splice_app.
  - do 3 f_equal. lia.
  - rewrite Hsrc, length_take. lia.
Qed.

Lemma concat_drop_clusters (fs : Fat32 D) k : forall chain datas,
  mounted fs -> Forall2 (cluster_holds fs) chain datas ->
  concat (drop k datas) = drop (k * bytes_per_cluster (bpb fs)) (concat datas).
Proof.
  induction k as [|k IH]; intros chain datas Hm Hf; [reflexivity|].
  destruct Hf as [|c s cs ss Hs Hss]; [cbn [concat]; now rewrite (drop_nil (S k)), drop_nil|]. cbn [drop concat].
  rewrite (IH cs ss Hm Hss). destruct (read_cluster_spec fs c Hm) as [_ Hl]. specialize (Hl s Hs).
  rewrite drop_app_ge by lia. f_equal. lia.
Qed.

Lemma fat32_read_loop_returns (fs : Fat32 D) chain : forall (first : bool) co max br buffer,
  mounted fs -> (co < bytes_per_cluster (bpb fs))%nat -> (br <= max <= length buffer)%nat ->
  returns (read_loop fs chain first co max br buffer).
Proof.
  induction chain as [|c chain IH]; intros first co max br buffer Hm Hco Hbr; cbn [read_loop];
    [apply returns_Done|].
  destruct (Nat.leb_spec max br); [apply returns_Done|].
  destruct (read_cluster_spec fs c Hm) as [Hr Hl].
  apply returns_bind_ok; [assumption|]. intros s Hs. specialize (Hl s Hs).
  set (off := if first then co else 0%nat).
  assert (off < length s)%nat as Hoff by (subst off; destruct first; lia).
  rewrite (proj2 (Nat.leb_le off _)) by lia. cbn [rust_assert bind].
  case_match; [|now apply IH]. rewrite slice_Done by lia. cbn [bind].
  rewrite (proj2 (Nat.leb_le _ (length buffer))) by lia. cbn [rust_assert bind].
  apply IH; [assumption|assumption|]. rewrite length_splice by (rewrite length_sub_slice; lia). lia.
Qed.

Lemma fat32_read_file_returns (fs : Fat32 D) c size offset buffer :
  mounted fs -> returns (read_file fs c size offset buffer).
Proof.
  intros Hm. unfold read_file. case_match; [apply returns_Done|]. case_match; [apply returns_Done|].
  apply returns_bind_ok; [apply get_cluster_chain_returns|]. intros [|x chain] _; [apply returns_Done|].
  pose proof (bytes_per_cluster_pos fs Hm).
  apply fat32_read_loop_returns; [assumption| |lia]. apply Nat.mod_upper_bound. lia.
Qed.

(** The clusters of a chain are linked by the table. *)
Lemma follow_chain_links (fs : Fat32 D) n : forall c chain,
  follow_chain fs n c = Done (Ok chain) -> linked fs n c chain.
Proof.
  induction n as [|n IH]; intros c chain; cbn [follow_chain].
  { intros [= <-]. cbn. auto. }
  destruct (Z.ltb_spec c EOC_MARKER); cbn [negb]; [|intros [= <-]; cbn; lia].
  destruct (Z.eqb_spec c BAD_CLUSTER); [discriminate|].
  intros [(next & Hn & [(rest & Hr & [= <-])|(e & _ & [=])]%bind_ok_Done)|(e & _ & [=])]%bind_ok_Done.
  cbn [linked]. split; [reflexivity|]. split; [lia|]. split; [assumption|].
  exists next. split; [assumption|]. now apply IH.
Qed.

(** Below the first component, only directories are found. *)
Lemma resolve_components_dir (fs : Fat32 D) cs : forall cl e0 e,
  is_directory e0 = true ->
  resolve_components to_lowercase fs cl (Some e0) cs = Done (Ok e) -> is_directory e = true.
Proof.
  induction cs as [|c cs IH]; intros cl e0 e He; cbn [resolve_components]; [now intros [= <-]|].
  intros [(x & _ & Hx)|(er & _ & [=])]%bind_ok_Done.
  destruct (is_directory x) eqn:E; cbn [negb andb] in Hx; [|discriminate].
  exact (IH _ _ _ E Hx).
Qed.

Lemma resolve_nested (fs : Fat32 D) cl c1 c2 cs e :
  resolve_components to_lowercase fs cl None (c1 :: c2 :: cs) = Done (Ok e) -> is_directory e = true.
Proof.
  cbn [resolve_components].
  intros [(x1 & _ & H1)|(er & _ & [=])]%bind_ok_Done. rewrite andb_false_r in H1.
  apply bind_ok_Done in H1 as [(x2 & _ & H2)|(er & _ & [=])].
  destruct (is_directory x2) eqn:E; cbn [negb andb] in H2; [|discriminate].
  exact (resolve_components_dir _ _ _ _ _ E H2).
Qed.

End DriverLemmas.

(** ** Properties *)

(** C36: once a FAT32 volume is mounted, following a cluster chain, listing a
    directory, resolving a path and reading a file end with a value or an error
    for every block device, cluster number, size and offset, without an
    overflow or an index out of range, as long as memory can be allocated. How
    much they need depends on the disk: a chain has at most [MAX_CHAIN_LENGTH] =
    65536 clusters even when the table is cyclic, and a cluster whose entry is
    itself gives a chain of exactly that length. This is 256 kilobytes of cluster
    numbers, more than the heap of 104 kilobytes, and a failed allocation, which is not
    modelled, panics. *)
Theorem fat32_operations_return {D} `{BlockDevice D} to_lowercase (d : D) fs :
  new d = Done (Ok fs) ->
  (forall c, returns (get_cluster_chain fs c))
  /\ (forall c chain, get_cluster_chain fs c = Done (Ok chain) -> (length chain <= MAX_CHAIN_LENGTH)%nat)
  /\ (forall c, c <> 0 -> c < EOC_MARKER -> c <> BAD_CLUSTER -> read_fat_entry fs c = Done (Ok c) ->
        get_cluster_chain fs c = Done (Ok (replicate MAX_CHAIN_LENGTH c)))
  /\ (forall c, returns (read_directory to_lowercase fs c))
  /\ (forall path, returns (resolve_path to_lowercase fs path))
  /\ (forall c size offset buffer, returns (read_file fs c size offset buffer))
  /\ (forall buffer f, (length buffer <= f)%nat ->
        parse_entries to_lowercase f buffer 0 [] = parse_entries to_lowercase (length buffer) buffer 0 []).
Proof.
  intros Hm%new_mounted. split; [apply get_cluster_chain_returns|]. split.
  { intros c chain. unfold get_cluster_chain. case_match; [intros [= <-]; apply Nat.le_0_l|apply follow_chain_length]. }
  split.
  { intros c H0 He Hb Hc. unfold get_cluster_chain. rewrite (proj2 (Z.eqb_neq c 0)) by exact H0. now apply follow_chain_cycle. }
  split; [intros; now apply read_directory_returns|].
  split; [intros; now apply fat32_resolve_path_returns|].
  split; [intros; now apply fat32_read_file_returns|].
  intros buffer f Hf. apply parse_entries_fuel; lia.
Qed.

Lemma fat32_operations_return_witness : returns (read_directory (fun s => s) demo_fs 2).
Proof.
  apply (fat32_operations_return (fun s => s) demo_disk demo_fs). vm_compute. reflexivity.
Defined.

(** Mounting can crash the kernel: the sizes in the boot sector are
    multiplied before they are validated, and a boot sector with 255 tables of
    2^32 - 1 sectors overflows. *)
Theorem fat32_mount_can_panic : exists disk : RamDisk, new disk = Panicked.
Proof. exists [huge_boot_sector]. vm_compute. reflexivity. Qed.

(** A cluster chain follows the table: each cluster's entry is the next
    cluster, all of them are usable cluster numbers, and the chain stops only
    at an end-of-chain mark or at the limit of 65536 clusters; reading a file
    returns the bytes of the chain's clusters, one after the other, up to the
    file's size. *)
Theorem read_file_follows_chain {D} `{BlockDevice D} (fs : Fat32 D) d c chain datas size offset buffer :
  new d = Done (Ok fs) -> 0 < c -> 0 <= size ->
  get_cluster_chain fs c = Done (Ok chain) -> Forall2 (cluster_holds fs) chain datas ->
  let data := take (Z.to_nat size) (concat datas) in
  let n := Nat.min (length buffer) (length data - offset) in
  linked fs MAX_CHAIN_LENGTH c chain
  /\ read_file fs c size offset buffer
     = Done (Ok (n, splice buffer 0 (sub_slice data offset (offset + n)))).
Proof.
  intros Hm%new_mounted Hc Hsz Hch Hf data n. split.
  { unfold get_cluster_chain in Hch. rewrite (proj2 (Z.eqb_neq c 0)) in Hch by lia.
    now apply follow_chain_links. }
  assert (length data = Nat.min (Z.to_nat size) (length (concat datas))) as Hdl
    by (subst data; apply length_take).
  assert (n = 0%nat -> Done (Ok (0%nat, buffer))
    = Done (Ok (n, splice buffer 0 (sub_slice data offset (offset + n)))) :> outcome (result _ Fat32Error)) as H0.
  { intros ->. rewrite Nat.add_0_r. unfold sub_slice. now rewrite Nat.sub_diag, take_0, splice_nil. }
  unfold read_file. rewrite (proj2 (Z.eqb_neq c 0)) by lia. cbn [orb].
  destruct (Z.eqb_spec size 0); [apply H0; lia|].
  destruct (Z.leb_spec size (Z.of_nat offset)); [apply H0; lia|]. rewrite Hch. cbn [bind_ok].
  destruct chain as [|c0 chain]; [apply Forall2_nil_inv_l in Hf; rewrite Hf in Hdl; cbn [concat length] in Hdl; apply H0; lia|].
  pose proof (bytes_per_cluster_pos fs Hm) as Hp. set (bpc := bytes_per_cluster (bpb fs)) in *.
  rewrite (fat32_read_loop_spec fs _ (drop (offset / bpc) datas)); [|assumption|now apply Forall2_drop| |lia].
  2:{ apply Nat.mod_upper_bound. lia. }
  rewrite (concat_drop_clusters fs _ _ _ Hm Hf), drop_drop. fold bpc.
  replace (offset / bpc * bpc + offset mod bpc)%nat with offset
    by (pose proof (Nat.div_mod_eq offset bpc); lia).
  rewrite Nat.sub_0_r, length_drop, Nat.add_0_l.
  replace (Nat.min _ (length (concat datas) - offset)) with n by lia.
  do 4 f_equal. unfold sub_slice. replace (offset + n - offset)%nat with n by lia.
  subst data. rewrite skipn_firstn_comm, take_take. f_equal. lia.
Qed.

Lemma read_file_follows_chain_witness :
  read_file demo_fs 4 3 1 [0; 0; 0; 0] = Done (Ok (2%nat, [7; 7; 0; 0])).
Proof.
  apply (read_file_follows_chain demo_fs demo_disk 4 [4] [replicate 512 7] 3 1 [0; 0; 0; 0]).
  - vm_compute. reflexivity.
  - lia.
  - lia.
  - vm_compute. reflexivity.
  - constructor; [vm_compute; reflexivity|constructor].
Defined.

(** No regular file in a subdirectory can be opened: resolving a path of two
    or more components succeeds only with a directory, since the check for a
    component that is not a directory is applied to the last one too. *)
Theorem nested_files_not_found {D} `{BlockDevice D} to_lowercase (fs : Fat32 D) path e :
  resolve_path to_lowercase fs path = Done (Ok e) -> (2 <= length (path_components path))%nat ->
  is_directory e = true.
Proof.
  unfold resolve_path. case_match; [discriminate|].
  destruct (bool_decide_reflect (path = "/")) as [->|]; [now intros [= <-] _|].
  destruct (path_components path) as [|c1 [|c2 cs]]; cbn [length]; [lia|lia|].
  intros Hr _. exact (resolve_nested _ _ _ _ _ _ _ Hr).
Qed.

Lemma nested_files_not_found_witness :
  is_directory (mkDirEntry "DEEP" ATTR_DIRECTORY 4 0) = true.
Proof.
  apply (nested_files_not_found (fun s => s) demo_fs "/sub/deep").
  - vm_compute. reflexivity.
  - vm_compute. lia.
Defined.

End Fat32.
