(* ===== verification/Mount.v ===== *)
(** * The mount table (src/kernel/src/mount.rs)

    Which paths belong to a mounted file system, and the operations on the
    mounted file systems that the virtual file system calls.  The ATA disk
    behind the disk file systems is any block device; the global tables are
    optional values, [None] before they are initialized. *)

From S2P Require Import Prelude Block Utf8 Abi Pipe FdTable Path Perm TmpFs DiskFs Fat32.
Import Abi Block Str FdTable Perm.

Module Mount.

(** [enum FsType]. *)
Inductive FsType : Type := Disk | FsFat32 | Tmpfs.

Global Instance FsType_eq_dec : EqDecision FsType.
Proof. solve_decision. Defined.

(** [struct MountEntry]. *)
Record MountEntry : Type := mkEntry { mount_point : string; fs_type : FsType }.

(** [diskfs_error_to_errno] and [fat32_error_to_errno]. *)
Definition diskfs_error_to_errno (err : DiskFs.DiskFsError) : ErrorCode :=
  match err with
  | DiskFs.IoError => EIO
  | DiskFs.InvalidMagic => EINVAL
  | DiskFs.InvalidVersion => EINVAL
  | DiskFs.InvalidInode => ENOENT
  | DiskFs.InvalidInodeType => EINVAL
  | DiskFs.InvalidPath => EINVAL
  | DiskFs.NotFound => ENOENT
  | DiskFs.NotADirectory => ENOTDIR
  | DiskFs.NotAFile => EISDIR
  end.

Definition fat32_error_to_errno (err : Fat32.Fat32Error) : ErrorCode :=
  match err with
  | Fat32.FIoError => EIO
  | Fat32.InvalidSignature => EINVAL
  | Fat32.InvalidBpb => EINVAL
  | Fat32.UnsupportedSectorSize => EINVAL
  | Fat32.InvalidCluster => EINVAL
  | Fat32.BadCluster => EIO
  | Fat32.FNotFound => ENOENT
  | Fat32.FNotADirectory => ENOTDIR
  | Fat32.FInvalidPath => EINVAL
  end.

(** [struct Fat32Handle]. *)
Record Fat32Handle : Type := mkHandle { h_cluster : Z; h_size : Z; h_is_dir : bool }.

(** [option.ok_or(EIO)?] inside a computation. *)
Definition ok_or {A} (o : option A) (e : ErrorCode) : outcome (result A ErrorCode) :=
  Done (match o with Some a => Ok a | None => Err e end).

Section Table.
Context {D : Type} `{BlockDevice D}.
Context (to_lowercase : string -> string).

(** [struct MountTable]. *)
Record MountTable : Type := mkTable {
  mounts : list (string * MountEntry);
  disk_fs : option (DiskFs.DiskFs D);
  fat32_fs : option (Fat32.Fat32 D)
}.

Definition new : MountTable := mkTable [] None None.

(** [mount_disk], [mount_fat32] and [mount_tmpfs]; [disk] is the device that
    [AtaDisk::new_slave] returns. *)
Definition mount_disk (t : MountTable) (disk : D) (mp : string)
    : outcome (result unit ErrorCode * MountTable) :=
  let! r := DiskFs.new disk in
  Done (match r with
        | Err _ => (Err EIO, t)
        | Ok fs => (Ok tt, mkTable (mounts t ++ [(mp, mkEntry mp Disk)]) (Some fs) (fat32_fs t))
        end).

Definition mount_fat32 (t : MountTable) (disk : D) (mp : string)
    : outcome (result unit ErrorCode * MountTable) :=
  let! r := Fat32.new disk in
  Done (match r with
        | Err e => (Err (fat32_error_to_errno e), t)
        | Ok fs => (Ok tt, mkTable (mounts t ++ [(mp, mkEntry mp FsFat32)]) (disk_fs t) (Some fs))
        end).

Definition mount_tmpfs (t : MountTable) (mp : string) : result unit ErrorCode * MountTable :=
  (Ok tt, mkTable (mounts t ++ [(mp, mkEntry mp Tmpfs)]) (disk_fs t) (fat32_fs t)).

(** [resolve_mount]: the first mount point that is the path or a prefix of it
    that ends at a slash. *)
Fixpoint resolve_in (ms : list (string * MountEntry)) (path : string)
    : option (string * string * FsType) :=
  match ms with
  | [] => None
  | (mp, entry) :: rest =>
      if bool_decide (path = mp) then Some (mp, "/", fs_type entry)
      else match strip_prefix (mp +:+ "/") path with
           | Some _ => Some (mp, str_drop (String.length mp) path, fs_type entry)
           | None => resolve_in rest path
           end
  end.

Definition resolve_mount (t : MountTable) (path : string) : option (string * string * FsType) :=
  resolve_in (mounts t) path.

(** [resolve_mount_path] on the global table. *)
Definition resolve_mount_path (t : option MountTable) (path : string)
    : option (string * string * FsType) :=
  match t with Some t => resolve_mount t path | None => None end.

(** ** The disk file system *)

Definition get_disk (t : option MountTable) : outcome (result (DiskFs.DiskFs D) ErrorCode) :=
  let* t := ok_or t EIO in ok_or (disk_fs t) EIO.

Definition diskfs_lookup (t : option MountTable) (path : string) : outcome (result Z ErrorCode) :=
  let* fs := get_disk t in map_err_out diskfs_error_to_errno (DiskFs.resolve_path fs path).

Definition diskfs_read (t : option MountTable) (inode : Z) (offset : nat) (buffer : list Z)
    : outcome (result (nat * list Z) ErrorCode) :=
  let* fs := get_disk t in
  map_err_out diskfs_error_to_errno (DiskFs.read_file fs inode offset buffer).

Definition disk_type (t : DiskFs.InodeType) : FileType :=
  match t with DiskFs.IFile => File | DiskFs.IDirectory => Directory end.

Definition mode_of_type (t : FileType) : Z :=
  match t with Directory => DEFAULT_DIR_MODE | File => DEFAULT_FILE_MODE end.

Definition diskfs_stat (t : option MountTable) (inode : Z) : outcome (result FileMetadata ErrorCode) :=
  let* fs := get_disk t in
  let* file := map_err_out diskfs_error_to_errno (DiskFs.stat fs inode) in
  let file_type := disk_type (DiskFs.df_type file) in
  Done (Ok (mkMeta file_type (DiskFs.df_size file) (mode_of_type file_type) 0 0)).

(** The loop of [diskfs_list_dir]. *)
Fixpoint disk_entry_types (fs : DiskFs.DiskFs D) (entries : list DiskFs.DiskDirEntry)
    : outcome (result (list (string * FileType)) ErrorCode) :=
  match entries with
  | [] => Done (Ok [])
  | entry :: rest =>
      let* file := map_err_out diskfs_error_to_errno (DiskFs.stat fs (DiskFs.de_inode entry)) in
      let* result := disk_entry_types fs rest in
      Done (Ok ((DiskFs.de_name entry, disk_type (DiskFs.df_type file)) :: result))
  end.

Definition diskfs_list_dir (t : option MountTable) (inode : Z)
    : outcome (result (list (string * FileType)) ErrorCode) :=
  let* fs := get_disk t in
  let* entries := map_err_out diskfs_error_to_errno (DiskFs.read_dir fs inode) in
  disk_entry_types fs entries.

(** ** The FAT32 file system *)

Definition get_fat32 (t : option MountTable) : outcome (result (Fat32.Fat32 D) ErrorCode) :=
  let* t := ok_or t EIO in ok_or (fat32_fs t) EIO.

Definition fat32_lookup (t : option MountTable) (path : string) : outcome (result Fat32Handle ErrorCode) :=
  let* fs := get_fat32 t in
  let* entry := map_err_out fat32_error_to_errno (Fat32.resolve_path to_lowercase fs path) in
  Done (Ok (mkHandle (Fat32.first_cluster entry) (Fat32.file_size entry) (Fat32.is_directory entry))).

Definition fat32_read (t : option MountTable) (cluster fsize : Z) (offset : nat) (buffer : list Z)
    : outcome (result (nat * list Z) ErrorCode) :=
  let* fs := get_fat32 t in
  map_err_out fat32_error_to_errno (Fat32.read_file fs cluster fsize offset buffer).

Definition fat32_stat (h : Fat32Handle) : result FileMetadata ErrorCode :=
  let file_type := if h_is_dir h then Directory else File in
  Ok (mkMeta file_type (h_size h) (mode_of_type file_type) 0 0).

Definition fat32_list_dir (t : option MountTable) (cluster : Z)
    : outcome (result (list (string * FileType)) ErrorCode) :=
  let* fs := get_fat32 t in
  let* entries := map_err_out fat32_error_to_errno (Fat32.read_directory to_lowercase fs cluster) in
  Done (Ok ((fun e => (Fat32.name e, if Fat32.is_directory e then Directory else File)) <$> entries)).

End Table.
Arguments MountTable : clear implicits.

(** ** The in-memory file system

    The global instance is [None] until [mount_tmpfs_at_tmp] creates it. *)

(** The parent directory of a path operation. *)
Definition tmpfs_parent (fs : TmpFs.TmpFs) (parent_path : string) : result Z ErrorCode :=
  let root := TmpFs.root_inode fs in
  if bool_decide (parent_path = "/") || is_empty parent_path then Ok root
  else TmpFs.lookup fs root (without_leading_slash parent_path).

Definition tmpfs_lookup (g : option TmpFs.TmpFs) (path : string) : result Z ErrorCode :=
  match g with
  | None => Err EIO
  | Some fs => TmpFs.lookup fs (TmpFs.root_inode fs) (without_leading_slash path)
  end.

Definition tmpfs_create (g : option TmpFs.TmpFs) (parent_path name : string) (is_dir : bool)
    : outcome (result Z ErrorCode * option TmpFs.TmpFs) :=
  match g with
  | None => Done (Err EIO, g)
  | Some fs =>
      match tmpfs_parent fs parent_path with
      | Err e => Done (Err e, g)
      | Ok parent_inode =>
          let! (r, fs) := TmpFs.create fs parent_inode name is_dir in Done (r, Some fs)
      end
  end.

Definition tmpfs_read (g : option TmpFs.TmpFs) (inode : Z) (offset : nat) (buffer : list Z)
    : result (nat * list Z) ErrorCode :=
  match g with None => Err EIO | Some fs => TmpFs.read fs inode offset buffer end.

Definition tmpfs_write (g : option TmpFs.TmpFs) (inode : Z) (offset : nat) (data : list Z)
    : result nat ErrorCode * option TmpFs.TmpFs :=
  match g with
  | None => (Err EIO, g)
  | Some fs => let (r, fs) := TmpFs.write fs inode offset data in (r, Some fs)
  end.

Definition tmpfs_truncate (g : option TmpFs.TmpFs) (inode : Z)
    : result unit ErrorCode * option TmpFs.TmpFs :=
  match g with
  | None => (Err EIO, g)
  | Some fs => let (r, fs) := TmpFs.truncate fs inode in (r, Some fs)
  end.

Definition tmpfs_stat (g : option TmpFs.TmpFs) (inode : Z) : result FileMetadata ErrorCode :=
  match g with None => Err EIO | Some fs => TmpFs.stat fs inode end.

Definition tmpfs_list_dir (g : option TmpFs.TmpFs) (inode : Z)
    : result (list (string * FileType)) ErrorCode :=
  match g with None => Err EIO | Some fs => TmpFs.read_dir fs inode end.

Definition tmpfs_unlink (g : option TmpFs.TmpFs) (parent_path name : string)
    : result unit ErrorCode * option TmpFs.TmpFs :=
  match g with
  | None => (Err EIO, g)
  | Some fs =>
      match tmpfs_parent fs parent_path with
      | Err e => (Err e, g)
      | Ok parent_inode => let (r, fs) := TmpFs.unlink fs parent_inode name in (r, Some fs)
      end
  end.

Definition tmpfs_chmod (g : option TmpFs.TmpFs) (inode new_mode : Z)
    : result unit ErrorCode * option TmpFs.TmpFs :=
  match g with
  | None => (Err EIO, g)
  | Some fs => let (r, fs) := TmpFs.chmod fs inode new_mode in (r, Some fs)
  end.

Definition tmpfs_mkdir (g : option TmpFs.TmpFs) (parent_path name : string) :=
  tmpfs_create g parent_path name true.

Definition tmpfs_rmdir (g : option TmpFs.TmpFs) (parent_path name : string)
    : result unit ErrorCode * option TmpFs.TmpFs :=
  match g with
  | None => (Err EIO, g)
  | Some fs =>
      match tmpfs_parent fs parent_path with
      | Err e => (Err e, g)
      | Ok parent_inode =>
          match TmpFs.lookup fs parent_inode name with
          | Err e => (Err e, g)
          | Ok dir_inode =>
              match TmpFs.stat fs dir_inode with
              | Err e => (Err e, g)
              | Ok metadata =>
                  if negb (bool_decide (file_type metadata = Directory)) then (Err ENOTDIR, g)
                  else
                    match TmpFs.read_dir fs dir_inode with
                    | Err e => (Err e, g)
                    | Ok (_ :: _) => (Err ENOTEMPTY, g)
                    | Ok [] => let (r, fs) := TmpFs.unlink fs parent_inode name in (r, Some fs)
                    end
              end
          end
      end
  end.

Definition tmpfs_rename (g : option TmpFs.TmpFs) (old_parent_path old_name new_parent_path new_name : string)
    : result unit ErrorCode * option TmpFs.TmpFs :=
  match g with
  | None => (Err EIO, g)
  | Some fs =>
      match tmpfs_parent fs old_parent_path with
      | Err e => (Err e, g)
      | Ok old_parent_inode =>
          match tmpfs_parent fs new_parent_path with
          | Err e => (Err e, g)
          | Ok new_parent_inode =>
              let (r, fs) := TmpFs.rename fs old_parent_inode old_name new_parent_inode new_name in
              (r, Some fs)
          end
      end
  end.

(** ** Lemmas *)

Lemma strip_prefix_Some p : forall s r, strip_prefix p s = Some r -> s = p +:+ r.
Proof.
  induction p as [|a p IH]; intros s r; cbn [strip_prefix]; [now intros [= <-]|].
  destruct s as [|b s]; [discriminate|]. destruct (Ascii.eqb_spec a b) as [->|]; [|discriminate].
  intros ->%IH. reflexivity.
Qed.

Lemma strip_prefix_app p : forall r, strip_prefix p (p +:+ r) = Some r.
Proof.
  induction p as [|a p IH]; intros r; [reflexivity|].
  change (String a p +:+ r) with (String a (p +:+ r)). cbn [strip_prefix]. now rewrite Ascii.eqb_refl.
Qed.

Lemma str_drop_app p : forall r, str_drop (String.length p) (p +:+ r) = r.
Proof. induction p as [|a p IH]; intros r; [now destruct r|apply IH]. Qed.

(** ** Properties *)

(** The mount table respects the components of a path. A path is resolved to
    a mount exactly when it is a mount point or continues one after a slash
    (so [/tmpfoo] is not in [/tmp]), and the relative path it is given is
    absolute in the mounted file system and completes the mount point to the
    path. *)
Theorem resolve_mount_components {D} (t : MountTable D) path :
  match resolve_mount t path with
  | Some (mp, rel, ty) =>
      (exists e, (mp, e) ∈ mounts t /\ fs_type e = ty)
      /\ starts_with_slash rel = true /\ (path = mp /\ rel = "/" \/ path = mp +:+ rel)
  | None => forall mp e rel, (mp, e) ∈ mounts t -> path <> mp /\ path <> mp +:+ "/" +:+ rel
  end.
Proof.
  unfold resolve_mount. induction (mounts t) as [|[mp e] ms IH]; cbn [resolve_in].
  { intros mp e rel Hin. now apply elem_of_nil in Hin. }
  destruct (bool_decide_reflect (path = mp)) as [->|Hne].
  { split; [exists e; split; [left|reflexivity]|]. auto. }
  destruct (strip_prefix (mp +:+ "/") path) as [r|] eqn:E.
  - apply strip_prefix_Some in E. rewrite <- str_app_assoc in E. subst path. rewrite str_drop_app.
    split; [exists e; split; [left|reflexivity]|]. auto.
  - destruct (resolve_in ms path) as [[[mp' rel] ty]|].
    + destruct IH as [(e' & Hin & Ht) Hrest]. split; [|assumption]. exists e'. split; [now right|assumption].
    + intros mp' e' rel [[= -> ->]|Hin]%elem_of_cons; [|eauto]. split; [assumption|].
      intros ->. rewrite str_app_assoc, strip_prefix_app in E. discriminate.
Qed.

End Mount.
