(* ===== verification/Vfs.v ===== *)
(** * The virtual file system (src/kernel/src/fs.rs)

    The in-memory tree of built-in files, the tables of written, created,
    re-moded and re-owned files, and the operations that dispatch to the
    mounted file systems.  The tables [WRITABLE_FILES], [DYNAMIC_FILES],
    [FILE_MODES] and [FILE_OWNERSHIP] are finite maps: the code treats a table
    that is not yet allocated as an empty one.  The state is the record [Vfs];
    file-descriptor tables are those of FdTable.v. *)

From stdpp Require Import sorting.
From S2P Require Import Prelude Bytes Block Utf8 Abi Pipe FdTable Path Perm TmpFs DiskFs Fat32 Mount.
Import Abi Block Str Utf8 FdTable Perm Mount.

Module Vfs.

(** [struct FileNode]. *)
Record FileNode : Type := mkNode {
  node_path : string; node_data : list Z; node_type : FileType;
  node_mode : Z; node_uid : Z; node_gid : Z }.

Definition dir_node (path : string) : FileNode := mkNode path [] Directory DEFAULT_DIR_MODE 0 0.
Definition file_node (path : string) (data : list Z) : FileNode :=
  mkNode path data File DEFAULT_FILE_MODE 0 0.

(** [static FILES]. *)
Definition FILES : list FileNode :=
  [ dir_node "/"; dir_node "/bin"; dir_node "/etc"; dir_node "/tmp"; dir_node "/mnt";
    file_node "/etc/motd"
      (bytes_of_string "Welcome to PandaOS." ++ [13; 10]
       ++ bytes_of_string "Type 'help' for commands." ++ [13; 10]);
    file_node "/etc/version" (bytes_of_string "PandaOS 0.1.0" ++ [13; 10]) ].

(** The value [&FILES[0]] used for dynamic files. *)
Definition placeholder : FileNode := dir_node "/".

Definition TMP_PREFIX : string := "/tmp/".

(** [path.starts_with("/tmp/")]. *)
Definition in_tmp (path : string) : bool :=
  match strip_prefix TMP_PREFIX path with Some _ => true | None => false end.

(** [(flags & flag) != 0]. *)
Definition has_flag (flags flag : Z) : bool := negb (Z.land flags flag =? 0).

(** The access modes of an open. *)
Definition wants_write (flags : Z) : bool := has_flag flags O_WRONLY || has_flag flags O_RDWR.
Definition wants_read (flags : Z) : bool := negb (has_flag flags O_WRONLY) || has_flag flags O_RDWR.

(** The result of a fallible step that can also change the state. *)
Notation "'try' x := m 'with' s 'in' k" :=
  (match m with Ok x => k | Err e => Done (Err e, s) end)
  (at level 10, x pattern, m at level 100, s at level 100, k at level 200) : panda_scope.

Section Vfs.
Context {D : Type} `{BlockDevice D}.
Context (to_lowercase : string -> string).

Record Vfs : Type := mkVfs {
  table : option (MountTable D);
  tmpfs : option TmpFs.TmpFs;
  writable_files : gmap nat (list Z);
  dynamic_files : gmap string nat;
  file_modes : gmap nat Z;
  file_ownership : gmap nat (Z * Z)
}.

Definition with_tmpfs (v : Vfs) (g : option TmpFs.TmpFs) : Vfs :=
  mkVfs (table v) g (writable_files v) (dynamic_files v) (file_modes v) (file_ownership v).
Definition with_writable (v : Vfs) (w : gmap nat (list Z)) : Vfs :=
  mkVfs (table v) (tmpfs v) w (dynamic_files v) (file_modes v) (file_ownership v).

(** [lookup]. *)
Definition lookup (path : string) : option (list Z) :=
  node_data <$> find (fun n => bool_decide (node_path n = path)) FILES.

(** The position of the first built-in file with the path, from [i] on. *)
Fixpoint find_node (i : nat) (files : list FileNode) (path : string) : option (nat * FileNode) :=
  match files with
  | [] => None
  | n :: rest => if bool_decide (node_path n = path) then Some (i, n) else find_node (S i) rest path
  end.

(** [lookup_node]. *)
Definition lookup_node (v : Vfs) (path : string) : option (nat * FileNode) :=
  match find_node 0 FILES path with
  | Some found => Some found
  | None =>
      match dynamic_files v !! path with
      | Some node_index => Some (node_index, placeholder)
      | None => None
      end
  end.

(** [create_dynamic_file]. *)
Definition create_dynamic_file (v : Vfs) (path : string) : result nat ErrorCode * Vfs :=
  if negb (in_tmp path) then (Err EACCES, v)
  else
    match lookup_node v path with
    | Some _ => (Err EEXIST, v)
    | None =>
        let node_index := (length FILES + base.size (dynamic_files v))%nat in
        (Ok node_index,
         mkVfs (table v) (tmpfs v) (<[node_index := []]> (writable_files v))
           (<[path := node_index]> (dynamic_files v)) (file_modes v) (file_ownership v))
    end.

(** The mode and the owner of an in-memory node. *)
Definition mode_of (v : Vfs) (node_index : nat) (node : FileNode) : Z :=
  match file_modes v !! node_index with Some m => m | None => node_mode node end.

Definition owner_of (v : Vfs) (node_index : nat) (node : FileNode) : Z * Z :=
  match file_ownership v !! node_index with
  | Some o => o
  | None => (node_uid node, node_gid node)
  end.

(** The metadata of an in-memory node, shared by [stat_path] and [fstat_fd]. *)
Definition node_metadata (v : Vfs) (node_index : nat) (node : FileNode) : FileMetadata :=
  let mode := mode_of v node_index node in
  let (uid, gid) := owner_of v node_index node in
  match writable_files v !! node_index with
  | Some file_data => mkMeta File (Z.of_nat (length file_data)) mode uid gid
  | None =>
      mkMeta (node_type node)
        (match node_type node with Directory => 0 | File => Z.of_nat (length (node_data node)) end)
        mode uid gid
  end.

(** [stat_path]. *)
Definition stat_path (v : Vfs) (path : string) : outcome (result FileMetadata ErrorCode) :=
  match resolve_mount_path (table v) path with
  | Some (_, rel_path, Disk) =>
      let* inode := diskfs_lookup (table v) rel_path in diskfs_stat (table v) inode
  | Some (_, rel_path, Tmpfs) =>
      let* inode := Done (tmpfs_lookup (tmpfs v) rel_path) in Done (tmpfs_stat (tmpfs v) inode)
  | Some (_, rel_path, FsFat32) =>
      let* handle := fat32_lookup to_lowercase (table v) rel_path in Done (fat32_stat handle)
  | None =>
      Done (match lookup_node v path with
            | None => Err ENOENT
            | Some (node_index, node) => Ok (node_metadata v node_index node)
            end)
  end.

(** [FdTable::open_node_with_flags]. *)
Definition open_node_with_flags (v : Vfs) (t : FdTable) (node_index : nat) (flags proc_uid proc_gid : Z)
    : outcome (result nat ErrorCode * (FdTable * Vfs)) :=
  match FILES !! node_index with
  | None => Done (Err ENOENT, (t, v))
  | Some node =>
      let! r := allocate_fd t in
      try fd := r with (t, v) in
      let! m := stat_path v (node_path node) in
      try metadata := m with (t, v) in
      let writable := wants_write flags in
      if wants_read flags
         && negb (can_read proc_uid proc_gid (uid metadata) (gid metadata) (mode metadata))
      then Done (Err EACCES, (t, v))
      else if writable
         && negb (can_write proc_uid proc_gid (uid metadata) (gid metadata) (mode metadata))
      then Done (Err EACCES, (t, v))
      else
        match node_type node with
        | File =>
            let v := if writable && has_flag flags O_TRUNC
                     then with_writable v (<[node_index := []]> (writable_files v)) else v in
            let! t := index_set t fd (Some (FdFile (mkOpenFile node_index 0 flags) writable)) in
            Done (Ok fd, (t, v))
        | Directory =>
            if writable then Done (Err EISDIR, (t, v))
            else
              let! t := index_set t fd (Some (FdDirectory (mkOpenFile node_index 0 flags))) in
              Done (Ok fd, (t, v))
        end
  end.

(** Parent and name of a path, split at its last slash. *)
Definition split_parent (rel_path : string) : string * string :=
  match rfind_slash rel_path with
  | Some pos =>
      let parent := str_take pos rel_path in
      let name := str_drop (pos + 1) rel_path in
      (if is_empty parent then "/" else parent, name)
  | None => ("/", rel_path)
  end.

(** The inode a tmpfs open refers to: an existing file, truncated if asked, or
    a new one. *)
Definition tmpfs_open_inode (v : Vfs) (rel_path : string) (flags : Z)
    : outcome (result Z ErrorCode * Vfs) :=
  match tmpfs_lookup (tmpfs v) rel_path with
  | Ok inode =>
      if has_flag flags O_TRUNC && wants_write flags then
        let (r, g) := tmpfs_truncate (tmpfs v) inode in
        let v := with_tmpfs v g in
        match r with Err e => Done (Err e, v) | Ok _ => Done (Ok inode, v) end
      else Done (Ok inode, v)
  | Err ENOENT =>
      if has_flag flags O_CREAT then
        let (parent, name) := split_parent rel_path in
        let! (r, g) := tmpfs_create (tmpfs v) parent name false in
        Done (r, with_tmpfs v g)
      else Done (Err ENOENT, v)
  | Err e => Done (Err e, v)
  end.

(** [open_path_with_flags]. *)
Definition open_path_with_flags (v : Vfs) (t : FdTable) (path : string) (flags proc_uid proc_gid : Z)
    : outcome (result nat ErrorCode * (FdTable * Vfs)) :=
  match resolve_mount_path (table v) path with
  | Some (_, rel_path, Disk) =>
      let! i := diskfs_lookup (table v) rel_path in
      try inode := i with (t, v) in
      let! m := diskfs_stat (table v) inode in
      try metadata := m with (t, v) in
      if wants_read flags
         && negb (can_read proc_uid proc_gid (uid metadata) (gid metadata) (mode metadata))
      then Done (Err EACCES, (t, v))
      else if wants_write flags then
        if negb (can_write proc_uid proc_gid (uid metadata) (gid metadata) (mode metadata))
        then Done (Err EACCES, (t, v)) else Done (Err EROFS, (t, v))
      else
        let! r := allocate_fd t in
        try fd := r with (t, v) in
        let open := mkOpenDiskFile inode 0 flags in
        let! t := index_set t fd (Some (match file_type metadata with
                                        | File => FdDiskFile open
                                        | Directory => FdDiskDirectory open
                                        end)) in
        Done (Ok fd, (t, v))
  | Some (_, rel_path, FsFat32) =>
      let! h := fat32_lookup to_lowercase (table v) rel_path in
      try handle := h with (t, v) in
      try metadata := fat32_stat handle with (t, v) in
      if wants_read flags
         && negb (can_read proc_uid proc_gid (uid metadata) (gid metadata) (mode metadata))
      then Done (Err EACCES, (t, v))
      else if wants_write flags then
        if negb (can_write proc_uid proc_gid (uid metadata) (gid metadata) (mode metadata))
        then Done (Err EACCES, (t, v)) else Done (Err EROFS, (t, v))
      else
        let! r := allocate_fd t in
        try fd := r with (t, v) in
        let open := mkOpenFat32File (h_cluster handle) (h_size handle) (h_is_dir handle) 0 flags in
        let! t := index_set t fd (Some (match file_type metadata with
                                        | File => FdFat32File open
                                        | Directory => FdFat32Directory open
                                        end)) in
        Done (Ok fd, (t, v))
  | Some (_, rel_path, Tmpfs) =>
      let! (i, v) := tmpfs_open_inode v rel_path flags in
      try inode := i with (t, v) in
      try metadata := tmpfs_stat (tmpfs v) inode with (t, v) in
      if wants_read flags
         && negb (can_read proc_uid proc_gid (uid metadata) (gid metadata) (mode metadata))
      then Done (Err EACCES, (t, v))
      else if wants_write flags
         && negb (can_write proc_uid proc_gid (uid metadata) (gid metadata) (mode metadata))
      then Done (Err EACCES, (t, v))
      else
        let! r := allocate_fd t in
        try fd := r with (t, v) in
        let open := mkOpenTmpfsFile inode 0 flags in
        let! t := index_set t fd (Some (match file_type metadata with
                                        | File => FdTmpfsFile open
                                        | Directory => FdTmpfsDirectory open
                                        end)) in
        Done (Ok fd, (t, v))
  | None =>
      match lookup_node v path with
      | Some (idx, _) => open_node_with_flags v t idx flags proc_uid proc_gid
      | None =>
          if has_flag flags O_CREAT then
            let (r, v) := create_dynamic_file v path in
            try node_index := r with (t, v) in
            open_node_with_flags v t node_index flags proc_uid proc_gid
          else Done (Err ENOENT, (t, v))
      end
  end.

(** [open_path]. *)
Definition open_path (v : Vfs) (t : FdTable) (path : string) (proc_uid proc_gid : Z)
    : outcome (result nat ErrorCode * (FdTable * Vfs)) :=
  match lookup_node v path with
  | None => Done (Err ENOENT, (t, v))
  | Some (node_index, _) => open_node_with_flags v t node_index O_RDONLY proc_uid proc_gid
  end.

(** [self.entries[fd as usize] = Some(kind)]. *)
Definition set_entry (t : FdTable) (fd : Z) (kind : FdKind) : outcome FdTable :=
  index_set t (Z.to_nat fd) (Some kind).

(** Copying from the data of an in-memory file: the count, the buffer and the
    new offset; [None] at the end of the file or for an empty buffer. *)
Definition copy_from (data : list Z) (offset : nat) (buffer : list Z) : option (nat * list Z * nat) :=
  if (length data <=? offset)%nat || (length buffer =? 0)%nat then None
  else
    let available := (length data - offset)%nat in
    let to_read := Nat.min available (length buffer) in
    let end_ := (offset + to_read)%nat in
    Some (to_read, splice buffer 0 (sub_slice data offset end_), end_).

(** [FdTable::read]: the count and the buffer. *)
Definition read (v : Vfs) (t : FdTable) (fd : Z) (buffer : list Z)
    : outcome (result (nat * list Z) ErrorCode * FdTable) :=
  let! k := get t fd in
  try kind := k with t in
  match kind with
  | FdFile open writable =>
      let data := match writable_files v !! of_node_index open with
                  | Some file_data => Some file_data
                  | None => node_data <$> FILES !! of_node_index open
                  end in
      match data with
      | None => Done (Err ENOENT, t)
      | Some data =>
          match copy_from data (of_offset open) buffer with
          | None => Done (Ok (0%nat, buffer), t)
          | Some (to_read, buffer, end_) =>
              let! t := set_entry t fd
                (FdFile (mkOpenFile (of_node_index open) end_ (of_flags open)) writable) in
              Done (Ok (to_read, buffer), t)
          end
      end
  | FdDiskFile open =>
      let! r := diskfs_read (table v) (od_inode open) (od_offset open) buffer in
      try (bytes_read, buffer) := r with t in
      let! t := set_entry t fd
        (FdDiskFile (mkOpenDiskFile (od_inode open) (od_offset open + bytes_read) (od_flags open))) in
      Done (Ok (bytes_read, buffer), t)
  | FdTmpfsFile open =>
      let buffer_vec := replicate (length buffer) 0 in
      try (bytes_read, buffer_vec) := tmpfs_read (tmpfs v) (ot_inode open) (ot_offset open) buffer_vec
        with t in
      let! src := slice buffer_vec 0 bytes_read in
      let! t := set_entry t fd
        (FdTmpfsFile (mkOpenTmpfsFile (ot_inode open) (ot_offset open + bytes_read) (ot_flags open))) in
      Done (Ok (bytes_read, splice buffer 0 src), t)
  | FdFat32File open =>
      let! r := fat32_read (table v) (o3_cluster open) (o3_size open) (o3_offset open) buffer in
      try (bytes_read, buffer) := r with t in
      let! t := set_entry t fd
        (FdFat32File (mkOpenFat32File (o3_cluster open) (o3_size open) (o3_is_dir open)
                        (o3_offset open + bytes_read) (o3_flags open))) in
      Done (Ok (bytes_read, buffer), t)
  | FdDirectory _ | FdDiskDirectory _ | FdTmpfsDirectory _ | FdFat32Directory _ => Done (Err EISDIR, t)
  | FdPipeRead _ | FdPipeWrite _ => Done (Err EBADF, t)
  end.

(** [FdTable::write]; the change of an in-memory file's data is the one of a
    tmpfs file. *)
Definition write (v : Vfs) (t : FdTable) (fd : Z) (data : list Z)
    : outcome (result nat ErrorCode * (FdTable * Vfs)) :=
  let! k := get t fd in
  try kind := k with (t, v) in
  match kind with
  | FdFile open writable =>
      if negb writable then Done (Err EBADF, (t, v))
      else
        let old := match writable_files v !! of_node_index open with Some d => d | None => [] end in
        let write_offset := if has_flag (of_flags open) O_APPEND then length old else of_offset open in
        let v := with_writable v
          (<[of_node_index open := TmpFs.write_data old write_offset data]> (writable_files v)) in
        let! t := set_entry t fd
          (FdFile (mkOpenFile (of_node_index open) (write_offset + length data) (of_flags open)) writable) in
        Done (Ok (length data), (t, v))
  | FdTmpfsFile open =>
      let off := if has_flag (ot_flags open) O_APPEND
                 then let? metadata := tmpfs_stat (tmpfs v) (ot_inode open) in
                      Ok (Z.to_nat (size metadata))
                 else Ok (ot_offset open) in
      try write_offset := off with (t, v) in
      let (r, g) := tmpfs_write (tmpfs v) (ot_inode open) write_offset data in
      let v := with_tmpfs v g in
      try bytes_written := r with (t, v) in
      let! t := set_entry t fd
        (FdTmpfsFile (mkOpenTmpfsFile (ot_inode open) (write_offset + bytes_written) (ot_flags open))) in
      Done (Ok bytes_written, (t, v))
  | FdDirectory _ | FdTmpfsDirectory _ => Done (Err EBADF, (t, v))
  | FdDiskFile _ | FdDiskDirectory _ | FdFat32File _ | FdFat32Directory _ => Done (Err EROFS, (t, v))
  | FdPipeRead _ | FdPipeWrite _ => Done (Err EBADF, (t, v))
  end.

(** [size as i64]. *)
Definition as_i64 (z : Z) : Z := if z <? 2 ^ 63 then z else z - 2 ^ 64.

(** [FdTable::get_file_size]. *)
Definition get_file_size (v : Vfs) (t : FdTable) (fd : Z) : outcome (result Z ErrorCode) :=
  let* kind := get t fd in
  match kind with
  | FdFile open _ =>
      Done (match FILES !! of_node_index open with
            | None => Err ENOENT
            | Some node =>
                Ok (Z.of_nat (length (match writable_files v !! of_node_index open with
                                      | Some file_data => file_data
                                      | None => node_data node
                                      end)))
            end)
  | FdDiskFile open => let* metadata := diskfs_stat (table v) (od_inode open) in
                       Done (Ok (as_i64 (size metadata)))
  | FdTmpfsFile open =>
      Done (let? metadata := tmpfs_stat (tmpfs v) (ot_inode open) in Ok (as_i64 (size metadata)))
  | FdFat32File open => Done (Ok (o3_size open))
  | FdDirectory _ | FdDiskDirectory _ | FdTmpfsDirectory _ | FdFat32Directory _ => Done (Err EISDIR)
  | FdPipeRead _ | FdPipeWrite _ => Done (Err ESPIPE)
  end.

(** The name of a built-in file that is a direct child of a directory. *)
Definition child_name (dir_path : string) (file : FileNode) : option string :=
  if bool_decide (node_path file = dir_path) then None
  else if bool_decide (dir_path = "/") then
    if starts_with_slash (node_path file) && negb (contains_slash (str_drop 1 (node_path file)))
       && negb (is_empty (str_drop 1 (node_path file)))
    then Some (str_drop 1 (node_path file)) else None
  else
    match strip_prefix (dir_path +:+ "/") (node_path file) with
    | Some remainder => if contains_slash remainder then None else Some remainder
    | None => None
    end.

(** The dynamic files listed in [/tmp], in the order of their paths. *)
Definition path_le (a b : string * nat) : Prop := String.leb (fst a) (fst b) = true.

Global Instance path_le_dec : RelDecision path_le.
Proof. intros a b. unfold path_le. apply _. Defined.

Definition dynamic_names (v : Vfs) : list (string * FileType) :=
  omap (fun '(path, _) =>
          match strip_prefix TMP_PREFIX path with
          | Some name => if contains_slash name then None else Some (name, File)
          | None => None
          end) (merge_sort path_le (map_to_list (dynamic_files v))).

(** [list_directory]. *)
Definition list_directory (v : Vfs) (dir_path : string)
    : outcome (result (list (string * FileType)) ErrorCode) :=
  match resolve_mount_path (table v) dir_path with
  | Some (_, rel_path, Disk) =>
      let* inode := diskfs_lookup (table v) rel_path in diskfs_list_dir (table v) inode
  | Some (_, rel_path, Tmpfs) =>
      let* inode := Done (tmpfs_lookup (tmpfs v) rel_path) in Done (tmpfs_list_dir (tmpfs v) inode)
  | Some (_, rel_path, FsFat32) =>
      let* handle := fat32_lookup to_lowercase (table v) rel_path in
      fat32_list_dir to_lowercase (table v) (h_cluster handle)
  | None =>
      Done (match lookup_node v dir_path with
            | None => Err ENOENT
            | Some (_, node) =>
                if negb (bool_decide (node_type node = Directory)) then Err ENOTDIR
                else
                  let entries := omap (fun f => (fun n => (n, node_type f)) <$> child_name dir_path f) FILES in
                  Ok (if bool_decide (dir_path = "/tmp") then entries ++ dynamic_names v else entries)
            end)
  end.

(** [validate_directory]. *)
Definition validate_directory (v : Vfs) (path : string) : result unit ErrorCode :=
  match lookup_node v path with
  | None => Err ENOENT
  | Some (_, node) => if bool_decide (node_type node = Directory) then Ok tt else Err ENOTDIR
  end.

(** [unlink_path]. *)
Definition unlink_path (v : Vfs) (path : string) : result unit ErrorCode * Vfs :=
  match resolve_mount_path (table v) path with
  | Some (_, _, Disk) | Some (_, _, FsFat32) => (Err EROFS, v)
  | Some (_, rel_path, Tmpfs) =>
      let (parent, name) := split_parent rel_path in
      let (r, g) := tmpfs_unlink (tmpfs v) parent name in
      (r, with_tmpfs v g)
  | None =>
      if negb (in_tmp path) then (Err EACCES, v)
      else
        match dynamic_files v !! path with
        | Some node_index =>
            (Ok tt, mkVfs (table v) (tmpfs v) (delete node_index (writable_files v))
                      (delete path (dynamic_files v)) (file_modes v) (file_ownership v))
        | None => (Err ENOENT, v)
        end
  end.

(** [chmod_path]. *)
Definition chmod_path (v : Vfs) (path : string) (new_mode : Z) : result unit ErrorCode * Vfs :=
  match resolve_mount_path (table v) path with
  | Some (_, _, Disk) | Some (_, _, FsFat32) => (Err EROFS, v)
  | Some (_, rel_path, Tmpfs) =>
      match tmpfs_lookup (tmpfs v) rel_path with
      | Err e => (Err e, v)
      | Ok inode => let (r, g) := tmpfs_chmod (tmpfs v) inode new_mode in (r, with_tmpfs v g)
      end
  | None =>
      match lookup_node v path with
      | None => (Err ENOENT, v)
      | Some (node_index, node) =>
          let file_type_bits := Z.land (node_mode node) S_IFMT in
          let permission_bits := Z.land new_mode PERM_MASK in
          let final_mode := Z.lor file_type_bits permission_bits in
          (Ok tt, mkVfs (table v) (tmpfs v) (writable_files v) (dynamic_files v)
                    (<[node_index := final_mode]> (file_modes v)) (file_ownership v))
      end
  end.

(** [chown_path]; [u32::MAX] keeps an owner. *)
Definition chown_path (v : Vfs) (path : string) (uid gid : Z) : result unit ErrorCode * Vfs :=
  match resolve_mount_path (table v) path with
  | Some (_, _, Disk) | Some (_, _, FsFat32) => (Err EROFS, v)
  | Some (_, _, Tmpfs) => (Err ENOSYS, v)
  | None =>
      match lookup_node v path with
      | None => (Err ENOENT, v)
      | Some (node_index, node) =>
          let current := owner_of v node_index node in
          let new_uid := if uid =? U32_MAX then fst current else uid in
          let new_gid := if gid =? U32_MAX then snd current else gid in
          (Ok tt, mkVfs (table v) (tmpfs v) (writable_files v) (dynamic_files v) (file_modes v)
                    (<[node_index := (new_uid, new_gid)]> (file_ownership v)))
      end
  end.

(** [fstat_fd]. *)
Definition fstat_fd (v : Vfs) (t : FdTable) (fd : Z) : outcome (result FileMetadata ErrorCode) :=
  let* kind := get t fd in
  match kind with
  | FdFile open _ =>
      Done (match FILES !! of_node_index open with
            | None => Err ENOENT
            | Some node => Ok (node_metadata v (of_node_index open) node)
            end)
  | FdDirectory open =>
      Done (match FILES !! of_node_index open with
            | None => Err ENOENT
            | Some node =>
                let (uid, gid) := owner_of v (of_node_index open) node in
                Ok (mkMeta (node_type node) 0 (mode_of v (of_node_index open) node) uid gid)
            end)
  | FdDiskFile open | FdDiskDirectory open => diskfs_stat (table v) (od_inode open)
  | FdTmpfsFile open | FdTmpfsDirectory open => Done (tmpfs_stat (tmpfs v) (ot_inode open))
  | FdFat32File open | FdFat32Directory open =>
      Done (fat32_stat (mkHandle (o3_cluster open) (o3_size open) (o3_is_dir open)))
  | FdPipeRead _ | FdPipeWrite _ => Done (Err EBADF)
  end.

(** [read_file_to_vec]. *)
Definition read_file_to_vec (v : Vfs) (path : string) : outcome (result (list Z) ErrorCode) :=
  let* metadata := stat_path v path in
  if negb (bool_decide (file_type metadata = File)) then Done (Err EISDIR)
  else
    let file_size := Z.to_nat (size metadata) in
    if (file_size =? 0)%nat then Done (Ok [])
    else
      let buffer := replicate file_size 0 in
      match resolve_mount_path (table v) path with
      | Some (_, rel_path, Disk) =>
          let* inode := diskfs_lookup (table v) rel_path in
          let* (bytes_read, buffer) := diskfs_read (table v) inode 0 buffer in
          Done (Ok (take bytes_read buffer))
      | Some (_, rel_path, Tmpfs) =>
          let* inode := Done (tmpfs_lookup (tmpfs v) rel_path) in
          let* (bytes_read, buffer) := Done (tmpfs_read (tmpfs v) inode 0 buffer) in
          Done (Ok (take bytes_read buffer))
      | Some (_, rel_path, FsFat32) =>
          let* handle := fat32_lookup to_lowercase (table v) rel_path in
          let* (bytes_read, buffer) := fat32_read (table v) (h_cluster handle) (h_size handle) 0 buffer in
          Done (Ok (take bytes_read buffer))
      | None => Done (match lookup path with Some data => Ok data | None => Err ENOENT end)
      end.

End Vfs.
Arguments Vfs : clear implicits.

(** ** Examples *)

(** The system after boot with nothing but tmpfs mounted: [/tmp/secret] holds
    three bytes, belongs to root and is read-only for others. *)
Definition demo_tmpfs : TmpFs.TmpFs :=
  match TmpFs.run [TmpFs.OpCreate 1 "secret" false; TmpFs.OpWrite 2 0 [1; 2; 3]] TmpFs.new with
  | Done fs => fs
  | Panicked => TmpFs.new
  end.

Definition demo : Vfs RamDisk :=
  mkVfs (Some (snd (mount_tmpfs Mount.new "/tmp"))) (Some demo_tmpfs) ∅ ∅ ∅ ∅.

(** Before any file system is mounted. *)
Definition bare : Vfs RamDisk := mkVfs None None ∅ ∅ ∅ ∅.

(** Lower-casing of names in ASCII. *)
Definition lower (s : string) : string := string_of_bytes (ascii_lower <$> bytes_of_string s).

(** Files created at run time have numbers past the built-in files. *)
Definition wf {D} (v : Vfs D) : Prop :=
  forall p i, dynamic_files v !! p = Some i -> (length FILES <= i)%nat.

(** What an open grants: the metadata of the opened file allows the access, and
    the descriptor of an in-memory file remembers whether it may write. *)
Definition granted {D} `{BlockDevice D} (v : Vfs D) (t : FdTable) (fd : nat) (flags pu pg : Z) : Prop :=
  (exists kind, FdTable.get t (Z.of_nat fd) = Done (Ok kind) /\ forall o w, kind = FdFile o w -> w = wants_write flags) /\
  exists m, fstat_fd v t (Z.of_nat fd) = Done (Ok m)
  /\ (wants_read flags = true -> can_read pu pg (uid m) (gid m) (mode m) = true)
  /\ (wants_write flags = true -> can_write pu pg (uid m) (gid m) (mode m) = true).

(** ** Lemmas *)

Lemma create_dynamic_file_wf {D} (v : Vfs D) path : wf v -> wf (snd (create_dynamic_file v path)).
Proof.
  intros H. unfold create_dynamic_file. repeat case_match; cbn [snd]; try assumption.
  intros p i. cbn [dynamic_files]. destruct (decide (p = path)) as [->|].
  - rewrite lookup_insert_eq. intros <-%(inj Some). apply Nat.le_add_r.
  - rewrite lookup_insert_ne by congruence. apply H.
Qed.

Lemma unlink_path_wf {D} (v : Vfs D) path : wf v -> wf (snd (unlink_path v path)).
Proof.
  intros H. unfold unlink_path. repeat case_match; cbn [snd]; try assumption.
  intros p i. cbn [dynamic_files]. intros [_ Hp]%lookup_delete_Some. now apply (H p).
Qed.

Lemma find_node_Some files : forall i path j n,
  find_node i files path = Some (j, n) ->
  (i <= j)%nat /\ files !! (j - i)%nat = Some n /\ node_path n = path.
Proof.
  induction files as [|f files IH]; intros i path j n; cbn [find_node]; [discriminate|].
  destruct (bool_decide_reflect (node_path f = path)) as [<-|].
  - intros [= <- <-]. rewrite Nat.sub_diag. auto.
  - intros (H1 & H2 & H3)%IH. split; [lia|]. split; [|assumption].
    replace (j - i)%nat with (S (j - S i)) by lia. assumption.
Qed.

Lemma allocate_fd_Ok t fd :
  length t = MAX_FDS -> allocate_fd t = Done (Ok fd) -> (3 <= fd < 16)%nat.
Proof.
  intros Hl H. destruct (allocate_fd_from_spec t 13 3) as [[_ E]|(k & Hk & _ & _ & E)];
    [rewrite Hl; unfold MAX_FDS; lia| |]; change (allocate_fd_from t 3 13) with (allocate_fd t) in E;
    rewrite E in H; [discriminate|]. injection H as <-. lia.
Qed.

Lemma get_stored t fd kind :
  length t = MAX_FDS -> (3 <= fd < 16)%nat ->
  FdTable.get (<[fd := Some kind]> t) (Z.of_nat fd) = Done (Ok kind).
Proof.
  intros Hl Hfd. apply (get_in_range _ _ (Some kind)); [|lia].
  rewrite Nat2Z.id. apply list_lookup_insert_eq. rewrite Hl. unfold MAX_FDS. lia.
Qed.

Lemma index_set_stored t fd kind t' :
  length t = MAX_FDS -> (3 <= fd < 16)%nat -> index_set t fd (Some kind) = Done t' ->
  FdTable.get t' (Z.of_nat fd) = Done (Ok kind).
Proof.
  intros Hl Hfd. rewrite index_set_lt by (rewrite Hl; unfold MAX_FDS; lia). intros [= <-].
  now apply get_stored.
Qed.

(** The permission a check left after it passed. *)
Lemma access_granted (wants can : bool) : wants && negb can = false -> wants = true -> can = true.
Proof. now destruct wants, can. Qed.

(** Case analysis on the outermost condition of a hypothesis. *)
Ltac if_in H E := match type of H with (if ?b then _ else _) = _ => destruct b eqn:E end.

Section Access.
Context {D : Type} `{BlockDevice D}.
Context (lc : string -> string).

Lemma node_metadata_trunc (v : Vfs D) idx node data :
  let v' := with_writable v (<[idx := data]> (writable_files v)) in
  mode (node_metadata v' idx node) = mode (node_metadata v idx node)
  /\ uid (node_metadata v' idx node) = uid (node_metadata v idx node)
  /\ gid (node_metadata v' idx node) = gid (node_metadata v idx node).
Proof.
  cbn. unfold node_metadata, mode_of, owner_of. cbn [with_writable file_modes file_ownership writable_files].
  rewrite lookup_insert_eq. repeat case_match; auto.
Qed.

Lemma open_node_granted (v : Vfs D) t idx node flags pu pg fd t' v' :
  length t = MAX_FDS -> FILES !! idx = Some node ->
  stat_path lc v (node_path node) = Done (Ok (node_metadata v idx node)) ->
  open_node_with_flags lc v t idx flags pu pg = Done (Ok fd, (t', v')) ->
  granted v' t' fd flags pu pg.
Proof.
  intros Hl Hn Hst. unfold open_node_with_flags. rewrite Hn.
  intros ([fd'|e] & Ha & Ho)%bind_Done; [|discriminate].
  pose proof (allocate_fd_Ok t fd' Hl Ha) as Hfd. rewrite Hst in Ho. cbn [bind] in Ho.
  if_in Ho Hr; [discriminate|].
  if_in Ho Hw; [discriminate|].
  pose proof (access_granted _ _ Hr) as Hr'. pose proof (access_granted _ _ Hw) as Hw'.
  destruct (node_type node) eqn:Ety.
  - apply bind_Done in Ho as (t1 & Hs & Ho). injection Ho as -> -> <-.
    pose proof (index_set_stored _ _ _ _ Hl Hfd Hs) as Hg.
    split; [eexists; split; [exact Hg|]; now intros o w [= _ <-]|].
    eexists. unfold fstat_fd. rewrite Hg. cbn [bind_ok of_node_index]. rewrite Hn.
    split; [reflexivity|]. destruct (wants_write flags && has_flag flags O_TRUNC); [|auto].
    destruct (node_metadata_trunc v idx node []) as (-> & -> & ->). auto.
  - destruct (wants_write flags) eqn:Hww; [discriminate|].
    apply bind_Done in Ho as (t1 & Hs & Ho). injection Ho as -> -> <-.
    pose proof (index_set_stored _ _ _ _ Hl Hfd Hs) as Hg.
    split; [eexists; split; [exact Hg|]; discriminate|].
    unfold fstat_fd. rewrite Hg. cbn [bind_ok of_node_index]. rewrite Hn.
    revert Hr'. unfold node_metadata. destruct (owner_of v idx node) as [u g]. intros Hr'.
    eexists. split; [reflexivity|]. split; [|congruence].
    intros Hwr. specialize (Hr' Hwr). now destruct (writable_files v !! idx).
Qed.

Lemma dynamic_not_builtin i : (length FILES <= i)%nat -> FILES !! i = None.
Proof. apply lookup_ge_None. Qed.

Lemma open_inode_stored t fd' kind t' m (v : Vfs D) flags pu pg :
  length t = MAX_FDS -> allocate_fd t = Done (Ok fd') ->
  index_set t fd' (Some kind) = Done t' -> (forall o w, kind <> FdFile o w) ->
  (FdTable.get t' (Z.of_nat fd') = Done (Ok kind) -> fstat_fd v t' (Z.of_nat fd') = Done (Ok m)) ->
  wants_read flags && negb (can_read pu pg (uid m) (gid m) (mode m)) = false ->
  wants_write flags && negb (can_write pu pg (uid m) (gid m) (mode m)) = false ->
  granted v t' fd' flags pu pg.
Proof.
  intros Hl Ha Hs Hk Hst Hr Hw. pose proof (index_set_stored t fd' kind t' Hl (allocate_fd_Ok t fd' Hl Ha) Hs) as Hg.
  split; [exists kind; split; [exact Hg|]; intros o w E; now destruct (Hk o w)|]. exists m. split.
  - now apply Hst.
  - split; now apply access_granted.
Qed.

Lemma open_granted (v : Vfs D) t path flags pu pg fd t' v' :
  length t = MAX_FDS -> wf v ->
  open_path_with_flags lc v t path flags pu pg = Done (Ok fd, (t', v')) ->
  granted v' t' fd flags pu pg.
Proof.
  intros Hl Hwf. unfold open_path_with_flags.
  destruct (resolve_mount_path (table v) path) as [[[mp rel] [| |]]|] eqn:Hres.
  - intros ([inode|e] & _ & Ho)%bind_Done; [|discriminate].
    apply bind_Done in Ho as ([m|e] & Hst & Ho); [|discriminate].
    if_in Ho Hr; [discriminate|].
    if_in Ho Hw; [if_in Ho Hx; discriminate|].
    apply bind_Done in Ho as ([fd'|e] & Ha & Ho); [|discriminate].
    apply bind_Done in Ho as (t1 & Hs & Ho). injection Ho as -> -> <-.
    apply (open_inode_stored t fd _ t' m v flags pu pg Hl Ha Hs); [now destruct (file_type m)| |assumption|now rewrite Hw].
    intros Hg. unfold fstat_fd. rewrite Hg. cbn [bind_ok]. destruct (file_type m); exact Hst.
  - intros ([h|e] & _ & Ho)%bind_Done; [|discriminate].
    destruct (fat32_stat h) as [m|e] eqn:Hst; [|discriminate].
    if_in Ho Hr; [discriminate|].
    if_in Ho Hw; [if_in Ho Hx; discriminate|].
    apply bind_Done in Ho as ([fd'|e] & Ha & Ho); [|discriminate].
    apply bind_Done in Ho as (t1 & Hs & Ho). injection Ho as -> -> <-.
    apply (open_inode_stored t fd _ t' m v flags pu pg Hl Ha Hs); [now destruct (file_type m)| |assumption|now rewrite Hw].
    intros Hg. unfold fstat_fd. rewrite Hg. cbn [bind_ok]. destruct h, (file_type m); exact (f_equal Done Hst).
  - intros ([[inode|e] v1] & _ & Ho)%bind_Done; [|discriminate].
    destruct (tmpfs_stat (tmpfs v1) inode) as [m|e] eqn:Hst; [|discriminate].
    if_in Ho Hr; [discriminate|].
    if_in Ho Hw; [discriminate|].
    apply bind_Done in Ho as ([fd'|e] & Ha & Ho); [|discriminate].
    apply bind_Done in Ho as (t1 & Hs & Ho). injection Ho as -> -> ->.
    apply (open_inode_stored t fd _ t' m v' flags pu pg Hl Ha Hs); [now destruct (file_type m)| |assumption|assumption].
    intros Hg. unfold fstat_fd. rewrite Hg. cbn [bind_ok]. destruct (file_type m); exact (f_equal Done Hst).
  - destruct (lookup_node v path) as [[idx node]|] eqn:Hlk.
    + intros Ho. unfold lookup_node in Hlk. destruct (find_node 0 FILES path) as [[j n]|] eqn:Hf.
      * injection Hlk as -> ->. pose proof (find_node_Some _ _ _ _ _ Hf) as (_ & Hn & Hp).
        rewrite Nat.sub_0_r in Hn. apply (open_node_granted v t idx node flags pu pg); try assumption.
        unfold stat_path, lookup_node. rewrite Hp, Hres, Hf. reflexivity.
      * destruct (dynamic_files v !! path) as [i|] eqn:Hd; [|discriminate]. injection Hlk as -> _.
        unfold open_node_with_flags in Ho. rewrite dynamic_not_builtin in Ho by exact (Hwf _ _ Hd).
        discriminate.
    + destruct (has_flag flags O_CREAT); [|discriminate]. unfold create_dynamic_file.
      destruct (negb (in_tmp path)); [discriminate|]. rewrite Hlk. unfold open_node_with_flags.
      rewrite dynamic_not_builtin by apply Nat.le_add_r. discriminate.
Qed.

End Access.

Lemma set_entry_get (t : FdTable) fd kind :
  length t = MAX_FDS -> 3 <= fd < 16 ->
  set_entry t fd kind = Done (<[Z.to_nat fd := Some kind]> t)
  /\ FdTable.get (<[Z.to_nat fd := Some kind]> t) fd = Done (Ok kind).
Proof.
  intros Hl Hfd. split.
  - apply index_set_lt. rewrite Hl. unfold MAX_FDS. lia.
  - apply (get_in_range _ _ (Some kind)); [|lia]. apply list_lookup_insert_eq. rewrite Hl. unfold MAX_FDS. lia.
Qed.

Lemma get_range (t : FdTable) fd kind : FdTable.get t fd = Done (Ok kind) -> 3 <= fd < 16.
Proof.
  unfold FdTable.get. destruct (fd_out_of_range fd) eqn:Hr; [discriminate|].
  apply fd_range in Hr. unfold FIRST_NONSTD_FD, MAX_FDS in *. case_match; [discriminate|]. breflect. lia.
Qed.

(** ** Properties *)

(** C23: an open checks the access that its flags ask for. Whenever
    [open_path_with_flags] succeeds, on the built-in files or on any mounted
    file system and for every combination of flags, the metadata of the file
    behind the new descriptor lets the process read if the flags ask for
    reading, and write if they ask for writing. Later calls rely on this check
    alone: if the flags do not ask for writing, a write through the descriptor
    can succeed only on a file of tmpfs, whose descriptors are written whatever
    they were opened for. *)
Theorem open_respects_permissions {D} `{BlockDevice D} lc (v : Vfs D) t path flags pu pg fd t' v' :
  length t = MAX_FDS -> wf v ->
  open_path_with_flags lc v t path flags pu pg = Done (Ok fd, (t', v')) ->
  (exists m, fstat_fd v' t' (Z.of_nat fd) = Done (Ok m)
   /\ (wants_read flags = true -> can_read pu pg (uid m) (gid m) (mode m) = true)
   /\ (wants_write flags = true -> can_write pu pg (uid m) (gid m) (mode m) = true))
  /\ (wants_write flags = false -> forall data n s, write v' t' (Z.of_nat fd) data = Done (Ok n, s) ->
      exists open, FdTable.get t' (Z.of_nat fd) = Done (Ok (FdTmpfsFile open))).
Proof.
  intros Hl Hwf Ho. destruct (open_granted _ _ _ _ _ _ _ _ _ _ Hl Hwf Ho) as [(kind & Hg & Hk) Hm]. split; [exact Hm|].
  intros Hw data n s. unfold write. rewrite Hg. cbn [bind]. destruct kind as [o w| | | | | | | | |]; try discriminate; [|eauto].
  rewrite (Hk o w eq_refl), Hw. discriminate.
Qed.

Lemma open_respects_permissions_witness :
  exists m, fstat_fd demo (<[3%nat := Some (FdTmpfsFile (mkOpenTmpfsFile 2 0 O_RDONLY))]> FdTable.new) 3
      = Done (Ok m)
    /\ can_read 1000 1000 (uid m) (gid m) (mode m) = true.
Proof.
  destruct (open_respects_permissions lower demo FdTable.new "/tmp/secret" O_RDONLY 1000 1000 3
    (<[3%nat := Some (FdTmpfsFile (mkOpenTmpfsFile 2 0 O_RDONLY))]> FdTable.new) demo) as [(m & H1 & H2 & _) _].
  - reflexivity.
  - intros p i Hp. change (dynamic_files _) with (∅ : gmap string nat) in Hp. now rewrite lookup_empty in Hp.
  - vm_compute. reflexivity.
  - exists m. split; [exact H1|]. apply H2. reflexivity.
Defined.

(** What is written through a descriptor of a tmpfs file is read back: after
    a write, moving the offset back to where the write began, which is the end
    of the file with [O_APPEND], and reading as many bytes returns the data. *)
Definition write_start (open : OpenTmpfsFile) (old : list Z) : nat :=
  if has_flag (ot_flags open) O_APPEND then length old else ot_offset open.

Lemma write_seek_read {D} `{BlockDevice D} (v : Vfs D) t fd open fs old data :
  length t = MAX_FDS -> FdTable.get t fd = Done (Ok (FdTmpfsFile open)) ->
  tmpfs v = Some fs -> TmpFs.content fs (ot_inode open) = Some old ->
  let start := write_start open old in
  exists t1 v1 t2, write v t fd data = Done (Ok (length data), (t1, v1))
  /\ set_offset t1 fd (Z.of_nat start) = Done (Ok (Z.of_nat start), t2)
  /\ forall buffer, length buffer = length data ->
     exists t3, read v1 t2 fd buffer = Done (Ok (length data, data), t3).
Proof.
  intros Hl Hg Ht Hc start. pose proof (get_range _ _ _ Hg) as Hfd.
  unfold TmpFs.content in Hc. destruct (TmpFs.nodes fs !! ot_inode open) as [[d0|]|] eqn:En; try discriminate.
  injection Hc as ->. set (new := TmpFs.write_data old start data).
  set (fs1 := TmpFs.with_nodes fs (<[ot_inode open := TmpFs.NFile new]> (TmpFs.nodes fs))).
  set (k1 := FdTmpfsFile (mkOpenTmpfsFile (ot_inode open) (start + length data) (ot_flags open))).
  destruct (set_entry_get t fd k1 Hl Hfd) as [E1 G1].
  set (k2 := FdTmpfsFile (mkOpenTmpfsFile (ot_inode open) start (ot_flags open))).
  assert (length (<[Z.to_nat fd := Some k1]> t) = MAX_FDS) as Hl1 by now rewrite length_insert.
  destruct (set_entry_get (<[Z.to_nat fd := Some k1]> t) fd k2 Hl1 Hfd) as [E2 G2].
  exists (<[Z.to_nat fd := Some k1]> t), (with_tmpfs v (Some fs1)),
    (<[Z.to_nat fd := Some k2]> (<[Z.to_nat fd := Some k1]> t)). split; [|split].
  - unfold write. rewrite Hg. cbn [bind]. rewrite Ht. cbn [tmpfs_write tmpfs_stat].
    replace (if has_flag _ _ then _ else _) with (Ok start : result nat ErrorCode).
    + unfold TmpFs.write. rewrite En. fold k1. rewrite E1. reflexivity.
    + unfold start, write_start, TmpFs.stat. rewrite En. destruct (has_flag _ _); [|reflexivity]. cbn. now rewrite Nat2Z.id.
  - unfold set_offset. replace (fd_out_of_range fd) with false by (symmetry; apply fd_range; lia).
    unfold FIRST_NONSTD_FD. rewrite (proj2 (Z.ltb_ge fd _)), (proj2 (Z.ltb_ge (Z.of_nat _) 0)) by lia.
    unfold index. rewrite list_lookup_insert_eq by (rewrite Hl; unfold MAX_FDS; lia). unfold set_entry in E2.
    subst k1 k2. cbn [bind with_offset ot_inode ot_offset ot_flags]. rewrite Nat2Z.id, E2. reflexivity.
  - intros buffer Hb. destruct (TmpFs.write_data_spec old start data) as [Hnl _]. fold new in Hnl.
    assert (tmpfs_read (Some fs1) (ot_inode open) start (replicate (length buffer) 0)
      = Ok (length data, data)) as Hrd.
    { cbn [tmpfs_read]. unfold TmpFs.read. subst fs1. cbn [TmpFs.nodes TmpFs.with_nodes].
      rewrite lookup_insert_eq, length_replicate, Hb. destruct (Nat.leb_spec (length new) start).
      - destruct data; [reflexivity|cbn in *; lia].
      - rewrite Nat.min_r by lia. unfold new. rewrite TmpFs.write_data_read. f_equal. f_equal.
        unfold splice. rewrite Nat.add_0_l, drop_ge, app_nil_r by (rewrite length_replicate; lia). reflexivity. }
    eexists. unfold read. rewrite G2. cbn [bind k2 ot_inode ot_offset ot_flags tmpfs with_tmpfs].
    rewrite Hrd. rewrite Bytes.slice_Done by lia. cbn [bind].
    match goal with |- context [set_entry ?tt fd ?k] => destruct (set_entry_get tt fd k) as [E3 _];
      [now rewrite length_insert|assumption|rewrite E3] end.
    cbn [bind]. unfold sub_slice, splice. rewrite Nat.sub_0_r, drop_0, take_0, take_ge by lia.
    rewrite Nat.add_0_l, drop_ge, app_nil_r by lia. reflexivity.
Qed.

(** A file that does not exist can never be created through the built-in
    file system. An open of a path that is neither built in nor on a mounted
    file system fails whatever the flags, O_CREAT included: the new file's
    number is past the built-in files, and the open looks it up there. The
    descriptor table stays as it was. *)
Theorem created_files_cannot_be_opened {D} `{BlockDevice D} lc (v : Vfs D) t path flags pu pg :
  wf v -> resolve_mount_path (table v) path = None -> find_node 0 FILES path = None ->
  exists e v', open_path_with_flags lc v t path flags pu pg = Done (Err e, (t, v')).
Proof.
  intros Hwf Hres Hf. unfold open_path_with_flags. rewrite Hres. unfold lookup_node. rewrite Hf.
  destruct (dynamic_files v !! path) as [i|] eqn:Hd.
  - unfold open_node_with_flags. rewrite dynamic_not_builtin by exact (Hwf _ _ Hd). eauto.
  - destruct (has_flag flags O_CREAT); [|eauto]. unfold create_dynamic_file, lookup_node. rewrite Hf, Hd.
    destruct (negb (in_tmp path)); [eauto|]. unfold open_node_with_flags.
    rewrite dynamic_not_builtin by apply Nat.le_add_r. eauto.
Qed.

Lemma created_files_cannot_be_opened_witness :
  exists e v', open_path_with_flags lower bare FdTable.new "/tmp/new" (Z.lor O_CREAT O_RDWR) 0 0
    = Done (Err e, (FdTable.new, v')).
Proof.
  apply (created_files_cannot_be_opened lower bare).
  - intros p i Hp. change (dynamic_files _) with (∅ : gmap string nat) in Hp. now rewrite lookup_empty in Hp.
  - reflexivity.
  - vm_compute. reflexivity.
Defined.

(** A refused open can destroy a file: opening a tmpfs file with O_WRONLY and
    O_TRUNC as a user without write permission fails with EACCES, but the file
    has already been truncated. *)
Theorem refused_open_truncates :
  (TmpFs.content demo_tmpfs 2 = Some [1; 2; 3])
  /\ exists fs v', open_path_with_flags lower demo FdTable.new "/tmp/secret" (Z.lor O_WRONLY O_TRUNC) 1000 1000
        = Done (Err EACCES, (FdTable.new, v'))
     /\ tmpfs v' = Some fs /\ TmpFs.content fs 2 = Some [].
Proof.
  split; [vm_compute; reflexivity|].
  exists (snd (TmpFs.truncate demo_tmpfs 2)), (with_tmpfs demo (Some (snd (TmpFs.truncate demo_tmpfs 2)))).
  split; [vm_compute; reflexivity|]. split; [reflexivity|]. vm_compute. reflexivity.
Qed.

(** A descriptor opened only for reading can write: a user who may only read
    a tmpfs file opens it with O_RDONLY and changes its contents through that
    descriptor. *)
Theorem readonly_descriptor_writes :
  can_write 1000 1000 0 0 DEFAULT_FILE_MODE = false
  /\ exists t v' t' fs, open_path_with_flags lower demo FdTable.new "/tmp/secret" O_RDONLY 1000 1000
        = Done (Ok 3%nat, (t, demo))
     /\ write demo t 3 [9] = Done (Ok 1%nat, (t', v'))
     /\ tmpfs v' = Some fs /\ TmpFs.content fs 2 = Some [9; 2; 3].
Proof.
  split; [reflexivity|].
  exists (<[3%nat := Some (FdTmpfsFile (mkOpenTmpfsFile 2 0 O_RDONLY))]> FdTable.new),
    (with_tmpfs demo (Some (snd (TmpFs.write demo_tmpfs 2 0 [9])))),
    (<[3%nat := Some (FdTmpfsFile (mkOpenTmpfsFile 2 1 O_RDONLY))]> FdTable.new),
    (snd (TmpFs.write demo_tmpfs 2 0 [9])).
  split; [vm_compute; reflexivity|]. split; [vm_compute; reflexivity|].
  split; [reflexivity|]. vm_compute. reflexivity.
Qed.

(** The first write to a built-in file discards its contents: writing one
    byte at the start of [/etc/version] leaves a file of one byte. *)
Theorem first_write_discards_builtin :
  exists t v' t', open_path_with_flags lower demo FdTable.new "/etc/version" O_RDWR 0 0
      = Done (Ok 3%nat, (t, demo))
  /\ get_file_size demo t 3 = Done (Ok 15)
  /\ write demo t 3 [88] = Done (Ok 1%nat, (t', v'))
  /\ get_file_size v' t' 3 = Done (Ok 1).
Proof.
  exists (<[3%nat := Some (FdFile (mkOpenFile 6 0 O_RDWR) true)]> FdTable.new),
    (with_writable demo {[6%nat := [88]]}),
    (<[3%nat := Some (FdFile (mkOpenFile 6 1 O_RDWR) true)]> FdTable.new).
  repeat split; vm_compute; reflexivity.
Qed.

End Vfs.
