(* ===== verification/Kernel.v ===== *)
(** * The system-call handlers (src/kernel/src/main.rs)

    The state of the kernel and the handlers that main.rs registers with the
    dispatcher.  A handler is a computation of [sys]: it returns a value, or
    stops.  It stops with an error number; or because control left the kernel
    for a process, by [switch_to_user], which does not come back; or because
    the machine halted; or because it waits for input that has not arrived.  A
    panic is a panic.  The global variables of the kernel are the fields of
    [Kernel]; interrupts are off while a handler runs. *)

From Stdlib Require Import Ascii.
From S2P Require Import Prelude Abi RingBuffer Pipe FdTable Process Scheduler Path Perm TmpFs Bytes Block Utf8 UserMem.
From S2P Require Import Bitmap FrameAlloc Memory Paging Elf Spaces ExecStack Ps2 Tty DiskFs Fat32 Mount Vfs Packets Net.
Import Abi Block Bytes UserMem Spaces.

Module Kernel.

(** ** Casts *)

(** [x as i32] of a [u64] and [x as u64] of a signed value. *)
Definition as_i32 (x : Z) : Z := let y := wrap32 x in if y <? 2 ^ 31 then y else y - 2 ^ 32.
Definition as_u64 (x : Z) : Z := wrap64 x.

(** Why a computation stops. *)
Inductive stop : Type := Errno (e : ErrorCode) | Switched | Waiting | Halted.

(** The terminal, the keyboard and the serial line: [serial_in] are the bytes
    that will be received, [serial_out] those that were sent. *)
Record Console : Type := mkConsole {
  tty : Tty.Tty;
  scancodes : RingBuffer.RingBuffer Z;
  keyboard : Ps2.KeyboardState;
  serial_in : list Z;
  serial_out : list Z
}.

Section Kernel.
Context {D : Type} {BD : BlockDevice D}.
Context (to_lowercase : string -> string).
Context {V : Type} {SP : Spaces V}.
Context {N : Type} {DR : Net.Driver N}.

Record Kernel : Type := mkKernel {
  sched : Scheduler.Scheduler;
  pipes : list Pipe.Pipe;
  vfs : Vfs.Vfs D;
  vm : V;
  cr3 : Z;
  console : Console;
  fork_pid : Z;
  need_resched : bool;
  switch_count : Z;
  ticks : Z;
  pending_reap : Z * Z;
  kernel_pt : Z;
  network : Net.Net (N := N);
  slot : option Process.CpuContext
}.

(** [CURRENT_CONTEXT_PTR] points to the context in the scheduler's place for the
    current process, [slot] has what is left there when no process is
    current: taking a process out of its place leaves the bytes of its
    context.  [None]: the pointer is still null. *)
Definition left_behind (old new : Scheduler.Scheduler) (c : option Process.CpuContext) : option Process.CpuContext :=
  match Scheduler.current old, Scheduler.current new with
  | Some p, None => Some (Process.context p)
  | _, _ => c
  end.

Definition with_sched (k : Kernel) (v : Scheduler.Scheduler) : Kernel :=
  mkKernel v (pipes k) (vfs k) (vm k) (cr3 k) (console k) (fork_pid k) (need_resched k) (switch_count k) (ticks k)
    (pending_reap k) (kernel_pt k) (network k) (left_behind (sched k) v (slot k)).
Definition with_pipes (k : Kernel) (v : list Pipe.Pipe) : Kernel :=
  mkKernel (sched k) v (vfs k) (vm k) (cr3 k) (console k) (fork_pid k) (need_resched k) (switch_count k) (ticks k)
    (pending_reap k) (kernel_pt k) (network k) (slot k).
Definition with_vfs (k : Kernel) (v : Vfs.Vfs D) : Kernel :=
  mkKernel (sched k) (pipes k) v (vm k) (cr3 k) (console k) (fork_pid k) (need_resched k) (switch_count k) (ticks k)
    (pending_reap k) (kernel_pt k) (network k) (slot k).
Definition with_vm (k : Kernel) (v : V) : Kernel :=
  mkKernel (sched k) (pipes k) (vfs k) v (cr3 k) (console k) (fork_pid k) (need_resched k) (switch_count k) (ticks k)
    (pending_reap k) (kernel_pt k) (network k) (slot k).
Definition with_cr3 (k : Kernel) (v : Z) : Kernel :=
  mkKernel (sched k) (pipes k) (vfs k) (vm k) v (console k) (fork_pid k) (need_resched k) (switch_count k) (ticks k)
    (pending_reap k) (kernel_pt k) (network k) (slot k).
Definition with_console (k : Kernel) (v : Console) : Kernel :=
  mkKernel (sched k) (pipes k) (vfs k) (vm k) (cr3 k) v (fork_pid k) (need_resched k) (switch_count k) (ticks k)
    (pending_reap k) (kernel_pt k) (network k) (slot k).
Definition with_fork_pid (k : Kernel) (v : Z) : Kernel :=
  mkKernel (sched k) (pipes k) (vfs k) (vm k) (cr3 k) (console k) v (need_resched k) (switch_count k) (ticks k)
    (pending_reap k) (kernel_pt k) (network k) (slot k).
Definition with_need_resched (k : Kernel) (v : bool) : Kernel :=
  mkKernel (sched k) (pipes k) (vfs k) (vm k) (cr3 k) (console k) (fork_pid k) v (switch_count k) (ticks k)
    (pending_reap k) (kernel_pt k) (network k) (slot k).
Definition with_switch_count (k : Kernel) (v : Z) : Kernel :=
  mkKernel (sched k) (pipes k) (vfs k) (vm k) (cr3 k) (console k) (fork_pid k) (need_resched k) v (ticks k)
    (pending_reap k) (kernel_pt k) (network k) (slot k).
Definition with_ticks (k : Kernel) (v : Z) : Kernel :=
  mkKernel (sched k) (pipes k) (vfs k) (vm k) (cr3 k) (console k) (fork_pid k) (need_resched k) (switch_count k) v
    (pending_reap k) (kernel_pt k) (network k) (slot k).
Definition with_pending_reap (k : Kernel) (v : Z * Z) : Kernel :=
  mkKernel (sched k) (pipes k) (vfs k) (vm k) (cr3 k) (console k) (fork_pid k) (need_resched k) (switch_count k)
    (ticks k) v (kernel_pt k) (network k) (slot k).

Definition with_network (k : Kernel) (v : Net.Net (N := N)) : Kernel :=
  mkKernel (sched k) (pipes k) (vfs k) (vm k) (cr3 k) (console k) (fork_pid k) (need_resched k) (switch_count k)
    (ticks k) (pending_reap k) (kernel_pt k) v (slot k).
Definition with_slot (k : Kernel) (v : option Process.CpuContext) : Kernel :=
  mkKernel (sched k) (pipes k) (vfs k) (vm k) (cr3 k) (console k) (fork_pid k) (need_resched k) (switch_count k)
    (ticks k) (pending_reap k) (kernel_pt k) (network k) v.

(** The bytes of the active address space. *)
#[export] Instance active_bytes : UserBytes Kernel := {
  load k a := sp_load (vm k) (cr3 k) a;
  fetch k a := let! (b, v) := sp_fetch (vm k) (cr3 k) a in Done (b, with_vm k v);
  store k a bytes := let! v := sp_store (vm k) (cr3 k) a bytes in Done (with_vm k v)
}.

Notation sys T := (stm Kernel stop T).

(** ** Building blocks *)

Definition errno {T} (e : ErrorCode) : sys T := sfail (Errno e).

(** A result of a component, as [?] takes it. *)
Definition lift_result {T} (r : result T ErrorCode) : result T stop :=
  match r with Ok t => Ok t | Err e => Err (Errno e) end.

Definition try {T} (r : result T ErrorCode) : sys T := fun k => Done (lift_result r, k).
Definition try_out {T} (m : outcome (result T ErrorCode)) : sys T := fun k =>
  let! r := m in Done (lift_result r, k).

(** A computation of a component that changes the state. *)
Definition try_stm {T} (m : stm Kernel ErrorCode T) : sys T := fun k =>
  let! (r, k') := m k in Done (lift_result r, k').

(** [scheduler.current_process().ok_or(ESRCH)?] *)
Definition current_process : sys Process.Process := fun k =>
  match Scheduler.current (sched k) with
  | Some p => Done (Ok p, k)
  | None => Done (Err (Errno ESRCH), k)
  end.

(** A change of the current process. *)
Definition update_process (f : Process.Process -> Process.Process) : sys unit :=
  smodify (fun k => with_sched k (Scheduler.update_current (sched k) f)).

(** An operation on the descriptor table of the current process. *)
Definition on_table {T} (f : FdTable.FdTable -> outcome (result T ErrorCode * FdTable.FdTable)) : sys T :=
  let% current := current_process in
  fun k =>
    let! (r, t) := f (Process.fd_table current) in
    Done (lift_result r, with_sched k (Scheduler.update_current (sched k) (fun p => Process.with_fd_table p t))).

(** The same with the pipes, and with the files. *)
Definition on_pipes {T} (f : FdTable.FdTable -> list Pipe.Pipe
      -> outcome (result T ErrorCode * FdTable.FdTable * list Pipe.Pipe)) : sys T :=
  let% current := current_process in
  fun k =>
    let! (r, t, pool) := f (Process.fd_table current) (pipes k) in
    Done (lift_result r,
          with_pipes (with_sched k (Scheduler.update_current (sched k) (fun p => Process.with_fd_table p t))) pool).

Definition on_files {T} (f : Vfs.Vfs D -> FdTable.FdTable
      -> outcome (result T ErrorCode * (FdTable.FdTable * Vfs.Vfs D))) : sys T :=
  let% current := current_process in
  fun k =>
    let! (r, (t, v)) := f (vfs k) (Process.fd_table current) in
    Done (lift_result r,
          with_vfs (with_sched k (Scheduler.update_current (sched k) (fun p => Process.with_fd_table p t))) v).

(** An operation on the files alone. *)
Definition on_vfs {T} (f : Vfs.Vfs D -> result T ErrorCode * Vfs.Vfs D) : sys T := fun k =>
  let (r, v) := f (vfs k) in Done (lift_result r, with_vfs k v).

Definition on_tmpfs {T} (f : option TmpFs.TmpFs -> outcome (result T ErrorCode * option TmpFs.TmpFs)) : sys T := fun k =>
  let! (r, g) := f (Vfs.tmpfs (vfs k)) in Done (lift_result r, with_vfs k (Vfs.with_tmpfs (vfs k) g)).

(** An operation of the memory manager. *)
Definition on_vm {T} (f : V -> outcome (result T string * V)) (e : ErrorCode) : sys T := fun k =>
  let! (r, v) := f (vm k) in
  Done (match r with Ok t => Ok t | Err _ => Err (Errno e) end, with_vm k v).

(** [copy_user_cstr] with a buffer of [n] bytes, [copy_user_bytes], and
    [copy_to_user_bytes]. *)
Definition user_cstr (ptr : Z) (n : nat) : sys string := try_stm (copy_user_cstr ptr n).
Definition user_bytes (ptr : Z) (len dst_len : nat) : sys (list Z) := try_stm (copy_user_bytes ptr len dst_len).
Definition copy_out (ptr : Z) (src : list Z) : sys nat := try_stm (copy_to_user_bytes ptr src).

(** [u64] arithmetic of a build with overflow checks. *)
Definition add64 (a b : Z) : sys Z := if a + b <=? U64_MAX then sret (a + b) else spanic.

(** The temporary buffer of the read and write handlers. *)
Definition TEMP_BUF : Z := 4096.
Definition at_most (count : Z) : nat := Z.to_nat (Z.min count TEMP_BUF).

(** ** Files *)

Definition open_handler (path : string) (flags : Z) : sys Z :=
  let% current := current_process in
  let% resolved_path := try (Path.resolve_path (Process.cwd current) path) in
  let% fd := on_files (fun v t =>
    Vfs.open_path_with_flags to_lowercase v t resolved_path flags (Process.uid current) (Process.gid current)) in
  sret (Z.of_nat fd).

(** [current.fd_table.get(fd)?] *)
Definition fd_kind (fd : Z) : sys FdTable.FdKind :=
  let% current := current_process in
  try_out (FdTable.get (Process.fd_table current) fd).

(** [yield_handler]: the process will find 0 in [rax] when it runs again. *)
Definition yield_handler : sys unit :=
  let% _ := update_process (fun p => Process.with_context p (Process.with_rax (Process.context p) 0)) in
  fun k =>
    let (next, s) := Scheduler.schedule_next (sched k) in
    let k := with_sched k s in
    match next with
    | Some p =>
        let! n := Process.add64 (switch_count k) 1 in
        Done (Err Switched, with_cr3 (with_switch_count k n) (Process.page_table_phys p))
    | None => Done (Ok tt, k)
    end.

(** [pipe_read] and [pipe_write] of a handler: an end that would block gives
    the processor away, and the code after that is unreachable. *)
Definition pipe_read (pipe_id : nat) (buf : list Z) : sys (nat * list Z) := fun k =>
  let! (r, buf, pool) := PipePool.read (pipes k) pipe_id buf in
  let k := with_pipes k pool in
  match r with
  | Ok n => Done (Ok (n, buf), k)
  | Err EAGAIN => (let% _ := yield_handler in spanic) k
  | Err e => Done (Err (Errno e), k)
  end.

Definition pipe_write (pipe_id : nat) (data : list Z) : sys nat := fun k =>
  let! (r, pool) := PipePool.write (pipes k) pipe_id data in
  let k := with_pipes k pool in
  match r with
  | Ok n => Done (Ok n, k)
  | Err EAGAIN => (let% _ := yield_handler in spanic) k
  | Err e => Done (Err (Errno e), k)
  end.

(** [current.fd_table.read(fd, buf)] and [write]. *)
Definition fd_read (fd : Z) (buf : list Z) : sys (nat * list Z) :=
  let% v := sread vfs in on_table (fun t => Vfs.read v t fd buf).
Definition fd_write (fd : Z) (data : list Z) : sys nat :=
  on_files (fun v t => Vfs.write v t fd data).

Definition read_handler (fd buf count : Z) : sys Z :=
  let% kind := fd_kind fd in
  match kind with
  | FdTable.FdFile _ _ | FdTable.FdDiskFile _ | FdTable.FdTmpfsFile _ | FdTable.FdFat32File _ =>
      let% (bytes_read, temp_buf) := fd_read fd (replicate (at_most count) 0) in
      let% _ := if (0 <? bytes_read)%nat then copy_out buf (take bytes_read temp_buf) else sret 0%nat in
      sret (Z.of_nat bytes_read)
  | FdTable.FdDirectory _ | FdTable.FdDiskDirectory _ | FdTable.FdTmpfsDirectory _ | FdTable.FdFat32Directory _ =>
      errno EISDIR
  | FdTable.FdPipeRead pipe_id =>
      let% (n, temp_buf) := pipe_read pipe_id (replicate (at_most count) 0) in
      let% _ := if (0 <? n)%nat then copy_out buf (take n temp_buf) else sret 0%nat in
      sret (Z.of_nat n)
  | FdTable.FdPipeWrite _ => errno EBADF
  end.

Definition write_handler (fd buf count : Z) : sys Z :=
  let% kind := fd_kind fd in
  match kind with
  | FdTable.FdFile _ writable =>
      if negb writable then errno EBADF
      else
        let% data := user_bytes buf (at_most count) (Z.to_nat TEMP_BUF) in
        let% written := fd_write fd data in
        sret (Z.of_nat written)
  | FdTable.FdDirectory _ | FdTable.FdDiskFile _ | FdTable.FdDiskDirectory _
  | FdTable.FdFat32File _ | FdTable.FdFat32Directory _ => errno EBADF
  | FdTable.FdTmpfsFile _ =>
      let% data := user_bytes buf (at_most count) (Z.to_nat TEMP_BUF) in
      let% written := fd_write fd data in
      sret (Z.of_nat written)
  | FdTable.FdTmpfsDirectory _ => errno EBADF
  | FdTable.FdPipeWrite pipe_id =>
      let% data := user_bytes buf (at_most count) (Z.to_nat TEMP_BUF) in
      let% n := pipe_write pipe_id data in
      sret (Z.of_nat n)
  | FdTable.FdPipeRead _ => errno EBADF
  end.

Definition close_handler (fd : Z) : sys Z :=
  let% _ := on_pipes (fun t pool => FdTable.close t pool fd) in sret 0.

(** The [struct stat] of 32 bytes: mode, padding, one link, owner and group 0,
    size, inode number 0. *)
Definition metadata_bytes (metadata : Perm.FileMetadata) : list Z :=
  to_le 2 (Perm.mode metadata) ++ [0; 0] ++ [1; 0; 0; 0] ++ [0; 0; 0; 0] ++ [0; 0; 0; 0]
  ++ to_le 8 (Perm.size metadata) ++ [0; 0; 0; 0; 0; 0; 0; 0].

Definition stat_path (path : string) : sys Perm.FileMetadata :=
  let% v := sread vfs in try_out (Vfs.stat_path to_lowercase v path).

Definition stat_handler (path_ptr stat_buf : Z) : sys Z :=
  let% path := user_cstr path_ptr 64 in
  let% current := current_process in
  let% resolved_path := try (Path.resolve_path (Process.cwd current) path) in
  let% metadata := stat_path resolved_path in
  let% _ := copy_out stat_buf (metadata_bytes metadata) in
  sret 0.

Definition fstat_handler (fd stat_buf : Z) : sys Z :=
  let% current := current_process in
  let% v := sread vfs in
  let% metadata := try_out (Vfs.fstat_fd v (Process.fd_table current) fd) in
  let% _ := copy_out stat_buf (metadata_bytes metadata) in
  sret 0.

Definition pipe_handler (pipefd_ptr : Z) : sys Z :=
  let% (read_id, write_id) := (fun k =>
    let (r, pool) := PipePool.pipe_create (pipes k) in Done (lift_result r, with_pipes k pool)) in
  let% read_fd := on_table (fun t => FdTable.open_pipe_read t read_id) in
  let% write_fd := on_table (fun t => FdTable.open_pipe_write t write_id) in
  let% _ := copy_out pipefd_ptr (to_le 4 (Z.of_nat read_fd) ++ to_le 4 (Z.of_nat write_fd)) in
  sret 0.

Definition dup2_handler (oldfd newfd : Z) : sys Z :=
  let% _ := on_pipes (fun t pool => FdTable.dup2 t pool oldfd newfd) in
  sret (as_u64 newfd).

Definition lseek_handler (fd offset whence : Z) : sys Z :=
  let% current := current_process in
  let% v := sread vfs in
  (** [checked_add] on [i64], then the sign. *)
  let checked (base : Z) : sys Z :=
    let result := base + offset in
    if (result <? - 2 ^ 63) || (2 ^ 63 <=? result) then errno EINVAL
    else if result <? 0 then errno EINVAL else sret result in
  let% new_offset :=
    match whence with
    | 0 => if offset <? 0 then errno EINVAL else sret offset
    | 1 => let% current_offset := try_out (FdTable.get_offset (Process.fd_table current) fd) in checked current_offset
    | 2 => let% file_size := try_out (Vfs.get_file_size v (Process.fd_table current) fd) in checked file_size
    | _ => errno EINVAL
    end in
  let% final_offset := on_table (fun t => FdTable.set_offset t fd new_offset) in
  sret (as_u64 final_offset).

(** ** Processes, groups and users *)

Definition getpid_handler : sys Z := let% current := current_process in sret (Process.pid current).

(** [current.send_signal(signal)], [scheduler.signal_process_group(..)]. *)
Definition signal_group (pgid : Z) (signal : Process.Signal) : sys nat := fun k =>
  let (count, s) := Scheduler.signal_process_group (sched k) pgid signal in Done (Ok count, with_sched k s).

Definition kill_handler (pid sig : Z) : sys Z :=
  match Process.Signal_from_u32 (wrap32 sig) with
  | None => errno EINVAL
  | Some signal =>
      if 0 <? pid then
        let% current := sread (fun k => Scheduler.current (sched k)) in
        match current with
        | Some p =>
            if Process.pid p =? pid
            then let% _ := update_process (fun p => Process.send_signal p signal) in sret 0
            else errno ESRCH
        | None => errno ESRCH
        end
      else if pid <? 0 then
        (** [-pid] on [i32]. *)
        if pid =? - 2 ^ 31 then spanic
        else
          let% count := signal_group (- pid) signal in
          if (0 <? count)%nat then sret 0 else errno ESRCH
      else errno EINVAL
  end.

(** Ctrl+C and Ctrl+Z on the terminal. *)
Definition tty_signal (signal : Process.Signal) : sys unit :=
  let% pgid := sread (fun k => Scheduler.foreground_pgid (sched k)) in
  match pgid with
  | Some pgid => let% _ := signal_group pgid signal in sret tt
  | None => sret tt
  end.
Definition signal_handler : sys unit := tty_signal Process.SIGINT.
Definition stop_signal_handler : sys unit := tty_signal Process.SIGTSTP.

Definition setpgid_handler (pid pgid : Z) : sys Z :=
  let% target_pid :=
    if pid =? 0 then let% current := current_process in sret (Process.pid current) else sret (as_u64 pid) in
  let new_pgid := if pgid =? 0 then target_pid else as_u64 pgid in
  let% current := current_process in
  if negb (Process.pid current =? target_pid) then errno ESRCH
  else let% _ := update_process (fun p => Process.with_pgid p new_pgid) in sret 0.

Definition getuid_handler : sys Z := let% current := current_process in sret (Process.uid current).
Definition getgid_handler : sys Z := let% current := current_process in sret (Process.gid current).

Definition setuid_handler (uid : Z) : sys Z :=
  let% current := current_process in
  if negb (Process.uid current =? 0) then errno EPERM
  else if negb (uid =? 0) && negb (uid =? 1000) then errno EINVAL
  else let% _ := update_process (fun p => Process.with_uid p uid) in sret 0.

Definition setgid_handler (gid : Z) : sys Z :=
  let% current := current_process in
  if negb (Process.uid current =? 0) then errno EPERM
  else if negb (gid =? 0) && negb (gid =? 1000) then errno EINVAL
  else let% _ := update_process (fun p => Process.with_gid p gid) in sret 0.

(** A string and its terminator into a user buffer of [size] bytes. *)
Definition copy_string_out (buf : Z) (bytes : list Z) (size : Z) : sys unit :=
  if size =? 0 then errno EINVAL
  else if size <? Z.of_nat (length bytes) + 1 then errno ERANGE
  else
    let% _ := copy_out buf bytes in
    let% a := add64 buf (Z.of_nat (length bytes)) in
    let% _ := copy_out a [0] in
    sret tt.

Definition getenv_handler (name_ptr buf_ptr size : Z) : sys Z :=
  let% name := user_cstr name_ptr 64 in
  let% current := current_process in
  if bool_decide (name = "PATH") then
    let value_bytes := Utf8.bytes_of_string (Process.path_env current) in
    let% _ := copy_string_out buf_ptr value_bytes size in
    sret (Z.of_nat (length value_bytes))
  else errno ENOENT.

(** ** Directories *)

Definition getcwd_handler (buf size : Z) : sys Z :=
  let% current := current_process in
  let cwd_bytes := Utf8.bytes_of_string (Process.cwd current) in
  let% _ := copy_string_out buf cwd_bytes size in
  sret buf.

(** A path from user memory, resolved against the current directory. *)
Definition resolved (path_ptr : Z) (n : nat) : sys (Process.Process * string) :=
  let% path := user_cstr path_ptr n in
  let% current := current_process in
  let% resolved_path := try (Path.resolve_path (Process.cwd current) path) in
  sret (current, resolved_path).

Definition chdir_handler (path_ptr : Z) : sys Z :=
  let% (_, resolved_path) := resolved path_ptr 256 in
  let% v := sread vfs in
  let% _ := try (Vfs.validate_directory v resolved_path) in
  let% _ := update_process (fun p => Process.with_cwd p resolved_path) in
  sret 0.

Definition unlink_handler (path_ptr : Z) : sys Z :=
  let% (_, resolved_path) := resolved path_ptr 256 in
  let% _ := on_vfs (fun v => Vfs.unlink_path v resolved_path) in
  sret 0.

Definition chmod_handler (path_ptr mode : Z) : sys Z :=
  let% (current, resolved_path) := resolved path_ptr 64 in
  if 0x1FF <? mode then errno EINVAL
  else
    let% metadata := stat_path resolved_path in
    if negb (Process.uid current =? 0) && negb (Process.uid current =? Perm.uid metadata) then errno EPERM
    else
      let% _ := on_vfs (fun v => Vfs.chmod_path v resolved_path mode) in
      sret 0.

Definition chown_handler (path_ptr uid gid : Z) : sys Z :=
  let% path := user_cstr path_ptr 64 in
  let% current := current_process in
  if negb (Process.uid current =? 0) then errno EPERM
  else
    let% resolved_path := try (Path.resolve_path (Process.cwd current) path) in
    let% _ := on_vfs (fun v => Vfs.chown_path v resolved_path uid gid) in
    sret 0.

Definition mkdir_handler (path_ptr : Z) : sys Z :=
  let% (_, abs_path) := resolved path_ptr 256 in
  let% v := sread vfs in
  match Mount.resolve_mount_path (Vfs.table v) abs_path with
  | Some (_, _, Mount.Disk) => errno EROFS
  | Some (_, rel_path, Mount.Tmpfs) =>
      let (parent, name) := Vfs.split_parent rel_path in
      let% _ := on_tmpfs (fun g => Mount.tmpfs_mkdir g parent name) in
      sret 0
  | Some (_, _, Mount.FsFat32) => errno EROFS
  | None => errno EACCES
  end.

Definition rmdir_handler (path_ptr : Z) : sys Z :=
  let% (_, abs_path) := resolved path_ptr 256 in
  let% v := sread vfs in
  match Mount.resolve_mount_path (Vfs.table v) abs_path with
  | Some (_, _, Mount.Disk) => errno EROFS
  | Some (_, rel_path, Mount.Tmpfs) =>
      let (parent, name) := Vfs.split_parent rel_path in
      let% _ := on_tmpfs (fun g => Done (Mount.tmpfs_rmdir g parent name)) in
      sret 0
  | Some (_, _, Mount.FsFat32) => errno EROFS
  | None => errno EACCES
  end.

Definition rename_handler (oldpath_ptr newpath_ptr : Z) : sys Z :=
  let% oldpath := user_cstr oldpath_ptr 256 in
  let% newpath := user_cstr newpath_ptr 256 in
  let% current := current_process in
  let% abs_oldpath := try (Path.resolve_path (Process.cwd current) oldpath) in
  let% abs_newpath := try (Path.resolve_path (Process.cwd current) newpath) in
  let% v := sread vfs in
  match Mount.resolve_mount_path (Vfs.table v) abs_oldpath, Mount.resolve_mount_path (Vfs.table v) abs_newpath with
  | None, None => errno EACCES
  | Some (_, old_rel, old_fs), Some (_, new_rel, new_fs) =>
      if negb (bool_decide (old_fs = new_fs)) then errno EXDEV
      else
        match old_fs with
        | Mount.Disk => errno EROFS
        | Mount.Tmpfs =>
            let (old_parent, old_name) := Vfs.split_parent old_rel in
            let (new_parent, new_name) := Vfs.split_parent new_rel in
            let% _ := on_tmpfs (fun g => Done (Mount.tmpfs_rename g old_parent old_name new_parent new_name)) in
            sret 0
        | Mount.FsFat32 => errno EXDEV
        end
  | _, _ => errno EXDEV
  end.

(** ** Listing a directory *)

(** [(record_size + 7) & !7] of a header of 19 bytes, the name and its
    terminator. *)
Definition dirent_size (name : list Z) : nat := (19 + length name + 1 + 7) / 8 * 8.

Definition d_type (t : FdTable.FileType) : Z := match t with FdTable.File => 8 | FdTable.Directory => 4 end.

(** One record: inode number and offset, size, type, name, padding. *)
Definition dirent (position : nat) (name : list Z) (t : FdTable.FileType) : list Z :=
  to_le 8 (Z.of_nat (position + 1)) ++ to_le 8 (Z.of_nat (position + 1))
  ++ to_le 2 (wrap16 (Z.of_nat (dirent_size name))) ++ [d_type t] ++ name ++ [0]
  ++ replicate (dirent_size name - (19 + length name + 1)) 0.

(** The loop over the entries from [position] on: the buffer and the number of
    entries in it. *)
Fixpoint dirents (entries : list (string * FdTable.FileType)) (position : nat) (count : Z)
    (kernel_buf : list Z) (entries_read : nat) : list Z * nat :=
  match entries with
  | [] => (kernel_buf, entries_read)
  | (name, t) :: rest =>
      let name := Utf8.bytes_of_string name in
      if count <? Z.of_nat (length kernel_buf + dirent_size name) then (kernel_buf, entries_read)
      else dirents rest (S position) count (kernel_buf ++ dirent position name t) (S entries_read)
  end.

(** The entries of an open directory and the offset in them. *)
Definition open_directory (kind : FdTable.FdKind) : sys (list (string * FdTable.FileType) * nat) :=
  let% v := sread vfs in
  match kind with
  | FdTable.FdDirectory open =>
      match Vfs.FILES !! FdTable.of_node_index open with
      | None => errno ENOENT
      | Some node =>
          match Vfs.node_type node with
          | FdTable.File => errno ENOTDIR
          | FdTable.Directory =>
              let% entries := try_out (Vfs.list_directory to_lowercase v (Vfs.node_path node)) in
              sret (entries, FdTable.of_offset open)
          end
      end
  | FdTable.FdDiskDirectory open =>
      let% entries := try_out (Mount.diskfs_list_dir (Vfs.table v) (FdTable.od_inode open)) in
      sret (entries, FdTable.od_offset open)
  | FdTable.FdTmpfsDirectory open =>
      let% entries := try (Mount.tmpfs_list_dir (Vfs.tmpfs v) (FdTable.ot_inode open)) in
      sret (entries, FdTable.ot_offset open)
  | _ => errno ENOTDIR
  end.

Definition getdents64_handler (fd buf count : Z) : sys Z :=
  let% kind := fd_kind fd in
  let% (entries, offset) := open_directory kind in
  if (length entries <=? offset)%nat then sret 0
  else
    let (kernel_buf, entries_read) := dirents (drop offset entries) offset count [] 0 in
    let% _ :=
      if (0 <? length kernel_buf)%nat then
        let% _ := copy_out buf kernel_buf in
        on_table (fun t => FdTable.update_directory_offset t fd (offset + entries_read))
      else sret tt in
    sret (Z.of_nat (length kernel_buf)).

(** ** Creating processes and memory *)

Definition fork_handler : sys Z :=
  let% current := current_process in
  let% child_pid := sread fork_pid in
  let% next := add64 child_pid 1 in
  let% _ := smodify (fun k => with_fork_pid k next) in
  let% child_page_table := on_vm (fun v => sp_fork v (Process.page_table_phys current)) ENOMEM in
  let% child := (fun k =>
    let (r, pool) := Process.fork_from current (pipes k) child_pid child_page_table Paging.KERNEL_STACK_TOP in
    Done (match r with Ok p => Ok p | Err _ => Err (Errno ENOMEM) end, with_pipes k pool)) in
  let child := Process.with_context child (Process.with_rax (Process.context child) 0) in
  let% _ := update_process (fun p => Process.with_context p (Process.with_rax (Process.context p) child_pid)) in
  let% _ := (fun k => let! s := Scheduler.add_process (sched k) child in Done (Ok tt, with_sched k s)) in
  sret child_pid.

(** A frame mapped at an address, and zeroes written at its physical address,
    which is taken for a virtual one. *)
Definition map_zeroed (page_table page_addr flags : Z) : sys unit :=
  let% phys_addr := on_vm (fun v => sp_map v page_table page_addr flags) ENOMEM in
  fun k => let! k' := store k phys_addr (replicate (Z.to_nat 4096) 0) in Done (Ok tt, k').

Definition PAGE_MASK : Z := 0xFFF.

Definition brk_handler (addr : Z) : sys Z :=
  let% current := current_process in
  let heap := Process.heap current in
  if addr =? 0 then sret (Process.heap_end heap)
  else if (addr <? Process.heap_start heap) || (Process.heap_limit heap <? addr) then sret (Process.heap_end heap)
  else if Process.mmap_base current <? addr then errno ENOMEM
  else
    let old_break := Process.heap_end heap in
    let% up := add64 addr PAGE_MASK in
    let new_break := Z.land up (not64 PAGE_MASK) in
    let set_end := update_process (fun p =>
      Process.with_heap p (Process.mkHeap (Process.heap_start (Process.heap p)) new_break
                             (Process.heap_limit (Process.heap p)))) in
    let% _ :=
      if old_break <? new_break then
        let num_pages := Z.to_nat ((new_break - old_break) / 4096) in
        let% _ := for_range 0 num_pages (fun i =>
          map_zeroed (Process.page_table_phys current) (old_break + Z.of_nat i * 4096)
            (Z.lor (Z.lor (Z.lor Paging.PRESENT Paging.WRITABLE) Paging.USER_ACCESSIBLE) Paging.NO_EXECUTE)) in
        set_end
      else if new_break <? old_break then
        let num_pages := Z.to_nat ((old_break - new_break) / 4096) in
        let% _ := for_range 0 num_pages (fun i k =>
          let! v := sp_unmap (vm k) (Process.page_table_phys current) (new_break + Z.of_nat i * 4096) in
          Done (Ok tt, with_vm k v)) in
        set_end
      else sret tt in
    sret new_break.

Definition MAX_MMAP_SIZE : Z := 0x40000000.
Definition KERNEL_SPACE_START : Z := 0x800000000000.
Definition MAP_PRIVATE : Z := 0x02.
Definition MAP_ANONYMOUS : Z := 0x20.
Definition PROT_WRITE : Z := 0x2.
Definition PROT_EXEC : Z := 0x4.

(** [(x & bit) != 0] of an [i32]. *)
Definition has_bit (x bit : Z) : bool := negb (Z.land x bit =? 0).

Definition mmap_flags (prot : Z) : Z :=
  let fl := Z.lor Paging.PRESENT Paging.USER_ACCESSIBLE in
  let fl := if has_bit prot PROT_WRITE then Z.lor fl Paging.WRITABLE else fl in
  if has_bit prot PROT_EXEC then fl else Z.lor fl Paging.NO_EXECUTE.

Definition mmap_handler (addr length prot flags fd : Z) : sys Z :=
  if (length =? 0) || (MAX_MMAP_SIZE <? length) then errno EINVAL
  else
    let size := Z.land (length + PAGE_MASK) (not64 PAGE_MASK) in
    let num_pages := Z.to_nat (size / 4096) in
    if negb (has_bit flags MAP_ANONYMOUS) || negb (has_bit flags MAP_PRIVATE) then errno EINVAL
    else if negb (fd =? -1) then errno EINVAL
    else if has_bit prot PROT_WRITE && has_bit prot PROT_EXEC then errno EINVAL
    else
      let% current := current_process in
      let% map_addr :=
        if addr =? 0 then
          let base := saturating_sub (Process.mmap_base current) size in
          let% _ := update_process (fun p => Process.with_mmap_base p base) in
          sret base
        else if has_bit addr PAGE_MASK then errno EINVAL
        else sret addr in
      if KERNEL_SPACE_START <=? map_addr then errno EINVAL
      else if map_addr <? Process.heap_end (Process.heap current) then errno ENOMEM
      else
        let% _ := for_range 0 num_pages (fun i =>
          map_zeroed (Process.page_table_phys current) (map_addr + Z.of_nat i * 4096) (mmap_flags prot)) in
        let% _ := update_process (fun p =>
          Process.with_mappings p
            (Process.mappings p ++ [Process.mkMapping map_addr size (wrap32 prot) (wrap32 flags)])) in
        sret map_addr.

(** ** Waiting and exiting *)

Definition WUNTRACED : Z := 0x2.

(** The pid of a stopped child, whose status [0x147f] is written out. *)
Definition report_stopped (wuntraced : bool) (parent_pid status_ptr : Z) : sys (option Z) :=
  if wuntraced then
    let% stopped := sread (fun k => Scheduler.find_stopped_child (sched k) parent_pid) in
    match stopped with
    | Some stopped_pid =>
        let status := Z.lor (Z.shiftl (Process.signal_num Process.SIGTSTP) 8) 0x7f in
        let% _ := if negb (status_ptr =? 0) then copy_out status_ptr (to_le 4 status) else sret 0%nat in
        sret (Some stopped_pid)
    | None => sret None
    end
  else sret None.

(** [find_any_zombie_child], or [find_zombie_child(..).filter(..)]. *)
Definition find_zombie (pid parent_pid : Z) : sys (option Process.Process) :=
  if pid =? -1 then fun k =>
    let (z, s) := Scheduler.find_any_zombie_child (sched k) parent_pid in Done (Ok z, with_sched k s)
  else if 0 <? pid then fun k =>
    let (z, s) := Scheduler.find_zombie_child (sched k) parent_pid in
    Done (Ok (match z with Some p => if Process.pid p =? pid then Some p else None | None => None end),
          with_sched k s)
  else errno EINVAL.

(** The status [exit_code << 8] of a zombie is written out, its address space
    is freed. *)
Definition reap (child : Process.Process) (status_ptr : Z) : sys Z :=
  let exit_code := default 0 (Process.exit_code child) in
  let% _ :=
    if negb (status_ptr =? 0) then copy_out status_ptr (to_le 4 (wrap32 (Z.shiftl exit_code 8))) else sret 0%nat in
  let% _ := on_vm (fun v => sp_free v (Process.page_table_phys child) true) EIO in
  sret (Process.pid child).

Definition waitpid_handler (pid status_ptr options : Z) : sys Z :=
  let wuntraced := has_bit options WUNTRACED in
  if negb (options =? 0) && negb (options =? WUNTRACED) then errno EINVAL
  else
    let% parent := current_process in
    let% stopped := report_stopped wuntraced (Process.pid parent) status_ptr in
    match stopped with
    | Some stopped_pid => sret stopped_pid
    | None =>
        let% zombie := find_zombie pid (Process.pid parent) in
        match zombie with
        | Some child => reap child status_ptr
        | None =>
            let% children := sread (fun k => Scheduler.has_children (sched k) (Process.pid parent)) in
            if children then
              let% _ := current_process in
              let% _ :=
                if pid =? -1 then update_process Process.block_on_any_child
                else if 0 <? pid then update_process (fun p => Process.block_on_child p pid)
                else errno EINVAL in
              let% _ := yield_handler in
              let% parent := current_process in
              let% stopped := report_stopped wuntraced (Process.pid parent) status_ptr in
              match stopped with
              | Some stopped_pid => sret stopped_pid
              | None =>
                  let% zombie_after_wake := find_zombie pid (Process.pid parent) in
                  match zombie_after_wake with
                  | Some child => reap child status_ptr
                  | None => errno EINTR
                  end
              end
            else errno ESRCH
        end
    end.

(** [reap_pending], once another address space is active. *)
Definition reap_pending : sys unit := fun k =>
  let (pt, pid) := pending_reap k in
  let k := with_pending_reap k (0, pid) in
  if pt =? 0 then Done (Ok tt, k)
  else
    let! (r, v) := sp_free (vm k) pt true in
    match r with Ok _ => Done (Ok tt, with_vm k v) | Err _ => Panicked end.

Definition exit_handler (status : Z) : sys Z :=
  let% current := sread (fun k => Scheduler.current (sched k)) in
  let has_parent := match current with Some p => bool_decide (is_Some (Process.parent_pid p)) | None => false end in
  let% _ :=
    match current with
    | Some p =>
        let% _ := update_process (fun p => if has_parent then Process.set_zombie p status else Process.set_exited p status) in
        let% _ := smodify (fun k => with_sched k (Scheduler.wake_waiters_for_child (sched k) (Process.pid p))) in
        if has_parent then sret tt
        else smodify (fun k => with_pending_reap k (Process.page_table_phys p, Process.pid p))
    | None => sret tt
    end in
  let% next := (fun k =>
    let (next, s) := Scheduler.schedule_next (sched k) in Done (Ok next, with_sched k s)) in
  match next with
  | Some p =>
      let% _ := smodify (fun k => with_cr3 k (Process.page_table_phys p)) in
      let% _ := if has_parent then sret tt else reap_pending in
      sfail Switched
  | None =>
      let% _ := smodify (fun k => if kernel_pt k =? 0 then k else with_cr3 k (kernel_pt k)) in
      let% _ := reap_pending in
      sfail Halted
  end.

(** [timer_tick_handler]. *)
Definition timer_tick_handler : sys unit := fun k =>
  let! n := Process.add64 (ticks k) 1 in
  Done (Ok tt, with_need_resched (with_ticks k n) true).

(** ** Running a program *)

(** The directories of PATH in turn. *)
Fixpoint search_path (dirs : list string) (path : string) : sys string :=
  match dirs with
  | [] => errno ENOENT
  | dir :: rest =>
      if Str.is_empty dir then search_path rest path
      else
        let full_path := (dir ++ (if Str.ends_with_slash dir then EmptyString else "/") ++ path)%string in
        fun k =>
          let! r := Vfs.stat_path to_lowercase (vfs k) full_path in
          match r with
          | Ok _ => Done (Ok full_path, k)
          | Err _ => search_path rest path k
          end
  end.

Definition elf_errno (e : Elf.ElfError) : ErrorCode :=
  match e with
  | Elf.InvalidMagic | Elf.InvalidClass | Elf.InvalidEndian | Elf.InvalidVersion | Elf.NotExecutable
  | Elf.WrongMachine => ENOEXEC
  | _ => EINVAL
  end.

(** The fields [replace_image] assigns. *)
Definition new_image (user_cs user_ss : Z) (info : Elf.ElfInfo) (page_table : Z) (heap : Process.HeapInfo)
    (p : Process.Process) : Process.Process :=
  Process.mkProcess (Process.pid p) (Process.pgid p) (Process.parent_pid p) (Process.state p) (Process.wait_state p)
    (Process.uid p) (Process.gid p) (Elf.entry_point info) USER_STACK_TOP (Process.kernel_stack_ptr p) page_table
    (Process.new_user (Elf.entry_point info) USER_STACK_TOP user_cs user_ss) (Process.fd_table p)
    (Process.pending_signals p) (Process.cwd p) (Process.path_env p) (Process.environ p) heap []
    (Process.mmap_base p) [].

(** [Process::replace_image] of the current process: the new page table. *)
Definition replace_image (user_cs user_ss : Z) (info : Elf.ElfInfo) (data : list Z) : sys Z :=
  let% current := current_process in
  let% active := sread cr3 in
  let% new_page_table := on_vm (fun v => sp_build v active info data) ENOMEM in
  let% heap := (fun k =>
    let! heap_start := Elf.calculate_heap_start info in
    let! heap := Process.HeapInfo_new heap_start in Done (Ok heap, k)) in
  let% _ := update_process (new_image user_cs user_ss info new_page_table heap) in
  let% _ := on_vm (fun v => sp_free v (Process.page_table_phys current) false) ENOMEM in
  sret new_page_table.

(** The variables of envp: text of the form KEY=VALUE. *)
Definition env_entry (env : list Z) : option (string * string) :=
  match Utf8.from_utf8 env with
  | None => None
  | Some s =>
      match Str.split_on "="%char s with
      | key :: value :: rest => Some (key, String.concat "=" (value :: rest))
      | _ => None
      end
  end.
Definition environment (envp : list (list Z)) : gmap string string :=
  foldl (fun m env => match env_entry env with Some (key, value) => <[key := value]> m | None => m end) ∅ envp.

(** The fields execve assigns after [replace_image]. *)
Definition with_environ (p : Process.Process) (e : gmap string string) : Process.Process :=
  Process.mkProcess (Process.pid p) (Process.pgid p) (Process.parent_pid p) (Process.state p) (Process.wait_state p)
    (Process.uid p) (Process.gid p) (Process.entry_point p) (Process.user_stack_ptr p) (Process.kernel_stack_ptr p)
    (Process.page_table_phys p) (Process.context p) (Process.fd_table p) (Process.pending_signals p) (Process.cwd p)
    (Process.path_env p) e (Process.heap p) (Process.mappings p) (Process.mmap_base p) (Process.vm_regions p).

Definition with_stack (p : Process.Process) (sp : Z) : Process.Process :=
  let c := Process.context p in
  Process.mkProcess (Process.pid p) (Process.pgid p) (Process.parent_pid p) (Process.state p) (Process.wait_state p)
    (Process.uid p) (Process.gid p) (Process.entry_point p) sp (Process.kernel_stack_ptr p)
    (Process.page_table_phys p)
    (Process.mkContext (Process.ctx_r15 c) (Process.ctx_r14 c) (Process.ctx_r13 c) (Process.ctx_r12 c)
       (Process.ctx_r11 c) (Process.ctx_r10 c) (Process.ctx_r9 c) (Process.ctx_r8 c) (Process.ctx_rbp c)
       (Process.ctx_rdi c) (Process.ctx_rsi c) (Process.ctx_rdx c) (Process.ctx_rcx c) (Process.ctx_rbx c)
       (Process.ctx_rax c) (Process.ctx_rip c) sp (Process.ctx_rflags c) (Process.ctx_cs c) (Process.ctx_ss c))
    (Process.fd_table p) (Process.pending_signals p) (Process.cwd p) (Process.path_env p) (Process.environ p)
    (Process.heap p) (Process.mappings p) (Process.mmap_base p) (Process.vm_regions p).

(** The file to run: a path as it is, a bare name in the directories of PATH. *)
Definition resolve_program (path : string) : sys string :=
  let% current := current_process in
  if Str.contains_slash path then try (Path.resolve_path (Process.cwd current) path)
  else search_path (Str.split_on ":"%char (Process.path_env current)) path.

Definition execve_handler (user_cs user_ss : Z) (path : string) (argv envp : list (list Z)) : sys unit :=
  let% current := current_process in
  let% resolved_path := resolve_program path in
  let% metadata := stat_path resolved_path in
  if Perm.is_dir metadata then errno EISDIR
  else if negb (Perm.can_exec (Process.uid current) (Process.gid current) (Perm.uid metadata) (Perm.gid metadata)
                  (Perm.mode metadata)) then errno EACCES
  else
    let% v := sread vfs in
    let% elf_data := try_out (Vfs.read_file_to_vec to_lowercase v resolved_path) in
    let% elf_info := (fun k =>
      let! r := Elf.parse_elf elf_data in
      Done (match r with Ok i => Ok i | Err e => Err (Errno (elf_errno e)) end, k)) in
    let% new_page_table := replace_image user_cs user_ss elf_info elf_data in
    let% _ := smodify (fun k => with_cr3 k new_page_table) in
    let% _ := update_process (fun p => with_environ p (environment envp)) in
    let% new_sp := try_stm (ExecStack.setup_user_stack USER_STACK_TOP (Utf8.bytes_of_string resolved_path) argv envp
                     (Elf.entry_point elf_info) (Elf.phdr_addr elf_info) (Elf.info_phnum elf_info)
                     (Process.uid current) (Process.gid current)) in
    let% _ := update_process (fun p => with_stack p new_sp) in
    sfail Switched.

End Kernel.

End Kernel.
