(* ===== verification/Dispatch.v ===== *)
(** * The system-call interface (src/kernel/src/syscall.rs, usermode.rs)

    The dispatcher [handle_syscall] with the [sys_*] functions, for the kernel
    that main.rs sets up: every handler is registered.  Standard input and
    output fall back to the terminal and the serial line; the socket calls go
    to the network.  Then the entry path of usermode.rs: saving the registers,
    the call, and the preemption check.  [serial_out] has the bytes of programs
    and of the terminal's echo, not the log messages of the kernel. *)

From S2P Require Import Prelude Abi RingBuffer Pipe FdTable Process Scheduler Path Perm TmpFs Bytes Block Utf8.
From S2P Require Import UserMem Elf Spaces ExecStack Ps2 Tty DiskFs Fat32 Mount Vfs Packets Net Kernel.
Import Abi Block Bytes UserMem Spaces Kernel.

Module Dispatch.

(** [x as i64] of a [u64]. *)
Definition as_i64 (x : Z) : Z := let y := wrap64 x in if y <? 2 ^ 63 then y else y - 2 ^ 64.

Section Dispatch.
Context {D : Type} {BD : BlockDevice D}.
Context (to_lowercase : string -> string).
Context {V : Type} {SP : Spaces V}.
Context {N : Type} {DR : Net.Driver N}.
(** The selectors of the user segments. *)
Context (user_cs user_ss : Z).

Notation Kernel := (Kernel.Kernel (D := D) (V := V) (N := N)).
Notation sys T := (stm Kernel stop T).

(** ** The terminal and the serial line *)

Definition on_console {T} (f : Console -> outcome (T * Console)) : sys T := fun k =>
  let! (t, c) := f (console k) in Done (Ok t, with_console k c).

(** [serial_read_byte], [write_byte_raw]. *)
Definition serial_read_byte (c : Console) : option Z * Console :=
  match serial_in c with
  | [] => (None, c)
  | b :: rest => (Some b, mkConsole (tty c) (scancodes c) (keyboard c) rest (serial_out c))
  end.

Definition write_raw (bytes : list Z) (c : Console) : Console :=
  mkConsole (tty c) (scancodes c) (keyboard c) (serial_in c) (serial_out c ++ bytes).

(** [read_byte]: the keyboard first, then the serial line. *)
Definition read_byte (c : Console) : outcome (option Z * Console) :=
  let! (scancode, buffer) := Ps2.try_read_scancode (scancodes c) in
  match scancode with
  | Some sc =>
      let (decoded, kbd) := Ps2.decode_scancode (keyboard c) sc in
      let c := mkConsole (tty c) buffer kbd (serial_in c) (serial_out c) in
      match decoded with
      | Some ascii => Done (Some ascii, c)
      | None => Done (serial_read_byte c)
      end
  | None => Done (serial_read_byte (mkConsole (tty c) buffer (keyboard c) (serial_in c) (serial_out c)))
  end.

(** [tty_input_byte], with the echo sent to the serial line. *)
Definition tty_input_byte (byte : Z) (c : Console) : Tty.TtyAction * Console :=
  let '(action, echoed, t) := Tty.input_byte (tty c) byte in
  (action, write_raw echoed (mkConsole t (scancodes c) (keyboard c) (serial_in c) (serial_out c))).

(** [tty_read]; its loop always ends. *)
Definition tty_read (buf : list Z) (c : Console) : outcome (option nat * list Z * Console) :=
  match Tty.read (tty c) buf with
  | None => Panicked
  | Some (n, buf, t) => Done (n, buf, mkConsole t (scancodes c) (keyboard c) (serial_in c) (serial_out c))
  end.

(** A round that finds neither a line nor a byte leaves everything as it is:
    the loop spins until input arrives. *)
Definition input_left (c : Console) : nat := (RingBuffer.len (scancodes c) + length (serial_in c))%nat.

(** The loop of [sys_read] on the terminal. *)
Fixpoint tty_loop (fuel : nat) (buf : Z) (kernel_buf : list Z) : sys Z :=
  match fuel with
  | O => sfail Waiting
  | S fuel' =>
      let% (n, kernel_buf) := on_console (fun c => let! (n, b, c) := tty_read kernel_buf c in Done ((n, b), c)) in
      match n with
      | Some n =>
          let% _ := copy_out buf (take n kernel_buf) in
          sret (Z.of_nat n)
      | None =>
          let% byte := on_console read_byte in
          match byte with
          | Some byte =>
              let% action := on_console (fun c => Done (tty_input_byte byte c)) in
              let% _ :=
                match action with
                | Tty.SendSignal => signal_handler
                | Tty.SendStopSignal => stop_signal_handler
                | Tty.LineReady | Tty.ActionNone => sret tt
                end in
              tty_loop fuel' buf kernel_buf
          | None =>
              let% c := sread console in
              if (input_left c =? 0)%nat then sfail Waiting else tty_loop fuel' buf kernel_buf
          end
      end
  end.

(** [match write_fn(..) { Err(EBADF) => fall through, r => return r }]. *)
Definition unless_ebadf {T} (m fallback : sys T) : sys T := fun k =>
  let! (r, k) := m k in
  match r with
  | Err (Errno EBADF) => fallback k
  | _ => Done (r, k)
  end.

(** ** The calls *)

Definition sys_exit (status : Z) : sys Z := exit_handler status.

Definition sys_write (fd buf count : Z) : sys Z :=
  if (fd =? 1) || (fd =? 2) then
    unless_ebadf (write_handler fd buf count)
      (if (buf =? 0) || (count =? 0) then sret 0
       else if 4096 <? count then errno EINVAL
       else
         let% slice := user_bytes buf (Z.to_nat count) (Z.to_nat 4096) in
         let% _ := on_console (fun c => Done (tt, write_raw slice c)) in
         sret count)
  else write_handler fd buf count.

Definition sys_read (fd buf count : Z) : sys Z :=
  if count =? 0 then sret 0
  else if buf =? 0 then errno EFAULT
  else if fd =? 0 then
    unless_ebadf (read_handler fd buf count)
      (if 4096 <? count then errno EINVAL
       else
         let% c := sread console in
         tty_loop (S (input_left c)) buf (replicate (Z.to_nat count) 0))
  else if (fd =? 1) || (fd =? 2) then errno EBADF
  else read_handler fd buf count.

Definition sys_open (path_ptr flags : Z) : sys Z :=
  let% path := user_cstr path_ptr 64 in
  open_handler to_lowercase path flags.

(** [yield_handler], then success. *)
Definition sys_yield : sys Z := let% _ := yield_handler in sret 0.

Definition exec_result {T} (m : sys unit) : sys T := let% _ := m in errno EIO.

Definition sys_execve (path_ptr argv_ptr envp_ptr : Z) : sys Z :=
  let% path := user_cstr path_ptr 256 in
  if argv_ptr =? 0 then exec_result (execve_handler to_lowercase user_cs user_ss path [] [])
  else
    let% argv := try_stm (ExecStack.parse_argv argv_ptr) in
    let% envp := try_stm (ExecStack.parse_envp envp_ptr) in
    exec_result (execve_handler to_lowercase user_cs user_ss path argv envp).

(** The calls that only pass their arguments to the handler that
    [init_scheduler_and_start] registers before the first process runs. *)
Definition sys_close (fd : Z) : sys Z := close_handler fd.
Definition sys_stat (path_ptr stat_buf : Z) : sys Z := stat_handler to_lowercase path_ptr stat_buf.
Definition sys_fstat (fd stat_buf : Z) : sys Z := fstat_handler fd stat_buf.
Definition sys_getpid : sys Z := getpid_handler.
Definition sys_fork : sys Z := fork_handler.
Definition sys_waitpid (pid status_ptr options : Z) : sys Z := waitpid_handler pid status_ptr options.
Definition sys_pipe (pipefd_ptr : Z) : sys Z := pipe_handler pipefd_ptr.
Definition sys_dup2 (oldfd newfd : Z) : sys Z := dup2_handler oldfd newfd.
Definition sys_kill (pid sig : Z) : sys Z := kill_handler pid sig.
Definition sys_setpgid (pid pgid : Z) : sys Z := setpgid_handler pid pgid.
Definition sys_getdents64 (fd buf count : Z) : sys Z := getdents64_handler to_lowercase fd buf count.
Definition sys_getcwd (buf size : Z) : sys Z := getcwd_handler buf size.
Definition sys_chdir (path : Z) : sys Z := chdir_handler path.
Definition sys_unlink (path : Z) : sys Z := unlink_handler path.
Definition sys_getenv (name_ptr buf_ptr size : Z) : sys Z := getenv_handler name_ptr buf_ptr size.
Definition sys_chmod (path_ptr mode : Z) : sys Z := chmod_handler to_lowercase path_ptr mode.
Definition sys_chown (path_ptr uid gid : Z) : sys Z := chown_handler path_ptr uid gid.
Definition sys_getuid : sys Z := getuid_handler.
Definition sys_getgid : sys Z := getgid_handler.
Definition sys_setuid (uid : Z) : sys Z := setuid_handler uid.
Definition sys_setgid (gid : Z) : sys Z := setgid_handler gid.
Definition sys_lseek (fd offset whence : Z) : sys Z := lseek_handler fd offset whence.
Definition sys_mkdir (path_ptr mode : Z) : sys Z := mkdir_handler path_ptr.
Definition sys_rmdir (path_ptr : Z) : sys Z := rmdir_handler path_ptr.
Definition sys_rename (oldpath_ptr newpath_ptr : Z) : sys Z := rename_handler oldpath_ptr newpath_ptr.
Definition sys_brk (addr : Z) : sys Z := brk_handler addr.
Definition sys_mmap (addr length prot flags fd offset : Z) : sys Z := mmap_handler addr length prot flags fd.

(** ** Sockets *)

Definition AF_INET : Z := 2.
Definition SOCK_DGRAM : Z := 2.

(** A computation of the network. *)
Definition on_network {T} (f : Net.Net (N := N) -> outcome (result T string * Net.Net (N := N))) (e : ErrorCode)
    : sys T := fun k =>
  let! (r, n) := f (network k) in
  Done (match r with Ok t => Ok t | Err _ => Err (Errno e) end, with_network k n).

Definition sys_socket (domain type_ : Z) : sys Z :=
  if negb (domain =? AF_INET) then errno ENOSYS
  else if negb (type_ =? SOCK_DGRAM) then errno ENOSYS
  else on_network (fun n => Done (Net.bind 0 n)) ENOMEM.

(** The two slices of user memory are read where they are used: the address
    for the port and the destination, and the data when the packet is built,
    which is refused first if it is too long.  A slice has at most
    [isize::MAX] bytes. *)
Definition sys_sendto (sockfd buf len dest_addr addrlen : Z) : sys Z :=
  if (buf =? 0) || (len =? 0) then errno EINVAL
  else if (dest_addr =? 0) || (addrlen <? 16) then errno EINVAL
  else if 2 ^ 63 <=? len then spanic
  else
    let% port := fetch_bytes (dest_addr + 2) 2 in
    let% dst_ip := fetch_bytes (dest_addr + 4) 4 in
    let dst_port := from_be port in
    if 65535 <? 8 + len then errno EIO
    else
      let% data := fetch_bytes buf (Z.to_nat len) in
      let% _ := on_network (Net.send_udp_packet (wrap16 sockfd) dst_ip dst_port data) EIO in
      sret len.

(** A write through a raw pointer. *)
Definition store_at (a : Z) (bytes : list Z) : sys unit := fun k => let! k' := store k a bytes in Done (Ok tt, k').

(** [sockaddr_in]: family, port, address, zeroes.  The length is written as an
    [i32], whose address has to be aligned. *)
Definition sockaddr (ip : list Z) (port : Z) : list Z := [2; 0] ++ to_be 2 port ++ ip ++ replicate 8 0.

Definition sys_recvfrom (sockfd buf len src_addr addrlen : Z) : sys Z :=
  if (buf =? 0) || (len =? 0) then errno EINVAL
  else
    let% received := on_network (Net.recv_udp_packet (wrap16 sockfd)) EBADF in
    match received with
    | Some (data, src_ip, src_port) =>
        let copy_len := Nat.min (length data) (Z.to_nat len) in
        let% _ := store_at buf (take copy_len data) in
        let% _ :=
          if negb (src_addr =? 0) && negb (addrlen =? 0) then
            let% _ := store_at src_addr (sockaddr src_ip src_port) in
            if addrlen mod 4 =? 0 then store_at addrlen (to_le 4 16) else spanic
          else sret tt in
        sret (Z.of_nat copy_len)
    | None => errno EAGAIN
    end.

(** ** The dispatcher *)

(** [Ok(val) => val as i64, Err(err) => err.to_syscall_result()]. *)
Definition encoded (m : sys Z) : sys Z := fun k =>
  let! (r, k) := m k in
  match r with
  | Ok val => Done (Ok (as_i64 val), k)
  | Err (Errno e) => Done (Ok (to_syscall_result e), k)
  | Err s => Done (Err s, k)
  end.

Definition dispatch (call : SyscallNumber) (arg1 arg2 arg3 arg4 arg5 arg6 : Z) : sys Z :=
  match call with
  | SysExit => sys_exit (as_i32 arg1)
  | SysRead => sys_read (as_i32 arg1) arg2 arg3
  | SysWrite => sys_write (as_i32 arg1) arg2 arg3
  | SysOpen => sys_open arg1 arg2
  | SysClose => sys_close (as_i32 arg1)
  | SysStat => sys_stat arg1 arg2
  | SysFstat => sys_fstat (as_i32 arg1) arg2
  | SysLseek => sys_lseek (as_i32 arg1) (as_i64 arg2) (as_i32 arg3)
  | SysBrk => sys_brk arg1
  | SysMmap => sys_mmap arg1 arg2 (as_i32 arg3) (as_i32 arg4) (as_i32 arg5) arg6
  | SysGetpid => sys_getpid
  | SysYield => sys_yield
  | SysExecve => sys_execve arg1 arg2 arg3
  | SysFork => sys_fork
  | SysWait4 => sys_waitpid (as_i64 arg1) arg2 (as_i32 arg3)
  | SysPipe => sys_pipe arg1
  | SysDup2 => sys_dup2 (as_i32 arg1) (as_i32 arg2)
  | SysKill => sys_kill (as_i32 arg1) (as_i32 arg2)
  | SysSetpgid => sys_setpgid (as_i32 arg1) (as_i32 arg2)
  | SysGetdents64 => sys_getdents64 (as_i32 arg1) arg2 arg3
  | SysGetcwd => sys_getcwd arg1 arg2
  | SysChdir => sys_chdir arg1
  | SysRename => sys_rename arg1 arg2
  | SysMkdir => sys_mkdir arg1 (wrap16 arg2)
  | SysRmdir => sys_rmdir arg1
  | SysUnlink => sys_unlink arg1
  | SysGetenv => sys_getenv arg1 arg2 arg3
  | SysChmod => sys_chmod arg1 (wrap16 arg2)
  | SysChown => sys_chown arg1 (wrap32 arg2) (wrap32 arg3)
  | SysGetuid => sys_getuid
  | SysGetgid => sys_getgid
  | SysSetuid => sys_setuid (wrap32 arg1)
  | SysSetgid => sys_setgid (wrap32 arg1)
  | SysSocket => sys_socket (as_i32 arg1) (as_i32 arg2)
  | SysSendto => sys_sendto (as_i32 arg1) arg2 arg3 arg5 (as_i32 arg6)
  | SysRecvfrom => sys_recvfrom (as_i32 arg1) arg2 arg3 arg5 arg6
  | SysMprotect | SysMunmap | SysDup => errno ENOSYS
  end.

Definition handle_syscall (number arg1 arg2 arg3 arg4 arg5 arg6 : Z) : sys Z :=
  match from_u64 number with
  | None => sret (to_syscall_result ENOSYS)
  | Some call => encoded (dispatch call arg1 arg2 arg3 arg4 arg5 arg6)
  end.

(** ** Entering and leaving the kernel *)

(** [check_and_handle_preemption]. *)
Definition check_and_handle_preemption : sys unit :=
  let% resched := sread need_resched in
  if resched then
    let% _ := smodify (fun k => with_need_resched k false) in
    yield_handler
  else sret tt.

(** The context the entry code saves: [regs] are the registers of the user,
    with the return address in [rcx] and the flags in [r11]. *)
Definition saved (old regs : Process.CpuContext) : Process.CpuContext :=
  Process.mkContext (Process.ctx_r15 regs) (Process.ctx_r14 regs) (Process.ctx_r13 regs) (Process.ctx_r12 regs)
    (Process.ctx_r11 regs) (Process.ctx_r10 regs) (Process.ctx_r9 regs) (Process.ctx_r8 regs) (Process.ctx_rbp regs)
    (Process.ctx_rdi regs) (Process.ctx_rsi regs) (Process.ctx_rdx regs) (Process.ctx_rcx regs) (Process.ctx_rbx regs)
    (Process.ctx_rax regs) (Process.ctx_rcx regs) (Process.ctx_rsp regs) (Process.ctx_r11 regs)
    (Process.ctx_cs old) (Process.ctx_ss old).

(** What [CURRENT_CONTEXT_PTR] points to: the context of the current process,
    or what the last one left; a null pointer panics. *)
Definition current_context : sys Process.CpuContext := fun k =>
  match Scheduler.current (sched k) with
  | Some p => Done (Ok (Process.context p), k)
  | None => match slot k with Some c => Done (Ok c, k) | None => Panicked end
  end.

(** A write through [CURRENT_CONTEXT_PTR]. *)
Definition update_context (f : Process.CpuContext -> Process.CpuContext) : sys unit := fun k =>
  match Scheduler.current (sched k) with
  | Some _ => update_process (fun p => Process.with_context p (f (Process.context p))) k
  | None => Done (Ok tt, with_slot k (f <$> slot k))
  end.

Definition syscall_handler_rust : sys Z :=
  let% c := current_context in
  let% result := handle_syscall (Process.ctx_rax c) (Process.ctx_rdi c) (Process.ctx_rsi c) (Process.ctx_rdx c)
                   (Process.ctx_r10 c) (Process.ctx_r8 c) (Process.ctx_r9 c) in
  let% _ := check_and_handle_preemption in
  sret result.

(** The registers with which the user continues: [rcx] and [r11] have the
    address and the flags. *)
Definition restored (c : Process.CpuContext) : Process.CpuContext :=
  Process.mkContext (Process.ctx_r15 c) (Process.ctx_r14 c) (Process.ctx_r13 c) (Process.ctx_r12 c)
    (Process.ctx_rflags c) (Process.ctx_r10 c) (Process.ctx_r9 c) (Process.ctx_r8 c) (Process.ctx_rbp c)
    (Process.ctx_rdi c) (Process.ctx_rsi c) (Process.ctx_rdx c) (Process.ctx_rip c) (Process.ctx_rbx c)
    (Process.ctx_rax c) (Process.ctx_rip c) (Process.ctx_rsp c) (Process.ctx_rflags c)
    (Process.ctx_cs c) (Process.ctx_ss c).

Definition syscall_entry (regs : Process.CpuContext) : sys Process.CpuContext :=
  let% _ := update_context (fun c => saved c regs) in
  let% result := syscall_handler_rust in
  let% _ := update_context (fun c => Process.with_rax c (wrap64 result)) in
  let% c := current_context in
  sret (restored c).

(** [keyboard_interrupt_handler], with the scancodes the controller has. *)
Definition keyboard_interrupt_handler (ready : list Z) : sys unit :=
  on_console (fun c =>
    let! buffer := Ps2.handle_keyboard_interrupt (scancodes c) ready in
    Done (tt, mkConsole (tty c) buffer (keyboard c) (serial_in c) (serial_out c))).

(** With a current process, a write through the pointer is one to its context. *)
Lemma update_context_run (k : Kernel) p f : Scheduler.current (sched k) = Some p ->
  update_context f k = Done (Ok tt, with_sched k (Scheduler.update_current (sched k)
    (fun p => Process.with_context p (f (Process.context p))))).
Proof. intros Hp. unfold update_context. rewrite Hp. reflexivity. Qed.

End Dispatch.

End Dispatch.
