(* ===== verification/Demo.v ===== *)
(** * A concrete kernel

    A booted kernel on the reference memory, with the driver of the sources and
    a tmpfs mounted on [/tmp]: process 1, of user 1000, runs; process 2, of the
    superuser, is ready.  The examples of the other files evaluate on it. *)

From S2P Require Import Prelude Abi RingBuffer Pipe FdTable Process Scheduler Path Perm TmpFs Bytes Block Utf8 UserMem.
From S2P Require Import Elf Spaces ExecStack Ps2 Tty DiskFs Fat32 Mount Vfs Packets Net Kernel Dispatch.
Import Abi Block Bytes Utf8 UserMem Spaces Net Kernel Dispatch.

Module Demo.

Notation Machine := (Kernel.Kernel (D := RamDisk) (V := Ideal) (N := Net.VirtioNet)).

(** Processes with their page tables. *)
Definition proc (n u pt : Z) : Process.Process :=
  Process.mkProcess n n None Process.Ready Process.NotWaiting u u 0x400000 USER_STACK_TOP 0 pt Process.zero
    FdTable.new 0 "/" "/bin" ∅ (Process.mkHeap 0x10000000 0x10000000 0x50000000) [] 0x7FFF00000000 [].

Definition user : Process.Process := proc 1 1000 0x1000.
Definition root : Process.Process := proc 2 0 0x2000.

Definition processes : Scheduler.Scheduler :=
  snd (Scheduler.schedule_next (Scheduler.mkSched [user; root] None (Some 1))).

(** The memory of process 1: a text and a file name. *)
Definition TEXT : Z := 0x500000.
Definition NAME : Z := 0x500100.
Definition memory : Ideal :=
  mkIdeal 0x9000 {[ 0x1000 := write_bytes (write_bytes ∅ TEXT (bytes_of_string "hello")) NAME (bytes_of_string "/tmp/x" ++ [0]) ]}.

Definition boot : Machine :=
  mkKernel processes PipePool.new Vfs.demo memory 0x1000
    (mkConsole Tty.new (RingBuffer.new Ps2.SCANCODE_BUFFER_SIZE) Ps2.new_keyboard [] [])
    3 false 0 0 (0, 0) 0 Net.demo_net None.

Definition call (n : SyscallNumber) (a1 a2 a3 : Z) (k : Machine) := handle_syscall Vfs.lower 0x23 0x1b (Abi.as_u64 n) a1 a2 a3 0 0 0 k.

End Demo.
