(* ===== verification/Steps.v ===== *)
(** * What a system call can do

    The elementary changes of the kernel's state, with the conditions under
    which a handler makes them, as a step relation.  [handle_syscall] refines
    it: every call is a sequence of such steps, after which the processor may
    be given away once.  The whole-kernel theorems are proved on the steps. *)

From S2P Require Import Prelude Abi RingBuffer Pipe FdTable Process Scheduler Path Perm TmpFs Bytes Block Utf8.
From S2P Require Import UserMem Elf Spaces ExecStack Ps2 Tty DiskFs Fat32 Mount Vfs Packets Net Kernel Dispatch.
Import Abi Block Bytes UserMem Spaces Kernel Dispatch.

Module Steps.

(** A change of a process by its own calls: identity, parent, state and
    credentials stay. *)
Definition own (f : Process.Process -> Process.Process) : Prop :=
  forall p, Process.pid (f p) = Process.pid p /\ Process.parent_pid (f p) = Process.parent_pid p
    /\ Process.state (f p) = Process.state p /\ Process.uid (f p) = Process.uid p /\ Process.gid (f p) = Process.gid p.

(** The end of a process. *)
Definition ends (f : Process.Process -> Process.Process) : Prop :=
  exists code, f = (fun p => Process.set_zombie p code) \/ f = (fun p => Process.set_exited p code).

(** A child of [p], which has the pid of the child as its return value. *)
Definition forked (p child : Process.Process) : Prop :=
  exists p0 pool pool' child_pid pt top c,
    Process.fork_from p0 pool child_pid pt top = (Ok c, pool')
    /\ p = Process.with_context p0 (Process.with_rax (Process.context p0) child_pid)
    /\ child = Process.with_context c (Process.with_rax (Process.context c) 0).

(** The terminal, the keyboard and the serial line. *)
Inductive console_step (c : Console) : Console -> Prop :=
  | cs_read buf r c' : tty_read buf c = Done (r, c') -> console_step c c'
  | cs_byte b c' : read_byte c = Done (b, c') -> console_step c c'
  | cs_input b : console_step c (snd (tty_input_byte b c))
  | cs_write bytes : console_step c (write_raw bytes c)
  | cs_keys ready buffer : Ps2.handle_keyboard_interrupt (scancodes c) ready = Done buffer ->
      console_step c (mkConsole (tty c) buffer (keyboard c) (serial_in c) (serial_out c)).

(** The pipes. *)
Inductive pool_step (pool : list Pipe.Pipe) : list Pipe.Pipe -> Prop :=
  | ps_create : pool_step pool (snd (PipePool.pipe_create pool))
  | ps_read id buf r pool' : PipePool.read pool id buf = Done (r, pool') -> pool_step pool pool'
  | ps_write id data r pool' : PipePool.write pool id data = Done (r, pool') -> pool_step pool pool'
  | ps_fork t r pool' : FdTable.fork_copy t pool = (r, pool') -> pool_step pool pool'.

(** A descriptor table alone: pipe ends, offsets. *)
Inductive table_step {D} `{BlockDevice D} (v : Vfs.Vfs D) (t : FdTable.FdTable) : FdTable.FdTable -> Prop :=
  | ts_pipe_read id r t' : FdTable.open_pipe_read t id = Done (r, t') -> table_step v t t'
  | ts_pipe_write id r t' : FdTable.open_pipe_write t id = Done (r, t') -> table_step v t t'
  | ts_seek fd off r t' : FdTable.set_offset t fd off = Done (r, t') -> table_step v t t'
  | ts_dir fd off r t' : FdTable.update_directory_offset t fd off = Done (r, t') -> table_step v t t'
  | ts_read fd buf r t' : Vfs.read v t fd buf = Done (r, t') -> table_step v t t'.

(** A table with the pipes. *)
Inductive ends_step (t : FdTable.FdTable) (pool : list Pipe.Pipe) : FdTable.FdTable -> list Pipe.Pipe -> Prop :=
  | es_close fd r t' pool' : FdTable.close t pool fd = Done (r, t', pool') -> ends_step t pool t' pool'
  | es_dup2 oldfd newfd r t' pool' : FdTable.dup2 t pool oldfd newfd = Done (r, t', pool') -> ends_step t pool t' pool'.

Section Steps.
Context {D : Type} {BD : BlockDevice D}.
Context (to_lowercase : string -> string).
Context {V : Type} {SP : Spaces V}.
Context {N : Type} {DR : Net.Driver N}.

Notation Kernel := (Kernel.Kernel (D := D) (V := V) (N := N)).
Notation sys T := (stm Kernel stop T).

(** The files, by a process. *)
Inductive file_step (p : Process.Process) (v : Vfs.Vfs D) : Vfs.Vfs D -> Prop :=
  | fs_unlink path : file_step p v (snd (Vfs.unlink_path v path))
  | fs_chmod path mode m :
      Vfs.stat_path to_lowercase v path = Done (Ok m) -> Process.uid p = 0 \/ Process.uid p = Perm.uid m ->
      mode <= 0x1FF -> file_step p v (snd (Vfs.chmod_path v path mode))
  | fs_chown path u g : Process.uid p = 0 -> file_step p v (snd (Vfs.chown_path v path u g))
  | fs_mkdir parent name r g : Mount.tmpfs_mkdir (Vfs.tmpfs v) parent name = Done (r, g) ->
      file_step p v (Vfs.with_tmpfs v g)
  | fs_rmdir parent name r g : Mount.tmpfs_rmdir (Vfs.tmpfs v) parent name = (r, g) ->
      file_step p v (Vfs.with_tmpfs v g)
  | fs_rename op on np nn r g : Mount.tmpfs_rename (Vfs.tmpfs v) op on np nn = (r, g) ->
      file_step p v (Vfs.with_tmpfs v g).

(** Open and write, which change the table and the files. *)
Inductive open_step (p : Process.Process) (v : Vfs.Vfs D) : FdTable.FdTable -> Vfs.Vfs D -> Prop :=
  | os_open path flags r t v' :
      Vfs.open_path_with_flags to_lowercase v (Process.fd_table p) path flags (Process.uid p) (Process.gid p)
      = Done (r, (t, v')) -> open_step p v t v'
  | os_write fd data r t v' : Vfs.write v (Process.fd_table p) fd data = Done (r, (t, v')) -> open_step p v t v'.

(** Everything the theorems look at is as it was: memory, network, counters
    and page tables may differ. *)
Definition silent (k k' : Kernel) : Prop :=
  sched k' = sched k /\ pipes k' = pipes k /\ vfs k' = vfs k /\ console k' = console k.

Definition set_table (k : Kernel) (t : FdTable.FdTable) : Kernel :=
  with_sched k (Scheduler.update_current (sched k) (fun p => Process.with_fd_table p t)).

Inductive kstep (k : Kernel) : Kernel -> Prop :=
  | ks_silent k' : silent k k' -> kstep k k'
  | ks_console c : console_step (console k) c -> kstep k (with_console k c)
  | ks_pool pool : pool_step (pipes k) pool -> kstep k (with_pipes k pool)
  | ks_table p t : Scheduler.current (sched k) = Some p -> table_step (vfs k) (Process.fd_table p) t ->
      kstep k (set_table k t)
  | ks_ends p t pool : Scheduler.current (sched k) = Some p -> ends_step (Process.fd_table p) (pipes k) t pool ->
      kstep k (with_pipes (set_table k t) pool)
  | ks_open p t v : Scheduler.current (sched k) = Some p -> open_step p (vfs k) t v ->
      kstep k (with_vfs (set_table k t) v)
  | ks_files p v : Scheduler.current (sched k) = Some p -> file_step p (vfs k) v -> kstep k (with_vfs k v)
  | ks_own f : own f -> (forall p, Process.fd_table (f p) = Process.fd_table p) ->
      kstep k (with_sched k (Scheduler.update_current (sched k) f))
  | ks_setuid p u : Scheduler.current (sched k) = Some p -> Process.uid p = 0 -> u = 0 \/ u = 1000 ->
      kstep k (with_sched k (Scheduler.update_current (sched k) (fun p => Process.with_uid p u)))
  | ks_setgid p g : Scheduler.current (sched k) = Some p -> Process.uid p = 0 -> g = 0 \/ g = 1000 ->
      kstep k (with_sched k (Scheduler.update_current (sched k) (fun p => Process.with_gid p g)))
  | ks_exit f : ends f -> kstep k (with_sched k (Scheduler.update_current (sched k) f))
  | ks_wake child : kstep k (with_sched k (Scheduler.wake_waiters_for_child (sched k) child))
  | ks_signal group sig : kstep k (with_sched k (snd (Scheduler.signal_process_group (sched k) group sig)))
  | ks_reap p : Scheduler.current (sched k) = Some p ->
      kstep k (with_sched k (snd (Scheduler.find_zombie_child (sched k) (Process.pid p))))
  | ks_fork p child s : Scheduler.current (sched k) = Some p -> forked p child ->
      Scheduler.add_process (sched k) child = Done s -> kstep k (with_sched k s).

(** The processor given away. *)
Definition switched (k k' : Kernel) : Prop :=
  sched k' = snd (Scheduler.schedule_next (sched k)) /\ pipes k' = pipes k /\ vfs k' = vfs k /\ console k' = console k.

(** Steps, then possibly a switch: the flag tells. *)
Inductive trace : bool -> Kernel -> Kernel -> Prop :=
  | tr_end k : trace false k k
  | tr_step b k k1 k2 : kstep k k1 -> trace b k1 k2 -> trace b k k2
  | tr_switch k k' : switched k k' -> trace true k k'.

(** The computation does not come back to its caller. *)
Definition gone {T} (r : result T stop) : bool :=
  match r with Err (Switched | Waiting | Halted) => true | _ => false end.

(** A computation started in [k] makes steps, and does not come back when it
    gives the processor away. *)
Definition stays {T} (k : Kernel) (m : sys T) : Prop := forall r k', m k = Done (r, k') ->
  exists b, trace b k k' /\ (b = true -> gone r = true).

(** Nobody can run. *)
Definition idle (k : Kernel) : Prop :=
  Scheduler.current (sched k) = None
  /\ forall i p, Scheduler.ready_queue (sched k) !! i = Some p -> Scheduler.skipped p = true.

(** The same, but it may come back when nobody can run. *)
Definition runs {T} (k : Kernel) (m : sys T) : Prop := forall r k', m k = Done (r, k') ->
  exists b, trace b k k' /\ (b = true -> gone r = true \/ idle k').

(** ** Rules *)

Lemma trace_app b k k1 k2 : trace false k k1 -> trace b k1 k2 -> trace b k k2.
Proof.
  intros H1. remember false as f eqn:E. induction H1; [auto|subst; intros; eapply tr_step; eauto|discriminate].
Qed.

Lemma trace_one k k' : kstep k k' -> trace false k k'.
Proof. intros. eapply tr_step; [eassumption|apply tr_end]. Qed.

Lemma silent_refl k : silent k k.
Proof. repeat split. Qed.

(** Steps without a switch. *)
Lemma stays_trace {T} k (m : sys T) : (forall r k', m k = Done (r, k') -> trace false k k') -> stays k m.
Proof. intros Hm r k' E. exists false. split; [eauto|discriminate]. Qed.

Lemma stays_ret {T} k (t : T) : stays k (sret t).
Proof. apply stays_trace. intros r k' [= _ <-]. apply tr_end. Qed.

Lemma stays_fail {T} k e : stays k (sfail e : sys T).
Proof. apply stays_trace. intros r k' [= _ <-]. apply tr_end. Qed.

Lemma stays_panic {T} k : stays k (spanic : sys T).
Proof. intros r k' E. discriminate E. Qed.

(** Steps, then a computation that stays. *)
Lemma stays_after {T} k k1 (m : sys T) r k' : trace false k k1 -> stays k1 m -> m k1 = Done (r, k') ->
  exists b, trace b k k' /\ (b = true -> gone r = true).
Proof. intros Hs Hm E. destruct (Hm _ _ E) as (b & Hb & Hr). eauto using trace_app. Qed.

Lemma stays_bind {T U} k (m : sys T) (f : T -> sys U) :
  stays k m -> (forall a k1, m k = Done (Ok a, k1) -> stays k1 (f a)) -> stays k (sbind m f).
Proof.
  intros Hm Hf r k'. unfold sbind. destruct (m k) as [[[a|e] k1]|] eqn:E; [| |discriminate].
  - intros E2. destruct (Hm _ _ E) as ([|] & Ht & Hg); [now specialize (Hg eq_refl)|].
    eapply stays_after; [exact Ht|apply Hf; reflexivity|exact E2].
  - intros [= <- <-]. apply (Hm _ _ E).
Qed.

(** One step. *)
Lemma stays_step {T} k (m : sys T) : (forall r k', m k = Done (r, k') -> kstep k k') -> stays k m.
Proof. intros Hm. apply stays_trace. intros r k' E. apply trace_one. eauto. Qed.

(** A computation that changes nothing. *)
Notation pure m := (leads (E := stop) (@eq Kernel) m).

Lemma stays_bind_pure {T U} k (m : sys T) (f : T -> sys U) :
  pure m -> (forall a, m k = Done (Ok a, k) -> stays k (f a)) -> stays k (sbind m f).
Proof.
  intros Hm Hf. apply stays_bind.
  - apply stays_step. intros r k' E. rewrite <- (Hm _ _ _ E). apply ks_silent, silent_refl.
  - intros a k1 E. pose proof (Hm _ _ _ E) as <-. now apply Hf.
Qed.

Lemma stays_runs {T} k (m : sys T) : stays k m -> runs k m.
Proof. intros Hm r k' E. destruct (Hm _ _ E) as (b & Hb & Hg). eauto. Qed.

Lemma pure_try {T} (r : result T ErrorCode) : pure (try r).
Proof. now intros k r' k' [= _ <-]. Qed.
Lemma pure_try_out {T} (m : outcome (result T ErrorCode)) : pure (try_out m).
Proof. intros k r k'. unfold try_out. destruct m; cbn; [now intros [= _ <-]|discriminate]. Qed.
Lemma pure_current : pure current_process.
Proof. intros k r k'. unfold current_process. case_match; now intros [= _ <-]. Qed.
Lemma pure_context : pure current_context.
Proof. intros k r k'. unfold current_context. repeat case_match; try discriminate; now intros [= _ <-]. Qed.
#[local] Hint Resolve pure_try pure_try_out pure_current pure_context : panda.

Lemma pure_add64 a b : pure (add64 a b).
Proof. unfold add64. leads_walk. Qed.
Lemma pure_fd_kind fd : pure (fd_kind fd).
Proof. unfold fd_kind. leads_walk. Qed.
Lemma pure_stat_path path : pure (stat_path to_lowercase path).
Proof. unfold stat_path. leads_walk. Qed.
Lemma pure_open_directory kind : pure (open_directory to_lowercase kind).
Proof. unfold open_directory. leads_walk. Qed.
Lemma pure_search_path path dirs : pure (search_path to_lowercase dirs path).
Proof.
  induction dirs as [|dir rest IH]; cbn [search_path]; [apply leads_fail, _|]. case_match; [assumption|].
  intros k r k' (x & _ & E)%bind_Done. destruct x; [now injection E as _ <-|exact (IH _ _ _ E)].
Qed.

#[local] Hint Resolve pure_add64 pure_fd_kind pure_stat_path pure_open_directory pure_search_path : panda.

Lemma pure_program path : pure (resolve_program to_lowercase path).
Proof. unfold resolve_program. leads_walk. Qed.

#[local] Hint Resolve pure_program : panda.

Lemma current_Some (k : Kernel) p k' : current_process k = Done (Ok p, k') -> Scheduler.current (sched k) = Some p.
Proof. unfold current_process. case_match; now intros [= -> _]. Qed.

(** ** Building blocks *)

Lemma stays_silent {T} k (m : sys T) : (forall r k', m k = Done (r, k') -> silent k k') -> stays k m.
Proof. intros Hm. apply stays_step. intros r k' E. apply ks_silent. eauto. Qed.

Lemma silent_trans k k1 k2 : silent k k1 -> silent k1 k2 -> silent k k2.
Proof. intros (A & B & C & E) (A' & B' & C' & E'). repeat split; congruence. Qed.

Lemma store_silent (k : Kernel) a bytes k' : store k a bytes = Done k' -> silent k k'.
Proof. cbn. intros (v & _ & [= <-])%bind_Done. repeat split. Qed.

#[local] Instance silent_preorder : PreOrder silent.
Proof. split; [exact silent_refl|exact silent_trans]. Qed.

Lemma fetch_silent (k : Kernel) a b k' : fetch k a = Done (b, k') -> silent k k'.
Proof. cbn. intros ([b1 v] & _ & [= _ <-])%bind_Done. repeat split. Qed.

Lemma try_stm_leads {T} R (m : stm Kernel ErrorCode T) : leads R m -> leads R (try_stm m).
Proof. intros Hm k r k' ([r1 k1] & E & [= _ <-])%bind_Done. exact (Hm _ _ _ E). Qed.

Lemma cstr_silent ptr n : leads silent (user_cstr ptr n).
Proof. apply try_stm_leads, (copy_user_cstr_leads silent fetch_silent). Qed.

Lemma stays_leads {T} k (m : sys T) : leads silent m -> stays k m.
Proof. intros Hm. apply stays_silent. intros r k' E. exact (Hm _ _ _ E). Qed.

Lemma stays_cstr k ptr n : stays k (user_cstr ptr n).
Proof. apply stays_leads, cstr_silent. Qed.
Lemma stays_bytes k ptr len n : stays k (user_bytes ptr len n).
Proof. apply stays_leads, try_stm_leads, (copy_user_bytes_leads silent fetch_silent). Qed.
Lemma stays_fetch k a n : stays k (fetch_bytes a n).
Proof. apply stays_leads, (fetch_bytes_leads silent fetch_silent). Qed.
Lemma stays_argv k ptr : stays k (try_stm (ExecStack.parse_argv ptr)).
Proof. apply stays_leads, try_stm_leads, (ExecStack.parse_argv_leads silent fetch_silent). Qed.
Lemma stays_envp k ptr : stays k (try_stm (ExecStack.parse_envp ptr)).
Proof. apply stays_leads, try_stm_leads, (ExecStack.parse_envp_leads silent fetch_silent). Qed.

Lemma resolved_silent ptr n : leads silent (resolved ptr n).
Proof.
  assert (forall T (m : sys T), pure m -> leads silent m) as Hp
    by (intros T m Hm k r k' E; rewrite (Hm _ _ _ E); apply silent_refl).
  pose proof (cstr_silent ptr n). pose proof (Hp _ _ pure_current). pose proof (fun T r => Hp T _ (pure_try r)).
  unfold resolved. leads_walk.
Qed.

Lemma stays_resolved k ptr n : stays k (resolved ptr n).
Proof. apply stays_leads, resolved_silent. Qed.

#[local] Hint Resolve stays_cstr stays_bytes stays_fetch stays_argv stays_envp stays_resolved : panda.

Lemma stays_copy_out k ptr src : stays k (copy_out ptr src).
Proof.
  apply stays_silent. intros r k' E. unfold copy_out, try_stm in E. apply bind_Done in E as ([r1 k1] & E & [= <- <-]).
  unfold copy_to_user_bytes in E. repeat case_match; try (injection E as <- <-; apply silent_refl).
  apply bind_Done in E as (k2 & E & [= <- <-]). eapply store_silent, E.
Qed.

Lemma stays_on_vm {T} k (f : V -> outcome (result T string * V)) e : stays k (on_vm f e).
Proof.
  apply stays_silent. intros r k' E. apply bind_Done in E as ([r1 v] & _ & [= _ <-]). repeat split.
Qed.

Lemma stays_on_network {T} k (f : Net.Net -> outcome (result T string * Net.Net)) e : stays k (on_network f e).
Proof.
  apply stays_silent. intros r k' E. apply bind_Done in E as ([r1 v] & _ & [= _ <-]). repeat split.
Qed.

Lemma stays_store_at k a bytes : stays k (store_at a bytes).
Proof. apply stays_silent. intros r k' (k1 & E & [= _ <-])%bind_Done. eapply store_silent, E. Qed.

Lemma stays_modify k f : (forall k, silent k (f k)) -> stays k (smodify f).
Proof. intros Hf. apply stays_silent. intros r k' [= _ <-]. apply Hf. Qed.

Lemma stays_own k f : own f -> (forall p, Process.fd_table (f p) = Process.fd_table p) -> stays k (update_process f).
Proof. intros Hf Ht. apply stays_step. intros r k' [= _ <-]. now apply ks_own. Qed.

Lemma stays_on_table {T} k (f : FdTable.FdTable -> outcome (result T ErrorCode * FdTable.FdTable)) :
  (forall t r t', f t = Done (r, t') -> table_step (vfs k) t t') -> stays k (on_table f).
Proof.
  intros Hf. apply stays_bind_pure; [auto with panda|]. intros p Hp%current_Some.
  apply stays_step. intros r k' ([r1 t] & E & [= _ <-])%bind_Done. eapply ks_table; eauto.
Qed.

Lemma stays_on_pipes {T} k (f : FdTable.FdTable -> list Pipe.Pipe
      -> outcome (result T ErrorCode * FdTable.FdTable * list Pipe.Pipe)) :
  (forall t pool r t' pool', f t pool = Done (r, t', pool') -> ends_step t pool t' pool') -> stays k (on_pipes f).
Proof.
  intros Hf. apply stays_bind_pure; [auto with panda|]. intros p Hp%current_Some.
  apply stays_step. intros r k' ([[r1 t] pool] & E & [= _ <-])%bind_Done. eapply ks_ends; eauto.
Qed.

Lemma stays_on_files {T} k (f : Vfs.Vfs D -> FdTable.FdTable
      -> outcome (result T ErrorCode * (FdTable.FdTable * Vfs.Vfs D))) :
  (forall p r t v, Scheduler.current (sched k) = Some p -> f (vfs k) (Process.fd_table p) = Done (r, (t, v)) ->
   open_step p (vfs k) t v) ->
  stays k (on_files f).
Proof.
  intros Hf. apply stays_bind_pure; [auto with panda|]. intros p Hp%current_Some.
  apply stays_step. intros r k' ([r1 [t v]] & E & [= _ <-])%bind_Done. eapply ks_open; eauto.
Qed.

Lemma stays_on_vfs {T} k p (f : Vfs.Vfs D -> result T ErrorCode * Vfs.Vfs D) :
  Scheduler.current (sched k) = Some p -> file_step p (vfs k) (snd (f (vfs k))) -> stays k (on_vfs f).
Proof.
  intros Hp Hf. apply stays_step. intros r k'. unfold on_vfs. destruct (f (vfs k)) as [r1 v].
  intros [= _ <-]. eapply ks_files; eauto.
Qed.

Lemma stays_on_tmpfs {T} k p (f : option TmpFs.TmpFs -> outcome (result T ErrorCode * option TmpFs.TmpFs)) :
  Scheduler.current (sched k) = Some p ->
  (forall r g, f (Vfs.tmpfs (vfs k)) = Done (r, g) -> file_step p (vfs k) (Vfs.with_tmpfs (vfs k) g)) ->
  stays k (on_tmpfs f).
Proof.
  intros Hp Hf. apply stays_step. intros r k' ([r1 g] & E & [= _ <-])%bind_Done. eapply ks_files; eauto.
Qed.

Lemma stays_signal_group k group sig : stays k (signal_group group sig).
Proof. apply stays_step. intros r k' [= _ <-]. apply ks_signal. Qed.

Lemma stays_for_range n (body : nat -> sys unit) : forall i k,
  (forall j k, stays k (body j)) -> stays k (for_range i n body).
Proof.
  induction n as [|n IH]; intros i k Hb; cbn [for_range]; [apply stays_ret|].
  apply stays_bind; [apply Hb|]. auto.
Qed.

(** Giving the processor away: [Ok] means that there was nobody to give it to. *)
Lemma yield_trace k r k' : yield_handler k = Done (r, k') ->
  trace true k k' /\ (gone r = true \/ r = Ok tt /\ idle k').
Proof.
  unfold yield_handler, sbind, update_process, smodify.
  set (f := fun p => Process.with_context p _). set (k1 := with_sched k _).
  assert (kstep k k1) as H1 by (apply ks_own; [intros p; repeat split|reflexivity]).
  pose proof (Scheduler.schedule_next_spec (sched k1)) as Hs.
  destruct (Scheduler.schedule_next (sched k1)) as [next s] eqn:E.
  assert (forall k2, sched k2 = s -> pipes k2 = pipes k1 -> vfs k2 = vfs k1 -> console k2 = console k1 -> trace true k k2) as Ht.
  { intros k2 ? ? ? ?. eapply tr_step; [exact H1|]. apply tr_switch. unfold switched. rewrite E. auto. }
  destruct next as [p|].
  - intros (n & _ & [= <- <-])%bind_Done. split; [now apply Ht|now left].
  - intros [= <- <-]. split; [now apply Ht|]. right. split; [reflexivity|].
    destruct Hs as [[Hq Hs]|(i & p & _ & _ & _ & Hs)]; [|discriminate]. injection Hs as ->. split; [reflexivity|exact Hq].
Qed.

(** ** The handlers *)

#[local] Hint Resolve stays_copy_out stays_on_vm stays_on_network stays_store_at stays_signal_group : panda.

(** Walks down a handler: known parts, sequencing, case distinctions. *)
Ltac walk :=
  repeat first
    [ apply stays_ret | apply stays_fail | apply stays_panic | solve [auto with panda]
    | match goal with |- stays _ (sbind _ _) => apply stays_bind_pure; [solve [leads_walk]|intros ? ?] end
    | match goal with |- stays _ (sbind _ _) => apply stays_bind; [|intros ? ? ?] end
    | match goal with
      | |- stays _ (if ?c then _ else _) => destruct c eqn:?
      | |- stays _ (match ?x with _ => _ end) => destruct x eqn:?
      | |- stays _ (let (_, _) := ?x in _) => destruct x eqn:?
      end ].

Ltac own := apply stays_own; [intros ?; repeat split|reflexivity].

Lemma stays_yield_panic {T} k : stays k (let% _ := yield_handler in spanic : sys T).
Proof.
  intros r k'. unfold sbind. destruct (yield_handler k) as [[[[]|e] k1]|] eqn:E; [discriminate| |discriminate].
  intros [= <- <-]. destruct (yield_trace _ _ _ E) as [Ht [Hg|[? _]]]; [|discriminate]. exists true. split; [exact Ht|].
  intros _. now destruct e.
Qed.

Lemma stays_pipe_read k id buf : stays k (pipe_read id buf).
Proof.
  intros r k'. unfold pipe_read. intros ([[r1 buf1] pool] & E & Hk)%bind_Done.
  assert (trace false k (with_pipes k pool)) as Hs by (eapply trace_one, ks_pool, ps_read, E).
  destruct r1 as [n|[]]; try (eapply (stays_after _ _ (sret _)); [exact Hs|apply stays_ret|exact Hk]);
    try (eapply (stays_after _ _ (errno _)); [exact Hs|apply stays_fail|exact Hk]).
  eapply stays_after; [exact Hs|apply stays_yield_panic|exact Hk].
Qed.

Lemma stays_pipe_write k id data : stays k (pipe_write id data).
Proof.
  intros r k'. unfold pipe_write. intros ([r1 pool] & E & Hk)%bind_Done.
  assert (trace false k (with_pipes k pool)) as Hs by (eapply trace_one, ks_pool, ps_write, E).
  destruct r1 as [n|[]]; try (eapply (stays_after _ _ (sret _)); [exact Hs|apply stays_ret|exact Hk]);
    try (eapply (stays_after _ _ (errno _)); [exact Hs|apply stays_fail|exact Hk]).
  eapply stays_after; [exact Hs|apply stays_yield_panic|exact Hk].
Qed.

Lemma stays_fd_read k fd buf : stays k (fd_read fd buf).
Proof.
  unfold fd_read. apply stays_bind_pure; [leads_walk|]. intros v [= <-]. apply stays_on_table.
  intros t r t' E. eapply ts_read, E.
Qed.

Lemma stays_fd_write k fd data : stays k (fd_write fd data).
Proof. apply stays_on_files. intros p r t v _ E. eapply os_write, E. Qed.

#[local] Hint Resolve stays_pipe_read stays_pipe_write stays_fd_read stays_fd_write : panda.

Lemma stays_open k path flags : stays k (open_handler to_lowercase path flags).
Proof.
  unfold open_handler. walk. apply stays_on_files. intros p r t v Hp E.
  apply current_Some in H. rewrite H in Hp. injection Hp as <-. eapply os_open, E.
Qed.

Lemma stays_read k fd buf count : stays k (read_handler fd buf count).
Proof. unfold read_handler. walk. Qed.

Lemma stays_write k fd buf count : stays k (write_handler fd buf count).
Proof. unfold write_handler. walk. Qed.

#[local] Hint Resolve stays_open stays_read stays_write : panda.

Lemma stays_close k fd : stays k (close_handler fd).
Proof. unfold close_handler. walk. apply stays_on_pipes. intros t pool r t' pool' E. eapply es_close, E. Qed.

Lemma stays_dup2 k oldfd newfd : stays k (dup2_handler oldfd newfd).
Proof. unfold dup2_handler. walk. apply stays_on_pipes. intros t pool r t' pool' E. eapply es_dup2, E. Qed.

Lemma stays_stat k path buf : stays k (stat_handler to_lowercase path buf).
Proof. unfold stat_handler. walk. Qed.

Lemma stays_fstat k fd buf : stays k (fstat_handler fd buf).
Proof. unfold fstat_handler. walk. Qed.

Lemma stays_pipe k ptr : stays k (pipe_handler ptr).
Proof.
  unfold pipe_handler. apply stays_bind.
  - apply stays_step. intros r k'. destruct (PipePool.pipe_create (pipes k)) as [r1 pool] eqn:E.
    intros [= _ <-]. apply ks_pool. change pool with (snd (r1, pool)). rewrite <- E. apply ps_create.
  - intros [rd wr] k1 _. walk; apply stays_on_table; intros t r t' E; [eapply ts_pipe_read, E|eapply ts_pipe_write, E].
Qed.

Lemma stays_lseek k fd offset whence : stays k (lseek_handler fd offset whence).
Proof.
  unfold lseek_handler. apply stays_bind_pure; [leads_walk|intros p _].
  apply stays_bind_pure; [leads_walk|intros v _]. apply stays_bind_pure; [|intros off _].
  - assert (forall base, pure (if (base + offset <? - 2 ^ 63) || (2 ^ 63 <=? base + offset) then errno EINVAL
      else if base + offset <? 0 then errno EINVAL else sret (base + offset))) as Hc by (intros; leads_walk).
    leads_walk.
  - walk. apply stays_on_table. intros t r t' E. eapply ts_seek, E.
Qed.

Lemma stays_getpid k : stays k getpid_handler.
Proof. unfold getpid_handler. walk. Qed.

Lemma stays_kill k pid sig : stays k (kill_handler pid sig).
Proof. unfold kill_handler. walk. own. Qed.

Lemma stays_tty_signal k sig : stays k (tty_signal sig).
Proof. unfold tty_signal. walk. Qed.

Lemma stays_setpgid k pid pgid : stays k (setpgid_handler pid pgid).
Proof. unfold setpgid_handler. walk. own. Qed.

Lemma stays_getuid k : stays k getuid_handler.
Proof. unfold getuid_handler. walk. Qed.

Lemma stays_getgid k : stays k getgid_handler.
Proof. unfold getgid_handler. walk. Qed.

Lemma root_or_user u : negb (u =? 0) && negb (u =? 1000) = false -> u = 0 \/ u = 1000.
Proof. intros [H%negb_false_iff%Z.eqb_eq|H%negb_false_iff%Z.eqb_eq]%andb_false_iff; auto. Qed.

Lemma stays_setuid k u : stays k (setuid_handler u).
Proof.
  unfold setuid_handler. walk. apply stays_step. intros r k' [= _ <-].
  eapply ks_setuid; [eapply current_Some; eassumption|now apply Z.eqb_eq, negb_false_iff|now apply root_or_user].
Qed.

Lemma stays_setgid k g : stays k (setgid_handler g).
Proof.
  unfold setgid_handler. walk. apply stays_step. intros r k' [= _ <-].
  eapply ks_setgid; [eapply current_Some; eassumption|now apply Z.eqb_eq, negb_false_iff|now apply root_or_user].
Qed.

Lemma stays_copy_string_out k buf bytes size : stays k (copy_string_out buf bytes size).
Proof. unfold copy_string_out. walk. Qed.

#[local] Hint Resolve stays_copy_string_out : panda.

Lemma stays_getenv k name buf size : stays k (getenv_handler name buf size).
Proof. unfold getenv_handler. walk. Qed.

Lemma stays_getcwd k buf size : stays k (getcwd_handler buf size).
Proof. unfold getcwd_handler. walk. Qed.

Lemma resolved_Some (k : Kernel) ptr n p path k' :
  resolved ptr n k = Done (Ok (p, path), k') -> Scheduler.current (sched k') = Some p.
Proof.
  unfold resolved, sbind. destruct (user_cstr _ _ k) as [[[s|e] k1]|]; [|discriminate..].
  destruct (current_process k1) as [[[q|e] k2]|] eqn:E; [|discriminate..]. pose proof (pure_current _ _ _ E) as <-. unfold try.
  destruct (lift_result _); [|discriminate]. intros [= -> _ <-]. eapply current_Some, E.
Qed.

Lemma stays_chdir k ptr : stays k (chdir_handler ptr).
Proof. unfold chdir_handler. walk. own. Qed.

Lemma stays_unlink k ptr : stays k (unlink_handler ptr).
Proof. unfold unlink_handler. walk. eapply stays_on_vfs; [eapply resolved_Some; eassumption|constructor]. Qed.

Lemma stays_chmod k ptr mode : stays k (chmod_handler to_lowercase ptr mode).
Proof.
  unfold chmod_handler. walk. eapply stays_on_vfs; [eapply resolved_Some; eassumption|].
  match goal with H : stat_path _ _ _ = _ |- _ => rename H into Hst end.
  match goal with H : negb _ && negb _ = false |- _ => rename H into Hu end.
  match goal with H : (_ <? mode) = false |- _ => apply Z.ltb_ge in H end.
  eapply fs_chmod; [| |eassumption].
  - unfold stat_path, sbind, sread, try_out in Hst. apply bind_Done in Hst as ([m|e] & E & Hst); [|discriminate].
    injection Hst as ->. exact E.
  - apply andb_false_iff in Hu as [Hu|Hu]; apply negb_false_iff, Z.eqb_eq in Hu; auto.
Qed.

Lemma stays_chown k ptr u g : stays k (chown_handler ptr u g).
Proof.
  unfold chown_handler. walk. eapply stays_on_vfs; [eapply current_Some; eassumption|].
  apply fs_chown. now apply Z.eqb_eq, negb_false_iff.
Qed.

Lemma stays_mkdir k ptr : stays k (mkdir_handler ptr).
Proof.
  unfold mkdir_handler. walk. eapply stays_on_tmpfs; [eapply resolved_Some; eassumption|].
  intros r g E. eapply fs_mkdir, E.
Qed.

Lemma stays_rmdir k ptr : stays k (rmdir_handler ptr).
Proof.
  unfold rmdir_handler. walk. eapply stays_on_tmpfs; [eapply resolved_Some; eassumption|].
  intros r g E. eapply fs_rmdir. injection E. eauto.
Qed.

Lemma stays_rename k old new : stays k (rename_handler old new).
Proof.
  unfold rename_handler. walk. eapply stays_on_tmpfs; [eapply current_Some; eassumption|].
  intros r g E. eapply fs_rename. injection E. eauto.
Qed.

Lemma stays_getdents64 k fd buf count : stays k (getdents64_handler to_lowercase fd buf count).
Proof. unfold getdents64_handler. walk. apply stays_on_table. intros t r t' E. eapply ts_dir, E. Qed.

Lemma stays_fork k : stays k fork_handler.
Proof.
  unfold fork_handler. apply stays_bind_pure; [leads_walk|intros p Hp%current_Some].
  apply stays_bind_pure; [leads_walk|intros child_pid _]. apply stays_bind_pure; [leads_walk|intros next _].
  apply stays_bind; [apply stays_modify; repeat split|intros [] k1 [= <-]].
  apply stays_bind; [apply stays_on_vm|intros pt k2 ([r1 v] & _ & [= _ <-])%bind_Done].
  apply stays_bind.
  { apply stays_step. intros r k'. unfold Process.fork_from.
    destruct (FdTable.fork_copy _ _) as [r2 pool] eqn:E. intros [= _ <-]. eapply ks_pool, ps_fork, E. }
  intros child k3. destruct (Process.fork_from p _ _ _ _) as [[c|e] pool] eqn:Ef; [|discriminate]. intros [= <- <-].
  apply stays_bind; [own|intros [] k4 [= <-]]. apply stays_bind; [|intros; apply stays_ret].
  apply stays_step. intros r k' (s & Ha & [= _ <-])%bind_Done. eapply ks_fork; [|exists p; eauto 10|exact Ha].
  cbn [sched with_sched with_pipes with_vm with_fork_pid Scheduler.update_current Scheduler.current]. now rewrite Hp.
Qed.

Lemma stays_map_zeroed k pt a flags : stays k (map_zeroed pt a flags).
Proof. unfold map_zeroed. walk. apply stays_silent. intros r k' (k2 & E & [= _ <-])%bind_Done. eapply store_silent, E. Qed.

#[local] Hint Resolve stays_map_zeroed stays_for_range : panda.

Lemma stays_brk k addr : stays k (brk_handler addr).
Proof.
  unfold brk_handler. walk; try own. apply stays_for_range. intros j k1.
  apply stays_silent. intros r k' (v & _ & [= _ <-])%bind_Done. repeat split.
Qed.

Lemma stays_mmap k addr len prot flags fd : stays k (mmap_handler addr len prot flags fd).
Proof. unfold mmap_handler. walk; own. Qed.

Lemma stays_report_stopped k w parent ptr : stays k (report_stopped w parent ptr).
Proof. unfold report_stopped. walk. Qed.

Lemma stays_find_zombie k pid p :
  Scheduler.current (sched k) = Some p -> stays k (find_zombie pid (Process.pid p)).
Proof.
  intros Hp. unfold find_zombie, Scheduler.find_any_zombie_child.
  case_match; [|case_match; [|apply stays_fail]]; apply stays_step; intros r k'; cbn;
    destruct (Scheduler.find_zombie_child _ _) as [z s] eqn:E; intros [= _ <-];
    change s with (snd (z, s)); rewrite <- E; now apply ks_reap.
Qed.

Lemma stays_reap k child ptr : stays k (reap child ptr).
Proof. unfold reap. walk. Qed.

Lemma copy_out_silent ptr src : leads silent (copy_out ptr src).
Proof.
  intros k r k' ([r1 k1] & E & [= _ <-])%bind_Done. unfold copy_to_user_bytes in E.
  repeat case_match; try (injection E as _ <-; apply silent_refl).
  apply bind_Done in E as (k2 & E & [= _ <-]). eapply store_silent, E.
Qed.

#[local] Hint Resolve copy_out_silent : panda.

Lemma report_stopped_silent w parent ptr : leads silent (report_stopped w parent ptr).
Proof. unfold report_stopped. leads_walk. Qed.

(** What follows a switch and changes nothing that counts. *)
Lemma trace_silent k k1 k2 : trace true k k1 -> silent k1 k2 -> trace true k k2.
Proof.
  intros Ht. remember true as b eqn:Eb. induction Ht as [| |k k1 (A & B & C & E)]; [discriminate| |].
  - intros Hs. eapply tr_step; eauto.
  - intros (A' & B' & C' & E'). apply tr_switch. repeat split; congruence.
Qed.

(** Runs after steps, or after a computation that stays. *)
Lemma runs_bind {T U} k (m : sys T) (f : T -> sys U) :
  stays k m -> (forall a k1, m k = Done (Ok a, k1) -> runs k1 (f a)) -> runs k (sbind m f).
Proof.
  intros Hm Hf r k'. unfold sbind. destruct (m k) as [[[a|e] k1]|] eqn:E; [| |discriminate].
  - intros E2. destruct (Hm _ _ E) as ([|] & Ht & Hg); [now specialize (Hg eq_refl)|].
    destruct (Hf a k1 eq_refl _ _ E2) as (b & Hb & Hr). eauto using trace_app.
  - intros [= <- <-]. apply (stays_runs _ _ Hm _ _ E).
Qed.

(** A switch, then a computation that is silent when nobody runs. *)
Lemma runs_yield {T} k (m : sys T) :
  (forall k1 r k2, idle k1 -> m k1 = Done (r, k2) -> silent k1 k2) -> runs k (let% _ := yield_handler in m).
Proof.
  intros Hm r k'. unfold sbind. destruct (yield_handler k) as [[[[]|e] k1]|] eqn:E; [| |discriminate];
    destruct (yield_trace _ _ _ E) as [Ht Hg].
  - intros E2. destruct Hg as [?|[_ Hg]]; [discriminate|]. specialize (Hm _ _ _ Hg E2). exists true.
    split; [eapply trace_silent; eassumption|]. intros _. right. unfold idle. destruct Hm as [-> _]. exact Hg.
  - intros [= <- <-]. destruct Hg as [Hg|[? _]]; [|discriminate]. exists true. split; [exact Ht|]. left. now destruct e.
Qed.

Lemma runs_waitpid k pid ptr options : runs k (waitpid_handler pid ptr options).
Proof.
  unfold waitpid_handler. destruct (negb _ && negb _); [apply stays_runs, stays_fail|].
  apply runs_bind; [apply stays_trace; intros r k' <-%pure_current; apply tr_end|].
  intros p k0 E0. pose proof (pure_current _ _ _ E0) as <-. apply current_Some in E0.
  apply runs_bind; [apply stays_report_stopped|intros stopped k1 E1].
  destruct (report_stopped_silent _ _ _ _ _ _ E1) as (Hs1 & _). rewrite <- Hs1 in E0.
  destruct stopped; [apply stays_runs, stays_ret|].
  apply runs_bind; [now apply stays_find_zombie|intros [child|] k2 _]; [apply stays_runs, stays_reap|].
  apply runs_bind; [apply stays_trace; intros r k' [= _ <-]; apply tr_end|intros [] k3 _]; [|apply stays_runs, stays_fail].
  apply runs_bind; [apply stays_trace; intros r k' <-%pure_current; apply tr_end|intros q k4 _].
  apply runs_bind; [walk; own|intros [] k5 _].
  apply runs_yield. intros k6 r k7 [Hn _]. unfold sbind at 1, current_process. rewrite Hn.
  intros [= _ <-]. apply silent_refl.
Qed.

Lemma reap_pending_silent k r k' : reap_pending k = Done (r, k') -> silent k k' /\ r = Ok tt.
Proof.
  unfold reap_pending. destruct (pending_reap k) as [pt pid]. case_match.
  - intros [= <- <-]. repeat split.
  - intros ([r1 v] & _ & E)%bind_Done. destruct r1; [|discriminate]. injection E as <- <-. repeat split.
Qed.

(** After a switch a computation that is silent and stops. *)
Lemma stays_switch {T} k (m : option Process.Process -> sys T) :
  (forall o k1 r k2, m o k1 = Done (r, k2) -> silent k1 k2 /\ gone r = true) ->
  stays k (let% next := (fun k => let (next, s) := Scheduler.schedule_next (sched k) in
                                  Done (Ok next, with_sched k s)) in m next).
Proof.
  intros Hm r k'. unfold sbind. destruct (Scheduler.schedule_next (sched k)) as [next s] eqn:E.
  intros Hk. destruct (Hm _ _ _ _ Hk) as [Hs Hr]. exists true. split; [|auto].
  eapply trace_silent; [|exact Hs]. apply tr_switch. unfold switched. rewrite E. repeat split.
Qed.

Lemma stays_exit k status : stays k (exit_handler status).
Proof.
  unfold exit_handler. apply stays_bind_pure; [leads_walk|intros current _].
  apply stays_bind; [|intros [] k1 _].
  - walk.
    + apply stays_step. intros r k' [= _ <-]. apply ks_exit. exists status. case_match; auto.
    + apply stays_step. intros r k' [= _ <-]. apply ks_wake.
    + apply stays_modify. repeat split.
  - apply stays_switch. intros [p|] k2 r k3; unfold sbind, smodify, sret, sfail.
    + match goal with |- context [if ?b then _ else _] => destruct b end; [intros [= <- <-]; repeat split|].
      destruct (reap_pending _) as [[r1 k4]|] eqn:E; [|discriminate]. apply reap_pending_silent in E as [Hs ->].
      intros [= <- <-]. split; [|reflexivity]. eapply silent_trans; [|exact Hs]. repeat split.
    + destruct (reap_pending _) as [[r1 k4]|] eqn:E; [|discriminate]. apply reap_pending_silent in E as [Hs ->].
      intros [= <- <-]. split; [|reflexivity]. eapply silent_trans; [|exact Hs]. case_match; repeat split.
Qed.

Lemma stays_replace_image k cs ss info data : stays k (replace_image cs ss info data).
Proof.
  unfold replace_image. walk; [|own]. apply stays_silent.
  intros r k' (h & _ & (h' & _ & [= _ <-])%bind_Done)%bind_Done. apply silent_refl.
Qed.

#[local] Hint Resolve stays_replace_image : panda.

Lemma stays_execve k cs ss path argv envp : stays k (execve_handler to_lowercase cs ss path argv envp).
Proof.
  unfold execve_handler. walk; try own.
  - apply stays_silent. intros r k' (x & _ & [= _ <-])%bind_Done. apply silent_refl.
  - apply stays_modify. repeat split.
  - apply stays_silent. intros r k' ([r1 k4] & E & [= _ <-])%bind_Done.
    eapply (ExecStack.setup_user_stack_leads silent store_silent), E.
Qed.

(** ** The calls *)

Lemma stays_on_console {T} k (f : Console -> outcome (T * Console)) :
  (forall t c, f (console k) = Done (t, c) -> console_step (console k) c) -> stays k (on_console f).
Proof. intros Hf. apply stays_step. intros r k' ([t c] & E & [= _ <-])%bind_Done. eapply ks_console, Hf, E. Qed.

Lemma stays_tty_loop buf fuel : forall k kernel_buf, stays k (tty_loop fuel buf kernel_buf).
Proof.
  induction fuel as [|fuel IH]; intros k kernel_buf; cbn [tty_loop]; [apply stays_fail|].
  walk; try apply stays_tty_signal.
  - apply stays_on_console. intros t c ([[n b] c'] & E & [= _ <-])%bind_Done. eapply cs_read, E.
  - apply stays_on_console. intros t c E. eapply cs_byte, E.
  - apply stays_on_console. intros t c E. injection E as E. change c with (snd (t, c)). rewrite <- E. apply cs_input.
Qed.

Lemma stays_unless_ebadf {T} k (m fallback : sys T) :
  stays k m -> (forall k1, stays k1 fallback) -> stays k (unless_ebadf m fallback).
Proof.
  intros Hm Hf r k' ([r1 k1] & E & Hk)%bind_Done. destruct (Hm _ _ E) as (b & Hb & Hg).
  destruct r1 as [t|[[]| | |]]; try (injection Hk as <- <-; eauto).
  destruct b; [now specialize (Hg eq_refl)|]. eapply stays_after; [exact Hb|apply Hf|exact Hk].
Qed.

Lemma stays_sys_write k fd buf count : stays k (sys_write fd buf count).
Proof.
  unfold sys_write. case_match; [|apply stays_write]. apply stays_unless_ebadf; [apply stays_write|intros k1].
  walk. apply stays_on_console. intros t c [= _ <-]. apply cs_write.
Qed.

Lemma stays_sys_read k fd buf count : stays k (sys_read fd buf count).
Proof.
  pose proof (stays_tty_loop buf) as Ht.
  unfold sys_read. case_match; [apply stays_ret|]. case_match; [apply stays_fail|].
  case_match; [|walk]. apply stays_unless_ebadf; [apply stays_read|intros k1]. walk.
Qed.

Lemma stays_sys_open k ptr flags : stays k (sys_open to_lowercase ptr flags).
Proof. unfold sys_open. walk. Qed.

Lemma runs_sys_yield k : runs k sys_yield.
Proof. apply runs_yield. intros k1 r k2 _ [= _ <-]. apply silent_refl. Qed.

Lemma stays_sys_execve cs ss k ptr argv envp : stays k (sys_execve to_lowercase cs ss ptr argv envp).
Proof. unfold sys_execve, exec_result. walk; apply stays_execve. Qed.

Lemma stays_sys_socket k domain type_ : stays k (sys_socket domain type_).
Proof. unfold sys_socket. walk. Qed.

Lemma stays_sys_sendto k fd buf len dest addrlen : stays k (sys_sendto fd buf len dest addrlen).
Proof. unfold sys_sendto. walk. Qed.

Lemma stays_sys_recvfrom k fd buf len src addrlen : stays k (sys_recvfrom fd buf len src addrlen).
Proof. unfold sys_recvfrom. walk. Qed.

#[local] Hint Resolve stays_sys_write stays_sys_read stays_sys_open stays_sys_execve stays_sys_socket stays_sys_sendto
  stays_sys_recvfrom stays_exit stays_close stays_stat stays_fstat stays_lseek stays_brk stays_mmap stays_getpid
  stays_fork stays_pipe stays_dup2 stays_kill stays_setpgid stays_getdents64 stays_getcwd stays_chdir stays_rename
  stays_mkdir stays_rmdir stays_unlink stays_getenv stays_chmod stays_chown stays_getuid stays_getgid stays_setuid
  stays_setgid stays_fail stays_runs runs_waitpid runs_sys_yield : panda.

Lemma runs_dispatch cs ss k call a1 a2 a3 a4 a5 a6 :
  runs k (dispatch to_lowercase cs ss call a1 a2 a3 a4 a5 a6).
Proof.
  destruct call; cbn [dispatch];
    unfold sys_close, sys_stat, sys_fstat, sys_getpid, sys_fork, sys_waitpid, sys_pipe, sys_dup2, sys_kill, sys_setpgid,
      sys_getdents64, sys_getcwd, sys_chdir, sys_unlink, sys_getenv, sys_chmod, sys_chown, sys_getuid, sys_getgid, sys_setuid,
      sys_setgid, sys_lseek, sys_mkdir, sys_rmdir, sys_rename, sys_brk, sys_mmap;
    auto with panda; apply stays_runs; first [apply stays_exit|apply stays_fail].
Qed.

Lemma runs_handle_syscall cs ss k n a1 a2 a3 a4 a5 a6 :
  runs k (handle_syscall to_lowercase cs ss n a1 a2 a3 a4 a5 a6).
Proof.
  unfold handle_syscall. destruct (from_u64 n) as [call|]; [|apply stays_runs, stays_ret].
  intros r k' ([r1 k1] & E & Hk)%bind_Done. destruct (runs_dispatch _ _ _ _ _ _ _ _ _ _ _ _ E) as (b & Hb & Hg).
  destruct r1 as [v|[e| | |]]; injection Hk as <- <-; exists b; auto.
Qed.

(** ** Entering and leaving *)

(** When nobody can run, giving the processor away does nothing. *)
Lemma idle_yield k r k' : idle k -> yield_handler k = Done (r, k') -> silent k k'.
Proof.
  intros [Hn Hq]. unfold yield_handler, sbind, update_process, smodify. set (k1 := with_sched k _).
  assert (sched k1 = sched k) as Hs by (destruct k as [[q [c|] g]]; [discriminate|reflexivity]).
  destruct (Scheduler.schedule_next_spec (sched k1)) as [[_ E]|(i & p & Hi & Hp & _)].
  - rewrite E. intros [= _ <-]. repeat split.
    clear E Hs. subst k1. destruct k as [[q c g]]. cbn in Hn. subst c. reflexivity.
  - exfalso. rewrite Hs in Hi. unfold Scheduler.requeue_current in Hi. rewrite Hn in Hi. now rewrite (Hq _ _ Hi) in Hp.
Qed.

Lemma runs_preemption k : runs k check_and_handle_preemption.
Proof.
  unfold check_and_handle_preemption. intros r k'. unfold sbind at 1, sread. destruct (need_resched k).
  - intros E. unfold sbind, smodify in E. destruct (yield_trace _ _ _ E) as [Ht Hg]. exists true.
    split; [|destruct Hg as [?|[_ ?]]; auto]. eapply tr_step; [|exact Ht]. apply ks_silent. repeat split.
  - intros E. apply (stays_runs _ _ (stays_ret k tt) _ _ E).
Qed.

Lemma idle_preemption k r k' : idle k -> check_and_handle_preemption k = Done (r, k') -> silent k k'.
Proof.
  intros Hi. unfold check_and_handle_preemption, sbind at 1, sread. destruct (need_resched k).
  - unfold sbind, smodify. intros E%idle_yield; [|exact Hi]. eapply silent_trans; [|exact E]. repeat split.
  - intros [= _ <-]. apply silent_refl.
Qed.

Lemma preemption_gone (k : Kernel) (v : Z) e k' :
  (let% _ := check_and_handle_preemption in sret v) k = Done (Err e, k') -> gone (Err e : result Z stop) = true.
Proof.
  unfold check_and_handle_preemption, sbind at 1, sbind at 1, sread. destruct (need_resched k); [|discriminate].
  unfold sbind, smodify. destruct (yield_handler _) as [[[[]|e1] k1]|] eqn:E; [discriminate| |discriminate].
  intros [= <- _]. destruct (yield_trace _ _ _ E) as [_ [Hg|[? _]]]; [now destruct e1|discriminate].
Qed.

Lemma runs_handler cs ss k : runs k (syscall_handler_rust to_lowercase cs ss).
Proof.
  unfold syscall_handler_rust. apply runs_bind; [apply stays_trace; intros r k' <-%pure_context; apply tr_end|].
  intros c k1 _ r k'. unfold sbind. set (h := handle_syscall _ _ _ _ _ _ _ _ _ _).
  destruct (h k1) as [[[v|e] k2]|] eqn:E; [| |discriminate]; destruct (runs_handle_syscall _ _ _ _ _ _ _ _ _ _ _ _ E) as ([|] & Ht & Hg).
  - destruct (Hg eq_refl) as [?|Hi]; [discriminate|].
    destruct (check_and_handle_preemption k2) as [[[[]|e] k3]|] eqn:E3; [| |discriminate]; intros [= <- <-];
      pose proof (idle_preemption _ _ _ Hi E3) as Hs; exists true;
      (split; [eapply trace_silent; eassumption|right; unfold idle; now rewrite (proj1 Hs)]).
  - destruct (check_and_handle_preemption k2) as [[[[]|e] k3]|] eqn:E3; [| |discriminate]; intros [= <- <-];
      destruct (runs_preemption _ _ _ E3) as (b & Hb & Hg3); exists b; (split; [eapply trace_app; eassumption|]).
    + intros ->. destruct (Hg3 eq_refl) as [?|?]; [discriminate|auto].
    + intros ->. destruct (Hg3 eq_refl) as [?|?]; [left; now destruct e|auto].
  - intros [= <- <-]. exists true. split; [exact Ht|]. intros _. destruct (Hg eq_refl); [left; now destruct e|auto].
  - intros [= <- <-]. exists false. split; [exact Ht|discriminate].
Qed.

(** An error of the handler is an encoded value. *)
Lemma handler_gone cs ss k e k' : syscall_handler_rust to_lowercase cs ss k = Done (Err e, k') -> gone (Err e : result Z stop) = true.
Proof.
  unfold syscall_handler_rust, sbind. destruct (current_context k) as [[[c|e1] k1]|] eqn:Ec; [| |discriminate].
  2:{ unfold current_context in Ec. repeat case_match; discriminate. }
  unfold handle_syscall. destruct (from_u64 _) as [call|].
  - unfold encoded. destruct (dispatch _ _ _ _ _ _ _ _ _ _ k1) as [[[v|[e2| | |]] k2]|]; cbn;
      try (intros [= <- _]; reflexivity); try discriminate;
      intros E; exact (preemption_gone _ _ _ _ E).
  - intros E. exact (preemption_gone _ _ _ _ E).
Qed.

Lemma stays_context k f : stays k (update_context f).
Proof.
  apply stays_step. intros r k'. unfold update_context. case_match.
  - intros [= _ <-]. apply ks_own; [intros ?; repeat split|reflexivity].
  - intros [= _ <-]. apply ks_silent. repeat split.
Qed.

(** When nobody runs, only what the last process left is written. *)
Lemma idle_context k f r k' : idle k -> update_context f k = Done (r, k') -> silent k k' /\ r = Ok tt.
Proof. intros [Hn _]. unfold update_context. rewrite Hn. intros [= <- <-]. repeat split. Qed.

Lemma idle_silent k k' : idle k -> silent k k' -> idle k'.
Proof. intros Hi [Hs _]. unfold idle. now rewrite Hs. Qed.

Lemma runs_syscall_entry cs ss k regs : runs k (syscall_entry to_lowercase cs ss regs).
Proof.
  unfold syscall_entry. apply runs_bind; [apply stays_context|intros [] k1 _].
  intros r k'. unfold sbind at 1. destruct (syscall_handler_rust _ _ _ _) as [[[v|e] k2]|] eqn:E; [| |discriminate];
    destruct (runs_handler _ _ _ _ _ E) as ([|] & Ht & Hg).
  - destruct (Hg eq_refl) as [?|Hi]; [discriminate|]. unfold sbind at 1.
    destruct (update_context _ k2) as [[r3 k3]|] eqn:E3; [|discriminate].
    destruct (idle_context _ _ _ _ Hi E3) as [Hs ->]. unfold sbind.
    destruct (current_context k3) as [[r4 k4]|] eqn:E4; [|discriminate]. pose proof (pure_context _ _ _ E4) as <-.
    assert (trace true k1 k3 /\ idle k3) as [Ht3 Hi3] by eauto using trace_silent, idle_silent.
    destruct r4; intros [= <- <-]; exists true; auto.
  - intros E2. destruct (stays_after _ _ (let% _ := update_context (fun c => Process.with_rax c (wrap64 v)) in
      let% c := current_context in sret (restored c)) r k' Ht) as (b & Hb & Hr); [|exact E2|eauto].
    apply stays_bind; [apply stays_context|intros [] k3 _]. walk.
  - intros [= <- <-]. exists true. split; [exact Ht|]. intros _. left. apply handler_gone in E. now destruct e.
  - intros [= <- <-]. exists false. split; [|discriminate]. exact Ht.
Qed.

End Steps.

End Steps.
