(* ===== verification/Isolation.v ===== *)
(** * The memory of other processes

    A system call that comes back to its caller leaves the bytes of every
    address space but the caller's and those of zombies, which it may reap.
    The property is followed through the handlers: each uses the memory manager
    on the active address space, on that of the running process, on one it has
    just made or on that of a zombie it has found. *)

From S2P Require Import Prelude Abi RingBuffer Pipe FdTable Process Scheduler Path Perm TmpFs Bytes Block Utf8.
From S2P Require Import UserMem Elf Spaces ExecStack Ps2 Tty DiskFs Fat32 Mount Vfs Packets Net Kernel Dispatch Steps.
Import Abi Block Bytes UserMem Spaces Kernel Dispatch Steps.

Module Isolation.

(** The processes whose memory a call may change. *)
Definition guarded (s : Scheduler.Scheduler) (q : Process.Process) : Prop :=
  Scheduler.current s = Some q \/ q ∈ Scheduler.ready_queue s /\ Process.is_zombie q = true.

(** Their page tables are among those of before. *)
Definition covered (s s' : Scheduler.Scheduler) : Prop :=
  forall q', guarded s' q' -> exists q, guarded s q /\ Process.page_table_phys q' = Process.page_table_phys q.

Lemma covered_refl s : covered s s.
Proof. intros q Hq. eauto. Qed.

Lemma covered_update s f : (forall p, Process.page_table_phys (f p) = Process.page_table_phys p) ->
  covered s (Scheduler.update_current s f).
Proof.
  intros Hf q' [H|H]; cbn in H; [|exists q'; split; [now right|reflexivity]].
  destruct (Scheduler.current s) as [p|] eqn:E; [|discriminate]. injection H as <-. exists p. split; [now left|apply Hf].
Qed.

(** A change of every process. *)
Lemma covered_map q c g g' (f : Process.Process -> Process.Process) :
  (forall p, Process.page_table_phys (f p) = Process.page_table_phys p /\ Process.is_zombie (f p) = Process.is_zombie p) ->
  covered (Scheduler.mkSched q c g) (Scheduler.mkSched (f <$> q) (f <$> c) g').
Proof.
  intros Hf p' [H|[H Hz]]; cbn in H.
  - destruct c as [p|]; [|discriminate]. injection H as <-. exists p. split; [now left|apply Hf].
  - apply list_elem_of_fmap in H as (p & -> & H). exists p. split; [right; split; [exact H|]|apply Hf].
    now rewrite <- (proj2 (Hf p)).
Qed.

Lemma covered_wake s child : covered s (Scheduler.wake_waiters_for_child s child).
Proof. destruct s. apply covered_map. intros p. unfold Scheduler.wake_if. now case_match. Qed.

Lemma covered_signal s group sig : covered s (snd (Scheduler.signal_process_group s group sig)).
Proof. destruct s. apply covered_map. intros p. unfold Scheduler.signal_if. now case_match. Qed.

Lemma covered_add s p s' : Scheduler.add_process s p = Done s' -> covered s s'.
Proof.
  intros (u & _ & [= <-])%bind_Done q [H|[H Hz]]; cbn in H; [exists q; split; [now left|reflexivity]|].
  apply elem_of_app in H as [H|H%list_elem_of_singleton]; [exists q; split; [now right|reflexivity]|]. subst q. discriminate Hz.
Qed.

(** A zombie that is taken out was there. *)
Lemma zombie_covered s parent : let (z, s') := Scheduler.find_zombie_child s parent in
  covered s s' /\ forall p, z = Some p -> guarded s p.
Proof.
  assert (forall s2, Scheduler.current s2 = Scheduler.current s \/ Scheduler.current s2 = None ->
    (forall p, p ∈ Scheduler.ready_queue s2 -> p ∈ Scheduler.ready_queue s) -> covered s s2) as Hc.
  { intros s2 Hs Hq q [H|[H Hz]]; exists q; (split; [|reflexivity]); [left|right; auto]. destruct Hs; congruence. }
  assert (let (z, q') := Scheduler.take_first (Scheduler.zombie_child_of parent) (Scheduler.ready_queue s) in
    (forall p, p ∈ q' -> p ∈ Scheduler.ready_queue s) /\ forall p, z = Some p -> guarded s p) as Ht.
  { pose proof (Scheduler.take_first_spec (Scheduler.zombie_child_of parent) (Scheduler.ready_queue s)) as Hs.
    destruct (Scheduler.take_first _ _) as [[z|] q']; [|destruct Hs as [-> _]; split; [auto|discriminate]].
    destruct Hs as [Hz Hq]. split; [intros p Hp; rewrite <- Hq; now right|]. intros p [= <-].
    right. split; [rewrite <- Hq; left|]. now apply andb_true_iff in Hz. }
  unfold Scheduler.find_zombie_child. destruct (Scheduler.current s) as [c|] eqn:E; [destruct (Scheduler.zombie_child_of parent c)|].
  - split; [apply Hc; auto|]. intros p [= <-]. now left.
  - destruct (Scheduler.take_first _ _) as [z q']. destruct Ht as [H1 H2]. split; [apply Hc; [left; cbn; congruence|exact H1]|exact H2].
  - destruct (Scheduler.take_first _ _) as [z q']. destruct Ht as [H1 H2]. split; [apply Hc; [left; cbn; congruence|exact H1]|exact H2].
Qed.

(** Nobody to run: the process that ran is no zombie in the queue. *)
Lemma covered_idle s s' : Scheduler.schedule_next s = (None, s') -> covered s s'.
Proof.
  destruct (Scheduler.schedule_next_spec s) as [[_ ->]|(i & p & _ & _ & _ & ->)]; [|discriminate]. intros [= <-] q [H|[H Hz]]; [discriminate|].
  cbn [Scheduler.ready_queue] in H. unfold Scheduler.requeue_current in H. destruct (Scheduler.current s) as [c|] eqn:E;
    [|exists q; split; [now right|reflexivity]].
  destruct (Process.is_exited c); [exists q; split; [now right|reflexivity]|].
  destruct (Process.deliver_signals c) as [[] c']; cbn in H; try (exists q; split; [now right|reflexivity]).
  all: try (apply elem_of_app in H as [H|H%list_elem_of_singleton]; [exists q; split; [now right|reflexivity]|subst q; discriminate Hz]).
  apply list_elem_of_fmap in H as (p & -> & H). unfold Scheduler.wake_if in *.
  apply elem_of_app in H as [H|H%list_elem_of_singleton]; [exists p; split; [right|]|subst p].
  - split; [exact H|]. revert Hz. now case_match.
  - now case_match.
  - revert Hz. case_match; discriminate.
Qed.

Section Isolation.
Context {D : Type} {BD : BlockDevice D}.
Context (to_lowercase : string -> string).
Context {V : Type} {SP : Spaces V}.
Context {N : Type} {DR : Net.Driver N}.

Notation Kernel := (Kernel.Kernel (D := D) (V := V) (N := N)).
Notation sys T := (stm Kernel stop T).
Notation pure m := (leads (E := stop) (@eq Kernel) m).

Section Foreign.
Context {AP : Apart V} (r : Z).

(** The address space [r] exists, is not active, and is neither that of the
    running process nor that of a zombie. *)
Definition foreign (k : Kernel) : Prop :=
  made (vm k) r /\ cr3 k <> r /\ forall p, guarded (sched k) p -> Process.page_table_phys p <> r.

Definition kept (k k' : Kernel) : Prop := foreign k' /\ unchanged (vm k) (vm k') r.

(** A computation that leaves it, unless it gives the processor away. *)
Definition calm {T} (k : Kernel) (m : sys T) : Prop :=
  foreign k -> forall x k', m k = Done (x, k') -> gone x = false -> kept k k'.

(** ** Rules *)

Lemma kept_refl k : foreign k -> kept k k.
Proof. intros H. split; [exact H|now intros a]. Qed.

Lemma kept_trans k k1 k2 : kept k k1 -> kept k1 k2 -> kept k k2.
Proof. intros [_ H1] [F H2]. split; [exact F|]. intros a. now rewrite H2. Qed.

(** The memory and the active address space stay. *)
Lemma kept_still k k' : foreign k -> vm k' = vm k -> cr3 k' = cr3 k -> covered (sched k) (sched k') -> kept k k'.
Proof.
  intros (Hm & Hc & Hg) Ev Ec Hs. split; [|rewrite Ev; now intros a]. unfold foreign. rewrite Ev, Ec.
  split; [exact Hm|]. split; [exact Hc|]. intros q' Hq'. destruct (Hs q' Hq') as (q & Hq & ->). now apply Hg.
Qed.

(** A change of the memory. *)
Lemma kept_vm k v : foreign k -> made v r /\ unchanged (vm k) v r -> kept k (with_vm k v).
Proof. intros (_ & Hc & Hg) [Hm Hu]. split; [|exact Hu]. now split. Qed.

Lemma calm_ret {T} k (t : T) : calm k (sret t).
Proof. intros H x k' [= _ <-] _. now apply kept_refl. Qed.
Lemma calm_fail {T} k e : calm k (sfail e : sys T).
Proof. intros H x k' [= _ <-] _. now apply kept_refl. Qed.
Lemma calm_panic {T} k : calm k (spanic : sys T).
Proof. intros H x k' E. discriminate E. Qed.

Lemma calm_bind {T U} k (m : sys T) (f : T -> sys U) :
  calm k m -> (forall a k1, foreign k -> kept k k1 -> m k = Done (Ok a, k1) -> calm k1 (f a)) -> calm k (sbind m f).
Proof.
  intros Hm Hf Hk x k'. unfold sbind. destruct (m k) as [[[a|e] k1]|] eqn:E; [| |discriminate].
  - intros E2 Hx. pose proof (Hm Hk _ _ E eq_refl) as H1. eapply kept_trans; [exact H1|].
    now apply (Hf a k1 Hk H1 eq_refl (proj1 H1) _ _ E2).
  - intros [= <- <-] Hx. apply (Hm Hk _ _ E). now destruct e.
Qed.

Lemma calm_pure {T} k (m : sys T) : pure m -> calm k m.
Proof. intros Hm H x k' E _. rewrite (Hm _ _ _ E). apply kept_refl. now rewrite <- (Hm _ _ _ E). Qed.

Lemma calm_bind_pure {T U} k (m : sys T) (f : T -> sys U) :
  pure m -> (forall a, m k = Done (Ok a, k) -> calm k (f a)) -> calm k (sbind m f).
Proof.
  intros Hm Hf. apply calm_bind; [now apply calm_pure|]. intros a k1 _ _ E. pose proof (Hm _ _ _ E) as <-. now apply Hf.
Qed.

(** A change of the state that keeps memory. *)
Lemma calm_still {T} k (m : sys T) : (forall x k', m k = Done (x, k') ->
    vm k' = vm k /\ cr3 k' = cr3 k /\ covered (sched k) (sched k')) -> calm k m.
Proof. intros Hm Hk x k' E _. destruct (Hm _ _ E) as (? & ? & ?). now apply kept_still. Qed.

Lemma calm_same {T} k (m : sys T) : (forall x k', m k = Done (x, k') ->
    vm k' = vm k /\ cr3 k' = cr3 k /\ sched k' = sched k) -> calm k m.
Proof. intros Hm. apply calm_still. intros x k' E. destruct (Hm _ _ E) as (? & ? & ->). auto using covered_refl. Qed.

Lemma calm_update k f : (forall p, Process.page_table_phys (f p) = Process.page_table_phys p) -> calm k (update_process f).
Proof. intros Hf. apply calm_still. intros x k' [= _ <-]. split; [reflexivity|]. split; [reflexivity|]. now apply covered_update. Qed.

Lemma calm_modify k f : vm (f k) = vm k /\ cr3 (f k) = cr3 k /\ sched (f k) = sched k -> calm k (smodify f).
Proof. intros H. apply calm_same. now intros x k' [= _ <-]. Qed.

Lemma calm_for_range n (body : nat -> sys unit) : forall i k, (forall j k, calm k (body j)) -> calm k (for_range i n body).
Proof.
  induction n as [|n IH]; intros i k Hb; cbn [for_range]; [apply calm_ret|].
  apply calm_bind; [apply Hb|]. intros [] k1 _ _ _. now apply IH.
Qed.

(** ** User memory *)

(** The relation for what reads and writes the active address space only. *)
Definition keeps (k k' : Kernel) : Prop := foreign k -> kept k k'.

#[local] Instance keeps_preorder : PreOrder keeps.
Proof.
  split; [intros k; exact (kept_refl k)|]. intros k k1 k2 H1 H2 Hk. eapply kept_trans; [now apply H1|]. apply H2, H1, Hk.
Qed.

Lemma calm_leads {T} k (m : sys T) : leads keeps m -> calm k m.
Proof. intros Hm Hk x k' E _. exact (Hm _ _ _ E Hk). Qed.

Lemma fetch_keeps (k : Kernel) a b k' : fetch k a = Done (b, k') -> keeps k k'.
Proof.
  cbn. intros ([b1 v] & E & [= _ <-])%bind_Done Hk. apply kept_vm; [exact Hk|]. destruct Hk as (Hm & Hc & _).
  eapply apart_fetch; [exact E|exact Hm|congruence].
Qed.

Lemma store_keeps (k : Kernel) a bytes k' : store k a bytes = Done k' -> keeps k k'.
Proof.
  cbn. intros (v & E & [= <-])%bind_Done Hk. apply kept_vm; [exact Hk|]. destruct Hk as (Hm & Hc & _).
  eapply apart_store; [exact E|exact Hm|congruence].
Qed.

Lemma calm_cstr k ptr n : calm k (user_cstr ptr n).
Proof. apply calm_leads, try_stm_leads, (copy_user_cstr_leads keeps fetch_keeps). Qed.
Lemma calm_bytes k ptr len n : calm k (user_bytes ptr len n).
Proof. apply calm_leads, try_stm_leads, (copy_user_bytes_leads keeps fetch_keeps). Qed.
Lemma calm_fetch k a n : calm k (fetch_bytes a n).
Proof. apply calm_leads, (fetch_bytes_leads keeps fetch_keeps). Qed.
Lemma calm_argv k ptr : calm k (try_stm (ExecStack.parse_argv ptr)).
Proof. apply calm_leads, try_stm_leads, (ExecStack.parse_argv_leads keeps fetch_keeps). Qed.
Lemma calm_envp k ptr : calm k (try_stm (ExecStack.parse_envp ptr)).
Proof. apply calm_leads, try_stm_leads, (ExecStack.parse_envp_leads keeps fetch_keeps). Qed.

Lemma calm_copy_out k ptr src : calm k (copy_out ptr src).
Proof.
  apply calm_leads, try_stm_leads. intros k1 x k2. unfold copy_to_user_bytes.
  repeat case_match; try (intros [= _ <-]; reflexivity). intros (k3 & E & [= _ <-])%bind_Done. eapply store_keeps, E.
Qed.

Lemma calm_store_at k a bytes : calm k (store_at a bytes).
Proof. apply calm_leads. intros k1 x k2 (k3 & E & [= _ <-])%bind_Done. eapply store_keeps, E. Qed.

(** ** Parts of handlers *)

(** The running process, whose address space is another one. *)
Lemma calm_current {U} k (f : Process.Process -> sys U) :
  (forall p, Scheduler.current (sched k) = Some p -> Process.page_table_phys p <> r -> calm k (f p)) ->
  calm k (let% p := current_process in f p).
Proof.
  intros Hf. apply calm_bind_pure; [apply pure_current|]. intros p Hp%current_Some Hk.
  apply (Hf p Hp); [|exact Hk]. destruct Hk as (_ & _ & Hg). apply Hg. now left.
Qed.

Lemma calm_on_table {T} k (f : FdTable.FdTable -> outcome (result T ErrorCode * FdTable.FdTable)) : calm k (on_table f).
Proof.
  apply calm_current. intros p _ _. apply calm_still. intros x k' ([r1 t] & _ & [= _ <-])%bind_Done.
  split; [reflexivity|]. split; [reflexivity|]. now apply covered_update.
Qed.

Lemma calm_on_pipes {T} k (f : FdTable.FdTable -> list Pipe.Pipe
      -> outcome (result T ErrorCode * FdTable.FdTable * list Pipe.Pipe)) : calm k (on_pipes f).
Proof.
  apply calm_current. intros p _ _. apply calm_still. intros x k' ([[r1 t] pool] & _ & [= _ <-])%bind_Done.
  split; [reflexivity|]. split; [reflexivity|]. now apply covered_update.
Qed.

Lemma calm_on_files {T} k (f : Vfs.Vfs D -> FdTable.FdTable
      -> outcome (result T ErrorCode * (FdTable.FdTable * Vfs.Vfs D))) : calm k (on_files f).
Proof.
  apply calm_current. intros p _ _. apply calm_still. intros x k' ([r1 [t v]] & _ & [= _ <-])%bind_Done.
  split; [reflexivity|]. split; [reflexivity|]. now apply covered_update.
Qed.

Lemma calm_on_vfs {T} k (f : Vfs.Vfs D -> result T ErrorCode * Vfs.Vfs D) : calm k (on_vfs f).
Proof. apply calm_same. intros x k'. unfold on_vfs. destruct (f (vfs k)). now intros [= _ <-]. Qed.

Lemma calm_on_tmpfs {T} k (f : option TmpFs.TmpFs -> outcome (result T ErrorCode * option TmpFs.TmpFs)) : calm k (on_tmpfs f).
Proof. apply calm_same. now intros x k' ([r1 g] & _ & [= _ <-])%bind_Done. Qed.

Lemma calm_on_network {T} k (f : Net.Net -> outcome (result T string * Net.Net)) e : calm k (on_network f e).
Proof. apply calm_same. now intros x k' ([r1 v] & _ & [= _ <-])%bind_Done. Qed.

Lemma calm_on_console {T} k (f : Console -> outcome (T * Console)) : calm k (on_console f).
Proof. apply calm_same. now intros x k' ([t c] & _ & [= _ <-])%bind_Done. Qed.

Lemma calm_signal_group k group sig : calm k (signal_group group sig).
Proof. apply calm_still. intros x k' [= _ <-]. split; [reflexivity|]. split; [reflexivity|]. apply covered_signal. Qed.

(** An operation of the memory manager, with what is known of its result. *)
Lemma calm_on_vm {T} k (f : V -> outcome (result T string * V)) e :
  (foreign k -> forall x v, f (vm k) = Done (x, v) -> made v r /\ unchanged (vm k) v r) -> calm k (on_vm f e).
Proof. intros Hf Hk x k' ([r1 v] & E & [= _ <-])%bind_Done _. apply kept_vm; [exact Hk|]. eapply Hf; eauto. Qed.

(** Giving the processor away, when nobody takes it. *)
Lemma calm_yield k : calm k yield_handler.
Proof.
  intros Hk x k'. unfold yield_handler, sbind, update_process, smodify. set (k1 := with_sched k _).
  assert (kept k k1) as H1 by (apply kept_still; [exact Hk|reflexivity..|now apply covered_update]).
  destruct (Scheduler.schedule_next (sched k1)) as [[p|] s] eqn:E.
  - intros (n & _ & [= <- <-])%bind_Done Hx. discriminate Hx.
  - intros [= <- <-] _. eapply kept_trans; [exact H1|]. apply kept_still; [apply H1|reflexivity..|]. exact (covered_idle _ _ E).
Qed.

#[local] Hint Resolve pure_try pure_try_out pure_current pure_context pure_add64 pure_fd_kind pure_stat_path
  pure_open_directory pure_search_path pure_program : panda.
#[local] Hint Resolve calm_cstr calm_bytes calm_fetch calm_argv calm_envp calm_copy_out calm_store_at calm_on_table
  calm_on_pipes calm_on_files calm_on_vfs calm_on_tmpfs calm_on_network calm_on_console calm_signal_group calm_yield : panda.

(** Walks down a handler: known parts, sequencing, case distinctions. *)
Ltac walk :=
  repeat first
    [ apply calm_ret | apply calm_fail | apply calm_panic | solve [auto with panda]
    | match goal with |- calm _ (sbind current_process _) => apply calm_current; intros ? ? ? end
    | match goal with |- calm _ (sbind _ _) => apply calm_bind_pure; [solve [leads_walk]|intros ? ?] end
    | match goal with |- calm _ (sbind _ _) => apply calm_bind; [|intros ? ? ? ? ?] end
    | solve [apply calm_update; reflexivity]
    | match goal with
      | |- calm _ (if ?c then _ else _) => destruct c eqn:?
      | |- calm _ (match ?x with _ => _ end) => destruct x eqn:?
      | |- calm _ (let (_, _) := ?x in _) => destruct x eqn:?
      end ].

Lemma calm_yield_panic {T} k : calm k (let% _ := yield_handler in spanic : sys T).
Proof. walk. Qed.

Lemma calm_pipe_read k id buf : calm k (pipe_read id buf).
Proof.
  intros Hk x k'. unfold pipe_read. intros ([[r1 buf1] pool] & _ & Hx)%bind_Done.
  assert (kept k (with_pipes k pool)) as Hs by (apply kept_still; [exact Hk|reflexivity..|apply covered_refl]).
  destruct r1 as [n|[]]; try (injection Hx as <- <-; now intros _).
  intros Hg. eapply kept_trans; [exact Hs|]. exact (calm_yield_panic _ (proj1 Hs) _ _ Hx Hg).
Qed.

Lemma calm_pipe_write k id data : calm k (pipe_write id data).
Proof.
  intros Hk x k'. unfold pipe_write. intros ([r1 pool] & _ & Hx)%bind_Done.
  assert (kept k (with_pipes k pool)) as Hs by (apply kept_still; [exact Hk|reflexivity..|apply covered_refl]).
  destruct r1 as [n|[]]; try (injection Hx as <- <-; now intros _).
  intros Hg. eapply kept_trans; [exact Hs|]. exact (calm_yield_panic _ (proj1 Hs) _ _ Hx Hg).
Qed.

Lemma calm_fd_read k fd buf : calm k (fd_read fd buf).
Proof. unfold fd_read. walk. Qed.
Lemma calm_fd_write k fd data : calm k (fd_write fd data).
Proof. apply calm_on_files. Qed.
Lemma calm_resolved k ptr n : calm k (resolved ptr n).
Proof. unfold resolved. walk. Qed.
Lemma calm_copy_string_out k buf bytes size : calm k (copy_string_out buf bytes size).
Proof. unfold copy_string_out. walk. Qed.

#[local] Hint Resolve calm_pipe_read calm_pipe_write calm_fd_read calm_fd_write calm_resolved calm_copy_string_out : panda.

(** ** The handlers *)

Lemma calm_open k path flags : calm k (open_handler to_lowercase path flags).
Proof. unfold open_handler. walk. Qed.
Lemma calm_read k fd buf count : calm k (read_handler fd buf count).
Proof. unfold read_handler. walk. Qed.
Lemma calm_write k fd buf count : calm k (write_handler fd buf count).
Proof. unfold write_handler. walk. Qed.
Lemma calm_pipe k ptr : calm k (pipe_handler ptr).
Proof.
  unfold pipe_handler. apply calm_bind; [|intros [rd wr] k1 _ _ _; walk].
  apply calm_same. intros x k'. destruct (PipePool.pipe_create (pipes k)). now intros [= _ <-].
Qed.
Lemma calm_lseek k fd offset whence : calm k (lseek_handler fd offset whence).
Proof.
  unfold lseek_handler. apply calm_bind_pure; [leads_walk|intros p _].
  apply calm_bind_pure; [leads_walk|intros v _]. apply calm_bind_pure; [|intros off _; walk].
  assert (forall base, pure (if (base + offset <? - 2 ^ 63) || (2 ^ 63 <=? base + offset) then errno EINVAL
    else if base + offset <? 0 then errno EINVAL else sret (base + offset))) as Hc by (intros; leads_walk).
  leads_walk.
Qed.
Lemma calm_tty_signal k sig : calm k (tty_signal sig).
Proof. unfold tty_signal. walk. Qed.

#[local] Hint Resolve calm_open calm_read calm_write calm_pipe calm_lseek calm_tty_signal : panda.

(** A new child is in the queue and no zombie. *)
Lemma calm_fork k : calm k fork_handler.
Proof.
  unfold fork_handler. apply calm_current. intros p _ Hp.
  apply calm_bind_pure; [leads_walk|intros child_pid _]. apply calm_bind_pure; [leads_walk|intros next _].
  apply calm_bind; [now apply calm_modify|intros [] k1 _ _ _].
  apply calm_bind; [|intros pt k2 _ _ _].
  { apply calm_on_vm. intros (Hm & _) x v E. destruct (apart_fork _ _ _ _ r E Hm) as (H1 & H2 & _); [congruence|auto]. }
  apply calm_bind; [|intros child k3 _ _ _].
  { apply calm_same. intros x k'. destruct (Process.fork_from p _ _ _ _). now intros [= _ <-]. }
  apply calm_bind; [now apply calm_update|intros [] k4 _ _ _]. apply calm_bind; [|intros; apply calm_ret].
  apply calm_still. intros x k' (s & Ha & [= _ <-])%bind_Done. split; [reflexivity|]. split; [reflexivity|]. eapply covered_add, Ha.
Qed.

(** Memory mapped and unmapped in the address space of the process. *)
Lemma calm_map_zeroed k pt a flags : pt <> r -> calm k (map_zeroed pt a flags).
Proof.
  intros Hp. unfold map_zeroed. apply calm_bind; [|intros phys k1 _ _ _; apply (calm_store_at k1)].
  apply calm_on_vm. intros (Hm & _) x v E. eapply apart_map; [exact E|exact Hm|congruence].
Qed.

Lemma calm_unmap k pt a : pt <> r -> calm k (fun k => let! v := sp_unmap (vm k) pt a in Done (Ok tt, with_vm k v)).
Proof.
  intros Hp Hk x k' (v & E & [= _ <-])%bind_Done _. apply kept_vm; [exact Hk|].
  eapply apart_unmap; [exact E|apply Hk|congruence].
Qed.

Lemma calm_brk k addr : calm k (brk_handler addr).
Proof.
  unfold brk_handler. walk; apply calm_for_range; intros j ?; [now apply calm_map_zeroed|now apply calm_unmap].
Qed.

Lemma calm_mmap k addr len prot flags fd : calm k (mmap_handler addr len prot flags fd).
Proof. unfold mmap_handler. walk; apply calm_for_range; intros j ?; now apply calm_map_zeroed. Qed.

(** A zombie that was found. *)
Lemma calm_find_zombie {U} k pid parent (f : option Process.Process -> sys U) :
  (forall z k1, (forall p, z = Some p -> Process.page_table_phys p <> r) -> calm k1 (f z)) ->
  calm k (let% z := find_zombie pid parent in f z).
Proof.
  intros Hf Hk. pose proof (zombie_covered (sched k) parent) as Hz.
  assert (forall z s, covered (sched k) s /\ (forall p, z = Some p -> guarded (sched k) p) ->
    forall x k', f z (with_sched k s) = Done (x, k') -> gone x = false -> kept k k') as Hs.
  { intros z s [Hc Hg] x k' E Hx. assert (kept k (with_sched k s)) as H1 by now apply kept_still.
    eapply kept_trans; [exact H1|]. apply (Hf z (with_sched k s)) with (x := x); [|apply H1|exact E|exact Hx].
    intros p Hp. now apply Hk, Hg. }
  unfold find_zombie, Scheduler.find_any_zombie_child.
  destruct (pid =? -1); [|destruct (0 <? pid)]; unfold sbind; [| |intros x k' [= <- <-] _; now apply kept_refl];
    destruct (Scheduler.find_zombie_child _ _) as [z s].
  - intros x k'. now apply Hs.
  - intros x k'. apply Hs. destruct Hz as [Hc Hg]. split; [exact Hc|]. intros p Hp. apply Hg.
    destruct z as [q|]; [|discriminate]. now destruct (Process.pid q =? pid).
Qed.

Lemma calm_reap k child ptr : Process.page_table_phys child <> r -> calm k (reap child ptr).
Proof.
  intros Hp. unfold reap. walk. apply calm_on_vm. intros (Hm & _) x v E. eapply apart_free; [exact E|exact Hm|congruence].
Qed.

Lemma calm_report_stopped k w parent ptr : calm k (report_stopped w parent ptr).
Proof. unfold report_stopped. walk. Qed.

#[local] Hint Resolve calm_report_stopped : panda.

Lemma calm_waitpid k pid ptr options : calm k (waitpid_handler pid ptr options).
Proof.
  assert (forall z k1, (forall p, z = Some p -> Process.page_table_phys p <> r) ->
    forall (m : sys Z), calm k1 m -> calm k1 (match z with Some child => reap child ptr | None => m end)) as Hr.
  { intros [z|] k1 Hz m Hm; [apply calm_reap; now apply Hz|exact Hm]. }
  unfold waitpid_handler. destruct (negb _ && negb _); [apply calm_fail|]. apply calm_current. intros p _ _.
  apply calm_bind; [apply calm_report_stopped|intros [n|] k1 _ _ _; [apply calm_ret|]].
  apply calm_find_zombie. intros z k2 Hz. apply Hr; [exact Hz|]. apply calm_bind_pure; [leads_walk|intros [] _; [|apply calm_fail]].
  apply calm_current. intros q _ _. apply calm_bind; [walk|intros [] k3 _ _ _]. apply calm_bind; [apply calm_yield|intros [] k4 _ _ _].
  apply calm_current. intros q' _ _. apply calm_bind; [apply calm_report_stopped|intros [n|] k5 _ _ _; [apply calm_ret|]].
  apply calm_find_zombie. intros z' k6 Hz'. apply Hr; [exact Hz'|apply calm_fail].
Qed.

(** Exiting does not come back. *)
Lemma exit_gone (k : Kernel) status x k' : exit_handler status k = Done (x, k') -> gone x = true.
Proof.
  unfold exit_handler. unfold sbind at 1, sread. set (m := match Scheduler.current (sched k) with Some p => _ | None => _ end).
  assert (exists k1, m k = Done (Ok tt, k1)) as [k1 E].
  { unfold m. destruct (Scheduler.current (sched k)) as [p|]; [|eexists; reflexivity].
    unfold sbind, update_process, smodify. destruct (bool_decide _); eexists; reflexivity. }
  unfold sbind at 1. rewrite E. unfold sbind at 1. destruct (Scheduler.schedule_next _) as [[p|] s]; unfold sbind, smodify, sret, sfail.
  - destruct (match Scheduler.current (sched k) with Some p => _ | None => _ end); [now intros [= <- _]|].
    destruct (reap_pending _) as [[r1 k4]|] eqn:E4; [|discriminate]. apply reap_pending_silent in E4 as [_ ->]. now intros [= <- _].
  - destruct (reap_pending _) as [[r1 k4]|] eqn:E4; [|discriminate]. apply reap_pending_silent in E4 as [_ ->]. now intros [= <- _].
Qed.

Lemma calm_exit k status : calm k (exit_handler status).
Proof. intros _ x k' E Hx. rewrite (exit_gone _ _ _ _ E) in Hx. discriminate Hx. Qed.

(** The running process gets an address space that is not [r]. *)
Lemma calm_new_table k f : (forall p, Process.page_table_phys (f p) <> r) -> calm k (update_process f).
Proof.
  intros Hf (Hm & Hc & Hg) x k' [= _ <-] _. split; [|now intros a]. split; [exact Hm|]. split; [exact Hc|].
  intros q [H|H]; cbn in H; [|apply Hg; now right].
  destruct (Scheduler.current (sched k)) as [p|]; [|discriminate]. injection H as <-. apply Hf.
Qed.

Lemma calm_assoc {T T' U} k (m : sys T) (f : T -> sys T') (g : T' -> sys U) :
  calm k (let% a := m in let% b := f a in g b) -> calm k (let% b := (let% a := m in f a) in g b).
Proof.
  intros H Hk x k' E. apply H; [exact Hk|]. rewrite <- E. unfold sbind. now destruct (m k) as [[[a|e] k1]|].
Qed.

Lemma calm_build {U} k info data e (f : Z -> sys U) : (forall root k1, root <> r -> calm k1 (f root)) ->
  calm k (let% root := on_vm (fun v => sp_build v (cr3 k) info data) e in f root).
Proof.
  intros Hf. assert (foreign k -> forall x v, sp_build (vm k) (cr3 k) info data = Done (x, v) ->
    made v r /\ unchanged (vm k) v r /\ x <> Ok r) as Hb.
  { intros (Hm & Hc & _) x v E. eapply apart_build; [exact E|exact Hm|congruence]. }
  apply calm_bind; [apply calm_on_vm; intros Hk x v E; destruct (Hb Hk x v E) as (? & ? & _); auto|].
  intros root k1 Hk _ ([x v] & E & Ex)%bind_Done. apply Hf. destruct (Hb Hk x v E) as (_ & _ & Hx).
  destruct x as [root'|]; [|discriminate]. injection Ex as -> _. congruence.
Qed.

Lemma calm_replace_image {U} k cs ss info data (f : Z -> sys U) :
  (forall root k1, root <> r -> calm k1 (f root)) -> calm k (let% root := replace_image cs ss info data in f root).
Proof.
  intros Hf. unfold replace_image. apply calm_assoc, calm_current. intros p _ Hp.
  apply calm_assoc, calm_bind_pure; [leads_walk|]. intros active [= <-]. apply calm_assoc, calm_build. intros root k1 Hr.
  apply calm_assoc, calm_bind; [|intros heap k2 _ _ _].
  { apply calm_same. now intros x k' (h & _ & (h' & _ & [= _ <-])%bind_Done)%bind_Done. }
  apply calm_assoc, calm_bind; [now apply calm_new_table|intros [] k3 _ _ _].
  apply calm_assoc, calm_bind; [|intros ? k4 _ _ _; now apply Hf].
  apply calm_on_vm. intros (Hm & _) x v E. eapply apart_free; [exact E|exact Hm|congruence].
Qed.

Lemma calm_execve k cs ss path argv envp : calm k (execve_handler to_lowercase cs ss path argv envp).
Proof.
  unfold execve_handler. apply calm_current. intros p _ _. do 2 (apply calm_bind_pure; [leads_walk|intros ? _]).
  do 2 (case_match; [apply calm_fail|]). apply calm_bind_pure; [leads_walk|intros v _]. apply calm_bind_pure; [leads_walk|intros elf _].
  apply calm_bind; [|intros info k1 _ _ _].
  { apply calm_same. now intros x k' (i & _ & [= _ <-])%bind_Done. }
  apply calm_replace_image. intros root k2 Hr. apply calm_bind; [|intros [] k3 _ _ _].
  { intros (Hm & _ & Hg) x k' [= _ <-] _. split; [|now intros ?]. now split. }
  walk. apply calm_leads, try_stm_leads, (ExecStack.setup_user_stack_leads keeps store_keeps).
Qed.

(** ** The calls *)

Lemma calm_tty_loop buf fuel : forall k kernel_buf, calm k (tty_loop fuel buf kernel_buf).
Proof. induction fuel as [|fuel IH]; intros k kernel_buf; cbn [tty_loop]; [apply calm_fail|]. walk; apply calm_tty_signal. Qed.

Lemma calm_unless_ebadf {T} k (m fallback : sys T) :
  calm k m -> (forall k1, calm k1 fallback) -> calm k (unless_ebadf m fallback).
Proof.
  intros Hm Hf Hk x k' ([r1 k1] & E & Hx)%bind_Done Hg.
  destruct r1 as [t|[[]| | |]]; try (injection Hx as <- <-; now apply (Hm Hk _ _ E)).
  pose proof (Hm Hk _ _ E eq_refl) as H1. eapply kept_trans; [exact H1|]. exact (Hf k1 (proj1 H1) _ _ Hx Hg).
Qed.

Lemma calm_sys_write k fd buf count : calm k (sys_write fd buf count).
Proof. unfold sys_write. case_match; [|apply calm_write]. apply calm_unless_ebadf; [apply calm_write|intros k1]. walk. Qed.

Lemma calm_sys_read k fd buf count : calm k (sys_read fd buf count).
Proof.
  pose proof (calm_tty_loop buf) as Ht. unfold sys_read. case_match; [apply calm_ret|]. case_match; [apply calm_fail|].
  case_match; [|walk]. apply calm_unless_ebadf; [apply calm_read|intros k1]. walk.
Qed.

Lemma calm_sys_execve cs ss k ptr argv envp : calm k (sys_execve to_lowercase cs ss ptr argv envp).
Proof. unfold sys_execve, exec_result. walk; apply calm_execve. Qed.

#[local] Hint Resolve calm_sys_write calm_sys_read calm_sys_execve calm_fork calm_brk calm_mmap calm_waitpid calm_exit : panda.

Lemma calm_dispatch cs ss k call a1 a2 a3 a4 a5 a6 : calm k (dispatch to_lowercase cs ss call a1 a2 a3 a4 a5 a6).
Proof.
  destruct call; cbn [dispatch]; try solve [auto with panda];
    unfold sys_open, sys_yield, sys_socket, sys_sendto, sys_recvfrom, sys_close, sys_stat, sys_fstat, sys_getpid, sys_pipe, sys_dup2,
      sys_kill, sys_setpgid, sys_getdents64, sys_getcwd, sys_chdir, sys_unlink, sys_getenv, sys_chmod, sys_chown, sys_getuid,
      sys_getgid, sys_setuid, sys_setgid, sys_lseek, sys_mkdir, sys_rmdir, sys_rename, close_handler, stat_handler, fstat_handler,
      getpid_handler, dup2_handler, kill_handler, setpgid_handler, getdents64_handler, getcwd_handler, chdir_handler, unlink_handler,
      getenv_handler, chmod_handler, chown_handler, getuid_handler, getgid_handler, setuid_handler, setgid_handler, mkdir_handler,
      rmdir_handler, rename_handler, sys_mmap; walk.
Qed.

Lemma calm_handle_syscall cs ss k n a1 a2 a3 a4 a5 a6 : calm k (handle_syscall to_lowercase cs ss n a1 a2 a3 a4 a5 a6).
Proof.
  unfold handle_syscall. destruct (from_u64 n) as [call|]; [|apply calm_ret].
  intros Hk x k' ([r1 k1] & E & Hx)%bind_Done Hg. pose proof (calm_dispatch _ _ _ _ _ _ _ _ _ _ Hk _ _ E) as Hd.
  destruct r1 as [v|[e| | |]]; injection Hx as <- <-; first [exact (Hd eq_refl)|discriminate Hg].
Qed.

Lemma calm_update_context k f : calm k (update_context f).
Proof.
  unfold update_context. destruct (Scheduler.current (sched k)) as [p|] eqn:E; apply calm_still; intros x k' Hx.
  - rewrite E in Hx. injection Hx as _ <-. split; [reflexivity|]. split; [reflexivity|]. now apply covered_update.
  - rewrite E in Hx. injection Hx as _ <-. auto using covered_refl.
Qed.

Lemma calm_syscall_entry cs ss k regs : calm k (syscall_entry to_lowercase cs ss regs).
Proof.
  unfold syscall_entry, syscall_handler_rust, check_and_handle_preemption.
  apply calm_bind; [apply calm_update_context|intros [] k1 _ _ _].
  apply calm_bind; [|intros v k2 _ _ _; apply calm_bind; [apply calm_update_context|intros [] k3 _ _ _; walk]].
  apply calm_bind_pure; [leads_walk|intros c _]. apply calm_bind; [apply calm_handle_syscall|intros v k2 _ _ _].
  walk. now apply calm_modify.
Qed.

End Foreign.

End Isolation.

End Isolation.
