(* ===== verification/Safety.v ===== *)
(** * Safety of the whole kernel

    The machine: system calls of the current process, interrupts, input on the
    serial line, and programs running in user mode.  Its invariant collects
    those of the components; it is preserved by every step.  Then what a system
    call cannot do: give a process the rights of the superuser, or touch the
    state of another process. *)

From S2P Require Import Prelude Abi RingBuffer Pipe FdTable Process Scheduler Path Perm TmpFs Bytes Block Utf8 UserMem.
From S2P Require Import Elf Spaces ExecStack Ps2 Tty DiskFs Fat32 Mount Vfs Packets Net Kernel Dispatch Demo Steps Isolation.
Import Abi Block Bytes UserMem Spaces Net Kernel Dispatch Steps.

Module Safety.

(** The processes agree up to pending signals and what they wait for. *)
Definition kin (q q' : Process.Process) : Prop :=
  Process.with_wait_state (Process.with_pending_signals q' 0) Process.NotWaiting
  = Process.with_wait_state (Process.with_pending_signals q 0) Process.NotWaiting.

(** A tmpfs that its operations can produce. *)
Definition tmp_ok (g : option TmpFs.TmpFs) : Prop := forall fs, g = Some fs -> TmpFs.reachable fs.

Section Safety.
Context {D : Type} {BD : BlockDevice D}.
Context (to_lowercase : string -> string).
Context {V : Type} {SP : Spaces V}.
Context {N : Type} {DR : Net.Driver N}.
Context (user_cs user_ss : Z).

Notation Kernel := (Kernel.Kernel (D := D) (V := V) (N := N)).
Notation kstep := (Steps.kstep to_lowercase).
Notation trace := (Steps.trace to_lowercase).

(** One event of the machine. *)
Inductive mstep (k : Kernel) : Kernel -> Prop :=
  | ms_syscall regs r k' : syscall_entry to_lowercase user_cs user_ss regs k = Done (r, k') -> mstep k k'
  | ms_timer r k' : timer_tick_handler k = Done (r, k') -> mstep k k'
  | ms_keyboard ready r k' : keyboard_interrupt_handler ready k = Done (r, k') -> mstep k k'
  | ms_serial bytes :
      let c := console k in
      mstep k (with_console k (mkConsole (tty c) (scancodes c) (keyboard c) (serial_in c ++ bytes) (serial_out c)))
  | ms_user k' : silent k k' -> mstep k k'.

(** The invariant of the kernel: each component is in a state its operations
    can bring it into, descriptor tables have their size, and users are the
    superuser or user 1000. *)
Definition process_ok (p : Process.Process) : Prop :=
  length (Process.fd_table p) = FdTable.MAX_FDS /\ (Process.uid p = 0 \/ Process.uid p = 1000).

Record kernel_ok (k : Kernel) : Prop := mkOk {
  ok_sched : Scheduler.reachable (sched k);
  ok_processes : Forall process_ok (Scheduler.all_processes (sched k));
  ok_pipes : PipePool.pool_inv (pipes k);
  ok_tmpfs : tmp_ok (Vfs.tmpfs (vfs k));
  ok_vfs : Vfs.wf (vfs k);
  ok_tty : Tty.inv (tty (console k))
}.

End Safety.

(** ** The file systems *)

(** Follows a fallible computation to its results. *)
Ltac chase H :=
  repeat first
    [ apply bind_Done in H as (? & ? & H)
    | progress (cbn beta iota in H)
    | match type of H with
      | Done _ = Done _ => fail 1
      | context [let (_, _) := ?x in _] => destruct x eqn:?
      | (if ?c then _ else _) = _ => destruct c eqn:?
      | (match ?x with _ => _ end) = _ => destruct x eqn:?
      end ];
  try discriminate H.

Lemma tmp_ok_op fs o fs' : tmp_ok (Some fs) -> TmpFs.exec fs o = Done fs' -> tmp_ok (Some fs').
Proof. intros Ho E f [= <-]. eapply TmpFs.reach_op; [now apply Ho|exact E]. Qed.

Lemma tmpfs_create_ok g parent name d r g' :
  tmp_ok g -> Mount.tmpfs_create g parent name d = Done (r, g') -> tmp_ok g'.
Proof.
  intros Ho E. unfold Mount.tmpfs_create in E. destruct g as [fs|]; [|now injection E as _ <-].
  destruct (Mount.tmpfs_parent fs parent) as [p|e]; [|now injection E as _ <-].
  apply bind_Done in E as ([r1 fs1] & Ec & [= _ <-]). apply (tmp_ok_op fs (TmpFs.OpCreate p name d) _ Ho).
  cbn. now rewrite Ec.
Qed.

Lemma tmpfs_truncate_ok g i : tmp_ok g -> tmp_ok (snd (Mount.tmpfs_truncate g i)).
Proof.
  intros Ho. destruct g as [fs|]; [|exact Ho]. cbn. destruct (TmpFs.truncate fs i) as [r fs1] eqn:E.
  apply (tmp_ok_op fs (TmpFs.OpTruncate i) _ Ho). cbn. now rewrite E.
Qed.

Lemma tmpfs_write_ok g i off data : tmp_ok g -> tmp_ok (snd (Mount.tmpfs_write g i off data)).
Proof.
  intros Ho. destruct g as [fs|]; [|exact Ho]. cbn. destruct (TmpFs.write fs i off data) as [r fs1] eqn:E.
  apply (tmp_ok_op fs (TmpFs.OpWrite i off data) _ Ho). cbn. now rewrite E.
Qed.

Lemma tmpfs_chmod_ok g i m : tmp_ok g -> tmp_ok (snd (Mount.tmpfs_chmod g i m)).
Proof.
  intros Ho. destruct g as [fs|]; [|exact Ho]. cbn. destruct (TmpFs.chmod fs i m) as [r fs1] eqn:E.
  apply (tmp_ok_op fs (TmpFs.OpChmod i m) _ Ho). cbn. now rewrite E.
Qed.

Lemma tmpfs_unlink_ok g parent name : tmp_ok g -> tmp_ok (snd (Mount.tmpfs_unlink g parent name)).
Proof.
  intros Ho. destruct g as [fs|]; [|exact Ho]. cbn. destruct (Mount.tmpfs_parent fs parent) as [p|e]; [|exact Ho].
  destruct (TmpFs.unlink fs p name) as [r fs1] eqn:E.
  apply (tmp_ok_op fs (TmpFs.OpUnlink p name) _ Ho). cbn. now rewrite E.
Qed.

Lemma tmpfs_rmdir_ok g parent name : tmp_ok g -> tmp_ok (snd (Mount.tmpfs_rmdir g parent name)).
Proof.
  intros Ho. destruct g as [fs|]; [|exact Ho]. cbn. repeat (case_match; [|exact Ho..]); try exact Ho.
  repeat case_match; try exact Ho. destruct (TmpFs.unlink _ _ _) as [ru fs1] eqn:E.
  match type of E with TmpFs.unlink _ ?p ?n = _ => apply (tmp_ok_op fs (TmpFs.OpUnlink p n) _ Ho) end.
  simplify_eq. cbn. now rewrite E.
Qed.

Lemma tmpfs_rename_ok g op on np nn : tmp_ok g -> tmp_ok (snd (Mount.tmpfs_rename g op on np nn)).
Proof.
  intros Ho. destruct g as [fs|]; [|exact Ho]. cbn. destruct (Mount.tmpfs_parent fs op) as [p|e]; [|exact Ho].
  destruct (Mount.tmpfs_parent fs np) as [p'|e]; [|exact Ho].
  destruct (TmpFs.rename fs p on p' nn) as [r fs1] eqn:E.
  apply (tmp_ok_op fs (TmpFs.OpRename p on p' nn) _ Ho). cbn. now rewrite E.
Qed.

Lemma index_set_length {A} (l : list A) i x l' : index_set l i x = Done l' -> length l' = length l.
Proof. unfold index_set. case_match; intros [= <-]. apply length_insert. Qed.

Lemma open_kind_length t kind r t' : FdTable.open_kind t kind = Done (r, t') -> length t' = length t.
Proof.
  unfold FdTable.open_kind. intros (x & _ & H)%bind_Done. destruct x; [|now injection H as _ <-].
  apply bind_Done in H as (t1 & H & [= _ <-]). eapply index_set_length, H.
Qed.

Section Files.
Context {D : Type} {BD : BlockDevice D}.

Definition vfs_ok (v : Vfs.Vfs D) : Prop := tmp_ok (Vfs.tmpfs v) /\ Vfs.wf v.

Lemma tmpfs_open_ok (v v' : Vfs.Vfs D) rel flags r :
  Vfs.tmpfs_open_inode v rel flags = Done (r, v') -> vfs_ok v -> vfs_ok v'.
Proof.
  intros H [Ht Hw]. unfold Vfs.tmpfs_open_inode in H. destruct (Mount.tmpfs_lookup _ _) as [i|[]];
    try (injection H as _ <-; now split).
  - case_match; [|injection H as _ <-; now split]. pose proof (tmpfs_truncate_ok _ i Ht) as Hk.
    destruct (Mount.tmpfs_truncate _ _) as [r1 g]. case_match; injection H as _ <-; now split.
  - case_match; [|injection H as _ <-; now split]. destruct (Vfs.split_parent rel) as [parent name].
    apply bind_Done in H as ([r1 g] & E & [= _ <-]). split; [eapply tmpfs_create_ok; eassumption|exact Hw].
Qed.

Lemma open_node_ok lc (v v' : Vfs.Vfs D) t t' idx flags u g r :
  Vfs.open_node_with_flags lc v t idx flags u g = Done (r, (t', v')) -> (vfs_ok v -> vfs_ok v') /\ length t' = length t.
Proof.
  unfold Vfs.open_node_with_flags. intros H. chase H; injection H as _ <- <-; split; auto;
    try (eapply index_set_length; eassumption); intros [Ht Hw]; split; try assumption; case_match; assumption.
Qed.

Lemma open_path_ok lc (v v' : Vfs.Vfs D) t t' path flags u g r :
  Vfs.open_path_with_flags lc v t path flags u g = Done (r, (t', v')) -> (vfs_ok v -> vfs_ok v') /\ length t' = length t.
Proof.
  unfold Vfs.open_path_with_flags. intros H.
  destruct (Mount.resolve_mount_path _ _) as [[[mp rel] []]|].
  - chase H; injection H as _ <- <-; split; auto; eapply index_set_length; eassumption.
  - chase H; injection H as _ <- <-; split; auto; eapply index_set_length; eassumption.
  - apply bind_Done in H as ([i v1] & Ei & H). pose proof (tmpfs_open_ok _ _ _ _ _ Ei) as Hok.
    chase H; injection H as _ <- <-; split; auto; eapply index_set_length; eassumption.
  - destruct (Vfs.lookup_node v path) as [[idx n]|]; [eapply open_node_ok, H|].
    case_match; [|injection H as _ <- <-; auto].
    pose proof (Vfs.create_dynamic_file_wf v path) as Hw.
    assert (Vfs.tmpfs (snd (Vfs.create_dynamic_file v path)) = Vfs.tmpfs v) as Ht
      by (unfold Vfs.create_dynamic_file; repeat case_match; reflexivity).
    destruct (Vfs.create_dynamic_file v path) as [[idx|e] v1]; cbn [snd] in *.
    + apply open_node_ok in H as [H1 H2]. split; [|exact H2]. intros [A B]. apply H1. split; [now rewrite Ht|auto].
    + injection H as _ <- <-. split; [|reflexivity]. intros [A B]. split; [now rewrite Ht|auto].
Qed.

Lemma vfs_write_ok (v v' : Vfs.Vfs D) t t' fd data r :
  Vfs.write v t fd data = Done (r, (t', v')) -> (vfs_ok v -> vfs_ok v') /\ length t' = length t.
Proof.
  unfold Vfs.write. intros (k & _ & H)%bind_Done. destruct k as [[]|]; try (injection H as _ <- <-; now split).
  - chase H; injection H as _ <- <-; split; auto; eapply index_set_length; eassumption.
  - destruct (if Vfs.has_flag _ _ then _ else _) as [off|]; [|injection H as _ <- <-; now split].
    destruct (Mount.tmpfs_write _ _ _ _) as [r1 g] eqn:E.
    assert (vfs_ok v -> vfs_ok (Vfs.with_tmpfs v g)) as Hok.
    { intros [Ht Hw]. split; [|exact Hw]. change g with (snd (r1, g)). rewrite <- E. now apply tmpfs_write_ok. }
    destruct r1; [|injection H as _ <- <-; now split].
    apply bind_Done in H as (t1 & Hs & [= _ <- <-]). split; [exact Hok|eapply index_set_length, Hs].
Qed.

Lemma vfs_read_length (v : Vfs.Vfs D) t t' fd buf r : Vfs.read v t fd buf = Done (r, t') -> length t' = length t.
Proof.
  unfold Vfs.read. intros H. chase H; injection H as _ <-; try reflexivity; eapply index_set_length; eassumption.
Qed.

End Files.

(** ** Pipes and descriptor tables *)

Lemma end_inv f pool id :
  (forall p, Pipe.inv p -> Pipe.inv (f p) /\ Pipe.contents (f p) = Pipe.contents p) ->
  PipePool.pool_inv pool -> PipePool.pool_inv (snd (PipePool.update_end f pool id)).
Proof. intros Hf Hi. now apply PipePool.update_end_spec. Qed.

Lemma dup_kind_inv kind pool : PipePool.pool_inv pool -> PipePool.pool_inv (snd (FdTable.dup_kind kind pool)).
Proof. destruct kind; try easy; apply end_inv; intros p Hp; (split; [apply (Pipe.inv_open_close p Hp)|reflexivity]). Qed.

Lemma close_kind_inv kind pool : PipePool.pool_inv pool -> PipePool.pool_inv (snd (FdTable.close_kind kind pool)).
Proof. destruct kind; try easy; apply end_inv; intros p Hp; (split; [apply (Pipe.inv_open_close p Hp)|reflexivity]). Qed.

Lemma fork_refs_inv entries : forall pool,
  PipePool.pool_inv pool -> PipePool.pool_inv (snd (FdTable.fork_refs entries pool)).
Proof.
  induction entries as [|[kind|] rest IH]; intros pool Hp; cbn [FdTable.fork_refs]; auto.
  pose proof (dup_kind_inv kind pool Hp) as Hd. destruct (FdTable.dup_kind kind pool) as [[u|e] pool1]; cbn [snd] in *; auto.
Qed.

Lemma pool_step_inv pool pool' : pool_step pool pool' -> PipePool.pool_inv pool -> PipePool.pool_inv pool'.
Proof.
  intros Hs Hi. destruct Hs as [|id buf r pool' E|id data r pool' E|t r pool' E].
  - now apply PipePool.exec_create.
  - unfold PipePool.read in E. destruct (PipePool.get pool id) as [p|] eqn:Hg; [|now injection E as _ <-].
    apply PipePool.get_Some in Hg as [Hp _]. pose proof (PipePool.pool_lookup_inv _ _ _ Hi Hp) as Hpi.
    pose proof (Pipe.read_refines p buf Hpi) as Hr. destruct (PipeSpec.read _ _) as [[bytes|e] s'].
    + destruct Hr as (p' & Hi' & _ & Er). rewrite Er in E. injection E as _ <-. now apply PipePool.pool_inv_insert.
    + destruct Hr as [_ Er]. rewrite Er in E. injection E as _ <-. now apply PipePool.pool_inv_insert.
  - unfold PipePool.write in E. destruct (PipePool.get pool id) as [p|] eqn:Hg; [|now injection E as _ <-].
    apply PipePool.get_Some in Hg as [Hp _]. pose proof (PipePool.pool_lookup_inv _ _ _ Hi Hp) as Hpi.
    destruct (Pipe.write_refines p data Hpi) as (r1 & p' & Er & Hi' & _). rewrite Er in E. injection E as _ <-.
    now apply PipePool.pool_inv_insert.
  - unfold FdTable.fork_copy in E. pose proof (fork_refs_inv t pool Hi) as Hf.
    destruct (FdTable.fork_refs t pool) as [r1 pool1]. now injection E as _ <-.
Qed.

Lemma close_ok t pool fd r t' pool' : FdTable.close t pool fd = Done (r, t', pool') ->
  length t' = length t /\ (PipePool.pool_inv pool -> PipePool.pool_inv pool').
Proof.
  unfold FdTable.close. intros H. chase H; injection H as _ <- <-; auto.
  split; [eapply index_set_length; eassumption|]. intros Hi.
  match goal with E : FdTable.close_kind ?kd _ = _ |- _ => pose proof (close_kind_inv kd pool Hi) as Hc; now rewrite E in Hc end.
Qed.

Lemma ends_step_ok t pool t' pool' : ends_step t pool t' pool' ->
  length t' = length t /\ (PipePool.pool_inv pool -> PipePool.pool_inv pool').
Proof.
  intros [fd r t1 pool1 E|oldfd newfd r t1 pool1 E]; [now apply close_ok in E|]. unfold FdTable.dup2 in E.
  repeat (case_match; [now injection E as _ <- <-|]). apply bind_Done in E as (old & _ & E).
  destruct old as [kind|]; [|now injection E as _ <- <-]. apply bind_Done in E as (entry & _ & E).
  apply bind_Done in E as ([[r1 t2] pool2] & Ec & E).
  assert (length t2 = length t /\ (PipePool.pool_inv pool -> PipePool.pool_inv pool2)) as [Hl Hi].
  { destruct (_ && _) in Ec; [now apply close_ok in Ec|now injection Ec as _ <- <-]. }
  destruct r1; [|now injection E as _ <- <-]. pose proof (dup_kind_inv kind pool2) as Hd.
  destruct (FdTable.dup_kind kind pool2) as [[u|e] pool3]; cbn [snd] in Hd.
  - apply bind_Done in E as (t3 & Es & [= _ <- <-]). apply index_set_length in Es. split; [congruence|auto].
  - injection E as _ <- <-. auto.
Qed.

Lemma table_step_length {D} `{BlockDevice D} (v : Vfs.Vfs D) t t' : table_step v t t' -> length t' = length t.
Proof.
  intros [id r t1 E|id r t1 E|fd off r t1 E|fd off r t1 E|fd buf r t1 E];
    try (eapply open_kind_length, E); try (eapply vfs_read_length, E).
  - unfold FdTable.set_offset in E. chase E; injection E as _ <-; try reflexivity; eapply index_set_length; eassumption.
  - unfold FdTable.update_directory_offset in E.
    chase E; injection E as _ <-; try reflexivity; eapply index_set_length; eassumption.
Qed.

(** ** The terminal *)

Lemma tty_read_inv t buf n b t' : Tty.read t buf = Some (n, b, t') -> Tty.inv t -> Tty.inv t'.
Proof.
  intros E Hi. destruct buf as [|b0 buf0]; [now injection E as _ _ <-|].
  rewrite Tty.read_first_line in E by (assumption || discriminate). destruct Hi as [H1 H2 H3].
  destruct (Tty.completed_lines t) as [|line rest] eqn:El; [injection E as _ _ <-; constructor; now rewrite ?El|].
  cbn zeta in E. set (m := Nat.min _ (length line)) in E. assert (m <= length line)%nat as Hm by lia. clearbody m.
  injection E as _ _ <-. apply Forall_cons in H3 as [Hl Hr]. constructor; try assumption.
  cbn [Tty.completed_lines]. destruct (Nat.eqb_spec m (length line)); [exact Hr|].
  constructor; [|exact Hr]. apply Tty.line_ok_drop; [exact Hl|lia].
Qed.

Lemma console_step_inv c c' : console_step c c' -> Tty.inv (tty c) -> Tty.inv (tty c').
Proof.
  intros Hs Hi. destruct Hs as [buf r c' E|b c' E|b|bytes|ready buffer _]; try exact Hi.
  - unfold tty_read in E. destruct (Tty.read (tty c) buf) as [[[n b] t]|] eqn:Er; [|discriminate].
    injection E as _ <-. eapply tty_read_inv; eassumption.
  - unfold read_byte, serial_read_byte in E. chase E; try (destruct (serial_in c)); inv_outcome; exact Hi.
  - unfold tty_input_byte. pose proof (Tty.input_inv (tty c) b Hi) as Hb.
    destruct (Tty.input_byte (tty c) b) as [[a e] t]. exact Hb.
Qed.

(** ** The process table *)

(** The same process, with the same rights and descriptors. *)
Definition similar (q q' : Process.Process) : Prop :=
  Process.pid q' = Process.pid q /\ Process.uid q' = Process.uid q /\ Process.gid q' = Process.gid q
  /\ Process.parent_pid q' = Process.parent_pid q /\ Process.fd_table q' = Process.fd_table q.

(** Every process of [s'] comes from one of [s]. *)
Definition from (s s' : Scheduler.Scheduler) : Prop :=
  forall q', q' ∈ Scheduler.all_processes s' -> exists q, q ∈ Scheduler.all_processes s /\ similar q q'.

Lemma similar_refl q : similar q q.
Proof. repeat split. Qed.

Lemma similar_trans q q1 q2 : similar q q1 -> similar q1 q2 -> similar q q2.
Proof. intros (A & B & C & E & F) (A' & B' & C' & E' & F'). repeat split; congruence. Qed.

Lemma elem_all s q : q ∈ Scheduler.all_processes s <-> Scheduler.current s = Some q \/ q ∈ Scheduler.ready_queue s.
Proof.
  unfold Scheduler.all_processes. destruct (Scheduler.current s) as [p|]; cbn; rewrite ?elem_of_cons; naive_solver.
Qed.

Lemma from_map s (f : Process.Process -> Process.Process) g : (forall q, similar q (f q)) ->
  from s (Scheduler.mkSched (f <$> Scheduler.ready_queue s) (f <$> Scheduler.current s) g).
Proof.
  intros Hf q' [H|H]%elem_all; cbn in H.
  - destruct (Scheduler.current s) as [p|] eqn:E; [|discriminate]. injection H as <-. exists p. rewrite elem_all. auto.
  - apply list_elem_of_fmap in H as (q & -> & Hq). exists q. rewrite elem_all. auto.
Qed.

Lemma deliver_similar p : similar p (snd (Process.deliver_signals p)).
Proof. unfold Process.deliver_signals, Process.resume. repeat case_match; repeat split. Qed.

Lemma wake_if_similar c p : similar p (Scheduler.wake_if c p).
Proof. unfold Scheduler.wake_if. case_match; repeat split. Qed.

Lemma requeue_from s q' : q' ∈ Scheduler.ready_queue (Scheduler.requeue_current s) ->
  exists q, q ∈ Scheduler.all_processes s /\ similar q q'.
Proof.
  unfold Scheduler.requeue_current. intros H.
  destruct (Scheduler.current s) as [c|] eqn:Ec; [|exists q'; rewrite elem_all; auto using similar_refl].
  assert (forall q, q ∈ Scheduler.ready_queue s -> exists q0, q0 ∈ Scheduler.all_processes s /\ similar q0 q) as Hq
    by (intros q ?; exists q; rewrite elem_all; auto using similar_refl).
  assert (forall q, similar c q -> exists q0, q0 ∈ Scheduler.all_processes s /\ similar q0 q) as Hc
    by (intros q ?; exists c; rewrite elem_all; auto).
  destruct (Process.is_exited c); [auto|]. pose proof (deliver_similar c) as Hd.
  destruct (Process.deliver_signals c) as [[] c']; cbn in H, Hd.
  - apply elem_of_app in H as [H|H%list_elem_of_singleton]; [auto|]. subst q'. apply Hc. case_match; exact Hd.
  - auto.
  - apply list_elem_of_fmap in H as (q & -> & [H|H%list_elem_of_singleton]%elem_of_app).
    + destruct (Hq _ H) as (q0 & ? & ?). eauto using similar_trans, wake_if_similar.
    + subst q. apply Hc. eapply similar_trans; [exact Hd|]. apply (wake_if_similar _ (Process.set_stopped c')).
  - apply elem_of_app in H as [H|H%list_elem_of_singleton]; [auto|]. subst q'. apply Hc. case_match; exact Hd.
Qed.

Lemma schedule_from s : from s (snd (Scheduler.schedule_next s)).
Proof.
  intros q' H. destruct (Scheduler.schedule_next_spec s) as [[_ E]|(i & p & Hi & _ & _ & E)]; rewrite E in H; cbn [snd] in H;
    apply elem_all in H as [H|H]; cbn in H; [discriminate|now apply requeue_from| |].
  - injection H as <-. apply (requeue_from s p). eapply list_elem_of_lookup_2, Hi.
  - apply requeue_from. apply elem_of_app in H as [H|H].
    + apply list_elem_of_lookup in H as (j & Hj). rewrite lookup_drop in Hj. eapply list_elem_of_lookup_2, Hj.
    + apply list_elem_of_lookup in H as (j & Hj). apply lookup_take_Some in Hj as [Hj _]. eapply list_elem_of_lookup_2, Hj.
Qed.

Lemma reap_from s parent : from s (snd (Scheduler.find_zombie_child s parent)).
Proof.
  intros q' H. exists q'. split; [|apply similar_refl]. unfold Scheduler.find_zombie_child in H.
  pose proof (Scheduler.take_first_spec (Scheduler.zombie_child_of parent) (Scheduler.ready_queue s)) as Ht.
  destruct (Scheduler.take_first _ _) as [r queue].
  assert (forall q, q ∈ queue -> q ∈ Scheduler.ready_queue s) as Hq.
  { intros q Hq. destruct r; destruct Ht as [Ht1 Ht2]; [rewrite <- Ht2; now right|now subst]. }
  apply elem_all. destruct (Scheduler.current s) as [c|] eqn:Ec; [destruct (Scheduler.zombie_child_of parent c)|];
    cbn [snd] in H; apply elem_all in H as [H|H]; cbn in H; auto; rewrite ?Ec in H; auto; discriminate.
Qed.

(** ** The steps keep the invariant *)

Lemma exit_update s code :
  snd (Scheduler.exit_current s code) = Scheduler.update_current s (fun p => Process.set_exited p code).
Proof. destruct s as [q [c|] g]; reflexivity. Qed.

Lemma steps_one s s' : Scheduler.step s s' -> Scheduler.steps s s'.
Proof. intros H. eapply Scheduler.steps_trans; [apply Scheduler.steps_refl|exact H]. Qed.

Lemma steps_app s s1 s2 : Scheduler.steps s s1 -> Scheduler.steps s1 s2 -> Scheduler.steps s s2.
Proof. intros H1 H2. induction H2; [exact H1|eapply Scheduler.steps_trans; eauto]. Qed.

Section Steps.
Context {D : Type} {BD : BlockDevice D}.
Context (to_lowercase : string -> string).
Context {V : Type} {SP : Spaces V}.
Context {N : Type} {DR : Net.Driver N}.
Context (user_cs user_ss : Z).

Notation Kernel := (Kernel.Kernel (D := D) (V := V) (N := N)).
Notation kstep := (Steps.kstep to_lowercase).
Notation trace := (Steps.trace to_lowercase).

(** The scheduler moves by its own steps. *)
Lemma kstep_sched (k k' : Kernel) : kstep k k' -> Scheduler.steps (sched k) (sched k').
Proof.
  assert (forall f, Scheduler.keeps_state f -> Scheduler.steps (sched k) (Scheduler.update_current (sched k) f)) as Hu
    by (intros; now apply steps_one, Scheduler.step_update).
  intros [k1 (-> & _)|c _|pool _|p t _ _|p t pool _ _|p t v _ _|p v _ _|f Hf _|p u _ _ _|p g _ _ _|f (code & [->| ->])|child|group sig
    |p _|p child s _ _ Ha]; cbn [sched with_sched with_console with_pipes with_vfs set_table];
    try apply Scheduler.steps_refl; try (apply Hu; intros q; now split).
  - apply Hu. intros q. destruct (Hf q) as (? & _ & ? & _). now split.
  - apply steps_one, Scheduler.step_zombie.
  - rewrite <- exit_update. apply steps_one, Scheduler.step_exit.
  - apply steps_one, Scheduler.step_wake.
  - apply steps_one, Scheduler.step_signal.
  - apply steps_one, Scheduler.step_reap.
  - eapply steps_one, Scheduler.step_add, Ha.
Qed.

Lemma trace_sched b (k k' : Kernel) : trace b k k' -> Scheduler.steps (sched k) (sched k').
Proof.
  induction 1 as [k|b k k1 k2 H1 _ IH|k k' (-> & _)]; [apply Scheduler.steps_refl| |].
  - eapply steps_app; [eapply kstep_sched, H1|exact IH].
  - apply steps_one, Scheduler.step_schedule.
Qed.

Lemma from_ok s s' : from s s' -> Forall process_ok (Scheduler.all_processes s) -> Forall process_ok (Scheduler.all_processes s').
Proof.
  intros Hf Ho. apply Forall_forall. intros q' Hq'. destruct (Hf q' Hq') as (q & Hq & _ & Hu & _ & _ & Ht).
  rewrite Forall_forall in Ho. destruct (Ho q Hq). split; congruence.
Qed.

Lemma update_ok s f : Forall process_ok (Scheduler.all_processes s) ->
  (forall p, Scheduler.current s = Some p -> process_ok p -> process_ok (f p)) ->
  Forall process_ok (Scheduler.all_processes (Scheduler.update_current s f)).
Proof.
  intros Ho Hf. unfold Scheduler.all_processes in *. cbn. destruct (Scheduler.current s) as [p|]; [|exact Ho].
  cbn in *. apply Forall_cons in Ho as [H1 H2]. constructor; auto.
Qed.

Lemma kstep_processes (k k' : Kernel) : kstep k k' ->
  Forall process_ok (Scheduler.all_processes (sched k)) -> Forall process_ok (Scheduler.all_processes (sched k')).
Proof.
  assert (forall t p, length t = length (Process.fd_table p) -> Scheduler.current (sched k) = Some p ->
    Forall process_ok (Scheduler.all_processes (sched k)) -> Forall process_ok (Scheduler.all_processes (sched (set_table k t)))) as Ht.
  { intros t p Hl Hp Ho. apply update_ok; [exact Ho|]. intros q Hq [H1 H2]. rewrite Hp in Hq. injection Hq as <-.
    split; [cbn; congruence|exact H2]. }
  intros Hs Ho. destruct Hs as [k1 (-> & _)|c _|pool _|p t Hp Hs|p t pool Hp Hs|p t v Hp Hs|p v _ _|f Hf Hft|p u _ _ Hu|p g _ _ _
    |f (code & [->| ->])|child|group sig|p _|p child s Hp (p0 & pool & pool' & cp & pt & top & c & Hf & -> & ->) Ha];
    cbn [sched with_sched with_console with_pipes with_vfs]; try exact Ho.
  - eapply Ht; [eapply table_step_length, Hs|exact Hp|exact Ho].
  - eapply Ht; [eapply ends_step_ok, Hs|exact Hp|exact Ho].
  - eapply Ht; [|exact Hp|exact Ho]. destruct Hs as [path flags r t1 v1 E|fd data r t1 v1 E]; [eapply open_path_ok, E|eapply vfs_write_ok, E].
  - apply update_ok; [exact Ho|]. intros q _ [H1 H2]. destruct (Hf q) as (_ & _ & _ & E & _). split; [now rewrite Hft|now rewrite E].
  - apply update_ok; [exact Ho|]. intros q _ [H1 H2]. split; [exact H1|exact Hu].
  - apply update_ok; [exact Ho|]. intros q _ [H1 H2]. now split.
  - apply update_ok; [exact Ho|]. intros q _ [H1 H2]. now split.
  - apply update_ok; [exact Ho|]. intros q _ [H1 H2]. now split.
  - eapply from_ok; [|exact Ho]. apply from_map, wake_if_similar.
  - eapply from_ok; [|exact Ho]. apply from_map. intros q. unfold Scheduler.signal_if. case_match; repeat split.
  - eapply from_ok; [|exact Ho]. apply reap_from.
  - apply bind_Done in Ha as (u & _ & [= <-]). rewrite Forall_forall in Ho. apply Forall_forall.
    intros q [H|H]%elem_all; cbn in H; [apply Ho, elem_all; auto|].
    apply elem_of_app in H as [H|H%list_elem_of_singleton]; [apply Ho, elem_all; auto|]. subst q.
    assert (process_ok p0) as [H1 H2] by (destruct (Ho _ (proj2 (elem_all _ _) (or_introl Hp))); now split).
    unfold Process.fork_from in Hf. destruct (FdTable.fork_copy _ _) as [r1 pool1] eqn:Ec. unfold FdTable.fork_copy in Ec.
    destruct (FdTable.fork_refs _ _) as [[?|?] ?]; injection Ec as <- _; [|discriminate]. injection Hf as <- _. now split.
Qed.

Lemma file_step_ok p (v v' : Vfs.Vfs D) : file_step to_lowercase p v v' -> vfs_ok v -> vfs_ok v'.
Proof.
  intros Hs [Ht Hw]. destruct Hs as [path|path mode m _ _ _|path u g _|parent name r g E|parent name r g E|op on np nn r g E].
  - split; [|now apply Vfs.unlink_path_wf]. unfold Vfs.unlink_path. repeat case_match; try exact Ht.
    match goal with E : Mount.tmpfs_unlink _ ?a ?b = _ |- _ => pose proof (tmpfs_unlink_ok _ a b Ht) as Hk; now rewrite E in Hk end.
  - unfold Vfs.chmod_path. repeat case_match; try (now split). split; [|exact Hw].
    match goal with E : Mount.tmpfs_chmod _ ?a ?b = _ |- _ => pose proof (tmpfs_chmod_ok _ a b Ht) as Hk; now rewrite E in Hk end.
  - unfold Vfs.chown_path. repeat case_match; now split.
  - split; [eapply tmpfs_create_ok; eassumption|exact Hw].
  - split; [|exact Hw]. pose proof (tmpfs_rmdir_ok _ parent name Ht) as Hk. now rewrite E in Hk.
  - split; [|exact Hw]. pose proof (tmpfs_rename_ok _ op on np nn Ht) as Hk. now rewrite E in Hk.
Qed.

Lemma kstep_vfs (k k' : Kernel) : kstep k k' -> vfs_ok (vfs k) -> vfs_ok (vfs k').
Proof.
  intros Hs Ho. destruct Hs as [k1 (_ & _ & -> & _)|c _|pool _|p t _ _|p t pool _ _|p t v _ Hs|p v _ Hs| | | | | | | |];
    try exact Ho; cbn [vfs with_vfs].
  - revert Ho. destruct Hs as [path flags r t1 v1 E|fd data r t1 v1 E]; [eapply open_path_ok, E|eapply vfs_write_ok, E].
  - eapply file_step_ok; eassumption.
Qed.

Lemma kstep_ok (k k' : Kernel) : kernel_ok k -> kstep k k' -> kernel_ok k'.
Proof.
  intros [Hs Hp Hpi Ht Hv Hty] H. pose proof (kstep_vfs _ _ H (conj Ht Hv)) as [Ht' Hv'].
  constructor; try assumption.
  - eapply steps_app; [exact Hs|eapply kstep_sched, H].
  - eapply kstep_processes; eassumption.
  - destruct H as [k1 (_ & -> & _)|c _|pool Hps|p t _ _|p t pool _ Hes| | | | | | | | | |]; try exact Hpi.
    + eapply pool_step_inv; eassumption.
    + now apply (ends_step_ok _ _ _ _ Hes).
  - destruct H as [k1 (_ & _ & _ & ->)|c Hc| | | | | | | | | | | | |]; try exact Hty. eapply console_step_inv; eassumption.
Qed.

Lemma silent_ok (k k' : Kernel) : silent k k' -> kernel_ok k -> kernel_ok k'.
Proof. intros (A & B & C & E) [? ? ? ? ? ?]. constructor; rewrite ?A, ?B, ?C, ?E; assumption. Qed.

Lemma trace_ok b (k k' : Kernel) : trace b k k' -> kernel_ok k -> kernel_ok k'.
Proof.
  induction 1 as [k|b k k1 k2 H1 _ IH|k k' (A & B & C & E)]; intros Ho; [exact Ho|eauto using kstep_ok|].
  destruct Ho as [Hs Hp Hpi Ht Hv Hty]. constructor; rewrite ?A, ?B, ?C, ?E; try assumption.
  - eapply steps_app; [exact Hs|apply steps_one, Scheduler.step_schedule].
  - eapply from_ok; [apply schedule_from|exact Hp].
Qed.

Notation mstep := (mstep to_lowercase user_cs user_ss).

Lemma mstep_ok (k k' : Kernel) : kernel_ok k -> mstep k k' -> kernel_ok k'.
Proof.
  intros Ho [regs r k1 E|r k1 E|ready r k1 E|bytes|k1 Hs].
  - destruct (runs_syscall_entry _ _ _ _ _ _ _ E) as (b & Hb & _). eapply trace_ok; eassumption.
  - apply bind_Done in E as (n & _ & [= _ <-]). eapply silent_ok; [|exact Ho]. repeat split.
  - apply bind_Done in E as ([u c] & E & [= _ <-]). apply bind_Done in E as (buffer & E & [= _ <-]).
    eapply kstep_ok; [exact Ho|]. apply ks_console. eapply cs_keys, E.
  - destruct Ho. now constructor.
  - eapply silent_ok; eassumption.
Qed.

(** C1: the invariant of the running kernel. From a state in which the parts of
    the kernel are well formed, every system call a program makes, with any
    number and arguments, and every interrupt and input lead to such a state:
    the scheduler and the tmpfs are in states that their operations can reach, so
    that at most one process runs, and in the tmpfs every entry leads to a node
    and every node but the root has exactly one name; pipes, terminal and
    descriptor tables keep their invariants; and every process belongs to a
    known user. *)
Theorem kernel_invariant (k k' : Kernel) : kernel_ok k -> rtc mstep k k' ->
  kernel_ok k'
  /\ (length (filter (fun p => Process.state p = Process.Running) (Scheduler.all_processes (sched k'))) <= 1)%nat
  /\ forall fs, Vfs.tmpfs (vfs k') = Some fs -> TmpFs.inv fs.
Proof.
  intros Ho Hr. assert (kernel_ok k') as Ho' by (induction Hr; eauto using mstep_ok).
  split; [exact Ho'|]. split; [apply Scheduler.at_most_one_running, Scheduler.sched_reachable_inv, Ho'|].
  intros fs E. now apply TmpFs.tmpfs_reachable_inv, (ok_tmpfs _ Ho').
Qed.

(** ** Privileges *)

(** The running process is not the superuser, and no process got there. *)
Definition unprivileged (s : Scheduler.Scheduler) : Prop :=
  forall p, Scheduler.current s = Some p -> Process.uid p <> 0.

Definition no_new_root (s s' : Scheduler.Scheduler) : Prop :=
  forall q', q' ∈ Scheduler.all_processes s' -> Process.uid q' = 0 ->
  exists q, q ∈ Scheduler.all_processes s /\ Process.pid q = Process.pid q' /\ Process.uid q = 0.

Lemma no_new_root_trans s s1 s2 : no_new_root s s1 -> no_new_root s1 s2 -> no_new_root s s2.
Proof.
  intros H1 H2 q2 Hq2 Hu2. destruct (H2 q2 Hq2 Hu2) as (q1 & Hq1 & Hp1 & Hu1).
  destruct (H1 q1 Hq1 Hu1) as (q & Hq & Hp & Hu). exists q. split; [exact Hq|]. split; congruence.
Qed.

Lemma from_no_new_root s s' : from s s' -> no_new_root s s'.
Proof. intros Hf q' Hq' Hu'. destruct (Hf q' Hq') as (q & Hq & Hp & Hu & _). exists q. split; [exact Hq|]. split; congruence. Qed.

Lemma update_from s f : (forall p, Scheduler.current s = Some p -> Process.pid (f p) = Process.pid p /\ Process.uid (f p) = Process.uid p) ->
  unprivileged s -> no_new_root s (Scheduler.update_current s f) /\ unprivileged (Scheduler.update_current s f).
Proof.
  intros Hf Hn. split.
  - intros q' [H|H]%elem_all Hu; cbn in H; [|exists q'; rewrite elem_all; auto].
    destruct (Scheduler.current s) as [p|] eqn:Ep; [|discriminate]. injection H as <-. destruct (Hf p eq_refl) as [E1 E2].
    exfalso. apply (Hn p Ep). congruence.
  - intros p H. cbn in H. destruct (Scheduler.current s) as [q|] eqn:Ep; [|discriminate]. injection H as <-.
    destruct (Hf q eq_refl) as [E1 E2]. rewrite E2. now apply Hn.
Qed.

Lemma kstep_unprivileged (k k' : Kernel) : kstep k k' -> unprivileged (sched k) ->
  no_new_root (sched k) (sched k') /\ unprivileged (sched k').
Proof.
  intros Hs Hn.
  assert (no_new_root (sched k) (sched k)) as Hr by (intros q Hq Hu; exists q; auto).
  destruct Hs as [k1 (-> & _)|c _|pool _|p t _ _|p t pool _ _|p t v _ _|p v _ _|f Hf _|p u Hp Hu _|p g Hp Hu _|f (code & [->| ->])
    |child|group sig|p _|p child s Hp (p0 & pool & pool' & cp & pt & top & c & Hf & -> & ->) Ha];
    cbn [sched with_sched with_console with_pipes with_vfs set_table]; try (now split);
    try (apply update_from; [intros q _; now split|exact Hn]).
  - apply update_from; [|exact Hn]. intros q _. destruct (Hf q) as (? & _ & _ & ? & _). now split.
  - destruct (Hn p Hp Hu).
  - split; [apply from_no_new_root, from_map, wake_if_similar|]. intros p Hp. cbn in Hp.
    destruct (Scheduler.current (sched k)) as [q|] eqn:Ep; [|discriminate]. injection Hp as <-.
    destruct (wake_if_similar child q) as (_ & -> & _). now apply Hn.
  - split; [apply from_no_new_root, from_map; intros q; unfold Scheduler.signal_if; case_match; repeat split|].
    intros p Hp. cbn in Hp. destruct (Scheduler.current (sched k)) as [q|] eqn:Ep; [|discriminate]. injection Hp as <-.
    unfold Scheduler.signal_if. case_match; exact (Hn q Ep).
  - split; [apply from_no_new_root, reap_from|]. intros q Hq. destruct (reap_from (sched k) (Process.pid p) q) as (q0 & _ & _ & Hu0 & _).
    { apply elem_all. auto. }
    unfold Scheduler.find_zombie_child in Hq. destruct (Scheduler.take_first _ _).
    destruct (Scheduler.current (sched k)) as [c|] eqn:Ec; [destruct (Scheduler.zombie_child_of _ c)|]; cbn in Hq; try discriminate;
      rewrite ?Ec in Hq; apply Hn; congruence.
  - apply bind_Done in Ha as (u & _ & [= <-]). split; [|exact Hn].
    intros q [H|H]%elem_all Hu; cbn in H; [exists q; rewrite elem_all; auto|].
    apply elem_of_app in H as [H|H%list_elem_of_singleton]; [exists q; rewrite elem_all; auto|]. subst q.
    exfalso. apply (Hn _ Hp). cbn in *. unfold Process.fork_from in Hf. destruct (FdTable.fork_copy _ _) as [[r1|e] pool1]; [|discriminate].
    injection Hf as <- _. exact Hu.
Qed.

Lemma trace_unprivileged b (k k' : Kernel) : trace b k k' -> unprivileged (sched k) -> no_new_root (sched k) (sched k').
Proof.
  induction 1 as [k|b k k1 k2 H1 _ IH|k k' (-> & _)]; intros Hn.
  - intros q Hq Hu. exists q. auto.
  - destruct (kstep_unprivileged _ _ H1 Hn) as [Hr1 Hn1]. eapply no_new_root_trans; eauto.
  - apply from_no_new_root, schedule_from.
Qed.

(** C3: no privilege escalation. Whatever system call a process that is not the
    superuser makes, and whatever it returns, every process that is the
    superuser afterwards was there before and was the superuser. *)
Theorem no_privilege_escalation (k k' : Kernel) regs r p :
  Scheduler.current (sched k) = Some p -> Process.uid p <> 0 ->
  syscall_entry to_lowercase user_cs user_ss regs k = Done (r, k') ->
  forall q', q' ∈ Scheduler.all_processes (sched k') -> Process.uid q' = 0 ->
  exists q, q ∈ Scheduler.all_processes (sched k) /\ Process.pid q = Process.pid q' /\ Process.uid q = 0.
Proof.
  intros Hp Hu E. destruct (runs_syscall_entry _ _ _ _ _ _ _ E) as (b & Hb & _).
  apply (trace_unprivileged _ _ _ Hb). intros q Hq. congruence.
Qed.

(** ** Isolation *)

Lemma kin_refl q : kin q q.
Proof. reflexivity. Qed.

Lemma kin_trans q q1 q2 : kin q q1 -> kin q1 q2 -> kin q q2.
Proof. unfold kin. congruence. Qed.

Lemma kin_fields q q' : kin q q' -> Process.is_zombie q' = Process.is_zombie q /\ Process.parent_pid q' = Process.parent_pid q.
Proof.
  intros H. pose proof (f_equal Process.state H) as H1. pose proof (f_equal Process.parent_pid H) as H2. cbn in H1, H2.
  unfold Process.is_zombie. now rewrite H1.
Qed.

(** The running process stays, unless it is its own parent, when it could
    reap itself; the others are as they were, but for signals and waiting,
    unless they were zombies and have been reaped; and another one is a child
    of the running process, or that process itself. *)
Record isolated (s s' : Scheduler.Scheduler) : Prop := mkIsolated {
  iso_kept : forall q, q ∈ Scheduler.ready_queue s -> Process.is_zombie q = false ->
    exists q', q' ∈ Scheduler.ready_queue s' /\ kin q q';
  iso_new : forall q', q' ∈ Scheduler.ready_queue s' ->
    (exists q, q ∈ Scheduler.ready_queue s /\ kin q q')
    \/ (exists p, Scheduler.current s = Some p
         /\ (Process.parent_pid q' = Some (Process.pid p) \/ Process.pid q' = Process.pid p))
}.

Definition own_parent (p : Process.Process) : Prop := Process.parent_pid p = Some (Process.pid p).

(** The same process is running. *)
Definition still (s s' : Scheduler.Scheduler) : Prop :=
  (forall p', Scheduler.current s' = Some p' ->
    exists p, Scheduler.current s = Some p /\ Process.pid p' = Process.pid p)
  /\ forall p, Scheduler.current s = Some p -> ~ own_parent p ->
    exists p', Scheduler.current s' = Some p' /\ Process.pid p' = Process.pid p /\ ~ own_parent p'.

Lemma still_trans s s1 s2 : still s s1 -> still s1 s2 -> still s s2.
Proof.
  intros [A B] [A' B']. split.
  - intros p2 H2. destruct (A' p2 H2) as (p1 & H1 & E1). destruct (A p1 H1) as (p & H & E). exists p. split; [exact H|congruence].
  - intros p Hp Ho. destruct (B p Hp Ho) as (p1 & Hp1 & E1 & Ho1). destruct (B' p1 Hp1 Ho1) as (p2 & Hp2 & E2 & Ho2).
    exists p2. split; [exact Hp2|]. split; [congruence|exact Ho2].
Qed.

Lemma isolated_trans s s1 s2 : still s s1 -> isolated s s1 -> isolated s1 s2 -> isolated s s2.
Proof.
  intros [A _] [B C] [B' C']. constructor.
  - intros q Hq Hz. destruct (B q Hq Hz) as (q1 & Hq1 & K1). destruct (kin_fields _ _ K1) as [Hz1 _].
    destruct (B' q1 Hq1) as (q2 & Hq2 & K2); [congruence|]. exists q2. eauto using kin_trans.
  - intros q2 Hq2. destruct (C' q2 Hq2) as [(q1 & Hq1 & K2)|(p1 & Hp1 & E1)].
    + destruct (C q1 Hq1) as [(q & Hq & K1)|(p & Hp & E)]; [left; eauto using kin_trans|right].
      exists p. split; [exact Hp|]. destruct (kin_fields _ _ K2) as [_ ->].
      pose proof (f_equal Process.pid K2) as K3. cbn in K3. rewrite K3. exact E.
    + right. destruct (A p1 Hp1) as (p & Hp & E). exists p. split; [exact Hp|]. now rewrite <- E.
Qed.

Lemma isolated_same s c g : isolated s (Scheduler.mkSched (Scheduler.ready_queue s) c g).
Proof. constructor; eauto using kin_refl. Qed.

Lemma still_map s q f g : (forall p, Process.pid (f p) = Process.pid p /\ Process.parent_pid (f p) = Process.parent_pid p) ->
  still s (Scheduler.mkSched q (f <$> Scheduler.current s) g).
Proof.
  intros Hf. unfold still, own_parent. cbn. destruct (Scheduler.current s) as [p|]; [|split; discriminate]. cbn. destruct (Hf p) as [E1 E2]. split.
  - intros p' [= <-]. exists p. auto.
  - intros p0 [= <-] Ho. exists (f p). rewrite E1, E2. auto.
Qed.

Lemma still_refl s q g : still s (Scheduler.mkSched q (Scheduler.current s) g).
Proof. unfold still. cbn. split; eauto. Qed.

Lemma isolated_map s f g : (forall q, kin q (f q)) ->
  isolated s (Scheduler.mkSched (f <$> Scheduler.ready_queue s) (f <$> Scheduler.current s) g).
Proof.
  intros Hf. constructor; cbn.
  - intros q Hq _. exists (f q). split; [|apply Hf]. apply list_elem_of_fmap. eauto.
  - intros q' (q & -> & Hq)%list_elem_of_fmap. left. exists q. split; [exact Hq|apply Hf].
Qed.

Lemma isolated_reap s parent : isolated s (snd (Scheduler.find_zombie_child s parent)).
Proof.
  unfold Scheduler.find_zombie_child.
  pose proof (Scheduler.take_first_spec (Scheduler.zombie_child_of parent) (Scheduler.ready_queue s)) as Ht.
  destruct (Scheduler.take_first _ _) as [r queue].
  assert (forall c, isolated s (Scheduler.mkSched queue c (Scheduler.foreground_pgid s))) as Hc.
  { intros c. constructor; cbn.
    - intros q Hq Hz. exists q. split; [|apply kin_refl]. destruct r as [z|]; destruct Ht as [H1 H2]; [|now subst].
      rewrite <- H2 in Hq. apply elem_of_cons in Hq as [->|Hq]; [|exact Hq].
      unfold Scheduler.zombie_child_of in H1. now rewrite Hz in H1.
    - intros q' Hq'. left. exists q'. split; [|apply kin_refl]. destruct r as [z|]; destruct Ht as [H1 H2]; [|now subst].
      rewrite <- H2. now right. }
  destruct (Scheduler.current s) as [c|] eqn:Ec; [destruct (Scheduler.zombie_child_of parent c)|]; cbn [snd]; auto.
  apply isolated_same.
Qed.

Lemma still_reap s p : Scheduler.current s = Some p -> still s (snd (Scheduler.find_zombie_child s (Process.pid p))).
Proof.
  intros Hp. unfold Scheduler.find_zombie_child. rewrite Hp. destruct (Scheduler.take_first _ _) as [r queue].
  destruct (Scheduler.zombie_child_of (Process.pid p) p) eqn:Ez; cbn [snd].
  - split; cbn; [discriminate|]. intros q [= <-]%(eq_trans (eq_sym Hp)) Ho. destruct Ho. unfold Scheduler.zombie_child_of in Ez.
    apply andb_true_iff in Ez as [_ Ez]. now apply bool_decide_eq_true in Ez.
  - rewrite <- Hp. apply still_refl.
Qed.

Lemma kstep_isolated (k k' : Kernel) : kstep k k' -> isolated (sched k) (sched k') /\ still (sched k) (sched k').
Proof.
  assert (forall s, isolated s s /\ still s s) as Hr.
  { intros [q c g]. split; [apply (isolated_same (Scheduler.mkSched q c g))|apply (still_refl (Scheduler.mkSched q c g))]. }
  assert (forall s f, (forall p, Process.pid (f p) = Process.pid p /\ Process.parent_pid (f p) = Process.parent_pid p) ->
    isolated s (Scheduler.update_current s f) /\ still s (Scheduler.update_current s f)) as Hu.
  { intros s f Hf. split; [apply isolated_same|now apply still_map]. }
  intros [k1 (-> & _)|c _|pool _|p t _ _|p t pool _ _|p t v _ _|p v _ _|f Hf _|p u _ _ _|p g _ _ _|f (code & [->| ->])|child|group sig
    |p Hp|p child s Hp (p0 & pool & pool' & cp & pt & top & c & Hf & -> & ->) Ha];
    cbn [sched with_sched with_console with_pipes with_vfs set_table]; try apply Hr; try (apply Hu; intros; split; reflexivity).
  - apply Hu. intros q. destruct (Hf q) as (? & ? & _). now split.
  - split; [apply isolated_map|apply still_map]; intros q; unfold Scheduler.wake_if; case_match; now try split.
  - split; [apply isolated_map|apply still_map]; intros q; unfold Scheduler.signal_if; case_match; now try split.
  - split; [apply isolated_reap|now apply still_reap].
  - apply bind_Done in Ha as (u & _ & [= <-]). split; [|apply still_refl]. constructor; cbn.
    + intros q Hq _. exists q. split; [apply elem_of_app; auto|apply kin_refl].
    + intros q' [H|H%list_elem_of_singleton]%elem_of_app; [left; eauto using kin_refl|]. subst q'. right.
      exists (Process.with_context p0 (Process.with_rax (Process.context p0) cp)). split; [exact Hp|]. left. cbn.
      unfold Process.fork_from in Hf. destruct (FdTable.fork_copy _ _) as [[r1|e] pool1]; [|discriminate]. now injection Hf as <- _.
Qed.

(** A switch that finds nobody: only the process that was running moved. *)
Lemma idle_isolated s : fst (Scheduler.schedule_next s) = None -> isolated s (snd (Scheduler.schedule_next s)).
Proof.
  destruct (Scheduler.schedule_next_spec s) as [[_ ->]|(i & p & _ & _ & _ & ->)]; [|discriminate]. intros _. cbn [snd].
  unfold Scheduler.requeue_current. destruct (Scheduler.current s) as [c|] eqn:Ec; [|apply isolated_same].
  destruct (Process.is_exited c); [exact (isolated_same s None _)|]. pose proof (deliver_similar c) as (Hd & _).
  destruct (Process.deliver_signals c) as [[] c']; cbn in Hd; try exact (isolated_same s None _); (constructor; cbn).
  - intros q Hq _. exists q. split; [apply elem_of_app; auto|apply kin_refl].
  - intros q [H|H%list_elem_of_singleton]%elem_of_app; [left; eauto using kin_refl|]. subst q. right. exists c. split; [exact Ec|].
    right. case_match; exact Hd.
  - intros q Hq _. exists (Scheduler.wake_if (Process.pid c') q). split; [|unfold Scheduler.wake_if; now case_match].
    apply list_elem_of_fmap. exists q. split; [reflexivity|apply elem_of_app; auto].
  - intros q' (q & -> & [H|H%list_elem_of_singleton]%elem_of_app)%list_elem_of_fmap.
    + left. exists q. split; [exact H|unfold Scheduler.wake_if; now case_match].
    + right. exists c. split; [exact Ec|]. right. subst q. rewrite <- Hd. unfold Scheduler.wake_if. now case_match.
  - intros q Hq _. exists q. split; [apply elem_of_app; auto|apply kin_refl].
  - intros q [H|H%list_elem_of_singleton]%elem_of_app; [left; eauto using kin_refl|]. subst q. right. exists c. split; [exact Ec|].
    right. case_match; exact Hd.
Qed.

Lemma trace_isolated b (k k' : Kernel) : trace b k k' -> (b = true -> idle k') ->
  isolated (sched k) (sched k') /\ (b = false -> still (sched k) (sched k')).
Proof.
  induction 1 as [k|b k k1 k2 H1 _ IH|k k' (Hs & _)]; intros Hi.
  - destruct (sched k) as [q c g]. split; [apply (isolated_same (Scheduler.mkSched q c g))|intros _; apply (still_refl (Scheduler.mkSched q c g))].
  - destruct (kstep_isolated _ _ H1) as [I1 S1]. destruct (IH Hi) as [I2 S2]. split; [eauto using isolated_trans|eauto using still_trans].
  - split; [|discriminate]. rewrite Hs. apply idle_isolated. destruct (Hi eq_refl) as [Hn _]. rewrite Hs in Hn.
    destruct (Scheduler.schedule_next_spec (sched k)) as [[_ E]|(i & p & _ & _ & _ & E)]; rewrite E in Hn |- *; [reflexivity|discriminate].
Qed.

(** C2: processes are isolated. When a system call returns to its caller, a
    process that is not its own parent, then either the caller is still the
    running process, or no process is and none can run: the caller has been
    stopped or killed by a signal or waits, and the kernel returns to it
    nevertheless.  In both cases every other process that was not a zombie is
    still there, and its record is the same but for pending signals and what it
    waits for: saved registers, page table, descriptors, directory and rights
    are untouched; and a process that was not there is a child of the caller.
    Its memory is untouched too: where the memory manager keeps address spaces
    apart, as the reference memory [Ideal] does, every byte of an address space
    that exists, is not active and belongs neither to the caller nor to a zombie
    is the same. *)
Theorem processes_are_isolated (k k' : Kernel) regs c p :
  Scheduler.current (sched k) = Some p -> ~ own_parent p ->
  syscall_entry to_lowercase user_cs user_ss regs k = Done (Ok c, k') ->
  isolated (sched k) (sched k')
  /\ ((exists p', Scheduler.current (sched k') = Some p' /\ Process.pid p' = Process.pid p) \/ idle k')
  /\ forall (AP : Apart V) r, Isolation.foreign r k -> unchanged (vm k) (vm k') r.
Proof.
  intros Hp Ho E. apply and_assoc. split.
  2:{ intros AP r Hr. exact (proj2 (Isolation.calm_syscall_entry to_lowercase r _ _ k regs Hr _ _ E eq_refl)). }
  destruct (runs_syscall_entry _ _ _ _ _ _ _ E) as ([|] & Hb & Hg).
  - destruct (Hg eq_refl) as [?|Hi]; [discriminate|]. split; [now apply (trace_isolated _ _ _ Hb)|auto].
  - destruct (trace_isolated _ _ _ Hb) as [Hi [_ Hs]]; [discriminate|reflexivity|]. split; [exact Hi|].
    left. destruct (Hs p Hp Ho) as (p' & ? & ? & _). eauto.
Qed.


End Steps.

(** ** Examples *)

Definition regs (n a1 a2 a3 : Z) : Process.CpuContext :=
  Process.mkContext 0 0 0 0 0x202 0 0 0 0 a1 a2 a3 0x400010 0 n 0 0x7FFFFFFFE000 0 0 0.

Lemma boot_ok : kernel_ok Demo.boot.
Proof.
  constructor.
  - change (Scheduler.reachable (snd (Scheduler.schedule_next
      (Scheduler.set_foreground_pgid (Scheduler.mkSched [Demo.user; Demo.root] None None) (Some 1))))).
    eapply Scheduler.steps_trans; [|apply Scheduler.step_schedule].
    eapply Scheduler.steps_trans; [|apply Scheduler.step_foreground].
    eapply (Scheduler.steps_trans _ (Scheduler.mkSched [Demo.user] None None)); [|now apply (Scheduler.step_add _ Demo.root)].
    eapply (Scheduler.steps_trans _ Scheduler.new); [apply Scheduler.steps_refl|now apply (Scheduler.step_add _ Demo.user)].
  - constructor; [split; [reflexivity|now right]|]. constructor; [split; [reflexivity|now left]|constructor].
  - apply PipePool.pool_inv_new.
  - intros fs [= <-]. eapply (TmpFs.tmpfs_run_reachable [TmpFs.OpCreate 1 "secret" false; TmpFs.OpWrite 2 0 [1; 2; 3]] TmpFs.new);
      [constructor|vm_compute; reflexivity].
  - intros p i H. discriminate H.
  - constructor; cbn; [constructor|lia|constructor].
Qed.

(** The machine after a system call. *)
Definition entered (n a1 a2 a3 : Z) : outcome (result Process.CpuContext stop * Demo.Machine) :=
  syscall_entry Vfs.lower 0x23 0x1b (regs n a1 a2 a3) Demo.boot.

Definition state_of (x : outcome (result Process.CpuContext stop * Demo.Machine)) : Demo.Machine :=
  match x with Done (_, k) => k | Panicked => Demo.boot end.

Lemma entered_Done n a1 a2 a3 : (if entered n a1 a2 a3 is Done _ then true else false) = true ->
  exists r, entered n a1 a2 a3 = Done (r, state_of (entered n a1 a2 a3)).
Proof. destruct (entered n a1 a2 a3) as [[r k]|]; [|discriminate]. intros _. exists r. reflexivity. Qed.

Lemma kernel_invariant_witness :
  kernel_ok Demo.boot /\ kernel_ok (state_of (entered (Abi.as_u64 SysOpen) Demo.NAME 0x42 0)).
Proof.
  split; [exact boot_ok|]. apply (kernel_invariant Vfs.lower 0x23 0x1b Demo.boot); [exact boot_ok|].
  apply rtc_once. destruct (entered_Done (Abi.as_u64 SysOpen) Demo.NAME 0x42 0) as [r E]; [vm_compute; reflexivity|].
  eapply ms_syscall, E.
Defined.


Lemma no_privilege_escalation_witness :
  exists r, entered (Abi.as_u64 SysSetuid) 0 0 0 = Done (r, state_of (entered (Abi.as_u64 SysSetuid) 0 0 0))
    /\ forall q', q' ∈ Scheduler.all_processes (sched (state_of (entered (Abi.as_u64 SysSetuid) 0 0 0))) ->
       Process.uid q' = 0 ->
       exists q, q ∈ Scheduler.all_processes (sched Demo.boot) /\ Process.pid q = Process.pid q' /\ Process.uid q = 0.
Proof.
  destruct (entered_Done (Abi.as_u64 SysSetuid) 0 0 0) as [r E]; [vm_compute; reflexivity|]. exists r. split; [exact E|].
  eapply (no_privilege_escalation Vfs.lower 0x23 0x1b Demo.boot); [reflexivity|discriminate|exact E].
Defined.

Lemma processes_are_isolated_witness :
  exists c, entered (Abi.as_u64 SysKill) 1 2 0 = Done (Ok c, state_of (entered (Abi.as_u64 SysKill) 1 2 0))
    /\ isolated (sched Demo.boot) (sched (state_of (entered (Abi.as_u64 SysKill) 1 2 0)))
    /\ unchanged (vm Demo.boot) (vm (state_of (entered (Abi.as_u64 SysKill) 1 2 0))) 0x2000.
Proof.
  destruct (entered_Done (Abi.as_u64 SysKill) 1 2 0) as [[c|e] E]; [vm_compute; reflexivity| |].
  - exists c. split; [exact E|].
    destruct (processes_are_isolated Vfs.lower 0x23 0x1b Demo.boot (state_of (entered (Abi.as_u64 SysKill) 1 2 0))
        (regs (Abi.as_u64 SysKill) 1 2 0) c (Process.with_state Demo.user Process.Running))
      as (Hi & _ & Hm); [reflexivity|discriminate|exact E|]. split; [exact Hi|]. apply (Hm ideal_apart).
    split; [reflexivity|]. split; [discriminate|]. intros p [[= <-]|[H Hz]]; [discriminate|].
    apply list_elem_of_singleton in H as ->. discriminate Hz.
  - exfalso. assert (match entered (Abi.as_u64 SysKill) 1 2 0 with Done (Ok _, _) => true | _ => false end = true) as H
      by (vm_compute; reflexivity). rewrite E in H. discriminate H.
Defined.

End Safety.
