(* ===== verification/Calls.v ===== *)
(** * What programs see

    System calls end to end, on the reference memory: bytes that one call takes
    from memory and another puts back, through a pipe, a file and the terminal;
    the loop of the terminal read; directory records; the current directory;
    and what happens to the result of a call that is preempted. *)

From S2P Require Import Prelude Abi RingBuffer Pipe FdTable Process Scheduler Path Perm TmpFs Bytes Block Utf8 UserMem.
From S2P Require Import Elf Spaces ExecStack Ps2 Tty DiskFs Fat32 Mount Vfs Packets Net Kernel Dispatch Demo.
Import Abi Block Bytes Utf8 UserMem Spaces Kernel Dispatch.

Module Calls.

Section Calls.
Context {D : Type} {BD : BlockDevice D}.
Context {N : Type} {DR : Net.Driver N}.

Notation Kernel := (Kernel.Kernel (D := D) (V := Ideal) (N := N)).
Notation sys T := (stm Kernel stop T).

(** ** Memory *)

(** The bytes of the active address space are those of a map. *)
Lemma read_bytes_space (k : Kernel) n : forall a, read_bytes k a n = read_bytes (space (vm k) (cr3 k)) a n.
Proof. induction n as [|n IH]; intros a; cbn [read_bytes]; [reflexivity|]. rewrite IH. reflexivity. Qed.

(** Reading does not change it. *)
#[export] Instance kernel_quiet : Quiet Kernel.
Proof. intros k a. now destruct k. Qed.

(** The kernel after a store. *)
Definition stored (k : Kernel) (a : Z) (bytes : list Z) : Kernel :=
  with_vm k (mkIdeal (next_space (vm k)) (<[cr3 k := write_bytes (space (vm k) (cr3 k)) a bytes]> (contents (vm k)))).

Lemma stored_holds k a bytes : holds (stored k a bytes) a bytes.
Proof.
  unfold holds. rewrite read_bytes_space. unfold stored, space. cbn [vm cr3 with_vm contents].
  rewrite lookup_insert_eq. apply write_holds.
Qed.

Lemma copy_out_stored k a bytes : a <> 0 -> bytes <> [] -> a + Z.of_nat (length bytes) <= U64_MAX ->
  copy_out a bytes k = Done (Ok (length bytes), stored k a bytes).
Proof.
  intros Ha Hb Hl. unfold copy_out, try_stm, copy_to_user_bytes. rewrite (proj2 (Z.eqb_neq _ _)) by exact Ha.
  destruct bytes as [|b rest]; [done|]. rewrite (proj2 (Z.ltb_ge _ _)) by lia. reflexivity.
Qed.

Lemma user_bytes_read (k : Kernel) a n m : a <> 0 -> (n <= m)%nat -> user_bytes a n m k = Done (Ok (read_bytes k a n), k).
Proof.
  intros Ha Hn. unfold user_bytes, try_stm, copy_user_bytes. rewrite (proj2 (Z.eqb_neq _ _)) by exact Ha.
  rewrite (proj2 (Nat.ltb_ge _ _)) by exact Hn. now rewrite fetch_bytes_read.
Qed.

(** A string in user memory. *)
Lemma user_cstr_read (k : Kernel) a n path s : a <> 0 -> Forall (fun b => b <> 0) path -> (length path < n)%nat ->
  holds k a (path ++ [0]) -> from_utf8 path = Some s -> user_cstr a n k = Done (Ok s, k).
Proof.
  intros Ha Hz Hl Hh Hu. unfold user_cstr, try_stm, copy_user_cstr. rewrite (proj2 (Z.eqb_neq _ _)) by exact Ha. unfold sbind.
  rewrite (cstr_loop_holds k path [] a n [] Hz Hl Hh). cbn [app]. now rewrite Hu.
Qed.

Lemma current_run (k : Kernel) p {T} (f : Process.Process -> sys T) :
  Scheduler.current (sched k) = Some p -> (let% current := current_process in f current) k = f p k.
Proof. intros Hp. unfold sbind, current_process. now rewrite Hp. Qed.

Lemma fd_kind_run (k : Kernel) p fd kind {T} (f : FdTable.FdKind -> sys T) :
  Scheduler.current (sched k) = Some p -> FdTable.get (Process.fd_table p) fd = Done (Ok kind) ->
  (let% kd := fd_kind fd in f kd) k = f kind k.
Proof. intros Hp Hg. unfold sbind at 1, fd_kind. rewrite (current_run _ p) by exact Hp. unfold try_out. now rewrite Hg. Qed.

Lemma at_most_le count : (at_most count <= Z.to_nat TEMP_BUF)%nat.
Proof. unfold at_most. lia. Qed.

Lemma at_most_small n : Z.of_nat n <= TEMP_BUF -> at_most (Z.of_nat n) = n.
Proof. unfold at_most, TEMP_BUF. lia. Qed.

(** ** Pipes *)

(** A pipe that holds [q] and can be written. *)
Definition pipe_holds (pool : list Pipe.Pipe) (id : nat) (q : list Z) : Prop :=
  exists pipe, PipePool.get pool id = Some pipe /\ Pipe.inv pipe /\ Pipe.contents pipe = q /\ 0 < Pipe.read_refcount pipe.

Lemma get_inserted pool id pipe pipe' : PipePool.get pool id = Some pipe -> Pipe.is_allocated pipe' = true ->
  PipePool.get (<[id := pipe']> pool) id = Some pipe'.
Proof.
  intros [Hp _]%PipePool.get_Some Ha. unfold PipePool.get.
  rewrite list_lookup_insert_eq by (eapply lookup_lt_Some, Hp). now rewrite Ha.
Qed.

Lemma pool_write pool id q data : pipe_holds pool id q -> data <> [] -> (length q + length data <= PIPE_BUFFER_SIZE)%nat ->
  exists pool', PipePool.write pool id data = Done (Ok (length data), pool') /\ pipe_holds pool' id (q ++ data).
Proof.
  intros (pipe & Hg & Hi & Hq & Hr) Hd Hl. unfold PipePool.write. rewrite Hg.
  destruct (Pipe.write_refines pipe data Hi) as (r & pipe' & E & Hi' & Hs). rewrite E. cbn [bind].
  unfold PipeSpec.write in Hs. change (PipeSpec.readers (Pipe.abs pipe)) with (Pipe.read_refcount pipe) in Hs.
  change (PipeSpec.queue (Pipe.abs pipe)) with (Pipe.contents pipe) in Hs. rewrite Hq in Hs.
  rewrite (proj2 (Z.eqb_neq _ 0)) in Hs by lia.
  assert (0 < length data)%nat by (destruct data; [done|cbn; lia]).
  rewrite (proj2 (Nat.eqb_neq _ _)) in Hs by lia. rewrite Nat.min_l in Hs by lia. rewrite take_ge in Hs by lia.
  injection Hs as <- Hqu Hre Hwr. eexists. split; [reflexivity|]. exists pipe'. split; [|split; [exact Hi'|split; [auto|lia]]].
  eapply get_inserted; [exact Hg|]. unfold Pipe.is_allocated. apply orb_true_iff. left. apply Z.ltb_lt. lia.
Qed.

Lemma pool_read pool id q buf : pipe_holds pool id q -> q <> [] ->
  exists pool', PipePool.read pool id buf
    = Done (Ok (length (take (length buf) q)), splice buf 0 (take (length buf) q), pool').
Proof.
  intros (pipe & Hg & Hi & Hq & Hr) Hne. unfold PipePool.read. rewrite Hg.
  pose proof (Pipe.read_refines pipe buf Hi) as H. unfold PipeSpec.read in H.
  change (PipeSpec.queue (Pipe.abs pipe)) with (Pipe.contents pipe) in H. rewrite Hq in H.
  destruct q as [|b q]; [done|]. destruct H as (pipe' & _ & _ & E). rewrite E. cbn [bind]. eexists. reflexivity.
Qed.

(** Bytes through a pipe. A program that writes [data] to a pipe that has
    room for it and then reads [n] bytes gets in its memory the first [n] of
    the bytes that were in the pipe followed by [data]; both calls return the
    number of bytes. *)
Theorem pipe_write_then_read (k : Kernel) p rfd wfd id q data src dst n :
  Scheduler.current (sched k) = Some p ->
  FdTable.get (Process.fd_table p) wfd = Done (Ok (FdTable.FdPipeWrite id)) ->
  FdTable.get (Process.fd_table p) rfd = Done (Ok (FdTable.FdPipeRead id)) ->
  pipe_holds (pipes k) id q ->
  (length q + length data <= PIPE_BUFFER_SIZE)%nat -> data <> [] -> (0 < n)%nat -> Z.of_nat n <= TEMP_BUF ->
  holds k src data -> src <> 0 -> dst <> 0 -> dst + Z.of_nat n <= U64_MAX ->
  exists k1 k2, sys_write wfd src (Z.of_nat (length data)) k = Done (Ok (Z.of_nat (length data)), k1)
    /\ sys_read rfd dst (Z.of_nat n) k1 = Done (Ok (Z.of_nat (length (take n (q ++ data)))), k2)
    /\ holds k2 dst (take n (q ++ data)).
Proof.
  intros Hp Hw Hr Hh Hl Hd Hn Hm Hs Ha Hb Hdl. pose proof (Vfs.get_range _ _ _ Hw). pose proof (Vfs.get_range _ _ _ Hr).
  assert (Z.of_nat (length data) <= TEMP_BUF) as Hld by (unfold PIPE_BUFFER_SIZE, TEMP_BUF in *; lia).
  destruct (pool_write _ _ _ data Hh Hd Hl) as (pool1 & E1 & Hh1).
  exists (with_pipes k pool1).
  destruct (pool_read pool1 id (q ++ data) (replicate n 0) Hh1) as (pool2 & E2).
  { intros E%app_eq_nil. now destruct E. }
  rewrite length_replicate in E2. set (got := take n (q ++ data)) in *.
  assert (got <> []) as Hg by (unfold got; intros E%(f_equal (@length Z)); rewrite length_take, length_app in E;
    destruct data; [done|cbn in E; lia]).
  assert (length got <= n)%nat as Hgl by (unfold got; rewrite length_take; lia).
  exists (stored (with_pipes k pool2) dst got). split; [|split; [|apply stored_holds]].
  - unfold sys_write. rewrite !(proj2 (Z.eqb_neq wfd _)) by lia. cbn [orb]. unfold write_handler.
    rewrite (fd_kind_run _ p _ _ _ Hp Hw). unfold sbind at 1.
    rewrite at_most_small by exact Hld. rewrite user_bytes_read by (exact Ha || unfold TEMP_BUF in *; lia).
    rewrite Hs. unfold sbind, pipe_write. rewrite E1. reflexivity.
  - unfold sys_read. rewrite !(proj2 (Z.eqb_neq _ _)) by lia. cbn [orb]. unfold read_handler.
    rewrite (fd_kind_run (with_pipes k pool1) p _ _ _ Hp Hr). unfold sbind at 1, pipe_read. rewrite at_most_small by exact Hm.
    cbn [pipes with_pipes]. rewrite E2. cbn [bind].
    rewrite (proj2 (Nat.ltb_lt _ _)) by (destruct got; [done|cbn; lia]).
    assert (take (length got) (splice (replicate n 0) 0 got) = got) as ->
      by (unfold splice; rewrite take_0; cbn [app]; apply take_app_length).
    unfold sbind. rewrite copy_out_stored by (assumption || lia). reflexivity.
Qed.

(** ** Files *)

(** The kernel with another table for the running process and other files. *)
Definition with_files (k : Kernel) (t : FdTable.FdTable) (v : Vfs.Vfs D) : Kernel :=
  with_vfs (with_sched k (Scheduler.update_current (sched k) (fun p => Process.with_fd_table p t))) v.

Lemma with_files_current k p t v : Scheduler.current (sched k) = Some p ->
  Scheduler.current (sched (with_files k t v)) = Some (Process.with_fd_table p t).
Proof. intros Hp. cbn. now rewrite Hp. Qed.

Lemma fd_write_run (k : Kernel) p fd data n t v : Scheduler.current (sched k) = Some p ->
  Vfs.write (vfs k) (Process.fd_table p) fd data = Done (Ok n, (t, v)) ->
  fd_write fd data k = Done (Ok n, with_files k t v).
Proof. intros Hp E. unfold fd_write, on_files. rewrite (current_run _ p) by exact Hp. now rewrite E. Qed.

Lemma fd_read_run (k : Kernel) p fd buf n buf' t : Scheduler.current (sched k) = Some p ->
  Vfs.read (vfs k) (Process.fd_table p) fd buf = Done (Ok (n, buf'), t) ->
  exists k', fd_read fd buf k = Done (Ok (n, buf'), k').
Proof.
  intros Hp E. unfold fd_read, sbind at 1, sread, on_table. rewrite (current_run _ p) by exact Hp. rewrite E. eexists. reflexivity.
Qed.

Lemma lseek_set_run (k : Kernel) p fd off t : Scheduler.current (sched k) = Some p -> 0 <= off < 2 ^ 63 ->
  FdTable.set_offset (Process.fd_table p) fd off = Done (Ok off, t) ->
  exists k', lseek_handler fd off 0 k = Done (Ok off, k') /\ vfs k' = vfs k
    /\ Scheduler.current (sched k') = Some (Process.with_fd_table p t).
Proof.
  intros Hp Ho E. unfold lseek_handler. rewrite (current_run _ p) by exact Hp. unfold sbind at 1, sread.
  rewrite (proj2 (Z.ltb_ge off 0)) by lia. unfold sbind at 1, sret at 1. unfold sbind at 1, on_table.
  rewrite (current_run _ p) by exact Hp. rewrite E.
  exists (with_sched k (Scheduler.update_current (sched k) (fun p => Process.with_fd_table p t))).
  split; [|split; [reflexivity|]].
  - cbn. unfold Kernel.as_u64. unfold wrap64. rewrite Z.mod_small by lia. reflexivity.
  - cbn. now rewrite Hp.
Qed.

Lemma holds_take (k : Kernel) a data n : holds k a data -> (n <= length data)%nat -> read_bytes k a n = take n data.
Proof.
  unfold holds. intros Hh Hn. transitivity (take n (read_bytes k a (length data))); [|now rewrite Hh].
  replace (length data) with (n + (length data - n))%nat by lia. rewrite read_bytes_app.
  rewrite take_app_le, take_ge by (rewrite length_read_bytes; lia). reflexivity.
Qed.

(** A read that succeeds in the table is the read of the call. *)
Lemma sys_read_file (k : Kernel) p fd dst count data t (n := at_most (Z.of_nat count)) : Scheduler.current (sched k) = Some p ->
  Vfs.read (vfs k) (Process.fd_table p) fd (replicate n 0) = Done (Ok (length data, data), t) ->
  3 <= fd -> data <> [] -> (0 < count)%nat -> dst <> 0 -> dst + Z.of_nat (length data) <= U64_MAX ->
  exists k', sys_read fd dst (Z.of_nat count) k = Done (Ok (Z.of_nat (length data)), k') /\ holds k' dst data.
Proof.
  intros Hp E Hfd Hd Hn Hdn Hdl. destruct (fd_read_run k p fd _ _ _ _ Hp E) as (k1 & Er).
  exists (stored k1 dst data). split; [|apply stored_holds].
  assert (0 < length data)%nat by (destruct data; [done|cbn; lia]).
  unfold sys_read. rewrite !(proj2 (Z.eqb_neq _ _)) by lia. cbn [orb]. unfold read_handler.
  destruct (FdTable.get (Process.fd_table p) fd) as [[kind|e]|] eqn:Hg;
    [|unfold Vfs.read in E; rewrite Hg in E; discriminate E..].
  rewrite (fd_kind_run _ p _ _ _ Hp Hg).
  destruct kind; try (unfold Vfs.read in E; rewrite Hg in E; discriminate E);
    unfold sbind at 1; fold n; rewrite Er; rewrite (proj2 (Nat.ltb_lt _ _)) by lia;
    rewrite take_ge by lia; unfold sbind; rewrite copy_out_stored by (assumption || lia); reflexivity.
Qed.

(** C29: bytes through a file. What a program writes through a descriptor of a
    tmpfs file it reads back: a write takes as many bytes as one call transfers
    (4096), and seeking to where it began, the offset of the descriptor or, with
    [O_APPEND], the end of the file, and reading again puts them where the
    program asks for them. User memory is that of the specification [Ideal],
    in which no access faults. *)
Theorem file_write_seek_read (k : Kernel) p fd open fs old data src dst
    (start := Z.of_nat (Vfs.write_start open old)) (n := Nat.min (length data) (Z.to_nat TEMP_BUF)) :
  Scheduler.current (sched k) = Some p -> length (Process.fd_table p) = FdTable.MAX_FDS ->
  FdTable.get (Process.fd_table p) fd = Done (Ok (FdTable.FdTmpfsFile open)) -> start < 2 ^ 63 ->
  Vfs.tmpfs (vfs k) = Some fs -> TmpFs.content fs (FdTable.ot_inode open) = Some old ->
  data <> [] -> holds k src data -> src <> 0 -> dst <> 0 -> dst + Z.of_nat n <= U64_MAX ->
  exists k1 k2 k3, sys_write fd src (Z.of_nat (length data)) k = Done (Ok (Z.of_nat n), k1)
    /\ lseek_handler fd start 0 k1 = Done (Ok start, k2)
    /\ sys_read fd dst (Z.of_nat (length data)) k2 = Done (Ok (Z.of_nat n), k3)
    /\ holds k3 dst (take n data).
Proof.
  intros Hp Ht Hg Hof Hfs Hc Hd Hs Hsn Hdn Hdl. pose proof (Vfs.get_range _ _ _ Hg).
  assert (0 < length data)%nat by (destruct data; [done|cbn; lia]).
  assert (length (take n data) = n) as Hn by (rewrite length_take; lia).
  assert (at_most (Z.of_nat (length data)) = n) as Hm by (unfold at_most, n, TEMP_BUF; lia).
  destruct (Vfs.write_seek_read (vfs k) _ fd open fs old (take n data) Ht Hg Hfs Hc) as (t1 & v1 & t2 & E1 & E2 & E3).
  rewrite Hn in E1, E3. destruct (E3 (replicate n 0) (length_replicate _ _)) as (t3 & E4).
  set (k1 := with_files k t1 v1). pose proof (with_files_current k p t1 v1 Hp) as Hp1. fold k1 in Hp1.
  destruct (lseek_set_run k1 _ fd start t2 Hp1 ltac:(lia) E2) as (k2 & El & Hv2 & Hp2).
  destruct (sys_read_file k2 _ fd dst (length data) (take n data) t3 Hp2) as (k3 & Er & Hh); rewrite ?Hm, ?Hv2, ?Hn; try (assumption || lia).
  { intros E. rewrite E in Hn. unfold n, TEMP_BUF in Hn. cbn in Hn. lia. }
  rewrite Hn in Er. exists k1, k2, k3. split; [|split; [exact El|split; [exact Er|exact Hh]]].
  unfold sys_write. rewrite !(proj2 (Z.eqb_neq fd _)) by lia. cbn [orb]. unfold write_handler.
  rewrite (fd_kind_run _ p _ _ _ Hp Hg). unfold sbind at 1. rewrite Hm.
  rewrite user_bytes_read by (exact Hsn || unfold TEMP_BUF in *; lia). unfold sbind.
  erewrite (fd_write_run k p fd) by (exact Hp || (rewrite (holds_take k src data n Hs) by lia; exact E1)). reflexivity.
Qed.

(** ** The terminal *)

Lemma serial_read_left c b c' : serial_read_byte c = (b, c') ->
  scancodes c' = scancodes c
  /\ match b with Some _ => length (serial_in c) = S (length (serial_in c')) | None => c' = c /\ serial_in c = [] end.
Proof. unfold serial_read_byte. destruct (serial_in c) as [|b0 rest] eqn:E; intros [= <- <-]; cbn; auto. Qed.

(** A round that gets no byte has used up a scancode, or there is no input. *)
Lemma read_byte_left c b c' : read_byte c = Done (b, c') ->
  (input_left c' < input_left c)%nat \/ b = None /\ input_left c' = 0%nat.
Proof.
  unfold read_byte, Ps2.try_read_scancode, RingBuffer.pop, input_left, RingBuffer.len. intros H.
  destruct (Nat.eqb_spec (RingBuffer.count (scancodes c)) 0) as [E0|E0].
  - cbn [bind] in H. injection H as H. destruct (serial_read_left _ _ _ H) as [Hs Hb]. cbn in Hs, Hb. rewrite Hs.
    destruct b; [left; lia|right]. destruct Hb as [-> ->]. split; [reflexivity|]. cbn. lia.
  - left. apply bind_Done in H as ([sc buffer] & E & H).
    apply bind_Done in E as (item & _ & (data' & _ & (head' & _ & [= <- <-])%bind_Done)%bind_Done).
    assert (forall kbd b c', serial_read_byte (mkConsole (tty c) (RingBuffer.mkRing data' head' (RingBuffer.tail (scancodes c))
      (RingBuffer.count (scancodes c) - 1)) kbd (serial_in c) (serial_out c)) = (b, c') ->
      (RingBuffer.count (scancodes c') + length (serial_in c') < RingBuffer.count (scancodes c) + length (serial_in c))%nat) as Hs.
    { intros kbd b1 c1 [Hs Hb]%serial_read_left. cbn in Hs, Hb. rewrite Hs. cbn. destruct b1; [lia|]. destruct Hb as [-> _]. cbn. lia. }
    destruct item as [sc|]; [|injection H as H; exact (Hs _ _ _ H)].
    destruct (Ps2.decode_scancode (keyboard c) sc) as [[a|] kbd]; injection H as H; [|exact (Hs _ _ _ H)].
    subst c'. cbn. lia.
Qed.

Lemma tty_read_left buf c r c' : tty_read buf c = Done (r, c') -> input_left c' = input_left c.
Proof. unfold tty_read. destruct (Tty.read _ _) as [[[n b] t]|]; intros [= _ <-]. reflexivity. Qed.

Lemma on_console_run {T} (f : Console -> outcome (T * Console)) (k : Kernel) t k' :
  on_console f k = Done (Ok t, k') -> exists c, f (console k) = Done (t, c) /\ k' = with_console k c.
Proof. unfold on_console. intros ([t1 c] & E & [= <- <-])%bind_Done. eauto. Qed.

Lemma tty_signal_console sig (k : Kernel) r k' : tty_signal sig k = Done (r, k') -> console k' = console k.
Proof.
  unfold tty_signal, sbind, sread. destruct (Scheduler.foreground_pgid (sched k)); [|now intros [= _ <-]].
  intros [= _ <-]. reflexivity.
Qed.

Lemma sbind_cong {T U} (m : sys T) (f g : T -> sys U) k :
  (forall x k', m k = Done (Ok x, k') -> f x k' = g x k') -> sbind m f k = sbind m g k.
Proof. intros H. unfold sbind. destruct (m k) as [[[x|e] k']|] eqn:E; auto. Qed.

Lemma sbind_fails {T U} (m : sys T) (f : T -> sys U) k e k' : sbind m f k = Done (Err e, k') ->
  (exists x k1, m k = Done (Ok x, k1) /\ f x k1 = Done (Err e, k')) \/ m k = Done (Err e, k').
Proof. unfold sbind. destruct (m k) as [[[x|e1] k1]|]; [left; eauto|intros [= -> ->]; now right|discriminate]. Qed.

Lemma on_console_fails {T} (f : Console -> outcome (T * Console)) (k : Kernel) e k' : on_console f k <> Done (Err e, k').
Proof. unfold on_console. destruct (f (console k)) as [[t c]|]; discriminate. Qed.

Lemma tty_signal_fails sig (k : Kernel) e k' : tty_signal sig k <> Done (Err e, k').
Proof. unfold tty_signal, sbind, sread. now destruct (Scheduler.foreground_pgid (sched k)). Qed.

Lemma copy_out_fails a bytes (k : Kernel) k' : copy_out a bytes k <> Done (Err Waiting, k').
Proof. unfold copy_out, try_stm. now destruct (copy_to_user_bytes a bytes k) as [[[n|e] k1]|]. Qed.

Lemma tty_input_left byte c action c' : Done (tty_input_byte byte c) = Done (action, c') -> input_left c' = input_left c.
Proof. unfold tty_input_byte. destruct (Tty.input_byte _ _) as [[a e] t]. now intros [= _ <-]. Qed.

Lemma tty_action_left action (k : Kernel) r k' :
  match action with
  | Tty.SendSignal => signal_handler
  | Tty.SendStopSignal => stop_signal_handler
  | Tty.LineReady | Tty.ActionNone => sret tt
  end k = Done (r, k') -> input_left (console k') = input_left (console k).
Proof. destruct action; try (now intros [= _ <-]); intros H%tty_signal_console; now rewrite H. Qed.

(** Every amount of fuel above what is left to read gives the same run. *)
Lemma tty_loop_fuel buf fuel : forall fuel' (k : Kernel) kernel_buf,
  (input_left (console k) < fuel)%nat -> (input_left (console k) < fuel')%nat ->
  tty_loop fuel buf kernel_buf k = tty_loop fuel' buf kernel_buf k.
Proof.
  induction fuel as [|fuel IH]; intros [|fuel'] k kb H1 H2; try lia. cbn [tty_loop].
  apply sbind_cong. intros [n kb1] k1 (c1 & ([[n1 b1] c1'] & E1 & [= <- <- <-])%bind_Done & ->)%on_console_run.
  apply tty_read_left in E1. destruct n1; [reflexivity|].
  apply sbind_cong. intros byte k2 (c2 & E2 & ->)%on_console_run. apply read_byte_left in E2.
  cbn [console with_console] in E2. rewrite E1 in E2.
  destruct byte as [byte|].
  - destruct E2 as [E2|[[=] _]]. apply sbind_cong. intros action k3 (c3 & E3 & ->)%on_console_run.
    apply sbind_cong. intros [] k4 E4. apply tty_action_left in E4. apply tty_input_left in E3.
    apply IH; rewrite E4; cbn in *; lia.
  - unfold sbind, sread. cbn [console with_console]. destruct (Nat.eqb_spec (input_left c2) 0) as [E|E]; [reflexivity|].
    apply IH; cbn [console with_console]; lia.
Qed.

(** The console when the terminal has taken a byte from the serial line. *)
Definition took (c : Console) (t : Tty.Tty) (rest echoed : list Z) : Console :=
  mkConsole t (scancodes c) (keyboard c) rest (serial_out c ++ echoed).

Lemma tty_loop_byte (k : Kernel) fuel buf kb b rest action e t' :
  let c := console k in
  RingBuffer.count (scancodes c) = 0%nat -> Tty.inv (tty c) -> Tty.completed_lines (tty c) = [] -> kb <> [] ->
  serial_in c = b :: rest -> Tty.input_byte (tty c) b = (action, e, t') ->
  match action with Tty.ActionNone | Tty.LineReady => True | _ => False end ->
  tty_loop (S fuel) buf kb k = tty_loop fuel buf kb (with_console k (took c t' rest e)).
Proof.
  intros c Hc Hi Hl Hk Hs Hb Ha. cbn [tty_loop]. unfold sbind at 1, on_console at 1, tty_read. fold c.
  rewrite Tty.read_first_line by assumption. rewrite Hl. cbn [bind]. unfold sbind at 1, on_console at 1. cbn [console with_console].
  unfold read_byte, Ps2.try_read_scancode, RingBuffer.pop. cbn [scancodes keyboard serial_in serial_out tty]. rewrite Hc.
  cbn [Nat.eqb bind]. unfold serial_read_byte. cbn [scancodes keyboard serial_in serial_out tty]. rewrite Hs. cbn [bind].
  unfold sbind at 1, on_console. cbn [console with_console]. unfold tty_input_byte. cbn [tty]. rewrite Hb. cbn [bind].
  destruct action; try contradiction; reflexivity.
Qed.

(** What is typed before the end of the line is echoed and waits in the line. *)
Lemma tty_loop_text buf kb text : forall (k : Kernel) rest fuel,
  let c := console k in
  RingBuffer.count (scancodes c) = 0%nat -> Tty.inv (tty c) -> Tty.completed_lines (tty c) = [] -> Tty.echo (tty c) = true ->
  kb <> [] -> serial_in c = text ++ rest ->
  Forall (fun b => 0x20 <= b <= 0x7E) text -> (length (Tty.current_line (tty c)) + length text <= Tty.MAX_LINE_LEN)%nat ->
  tty_loop (length text + fuel) buf kb k
  = tty_loop fuel buf kb (with_console k (took c (Tty.mkTty (Tty.current_line (tty c) ++ text) [] true) rest text)).
Proof.
  induction text as [|b text IH]; intros k rest fuel c Hc Hi Hl He Hk Hs Hp Hn.
  - cbn [length Nat.add app]. rewrite app_nil_r. f_equal. unfold took. rewrite app_nil_r. subst c.
    destruct k as [? ? ? ? ? [[] ? ? ? ?] ? ? ? ? ? ?]. cbn in *. subst. reflexivity.
  - cbn [length Nat.add]. inversion Hp as [|? ? Hb Hp']; subst. cbn [length] in Hn.
    pose proof (Tty.input_printable [b] (tty c) ltac:(constructor; [assumption|constructor]) He ltac:(cbn; lia)) as Hb1.
    cbn [Tty.input_bytes] in Hb1. pose proof (Tty.input_inv (tty c) b Hi) as Hi'.
    destruct (Tty.input_byte (tty c) b) as [[a e] t'] eqn:E. rewrite app_nil_r in Hb1. injection Hb1 as -> ->.
    assert (a = Tty.ActionNone) as ->.
    { unfold Tty.input_byte in E. repeat (rewrite (proj2 (Z.eqb_neq b _)) in E by lia). cbn [orb] in E.
      rewrite (proj2 (Z.leb_le _ _)), (proj2 (Z.leb_le _ _)) in E by lia. cbn [andb] in E.
      destruct (Nat.ltb _ _); injection E; congruence. }
    erewrite (tty_loop_byte k _ buf kb b (text ++ rest)); [|try eassumption; try exact I; reflexivity..].
    rewrite (IH _ rest); cbn [console with_console took tty scancodes keyboard serial_in serial_out Tty.current_line
      Tty.completed_lines Tty.echo]; try assumption; try reflexivity.
    + unfold took. cbn [tty scancodes keyboard serial_out]. rewrite Hl. rewrite <- !app_assoc. reflexivity.
    + rewrite length_app. cbn [length]. lia.
Qed.

Lemma sys_read_terminal (k : Kernel) p buf count : Scheduler.current (sched k) = Some p -> 0 < count <= 4096 -> buf <> 0 ->
  sys_read 0 buf count k = tty_loop (S (input_left (console k))) buf (replicate (Z.to_nat count) 0) k.
Proof.
  intros Hp Hn Hb. unfold sys_read. rewrite (proj2 (Z.eqb_neq count 0)), (proj2 (Z.eqb_neq buf 0)) by lia.
  cbn [Z.eqb]. unfold unless_ebadf.
  assert (read_handler 0 buf count k = Done (Err (Errno EBADF), k)) as ->.
  { unfold read_handler, sbind at 1, fd_kind. rewrite (current_run _ p) by exact Hp. reflexivity. }
  cbn [bind]. rewrite (proj2 (Z.ltb_ge _ _)) by lia. reflexivity.
Qed.

Lemma typed_inv text : Forall (fun b => 0x20 <= b <= 0x7E) text -> (length text <= Tty.MAX_LINE_LEN)%nat ->
  Tty.inv (Tty.mkTty text [] true).
Proof. intros H1 H2. constructor; [exact H1|exact H2|constructor]. Qed.

Lemma line_inv text : Forall (fun b => 0x20 <= b <= 0x7E) text -> Tty.inv (Tty.mkTty [] [text ++ [0x0A]] true).
Proof.
  intros H. constructor; cbn; [constructor|lia|]. constructor; [|constructor]. exists text. split; [reflexivity|].
  intros Hin. rewrite Forall_forall in H. apply list_elem_of_In, H in Hin. lia.
Qed.

(** A line typed on the terminal reaches the program. With a fresh terminal
    and a line of at most 256 printable characters waiting on the serial line,
    a read of standard input with room for it puts the line and a newline in
    the program's memory, returns their number, echoes the line, and leaves the
    rest of the input where it is. *)
Theorem terminal_line_is_read (k : Kernel) p text rest buf count :
  let c := console k in
  Scheduler.current (sched k) = Some p -> RingBuffer.count (scancodes c) = 0%nat -> tty c = Tty.new ->
  serial_in c = text ++ 0x0A :: rest -> Forall (fun b => 0x20 <= b <= 0x7E) text -> (length text <= Tty.MAX_LINE_LEN)%nat ->
  Z.of_nat (length text) < count <= 4096 -> buf <> 0 -> buf + Z.of_nat (S (length text)) <= U64_MAX ->
  sys_read 0 buf count k
  = Done (Ok (Z.of_nat (S (length text))),
      stored (with_console k (took c Tty.new rest (text ++ [0x0D; 0x0A]))) buf (text ++ [0x0A])).
Proof.
  intros c Hp Hc Ht Hs Hpr Hl Hn Hb Hbl. rewrite (sys_read_terminal k p) by (assumption || lia). fold c.
  assert (exists m, S (input_left c) = length text + S (S m))%nat as [m ->].
  { unfold input_left. rewrite Hs, length_app. cbn [length]. exists (RingBuffer.len (scancodes c) + length rest)%nat. lia. }
  assert (replicate (Z.to_nat count) 0 <> []) as Hk by (destruct (Z.to_nat count) eqn:?; [lia|discriminate]).
  assert (Tty.inv Tty.new) as Hnew by (constructor; cbn; (lia || constructor)).
  rewrite (tty_loop_text buf _ text k (0x0A :: rest)); fold c; rewrite ?Ht; try assumption; try reflexivity.
  erewrite tty_loop_byte; try reflexivity; try assumption; try exact I; [|apply typed_inv; assumption].
  cbn [tty_loop]. unfold sbind at 1, on_console, tty_read. cbn [console with_console took tty].
  rewrite Tty.read_first_line; [|apply line_inv; assumption|exact Hk].
  cbn [Tty.completed_lines Tty.current_line Tty.echo Tty.new app bind].
  assert (length (text ++ [0x0A]) = S (length text)) as Hlen by (rewrite length_app; cbn; lia).
  rewrite length_replicate, Nat.min_r by lia. rewrite Nat.eqb_refl.
  rewrite (take_ge (text ++ [0x0A])) by lia. unfold sbind at 1. rewrite take_app_length.
  rewrite copy_out_stored; [|exact Hb|destruct text; discriminate|rewrite Hlen; exact Hbl].
  rewrite Hlen. unfold sret, took. cbn [scancodes keyboard serial_out]. rewrite <- app_assoc. reflexivity.
Qed.

(** C28: the terminal read waits only for input. The loop of the call, with any
    fuel above the number of scancodes and serial bytes there are, gives one
    result, and it is left waiting only when all of them are used up: every
    round that does not end the call takes a byte. *)
Theorem terminal_read_waits_for_input (k : Kernel) buf kernel_buf fuel r k' :
  (input_left (console k) < fuel)%nat -> tty_loop fuel buf kernel_buf k = Done (r, k') ->
  tty_loop (S (input_left (console k))) buf kernel_buf k = Done (r, k')
  /\ (r = Err Waiting -> input_left (console k') = 0%nat).
Proof.
  intros Hf H. split; [rewrite <- H; apply tty_loop_fuel; lia|]. intros ->. revert k kernel_buf Hf H.
  induction fuel as [|fuel IH]; intros k kb Hf; [lia|]. cbn [tty_loop].
  intros [([n kb1] & k1 & (c1 & ([[n1 b1] c1'] & E1 & [= <- <- <-])%bind_Done & ->)%on_console_run & H)
    |E%on_console_fails]%sbind_fails; [|done].
  apply tty_read_left in E1. destruct n1 as [n1|].
  { apply sbind_fails in H as [(n & k2 & _ & [=])|H]. apply copy_out_fails in H. done. }
  apply sbind_fails in H as [(byte & k2 & (c2 & E2 & ->)%on_console_run & H)|E%on_console_fails]; [|done].
  apply read_byte_left in E2. cbn [console with_console] in E2. rewrite E1 in E2. destruct byte as [byte|].
  - destruct E2 as [E2|[[=] _]].
    apply sbind_fails in H as [(action & k3 & (c3 & E3 & ->)%on_console_run & H)|E%on_console_fails]; [|done].
    apply sbind_fails in H as [([] & k4 & E4 & H)|E].
    + apply tty_action_left in E4. apply tty_input_left in E3. apply IH in H; [exact H|]. rewrite E4. cbn in *. lia.
    + destruct action; try discriminate E; now apply tty_signal_fails in E.
  - unfold sbind, sread in H. cbn [console with_console] in H. destruct (Nat.eqb_spec (input_left c2) 0) as [E|E].
    + injection H as <-. exact E.
    + apply IH in H; [exact H|]. cbn [console with_console]. lia.
Qed.

(** ** Directory records *)

(** The bytes before the first zero. *)
Fixpoint until_zero (bytes : list Z) : list Z :=
  match bytes with
  | [] => []
  | b :: rest => if b =? 0 then [] else b :: until_zero rest
  end.

(** How a program walks the records: [d_reclen] takes it from one to the next;
    it sees the inode number, the type and the name. *)
Fixpoint walk_dirents (fuel : nat) (buf : list Z) : list (Z * Z * list Z) :=
  match fuel, buf with
  | S fuel', _ :: _ =>
      let reclen := Z.to_nat (from_le (sub_slice buf 16 18)) in
      (from_le (sub_slice buf 0 8), nth 18 buf 0, until_zero (drop 19 (take reclen buf)))
        :: walk_dirents fuel' (drop reclen buf)
  | _, _ => []
  end.

(** What a listing from a position shows; the types are DT_REG and DT_DIR. *)
Fixpoint listed (position : nat) (entries : list (string * FdTable.FileType)) : list (Z * Z * list Z) :=
  match entries with
  | [] => []
  | (name, t) :: rest =>
      (Z.of_nat (position + 1), match t with FdTable.File => 8 | FdTable.Directory => 4 end, Utf8.bytes_of_string name)
        :: listed (S position) rest
  end.

Definition name_ok (e : string * FdTable.FileType) : Prop :=
  ~ In 0 (Utf8.bytes_of_string (fst e)) /\ (length (Utf8.bytes_of_string (fst e)) <= 255)%nat.

Lemma until_zero_app l r : ~ In 0 l -> until_zero (l ++ 0 :: r) = l.
Proof.
  induction l as [|b l IH]; intros H; cbn; [reflexivity|]. cbn in H.
  rewrite (proj2 (Z.eqb_neq b 0)) by (intros ->; tauto). now rewrite IH by tauto.
Qed.

Lemma dirent_size_bounds name : (20 + length name <= dirent_size name < 28 + length name)%nat.
Proof. unfold dirent_size. pose proof (Nat.div_mod (19 + length name + 1 + 7) 8). pose proof (Nat.mod_upper_bound (19 + length name + 1 + 7) 8). lia. Qed.

Lemma length_dirent position name t : length (dirent position name t) = dirent_size name.
Proof.
  pose proof (dirent_size_bounds name). unfold dirent. rewrite !length_app, !length_to_le, length_replicate. cbn [length]. lia.
Qed.

(** A program that walks past a record sees its entry. *)
Lemma walk_dirent position name t rest fuel :
  ~ In 0 name -> (length name <= 255)%nat -> Z.of_nat position < U64_MAX ->
  walk_dirents (S fuel) (dirent position name t ++ rest)
  = (Z.of_nat (position + 1), d_type t, name) :: walk_dirents fuel rest.
Proof.
  intros Hz Hl Hp. pose proof (dirent_size_bounds name) as Hs. pose proof (length_dirent position name t) as Hlen.
  assert (sub_slice (dirent position name t ++ rest) 16 18 = to_le 2 (wrap16 (Z.of_nat (dirent_size name)))) as E16
    by (unfold dirent, sub_slice; rewrite <- !app_assoc; reflexivity).
  assert (from_le (to_le 2 (wrap16 (Z.of_nat (dirent_size name)))) = Z.of_nat (dirent_size name)) as Er.
  { unfold wrap16. rewrite Z.mod_small by lia. apply from_to_le. change (256 ^ Z.of_nat 2) with 65536. lia. }
  assert (sub_slice (dirent position name t ++ rest) 0 8 = to_le 8 (Z.of_nat (position + 1))) as E0
    by (unfold dirent, sub_slice; rewrite <- !app_assoc; reflexivity).
  assert (nth 18 (dirent position name t ++ rest) 0 = d_type t) as E18
    by (unfold dirent; rewrite <- !app_assoc; reflexivity).
  assert (drop 19 (dirent position name t) = name ++ 0 :: replicate (dirent_size name - (19 + length name + 1)) 0) as E19
    by (unfold dirent; reflexivity).
  remember (dirent position name t) as r. destruct r as [|b r]; [cbn [length] in Hlen; lia|].
  cbn [walk_dirents app]. change (b :: (r ++ rest)) with ((b :: r) ++ rest). rewrite E16, Er, E0, E18, Nat2Z.id, <- Hlen.
  rewrite take_app_length, drop_app_length, E19, until_zero_app by exact Hz.
  rewrite from_to_le; [reflexivity|]. change (256 ^ Z.of_nat 8) with (U64_MAX + 1). lia.
Qed.

Fixpoint records (position : nat) (entries : list (string * FdTable.FileType)) : list Z :=
  match entries with
  | [] => []
  | (name, t) :: rest => dirent position (Utf8.bytes_of_string name) t ++ records (S position) rest
  end.

Lemma dirents_spec count : forall entries position buf n0, Z.of_nat (length buf) <= count ->
  exists n, dirents entries position count buf n0 = (buf ++ records position (take n entries), n0 + n)%nat
    /\ (n <= length entries)%nat /\ Z.of_nat (length (buf ++ records position (take n entries))) <= count
    /\ match entries !! n with
       | Some e => count < Z.of_nat (length (buf ++ records position (take n entries)) + dirent_size (Utf8.bytes_of_string (fst e)))
       | None => True
       end.
Proof.
  induction entries as [|[name t] entries IH]; intros position buf n0 Hc; cbn [dirents].
  - exists 0%nat. cbn. rewrite app_nil_r, Nat.add_0_r. auto.
  - destruct (Z.ltb_spec count (Z.of_nat (length buf + dirent_size (Utf8.bytes_of_string name)))) as [Hf|Hf].
    + exists 0%nat. cbn. rewrite app_nil_r, Nat.add_0_r. split; [reflexivity|]. split; [lia|]. auto.
    + destruct (IH (S position) (buf ++ dirent position (Utf8.bytes_of_string name) t) (S n0)) as (n & E & Hl & Hb & Hs).
      { rewrite length_app, length_dirent. exact Hf. }
      exists (S n). cbn [take records length lookup list_lookup]. rewrite app_assoc, E. split; [f_equal; lia|].
      split; [lia|]. auto.
Qed.

Lemma walk_records entries : forall position fuel, Forall name_ok entries ->
  Z.of_nat (position + length entries) <= U64_MAX -> (length entries <= fuel)%nat ->
  walk_dirents fuel (records position entries) = listed position entries.
Proof.
  induction entries as [|[name t] entries IH]; intros position fuel Hn Hp Hf; cbn [records listed length] in *.
  - now destruct fuel.
  - destruct fuel as [|fuel]; [lia|]. inversion Hn as [|? ? [Hz Hl] Hn']; subst. rewrite walk_dirent by (assumption || lia).
    f_equal. apply IH; [assumption|lia..].
Qed.

(** What one call packs. *)
Lemma packed_records entries position count : Forall name_ok entries -> Z.of_nat (position + length entries) <= U64_MAX -> 0 <= count ->
  exists bytes n, dirents entries position count [] 0 = (bytes, n) /\ (n <= length entries)%nat /\ Z.of_nat (length bytes) <= count
  /\ (forall fuel, (n <= fuel)%nat -> walk_dirents fuel bytes = listed position (take n entries))
  /\ (bytes = [] <-> n = 0%nat)
  /\ match entries !! n with
     | Some e => count < Z.of_nat (length bytes + dirent_size (Utf8.bytes_of_string (fst e)))
     | None => True
     end.
Proof.
  intros Hn Hp Hc. destruct (dirents_spec count entries position [] 0 Hc) as (n & E & Hl & Hb & Hs).
  cbn [app Nat.add] in *. exists (records position (take n entries)), n. split; [exact E|]. split; [exact Hl|]. split; [exact Hb|].
  split; [|split; [|exact Hs]].
  - intros fuel Hf. apply walk_records; [|rewrite length_take; lia..]. now apply Forall_take.
  - destruct n as [|n]; [now split|]. destruct entries as [|[name t] entries]; [cbn in Hl; lia|]. split; [|discriminate].
    cbn [take records]. intros E0%(f_equal length). rewrite length_app, length_dirent in E0.
    pose proof (dirent_size_bounds (Utf8.bytes_of_string name)). cbn [length] in E0. lia.
Qed.

(** A directory that is open, at an offset. *)
Definition is_directory (kind : FdTable.FdKind) : bool :=
  match kind with FdTable.FdDirectory _ | FdTable.FdDiskDirectory _ | FdTable.FdTmpfsDirectory _ => true | _ => false end.

Lemma open_directory_moved lc kind (k k' : Kernel) entries offset offset' : vfs k' = vfs k ->
  open_directory lc kind k = Done (Ok (entries, offset), k) ->
  is_directory kind = true /\ open_directory lc (FdTable.with_offset kind offset') k' = Done (Ok (entries, offset'), k').
Proof.
  intros Hv. unfold open_directory, sbind, sread. rewrite Hv. destruct kind; try discriminate; cbn [FdTable.with_offset]; intros H;
    (split; [reflexivity|]).
  - cbn [FdTable.of_node_index]. destruct (Vfs.FILES !! _); [|discriminate]. destruct (Vfs.node_type _); [discriminate|].
    unfold try_out in *. destruct (Vfs.list_directory _ _ _) as [[l|]|]; try discriminate. now injection H as -> _.
  - cbn [FdTable.od_inode]. unfold try_out in *. destruct (Mount.diskfs_list_dir _ _) as [[l|]|]; try discriminate. now injection H as -> _.
  - cbn [FdTable.ot_inode]. unfold Kernel.try in *. destruct (Mount.tmpfs_list_dir _ _) as [l|]; try discriminate. now injection H as -> _.
Qed.


(** ** Preemption *)

Section Preemption.
Context (to_lowercase : string -> string) (user_cs user_ss : Z).

(** The kernel when the entry code has saved the registers. *)
Definition on_entry (k : Kernel) (regs : Process.CpuContext) : Kernel :=
  with_sched k (Scheduler.update_current (sched k) (fun p => Process.with_context p (saved (Process.context p) regs))).

Lemma handler_run (k : Kernel) regs : is_Some (Scheduler.current (sched k)) ->
  syscall_handler_rust to_lowercase user_cs user_ss (on_entry k regs)
  = (let% result := handle_syscall to_lowercase user_cs user_ss (Process.ctx_rax regs) (Process.ctx_rdi regs)
       (Process.ctx_rsi regs) (Process.ctx_rdx regs) (Process.ctx_r10 regs) (Process.ctx_r8 regs) (Process.ctx_r9 regs) in
     let% _ := check_and_handle_preemption in sret result) (on_entry k regs).
Proof.
  intros [p Hp]. unfold syscall_handler_rust, sbind at 1, current_context.
  replace (Scheduler.current (sched (on_entry k regs)))
    with (Some (Process.with_context p (saved (Process.context p) regs))) by (cbn; now rewrite Hp).
  reflexivity.
Qed.

Lemma preemption_switches (k : Kernel) p q rest :
  need_resched k = true -> Scheduler.current (sched k) = Some p -> Scheduler.ready_queue (sched k) = q :: rest ->
  Process.state p = Process.Running -> Process.pending_signals p = 0 -> Scheduler.skipped q = false ->
  switch_count k < U64_MAX ->
  exists k', check_and_handle_preemption k = Done (Err Switched, k')
    /\ Scheduler.current (sched k') = Some (Process.with_state q Process.Running)
    /\ Scheduler.ready_queue (sched k')
       = rest ++ [Process.with_state (Process.with_context p (Process.with_rax (Process.context p) 0)) Process.Ready].
Proof.
  intros Hn Hp Hq Hs Hg Hk Hc. unfold check_and_handle_preemption, sbind at 1, sread. rewrite Hn.
  unfold sbind, smodify, yield_handler, update_process, sbind, smodify. cbn [sched with_sched with_need_resched].
  set (p1 := Process.with_context p _).
  assert (Scheduler.schedule_next (Scheduler.update_current (sched k) (fun p => Process.with_context p
      (Process.with_rax (Process.context p) 0)))
    = (Some (Process.with_state q Process.Running),
       Scheduler.mkSched (rest ++ [Process.with_state p1 Process.Ready]) (Some (Process.with_state q Process.Running))
         (Scheduler.foreground_pgid (sched k)))) as ->.
  { unfold Scheduler.schedule_next, Scheduler.requeue_current, Scheduler.update_current. cbn [Scheduler.current].
    rewrite Hp. cbn [fmap option_fmap option_map]. fold p1.
    assert (Process.is_exited p1 = false) as -> by (unfold Process.is_exited; cbn; now rewrite Hs).
    assert (Process.deliver_signals p1 = (Process.ActNone, p1)) as ->
      by (unfold Process.deliver_signals, Process.has_signal; cbn; now rewrite Hg).
    replace (Process.pending_signals p1) with 0 by (symmetry; exact Hg). cbn [negb Z.eqb].
    cbn [Scheduler.ready_queue Scheduler.foreground_pgid Scheduler.current]. rewrite Hq. cbn [app length Scheduler.pick].
    now rewrite Hk. }
  cbn [switch_count with_sched with_need_resched]. unfold Process.add64. rewrite (proj2 (Z.leb_le _ _)) by lia.
  eexists. split; [reflexivity|]. split; reflexivity.
Qed.

(** A call that is preempted loses its result. Whatever value a call
    returns, when the timer has asked for a switch meanwhile and another process
    is ready, the caller goes to the end of the queue with 0 in [rax], which is
    what it finds when it runs again, and not with the result. *)
Theorem preempted_result_lost (k : Kernel) regs v k1 p q rest :
  handle_syscall to_lowercase user_cs user_ss (Process.ctx_rax regs) (Process.ctx_rdi regs) (Process.ctx_rsi regs)
    (Process.ctx_rdx regs) (Process.ctx_r10 regs) (Process.ctx_r8 regs) (Process.ctx_r9 regs) (on_entry k regs) = Done (Ok v, k1) ->
  is_Some (Scheduler.current (sched k)) ->
  need_resched k1 = true -> Scheduler.current (sched k1) = Some p -> Scheduler.ready_queue (sched k1) = q :: rest ->
  Process.state p = Process.Running -> Process.pending_signals p = 0 -> Scheduler.skipped q = false ->
  switch_count k1 < U64_MAX ->
  exists k2, syscall_entry to_lowercase user_cs user_ss regs k = Done (Err Switched, k2)
    /\ Scheduler.current (sched k2) = Some (Process.with_state q Process.Running)
    /\ Scheduler.ready_queue (sched k2)
       = rest ++ [Process.with_state (Process.with_context p (Process.with_rax (Process.context p) 0)) Process.Ready].
Proof.
  intros H H0 Hn Hp Hq Hs Hg Hk Hc. destruct (preemption_switches k1 p q rest Hn Hp Hq Hs Hg Hk Hc) as (k2 & E & Hc2 & Hq2).
  exists k2. split; [|auto]. destruct H0 as [p0 Hp0]. unfold syscall_entry, sbind at 1. rewrite (update_context_run _ _ _ Hp0). fold (on_entry k regs).
  unfold sbind at 1. rewrite handler_run by eauto. unfold sbind at 1. rewrite H. unfold sbind. now rewrite E.
Qed.

End Preemption.

End Calls.

(** ** Examples *)

#[local] Existing Instance Net.virtio.

(** The kernel of [Demo] with a pipe, an open file, or a line on the serial line. *)
Definition with_table (t : FdTable.FdTable) : Demo.Machine :=
  with_sched Demo.boot (Scheduler.update_current (sched Demo.boot) (fun p => Process.with_fd_table p t)).

Definition piped : Demo.Machine :=
  with_pipes (with_table (<[3%nat := Some (FdTable.FdPipeRead 0)]> (<[4%nat := Some (FdTable.FdPipeWrite 0)]> FdTable.new)))
    (<[0%nat := Pipe.with_refs Pipe.new 1 1]> PipePool.new).

Definition secret : FdTable.OpenTmpfsFile := FdTable.mkOpenTmpfsFile 2 1 FdTable.O_RDWR.

Definition opened : Demo.Machine := with_table (<[3%nat := Some (FdTable.FdTmpfsFile secret)]> FdTable.new).

Definition typed : Demo.Machine :=
  with_console Demo.boot (mkConsole Tty.new (scancodes (console Demo.boot)) Ps2.new_keyboard [0x6C; 0x73; 0x0A; 0x61] []).

Definition ticked : Demo.Machine := with_need_resched Demo.boot true.

Definition runner (k : Demo.Machine) : Process.Process :=
  match Scheduler.current (sched k) with Some p => p | None => Demo.user end.

(** The registers of a program that calls [getpid]. *)
Definition getpid_regs : Process.CpuContext :=
  Process.mkContext 0 0 0 0 0x202 0 0 0 0 0 0 0 0x400010 0 (Abi.as_u64 SysGetpid) 0 0x7FFFFFFFE000 0 0 0.

(** Facts of a concrete kernel. *)
Ltac evaluates :=
  solve [ vm_compute; reflexivity | vm_compute; discriminate
        | apply Nat.leb_le; vm_compute; reflexivity | apply Nat.ltb_lt; vm_compute; reflexivity ].

Lemma pipe_write_then_read_witness :
  exists k1 k2, sys_write 4 Demo.TEXT 5 piped = Done (Ok 5, k1)
    /\ sys_read 3 0x500200 2 k1 = Done (Ok 2, k2) /\ holds k2 0x500200 (bytes_of_string "he").
Proof.
  apply (pipe_write_then_read piped (runner piped) 3 4 0 [] (bytes_of_string "hello") Demo.TEXT 0x500200 2);
    try evaluates.
  exists (Pipe.with_refs Pipe.new 1 1). split; [vm_compute; reflexivity|]. split; [|split; [reflexivity|cbn; lia]].
  destruct Pipe.pipe_inv_new. constructor; try assumption; vm_compute; split; discriminate.
Defined.

Lemma file_write_seek_read_witness :
  exists k1 k2 k3, sys_write 3 Demo.TEXT 5 opened = Done (Ok 5, k1)
    /\ lseek_handler 3 1 0 k1 = Done (Ok 1, k2)
    /\ sys_read 3 0x500200 5 k2 = Done (Ok 5, k3) /\ holds k3 0x500200 (bytes_of_string "hello").
Proof.
  apply (file_write_seek_read opened (runner opened) 3 secret Vfs.demo_tmpfs [1; 2; 3] (bytes_of_string "hello") Demo.TEXT 0x500200);
    try evaluates.
Defined.

Lemma terminal_line_is_read_witness :
  sys_read 0 0x500200 80 typed
  = Done (Ok 3, stored (with_console typed (took (console typed) Tty.new [0x61] [0x6C; 0x73; 0x0D; 0x0A])) 0x500200 [0x6C; 0x73; 0x0A]).
Proof.
  apply (terminal_line_is_read typed (runner typed) [0x6C; 0x73] [0x61] 0x500200 80);
    try evaluates.
  - repeat constructor; lia.
  - vm_compute. split; [reflexivity|discriminate].
Defined.

Lemma terminal_read_waits_for_input_witness :
  exists k', tty_loop 9 0x500200 (replicate 8 0) Demo.boot = Done (Err Waiting, k')
    /\ tty_loop 1 0x500200 (replicate 8 0) Demo.boot = Done (Err Waiting, k') /\ input_left (console k') = 0%nat.
Proof.
  eexists. split; [vm_compute; reflexivity|].
  match goal with |- _ = Done (_, ?k) /\ _ =>
    destruct (terminal_read_waits_for_input Demo.boot 0x500200 (replicate 8 0) 9 (Err Waiting) k) as [H1 H2] end;
    [vm_compute; lia|vm_compute; reflexivity|]. split; [exact H1|]. now apply H2.
Defined.

(** The root directory is open. *)
Definition listing : Demo.Machine := with_table (<[3%nat := Some (FdTable.FdDirectory (FdTable.mkOpenFile 0 1 0))]> FdTable.new).


Lemma preempted_result_lost_witness :
  exists k1 k2, Demo.call SysGetpid 0 0 0 (on_entry ticked getpid_regs) = Done (Ok 1, k1)
    /\ syscall_entry Vfs.lower 0x23 0x1b getpid_regs ticked = Done (Err Switched, k2)
    /\ Scheduler.ready_queue (sched k2)
       = [Process.with_state (Process.with_context (runner k1) (Process.with_rax (Process.context (runner k1)) 0)) Process.Ready].
Proof.
  exists (on_entry ticked getpid_regs).
  destruct (preempted_result_lost Vfs.lower 0x23 0x1b ticked getpid_regs 1 (on_entry ticked getpid_regs)
    (runner (on_entry ticked getpid_regs)) Demo.root []) as (k2 & H1 & _ & H2); try evaluates; [eexists; vm_compute; reflexivity|].
  exists k2. split; [vm_compute; reflexivity|]. split; [exact H1|exact H2].
Defined.

End Calls.
