(* ===== verification/Userland.v ===== *)
(** * Programs of the system (src/userland)

    The assembly programs, instruction by instruction, on the registers and the
    memory of a process. What a program relies on is an interface, [Files]: the
    behaviour of the system calls it makes, as the kernel documents it. *)

From S2P Require Import Prelude Abi Bytes Utf8 UserMem Process Switch.
Import Abi Bytes Utf8 UserMem Process Switch.

Module Userland.

(** ** The processor *)

Inductive instr : Type :=
  | Label (l : string)
  | MovI (d : reg) (v : Z)                   (* mov d, v; lea d, [rel v] *)
  | MovR (d s : reg)
  | Zero (d : reg)                           (* xor d, d *)
  | Add (d s : reg)
  | Sub (d s : reg)
  | Inc (d : reg)
  | Dec (d : reg)
  | Div (s : reg)                            (* div s: rdx:rax *)
  | AddDl (v : Z)                            (* add dl, v *)
  | StoreDl (base : reg)                     (* mov [base], dl *)
  | Test (r : reg)                           (* test r, r *)
  | CmpI (r : reg) (v : Z)
  | CmpByte (base index : reg) (v : Z)       (* cmp byte [base + index], v *)
  | Jmp (l : string)
  | Je (l : string)                          (* je, jz *)
  | Jne (l : string)                         (* jne, jnz *)
  | Js (l : string)
  | Jle (l : string)
  | Jae (l : string)
  | ZeroAl                                   (* xor al, al *)
  | RepneScasb
  | LoadByte (d base : reg)                  (* movzx d, byte [base] *)
  | CmpDl (v : Z)                            (* cmp dl, v *)
  | TestDl                                   (* test dl, dl *)
  | SubDl (v : Z)                            (* sub dl, v *)
  | ShlI (d : reg) (n : Z)                   (* shl d, n *)
  | Jb (l : string)
  | Ja (l : string)
  | Syscall.

Record flags : Type := mkFlags { zf : bool; sf : bool; cf : bool; ovf : bool }.

Definition get (r : reg) (c : CpuContext) : Z :=
  match r with
  | R15 => ctx_r15 c | R14 => ctx_r14 c | R13 => ctx_r13 c | R12 => ctx_r12 c | R11 => ctx_r11 c | R10 => ctx_r10 c
  | R9 => ctx_r9 c | R8 => ctx_r8 c | RBP => ctx_rbp c | RDI => ctx_rdi c | RSI => ctx_rsi c | RDX => ctx_rdx c
  | RCX => ctx_rcx c | RBX => ctx_rbx c | RAX => ctx_rax c | RSP => ctx_rsp c
  end.

Definition put (r : reg) (v : Z) (c : CpuContext) : CpuContext :=
  let s r' x := if reg_eqb r r' then v else x in
  mkContext (s R15 (ctx_r15 c)) (s R14 (ctx_r14 c)) (s R13 (ctx_r13 c)) (s R12 (ctx_r12 c)) (s R11 (ctx_r11 c))
    (s R10 (ctx_r10 c)) (s R9 (ctx_r9 c)) (s R8 (ctx_r8 c)) (s RBP (ctx_rbp c)) (s RDI (ctx_rdi c)) (s RSI (ctx_rsi c))
    (s RDX (ctx_rdx c)) (s RCX (ctx_rcx c)) (s RBX (ctx_rbx c)) (s RAX (ctx_rax c)) (ctx_rip c) (s RSP (ctx_rsp c))
    (ctx_rflags c) (ctx_cs c) (ctx_ss c).

Definition negative (v : Z) : bool := Z.testbit v 63.
Definition as_signed (v : Z) : Z := if negative v then v - 2 ^ 64 else v.

(** The flags of [test r, r], and of [cmp a, b] and [add a, b] on [w]-bit
    operands. *)
Definition test_flags (v : Z) : flags := mkFlags (v =? 0) (negative v) false false.
Definition cmp_flags (w a b : Z) : flags :=
  let d := (a - b) mod 2 ^ w in
  mkFlags (d =? 0) (Z.testbit d (w - 1)) (a <? b)
    (xorb (Z.testbit a (w - 1)) (Z.testbit b (w - 1)) && xorb (Z.testbit a (w - 1)) (Z.testbit d (w - 1))).

Definition add_flags (w a b : Z) : flags :=
  let d := (a + b) mod 2 ^ w in
  mkFlags (d =? 0) (Z.testbit d (w - 1)) (2 ^ w <=? a + b)
    (eqb (Z.testbit a (w - 1)) (Z.testbit b (w - 1)) && xorb (Z.testbit a (w - 1)) (Z.testbit d (w - 1))).

(** What a program runs on: its memory, and what the [syscall] instruction
    does to the registers and to the rest of the world. *)
Class System (W : Type) {UB : UserBytes W} : Type := { trap : CpuContext -> W -> outcome (CpuContext * W) }.

Section Run.

Context {W : Type} {UB : UserBytes W} {SY : System W}.

Record user : Type := mkUser { regs : CpuContext; fl : flags; pc : nat; world : W }.

(** A program runs on, or makes its last system call. *)
Inductive progress : Type := Going (u : user) | Exited (status : Z) (w : W).

Definition SYS_EXIT : Z := 60.

Fixpoint find_label (code : list instr) (l : string) : nat :=
  match code with
  | [] => 0
  | Label l' :: rest => if String.eqb l l' then 0 else S (find_label rest l)
  | _ :: rest => S (find_label rest l)
  end.

Section Code.

Context (code : list instr).

Definition next (u : user) (c : CpuContext) (f : flags) : outcome progress := Done (Going (mkUser c f (S (pc u)) (world u))).
Definition jump (u : user) (b : bool) (l : string) : outcome progress :=
  Done (Going (mkUser (regs u) (fl u) (if b then find_label code l else S (pc u)) (world u))).

(** One instruction; running off the end of the code is a fault. *)
Definition step (u : user) : outcome progress :=
  let c := regs u in
  let f := fl u in
  let set r v := next u (put r v c) f in
  match code !! pc u with
  | None => Panicked
  | Some i =>
      match i with
      | Label _ => next u c f
      | MovI d v => set d v
      | MovR d s => set d (get s c)
      | Zero d => next u (put d 0 c) (test_flags 0)
      | Add d s => let v := wrap64 (get d c + get s c) in next u (put d v c) (add_flags 64 (get d c) (get s c))
      | Sub d s => let v := wrap64 (get d c - get s c) in next u (put d v c) (cmp_flags 64 (get d c) (get s c))
      | Inc d => let v := wrap64 (get d c + 1) in next u (put d v c) (mkFlags (v =? 0) (negative v) (cf f) (v =? 2 ^ 63))
      | Dec d => let v := wrap64 (get d c - 1) in next u (put d v c) (mkFlags (v =? 0) (negative v) (cf f) (v =? 2 ^ 63 - 1))
      | Div s =>
          let dividend := get RDX c * 2 ^ 64 + get RAX c in
          let q := dividend / get s c in
          if (get s c =? 0) || (2 ^ 64 <=? q) then Panicked
          else next u (put RAX q (put RDX (dividend mod get s c) c)) f
      | AddDl v =>
          let dl := wrap8 (get RDX c mod 256 + v) in
          next u (put RDX (get RDX c / 256 * 256 + dl) c) (add_flags 8 (get RDX c mod 256) v)
      | StoreDl base =>
          let! w := store (world u) (get base c) [get RDX c mod 256] in
          Done (Going (mkUser c f (S (pc u)) w))
      | Test r => next u c (test_flags (get r c))
      | CmpI r v => next u c (cmp_flags 64 (get r c) v)
      | CmpByte base index v => next u c (cmp_flags 8 (load (world u) (wrap64 (get base c + get index c))) v)
      | Jmp l => jump u true l
      | Je l => jump u (zf f) l
      | Jne l => jump u (negb (zf f)) l
      | Js l => jump u (sf f) l
      | Jle l => jump u (zf f || xorb (sf f) (ovf f)) l
      | Jae l => jump u (negb (cf f)) l
      | ZeroAl => next u (put RAX (get RAX c / 256 * 256) c) (test_flags 0)
      | RepneScasb =>
          (* one round: the instruction repeats until a match or until rcx is 0 *)
          if get RCX c =? 0 then next u c f
          else
            let f' := cmp_flags 8 (get RAX c mod 256) (load (world u) (get RDI c)) in
            let c' := put RCX (wrap64 (get RCX c - 1)) (put RDI (wrap64 (get RDI c + 1)) c) in
            if zf f' then next u c' f' else Done (Going (mkUser c' f' (pc u) (world u)))
      | LoadByte d base => set d (load (world u) (get base c))
      | CmpDl v => next u c (cmp_flags 8 (get RDX c mod 256) v)
      | TestDl => let dl := get RDX c mod 256 in next u c (mkFlags (dl =? 0) (Z.testbit dl 7) false false)
      | SubDl v =>
          let dl := wrap8 (get RDX c mod 256 - v) in
          next u (put RDX (get RDX c / 256 * 256 + dl) c) (cmp_flags 8 (get RDX c mod 256) v)
      | ShlI d n =>
          (* the overflow flag, undefined for shifts by more than one, is kept *)
          let v := wrap64 (Z.shiftl (get d c) n) in
          next u (put d v c) (mkFlags (v =? 0) (negative v) (Z.testbit (get d c) (64 - n)) (ovf f))
      | Jb l => jump u (cf f) l
      | Ja l => jump u (negb (cf f) && negb (zf f)) l
      | Syscall =>
          if get RAX c =? SYS_EXIT then Done (Exited (get RDI c) (world u))
          else
            let! (c', w) := trap c (world u) in
            Done (Going (mkUser c' f (S (pc u)) w))
      end
  end.

Fixpoint exec (n : nat) (u : user) : outcome progress :=
  match n with
  | O => Done (Going u)
  | S n' => let! p := step u in match p with Going u' => exec n' u' | Exited s w => Done (Exited s w) end
  end.

End Code.

(** A program that was just loaded. *)
Definition start (c : CpuContext) (w : W) : user := mkUser c (mkFlags false false false false) 0 w.

End Run.

(** ** The programs *)

Definition STDOUT : Z := 1.
Definition SYS_READ : Z := 0.
Definition SYS_WRITE : Z := 1.
Definition SYS_OPEN : Z := 2.
Definition SYS_CLOSE : Z := 3.
Definition ARG_ADDR : Z := 0x7FFFFFFFC000.

(** echo.asm; [newline] is where the linker puts that text. *)
Definition echo (newline : Z) : list instr :=
  [MovI RSI ARG_ADDR; Zero RCX;
   Label "find_len"; CmpByte RSI RCX 0; Je "check_empty"; Inc RCX; CmpI RCX 128; Jae "check_empty"; Jmp "find_len";
   Label "check_empty"; Test RCX; Je "print_newline"; MovI RAX SYS_WRITE; MovI RDI STDOUT; MovR RDX RCX; Syscall;
   Label "print_newline"; MovI RAX SYS_WRITE; MovI RDI STDOUT; MovI RSI newline; MovI RDX 2; Syscall;
   MovI RAX SYS_EXIT; Zero RDI; Syscall].

(** cat.asm, with the buffer and its two messages. *)
Definition cat (buf open_err read_err : Z) : list instr :=
  [MovI RAX SYS_OPEN; MovI RDI ARG_ADDR; Zero RSI; Zero RDX; Syscall; Test RAX; Js "open_failed"; MovR R12 RAX;
   Label "read_loop"; MovI RAX SYS_READ; MovR RDI R12; MovI RSI buf; MovI RDX 256; Syscall; Test RAX; Js "read_failed";
   CmpI RAX 0; Je "done";
   MovR RBX RAX; MovI RAX SYS_WRITE; MovI RDI STDOUT; MovI RSI buf; MovR RDX RBX; Syscall; Jmp "read_loop";
   Label "done"; MovI RAX SYS_CLOSE; MovR RDI R12; Syscall; MovI RAX SYS_EXIT; Zero RDI; Syscall;
   Label "open_failed"; MovI RAX SYS_WRITE; MovI RDI STDOUT; MovI RSI open_err; MovI RDX 18; Syscall;
   MovI RAX SYS_EXIT; MovI RDI 1; Syscall;
   Label "read_failed"; MovI RAX SYS_WRITE; MovI RDI STDOUT; MovI RSI read_err; MovI RDX 18; Syscall;
   MovI RAX SYS_EXIT; MovI RDI 1; Syscall].

(** wc.asm, with the buffer, the end of the digits and the end of a line. *)
Definition wc (buffer count_str_end newline : Z) : list instr :=
  [Zero R12;
   Label "read_loop"; MovI RAX SYS_READ; MovI RDI 0; MovI RSI buffer; MovI RDX 1024; Syscall; Test RAX; Jle "read_done";
   Add R12 RAX; Jmp "read_loop";
   Label "read_done"; MovR RAX R12; MovI RDI count_str_end; MovI RCX 10;
   Label "convert_loop"; Zero RDX; Div RCX; AddDl 48; Dec RDI; StoreDl RDI; Test RAX; Jne "convert_loop";
   MovI RAX SYS_WRITE; MovI RDI STDOUT; MovR RSI RDI; MovI RDX count_str_end; Sub RDX RSI; Syscall;
   MovI RAX SYS_WRITE; MovI RDI STDOUT; MovI RSI newline; MovI RDX 2; Syscall;
   MovI RAX SYS_EXIT; Zero RDI; Syscall].

Definition STDERR : Z := 2.
Definition SYS_RENAME : Z := 82.
Definition SYS_MKDIR : Z := 83.
Definition SYS_UNLINK : Z := 87.

(** The end of the programs that make one call: they exit with 0, or print
    their message and exit with 1. *)
Definition report (err_msg err_msg_len : Z) : list instr :=
  [Test RAX; Js "error"; MovI RAX SYS_EXIT; Zero RDI; Syscall;
   Label "error"; MovI RAX SYS_WRITE; MovI RDI STDERR; MovI RSI err_msg; MovI RDX err_msg_len; Syscall;
   MovI RAX SYS_EXIT; MovI RDI 1; Syscall].

(** rm.asm. *)
Definition rm (err_msg : Z) : list instr :=
  [MovI RAX SYS_UNLINK; MovI RDI ARG_ADDR; Syscall] ++ report err_msg 26.

(** mkdir_cmd.asm. *)
Definition mkdir (err_msg : Z) : list instr :=
  [MovI RAX SYS_MKDIR; MovI RDI ARG_ADDR; MovI RSI 0x1ED; Syscall] ++ report err_msg 34.

(** mv.asm. *)
Definition mv (err_msg : Z) : list instr :=
  [MovI RDI ARG_ADDR; Zero RCX; Dec RCX; ZeroAl; RepneScasb;
   MovI RAX SYS_RENAME; MovR RSI RDI; MovI RDI ARG_ADDR; Syscall] ++ report err_msg 26.

Definition SYS_CHMOD : Z := 90.

(** chmod.asm, with its two messages. *)
Definition chmod (usage_msg error_msg : Z) : list instr :=
  [MovI RSI ARG_ADDR; Zero RAX; Zero RCX;
   Label "parse_mode"; LoadByte RDX RSI; CmpDl 32; Je "mode_done"; TestDl; Je "usage_error"; CmpDl 48; Jb "usage_error";
   CmpDl 55; Ja "usage_error"; SubDl 48; ShlI RAX 3; Add RAX RDX; Inc RSI; Inc RCX; CmpI RCX 4; Jb "parse_mode";
   Label "usage_error"; MovI RAX SYS_WRITE; MovI RDI STDOUT; MovI RSI usage_msg; MovI RDX 60; Syscall;
   MovI RAX SYS_EXIT; MovI RDI 1; Syscall;
   Label "mode_done"; Test RCX; Je "usage_error"; MovR R12 RAX; Inc RSI; LoadByte RDX RSI; Test RDX; Je "usage_error";
   MovI RAX SYS_CHMOD; MovR RDI RSI; MovR RSI R12; Syscall; Test RAX; Js "chmod_failed"; MovI RAX SYS_EXIT; Zero RDI; Syscall;
   Label "chmod_failed"; MovI RAX SYS_WRITE; MovI RDI STDOUT; MovI RSI error_msg; MovI RDX 15; Syscall;
   MovI RAX SYS_EXIT; MovI RDI 1; Syscall].

(** ** What the programs rely on *)

(** The registers that a call does not change. *)
Definition keeps (c c' : CpuContext) : Prop := forall r, r <> RAX -> r <> RCX -> r <> R11 -> get r c' = get r c.

(** A path of at most 63 bytes, without a zero. *)
Definition path_ok (path : list Z) : Prop := Forall (fun b => b <> 0) path /\ (length path < 64)%nat.

(** The calls of a process on its files and its terminal, for memory below the
    middle of the address space. [opens] is a path with the contents of the
    file it names, or one that names none. A read gives some of what is left, nothing
    only at the end; what is written to descriptors 1 and 2 appears on the terminal. *)
Class Files (W : Type) {UB : UserBytes W} {SY : System W} : Type := {
  running : W -> Prop;
  output : W -> list Z;
  file : W -> Z -> option (list Z);
  opens : W -> list Z -> option (list Z) -> Prop;
  open_call : forall w c path found, running w -> opens w path found -> get RAX c = SYS_OPEN -> get RSI c = 0 -> 0 < get RDI c ->
    holds w (get RDI c) (path ++ [0]) -> path_ok path ->
    exists c' w', trap c w = Done (c', w') /\ keeps c c' /\ running w' /\ output w' = output w /\
      (forall a, load w' a = load w a) /\
      match found with
      | Some data => 3 <= get RAX c' < 2 ^ 31 /\ file w' (get RAX c') = Some data
      | None => 2 ^ 63 <= get RAX c' < 2 ^ 64
      end;
  read_call : forall w c data, running w -> get RAX c = SYS_READ -> file w (get RDI c) = Some data ->
    0 < get RDX c <= 4096 -> 0 < get RSI c -> get RSI c + get RDX c < 2 ^ 47 ->
    exists c' w' n, trap c w = Done (c', w') /\ keeps c c' /\ running w' /\ output w' = output w /\
      get RAX c' = Z.of_nat n /\ Z.of_nat n <= get RDX c /\ (n <= length data)%nat /\ (n = 0%nat -> data = []) /\
      file w' (get RDI c) = Some (drop n data) /\ holds w' (get RSI c) (take n data) /\
      forall a, a < get RSI c \/ get RSI c + Z.of_nat n <= a -> load w' a = load w a;
  write_call : forall w c bytes, running w -> get RAX c = SYS_WRITE ->
    get RDI c = STDOUT \/ get RDI c = STDERR -> get RDX c = Z.of_nat (length bytes) -> get RDX c <= 4096 -> 0 < get RSI c -> holds w (get RSI c) bytes ->
    exists c' w', trap c w = Done (c', w') /\ keeps c c' /\ running w' /\ output w' = output w ++ bytes /\
      (forall fd, file w' fd = file w fd) /\ forall a, load w' a = load w a;
  close_call : forall w c data, running w -> get RAX c = SYS_CLOSE -> file w (get RDI c) = Some data ->
    exists c' w', trap c w = Done (c', w') /\ keeps c c' /\ running w' /\ output w' = output w /\
      forall a, load w' a = load w a
}.

(** ** Lemmas *)

Section Programs.

Context {W : Type} {UB : UserBytes W} {SY : System W} {FI : Files W}.

Lemma exec_add code n m u : exec code (n + m) u =
  let! p := exec code n u in match p with Going u' => exec code m u' | Exited s w => Done (Exited s w) end.
Proof.
  revert u. induction n as [|n IH]; intros u; [reflexivity|]. cbn [exec Nat.add].
  destruct (step code u) as [[u'|s w]|]; cbn [bind]; [apply IH|reflexivity..].
Qed.

#[local] Arguments put : simpl never.
#[local] Arguments get : simpl never.
#[local] Arguments negative : simpl never.
#[local] Arguments cmp_flags : simpl never.

Lemma get_put r r' v c : get r (put r' v c) = if reg_eqb r' r then v else get r c.
Proof. now destruct r, r'. Qed.

Definition reaches (code : list instr) (u u' : user) : Prop := exists n, exec code n u = Done (Going u').
Definition ends (code : list instr) (u : user) (status : Z) (w : W) : Prop := exists n, exec code n u = Done (Exited status w).

Lemma reaches_trans code u v x : reaches code u v -> reaches code v x -> reaches code u x.
Proof. intros [n Hn] [m Hm]. exists (n + m)%nat. rewrite exec_add, Hn. exact Hm. Qed.

Lemma reaches_ends code u v s w : reaches code u v -> ends code v s w -> ends code u s w.
Proof. intros [n Hn] [m Hm]. exists (n + m)%nat. rewrite exec_add, Hn. exact Hm. Qed.

(** A system call that returns. *)
Lemma reaches_trap code c f p w c' w' :
  code !! p = Some Syscall -> get RAX c <> SYS_EXIT -> trap c w = Done (c', w') ->
  reaches code (mkUser c f p w) (mkUser c' f (S p) w').
Proof.
  intros Hi Hx Ht. exists 1%nat. cbn [exec]. unfold step. cbn [pc regs world fl]. rewrite Hi. cbn [bind].
  apply Z.eqb_neq in Hx. rewrite Hx, Ht. reflexivity.
Qed.

Ltac reg_value := repeat match goal with x := _ : CpuContext |- _ => subst x end; rewrite ?get_put; reflexivity.

(** [n] instructions without a call, evaluated. *)
Ltac block n := eapply reaches_trans; [exists n; cbn; rewrite ?get_put; cbn [reg_eqb]; reflexivity|].

Lemma holds_ext (w w' : W) a l : (forall x, a <= x < a + Z.of_nat (length l) -> load w' x = load w x) -> holds w a l -> holds w' a l.
Proof. intros Hx Hh. unfold holds in *. rewrite (read_bytes_ext w) by exact Hx. exact Hh. Qed.

Lemma negative_spec v : 0 <= v < 2 ^ 64 -> negative v = (2 ^ 63 <=? v).
Proof.
  intros Hv. unfold negative. destruct (Z.leb_spec (2 ^ 63) v).
  - replace v with (v - 2 ^ 63 + 1 * 2 ^ 63) by lia. rewrite Z.add_comm.
    rewrite Z.testbit_true by lia. replace ((1 * 2 ^ 63 + (v - 2 ^ 63)) / 2 ^ 63) with 1; [reflexivity|].
    symmetry. rewrite Z.add_comm, Z.div_add, Z.div_small by lia. lia.
  - rewrite Z.testbit_false by lia. rewrite Z.div_small by lia. reflexivity.
Qed.

Section Cat.

Context (buf open_err read_err : Z).
Hypothesis buf_range : 0 < buf /\ buf + 256 < 2 ^ 47.

Notation code := (cat buf open_err read_err).

(** One read, up to its result in [rax]. *)
Lemma cat_read data w c f :
  running w -> 3 <= get R12 c < 2 ^ 31 -> file w (get R12 c) = Some data ->
  exists n c' w', reaches code (mkUser c f 8 w) (mkUser c' (test_flags (Z.of_nat n)) 16 w') /\ running w' /\ output w' = output w /\
    get R12 c' = get R12 c /\ get RAX c' = Z.of_nat n /\ (n <= 256)%nat /\ (n <= length data)%nat /\ (n = 0%nat -> data = []) /\
    file w' (get R12 c) = Some (drop n data) /\ holds w' buf (take n data).
Proof.
  intros Hw Hfd Hf. set (c1 := put RDX 256 (put RSI buf (put RDI (get R12 c) (put RAX SYS_READ c)))).
  assert (Gd : get RDX c1 = 256) by reg_value. assert (Gs : get RSI c1 = buf) by reg_value.
  assert (Gi : get RDI c1 = get R12 c) by reg_value. assert (Ga : get RAX c1 = SYS_READ) by reg_value.
  destruct (read_call w c1 data Hw Ga) as (c' & w' & n & Et & Hk & Hw' & Ho & Ha & Hn & Hl & H0 & Hf' & Hh & _);
    rewrite ?Gi, ?Gd, ?Gs in *; try (assumption || lia).
  exists n, c', w'. split.
  - block 5%nat. fold c1. eapply reaches_trans; [apply reaches_trap; [reflexivity|rewrite Ga; discriminate|exact Et]|].
    exists 2%nat. cbn. rewrite Ha. replace (negative (Z.of_nat n)) with false; [reflexivity|].
    symmetry. rewrite negative_spec; lia.
  - assert (E12 : get R12 c' = get R12 c) by (rewrite Hk by discriminate; reg_value).
    repeat split; try assumption. lia.
Qed.

(** At the end of the file. *)
Lemma cat_done data u w c1 w1 :
  reaches code u (mkUser c1 (test_flags (Z.of_nat 0)) 16 w1) -> running w1 -> output w1 = output w -> get RAX c1 = Z.of_nat 0 ->
  (0%nat = 0%nat -> data = []) -> file w1 (get R12 c1) = Some (drop 0 data) -> exists w', ends code u 0 w' /\ output w' = output w ++ data.
Proof.
  intros R Hw1 O1 Ea H0 Hf. rewrite (H0 eq_refl) in *. set (c2 := put RDI (get R12 c1) (put RAX SYS_CLOSE c1)).
  destruct (close_call w1 c2 []) as (c3 & w2 & Et & Hk & Hw2 & O2 & _); [exact Hw1|reg_value| |].
  { assert (G : get RDI c2 = get R12 c1) by reg_value. rewrite G. exact Hf. }
  exists w2. split; [|now rewrite app_nil_r, O2]. eapply reaches_ends; [exact R|].
  eapply reaches_ends; [exists 2%nat; cbn; rewrite Ea; change (zf (cmp_flags 64 (Z.of_nat 0) 0)) with true; reflexivity|].
  eapply reaches_ends; [exists 3%nat; cbn; rewrite ?get_put; cbn [reg_eqb]; reflexivity|]. fold c2.
  eapply reaches_ends; [apply reaches_trap; [reflexivity|unfold c2; rewrite !get_put; discriminate|exact Et]|].
  exists 3%nat. cbn. rewrite !get_put. reflexivity.
Qed.

(** One write, back to the label of the loop. *)
Lemma cat_write bytes w c f :
  running w -> get RAX c = Z.of_nat (length bytes) -> (0 < length bytes <= 256)%nat -> holds w buf bytes ->
  exists c' w' f', reaches code (mkUser c f 16 w) (mkUser c' f' 8 w') /\ running w' /\ output w' = output w ++ bytes /\
    (forall fd, file w' fd = file w fd) /\ get R12 c' = get R12 c.
Proof.
  intros Hw Ha Hl Hh.
  set (c1 := put RDX (get RAX c) (put RSI buf (put RDI STDOUT (put RAX SYS_WRITE (put RBX (get RAX c) c))))).
  assert (Gd : get RDX c1 = get RAX c) by reg_value. assert (Gs : get RSI c1 = buf) by reg_value.
  destruct (write_call w c1 bytes Hw) as (c' & w' & Et & Hk & Hw' & Ho & Hf' & _);
    [reg_value|left; reg_value|now rewrite Gd|rewrite Gd, Ha; lia|rewrite Gs; lia|now rewrite Gs|].
  exists c', w'. eexists. split; [|split; [exact Hw'|split; [exact Ho|split; [exact Hf'|]]]].
  - eapply reaches_trans; [exists 2%nat; cbn; rewrite Ha;
      replace (zf (cmp_flags 64 (Z.of_nat (length bytes)) 0)) with false
        by (unfold cmp_flags, zf; symmetry; rewrite Z.sub_0_r, Z.mod_small by lia; apply Z.eqb_neq; lia); reflexivity|].
    block 5%nat. fold c1. eapply reaches_trans; [apply reaches_trap; [reflexivity| |exact Et]|].
    { unfold c1. rewrite !get_put. discriminate. }
    exists 1%nat. cbn. reflexivity.
  - rewrite Hk by discriminate. reg_value.
Qed.

(** The loop, from its label on. *)
Lemma cat_loop k : forall data w c f,
  (length data <= k)%nat -> running w -> 3 <= get R12 c < 2 ^ 31 -> file w (get R12 c) = Some data ->
  exists w', ends code (mkUser c f 8 w) 0 w' /\ output w' = output w ++ data.
Proof.
  induction k as [|k IH]; intros data w c f Hk Hw Hfd Hf;
    destruct (cat_read data w c f Hw Hfd Hf) as (n & c1 & w1 & R1 & Hw1 & O1 & E12 & Ea & Hn & Hl & H0 & Hf1 & Hh).
  - assert (n = 0%nat) as -> by lia. apply (cat_done data _ w _ _ R1); try assumption. now rewrite E12.
  - destruct n as [|n]; [apply (cat_done data _ w _ _ R1); try assumption; now rewrite E12|].
    destruct (cat_write (take (S n) data) w1 c1 (test_flags (Z.of_nat (S n)))) as (c2 & w2 & f2 & R2 & Hw2 & O2 & F2 & E2);
      [exact Hw1|rewrite length_take; lia|rewrite length_take; lia|exact Hh|].
    destruct (IH (drop (S n) data) w2 c2 f2) as (w3 & R3 & O3); [rewrite length_drop; lia|exact Hw2|now rewrite E2, E12|now rewrite F2, E2, E12|].
    exists w3. split; [eapply reaches_ends; [exact R1|]; eapply reaches_ends; [exact R2|exact R3]|].
    rewrite O3, O2, O1, <- app_assoc, take_drop. reflexivity.
Qed.

(** The program, from its start. *)
Lemma cat_run w c path found :
  running w -> opens w path found -> holds w ARG_ADDR (path ++ [0]) -> path_ok path -> holds w open_err (bytes_of_string "cat: open failed" ++ [13; 10]) ->
  0 < open_err -> exists w', match found with
    | Some data => ends code (start c w) 0 w' /\ output w' = output w ++ data
    | None => ends code (start c w) 1 w' /\ output w' = output w ++ bytes_of_string "cat: open failed" ++ [13; 10]
    end.
Proof.
  intros Hw Hop Hp Hok Hm Hpos. set (c1 := put RDX 0 (put RSI 0 (put RDI ARG_ADDR (put RAX SYS_OPEN c)))).
  assert (Gi : get RDI c1 = ARG_ADDR) by reg_value.
  destruct (open_call w c1 path found Hw Hop) as (c2 & w2 & Et & Hk & Hw2 & O2 & M2 & Hn);
    [reg_value|reg_value|now rewrite Gi|now rewrite Gi|exact Hok|].
  assert (R : exists f, reaches code (start c w) (mkUser c2 f 5 w2)).
  { eexists. unfold start. block 4%nat. fold c1. apply reaches_trap; [reflexivity|unfold c1; rewrite !get_put; discriminate|exact Et]. }
  destruct R as (f & R). destruct found as [data|].
  - destruct Hn as [Hr Hf]. destruct (cat_loop (length data) data w2 (put R12 (get RAX c2) c2) (test_flags (get RAX c2)))
      as (w3 & R3 & O3); [lia|exact Hw2|now rewrite get_put|now rewrite get_put|].
    exists w3. split; [|now rewrite O3, O2]. eapply reaches_ends; [exact R|]. eapply reaches_ends; [|exact R3].
    exists 3%nat. cbn. replace (negative (get RAX c2)) with false; [reflexivity|]. symmetry. rewrite negative_spec; lia.
  - set (c3 := put RDX 18 (put RSI open_err (put RDI STDOUT (put RAX SYS_WRITE c2)))).
    assert (Gs : get RSI c3 = open_err) by reg_value. assert (Gd : get RDX c3 = 18) by reg_value.
    destruct (write_call w2 c3 (bytes_of_string "cat: open failed" ++ [13; 10]) Hw2) as (c4 & w4 & Et4 & _ & _ & O4 & _);
      [reg_value|left; reg_value|rewrite Gd; reflexivity|rewrite Gd; lia|now rewrite Gs|rewrite Gs; eapply holds_ext; [intros; apply M2|exact Hm]|].
    exists w4. split; [|now rewrite O4, O2]. eapply reaches_ends; [exact R|].
    eapply reaches_ends; [exists 2%nat; cbn; replace (negative (get RAX c2)) with true
      by (symmetry; rewrite negative_spec by lia; lia); reflexivity|].
    eapply reaches_ends; [exists 5%nat; cbn; reflexivity|]. fold c3.
    eapply reaches_ends; [apply reaches_trap; [reflexivity|unfold c3; rewrite !get_put; discriminate|exact Et4]|].
    exists 3%nat. cbn. rewrite !get_put. reflexivity.
Qed.

End Cat.

(** ** echo *)

(** The loop that measures the argument: it stops at a zero, or after 128 bytes. *)
Lemma echo_scan newline (w : W) s : forall c f,
  get RSI c = ARG_ADDR -> 0 <= get RCX c -> Forall (fun b => is_u8 b /\ b <> 0) s -> holds w (ARG_ADDR + get RCX c) s ->
  (get RCX c + Z.of_nat (length s) = 128 /\ s <> []
   \/ get RCX c + Z.of_nat (length s) < 128 /\ load w (ARG_ADDR + get RCX c + Z.of_nat (length s)) = 0) ->
  exists c' f', reaches (echo newline) (mkUser c f 2 w) (mkUser c' f' 9 w)
    /\ get RSI c' = ARG_ADDR /\ get RCX c' = get RCX c + Z.of_nat (length s).
Proof.
  assert (forall z, 0 <= z <= 128 -> wrap64 (ARG_ADDR + z) = ARG_ADDR + z) as Haddr
    by (intros; unfold wrap64, ARG_ADDR; apply Z.mod_small; lia).
  induction s as [|b s IH]; intros c f Hi Hc Hs Hh Hend; cbn [length] in *.
  - destruct Hend as [[_ ?]|[Hl Hz]]; [done|]. rewrite Z.add_0_r in *.
    exists c, (cmp_flags 8 0 0). split; [|split; [exact Hi|lia]]. exists 3%nat. cbn. rewrite Hi, Haddr, Hz by lia. reflexivity.
  - unfold holds in Hh. cbn [length read_bytes] in Hh. injection Hh as Hb Hrest. inversion_clear Hs as [|? ? [Hu Hn] Hs'].
    set (c1 := put RCX (wrap64 (get RCX c + 1)) c).
    assert (Gc : get RCX c1 = get RCX c + 1) by (unfold c1; rewrite get_put; cbn [reg_eqb]; unfold wrap64; apply Z.mod_small; lia).
    assert (Gi : get RSI c1 = ARG_ADDR) by (unfold c1; now rewrite get_put).
    assert (zf (cmp_flags 8 b 0) = false) as Hz.
    { unfold cmp_flags, zf. apply Z.eqb_neq. unfold is_u8, U8_MAX in Hu. rewrite Z.sub_0_r, Z.mod_small by (change (2 ^ 8) with 256; lia). lia. }
    assert (exists f1, reaches (echo newline) (mkUser c f 2 w)
      (mkUser c1 f1 (if get RCX c1 <? 128 then 8%nat else 9%nat) w)) as (f1 & R1).
    { exists (cmp_flags 64 (get RCX c1) 128). exists 6%nat. cbn. rewrite Hi, Haddr, Hb by lia. rewrite Hz. cbn.
      fold c1. change (cf (cmp_flags 64 (get RCX c1) 128)) with (get RCX c1 <? 128). destruct (get RCX c1 <? 128); reflexivity. }
    destruct (Z.ltb_spec (get RCX c1) 128) as [Hlt|Hge].
    + destruct (IH c1 f1) as (c' & f' & R & G1 & G2); [exact Gi|lia|exact Hs'|rewrite Gc, Z.add_assoc; exact Hrest| |].
      { rewrite Gc. destruct Hend as [[He _]|[He Hz0]]; [left|right].
        - split; [lia|]. intros ->. cbn in *. lia.
        - split; [lia|]. rewrite <- Hz0. f_equal. lia. }
      exists c', f'. split; [|split; [exact G1|lia]]. eapply reaches_trans; [exact R1|].
      eapply reaches_trans; [exists 1%nat; reflexivity|exact R].
    + assert (s = []) as -> by (destruct s; [reflexivity|cbn [length] in *; lia]).
      exists c1, f1. split; [exact R1|]. split; [exact Gi|cbn in *; lia].
Qed.

(** The whole program. *)
Lemma echo_run newline w c arg :
  running w -> Forall (fun b => is_u8 b /\ b <> 0) arg -> holds w ARG_ADDR arg ->
  (length arg = 128%nat \/ (length arg < 128)%nat /\ load w (ARG_ADDR + Z.of_nat (length arg)) = 0) ->
  0 < newline -> holds w newline [13; 10] ->
  exists w', ends (echo newline) (start c w) 0 w' /\ output w' = output w ++ arg ++ [13; 10].
Proof.
  intros Hw Hs Hh Hend Hpos Hn. set (c1 := put RCX 0 (put RSI ARG_ADDR c)).
  destruct (echo_scan newline w arg c1 (test_flags 0)) as (c2 & f2 & R & Gi & Gc).
  { reg_value. } { change (get RCX c1) with 0. lia. } { exact Hs. } { change (get RCX c1) with 0. now rewrite Z.add_0_r. }
  { change (get RCX c1) with 0. rewrite Z.add_0_r, Z.add_0_l.
    destruct Hend as [He|[He Hz]]; [left; split; [lia|]|right; split; [lia|exact Hz]]. intros ->. discriminate. }
  change (get RCX c1) with 0 in Gc. rewrite Z.add_0_l in Gc.
  assert (exists c3 f3 w3, reaches (echo newline) (mkUser c2 f2 9 w) (mkUser c3 f3 16 w3) /\ running w3
    /\ output w3 = output w ++ arg /\ forall a, load w3 a = load w a) as (c3 & f3 & w3 & R3 & Hw3 & O3 & L3).
  { destruct arg as [|b arg].
    - exists c2. eexists. exists w. split; [|rewrite app_nil_r; auto]. exists 3%nat. cbn. rewrite Gc. reflexivity.
    - set (c3 := put RDX (get RCX c2) (put RDI STDOUT (put RAX SYS_WRITE c2))).
      destruct (write_call w c3 (b :: arg) Hw) as (c4 & w4 & Et & _ & Hw4 & O4 & _ & L4);
        [reg_value|left; reg_value|change (get RDX c3) with (get RCX c2); lia|change (get RDX c3) with (get RCX c2); lia
        |change (get RSI c3) with (get RSI c2); rewrite Gi; unfold ARG_ADDR; lia|change (get RSI c3) with (get RSI c2); now rewrite Gi|].
      exists c4. eexists. exists w4. split; [|auto].
      eapply reaches_trans; [exists 6%nat; cbn;
        replace (get RCX c2 =? 0) with false by (rewrite Gc; cbn [length]; lia); reflexivity|]. fold c3.
      apply reaches_trap; [reflexivity|discriminate|exact Et]. }
  set (c4 := put RDX 2 (put RSI newline (put RDI STDOUT (put RAX SYS_WRITE c3)))).
  destruct (write_call w3 c4 [13; 10] Hw3) as (c5 & w5 & Et & _ & _ & O5 & _);
    [reg_value|left; reg_value|reflexivity|change (get RDX c4) with 2; lia|exact Hpos|apply (holds_ext w); [intros; apply L3|exact Hn]|].
  exists w5. split; [|now rewrite O5, O3, <- app_assoc]. eapply reaches_ends; [exists 2%nat; reflexivity|]. fold c1.
  eapply reaches_ends; [exact R|]. eapply reaches_ends; [exact R3|]. eapply reaches_ends; [exists 5%nat; reflexivity|]. fold c4.
  eapply reaches_ends; [apply reaches_trap; [reflexivity|discriminate|exact Et]|]. exists 3%nat. reflexivity.
Qed.

(** ** The scan of mv *)

(** The scan for the end of a string, from any address. *)
Lemma scan_run code p (w : W) s : forall c f,
  code !! p = Some RepneScasb -> Forall (fun b => is_u8 b /\ b <> 0) s -> holds w (get RDI c) (s ++ [0]) ->
  get RAX c mod 256 = 0 -> Z.of_nat (length s) < get RCX c < 2 ^ 64 -> 0 <= get RDI c -> get RDI c + Z.of_nat (length s) + 1 < 2 ^ 64 ->
  exists c' f', reaches code (mkUser c f p w) (mkUser c' f' (S p) w)
    /\ get RDI c' = get RDI c + Z.of_nat (length s) + 1.
Proof.
  induction s as [|b s IH]; intros c f Hi Hs Hh Ha Hc Hd Hl; cbn [length] in *.
  all: unfold holds in Hh; cbn [app length read_bytes] in Hh.
  all: set (c1 := put RCX (wrap64 (get RCX c - 1)) (put RDI (wrap64 (get RDI c + 1)) c)).
  all: assert (Gd : get RDI c1 = get RDI c + 1) by (unfold c1; rewrite !get_put; cbn [reg_eqb]; unfold wrap64; apply Z.mod_small; lia).
  - injection Hh as Hb. exists c1, (cmp_flags 8 0 0). split; [|rewrite Gd; lia]. exists 1%nat. cbn [exec]. unfold step. cbn [pc regs world fl].
    rewrite Hi, Ha, Hb. rewrite (proj2 (Z.eqb_neq (get RCX c) 0)) by lia. reflexivity.
  - injection Hh as Hb Hrest. inversion_clear Hs as [|? ? [Hu Hn] Hs'].
    assert (Gc : get RCX c1 = get RCX c - 1) by (unfold c1; rewrite !get_put; cbn [reg_eqb]; unfold wrap64; apply Z.mod_small; lia).
    assert (Ga : get RAX c1 = get RAX c) by (unfold c1; now rewrite !get_put).
    assert (zf (cmp_flags 8 0 b) = false) as Hz.
    { unfold cmp_flags, zf. apply Z.eqb_neq. unfold is_u8, U8_MAX in Hu. change (2 ^ 8) with 256. rewrite Z.sub_0_l. lia. }
    destruct (IH c1 (cmp_flags 8 0 b)) as (c' & f' & R & E);
      [exact Hi|exact Hs'|rewrite Gd; exact Hrest|now rewrite Ga|rewrite Gc; lia|rewrite Gd; lia|rewrite Gd; lia|].
    exists c', f'. split; [|rewrite E, Gd; lia]. eapply reaches_trans; [|exact R]. exists 1%nat. cbn [exec]. unfold step.
    cbn [pc regs world fl]. rewrite Hi, Ha, Hb. rewrite (proj2 (Z.eqb_neq (get RCX c) 0)) by lia. cbv zeta. rewrite Hz. reflexivity.
Qed.

(** ** chmod *)

(** The number that octal digits write. *)
Definition octal (digits : list Z) : Z := foldl (fun m b => 8 * m + (b - 48)) 0 digits.

Lemma octal_bound digits : Forall (fun b => 48 <= b <= 55) digits -> (length digits <= 3)%nat -> 0 <= octal digits <= 0x1FF.
Proof.
  intros Hd Hl. unfold octal. do 4 (destruct digits as [|? digits]; [repeat (apply Forall_cons in Hd as [? Hd]); cbn [foldl]; lia|]).
  cbn [length] in Hl. lia.
Qed.

(** One digit of the mode. *)
Lemma chmod_digit usage error (w : W) c f b :
  load w (get RSI c) = b -> 48 <= b <= 55 -> 0 <= get RCX c < 3 -> 0 <= get RAX c < 64 -> 0 <= get RSI c < 2 ^ 63 ->
  exists c' f', reaches (chmod usage error) (mkUser c f 3 w) (mkUser c' f' 3 w)
    /\ get RSI c' = get RSI c + 1 /\ get RCX c' = get RCX c + 1 /\ get RAX c' = 8 * get RAX c + (b - 48).
Proof.
  intros Hb Hd Hc Ha Hs. set (c1 := put RDX b c). assert (get RDX c1 = b) as Gd by (unfold c1; now rewrite get_put).
  set (c2 := put RDX (get RDX c1 / 256 * 256 + wrap8 (get RDX c1 mod 256 - 48)) c1).
  assert (get RDX c2 = b - 48) as Gd2.
  { unfold c2. rewrite get_put. cbn [reg_eqb]. rewrite Gd. unfold wrap8. rewrite (Z.mod_small b), Z.div_small, Z.mod_small by lia. lia. }
  set (c3 := put RAX (wrap64 (Z.shiftl (get RAX c2) 3)) c2). set (c4 := put RAX (wrap64 (get RAX c3 + get RDX c3)) c3).
  set (c5 := put RSI (wrap64 (get RSI c4 + 1)) c4). set (c6 := put RCX (wrap64 (get RCX c5 + 1)) c5).
  assert (get RCX c6 = get RCX c + 1) as Gc.
  { unfold c6, c5, c4, c3, c2, c1. rewrite !get_put. cbn [reg_eqb]. unfold wrap64. apply Z.mod_small. lia. }
  assert (b mod 256 = b) as Eb by (apply Z.mod_small; lia).
  assert (zf (cmp_flags 8 (b mod 256) 32) = false) as F1 by (rewrite Eb; apply Z.eqb_neq; change (2 ^ 8) with 256; lia).
  assert ((b mod 256 =? 0) = false) as F2 by lia.
  assert (cf (cmp_flags 8 (b mod 256) 48) = false) as F3 by (rewrite Eb; apply Z.ltb_ge; lia).
  assert (negb (cf (cmp_flags 8 (b mod 256) 55)) && negb (zf (cmp_flags 8 (b mod 256) 55)) = false) as F4.
  { rewrite Eb. change (cf (cmp_flags 8 b 55)) with (b <? 55). destruct (Z.ltb_spec b 55); [reflexivity|].
    replace b with 55 by lia. reflexivity. }
  exists c6. eexists. split; [|split; [|split; [exact Gc|]]].
  - eapply reaches_trans; [exists 2%nat; cbn; rewrite Hb; reflexivity|]. fold c1.
    eapply reaches_trans; [exists 2%nat; cbn; rewrite Gd, F1; reflexivity|].
    eapply reaches_trans; [exists 2%nat; cbn; rewrite Gd, F2; reflexivity|].
    eapply reaches_trans; [exists 2%nat; cbn; rewrite Gd, F3; reflexivity|].
    eapply reaches_trans; [exists 2%nat; cbn; rewrite Gd, F4; reflexivity|].
    eapply reaches_trans; [exists 5%nat; cbn; reflexivity|]. fold c2. fold c3. fold c4. fold c5. fold c6.
    exists 2%nat. cbn. change (cf (cmp_flags 64 (get RCX c6) 4)) with (get RCX c6 <? 4). rewrite Gc.
    replace (get RCX c + 1 <? 4) with true by lia. reflexivity.
  - unfold c6, c5, c4, c3, c2, c1. rewrite !get_put. cbn [reg_eqb]. unfold wrap64. apply Z.mod_small. lia.
  - unfold c6, c5, c4. rewrite !get_put. cbn [reg_eqb]. change (get RDX c3) with (get RDX c2). rewrite Gd2.
    unfold c3, c2, c1. rewrite !get_put. cbn [reg_eqb]. rewrite Z.shiftl_mul_pow2 by lia. unfold wrap64. rewrite !Z.mod_small; lia.
Qed.

Lemma chmod_digits usage error (w : W) ds : forall c f,
  Forall (fun b => 48 <= b <= 55) ds -> holds w (get RSI c) ds -> 0 <= get RCX c -> get RCX c + Z.of_nat (length ds) <= 3 ->
  0 <= get RAX c < 8 ^ get RCX c -> 0 <= get RSI c -> get RSI c + Z.of_nat (length ds) < 2 ^ 62 ->
  exists c' f', reaches (chmod usage error) (mkUser c f 3 w) (mkUser c' f' 3 w)
    /\ get RSI c' = get RSI c + Z.of_nat (length ds) /\ get RCX c' = get RCX c + Z.of_nat (length ds)
    /\ get RAX c' = foldl (fun m b => 8 * m + (b - 48)) (get RAX c) ds.
Proof.
  induction ds as [|b ds IH]; intros c f Hd Hh Hc Hl Ha Hs Hs'; cbn [length foldl] in *.
  - exists c, f. split; [now exists 0%nat|]. split; [lia|]. split; [lia|reflexivity].
  - apply Forall_cons in Hd as [Hb Hd]. unfold holds in Hh. cbn [length read_bytes] in Hh. injection Hh as Eb Hh.
    assert (8 ^ get RCX c <= 8 ^ 2) by (apply Z.pow_le_mono_r; lia).
    destruct (chmod_digit usage error w c f b Eb Hb) as (c1 & f1 & R1 & S1 & C1 & A1); [lia..|].
    destruct (IH c1 f1) as (c2 & f2 & R2 & S2 & C2 & A2); [exact Hd|now rewrite S1|lia|lia| |lia|lia|].
    { rewrite A1, C1, Z.pow_add_r by lia. lia. }
    exists c2, f2. split; [eapply reaches_trans; eassumption|]. split; [lia|]. split; [lia|]. now rewrite A2, A1.
Qed.

(** Up to the call. *)
Lemma chmod_parse usage error (w : W) c digits path :
  Forall (fun b => 48 <= b <= 55) digits -> (1 <= length digits <= 3)%nat -> path <> [] -> Forall (fun b => is_u8 b /\ b <> 0) path ->
  holds w ARG_ADDR (digits ++ [32] ++ path ++ [0]) ->
  exists c' f', reaches (chmod usage error) (start c w) (mkUser c' f' 40 w) /\ get RAX c' = SYS_CHMOD
    /\ get RDI c' = ARG_ADDR + Z.of_nat (length digits) + 1 /\ get RSI c' = octal digits.
Proof.
  intros Hd Hl Hp Hz Hh. apply holds_app in Hh as [Hh1 Hh2]. destruct path as [|b path]; [done|].
  apply holds_app in Hh2 as [Hsp Hpath]. unfold holds in Hsp, Hpath. cbn in Hsp, Hpath. injection Hsp as Hsp. injection Hpath as Hb _.
  apply Forall_cons in Hz as [[Hbu Hbz] _].
  set (c0 := put RCX 0 (put RAX 0 (put RSI ARG_ADDR c))).
  destruct (chmod_digits usage error w digits c0 (test_flags 0)) as (c1 & f1 & R1 & S1 & C1 & A1);
    [exact Hd|exact Hh1|change (get RCX c0) with 0; lia|change (get RCX c0) with 0; lia|change (get RAX c0) with 0; change (get RCX c0) with 0; lia
    |change (get RSI c0) with ARG_ADDR; unfold ARG_ADDR; lia..|].
  change (get RSI c0) with ARG_ADDR in S1. change (get RCX c0) with 0 in C1. change (get RAX c0) with 0 in A1.
  set (c2 := put RDX 32 c1). set (cm := put R12 (get RAX c2) c2). set (c3 := put RSI (wrap64 (get RSI cm + 1)) cm). set (c4 := put RDX b c3).
  assert (get RSI c3 = ARG_ADDR + Z.of_nat (length digits) + 1) as S3.
  { unfold c3. rewrite get_put. cbn [reg_eqb]. unfold cm, c2. rewrite !get_put. cbn [reg_eqb]. rewrite S1. unfold wrap64, ARG_ADDR. apply Z.mod_small. lia. }
  eexists. eexists. split; [|split; [|split]].
  - eapply reaches_trans; [exists 3%nat; cbn; reflexivity|]. eapply reaches_trans; [exact R1|].
    eapply reaches_trans; [exists 2%nat; cbn; rewrite S1, Hsp; reflexivity|]. fold c2.
    eapply reaches_trans; [exists 2%nat; cbn; change (zf (cmp_flags 8 (get RDX c2 mod 256) 32)) with true; reflexivity|].
    eapply reaches_trans; [exists 3%nat; cbn; change (get RCX c2) with (get RCX c1); rewrite C1;
      replace (0 + Z.of_nat (length digits) =? 0) with false by lia; reflexivity|].
    eapply reaches_trans; [exists 2%nat; cbn; reflexivity|]. fold cm. fold c3.
    eapply reaches_trans; [exists 1%nat; cbn; rewrite S3; replace (load w (ARG_ADDR + Z.of_nat (length digits) + 1)) with b by exact (eq_sym Hb); reflexivity|].
    fold c4. eapply reaches_trans; [exists 2%nat; cbn; change (get RDX c4) with b; replace (b =? 0) with false by lia; reflexivity|].
    exists 3%nat. cbn. reflexivity.
  - reflexivity.
  - rewrite !get_put. cbn [reg_eqb]. exact S3.
  - rewrite !get_put. cbn [reg_eqb]. unfold c4, c3, cm. rewrite !get_put. cbn [reg_eqb]. change (get RAX c2) with (get RAX c1). exact A1.
Qed.

End Programs.

End Userland.
