(* ===== verification/UserKernel.v ===== *)
(** * Programs on the kernel

    The interface that the programs of src/userland rely on, implemented by the
    kernel of Kernel.v and Dispatch.v: a program's [syscall] instruction is
    [syscall_entry], its memory is the active address space, its output the
    serial line, and its files are those of the tmpfs.  So cat, instruction by
    instruction, runs through system calls, descriptors and file system to the
    bytes on the line. *)

From S2P Require Import Prelude Abi RingBuffer Pipe FdTable Process Scheduler Path Perm TmpFs Bytes Block Utf8 UserMem.
From S2P Require Import Elf Spaces ExecStack Ps2 Tty DiskFs Fat32 Mount Vfs Packets Net Kernel Dispatch Demo Calls Switch Userland.
Import Abi Block Bytes Utf8 UserMem Spaces Kernel Dispatch Switch Userland.

Module UserKernel.

Section Machine.
Context {D : Type} {BD : BlockDevice D}.
Context (to_lowercase : string -> string).
Context {N : Type} {DR : Net.Driver N}.
Context (user_cs user_ss : Z).

Notation Kernel := (Kernel.Kernel (D := D) (V := Ideal) (N := N)).
Notation sys T := (stm Kernel stop T).

(** A call that does not come back ends the program's run here. *)
#[local] Instance kernel_system : System Kernel := {
  trap c k :=
    match syscall_entry to_lowercase user_cs user_ss c k with
    | Done (Ok c', k') => Done (c', k')
    | _ => Panicked
    end
}.

(** The process [p] runs and is not about to be preempted. *)
Definition runs (k : Kernel) (p : Process.Process) : Prop :=
  Scheduler.current (sched k) = Some p /\ need_resched k = false /\ length (Process.fd_table p) = FdTable.MAX_FDS.

(** What is left of an open file of the tmpfs. *)
Definition left_of (v : Vfs.Vfs D) (t : FdTable.FdTable) (fd : Z) : option (list Z) :=
  match FdTable.get t fd, Vfs.tmpfs v with
  | Done (Ok (FdTable.FdTmpfsFile open)), Some fs =>
      drop (FdTable.ot_offset open) <$> TmpFs.content fs (FdTable.ot_inode open)
  | _, _ => None
  end.

Definition kernel_file (k : Kernel) (fd : Z) : option (list Z) :=
  match Scheduler.current (sched k) with
  | Some p => left_of (vfs k) (Process.fd_table p) fd
  | None => None
  end.

(** The path, seen from the directory of the process, is that of a file of the
    tmpfs that the process may read, and a descriptor is free; or it is a path
    of the tmpfs where nothing is. *)
Definition kernel_opens (k : Kernel) (path : list Z) (found : option (list Z)) : Prop :=
  exists p s r i rel fs, runs k p /\ from_utf8 path = Some s /\ Path.resolve_path (Process.cwd p) s = Ok r
    /\ Mount.resolve_mount_path (Vfs.table (vfs k)) r = Some (i, rel, Mount.Tmpfs) /\ Vfs.tmpfs (vfs k) = Some fs
    /\ match found with
       | Some data => exists inode m fd, Mount.tmpfs_lookup (Some fs) rel = Ok inode /\ TmpFs.content fs inode = Some data
           /\ TmpFs.stat fs inode = Ok m
           /\ Perm.can_read (Process.uid p) (Process.gid p) (Perm.uid m) (Perm.gid m) (Perm.mode m) = true
           /\ FdTable.allocate_fd (Process.fd_table p) = Done (Ok fd)
       | None => Mount.tmpfs_lookup (Some fs) rel = Err ENOENT
       end.

(** ** The way in and out *)

(** The kernel when the call starts, and when it has its result. *)
Definition entered (k : Kernel) (c : Process.CpuContext) : Kernel :=
  with_sched k (Scheduler.update_current (sched k) (fun p => Process.with_context p (saved (Process.context p) c))).
Definition left_with (k : Kernel) (v : Z) : Kernel :=
  with_sched k (Scheduler.update_current (sched k) (fun p => Process.with_context p (Process.with_rax (Process.context p) (wrap64 v)))).

Lemma trap_run (k : Kernel) p c call v k2 p2 :
  runs k p -> from_u64 (get RAX c) = Some call ->
  encoded (dispatch to_lowercase user_cs user_ss call (get RDI c) (get RSI c) (get RDX c) (get R10 c) (get R8 c) (get R9 c))
    (entered k c) = Done (Ok v, k2) ->
  Scheduler.current (sched k2) = Some p2 -> Process.context p2 = saved (Process.context p) c -> need_resched k2 = false ->
  exists c', trap c k = Done (c', left_with k2 v) /\ keeps c c' /\ get RAX c' = wrap64 v.
Proof.
  intros (Hp & Hn & Hl) Hc E Hp2 Hx Hn2.
  assert (syscall_entry to_lowercase user_cs user_ss c k
    = Done (Ok (restored (Process.with_rax (Process.context p2) (wrap64 v))), left_with k2 v)) as Es.
  { unfold syscall_entry. unfold sbind at 1. rewrite (update_context_run _ _ _ Hp). fold (entered k c).
    unfold sbind at 1. unfold syscall_handler_rust. unfold sbind at 1, current_context at 1.
    assert (Scheduler.current (sched (entered k c)) = Some (Process.with_context p (saved (Process.context p) c))) as ->
      by (cbn; now rewrite Hp).
    cbn [Process.context Process.with_context]. unfold handle_syscall, sbind at 1.
    change (Process.ctx_rax (saved (Process.context p) c)) with (get RAX c). rewrite Hc.
    change (Process.ctx_rdi (saved (Process.context p) c)) with (get RDI c).
    change (Process.ctx_rsi (saved (Process.context p) c)) with (get RSI c).
    change (Process.ctx_rdx (saved (Process.context p) c)) with (get RDX c).
    change (Process.ctx_r10 (saved (Process.context p) c)) with (get R10 c).
    change (Process.ctx_r8 (saved (Process.context p) c)) with (get R8 c).
    change (Process.ctx_r9 (saved (Process.context p) c)) with (get R9 c).
    rewrite E. unfold sbind at 1, check_and_handle_preemption, sbind at 1, sread. rewrite Hn2. cbn [sret].
    unfold sbind at 1. rewrite (update_context_run _ _ _ Hp2). fold (left_with k2 v). unfold sbind, current_context.
    assert (Scheduler.current (sched (left_with k2 v))
      = Some (Process.with_context p2 (Process.with_rax (Process.context p2) (wrap64 v)))) as -> by (cbn; now rewrite Hp2).
    reflexivity. }
  eexists. split; [cbn [trap kernel_system]; rewrite Es; reflexivity|]. rewrite Hx. split; [|reflexivity].
  intros r Ha Hcx Hb. destruct r; reflexivity || contradiction.
Qed.

(** What a call that ends in [k2] leaves. *)
Lemma left_runs (k2 : Kernel) p2 v : runs k2 p2 ->
  (exists p', runs (left_with k2 v) p') /\ (forall fd, kernel_file (left_with k2 v) fd = left_of (vfs k2) (Process.fd_table p2) fd)
  /\ console (left_with k2 v) = console k2 /\ forall a, load (left_with k2 v) a = load k2 a.
Proof.
  intros (Hp & Hn & Hl). split; [|split; [|split; reflexivity]].
  - eexists. split; [cbn; rewrite Hp; reflexivity|]. split; [exact Hn|exact Hl].
  - intros fd. unfold kernel_file, left_with. cbn. now rewrite Hp.
Qed.

Lemma entered_runs (k : Kernel) p c : runs k p -> runs (entered k c) (Process.with_context p (saved (Process.context p) c)).
Proof. intros (Hp & Hn & Hl). split; [cbn; now rewrite Hp|]. split; [exact Hn|exact Hl]. Qed.

(** A call whose handler returns a number, in a state of the same process. *)
Lemma call_returns (k : Kernel) p c call (v : Z) k2 p2 :
  runs k p -> from_u64 (get RAX c) = Some call -> 0 <= v < 2 ^ 63 ->
  dispatch to_lowercase user_cs user_ss call (get RDI c) (get RSI c) (get RDX c) (get R10 c) (get R8 c) (get R9 c)
    (entered k c) = Done (Ok v, k2) ->
  runs k2 p2 -> Process.context p2 = saved (Process.context p) c ->
  exists c', trap c k = Done (c', left_with k2 v) /\ keeps c c' /\ get RAX c' = v.
Proof.
  intros Hr Hc Hv E (Hp2 & Hn2 & _) Hx.
  destruct (trap_run k p c call v k2 p2 Hr Hc) as (c' & Et & Hk & Ha); try assumption.
  - unfold encoded. rewrite E. cbn [bind]. unfold as_i64, wrap64. rewrite Z.mod_small by lia.
    now replace (v <? 2 ^ 63) with true by lia.
  - exists c'. split; [exact Et|]. split; [exact Hk|]. rewrite Ha. unfold wrap64. apply Z.mod_small. lia.
Qed.

(** ** Opening *)

Lemma open_tmpfs (v : Vfs.Vfs D) t r i rel fs inode data m fd pu pg :
  length t = FdTable.MAX_FDS ->
  Mount.resolve_mount_path (Vfs.table v) r = Some (i, rel, Mount.Tmpfs) -> Vfs.tmpfs v = Some fs ->
  Mount.tmpfs_lookup (Some fs) rel = Ok inode -> TmpFs.content fs inode = Some data -> TmpFs.stat fs inode = Ok m ->
  Perm.can_read pu pg (Perm.uid m) (Perm.gid m) (Perm.mode m) = true -> FdTable.allocate_fd t = Done (Ok fd) ->
  Vfs.open_path_with_flags to_lowercase v t r 0 pu pg
  = Done (Ok fd, (<[fd := Some (FdTable.FdTmpfsFile (FdTable.mkOpenTmpfsFile inode 0 0))]> t, v)).
Proof.
  intros Hl Hm Hf Hk Hc Hs Hr Ha. unfold Vfs.open_path_with_flags, Vfs.tmpfs_open_inode. rewrite Hm, Hf, Hk.
  cbn [bind]. change (Vfs.has_flag 0 FdTable.O_TRUNC && Vfs.wants_write 0) with false. cbn [bind].
  rewrite Hf. cbn [Mount.tmpfs_stat]. rewrite Hs, Hr. change (Vfs.wants_read 0) with true. change (Vfs.wants_write 0) with false.
  cbn [negb andb bind]. rewrite Ha. cbn [bind].
  pose proof (Vfs.allocate_fd_Ok t fd Hl Ha). rewrite index_set_lt by (rewrite Hl; unfold FdTable.MAX_FDS; lia).
  cbn [bind]. unfold TmpFs.content, TmpFs.stat in *. destruct (TmpFs.nodes fs !! inode) as [[d|]|]; try discriminate.
  injection Hs as <-. reflexivity.
Qed.

Lemma path_read (k : Kernel) c path s : get RDI c <> 0 -> holds k (get RDI c) (path ++ [0]) -> path_ok path ->
  from_utf8 path = Some s -> user_cstr (get RDI c) 64 (entered k c) = Done (Ok s, entered k c).
Proof.
  intros Hd Hh [Hnz Hl] Hu. apply (Calls.user_cstr_read _ _ _ path); try assumption. now apply (holds_ext k).
Qed.

Lemma kernel_open (k : Kernel) c path found :
  kernel_opens k path found -> get RAX c = SYS_OPEN -> get RSI c = 0 -> 0 < get RDI c ->
  holds k (get RDI c) (path ++ [0]) -> path_ok path ->
  exists c' k', trap c k = Done (c', k') /\ keeps c c' /\ (exists p', runs k' p') /\ serial_out (console k') = serial_out (console k) /\
    (forall a, load k' a = load k a) /\
    match found with
    | Some data => 3 <= get RAX c' < 2 ^ 31 /\ kernel_file k' (get RAX c') = Some data
    | None => 2 ^ 63 <= get RAX c' < 2 ^ 64
    end.
Proof.
  intros (p & s & r & i & rel & fs & Hr & Hu & Hres & Hm & Hfs & Hfound) Ha Hs Hd Hh Hok.
  pose proof (entered_runs k p c Hr) as Hre. destruct Hr as (Hp & Hn & Hl). destruct found as [data|].
  - destruct Hfound as (inode & m & fd & Hlk & Hcon & Hst & Hcan & Hal).
    set (t := <[fd := Some (FdTable.FdTmpfsFile (FdTable.mkOpenTmpfsFile inode 0 0))]> (Process.fd_table p)).
    pose proof (Vfs.allocate_fd_Ok _ fd Hl Hal) as Hfd.
    set (p2 := Process.with_fd_table (Process.with_context p (saved (Process.context p) c)) t).
    set (k2 := Calls.with_files (entered k c) t (vfs k)).
    assert (runs k2 p2) as Hr2.
    { split; [unfold k2; cbn; rewrite Hp; reflexivity|]. split; [exact Hn|]. cbn. unfold t. now rewrite length_insert. }
    destruct (call_returns k p c SysOpen (Z.of_nat fd) k2 p2) as (c' & Et & Hk & Hx);
      [now split|rewrite Ha; reflexivity|lia| |exact Hr2|reflexivity|].
    { cbn [dispatch]. unfold sys_open. unfold sbind at 1. rewrite (path_read k c path s) by (assumption || lia).
      unfold open_handler. rewrite (Calls.current_run _ _ _ (proj1 Hre)). unfold sbind at 1, try.
      cbn [Process.cwd Process.with_context]. rewrite Hres. cbn [lift_result]. unfold sbind at 1, on_files.
      rewrite (Calls.current_run _ _ _ (proj1 Hre)). rewrite Hs. cbn [Process.fd_table Process.with_context Process.uid Process.gid].
      change (vfs (entered k c)) with (vfs k).
      rewrite (open_tmpfs _ _ _ _ _ _ _ _ _ _ _ _ Hl Hm Hfs Hlk Hcon Hst Hcan Hal). reflexivity. }
    destruct (left_runs k2 p2 (Z.of_nat fd) Hr2) as (Hrun & Hfile & Hcons & Hload).
    exists c', (left_with k2 (Z.of_nat fd)). split; [exact Et|]. split; [exact Hk|]. split; [exact Hrun|]. split; [reflexivity|].
    split; [exact Hload|]. rewrite Hx. split; [lia|]. rewrite Hfile. unfold left_of. cbn [Process.fd_table p2 Process.with_fd_table].
    unfold t. rewrite Vfs.get_stored by (assumption || lia). change (vfs k2) with (vfs k). rewrite Hfs. cbn. now rewrite Hcon.
  - set (k2 := Calls.with_files (entered k c) (Process.fd_table p) (vfs k)).
    set (p2 := Process.with_fd_table (Process.with_context p (saved (Process.context p) c)) (Process.fd_table p)).
    assert (runs k2 p2) as Hr2 by (split; [unfold k2; cbn; rewrite Hp; reflexivity|now split]).
    destruct (trap_run k p c SysOpen (to_syscall_result ENOENT) k2 p2) as (c' & Et & Hk & Hx);
      [now split|rewrite Ha; reflexivity| |apply Hr2|reflexivity|apply Hr2|].
    { unfold encoded. cbn [dispatch]. unfold sys_open. unfold sbind at 1. rewrite (path_read k c path s) by (assumption || lia).
      unfold open_handler. rewrite (Calls.current_run _ _ _ (proj1 Hre)). unfold sbind at 1, try.
      cbn [Process.cwd Process.with_context]. rewrite Hres. cbn [lift_result]. unfold sbind at 1, on_files.
      rewrite (Calls.current_run _ _ _ (proj1 Hre)). rewrite Hs. cbn [Process.fd_table Process.with_context Process.uid Process.gid].
      change (vfs (entered k c)) with (vfs k). unfold Vfs.open_path_with_flags, Vfs.tmpfs_open_inode.
      rewrite Hm, Hfs, Hfound. reflexivity. }
    destruct (left_runs k2 p2 (to_syscall_result ENOENT) Hr2) as (Hrun & _ & _ & Hload).
    exists c', (left_with k2 (to_syscall_result ENOENT)). split; [exact Et|]. split; [exact Hk|]. split; [exact Hrun|].
    split; [reflexivity|]. split; [exact Hload|]. rewrite Hx. vm_compute. split; congruence.
Qed.

(** ** Writing to the terminal *)

Lemma std_unbound (t : FdTable.FdTable) fd : fd = STDOUT \/ fd = STDERR -> FdTable.get t fd = Done (Err EBADF).
Proof. now intros [-> | ->]. Qed.

Lemma kernel_write (k : Kernel) p c bytes :
  runs k p -> get RAX c = SYS_WRITE -> get RDI c = STDOUT \/ get RDI c = STDERR -> get RDX c = Z.of_nat (length bytes) -> get RDX c <= 4096 ->
  0 < get RSI c -> holds k (get RSI c) bytes ->
  exists c' k', trap c k = Done (c', k') /\ keeps c c' /\ (exists p', runs k' p')
    /\ serial_out (console k') = serial_out (console k) ++ bytes
    /\ (forall fd, kernel_file k' fd = kernel_file k fd) /\ (forall a, load k' a = load k a) /\ vfs k' = vfs k.
Proof.
  intros Hr Ha Hi Hd Hm Hs Hh. pose proof (entered_runs k p c Hr) as Hre.
  set (p2 := Process.with_context p (saved (Process.context p) c)) in *.
  set (k2 := with_console (entered k c) (write_raw bytes (console k))).
  assert (runs k2 p2) as Hr2 by exact Hre.
  assert (dispatch to_lowercase user_cs user_ss SysWrite (get RDI c) (get RSI c) (get RDX c) (get R10 c) (get R8 c) (get R9 c)
    (entered k c) = Done (Ok (Z.of_nat (length bytes)), k2)) as E.
  { cbn [dispatch]. assert (as_i32 (get RDI c) = get RDI c /\ (get RDI c =? 1) || (get RDI c =? 2) = true) as [-> Hstd] by (now destruct Hi as [-> | ->]).
    unfold sys_write. rewrite Hstd.
    unfold unless_ebadf, write_handler, sbind at 1, fd_kind. rewrite (Calls.current_run _ _ _ (proj1 Hre)). unfold try_out.
    rewrite std_unbound by exact Hi. cbn [bind lift_result]. rewrite (proj2 (Z.eqb_neq (get RSI c) _)) by lia. cbn [orb].
    rewrite Hd in *. destruct bytes as [|b bytes].
    - unfold k2, write_raw. rewrite app_nil_r. cbn [length Z.of_nat Z.eqb]. unfold sret. do 2 f_equal.
      change (console k) with (console (entered k c)). destruct (entered k c) as [? ? ? ? ? [] ?]. reflexivity.
    - rewrite (proj2 (Z.eqb_neq _ 0)) by (cbn [length]; lia). rewrite (proj2 (Z.ltb_ge 4096 _)) by lia.
      unfold sbind at 1. rewrite Nat2Z.id, Calls.user_bytes_read by lia.
      assert (holds (entered k c) (get RSI c) (b :: bytes)) as Hh' by now apply (holds_ext k).
      rewrite Hh'. reflexivity. }
  destruct (call_returns k p c SysWrite (Z.of_nat (length bytes)) k2 p2) as (c' & Et & Hk & _);
    [exact Hr|rewrite Ha; reflexivity|lia|exact E|exact Hr2|reflexivity|].
  destruct (left_runs k2 p2 (Z.of_nat (length bytes)) Hr2) as (Hrun & Hfile & _ & Hload).
  exists c', (left_with k2 (Z.of_nat (length bytes))). split; [exact Et|]. split; [exact Hk|]. split; [exact Hrun|].
  split; [reflexivity|]. split; [|split; [exact Hload|reflexivity]]. intros fd. rewrite Hfile. destruct Hr as (Hp & _). unfold kernel_file. now rewrite Hp.
Qed.

(** ** Reading *)

Lemma left_of_open (v : Vfs.Vfs D) t fd data : left_of v t fd = Some data ->
  exists open fs all, FdTable.get t fd = Done (Ok (FdTable.FdTmpfsFile open)) /\ Vfs.tmpfs v = Some fs
    /\ TmpFs.content fs (FdTable.ot_inode open) = Some all /\ data = drop (FdTable.ot_offset open) all.
Proof.
  unfold left_of. destruct (FdTable.get t fd) as [[[]|]|]; try discriminate. destruct (Vfs.tmpfs v) as [fs|]; [|discriminate].
  intros H. apply fmap_Some in H as (all & Hc & ->). eauto 8.
Qed.

Lemma read_tmpfs (v : Vfs.Vfs D) t fd m data :
  length t = FdTable.MAX_FDS -> left_of v t fd = Some data ->
  exists t' buf, Vfs.read v t fd (replicate m 0) = Done (Ok (Nat.min (length data) m, buf), t')
    /\ take (Nat.min (length data) m) buf = take m data /\ length t' = FdTable.MAX_FDS
    /\ left_of v t' fd = Some (drop (Nat.min (length data) m) data).
Proof.
  intros Hl Hf. destruct (left_of_open v t fd data Hf) as (open & fs & all & Hg & Hfs & Hc & ->).
  pose proof (Vfs.get_range _ _ _ Hg) as Hfd. rewrite length_drop. set (n := Nat.min (length all - FdTable.ot_offset open) m).
  unfold Vfs.read. rewrite Hg. cbn [bind]. rewrite Hfs, length_replicate. cbn [Mount.tmpfs_read].
  unfold TmpFs.content in Hc. unfold TmpFs.read. destruct (TmpFs.nodes fs !! FdTable.ot_inode open) as [[d|]|] eqn:En; try discriminate.
  injection Hc as ->. rewrite length_replicate.
  assert (forall t' k, length t' = FdTable.MAX_FDS -> left_of v (<[Z.to_nat fd := Some (FdTable.FdTmpfsFile
    (FdTable.mkOpenTmpfsFile (FdTable.ot_inode open) (FdTable.ot_offset open + k) (FdTable.ot_flags open)))]> t') fd
    = Some (drop k (drop (FdTable.ot_offset open) all))) as Hleft.
  { intros t' k Hl'. unfold left_of. destruct (Vfs.set_entry_get t' fd (FdTable.FdTmpfsFile (FdTable.mkOpenTmpfsFile
      (FdTable.ot_inode open) (FdTable.ot_offset open + k) (FdTable.ot_flags open))) Hl' Hfd) as [_ ->].
    rewrite Hfs. unfold TmpFs.content. cbn [FdTable.ot_inode FdTable.ot_offset]. rewrite En. cbn. now rewrite drop_drop. }
  destruct (Nat.leb_spec (length all) (FdTable.ot_offset open)) as [Hle|Hlt].
  - assert (n = 0%nat) as -> by (unfold n; lia). rewrite Bytes.slice_Done by lia. cbn [bind].
    destruct (Vfs.set_entry_get t fd (FdTable.FdTmpfsFile (FdTable.mkOpenTmpfsFile (FdTable.ot_inode open)
      (FdTable.ot_offset open + 0) (FdTable.ot_flags open))) Hl Hfd) as [-> _]. cbn [bind].
    eexists _, _. split; [reflexivity|]. split; [now rewrite drop_ge, take_nil by lia|]. split; [now rewrite length_insert|].
    now apply Hleft.
  - fold n. set (src := sub_slice all (FdTable.ot_offset open) (FdTable.ot_offset open + n)).
    assert (length src = n) as Hn by (unfold src; rewrite length_sub_slice; unfold n; lia).
    assert (length (splice (replicate m 0) 0 src) = m) as Hsp by (rewrite length_splice, length_replicate; [reflexivity|rewrite length_replicate, Hn; unfold n; lia]).
    assert (take n (splice (replicate m 0) 0 src) = src) as Htk by (unfold splice; rewrite take_0; cbn [app]; rewrite <- Hn; apply take_app_length).
    rewrite Bytes.slice_Done by (rewrite Hsp; unfold n; lia). cbn [bind].
    destruct (Vfs.set_entry_get t fd (FdTable.FdTmpfsFile (FdTable.mkOpenTmpfsFile (FdTable.ot_inode open)
      (FdTable.ot_offset open + n) (FdTable.ot_flags open))) Hl Hfd) as [-> _]. cbn [bind].
    eexists _, _. split; [reflexivity|]. split; [|split; [now rewrite length_insert|now apply Hleft]].
    unfold sub_slice at 1. rewrite drop_0, Nat.sub_0_r, Htk. unfold splice. rewrite take_0. cbn [app].
    rewrite <- Hn at 1. rewrite take_app_length. unfold src, sub_slice.
    replace (FdTable.ot_offset open + n - FdTable.ot_offset open)%nat with n by lia. unfold n.
    destruct (Nat.le_ge_cases (length all - FdTable.ot_offset open) m);
      [rewrite Nat.min_l, !take_ge by (rewrite ?length_drop; lia)|rewrite Nat.min_r by lia]; reflexivity.
Qed.

Lemma as_i32_small fd : 3 <= fd < 16 -> as_i32 fd = fd.
Proof. intros H. unfold as_i32, wrap32. rewrite Z.mod_small by lia. now replace (fd <? 2 ^ 31) with true by lia. Qed.

Lemma stored_load (k : Kernel) a bytes x : x < a \/ a + Z.of_nat (length bytes) <= x ->
  load (Calls.stored k a bytes) x = load k x.
Proof.
  intros Hx. unfold Calls.stored. cbn [load active_bytes vm cr3 with_vm sp_load ideal_spaces]. unfold space.
  cbn [contents]. rewrite lookup_insert_eq. now apply read8_write.
Qed.

Lemma kernel_read (k : Kernel) p c data :
  runs k p -> get RAX c = SYS_READ -> kernel_file k (get RDI c) = Some data ->
  0 < get RDX c <= 4096 -> 0 < get RSI c -> get RSI c + get RDX c < 2 ^ 47 ->
  exists c' k' n, trap c k = Done (c', k') /\ keeps c c' /\ (exists p', runs k' p')
    /\ serial_out (console k') = serial_out (console k)
    /\ get RAX c' = Z.of_nat n /\ Z.of_nat n <= get RDX c /\ (n <= length data)%nat /\ (n = 0%nat -> data = [])
    /\ kernel_file k' (get RDI c) = Some (drop n data) /\ holds k' (get RSI c) (take n data)
    /\ forall a, a < get RSI c \/ get RSI c + Z.of_nat n <= a -> load k' a = load k a.
Proof.
  intros Hr Ha Hf Hd Hs Hb. pose proof (entered_runs k p c Hr) as Hre. pose proof Hr as (Hp & Hn & Hl).
  unfold kernel_file in Hf. rewrite Hp in Hf. destruct (left_of_open _ _ _ _ Hf) as (open & fs & all & Hg & _).
  pose proof (Vfs.get_range _ _ _ Hg) as Hfd. set (m := Z.to_nat (get RDX c)).
  destruct (read_tmpfs (vfs k) (Process.fd_table p) (get RDI c) m data Hl Hf) as (t & buf & Er & Etk & Ht & Hleft).
  set (n := Nat.min (length data) m) in *.
  set (p2 := Process.with_fd_table (Process.with_context p (saved (Process.context p) c)) t).
  set (k1 := with_sched (entered k c) (Scheduler.update_current (sched (entered k c)) (fun p => Process.with_fd_table p t))).
  set (k2 := if (0 <? n)%nat then Calls.stored k1 (get RSI c) (take m data) else k1).
  assert (runs k2 p2) as Hr2.
  { unfold k2. destruct (0 <? n)%nat; (split; [cbn; rewrite Hp; reflexivity|split; [exact Hn|exact Ht]]). }
  assert (length (take m data) = n) as Hlen by (rewrite length_take; unfold n; lia).
  assert (dispatch to_lowercase user_cs user_ss SysRead (get RDI c) (get RSI c) (get RDX c) (get R10 c) (get R8 c) (get R9 c)
    (entered k c) = Done (Ok (Z.of_nat n), k2)) as E.
  { cbn [dispatch]. rewrite as_i32_small by exact Hfd. unfold sys_read. rewrite !(proj2 (Z.eqb_neq _ _)) by lia. cbn [orb].
    unfold read_handler. rewrite (Calls.fd_kind_run (entered k c) _ _ _ _ (proj1 Hre) Hg).
    replace (at_most (get RDX c)) with m by (unfold at_most, TEMP_BUF, m; lia).
    unfold sbind at 1. unfold fd_read, sbind at 1, sread, on_table. rewrite (Calls.current_run _ _ _ (proj1 Hre)).
    change (vfs (entered k c)) with (vfs k). cbn [Process.fd_table Process.with_context]. rewrite Er. cbn [bind lift_result].
    fold k1. rewrite Etk. unfold k2. destruct (Nat.ltb_spec 0 n) as [Hpos|]; [|reflexivity].
    unfold sbind. rewrite Calls.copy_out_stored; [reflexivity|lia| |rewrite Hlen; unfold U64_MAX, m in *; lia].
    intros E0. rewrite E0 in Hlen. cbn in Hlen. lia. }
  destruct (call_returns k p c SysRead (Z.of_nat n) k2 p2) as (c' & Et & Hk & Hx);
    [exact Hr|rewrite Ha; reflexivity|unfold m in *; lia|exact E|exact Hr2|reflexivity|].
  destruct (left_runs k2 p2 (Z.of_nat n) Hr2) as (Hrun & Hfile & Hcons & Hload).
  assert (take n data = take m data) as Htake by (unfold n; destruct (Nat.le_ge_cases (length data) m);
    [rewrite Nat.min_l, !take_ge by lia|rewrite Nat.min_r by lia]; reflexivity).
  exists c', (left_with k2 (Z.of_nat n)), n. split; [exact Et|]. split; [exact Hk|]. split; [exact Hrun|].
  split; [rewrite Hcons; unfold k2; now destruct (0 <? n)%nat|]. split; [exact Hx|]. split; [unfold m in *; lia|]. split; [lia|].
  split; [intros H0; apply length_zero_iff_nil; unfold m in *; lia|].
  split; [rewrite Hfile; replace (vfs k2) with (vfs k) by (unfold k2; now destruct (0 <? n)%nat); exact Hleft|].
  rewrite Htake. split.
  - apply (holds_ext k2); [intros; apply Hload|]. unfold k2. destruct (Nat.ltb_spec 0 n); [apply Calls.stored_holds|].
    assert (take m data = []) as -> by (apply length_zero_iff_nil; lia). reflexivity.
  - intros a Hx'. rewrite Hload. unfold k2. destruct (0 <? n)%nat; [rewrite stored_load by (rewrite Hlen; exact Hx')|]; reflexivity.
Qed.

(** ** Closing *)

Lemma kernel_close (k : Kernel) p c data :
  runs k p -> get RAX c = SYS_CLOSE -> kernel_file k (get RDI c) = Some data ->
  exists c' k', trap c k = Done (c', k') /\ keeps c c' /\ (exists p', runs k' p')
    /\ serial_out (console k') = serial_out (console k) /\ forall a, load k' a = load k a.
Proof.
  intros Hr Ha Hf. pose proof (entered_runs k p c Hr) as Hre. pose proof Hr as (Hp & Hn & Hl).
  unfold kernel_file in Hf. rewrite Hp in Hf. destruct (left_of_open _ _ _ _ Hf) as (open & fs & all & Hg & _).
  pose proof (Vfs.get_range _ _ _ Hg) as Hfd. set (t := <[Z.to_nat (get RDI c) := None]> (Process.fd_table p)).
  set (p2 := Process.with_fd_table (Process.with_context p (saved (Process.context p) c)) t).
  set (k2 := with_pipes (with_sched (entered k c) (Scheduler.update_current (sched (entered k c))
    (fun p => Process.with_fd_table p t))) (pipes k)).
  assert (runs k2 p2) as Hr2.
  { split; [cbn; rewrite Hp; reflexivity|]. split; [exact Hn|]. cbn. unfold t. now rewrite length_insert. }
  assert (FdTable.close (Process.fd_table p) (pipes k) (get RDI c) = Done (Ok tt, t, pipes k)) as Ec.
  { unfold FdTable.get in Hg. unfold FdTable.close. destruct (FdTable.fd_out_of_range (get RDI c)); [discriminate|].
    destruct (get RDI c <? Z.of_nat FdTable.FIRST_NONSTD_FD); [discriminate|].
    destruct (index (Process.fd_table p) (Z.to_nat (get RDI c))) as [[kind|]|]; [|discriminate..]. cbn [bind] in *.
    injection Hg as ->. rewrite index_set_lt by (rewrite Hl; unfold FdTable.MAX_FDS; lia). reflexivity. }
  destruct (call_returns k p c SysClose 0 k2 p2) as (c' & Et & Hk & _);
    [exact Hr|rewrite Ha; reflexivity|lia| |exact Hr2|reflexivity|].
  { cbn [dispatch]. rewrite as_i32_small by exact Hfd. unfold sys_close, close_handler. unfold sbind at 1, on_pipes.
    rewrite (Calls.current_run _ _ _ (proj1 Hre)). cbn [Process.fd_table Process.with_context].
    change (pipes (entered k c)) with (pipes k). rewrite Ec. reflexivity. }
  destruct (left_runs k2 p2 0 Hr2) as (Hrun & _ & _ & Hload).
  exists c', (left_with k2 0). split; [exact Et|]. split; [exact Hk|]. split; [exact Hrun|]. split; [reflexivity|exact Hload].
Qed.

(** ** Programs that make one call *)

#[local] Arguments put : simpl never.
#[local] Arguments get : simpl never.
#[local] Arguments negative : simpl never.
#[local] Arguments cmp_flags : simpl never.

Definition failed {T} (r : result T ErrorCode) : bool := match r with Ok _ => false | Err _ => true end.

(** What a handler whose operation has the result [r] returns. *)
Definition zero_of {T} (r : result T ErrorCode) : result Z ErrorCode := match r with Ok _ => Ok 0 | Err e => Err e end.

Lemma failed_zero_of {T} (r : result T ErrorCode) : failed (zero_of r) = failed r.
Proof. now destruct r. Qed.

Lemma call_result (k : Kernel) p c call (r : result Z ErrorCode) k2 p2 :
  runs k p -> from_u64 (get RAX c) = Some call -> match r with Ok v => 0 <= v < 2 ^ 63 | Err _ => True end ->
  dispatch to_lowercase user_cs user_ss call (get RDI c) (get RSI c) (get RDX c) (get R10 c) (get R8 c) (get R9 c)
    (entered k c) = Done (lift_result r, k2) ->
  runs k2 p2 -> Process.context p2 = saved (Process.context p) c ->
  exists c' v, trap c k = Done (c', left_with k2 v) /\ keeps c c' /\ negative (get RAX c') = failed r.
Proof.
  intros Hr Hc Hv E Hr2 Hx. destruct r as [v|e].
  - destruct (call_returns k p c call v k2 p2) as (c' & Et & Hk & Ha); try assumption.
    exists c', v. split; [exact Et|]. split; [exact Hk|]. rewrite Ha, negative_spec by lia. cbn. lia.
  - destruct (trap_run k p c call (to_syscall_result e) k2 p2) as (c' & Et & Hk & Ha); try assumption; [|apply Hr2|apply Hr2|].
    + unfold encoded. rewrite E. reflexivity.
    + exists c', (to_syscall_result e). split; [exact Et|]. split; [exact Hk|]. rewrite Ha. now destruct e.
Qed.

(** The end of such a program, at the place [n] in its code. *)
Definition reports (code : list instr) (n : nat) (err_msg : Z) (text : list Z) : Prop :=
  forall (k : Kernel) p c f, runs k p -> holds k err_msg text -> 0 < err_msg ->
  exists k', ends code (mkUser c f n k) (if negative (get RAX c) then 1 else 0) k' /\ vfs k' = vfs k
    /\ serial_out (console k') = serial_out (console k) ++ (if negative (get RAX c) then text else []).

Ltac report_tac stream side text err_msg :=
  intros k p c f Hr Hh Hm; destruct (negative (get RAX c)) eqn:Hneg;
  [set (c1 := put RDX (Z.of_nat (length text)) (put RSI err_msg (put RDI stream (put RAX SYS_WRITE c))));
   destruct (kernel_write k p c1 text Hr eq_refl (side eq_refl) eq_refl ltac:(vm_compute; discriminate) Hm Hh)
     as (c2 & k2 & Et & _ & _ & Ho & _ & _ & Hv);
   exists k2; split; [|split; [exact Hv|exact Ho]];
   eapply reaches_ends; [exists 2%nat; cbn; rewrite Hneg; reflexivity|];
   eapply reaches_ends; [exists 5%nat; cbn; reflexivity|];
   eapply reaches_ends; [apply (reaches_trap _ c1); [reflexivity|discriminate|exact Et]|];
   exists 3%nat; cbn; reflexivity
  |exists k; split; [exists 5%nat; cbn; rewrite Hneg; reflexivity|split; [reflexivity|now rewrite app_nil_r]]].

Definition rm_text : list Z := bytes_of_string "rm: failed to remove file" ++ [10].
Definition mkdir_text : list Z := bytes_of_string "mkdir: failed to create directory" ++ [10].
Definition mv_text : list Z := bytes_of_string "mv: failed to rename file" ++ [10].
Definition chmod_text : list Z := bytes_of_string "chmod: failed" ++ [13; 10].

Lemma rm_reports err_msg : reports (rm err_msg) 3 err_msg rm_text.
Proof. report_tac STDERR (@or_intror (STDERR = STDOUT) (STDERR = STDERR)) rm_text err_msg. Qed.
Lemma mkdir_reports err_msg : reports (mkdir err_msg) 4 err_msg mkdir_text.
Proof. report_tac STDERR (@or_intror (STDERR = STDOUT) (STDERR = STDERR)) mkdir_text err_msg. Qed.
Lemma mv_reports err_msg : reports (mv err_msg) 9 err_msg mv_text.
Proof. report_tac STDERR (@or_intror (STDERR = STDOUT) (STDERR = STDERR)) mv_text err_msg. Qed.

Lemma chmod_reports usage_msg err_msg : reports (chmod usage_msg err_msg) 41 err_msg chmod_text.
Proof. report_tac STDOUT (@or_introl (STDOUT = STDOUT) (STDOUT = STDERR)) chmod_text err_msg. Qed.

Lemma one_call_ends code n err_msg text (k : Kernel) p c0 c1 f1 call (r : result Z ErrorCode) k2 p2 :
  reports code (S n) err_msg text -> code !! n = Some Syscall -> reaches code (start c0 k) (mkUser c1 f1 n k) ->
  runs k p -> holds k err_msg text -> 0 < err_msg ->
  from_u64 (get RAX c1) = Some call -> get RAX c1 <> SYS_EXIT -> match r with Ok v => 0 <= v < 2 ^ 63 | Err _ => True end ->
  dispatch to_lowercase user_cs user_ss call (get RDI c1) (get RSI c1) (get RDX c1) (get R10 c1) (get R8 c1) (get R9 c1)
    (entered k c1) = Done (lift_result r, k2) ->
  runs k2 p2 -> Process.context p2 = saved (Process.context p) c1 ->
  (forall a, load k2 a = load k a) -> console k2 = console k ->
  exists m k', exec code m (start c0 k) = Done (Exited (if failed r then 1 else 0) k') /\ vfs k' = vfs k2
    /\ serial_out (console k') = serial_out (console k) ++ (if failed r then text else []).
Proof.
  intros Hrep Hi R Hr Hh Hm Hc Hx Hv E Hr2 Hctx Hload Hcons.
  destruct (call_result k p c1 call r k2 p2 Hr Hc Hv E Hr2 Hctx) as (c2 & v & Et & _ & Hneg).
  destruct (left_runs k2 p2 v Hr2) as ((p3 & Hr3) & _ & Hc3 & Hl3).
  destruct (Hrep (left_with k2 v) p3 c2 f1 Hr3) as (k' & [m He] & Hv' & Ho);
    [apply (holds_ext k); [|exact Hh]; intros; now rewrite Hl3|exact Hm|].
  rewrite Hneg in *. rewrite Hc3, Hcons in Ho.
  destruct (reaches_ends code (start c0 k) (mkUser c1 f1 n k) (if failed r then 1 else 0) k' R) as [m' Em].
  { eapply reaches_ends; [apply reaches_trap; [exact Hi|exact Hx|exact Et]|]. now exists m. }
  exists m', k'. split; [exact Em|]. split; [exact Hv'|exact Ho].
Qed.

(** A path in the memory of the process, as the handlers read it. *)
Definition names (k : Kernel) (p : Process.Process) (a : Z) (path : list Z) (r : string) : Prop :=
  a <> 0 /\ holds k a (path ++ [0]) /\ Forall (fun b => is_u8 b /\ b <> 0) path /\ (length path < 256)%nat
  /\ exists s, from_utf8 path = Some s /\ Path.resolve_path (Process.cwd p) s = Ok r.

Lemma names_cstr (k : Kernel) p a path r c n : names k p a path r -> (length path < n)%nat ->
  exists s, user_cstr a n (entered k c) = Done (Ok s, entered k c) /\ Path.resolve_path (Process.cwd p) s = Ok r.
Proof.
  intros (Ha & Hh & Hnz & _ & s & Hu & Hres) Hl. exists s. split; [|exact Hres].
  apply (Calls.user_cstr_read _ _ _ path); try assumption; [|now apply (holds_ext k)].
  eapply Forall_impl; [exact Hnz|]. now intros b [_ ?].
Qed.

Lemma names_short (k : Kernel) p a path r : names k p a path r -> (length path < 256)%nat.
Proof. now intros (_ & _ & _ & H & _). Qed.

Lemma names_resolved (k : Kernel) p a path r c n : runs k p -> names k p a path r -> (length path < n)%nat ->
  resolved a n (entered k c) = Done (Ok (Process.with_context p (saved (Process.context p) c), r), entered k c).
Proof.
  intros Hr Hn Hl. pose proof (entered_runs k p c Hr) as Hre. destruct (names_cstr k p a path r c n Hn Hl) as (s & Es & Hres).
  unfold resolved, sbind at 1. rewrite Es. rewrite (Calls.current_run _ _ _ (proj1 Hre)). unfold sbind, try.
  cbn [Process.cwd Process.with_context]. rewrite Hres. reflexivity.
Qed.

(** The kernel at the end of a call that changed the files only. *)
Lemma files_changed (k : Kernel) p c v : runs k p ->
  runs (with_vfs (entered k c) v) (Process.with_context p (saved (Process.context p) c)).
Proof. intros (Hp & Hn & Hl). split; [cbn; now rewrite Hp|]. split; [exact Hn|exact Hl]. Qed.

(** rm on the kernel: the program ends; the files are those after
    [unlink_path] of the path in its argument; it exits with 0 if that succeeded,
    and otherwise with 1 and its message on the line. *)
Theorem rm_unlinks (k : Kernel) p c path r err_msg :
  runs k p -> names k p ARG_ADDR path r -> holds k err_msg rm_text -> 0 < err_msg ->
  let (res, v) := Vfs.unlink_path (vfs k) r in
  exists n k', exec (rm err_msg) n (start c k) = Done (Exited (if failed res then 1 else 0) k') /\ vfs k' = v
    /\ serial_out (console k') = serial_out (console k) ++ (if failed res then rm_text else []).
Proof.
  intros Hr Hn Hh Hm. destruct (Vfs.unlink_path (vfs k) r) as [res v] eqn:Eu.
  set (c1 := put RDI ARG_ADDR (put RAX SYS_UNLINK c)).
  destruct (one_call_ends (rm err_msg) 2 err_msg rm_text k p c c1 (mkFlags false false false false) SysUnlink
    (zero_of res) (with_vfs (entered k c1) v)
    (Process.with_context p (saved (Process.context p) c1))) as (n & k' & E & Hv & Ho);
    try assumption; try reflexivity; try discriminate.
  - apply rm_reports.
  - exists 2%nat. reflexivity.
  - destruct res; [cbn; lia|exact I].
  - change (get RDI c1) with ARG_ADDR. cbn [dispatch]. unfold sys_unlink, unlink_handler, sbind at 1.
    rewrite (names_resolved k p ARG_ADDR path r c1 256 Hr Hn (names_short _ _ _ _ _ Hn)). unfold sbind, on_vfs. change (vfs (entered k c1)) with (vfs k).
    rewrite Eu. now destruct res.
  - now apply files_changed.
  - exists n, k'. rewrite <- failed_zero_of. auto.
Qed.

(** What chmod does to the files: the caller is the superuser or the owner
    of the file. *)
Definition chmod_effect (v : Vfs.Vfs D) (uid : Z) (r : string) (st : result Perm.FileMetadata ErrorCode) (mode : Z) :
    result unit ErrorCode * Vfs.Vfs D :=
  match st with
  | Err e => (Err e, v)
  | Ok metadata => if (uid =? 0) || (uid =? Perm.uid metadata) then Vfs.chmod_path v r mode else (Err EPERM, v)
  end.

(** chmod on the kernel, for an argument of one to three octal digits, a space and a path. *)
Theorem chmod_changes_mode (k : Kernel) p c digits path r st usage_msg err_msg :
  runs k p -> Forall (fun b => 48 <= b <= 55) digits -> (1 <= length digits <= 3)%nat ->
  holds k ARG_ADDR (digits ++ [32] ++ path ++ [0]) -> path <> [] -> (length path < 64)%nat ->
  names k p (ARG_ADDR + Z.of_nat (length digits) + 1) path r ->
  Vfs.stat_path to_lowercase (vfs k) r = Done st -> holds k err_msg chmod_text -> 0 < err_msg ->
  let (res, v) := chmod_effect (vfs k) (Process.uid p) r st (octal digits) in
  exists n k', exec (chmod usage_msg err_msg) n (start c k) = Done (Exited (if failed res then 1 else 0) k') /\ vfs k' = v
    /\ serial_out (console k') = serial_out (console k) ++ (if failed res then chmod_text else []).
Proof.
  intros Hr Hd Hl Hh Hp Hpl Hn Est Ht Hm. destruct (chmod_effect _ _ _ _ _) as [res v] eqn:Ee.
  destruct (chmod_parse usage_msg err_msg k c digits path) as (c1 & f1 & R & A1 & D1 & S1);
    try assumption; [apply Hn|].
  destruct (one_call_ends (chmod usage_msg err_msg) 40 err_msg chmod_text k p c c1 f1 SysChmod
    (zero_of res) (with_vfs (entered k c1) v)
    (Process.with_context p (saved (Process.context p) c1))) as (n & k' & E & Hv & Ho);
    try assumption; try reflexivity; try (rewrite A1; (reflexivity || discriminate)).
  - apply chmod_reports.
  - destruct res; [cbn; lia|exact I].
  - rewrite D1, S1. cbn [dispatch]. unfold sys_chmod, chmod_handler, sbind at 1.
    rewrite (names_resolved k p _ path r c1 64 Hr Hn Hpl). pose proof (octal_bound digits Hd (proj2 Hl)) as Hb.
    replace (wrap16 (octal digits)) with (octal digits) by (unfold wrap16; rewrite Z.mod_small; lia).
    replace (0x1FF <? octal digits) with false by lia. unfold stat_path, sbind, sread, try_out. change (vfs (entered k c1)) with (vfs k).
    rewrite Est. unfold chmod_effect in Ee. cbn [Process.uid Process.with_context].
    destruct st as [md|e]; cbn; [|injection Ee as <- <-; reflexivity].
    destruct (Process.uid p =? 0), (Process.uid p =? Perm.uid md); cbn in Ee |- *; unfold on_vfs;
      change (vfs (entered k c1)) with (vfs k); rewrite ?Ee; try (now destruct res). injection Ee as <- <-. reflexivity.
  - now apply files_changed.
  - exists n, k'. rewrite <- failed_zero_of. auto.
Qed.

(** mkdir on the kernel, for a path of the tmpfs. *)
Theorem mkdir_makes_directory (k : Kernel) p c path r i rel parent name res g err_msg :
  runs k p -> names k p ARG_ADDR path r -> holds k err_msg mkdir_text -> 0 < err_msg ->
  Mount.resolve_mount_path (Vfs.table (vfs k)) r = Some (i, rel, Mount.Tmpfs) -> Vfs.split_parent rel = (parent, name) ->
  Mount.tmpfs_mkdir (Vfs.tmpfs (vfs k)) parent name = Done (res, g) ->
  exists n k', exec (mkdir err_msg) n (start c k) = Done (Exited (if failed res then 1 else 0) k')
    /\ vfs k' = Vfs.with_tmpfs (vfs k) g
    /\ serial_out (console k') = serial_out (console k) ++ (if failed res then mkdir_text else []).
Proof.
  intros Hr Hn Hh Hm Hmt Hsp Et. set (c1 := put RSI 0x1ED (put RDI ARG_ADDR (put RAX SYS_MKDIR c))).
  destruct (one_call_ends (mkdir err_msg) 3 err_msg mkdir_text k p c c1 (mkFlags false false false false) SysMkdir
    (zero_of res) (with_vfs (entered k c1) (Vfs.with_tmpfs (vfs k) g))
    (Process.with_context p (saved (Process.context p) c1))) as (n & k' & E & Hv & Ho);
    try assumption; try reflexivity; try discriminate.
  - apply mkdir_reports.
  - exists 3%nat. reflexivity.
  - destruct res; [cbn; lia|exact I].
  - change (get RDI c1) with ARG_ADDR. cbn [dispatch]. unfold sys_mkdir, mkdir_handler, sbind at 1.
    rewrite (names_resolved k p ARG_ADDR path r c1 256 Hr Hn (names_short _ _ _ _ _ Hn)). unfold sbind at 1, sread. change (vfs (entered k c1)) with (vfs k).
    rewrite Hmt, Hsp. unfold sbind, on_tmpfs. change (vfs (entered k c1)) with (vfs k). rewrite Et. cbn [bind]. now destruct res.
  - now apply files_changed.
  - exists n, k'. rewrite <- failed_zero_of. auto.
Qed.

(** mv on the kernel, for two paths of the tmpfs that follow each other in its
    argument: the program finds the second one, and the files are those after
    the rename. *)
Theorem mv_renames (k : Kernel) p c old new ro rn i j orel nrel oparent oname nparent nname res g err_msg :
  runs k p -> names k p ARG_ADDR old ro -> names k p (ARG_ADDR + Z.of_nat (length old) + 1) new rn ->
  holds k err_msg mv_text -> 0 < err_msg ->
  Mount.resolve_mount_path (Vfs.table (vfs k)) ro = Some (i, orel, Mount.Tmpfs) -> Vfs.split_parent orel = (oparent, oname) ->
  Mount.resolve_mount_path (Vfs.table (vfs k)) rn = Some (j, nrel, Mount.Tmpfs) -> Vfs.split_parent nrel = (nparent, nname) ->
  Mount.tmpfs_rename (Vfs.tmpfs (vfs k)) oparent oname nparent nname = (res, g) ->
  exists n k', exec (mv err_msg) n (start c k) = Done (Exited (if failed res then 1 else 0) k')
    /\ vfs k' = Vfs.with_tmpfs (vfs k) g
    /\ serial_out (console k') = serial_out (console k) ++ (if failed res then mv_text else []).
Proof.
  intros Hr Hno Hnn Hh Hm Hmo Hso Hmn Hsn Et. pose proof Hno as (_ & Hho & Hnz & Hlo & _).
  set (c0 := put RAX (get RAX c / 256 * 256) (put RCX (wrap64 (0 - 1)) (put RCX 0 (put RDI ARG_ADDR c)))).
  destruct (scan_run (mv err_msg) 4 k old c0 (test_flags 0)) as (cs & fs & Rs & Hds);
    [reflexivity|exact Hnz|exact Hho|unfold c0; rewrite get_put; cbn [reg_eqb]; lia|change (get RCX c0) with (2 ^ 64 - 1); lia
    |change (get RDI c0) with ARG_ADDR; unfold ARG_ADDR; lia|change (get RDI c0) with ARG_ADDR; unfold ARG_ADDR; lia|].
  change (get RDI c0) with ARG_ADDR in Hds.
  set (c1 := put RDI ARG_ADDR (put RSI (get RDI cs) (put RAX SYS_RENAME cs))).
  destruct (one_call_ends (mv err_msg) 8 err_msg mv_text k p c c1 fs SysRename
    (zero_of res) (with_vfs (entered k c1) (Vfs.with_tmpfs (vfs k) g))
    (Process.with_context p (saved (Process.context p) c1))) as (n & k' & E & Hv & Ho);
    try assumption; try reflexivity; try discriminate.
  - apply mv_reports.
  - eapply reaches_trans; [exists 4%nat; reflexivity|]. eapply reaches_trans; [exact Rs|]. exists 3%nat. reflexivity.
  - destruct res; [cbn; lia|exact I].
  - change (get RDI c1) with ARG_ADDR. change (get RSI c1) with (get RDI cs). rewrite Hds.
    pose proof (entered_runs k p c1 Hr) as Hre.
    destruct (names_cstr k p _ _ _ c1 256 Hno (names_short _ _ _ _ _ Hno)) as (so & Eo & Hro). destruct (names_cstr k p _ _ _ c1 256 Hnn (names_short _ _ _ _ _ Hnn)) as (sn & En & Hrn).
    cbn [dispatch]. unfold sys_rename, rename_handler, sbind at 1. rewrite Eo. unfold sbind at 1. rewrite En.
    rewrite (Calls.current_run _ _ _ (proj1 Hre)). unfold sbind at 1, try. cbn [Process.cwd Process.with_context].
    rewrite Hro. cbn [lift_result]. unfold sbind at 1, try. rewrite Hrn. cbn [lift_result]. unfold sbind at 1, sread.
    change (vfs (entered k c1)) with (vfs k). rewrite Hmo, Hmn, Hso, Hsn. rewrite bool_decide_eq_true_2 by reflexivity. cbn [negb].
    unfold sbind, on_tmpfs. change (vfs (entered k c1)) with (vfs k). rewrite Et. cbn [bind]. now destruct res.
  - now apply files_changed.
  - exists n, k'. rewrite <- failed_zero_of. auto.
Qed.

(** ** wc *)

Section Wc.

Context (buffer count_str_end newline : Z).
Hypothesis end_range : 5000 <= count_str_end < 2 ^ 47.

Notation code := (wc buffer count_str_end newline).

(** The kernel with other bytes in memory between two addresses. *)
Definition same_but (k k' : Kernel) (lo hi : Z) : Prop :=
  (forall p, runs k p -> runs k' p) /\ console k' = console k /\ forall x, x < lo \/ hi <= x -> load k' x = load k x.

(** The loop that writes the digits backwards. *)
Lemma convert_run m : forall (k : Kernel) c f, get RCX c = 10 -> 0 <= get RAX c < 10 ^ (Z.of_nat m + 1) -> get RAX c < 2 ^ 64 ->
  Z.of_nat m < get RDI c < 2 ^ 47 ->
  exists c' f' k', reaches code (mkUser c f 15 k) (mkUser c' f' 23 k') /\ same_but k k' (get RDI c - Z.of_nat m - 1) (get RDI c).
Proof.
  induction m as [|m IH]; intros k c f Hc Ha Ha2 Hd.
  all: set (dl := wrap8 (get RAX c mod 10 mod 256 + 48)).
  all: set (c1 := put RDI (wrap64 (get RDI c - 1)) (put RDX (get RAX c mod 10 / 256 * 256 + dl)
    (put RAX (get RAX c / 10) (put RDX (get RAX c mod 10) (put RDX 0 c))))).
  all: assert (Gd : get RDI c1 = get RDI c - 1) by (unfold c1; rewrite !get_put; cbn [reg_eqb]; unfold wrap64; apply Z.mod_small; lia).
  all: assert (Ga : get RAX c1 = get RAX c / 10) by (unfold c1; now rewrite !get_put).
  all: assert (Gc : get RCX c1 = 10) by (unfold c1; now rewrite !get_put).
  all: set (k1 := Calls.stored k (get RDI c1) [get RDX c1 mod 256]).
  all: assert (same_but k k1 (get RDI c - 1) (get RDI c)) as S1
    by (split; [intros p Hp; exact Hp|]; split; [reflexivity|]; intros x Hx; unfold k1; rewrite stored_load; [reflexivity|cbn [length]; lia]).
  all: assert (exists f1, reaches code (mkUser c f 15 k)
    (mkUser c1 f1 (if get RAX c / 10 =? 0 then 23%nat else 15%nat) k1)) as (f1 & R1).
  1,3: exists (test_flags (get RAX c / 10)); eapply reaches_trans; [exists 5%nat; cbn; rewrite ?get_put; cbn [reg_eqb];
      rewrite Hc, Z.add_0_l; replace (2 ^ 64 <=? get RAX c / 10) with false by lia; cbn; rewrite ?get_put; cbn [reg_eqb]; reflexivity|];
      fold dl; fold c1; exists 3%nat; cbn; fold k1; rewrite Ga; destruct (get RAX c / 10 =? 0); reflexivity.
  - assert (get RAX c / 10 = 0) as Hz by (apply Z.div_small; cbn in Ha; lia). rewrite Hz in R1.
    exists c1, f1, k1. split; [exact R1|]. now replace (get RDI c - Z.of_nat 0 - 1) with (get RDI c - 1) by lia.
  - destruct (Z.eqb_spec (get RAX c / 10) 0) as [Hz|Hz].
    + exists c1, f1, k1. split; [exact R1|]. destruct S1 as (H1 & H2 & H3). split; [exact H1|]. split; [exact H2|].
      intros x Hx. apply H3. lia.
    + destruct (IH k1 c1 f1) as (c2 & f2 & k2 & R2 & H1 & H2 & H3); [exact Gc| |rewrite Ga; lia|rewrite Gd; lia|].
      { rewrite Ga. split; [apply Z.div_pos; lia|]. apply Z.div_lt_upper_bound; [lia|].
        replace (Z.of_nat (S m) + 1) with (Z.succ (Z.of_nat m + 1)) in Ha by lia. rewrite Z.pow_succ_r in Ha by lia. lia. }
      exists c2, f2, k2. split; [eapply reaches_trans; [exact R1|exact R2]|].
      destruct S1 as (G1 & G2 & G3). split; [auto|]. split; [congruence|]. intros x Hx. rewrite H3, G3 by (rewrite ?Gd; lia). reflexivity.
Qed.

(** The write of the count: its buffer is at address 1 and reaches up to the
    digits, which is more than the kernel takes. *)
Lemma count_write (k : Kernel) p c f : runs k p ->
  exists c' f' k', reaches code (mkUser c f 23 k) (mkUser c' f' 29 k') /\ (exists p', runs k' p')
    /\ console k' = console k /\ forall a, load k' a = load k a.
Proof.
  intros Hr. set (c1 := put RDX (wrap64 (count_str_end - 1)) (put RDX count_str_end (put RSI STDOUT (put RDI STDOUT (put RAX SYS_WRITE c))))).
  assert (get RDX c1 = count_str_end - 1) as Gd by (change (get RDX c1) with (wrap64 (count_str_end - 1)); unfold wrap64; apply Z.mod_small; lia).
  pose proof (entered_runs k p c1 Hr) as Hre.
  destruct (call_result k p c1 SysWrite (Err EINVAL) (entered k c1) (Process.with_context p (saved (Process.context p) c1)))
    as (c2 & v & Et & _ & _); [exact Hr|reflexivity|exact I| |exact Hre|reflexivity|].
  { cbn [dispatch]. rewrite Gd. change (as_i32 (get RDI c1)) with 1. change (get RSI c1) with 1. unfold sys_write. cbn [Z.eqb Pos.eqb orb].
    unfold unless_ebadf, write_handler, sbind at 1, fd_kind. rewrite (Calls.current_run _ _ _ (proj1 Hre)). unfold try_out.
    rewrite std_unbound by now left. cbn [bind lift_result]. rewrite (proj2 (Z.eqb_neq _ 0)) by lia.
    now rewrite (proj2 (Z.ltb_lt 4096 _)) by lia. }
  destruct (left_runs (entered k c1) _ v Hre) as (Hrun & _ & Hc & Hl).
  exists c2. eexists. exists (left_with (entered k c1) v). split; [|split; [exact Hrun|split; [exact Hc|exact Hl]]].
  eapply reaches_trans; [exists 5%nat; cbn; reflexivity|]. change (get RDI (put RDI STDOUT (put RAX SYS_WRITE c))) with STDOUT.
  apply (reaches_trap _ c1); [reflexivity|discriminate|exact Et].
Qed.

(** wc never shows its count. When it has read its input, of any length, it
    exits with 0, and all that has gone out on the line is the end of a line:
    the address of the digits is replaced by the number of the descriptor
    before it is used, and the kernel refuses the write. *)
Theorem wc_prints_no_count (k : Kernel) p c f :
  runs k p -> 0 <= get R12 c < 2 ^ 64 -> 0 < newline -> newline + 2 <= count_str_end - 20 \/ count_str_end <= newline ->
  holds k newline [13; 10] ->
  exists n k', exec code n (mkUser c f 11 k) = Done (Exited 0 k')
    /\ serial_out (console k') = serial_out (console k) ++ [13; 10].
Proof.
  intros Hr Hn Hpos Hsep Hh. set (c0 := put RCX 10 (put RDI count_str_end (put RAX (get R12 c) c))).
  destruct (convert_run 19 k c0 f) as (c1 & f1 & k1 & R1 & S1 & S2 & S3);
    [reflexivity|change (get RAX c0) with (get R12 c); cbn; lia|change (get RAX c0) with (get R12 c); lia
    |change (get RDI c0) with count_str_end; lia|]. change (get RDI c0) with count_str_end in S3.
  destruct (count_write k1 p c1 f1 (S1 p Hr)) as (c2 & f2 & k2 & R2 & (p2 & Hr2) & C2 & L2).
  set (c3 := put RDX 2 (put RSI newline (put RDI STDOUT (put RAX SYS_WRITE c2)))).
  destruct (kernel_write k2 p2 c3 [13; 10] Hr2) as (c4 & k4 & Et & _ & _ & O4 & _);
    [reflexivity|left; reflexivity|reflexivity|change (get RDX c3) with 2; lia|exact Hpos| |].
  { change (get RSI c3) with newline. apply (holds_ext k); [|exact Hh]. cbn [length]. intros x Hx. rewrite L2. apply S3. lia. }
  assert (ends code (mkUser c f 11 k) 0 k4) as [n E].
  { eapply reaches_ends; [exists 4%nat; reflexivity|]. eapply reaches_ends; [exact R1|]. eapply reaches_ends; [exact R2|].
    eapply reaches_ends; [exists 4%nat; reflexivity|]. eapply reaches_ends; [apply (reaches_trap _ c3); [reflexivity|discriminate|exact Et]|].
    exists 3%nat. reflexivity. }
  exists n, k4. split; [exact E|]. now rewrite O4, C2, S2.
Qed.

End Wc.

(** The kernel provides what the programs rely on. *)
#[local] Instance kernel_files : Files Kernel.
Proof.
  refine {| running k := exists p, runs k p; output k := serial_out (console k); file := kernel_file; opens := kernel_opens |}.
  - intros. now apply kernel_open with (path := path).
  - intros w c data (p & Hr). now apply (kernel_read w p).
  - intros w c bytes (p & Hr) Ha Hi Hd Hm Hs Hh.
    destruct (kernel_write w p c bytes) as (c' & w' & E & H1 & H2 & H3 & H4 & H5 & _); eauto 10.
  - intros w c data (p & Hr). now apply (kernel_close w p).
Defined.

(** echo on the kernel: exactly its argument, of at most 128 bytes, and the end
    of a line go out. *)
Theorem echo_prints_argument (k : Kernel) p c arg newline :
  runs k p -> Forall (fun b => is_u8 b /\ b <> 0) arg -> holds k ARG_ADDR arg ->
  (length arg = 128%nat \/ (length arg < 128)%nat /\ load k (ARG_ADDR + Z.of_nat (length arg)) = 0) ->
  0 < newline -> holds k newline [13; 10] ->
  exists n k', exec (echo newline) n (start c k) = Done (Exited 0 k')
    /\ serial_out (console k') = serial_out (console k) ++ arg ++ [13; 10].
Proof.
  intros Hr Hs Hh Hend Hpos Hn.
  destruct (echo_run newline k c arg) as (k' & [n E] & Ho); try assumption; [now exists p|]. exists n, k'. auto.
Qed.

(** C16: cat on the kernel. The program, started in a process whose argument buffer
    holds a path, in a kernel that is not about to preempt it, ends. If the
    path is that of a file of the tmpfs that the process may read, and the
    process has a free descriptor, cat exits with 0 and exactly the bytes of the
    file have gone out on the serial line; if nothing is at that path, it exits
    with 1 and its message has. *)
Theorem cat_prints_file (k : Kernel) c path found buf open_err read_err :
  kernel_opens k path found -> path_ok path ->
  holds k ARG_ADDR (path ++ [0]) -> holds k open_err (bytes_of_string "cat: open failed" ++ [13; 10]) ->
  0 < open_err -> 0 < buf -> buf + 256 < 2 ^ 47 ->
  exists n status k', exec (cat buf open_err read_err) n (start c k) = Done (Exited status k')
    /\ match found with
       | Some data => status = 0 /\ serial_out (console k') = serial_out (console k) ++ data
       | None => status = 1
           /\ serial_out (console k') = serial_out (console k) ++ bytes_of_string "cat: open failed" ++ [13; 10]
       end.
Proof.
  intros Hop Hok Hp Hm Hpos Hb Hb2. pose proof Hop as (p & _ & _ & _ & _ & _ & Hr & _).
  destruct (cat_run buf open_err read_err (conj Hb Hb2) k c path found) as (k' & Hrun); try assumption; [now exists p|].
  destruct found as [data|]; destruct Hrun as [(n & E) Ho]; exists n; eexists _, k'; (split; [exact E|now split]).
Qed.

End Machine.

#[local] Existing Instance Net.virtio.

(** The demonstration kernel, with the argument and the message in memory. *)
Definition path : list Z := bytes_of_string "/tmp/secret".
Definition machine : Demo.Machine :=
  with_vm Demo.boot (mkIdeal 0x9000 {[ 0x1000 :=
    write_bytes (write_bytes ∅ ARG_ADDR (path ++ [0])) 0x600000 (bytes_of_string "cat: open failed" ++ [13; 10]) ]}).

Lemma cat_prints_file_witness :
  exists n status k', @exec _ _ (kernel_system Vfs.lower 0x23 0x1b) (cat 0x601000 0x600000 0x600100) n (start Process.zero machine)
      = Done (Exited status k')
    /\ status = 0 /\ serial_out (console k') = serial_out (console machine) ++ [1; 2; 3].
Proof.
  apply (cat_prints_file Vfs.lower 0x23 0x1b machine Process.zero path (Some ([1; 2; 3])) 0x601000 0x600000 0x600100).
  - eexists _, "/tmp/secret"%string, "/tmp/secret"%string, _, _, _.
    split; [split; [vm_compute; reflexivity|split; vm_compute; reflexivity]|].
    split; [vm_compute; reflexivity|]. split; [vm_compute; reflexivity|]. split; [vm_compute; reflexivity|].
    split; [vm_compute; reflexivity|]. eexists _, _, _. split; [vm_compute; reflexivity|].
    split; [vm_compute; reflexivity|]. split; [vm_compute; reflexivity|]. split; vm_compute; reflexivity.
  - split; [|vm_compute; lia]. unfold path. cbn. repeat constructor; discriminate.
  - vm_compute. reflexivity.
  - vm_compute. reflexivity.
  - lia.
  - lia.
  - lia.
Defined.

End UserKernel.
