(* ===== verification/Entry.v ===== *)
(** * Into and out of user mode (src/kernel/src/usermode.rs)

    The assembly between a program and the kernel, instruction by instruction,
    on the machine of Switch.v: the entry and the exit of a system call, the
    switch to another process from inside a call, and the first entry to user
    mode.  The entry, the exit and the switches implement
    [Dispatch.syscall_entry].  The machine's memory is that of the kernel, which
    every page table maps at the same addresses, so a load of CR3 leaves it. *)

From S2P Require Import Prelude Abi RingBuffer Pipe FdTable Process Scheduler Path Perm TmpFs Bytes Block Utf8 UserMem.
From S2P Require Import Elf Paging Spaces ExecStack Ps2 Tty DiskFs Fat32 Mount Vfs Packets Net Kernel Dispatch Demo Calls Switch Platform.
Import Abi Block Bytes UserMem Process Spaces Kernel Dispatch Switch.

Module Entry.

#[local] Arguments load64 : simpl never.
#[local] Arguments store64 : simpl never.
#[local] Arguments wrap64 : simpl never.
#[local] Arguments wrap16 : simpl never.

Definition KERNEL_STACK_TOP : Z := Paging.KERNEL_STACK_TOP.
Definition REAPER_STACK_SIZE : Z := 4096.

(** ** The machine *)

Inductive segment : Type := DS | ES | FS | GS.

(** The machine of Switch.v with its data segment registers. *)
Record hart : Type := mkHart { core : cpu; seg : segment -> Z }.

Definition seg_eqb (a b : segment) : bool :=
  match a, b with DS, DS | ES, ES | FS, FS | GS, GS => true | _, _ => false end.

(** The instructions of [usermode.rs]. A variable of the kernel is its address. *)
Inductive instr : Type :=
  | Plain (i : Switch.instr)
  | StoreVar (a : Z) (r : reg)            (* mov [rip + a], r *)
  | LoadVar (r : reg) (a : Z)             (* mov r, [rip + a] *)
  | LeaVar (r : reg) (a : Z)              (* lea r, [rip + a] *)
  | MovImm (r : reg) (n : Z)              (* mov r, n *)
  | AndImm (r : reg) (n : Z)              (* and r, n *)
  | OrImm (r : reg) (n : Z)               (* or r, n *)
  | XorSelf (r : reg)                     (* xor r, r *)
  | MovSeg (s : segment) (r : reg)        (* mov s, r16 *)
  | MovCr3 (r : reg)                      (* mov cr3, r *)
  | Call (return_to : Z) (f : cpu -> cpu) (* call f *)
  | Sysretq
  | Iretq.

Section Machine.

(** The arithmetic flags after an addition and after a logical operation, and
    the registers that [syscall] and [sysretq] use. *)
Context (add_flags : Z -> Z -> Z -> Z) (logic_flags : Z -> Z -> Z) (msrs : Platform.Segments.Msrs).

Definition with_core (h : hart) (c : cpu) : hart := mkHart c (seg h).
Definition logic (r : reg) (v : Z) (c : cpu) : cpu := with_rflags (with_gpr c (set r v (gpr c))) (logic_flags (rflags c) v).

(** The flags that [sysretq] takes from [r11]. *)
Definition user_flags (f : Z) : Z := Z.lor (Z.land f 0x3C7FD7) 2.

Definition sysretq (c : cpu) : cpu :=
  mkCpu (gpr c) (gpr c RCX) (user_flags (gpr c R11)) (Platform.Segments.sysret_cs (Platform.Segments.star msrs))
    (Platform.Segments.sysret_ss (Platform.Segments.star msrs)) (cr3 c) (mem c).

Definition iretq (c : cpu) : cpu :=
  let word n := load64 (mem c) (gpr c RSP + n) in
  mkCpu (set RSP (word 24) (gpr c)) (word 0) (word 16) (wrap16 (word 8)) (wrap16 (word 32)) (cr3 c) (mem c).

Definition exec (i : instr) (h : hart) : hart :=
  let c := core h in
  match i with
  | Plain i => with_core h (Switch.exec add_flags 0 i c)
  | StoreVar a r => with_core h (with_mem c (store64 (mem c) a (gpr c r)))
  | LoadVar r a => with_core h (with_gpr c (set r (load64 (mem c) a) (gpr c)))
  | LeaVar r a => with_core h (with_gpr c (set r a (gpr c)))
  | MovImm r n => with_core h (with_gpr c (set r n (gpr c)))
  | AndImm r n => with_core h (logic r (Z.land (gpr c r) n) c)
  | OrImm r n => with_core h (logic r (Z.lor (gpr c r) n) c)
  | XorSelf r => with_core h (logic r 0 c)
  | MovSeg s r => mkHart c (fun s' => if seg_eqb s s' then wrap16 (gpr c r) else seg h s')
  | MovCr3 r => with_core h (mkCpu (gpr c) (rip c) (rflags c) (cs c) (ss c) (gpr c r) (mem c))
  | Call return_to f => with_core h (f (push return_to c))
  | Sysretq => with_core h (sysretq c)
  | Iretq => with_core h (iretq c)
  end.

Definition run (code : list instr) (h : hart) : hart := fold_left (fun h i => exec i h) code h.

(** The instruction [syscall] of the program, at whose end [next] is. *)
Definition syscall (next : Z) (h : hart) : hart :=
  let c := core h in
  with_core h (mkCpu (set R11 (rflags c) (set RCX next (gpr c))) (Platform.Segments.lstar msrs)
    (Z.ldiff (rflags c) (Platform.Segments.sfmask msrs)) (wrap16 (Z.land (Z.shiftr (Platform.Segments.star msrs) 32) 0xFFFC))
    (wrap16 (Z.shiftr (Platform.Segments.star msrs) 32 + 8)) (cr3 c) (mem c)).

End Machine.

(** ** The routines *)

Section Code.

(** The addresses of [USER_RSP_SCRATCH], [USER_RDI_SCRATCH],
    [CURRENT_CONTEXT_PTR] and [REAPER_STACK]. *)
Context (user_rsp_scratch user_rdi_scratch context_ptr reaper_stack : Z).

(** The end of a call and of a switch: the registers of the context at [rsi]. *)
Definition restore_user : list Switch.instr :=
  [Load R15 RSI 0x00; Load R14 RSI 0x08; Load R13 RSI 0x10; Load R12 RSI 0x18; Load R10 RSI 0x28; Load R9 RSI 0x30;
    Load R8 RSI 0x38; Load RBP RSI 0x40; Load RDI RSI 0x48; Load RDX RSI 0x58; Load RBX RSI 0x68; Load RAX RSI 0x70;
    Load RCX RSI 0x78; Load R11 RSI 0x88; Load RSP RSI 0x80; Load RSI RSI 0x50].

(** [syscall_entry] up to the call of the handler: the registers into the
    context at [rdi], then those that were kept in variables. *)
Definition entry_stores : list Switch.instr :=
  [Store RDI 0x00 R15; Store RDI 0x08 R14; Store RDI 0x10 R13; Store RDI 0x18 R12; Store RDI 0x20 R11;
   Store RDI 0x28 R10; Store RDI 0x30 R9; Store RDI 0x38 R8; Store RDI 0x40 RBP; Store RDI 0x50 RSI; Store RDI 0x58 RDX;
   Store RDI 0x60 RCX; Store RDI 0x68 RBX; Store RDI 0x70 RAX].

Definition entry_rest : list instr :=
  [LoadVar RAX user_rdi_scratch; Plain (Store RDI 0x48 RAX); Plain (Store RDI 0x78 RCX); Plain (Store RDI 0x88 R11);
   LoadVar RAX user_rsp_scratch; Plain (Store RDI 0x80 RAX)].

Definition entry_code : list instr :=
  [StoreVar user_rsp_scratch RSP; StoreVar user_rdi_scratch RDI; MovImm RSP KERNEL_STACK_TOP; LoadVar RDI context_ptr] ++
  (Plain <$> entry_stores) ++ entry_rest.

(** [syscall_entry] after the call. *)
Definition leave_code : list instr :=
  [LoadVar RSI context_ptr; Plain (Store RSI 0x70 RAX)] ++ (Plain <$> restore_user) ++ [Sysretq].

(** [switch_to_user]: [ctx] in rsi, the page table in rax. *)
Definition switch_to_user : list instr := [MovCr3 RAX] ++ (Plain <$> restore_user) ++ [Sysretq].

(** [switch_to_user_with_reap]: [ctx] in r12, the page table in rax. *)
Definition switch_to_user_with_reap (reap_pending : cpu -> cpu) (return_to : Z) : list instr :=
  [LeaVar RSP reaper_stack; Plain (AddImm RSP REAPER_STACK_SIZE); AndImm RSP (2 ^ 64 - 16); MovCr3 RAX;
   Call return_to reap_pending; Plain (Mov RSI R12)] ++ (Plain <$> restore_user) ++ [Sysretq].

(** How the compiled [syscall_handler_rust] ends: it returns, or it arrives at
    the assembly of [switch_to_user] or of [switch_to_user_with_reap]. *)
Inductive departure : Type := Returns (c : cpu) | Switches (c : cpu) | SwitchesReaping (c : cpu).

End Code.

(** [enter_usermode]: the compiler chooses the registers of the operands. *)
Record operands : Type := mkOperands { user_ds : reg; user_cs : reg; entry_point : reg; stack_ptr : reg; page_table_phys : reg }.

Definition enter_usermode (o : operands) : list instr :=
  [MovCr3 (page_table_phys o);
   MovSeg DS (user_ds o); MovSeg ES (user_ds o); MovSeg FS (user_ds o); MovSeg GS (user_ds o);
   MovImm RSP KERNEL_STACK_TOP;
   Plain (Push (user_ds o)); Plain (Push (stack_ptr o)); Plain Pushfq; Plain (Pop RAX); OrImm RAX 0x200; Plain (Push RAX);
   Plain (Push (user_cs o)); Plain (Push (entry_point o));
   XorSelf RAX; XorSelf RBX; XorSelf RCX; XorSelf RDX; XorSelf RSI; XorSelf RDI; XorSelf RBP; XorSelf R8; XorSelf R9;
   XorSelf R10; XorSelf R11; XorSelf R12; XorSelf R13; XorSelf R14; XorSelf R15; Iretq].

(** ** What the routines do *)

(** The registers of a machine, as the context of Dispatch.v. *)
Definition regs_of (c : cpu) : CpuContext :=
  mkContext (gpr c R15) (gpr c R14) (gpr c R13) (gpr c R12) (gpr c R11) (gpr c R10) (gpr c R9) (gpr c R8) (gpr c RBP)
    (gpr c RDI) (gpr c RSI) (gpr c RDX) (gpr c RCX) (gpr c RBX) (gpr c RAX) (rip c) (gpr c RSP) (rflags c) (cs c) (ss c).

(** The program continues with the registers of [x], at its address and with
    its flags, and with the segments that [sysretq] loads. *)
Definition user_runs (msrs : Platform.Segments.Msrs) (c : cpu) (x : CpuContext) : Prop :=
  (gpr c R15, gpr c R14, gpr c R13, gpr c R12, gpr c R11, gpr c R10, gpr c R9, gpr c R8) =
    (ctx_r15 x, ctx_r14 x, ctx_r13 x, ctx_r12 x, ctx_r11 x, ctx_r10 x, ctx_r9 x, ctx_r8 x) /\
  (gpr c RBP, gpr c RDI, gpr c RSI, gpr c RDX, gpr c RCX, gpr c RBX, gpr c RAX) =
    (ctx_rbp x, ctx_rdi x, ctx_rsi x, ctx_rdx x, ctx_rcx x, ctx_rbx x, ctx_rax x) /\
  (rip c, gpr c RSP, rflags c) = (ctx_rip x, ctx_rsp x, user_flags (ctx_rflags x)) /\
  (cs c, ss c) = (Platform.Segments.sysret_cs (Platform.Segments.star msrs), Platform.Segments.sysret_ss (Platform.Segments.star msrs)).

(** Two ranges of memory without a common byte. *)
Definition apart (a n b m : Z) : Prop := a + n <= b \/ b + m <= a.

(** The words the entry code writes: its variables, the context at [p] and the
    return address on the kernel stack are memory of their own. *)
Record layout (rsp_var rdi_var ptr_var p : Z) : Prop := mkLayout {
  lay_fits : fits p;
  lay_rsp : apart rsp_var 8 p CONTEXT_SIZE;
  lay_rdi : apart rdi_var 8 p CONTEXT_SIZE;
  lay_ptr : apart ptr_var 8 p CONTEXT_SIZE;
  lay_stack : apart (KERNEL_STACK_TOP - 8) 8 p CONTEXT_SIZE;
  lay_rsp_rdi : apart rsp_var 8 rdi_var 8;
  lay_rsp_ptr : apart rsp_var 8 ptr_var 8;
  lay_rdi_ptr : apart rdi_var 8 ptr_var 8;
  lay_stack_ptr : apart (KERNEL_STACK_TOP - 8) 8 ptr_var 8
}.

Lemma wrap64_u64 z : is_u64 (wrap64 z).
Proof. unfold is_u64, U64_MAX, wrap64. pose proof (Z.mod_pos_bound z (2 ^ 64)). lia. Qed.

#[local] Opaque load64 store64 wrap64 wrap16.

Section Routines.
Context (add_flags : Z -> Z -> Z -> Z) (logic_flags : Z -> Z -> Z) (msrs : Platform.Segments.Msrs).
Context (user_rsp_scratch user_rdi_scratch context_ptr reaper_stack : Z).

Notation run := (run add_flags logic_flags msrs).
Notation user_runs := (user_runs msrs).

(** [syscall_entry], with the compiled [syscall_handler_rust], the compiled
    [reap_pending] and the addresses they return to. *)
Definition syscall_entry_asm (syscall_handler : cpu -> departure) (reap_pending : cpu -> cpu) (return_to reap_return : Z) (h : hart) : hart :=
  let h := run (entry_code user_rsp_scratch user_rdi_scratch context_ptr) h in
  match syscall_handler (push return_to (core h)) with
  | Returns c => run (leave_code context_ptr) (with_core h c)
  | Switches c => run switch_to_user (with_core h c)
  | SwitchesReaping c => run (switch_to_user_with_reap reaper_stack reap_pending reap_return) (with_core h c)
  end.

Lemma run_app a b h : run (a ++ b) h = run b (run a h).
Proof. apply fold_left_app. Qed.

Lemma run_plain l h : run (Plain <$> l) h = with_core h (Switch.run add_flags 0 l (core h)).
Proof. revert h. induction l as [|i l IH]; intros h; [now destruct h|]. cbn [fmap list_fmap run fold_left]. apply IH. Qed.

(** The end of a call or a switch. *)
Lemma restore_user_loads c p : gpr c RSI = p -> fits p ->
  let c' := Switch.run add_flags 0 restore_user c in
  let l off := load64 (mem c) (p + off) in
  (gpr c' R15, gpr c' R14, gpr c' R13, gpr c' R12, gpr c' R11, gpr c' R10, gpr c' R9, gpr c' R8) =
    (l 0x00, l 0x08, l 0x10, l 0x18, l 0x88, l 0x28, l 0x30, l 0x38) /\
  (gpr c' RBP, gpr c' RDI, gpr c' RSI, gpr c' RDX, gpr c' RCX, gpr c' RBX, gpr c' RAX, gpr c' RSP) =
    (l 0x40, l 0x48, l 0x50, l 0x58, l 0x78, l 0x68, l 0x70, l 0x80) /\ mem c' = mem c /\ cr3 c' = cr3 c.
Proof.
  intros Hp [? ?]. unfold CONTEXT_SIZE in *. cbv zeta. cbn -[Z.add]. rewrite Hp. addresses. repeat split.
Qed.

Lemma restore_user_spec h p : gpr (core h) RSI = p -> fits p ->
  let h' := run ((Plain <$> restore_user) ++ [Sysretq]) h in
  user_runs (core h') (restored (context_at (mem (core h)) p)) /\ mem (core h') = mem (core h) /\ cr3 (core h') = cr3 (core h).
Proof.
  intros Hp Hf. cbv zeta. rewrite run_app, run_plain. destruct (restore_user_loads (core h) p Hp Hf) as (E1 & E2 & E3 & E4).
  revert E1 E2 E3 E4. generalize (Switch.run add_flags 0 restore_user (core h)). intros c' E1 E2 E3 E4. rewrite Z.add_0_r in E1.
  cbn [run fold_left exec core with_core sysretq mem cr3]. split; [|split; assumption]. unfold user_runs. cbn [gpr rip rflags].
  injection E1; injection E2; intros. unfold restored, context_at. cbn [ctx_r15 ctx_r14 ctx_r13 ctx_r12 ctx_r11 ctx_r10 ctx_r9 ctx_r8
    ctx_rbp ctx_rdi ctx_rsi ctx_rdx ctx_rcx ctx_rbx ctx_rax ctx_rip ctx_rsp ctx_rflags].
  repeat split; repeat first [assumption | reflexivity | apply f_equal2 | apply f_equal].
Qed.

(** The words that the entry code writes into the context. *)
Definition entry_words (c : cpu) : list (Z * Z) :=
  [(0x80, gpr c RSP); (0x88, gpr c R11); (0x78, gpr c RCX); (0x48, gpr c RDI)] ++ first_words c.

Lemma entry_stores_spec c p : gpr c RDI = p -> fits p ->
  let c' := Switch.run add_flags 0 entry_stores c in
  mem c' = store_all (mem c) p (first_words c) /\ gpr c' = gpr c /\ cr3 c' = cr3 c.
Proof.
  intros Hp [? ?]. unfold CONTEXT_SIZE in *. cbv zeta. cbn -[Z.add store_all]. rewrite Hp. addresses. repeat split.
Qed.

Lemma entry_rest_spec h p a b :
  gpr (core h) RDI = p -> fits p -> apart user_rdi_scratch 8 p CONTEXT_SIZE -> apart user_rsp_scratch 8 p CONTEXT_SIZE ->
  load64 (mem (core h)) user_rdi_scratch = a -> load64 (mem (core h)) user_rsp_scratch = b ->
  let h' := run (entry_rest user_rsp_scratch user_rdi_scratch) h in
  mem (core h') = store_all (mem (core h)) p [(0x80, b); (0x88, gpr (core h) R11); (0x78, gpr (core h) RCX); (0x48, a)]
  /\ gpr (core h') RSP = gpr (core h) RSP /\ cr3 (core h') = cr3 (core h).
Proof.
  intros Hp [? ?] Hd Hr Ha Hb. unfold CONTEXT_SIZE, apart in *. cbv zeta. destruct h as [c sg]. cbn -[Z.add] in *. rewrite Hp. addresses.
  rewrite !load64_other, Ha, Hb by lia. repeat split.
Qed.

Lemma entry_code_mem h p : load64 (mem (core h)) context_ptr = p -> u64_regs (core h) ->
  layout user_rsp_scratch user_rdi_scratch context_ptr p ->
  let h' := run (entry_code user_rsp_scratch user_rdi_scratch context_ptr) h in
  mem (core h') = store_all (store64 (store64 (mem (core h)) user_rsp_scratch (gpr (core h) RSP)) user_rdi_scratch (gpr (core h) RDI))
                    p (entry_words (core h))
  /\ gpr (core h') RSP = KERNEL_STACK_TOP /\ cr3 (core h') = cr3 (core h).
Proof.
  intros Hp Hu [Hf Hr Hd Hc _ Hrd Hrc Hdc _]. cbv zeta. unfold entry_code. rewrite !run_app.
  set (m0 := store64 (store64 (mem (core h)) user_rsp_scratch (gpr (core h) RSP)) user_rdi_scratch (gpr (core h) RDI)).
  assert (load64 m0 context_ptr = p) as E0 by (unfold m0, apart in *; rewrite !load64_other by lia; exact Hp).
  assert (load64 m0 user_rdi_scratch = gpr (core h) RDI) as E1 by (apply load64_same, Hu).
  assert (load64 m0 user_rsp_scratch = gpr (core h) RSP) as E2
    by (unfold m0, apart in *; rewrite load64_other by lia; apply load64_same, Hu).
  set (h1 := run [StoreVar _ _; _; _; _] h).
  assert (mem (core h1) = m0 /\ cr3 (core h1) = cr3 (core h)) as [M1 C1] by now destruct h.
  assert (gpr (core h1) RDI = p) as P1 by (rewrite <- E0; now destruct h).
  assert (gpr (core h1) RSP = KERNEL_STACK_TOP) as S1 by now destruct h.
  assert (forall r, r <> RDI -> r <> RSP -> gpr (core h1) r = gpr (core h) r) as G1
    by (intros r ? ?; destruct h; cbn; now rewrite !set_other by congruence).
  clearbody h1. rewrite run_plain. destruct (entry_stores_spec (core h1) p P1 Hf) as (M2 & G2 & C2).
  set (c2 := Switch.run add_flags 0 entry_stores (core h1)) in *. clearbody c2.
  assert (first_words (core h1) = first_words (core h)) as Fw by (unfold first_words; now rewrite !G1 by congruence).
  rewrite Fw, M1 in M2.
  destruct (entry_rest_spec (with_core h1 c2) p (gpr (core h) RDI) (gpr (core h) RSP)) as (M3 & S3 & C3); cbn [core with_core];
    [now rewrite G2|assumption..| | |].
  { rewrite M2, load_store_all_outside; [exact E1|reflexivity|exact Hd]. }
  { rewrite M2, load_store_all_outside; [exact E2|reflexivity|exact Hr]. }
  cbn [core with_core] in M3, S3, C3. rewrite G2 in M3, S3. rewrite !G1 in M3 by congruence. rewrite M3, M2, store_all_app.
  split; [reflexivity|]. split; congruence.
Qed.

(** The entry code leaves the registers in the context as [saved] says, and
    nothing else of the context, of the pointer to it or outside its variables
    changes. *)
Lemma entry_saves h p : load64 (mem (core h)) context_ptr = p -> u64_regs (core h) ->
  layout user_rsp_scratch user_rdi_scratch context_ptr p ->
  let h' := run (entry_code user_rsp_scratch user_rdi_scratch context_ptr) h in
  context_at (mem (core h')) p = saved (context_at (mem (core h)) p) (regs_of (core h)) /\
  load64 (mem (core h')) context_ptr = p /\ gpr (core h') RSP = KERNEL_STACK_TOP /\ cr3 (core h') = cr3 (core h).
Proof.
  intros Hp Hu Hl. cbv zeta. destruct (entry_code_mem h p Hp Hu Hl) as (M & S & C). destruct Hl as [Hf Hr Hd Hc _ Hrd Hrc Hdc _].
  rewrite M. split; [|split; [|split; assumption]].
  - unfold context_at at 1. rewrite <- (Z.add_0_r p) at 2.
    assert (Forall (fun x => is_u64 x.2) (entry_words (core h))) as Fu by (unfold entry_words, first_words; u64_words; apply Hu).
    rewrite !load_store_all by (reflexivity || exact Fu). cbn [find_off entry_words first_words app Z.eqb Pos.eqb default].
    unfold apart, CONTEXT_SIZE in *. rewrite !load64_other by lia. reflexivity.
  - rewrite load_store_all_outside by (reflexivity || exact Hc). unfold apart in *. rewrite !load64_other by lia. exact Hp.
Qed.

(** ** Switches *)

(** [switch_to_user] gives the processor to the program whose context is at
    [ctx], on its page table. *)
Theorem switch_to_user_runs h ctx table :
  gpr (core h) RSI = ctx -> gpr (core h) RAX = table -> fits ctx ->
  let h' := run switch_to_user h in
  user_runs (core h') (restored (context_at (mem (core h)) ctx)) /\ cr3 (core h') = table /\ mem (core h') = mem (core h).
Proof.
  intros Hs Ha Hf. cbv zeta. unfold switch_to_user. rewrite run_app. set (h1 := run [MovCr3 RAX] h).
  destruct (restore_user_spec h1 ctx Hs Hf) as (U & M & C). split; [exact U|]. rewrite C, M. split; [exact Ha|reflexivity].
Qed.

(** What [switch_to_user_with_reap] relies on: on the stack it is given, and on
    the new page table, [reap_pending] keeps [r12], the context and the pointer to it. *)
Definition reaps (reap_pending : cpu -> cpu) (ctx table : Z) : Prop :=
  forall c, reaper_stack <= gpr c RSP < reaper_stack + REAPER_STACK_SIZE -> cr3 c = table -> gpr c R12 = ctx ->
  gpr (reap_pending c) R12 = ctx /\ cr3 (reap_pending c) = table /\ context_at (mem (reap_pending c)) ctx = context_at (mem c) ctx
  /\ load64 (mem (reap_pending c)) context_ptr = load64 (mem c) context_ptr.

Theorem switch_to_user_with_reap_runs h ctx table reap_pending return_to :
  gpr (core h) R12 = ctx -> gpr (core h) RAX = table -> fits ctx ->
  0 <= reaper_stack -> reaper_stack + REAPER_STACK_SIZE <= U64_MAX ->
  apart reaper_stack REAPER_STACK_SIZE ctx CONTEXT_SIZE -> apart reaper_stack REAPER_STACK_SIZE context_ptr 8 ->
  reaps reap_pending ctx table ->
  let h' := run (switch_to_user_with_reap reaper_stack reap_pending return_to) h in
  user_runs (core h') (restored (context_at (mem (core h)) ctx)) /\ cr3 (core h') = table
  /\ context_at (mem (core h')) ctx = context_at (mem (core h)) ctx /\ load64 (mem (core h')) context_ptr = load64 (mem (core h)) context_ptr.
Proof.
  intros Hc Ht Hf Hs0 Hs1 Hap Hap' Hr. cbv zeta. unfold switch_to_user_with_reap, REAPER_STACK_SIZE in *. rewrite run_app.
  set (h1 := run [_; _; _; _; _; _] h).
  set (sp := Z.land (wrap64 (reaper_stack + 4096)) (2 ^ 64 - 16)).
  assert (reaper_stack + 4080 <= sp <= reaper_stack + 4096) as Hsp.
  { unfold sp. rewrite wrap64_id by (unfold is_u64; lia). change (2 ^ 64 - 16) with (Z.ldiff (Z.ones 64) (Z.ones 4)).
    rewrite (Z.ldiff_land (Z.ones 64)), Z.land_assoc, <- Z.ldiff_land, Z.land_ones by lia. rewrite (Z.mod_small _ (2 ^ 64)) by (unfold U64_MAX in *; lia).
    rewrite Z.ldiff_ones_r, Z.shiftl_mul_pow2, Z.shiftr_div_pow2 by lia. pose proof (Z.div_mod (reaper_stack + 4096) (2 ^ 4)). lia. }
  set (c0 := mkCpu (set RSP sp (set RSP (wrap64 (reaper_stack + 4096)) (set RSP reaper_stack (gpr (core h))))) (rip (core h))
               (logic_flags (add_flags (rflags (core h)) reaper_stack 4096) sp) (cs (core h)) (ss (core h)) table (mem (core h))).
  assert (core h1 = Switch.exec add_flags 0 (Mov RSI R12) (reap_pending (push return_to c0))) as E1
    by (unfold h1, c0; destruct h; cbn -[Z.add Z.sub]; now rewrite <- Ht).
  clearbody sp.
  assert (gpr (push return_to c0) RSP = sp - 8) as Esp.
  { unfold push. cbn. apply wrap64_id. unfold is_u64. lia. }
  destruct (Hr (push return_to c0)) as (R1 & R2 & R3 & R4); [rewrite Esp; unfold REAPER_STACK_SIZE; lia|reflexivity|exact Hc|].
  assert (context_at (mem (push return_to c0)) ctx = context_at (mem (core h)) ctx) as X0.
  { apply context_at_ext. intros off Ho. change (mem (push return_to c0)) with (store64 (mem (core h)) (gpr (push return_to c0) RSP) return_to).
    rewrite Esp. apply load64_other. unfold apart, CONTEXT_SIZE in *. lia. }
  assert (gpr (core h1) RSI = ctx) as S1 by (rewrite E1; exact R1).
  assert (load64 (mem (push return_to c0)) context_ptr = load64 (mem (core h)) context_ptr) as L0.
  { change (mem (push return_to c0)) with (store64 (mem (core h)) (gpr (push return_to c0) RSP) return_to).
    rewrite Esp. apply load64_other. unfold apart in *. lia. }
  destruct (restore_user_spec h1 ctx S1 Hf) as (U & M & C). rewrite C, M. rewrite E1 in U |- *. cbn [mem with_gpr Switch.exec] in U |- *.
  rewrite R3, X0 in U. split; [exact U|]. split; [exact R2|]. rewrite R3, R4. split; [exact X0|exact L0].
Qed.

(** ** System calls *)

Section Call.
Context {D : Type} {BD : BlockDevice D}.
Context (to_lowercase : string -> string).
Context {V : Type} {SP : Spaces V}.
Context {N : Type} {DR : Net.Driver N}.
Context (user_cs user_ss : Z).

Notation Kernel := (Kernel.Kernel (D := D) (V := V) (N := N)).

(** The machine and the kernel of Kernel.v: [CURRENT_CONTEXT_PTR] points to the
    context, in memory of its own, and the page table is the active one. *)
Definition points (c : cpu) (k : Kernel) : Prop :=
  exists a x, current_context k = Done (Ok x, k) /\ load64 (mem c) context_ptr = a
    /\ layout user_rsp_scratch user_rdi_scratch context_ptr a /\ context_at (mem c) a = x.
Definition represents (c : cpu) (k : Kernel) : Prop := points c k /\ cr3 c = Kernel.cr3 k.

(** The kernel when the registers are in the context. *)
Definition entered (k : Kernel) (regs : CpuContext) : Kernel :=
  match update_context (fun c => saved c regs) k with Done (_, k') => k' | Panicked => k end.

(** The compiled handler does, from a machine that represents [k], what
    [syscall_handler_rust] does from [k]. It returns when that returns; when
    that gives the processor to a process, it arrives at one of the two routines
    with the pointer to the context of that process and its page table. *)
Definition implements (handler : cpu -> departure) (reap_pending : cpu -> cpu) (k : Kernel) : Prop :=
  forall c, represents c k ->
  match syscall_handler_rust to_lowercase user_cs user_ss k with
  | Done (Ok r, k') => exists c', handler c = Returns c' /\ represents c' k' /\ gpr c' RAX = wrap64 r
  | Done (Err Switched, k') => exists c', points c' k' /\ gpr c' RAX = Kernel.cr3 k' /\
      let ctx := load64 (mem c') context_ptr in
      (handler c = Switches c' /\ gpr c' RSI = ctx
       \/ handler c = SwitchesReaping c' /\ gpr c' R12 = ctx /\ apart reaper_stack REAPER_STACK_SIZE ctx CONTEXT_SIZE
          /\ reaps reap_pending ctx (Kernel.cr3 k'))
  | _ => True
  end.

(** A write through the pointer. *)
Lemma context_written (k : Kernel) f x : current_context k = Done (Ok x, k) ->
  exists k', update_context f k = Done (Ok tt, k') /\ current_context k' = Done (Ok (f x), k') /\ Kernel.cr3 k' = Kernel.cr3 k.
Proof.
  unfold current_context, update_context. destruct (Scheduler.current (sched k)) as [p|] eqn:Hp.
  - intros [= <-]. eexists. split; [reflexivity|]. cbn. rewrite Hp. cbn. now split.
  - destruct (slot k) as [c|]; [|discriminate]. intros [= <-]. eexists. split; [reflexivity|]. cbn. rewrite Hp. now split.
Qed.

Lemma push_cr3 v c : cr3 (push v c) = cr3 c.
Proof. reflexivity. Qed.
Lemma push_mem v c : mem (push v c) = store64 (mem c) (wrap64 (gpr c RSP - 8)) v.
Proof. reflexivity. Qed.

Lemma represents_entered h next return_to (k : Kernel) : represents (core h) k -> u64_regs (core h) -> is_u64 next ->
  is_u64 (rflags (core h)) ->
  let h1 := syscall msrs next h in
  represents (push return_to (core (run (entry_code user_rsp_scratch user_rdi_scratch context_ptr) h1))) (entered k (regs_of (core h1))).
Proof.
  intros ((a & x & Hp & Ha & Hl & Hx) & Hcr) Hu Hn Hf h1.
  assert (u64_regs (core h1)) as Hu1 by (intros r; destruct r; cbn; assumption || apply Hu).
  destruct (entry_saves h1 a) as (S1 & S2 & S3 & S4); [exact Ha|exact Hu1|exact Hl|].
  destruct (context_written k (fun c => saved c (regs_of (core h1))) x Hp) as (k' & Ek & Hk & Hck). unfold entered. rewrite Ek.
  set (h2 := run (entry_code _ _ _) h1) in *. clearbody h2. split; [|rewrite push_cr3, S4, Hck; exact Hcr].
  exists a. eexists. split; [exact Hk|].
  rewrite push_mem, S3. change (wrap64 (KERNEL_STACK_TOP - 8)) with (KERNEL_STACK_TOP - 8).
  destruct Hl as [Hf0 Hr Hd Hc Hs Hrd Hrc Hdc Hsc]. unfold apart, CONTEXT_SIZE in *.
  split; [rewrite load64_other by lia; exact S2|]. split; [now constructor|].
  change (mem (core h1)) with (mem (core h)) in S1. rewrite Hx in S1. etransitivity; [|exact S1].
  apply context_at_ext. intros off Ho. apply load64_other. lia.
Qed.

(** Leaving the kernel: the result goes into the context that the pointer leads
    to, and the program whose context it is continues. *)
Lemma exit_returns h (k : Kernel) r : represents (core h) k -> gpr (core h) RAX = wrap64 r ->
  exists k' x, update_context (fun c => Process.with_rax c (wrap64 r)) k = Done (Ok tt, k') /\ current_context k' = Done (Ok x, k') /\
    user_runs (core (run (leave_code context_ptr) h)) (restored x) /\ represents (core (run (leave_code context_ptr) h)) k'.
Proof.
  intros ((a & x0 & Hp & Ha & Hl & Hx) & Hcr) Hr.
  destruct (context_written k (fun c => Process.with_rax c (wrap64 r)) x0 Hp) as (k' & Ek & Hk & Hck).
  set (x := Process.with_rax x0 (wrap64 r)) in *. exists k', x.
  split; [exact Ek|]. split; [exact Hk|]. unfold leave_code. rewrite run_app.
  set (h1 := run [LoadVar RSI context_ptr; Plain (Store RSI 0x70 RAX)] h).
  pose proof Hl as [Hf _ _ Hc _ _ _ _ _]. pose proof Hf as [? ?]. unfold CONTEXT_SIZE, apart in *.
  assert (mem (core h1) = store64 (mem (core h)) (a + 0x70) (wrap64 r)) as M1.
  { unfold h1. destruct h as [c sg]. cbn -[Z.add] in *. rewrite Ha, Hr. addresses. reflexivity. }
  assert (gpr (core h1) RSI = a) as R1 by (unfold h1; destruct h as [c sg]; cbn -[Z.add] in *; exact Ha).
  assert (cr3 (core h1) = Kernel.cr3 k') as C1 by (rewrite Hck, <- Hcr; now destruct h).
  clearbody h1. destruct (restore_user_spec h1 a R1 Hf) as (U & M & C).
  assert (context_at (mem (core h1)) a = x) as X1.
  { rewrite M1. unfold x. rewrite <- Hx. unfold context_at, Process.with_rax. cbn [ctx_r15 ctx_r14 ctx_r13 ctx_r12 ctx_r11 ctx_r10
      ctx_r9 ctx_r8 ctx_rbp ctx_rdi ctx_rsi ctx_rdx ctx_rcx ctx_rbx ctx_rax ctx_rip ctx_rsp ctx_rflags ctx_cs ctx_ss].
    rewrite load64_same by apply wrap64_u64. now rewrite !load64_other by lia. }
  rewrite X1 in U. split; [exact U|]. split; [|now rewrite C]. exists a, x. rewrite M.
  split; [exact Hk|]. split; [rewrite M1, load64_other by lia; exact Ha|]. split; [exact Hl|exact X1].
Qed.

(** The two ways to another process. *)
Lemma switch_continues h (k : Kernel) : points (core h) k -> gpr (core h) RAX = Kernel.cr3 k ->
  gpr (core h) RSI = load64 (mem (core h)) context_ptr ->
  exists x, current_context k = Done (Ok x, k) /\ user_runs (core (run switch_to_user h)) (restored x)
    /\ represents (core (run switch_to_user h)) k.
Proof.
  intros (a & x & Hk & Ha & Hl & Hx) Hr Hs. destruct (switch_to_user_runs h a (Kernel.cr3 k)) as (U & C & M); [congruence|exact Hr|apply Hl|].
  exists x. rewrite Hx in U. split; [exact Hk|]. split; [exact U|]. split; [|exact C]. exists a, x. now rewrite M.
Qed.

Lemma reaping_continues h (k : Kernel) reap_pending reap_return : points (core h) k -> gpr (core h) RAX = Kernel.cr3 k ->
  0 <= reaper_stack -> reaper_stack + REAPER_STACK_SIZE <= U64_MAX -> apart reaper_stack REAPER_STACK_SIZE context_ptr 8 ->
  gpr (core h) R12 = load64 (mem (core h)) context_ptr ->
  apart reaper_stack REAPER_STACK_SIZE (load64 (mem (core h)) context_ptr) CONTEXT_SIZE ->
  reaps reap_pending (load64 (mem (core h)) context_ptr) (Kernel.cr3 k) ->
  let h' := run (switch_to_user_with_reap reaper_stack reap_pending reap_return) h in
  exists x, current_context k = Done (Ok x, k) /\ user_runs (core h') (restored x) /\ represents (core h') k.
Proof.
  intros (a & x & Hk & Ha & Hl & Hx) Hr H0 H1 Hp Hs Hap Hrp h'. rewrite Ha in *.
  destruct (switch_to_user_with_reap_runs h a (Kernel.cr3 k) reap_pending reap_return) as (U & C & M & P); try assumption; [apply Hl|].
  fold h' in U, C, M, P. exists x. rewrite Hx in U. split; [exact Hk|]. split; [exact U|]. split; [|exact C]. exists a, x.
  split; [exact Hk|]. split; [congruence|]. split; [exact Hl|congruence].
Qed.


End Call.

(** The pieces of [enter_usermode]: the page table, segments and stack; the
    words for [iretq], from the top of the kernel stack down; the registers. *)
Definition enter_head (o : operands) : list instr :=
  [MovCr3 (Entry.page_table_phys o); MovSeg DS (user_ds o); MovSeg ES (user_ds o); MovSeg FS (user_ds o); MovSeg GS (user_ds o);
   MovImm RSP KERNEL_STACK_TOP].
Definition cleared : list reg := [RAX; RBX; RCX; RDX; RSI; RDI; RBP; R8; R9; R10; R11; R12; R13; R14; R15].
Definition iret_pushes (o : operands) : list instr :=
  [Plain (Push (user_ds o)); Plain (Push (Entry.stack_ptr o)); Plain Pushfq; Plain (Pop RAX); OrImm RAX 0x200; Plain (Push RAX);
   Plain (Push (Entry.user_cs o)); Plain (Push (Entry.entry_point o))].

(** The flags with which a program starts. *)
Definition start_flags (c : cpu) : Z := Z.lor (rflags c) 0x200.

Lemma start_flags_u64 c : is_u64 (rflags c) -> is_u64 (start_flags c).
Proof.
  unfold is_u64, start_flags, U64_MAX. intros [H0 H1]. split; [apply Z.lor_nonneg; lia|].
  enough (Z.lor (rflags c) 0x200 < 2 ^ 64) by lia. apply Z.log2_lt_cancel. rewrite Z.log2_lor, Z.log2_pow2 by lia.
  apply Z.max_lub_lt; [|reflexivity]. destruct (Z.eq_dec (rflags c) 0) as [->|]; [reflexivity|]. apply Z.log2_lt_pow2; lia.
Qed.

Lemma push_word v c s : gpr c RSP = s -> 8 <= s <= U64_MAX -> is_u64 v ->
  gpr (push v c) RSP = s - 8 /\ (forall r, r <> RSP -> gpr (push v c) r = gpr c r) /\ load64 (mem (push v c)) (s - 8) = v /\
  (forall a, s <= a -> load64 (mem (push v c)) a = load64 (mem c) a).
Proof.
  intros Hs Hr Hv. unfold push. cbn [gpr mem with_mem with_gpr]. rewrite Hs, wrap64_id by (unfold is_u64; lia).
  split; [reflexivity|]. split; [intros r H; now rewrite set_other by congruence|]. split; [now apply load64_same|].
  intros a Ha. apply load64_other. lia.
Qed.

(** The flags, with interrupts on, in [rax]. *)
Definition flags_to_rax (c : cpu) : cpu :=
  let c3 := push (rflags c) c in
  let c4 := with_gpr (drop_top c3) (set RAX (popped c3) (gpr (drop_top c3))) in
  logic logic_flags RAX (Z.lor (gpr c4 RAX) 0x200) c4.

Lemma flags_to_rax_spec c s : gpr c RSP = s -> 8 <= s <= U64_MAX -> is_u64 (rflags c) ->
  let c' := flags_to_rax c in
  gpr c' RSP = s /\ (forall r, r <> RSP -> gpr c' r = if reg_eqb RAX r then start_flags c else gpr c r) /\
  (forall a, s <= a -> load64 (mem c') a = load64 (mem c) a).
Proof.
  intros Hs Hr Hf. cbv zeta. destruct (push_word (rflags c) c s Hs Hr Hf) as (P & G & L & K). unfold flags_to_rax. cbv zeta.
  set (c3 := push (rflags c) c) in *. assert (popped c3 = rflags c) as V by (unfold popped; rewrite P; exact L). clearbody c3.
  split; [cbn; rewrite P, wrap64_id by (unfold is_u64; lia); lia|]. split; [|exact K].
  intros r Hn. destruct r; try contradiction; cbn -[Z.lor]; try (apply G; congruence). now rewrite V.
Qed.

Lemma iret_pushes_spec h o (c := core h) :
  u64_regs c -> is_u64 (rflags c) -> gpr c RSP = KERNEL_STACK_TOP ->
  Forall (fun r => r <> RSP) [user_ds o; Entry.user_cs o; Entry.entry_point o; Entry.stack_ptr o] ->
  let h' := run (iret_pushes o) h in
  let word n := load64 (mem (core h')) (KERNEL_STACK_TOP - 40 + n) in
  let operand r := if reg_eqb RAX r then start_flags c else gpr c r in
  gpr (core h') RSP = KERNEL_STACK_TOP - 40 /\ cr3 (core h') = cr3 c /\ seg h' = seg h /\
  (word 0, word 8, word 16, word 24, word 32) =
    (operand (Entry.entry_point o), operand (Entry.user_cs o), start_flags c, gpr c (Entry.stack_ptr o), gpr c (user_ds o)).
Proof.
  intros Hu Hf Hs Ho. cbv zeta. apply Forall_cons in Ho as [O1 Ho]. apply Forall_cons in Ho as [O2 Ho].
  apply Forall_cons in Ho as [O3 Ho]. apply Forall_cons in Ho as [O4 _].
  assert (is_u64 (start_flags c)) as Uf by now apply start_flags_u64.
  set (c1 := push (gpr c (user_ds o)) c). set (c2 := push (gpr c1 (Entry.stack_ptr o)) c1). set (c5 := flags_to_rax c2).
  set (c6 := push (gpr c5 RAX) c5). set (c7 := push (gpr c6 (Entry.user_cs o)) c6). set (c8 := push (gpr c7 (Entry.entry_point o)) c7).
  assert (run (iret_pushes o) h = with_core h c8) as -> by reflexivity. cbn [core seg with_core].
  assert (cr3 c8 = cr3 c /\ rflags c2 = rflags c) as [C8 F2] by (split; reflexivity).
  set (T := KERNEL_STACK_TOP) in *. assert (T = 0xFFFFFFFF80000000) as HT by reflexivity. clearbody T.
  assert (U64_MAX = 2 ^ 64 - 1) as Hmax by reflexivity. unfold u64_regs in Hu.
  destruct (push_word (gpr c (user_ds o)) c T) as (P1 & G1 & L1 & K1); [exact Hs|lia|apply Hu|]. fold c1 in P1, G1, L1, K1.
  destruct (push_word (gpr c1 (Entry.stack_ptr o)) c1 (T - 8)) as (P2 & G2 & L2 & K2); [exact P1|lia|rewrite G1 by exact O4; apply Hu|].
  fold c2 in P2, G2, L2, K2. destruct (flags_to_rax_spec c2 (T - 8 - 8)) as (P5 & G5 & K5); [exact P2|lia|now rewrite F2|].
  fold c5 in P5, G5, K5. assert (forall r, r <> RSP -> gpr c5 r = if reg_eqb RAX r then start_flags c else gpr c r) as G5'.
  { intros r Hr. rewrite G5, G2, G1 by exact Hr. unfold start_flags. now rewrite F2. }
  assert (forall r, r <> RSP -> is_u64 (gpr c5 r)) as U5 by (intros r Hr; rewrite G5' by exact Hr; destruct (reg_eqb RAX r); auto).
  destruct (push_word (gpr c5 RAX) c5 (T - 8 - 8)) as (P6 & G6 & L6 & K6); [exact P5|lia|now apply U5|]. fold c6 in P6, G6, L6, K6.
  destruct (push_word (gpr c6 (Entry.user_cs o)) c6 (T - 8 - 8 - 8)) as (P7 & G7 & L7 & K7);
    [exact P6|lia|rewrite G6 by exact O2; now apply U5|]. fold c7 in P7, G7, L7, K7.
  destruct (push_word (gpr c7 (Entry.entry_point o)) c7 (T - 8 - 8 - 8 - 8)) as (P8 & G8 & L8 & K8);
    [exact P7|lia|rewrite G7, G6 by exact O3; now apply U5|]. fold c8 in P8, G8, L8, K8. clearbody c8 c7 c6 c5.
  split; [lia|]. split; [exact C8|]. split; [reflexivity|].
  replace (T - 40 + 0) with (T - 8 - 8 - 8 - 8 - 8) by lia. replace (T - 40 + 8) with (T - 8 - 8 - 8 - 8) by lia.
  replace (T - 40 + 16) with (T - 8 - 8 - 8) by lia. replace (T - 40 + 24) with (T - 8 - 8) by lia.
  replace (T - 40 + 32) with (T - 8) by lia. rewrite L8. rewrite !K8 by lia. rewrite L7. rewrite !K7 by lia. rewrite L6.
  rewrite !K6, !K5 by lia. rewrite L2. rewrite !K2 by lia. rewrite L1.
  rewrite G7, !G6, !G5', G1 by congruence. reflexivity.
Qed.

Lemma xor_all l h : let h' := run (XorSelf <$> l) h in
  (forall r, gpr (core h') r = if existsb (reg_eqb r) l then 0 else gpr (core h) r) /\
  mem (core h') = mem (core h) /\ cr3 (core h') = cr3 (core h) /\ seg h' = seg h.
Proof.
  revert h. induction l as [|x l IH]; intros h; cbv zeta; [now repeat split|].
  change (run (XorSelf <$> x :: l) h) with (run (XorSelf <$> l) (exec add_flags logic_flags msrs (XorSelf x) h)).
  destruct (IH (exec add_flags logic_flags msrs (XorSelf x) h)) as (G & M & C & S). rewrite M, C, S. split; [|now repeat split].
  intros r. rewrite G. cbn [existsb]. destruct (existsb (reg_eqb r) l); [now rewrite orb_true_r|]. rewrite orb_false_r.
  cbn [exec core with_core logic gpr with_gpr with_rflags]. unfold set. now destruct x, r.
Qed.

Lemma iretq_spec h s w0 w1 w2 w3 w4 (h' := run [Iretq] h) : gpr (core h) RSP = s ->
  (load64 (mem (core h)) (s + 0), load64 (mem (core h)) (s + 8), load64 (mem (core h)) (s + 16), load64 (mem (core h)) (s + 24),
   load64 (mem (core h)) (s + 32)) = (w0, w1, w2, w3, w4) ->
  gpr (core h') = set RSP w3 (gpr (core h)) /\ (rip (core h'), cs (core h'), rflags (core h'), ss (core h')) = (w0, wrap16 w1, w2, wrap16 w4)
  /\ cr3 (core h') = cr3 (core h) /\ seg h' = seg h.
Proof. intros <- [= <- <- <- <- <-]. repeat split. Qed.

Lemma enter_pieces o : enter_usermode o = enter_head o ++ iret_pushes o ++ (XorSelf <$> cleared) ++ [Iretq].
Proof. reflexivity. Qed.

Lemma enter_head_spec h o (c := core h) (h' := run (enter_head o) h) :
  core h' = mkCpu (set RSP KERNEL_STACK_TOP (gpr c)) (rip c) (rflags c) (cs c) (ss c) (gpr c (Entry.page_table_phys o)) (mem c)
  /\ forall s, seg h' s = wrap16 (gpr c (user_ds o)).
Proof. split; [reflexivity|]. destruct s; reflexivity. Qed.

(** [enter_usermode], for any choice of registers other than the stack pointer:
    the program starts with every general register cleared, on its stack and
    page table, with interrupts on. It starts at its entry point with its code
    segment provided the compiler did not put these into [rax], which the code
    uses for the flags while it still needs them. *)
Theorem enter_usermode_starts h o :
  u64_regs (core h) -> is_u64 (rflags (core h)) ->
  Forall (fun r => r <> RSP) [user_ds o; Entry.user_cs o; Entry.entry_point o; Entry.stack_ptr o; Entry.page_table_phys o] ->
  let c := core h in
  let h' := run (enter_usermode o) h in
  let operand r := if reg_eqb RAX r then start_flags c else gpr c r in
  (forall r, r <> RSP -> gpr (core h') r = 0) /\ gpr (core h') RSP = gpr c (Entry.stack_ptr o) /\
  rip (core h') = operand (Entry.entry_point o) /\ cs (core h') = wrap16 (operand (Entry.user_cs o)) /\
  ss (core h') = wrap16 (gpr c (user_ds o)) /\ rflags (core h') = start_flags c /\ cr3 (core h') = gpr c (Entry.page_table_phys o) /\
  forall s, seg h' s = wrap16 (gpr c (user_ds o)).
Proof.
  intros Hu Hf Ho c. cbv zeta.
  rewrite enter_pieces, !run_app. destruct (enter_head_spec h o) as [E1 S1]. fold c in E1, S1.
  set (h1 := run (enter_head o) h) in *. clearbody h1.
  assert (forall r, r <> RSP -> gpr (core h1) r = gpr c r) as G1 by (intros r Hr; rewrite E1; cbn; now rewrite set_other by congruence).
  apply Forall_cons in Ho as [O1 Ho]. apply Forall_cons in Ho as [O2 Ho]. apply Forall_cons in Ho as [O3 Ho].
  apply Forall_cons in Ho as [O4 _].
  destruct (iret_pushes_spec h1 o) as (P2 & C2 & S2 & W).
  { intros r. rewrite E1. destruct r; cbn; apply Hu || (unfold is_u64, U64_MAX, KERNEL_STACK_TOP, Paging.KERNEL_STACK_TOP; lia). }
  { now rewrite E1. } { now rewrite E1. } { now repeat constructor. }
  set (h2 := run (iret_pushes o) h1) in *. clearbody h2. destruct (xor_all cleared h2) as (G3 & M3 & C3 & S3).
  set (h3 := run (XorSelf <$> cleared) h2) in *. clearbody h3. rewrite <- M3 in W.
  assert (gpr (core h3) RSP = KERNEL_STACK_TOP - 40) as P3 by (rewrite G3; exact P2).
  assert (start_flags (core h1) = start_flags c) as F1 by (unfold start_flags; now rewrite E1). rewrite F1, !G1 in W by assumption.
  destruct (iretq_spec h3 _ _ _ _ _ _ P3 W) as (G4 & F4 & C4 & S4).
  set (h4 := run [Iretq] h3) in *. clearbody h4. injection F4 as -> -> -> ->. rewrite G4, C4, S4.
  split; [intros r Hr; rewrite set_other, G3 by congruence; now destruct r|]. do 5 (split; [reflexivity|]).
  split; [now rewrite C3, C2, E1|]. intros s. rewrite S3, S2. apply S1.
Qed.

End Routines.

(** ** A call of the demonstration kernel *)

#[local] Existing Instance Net.virtio.

Definition flags0 (f a b : Z) : Z := f.
Definition msrs0 : Platform.Segments.Msrs := Platform.Segments.mkMsrs 0 0x8000 0x200 true.

(** Process 1 makes the call getpid; its context is at 0x10000, and a pointer to
    it at 0x3000. *)
Definition caller : hart :=
  mkHart (mkCpu (fun r => match r with RAX => Abi.as_u64 SysGetpid | RBX => 7 | RSP => 0x7000 | _ => 0 end) 0x400000 0x202 0x23 0x1b 0x1000
            (store64 ∅ 0x3000 0x10000)) (fun _ => 0x1b).

(** [syscall_handler_rust] on this call. *)
Definition answers_one (c : cpu) : departure := Returns (with_gpr c (set RAX 1 (gpr c))).

Lemma caller_represents : represents 0x3008 0x3010 0x3000 (core caller) Demo.boot.
Proof.
  split; [|vm_compute; reflexivity].
  exists 0x10000. eexists. split; [reflexivity|]. split; [vm_compute; reflexivity|]. split; [|vm_compute; reflexivity].
  constructor; unfold fits, apart; vm_compute; intuition discriminate.
Qed.

Definition call_regs : CpuContext := regs_of (core (syscall msrs0 0x400002 caller)).

Lemma handler_answers :
  syscall_handler_rust Vfs.lower 0x23 0x1b (entered Demo.boot call_regs) = Done (Ok 1, entered Demo.boot call_regs).
Proof. vm_compute. reflexivity. Qed.

Lemma answers_implements :
  implements 0x3008 0x3010 0x3000 0x4000 Vfs.lower 0x23 0x1b answers_one (fun c => c) (entered Demo.boot call_regs).
Proof. intros c Hr. rewrite handler_answers. eexists. split; [reflexivity|]. split; [exact Hr|reflexivity]. Qed.


End Entry.
