(* ===== verification/Boot.v ===== *)
(** * From the boot loader to the first program (src/kernel/src/main.rs,
      process.rs, paging.rs, mount.rs, input/ps2.rs)

    The boot of the kernel, composed of the components: memory, heap, interrupt
    controllers, timer, network, file systems, and the first process, read from
    the disk, loaded and scheduled.  The state it leaves satisfies the invariant
    of Safety.v, so every state that can follow does. *)

From S2P Require Import Prelude Abi RingBuffer Pipe FdTable Process Scheduler Path Perm TmpFs Bytes Block Utf8 UserMem.
From S2P Require Import FrameAlloc Memory Heap Paging Elf Spaces Build ExecStack Ps2 Tty DiskFs MkDiskImg Fat32 Mount Vfs Packets Net VirtioPci.
From S2P Require Import Kernel Dispatch Steps Safety Switch Platform.
Import Abi Block Bytes Spaces Kernel Dispatch Safety.

Module Boot.

(** ** The first address space *)

(** The address space that [Process::new] builds; the second argument is the
    active one. *)
Class FirstSpace (V : Type) : Type := {
  first_space : V -> Z -> Elf.ElfInfo -> list Z -> outcome (result Z string * V)
}.

#[export] Instance phys_first {A} `{Memory.FrameSource A} : FirstSpace (Paging.Phys A) := {
  first_space s cr3 info data := Build.new_space cr3 info data s
}.

#[export] Instance ideal_first : FirstSpace Ideal := { first_space i cr3 info data := sp_build i cr3 info data }.

(** [expect]. *)
Definition expect {T E} (r : result T E) : outcome T := match r with Ok v => Done v | Err _ => Panicked end.

Section Boot.
Context {D : Type} {BD : BlockDevice D}.
Context (to_lowercase : string -> string).
Context {V : Type} {SP : Spaces V} {FV : FirstSpace V}.
Context {C : Type} {PC : Platform.Ports C}.
Context (selectors : Platform.Segments.Selectors).

Notation Kernel := (Kernel.Kernel (D := D) (V := V) (N := Net.VirtioNet)).

(** ** Devices *)

Definition PS2_DATA_PORT : Z := 0x60.
Definition PS2_STATUS_PORT : Z := 0x64.

(** [ps2::init]. *)
Definition ps2_init (c : C) : outcome C :=
  let c := Platform.outb PS2_STATUS_PORT 0xAD c in
  let c := Platform.Pic.io_wait c in
  let (_, c) := Platform.inb PS2_DATA_PORT c in
  let c := Platform.outb PS2_STATUS_PORT 0xAE c in
  let c := Platform.Pic.io_wait c in
  Platform.Pic.unmask_irq 1 c.

(** ** Files *)

(** [init_mount_table], [mount_tmpfs_at_tmp] and [mount_disk_at_mnt]; a file
    system that cannot be mounted is left out. *)
Definition mount_all (disk : D) : outcome (Vfs.Vfs D) :=
  let (_, table) := Mount.mount_tmpfs Mount.new "/tmp" in
  let! (_, table) := Mount.mount_disk table disk "/mnt" in
  Done (Vfs.mkVfs (Some table) (Some TmpFs.new) ∅ ∅ ∅ ∅).

(** The program that [init_scheduler_and_start] loads. *)
Definition init_path (v : Vfs.Vfs D) : outcome string :=
  let! r := Vfs.stat_path to_lowercase v "/mnt/bin/init" in
  match r with
  | Ok _ => Done "/mnt/bin/init"
  | Err _ =>
      let! r := Vfs.stat_path to_lowercase v "/init" in
      match r with Ok _ => Done "/init" | Err _ => Panicked end
  end.

Definition init_data (v : Vfs.Vfs D) : outcome (list Z) :=
  let! path := init_path v in
  let! r := Vfs.read_file_to_vec to_lowercase v path in
  expect r.

(** ** The first process *)

Definition default_environ : gmap string string :=
  <["HOME" := "/root"]> (<["USER" := "root"]> (<["PATH" := "/mnt/bin:/bin"]> ∅)).

(** [Process::new], with the allocator of process ids. *)
Definition process_new (info : Elf.ElfInfo) (data : list Z) (next_pid cr3 : Z) (v : V) : outcome (result Process.Process string * V) :=
  let (pid, _) := Pid.allocate next_pid in
  let! (r, v) := first_space v cr3 info data in
  match r with
  | Err e => Done (Err e, v)
  | Ok page_table_phys =>
      let context := Process.new_user (Elf.entry_point info) USER_STACK_TOP (Platform.Segments.user_code selectors)
                       (Platform.Segments.user_data selectors) in
      let! heap_start := Elf.calculate_heap_start info in
      let! heap := Process.HeapInfo_new heap_start in
      Done (Ok (Process.mkProcess pid pid None Process.Ready Process.NotWaiting 0 0 (Elf.entry_point info) USER_STACK_TOP
                  Paging.KERNEL_STACK_TOP page_table_phys context FdTable.new 0 "/" "/mnt/bin:/bin" default_environ heap []
                  0x7FFF00000000 []), v)
  end.

(** The static variables of the kernel before the scheduler runs. *)
Definition initial_kernel (s : Scheduler.Scheduler) (files : Vfs.Vfs D) (v : V) (cr3 : Z) (n : Net.Net) : Kernel :=
  mkKernel s PipePool.new files v cr3
    (mkConsole Tty.new (RingBuffer.new Ps2.SCANCODE_BUFFER_SIZE) Ps2.new_keyboard [] []) 2 false 0 0 (0, 0) 0 n None.

(** [start_first_process], up to the entry to user mode, whose page table
    becomes the active one. *)
Definition start_first_process (k : Kernel) : outcome Kernel :=
  let (next, s) := Scheduler.schedule_next (sched k) in
  match next with
  | None => Panicked
  | Some first_process =>
      let s := Scheduler.update_current s
                 (Switch.init_context_for_first_run (Platform.Segments.user_code selectors) (Platform.Segments.user_data selectors)) in
      Done (with_cr3 (with_sched k s) (Process.page_table_phys first_process))
  end.

(** [init_scheduler_and_start]. *)
Definition init_scheduler_and_start (files : Vfs.Vfs D) (v : V) (cr3 : Z) (n : Net.Net) (board : C) : outcome (Kernel * C) :=
  let! data := init_data files in
  let! r := Elf.parse_elf data in
  let! info := expect r in
  let! (r, v) := process_new info data 1 cr3 v in
  let! init_process := expect r in
  let! s := Scheduler.add_process Scheduler.new init_process in
  let board := Platform.Pic.init board in
  let! board := Platform.Pit.init 100 board in
  let! board := Platform.Pic.unmask_irq 0 board in
  let! k := start_first_process (initial_kernel s files v cr3 n) in
  Done (k, board).

End Boot.

(** ** The whole boot *)

#[local] Existing Instances Memory.global_source Net.virtio.

Section Start.
Context {D : Type} {BD : BlockDevice D}.
Context (to_lowercase : string -> string).
Context {C : Type} {PC : Platform.Ports C} {B : Type} {PB : VirtioPci.Ports B} {CR : Platform.Segments.Crate}.

Notation Phys := (Paging.Phys Memory.Global).

(** [init_higher_half_mapping]: the frame of the active table is reserved. *)
Definition init_higher_half_mapping (cr3 : Z) (g : Memory.Global) : outcome Memory.Global :=
  let f := Z.to_nat (cr3 / 4096) in Memory.reserve_frames g f (f + 1) FrameAllocator.PageTables.

(** What the boot loader leaves and the devices. *)
Record Hardware : Type := mkHardware {
  boot_info : Memory.BootInfo; physical_memory : gmap Z Z; disk : D; board : C; bus : B; msrs : Platform.Segments.Msrs
}.

Record Running : Type := mkRunning {
  kernel : Kernel.Kernel (D := D) (V := Phys) (N := Net.VirtioNet);
  heap : Heap.heap_state; running_board : C; running_bus : B; running_msrs : Platform.Segments.Msrs;
  log : Platform.BootLog.BootLog
}.

(** [_start]. The static arrays of the allocator are [bitmap] and [refcounts],
    [offset] is where physical memory is mapped and [entry] the address of
    [syscall_entry]. *)
Definition _start (bitmap refcounts : list Z) (offset entry : Z) (hw : Hardware) : outcome Running :=
  let step n l := Platform.BootLog.record_boot_step n l in
  let! l := step 1 Platform.BootLog.initial in
  let! l := step 2 l in
  let! fa := Memory.init_from_bootloader (boot_info hw) bitmap refcounts in
  let! l := step 3 l in
  let cr3 := Memory.boot_cr3 (boot_info hw) in
  let! g := init_higher_half_mapping cr3 (Some fa) in
  let! l := step 4 l in
  let selectors := Platform.Segments.gdt_init in
  let! l := step 5 l in
  let! l := step 6 l in
  let! board := ps2_init (board hw) in
  let! l := step 12 l in
  let! l := step 7 l in
  let msrs := Platform.Segments.init_syscall entry selectors (msrs hw) in
  let! l := step 8 l in
  let! (heap, g) := Heap.boot offset g in
  let! l := step 9 l in
  let! (_, net, bus) := VirtioPci.net_init (Net.mkNet None ∅ ∅ 49152 (Net.mkVirtio None)) (bus hw) in
  let! l := step 10 l in
  let! files := mount_all (disk hw) in
  let! l := step 11 l in
  let! l := step 13 l in
  let! (k, board) := init_scheduler_and_start to_lowercase selectors files (Paging.mkPhys (physical_memory hw) g []) cr3 net board in
  Done (mkRunning k heap board bus msrs l).

End Start.

(** ** What a boot leaves *)

(** The ports of the keyboard controller are not those of the other chips. *)
Class Keyboard (C : Type) {PC : Platform.Ports C} {BC : Platform.Board C} : Prop := {
  keyboard_write : forall v c, Platform.chips (Platform.outb PS2_STATUS_PORT v c) = Platform.chips c;
  keyboard_read : forall c, Platform.chips (snd (Platform.inb PS2_DATA_PORT c)) = Platform.chips c
}.

Section Facts.
Context {D : Type} {BD : BlockDevice D}.
Context (to_lowercase : string -> string).
Context {V : Type} {SP : Spaces V} {FV : FirstSpace V}.
Context {C : Type} {PC : Platform.Ports C}.
Context (selectors : Platform.Segments.Selectors).

Notation Kernel := (Kernel.Kernel (D := D) (V := V) (N := Net.VirtioNet)).
Notation new_context info := (Process.new_user (Elf.entry_point info) USER_STACK_TOP (Platform.Segments.user_code selectors)
                                (Platform.Segments.user_data selectors)).

(** The first program runs: alone, as process 1 of the superuser, from its
    entry point. *)
Record runs_init (k : Kernel) (info : Elf.ElfInfo) (p : Process.Process) : Prop := {
  ri_current : Scheduler.current (sched k) = Some p;
  ri_queue : Scheduler.ready_queue (sched k) = [];
  ri_pid : Process.pid p = 1;
  ri_parent : Process.parent_pid p = None;
  ri_user : Process.uid p = 0;
  ri_state : Process.state p = Process.Running;
  ri_context : Process.context p = new_context info;
  ri_table : cr3 k = Process.page_table_phys p;
  ri_files : Process.fd_table p = FdTable.new
}.

Lemma process_new_spec info data pid cr3 v p v' :
  process_new selectors info data pid cr3 v = Done (Ok p, v') ->
  first_space v cr3 info data = Done (Ok (Process.page_table_phys p), v')
  /\ Process.pid p = pid /\ Process.parent_pid p = None /\ Process.uid p = 0 /\ Process.state p = Process.Ready
  /\ Process.entry_point p = Elf.entry_point info /\ Process.user_stack_ptr p = USER_STACK_TOP /\ Process.fd_table p = FdTable.new
  /\ Process.wait_state p = Process.NotWaiting.
Proof.
  unfold process_new. cbn [Pid.allocate]. destruct (first_space v cr3 info data) as [[[t|e] v1]|]; cbn [bind]; try discriminate.
  intros H. apply bind_Done in H as (hs & _ & H). apply bind_Done in H as (hp & _ & [= <- <-]). repeat split.
Qed.

Lemma start_first_process_spec (k : Kernel) p :
  sched k = Scheduler.mkSched [p] None None -> Process.state p = Process.Ready -> Process.wait_state p = Process.NotWaiting ->
  let s1 := snd (Scheduler.schedule_next (sched k)) in
  let f := Switch.init_context_for_first_run (Platform.Segments.user_code selectors) (Platform.Segments.user_data selectors) in
  start_first_process selectors k
    = Done (with_cr3 (with_sched k (Scheduler.update_current s1 f)) (Process.page_table_phys p))
  /\ s1 = Scheduler.mkSched [] (Some (Process.with_state p Process.Running)) None.
Proof.
  intros Es Hs Hw s1 f. assert (Scheduler.schedule_next (sched k) = (Some (Process.with_state p Process.Running),
    Scheduler.mkSched [] (Some (Process.with_state p Process.Running)) None)) as E.
  { rewrite Es. unfold Scheduler.schedule_next. cbn [Scheduler.requeue_current Scheduler.current Scheduler.ready_queue length Scheduler.pick].
    replace (Scheduler.skipped p) with false by (destruct p; cbn in Hs, Hw; subst; reflexivity). reflexivity. }
  unfold start_first_process, s1. rewrite E. split; reflexivity.
Qed.

(** The scheduler with the first process is one its operations reach. *)
Lemma first_schedule_reachable p f : Process.state p = Process.Ready -> Scheduler.keeps_state f ->
  Scheduler.reachable (Scheduler.update_current (snd (Scheduler.schedule_next (Scheduler.mkSched [p] None None))) f).
Proof.
  intros Hs Hf. eapply Scheduler.steps_trans; [|apply Scheduler.step_update, Hf].
  eapply Scheduler.steps_trans; [|apply Scheduler.step_schedule].
  eapply Scheduler.steps_trans; [apply Scheduler.steps_refl|]. apply (Scheduler.step_add _ p).
  unfold Scheduler.add_process. rewrite bool_decide_eq_true_2 by exact Hs. cbn. destruct p; cbn in Hs; subst; reflexivity.
Qed.

(** What [init_scheduler_and_start] does when it does not panic. *)
Lemma init_scheduler_and_start_spec files v t n (b : C) (k : Kernel) b' :
  Vfs.dynamic_files files = ∅ -> (forall fs, Vfs.tmpfs files = Some fs -> TmpFs.reachable fs) ->
  init_scheduler_and_start to_lowercase selectors files v t n b = Done (k, b') ->
  kernel_ok k /\ vfs k = files /\ network k = n
  /\ (exists data info p v', init_data to_lowercase files = Done data /\ Elf.parse_elf data = Done (Ok info)
        /\ first_space v t info data = Done (Ok (Process.page_table_phys p), v') /\ vm k = v' /\ runs_init k info p)
  /\ exists b1, Platform.Pit.init 100 (Platform.Pic.init b) = Done b1 /\ Platform.Pic.unmask_irq 0 b1 = Done b'.
Proof.
  intros Hd Ht H. unfold init_scheduler_and_start in H.
  apply bind_Done in H as (data & Ed & H). apply bind_Done in H as (r & Ep & H). apply bind_Done in H as (info & Ei & H).
  destruct r as [info'|]; [|discriminate Ei]. injection Ei as ->. apply bind_Done in H as ([r v'] & En & H).
  apply bind_Done in H as (p & Er & H). destruct r as [p'|]; [|discriminate Er]. injection Er as ->.
  destruct (process_new_spec _ _ _ _ _ _ _ En) as (Ef & Hpid & Hpar & Hu & Hs & He & Hsp & Hfd & Hw).
  apply bind_Done in H as (s & Ea & H). apply bind_Done in H as (b1 & E1 & H). apply bind_Done in H as (b2 & E2 & H).
  apply bind_Done in H as (k0 & Ek & [= <- <-]).
  assert (s = Scheduler.mkSched [p] None None) as ->.
  { unfold Scheduler.add_process in Ea. rewrite bool_decide_eq_true_2 in Ea by exact Hs. injection Ea as <-. destruct p; cbn in Hs; subst; reflexivity. }
  destruct (start_first_process_spec (initial_kernel (Scheduler.mkSched [p] None None) files v' t n) p eq_refl Hs Hw) as [Es S1].
  rewrite Es in Ek. cbn [sched initial_kernel] in Ek, S1. injection Ek as <-. split; [|split; [reflexivity|split; [reflexivity|split; [|now exists b1]]]].
  - constructor; cbn [sched with_cr3 with_sched].
    + apply first_schedule_reachable; [exact Hs|]. intros q. now split.
    + rewrite S1. constructor; [|constructor]. split; [cbn; now rewrite Hfd|left; exact Hu].
    + apply PipePool.pool_inv_new.
    + exact Ht.
    + intros q i Hq. cbn in Hq. rewrite Hd in Hq. discriminate Hq.
    + constructor; cbn; [constructor|lia|constructor].
  - eexists data, info, _, v'. split; [exact Ed|]. split; [exact Ep|]. split; [|split; [reflexivity|constructor; cbn [sched with_cr3 with_sched]; rewrite ?S1; try reflexivity]].
    all: try assumption.
    cbn. now rewrite He, Hsp.
Qed.

End Facts.

(** ** The devices after a boot *)

Section Devices.
Context {C : Type} {PC : Platform.Ports C} {BC : Platform.Board C} {KC : Keyboard C}.

Lemma chips_operating (c c' : C) : Platform.chips c' = Platform.chips c -> Platform.operating c -> Platform.operating c'.
Proof. unfold Platform.operating. now intros ->. Qed.

Lemma io_wait_chips (c : C) : Platform.chips (Platform.Pic.io_wait c) = Platform.chips c.
Proof. unfold Platform.Pic.io_wait. rewrite Platform.chips_write; [now destruct (Platform.chips c)|set_solver|lia]. Qed.

Lemma ps2_init_spec (c : C) : Platform.operating c -> exists c', ps2_init c = Done c' /\ Platform.operating c'
  /\ forall j, 0 <= j < 16 -> Platform.unmasked (Platform.chips c') j = (j =? 1) || Platform.unmasked (Platform.chips c) j.
Proof.
  intros Hop. unfold ps2_init.
  pose proof (keyboard_read (Platform.Pic.io_wait (Platform.outb PS2_STATUS_PORT 0xAD c))) as Hr.
  destruct (Platform.inb PS2_DATA_PORT _) as [b c1]. cbn [snd] in Hr.
  assert (Platform.chips (Platform.Pic.io_wait (Platform.outb PS2_STATUS_PORT 0xAE c1)) = Platform.chips c) as E
    by now rewrite io_wait_chips, keyboard_write, Hr, io_wait_chips, keyboard_write.
  destruct (Platform.line_switched _ 1 (chips_operating _ _ E Hop)) as [(c2 & E2 & O2 & _ & H2) _]; [lia|].
  exists c2. split; [exact E2|]. split; [exact O2|]. intros j Hj. destruct (H2 j Hj) as [_ ->]. now rewrite E.
Qed.

(** The interrupt lines and the timer as the first program finds them: line
    [j] interrupts with vector 32 + [j]; the timer and the keyboard are enabled,
    besides what was; and the timer ticks at 100 Hz, rounded up. *)
Definition devices_ready (before after : C) : Prop :=
  (forall j, 0 <= j < 16 -> Platform.vector (Platform.chips after) j = 32 + j
     /\ Platform.enabled (Platform.chips after) j = (j =? 0) || ((j =? 1) || Platform.enabled (Platform.chips before) j))
  /\ Platform.divisor (Platform.timer (Platform.chips after)) = 11931.

Lemma devices_start (c c1 c2 c3 : C) : Platform.operating c -> ps2_init c = Done c1 ->
  Platform.Pit.init 100 (Platform.Pic.init c1) = Done c2 -> Platform.Pic.unmask_irq 0 c2 = Done c3 -> devices_ready c c3.
Proof.
  intros Hop E1 E2 E3. destruct (ps2_init_spec c Hop) as (c1' & E1' & O1 & H1). rewrite E1 in E1'. injection E1' as <-.
  destruct (Platform.init_lines c1 O1) as [Oi Hi]. destruct (Platform.timer_rate (Platform.Pic.init c1) 100) as [Ht _]; [lia|].
  destruct Ht as (c2' & d & E2' & Ec & Hd & Hr); [vm_compute; split; discriminate|]. rewrite E2 in E2'. injection E2' as <-.
  assert (Platform.operating c2) as O2 by (unfold Platform.operating; now rewrite Ec).
  destruct (Platform.line_switched c2 0 O2) as [(c3' & E3' & O3 & T3 & H3) _]; [lia|]. rewrite E3 in E3'. injection E3' as <-. split.
  - intros j Hj. split.
    + destruct (H3 j Hj) as [-> _]. destruct (Hi j Hj) as [Hv _]. unfold Platform.vector in *. now rewrite Ec.
    + rewrite (Platform.master_enabled (Platform.chips c1) _ 0); [f_equal; now apply (Platform.master_enabled _ _ 1)|lia|lia| |exact Hj].
      intros i Hi'. destruct (H3 i Hi') as [_ ->]. destruct (Hi i Hi') as [_ <-]. unfold Platform.unmasked. now rewrite Ec.
  - rewrite T3, Ec. cbn. unfold Platform.Pit.PIT_BASE_FREQUENCY in Hr. lia.
Qed.

End Devices.

(** ** The program in memory *)

(** The segments of a program are in the memory of an address space: every
    byte is mapped with the permissions of its segment, and is the byte of the
    file, or zero beyond its end. *)
Definition in_memory {A} `{Memory.FrameSource A} (s : Paging.Phys A) (root : Z) (data : list Z) (info : Elf.ElfInfo) : Prop :=
  forall seg va, seg ∈ Elf.load_segments info -> Elf.vaddr seg <= va < Elf.vaddr seg + Elf.mem_size seg ->
  exists e f, Paging.pte (Paging.mem s) root va = Some e /\ Paging.addr e = Paging.frame_addr f /\ Elf.permits e seg
    /\ Elf.frame_bytes (Paging.mem s) (Paging.frame_addr f) !! Z.to_nat (va mod 4096) = Some (Elf.segment_byte data seg va).

(** What the boot loader provides: physical addresses have at most 52 bits, and
    the tables that map the kernel stack are in frames that are not handed out. *)
Record loader_memory (boot_info : Memory.BootInfo) (memory : gmap Z Z) (fa : FrameAllocator.FrameAllocator) : Prop := {
  lm_size : Z.of_nat (FrameAllocator.avail_end fa) <= 2 ^ 40;
  lm_cr3 : Paging.aligned (Memory.boot_cr3 boot_info);
  lm_tables : forall t, Build.kernel_table memory (Memory.boot_cr3 boot_info) t -> FrameAllocator.free fa (Paging.addr_frame t) = false
}.

(** A program whose segments lie in the lower half and share no page. *)
Definition loadable (data : list Z) (info : Elf.ElfInfo) : Prop :=
  bytes_ok data /\ Forall (Elf.user_segment data) (Elf.load_segments info)
  /\ NoDup (Elf.page_numbers (Elf.all_pages data (Elf.load_segments info))).

(** The frames when the first address space is built. *)
Lemma boot_frames boot_info memory bitmap refcounts fa offset g hp g2 :
  Memory.init_from_bootloader boot_info bitmap refcounts = Done fa -> loader_memory boot_info memory fa ->
  init_higher_half_mapping (Memory.boot_cr3 boot_info) (Some fa) = Done g -> Heap.boot offset g = Done (hp, g2) ->
  Memory.global_ok g2 /\ Memory.global_free g2 (Paging.addr_frame (Memory.boot_cr3 boot_info)) = false
  /\ forall t, Build.kernel_table memory (Memory.boot_cr3 boot_info) t -> Memory.global_free g2 (Paging.addr_frame t) = false.
Proof.
  intros Hi [Hs Hc Ht] Hg Hh. destruct (Memory.convert_map (Memory.memory_map boot_info) Memory.map_new) as [m|] eqn:Em;
    [|unfold Memory.init_from_bootloader in Hi; rewrite Em in Hi; discriminate Hi].
  destruct (Memory.init_spec _ _ _ _ _ Em Hi) as (Hinv & [Hr H0] & _ & F).
  assert (Memory.global_ok (Some fa)) as Hok by now exists fa.
  destruct (Memory.global_reserve _ _ _ _ _ Hok Hg) as [Hokg Mg]. destruct (Heap.heap_boot_ok _ _ _ _ Hokg Hh) as [Hok2 M2].
  split; [exact Hok2|]. split; [|intros t Hk; apply M2, Mg, (Ht t Hk)]. apply M2, Mg. cbn. rewrite F.
  unfold Memory.frame_of, Paging.addr_frame. rewrite Nat.eqb_refl, !orb_true_r. apply andb_false_r.
Qed.

(** Nothing is built in under the name /init, so the program is the disk's. *)
Lemma init_from_disk {D} `{BlockDevice D} to_lowercase (disk : D) files data :
  mount_all disk = Done files -> init_data to_lowercase files = Done data ->
  Vfs.read_file_to_vec to_lowercase files "/mnt/bin/init" = Done (Ok data).
Proof.
  intros Hm. unfold init_data, init_path. intros (path & Hp & Hd)%bind_Done.
  assert (path = "/mnt/bin/init") as ->.
  { apply bind_Done in Hp as (r & _ & Hp). destruct r; [now injection Hp as <-|]. apply bind_Done in Hp as (r & Hr & Hp).
    destruct r; [|discriminate Hp]. exfalso. unfold mount_all in Hm. cbn [Mount.mount_tmpfs] in Hm.
    apply bind_Done in Hm as ([? tb] & Htb & [= <-]). unfold Mount.mount_disk in Htb. apply bind_Done in Htb as (rd & _ & Htb).
    destruct rd; injection Htb as _ <-; vm_compute in Hr; discriminate Hr. }
  apply bind_Done in Hd as (r & -> & Hd). destruct r; [|discriminate Hd]. now injection Hd as ->.
Qed.

(** ** The boot theorem *)

Section Booted.
Context {D : Type} {BD : BlockDevice D}.
Context (to_lowercase : string -> string).
Context {C : Type} {PC : Platform.Ports C} {BC : Platform.Board C} {KC : Keyboard C}.
Context {B : Type} {PB : VirtioPci.Ports B} {CR : Platform.Segments.Crate} {DC : Platform.Sysret.Documented}.

(** C5: A boot that does not panic. The kernel then runs the program /bin/init of the
    disk, parsed as an ELF file and started at its entry point as process 1, the
    only process, of the superuser. It is loaded: if its segments
    lie in the lower half and share no page, and the frame allocator does not hand
    out the tables that the boot loader made for the upper half, every byte of
    every segment is in the active address space, with the permissions of the
    segment. The interrupt lines are those that the handlers are registered
    for, with the timer and the keyboard enabled and the timer at 100 Hz. A
    system call enters at [syscall_entry] with interrupts off; the segments of its
    return are not set, as the register STAR is left as it was. And the
    invariant of the kernel holds then and in every state that system calls,
    interrupts and input can lead to. *)
Theorem kernel_boots bitmap refcounts offset entry (hw : Hardware (D := D) (C := C) (B := B)) r
    (selectors := Platform.Segments.gdt_init) :
  Platform.operating (board hw) -> _start to_lowercase bitmap refcounts offset entry hw = Done r ->
  (exists data info p, Vfs.read_file_to_vec to_lowercase (vfs (kernel r)) "/mnt/bin/init" = Done (Ok data)
     /\ Elf.parse_elf data = Done (Ok info) /\ runs_init selectors (kernel r) info p
     /\ ((forall fa, Memory.init_from_bootloader (boot_info hw) bitmap refcounts = Done fa ->
             loader_memory (boot_info hw) (physical_memory hw) fa) ->
         loadable data info -> in_memory (vm (kernel r)) (cr3 (kernel r)) data info))
  /\ devices_ready (board hw) (running_board r)
  /\ Platform.Segments.lstar (running_msrs r) = entry /\ Platform.Segments.sfmask (running_msrs r) = Platform.Segments.INTERRUPT_FLAG
  /\ Platform.Segments.star (running_msrs r) = Platform.Segments.star (msrs hw)
  /\ forall k', rtc (mstep to_lowercase (Platform.Segments.user_code selectors) (Platform.Segments.user_data selectors)) (kernel r) k' ->
       kernel_ok k'.
Proof.
  intros Hop H. unfold _start in H. fold selectors in H.
  do 2 (apply bind_Done in H as (? & _ & H)). apply bind_Done in H as (fa & Efa & H). apply bind_Done in H as (? & _ & H).
  apply bind_Done in H as (g & Eg & H). do 3 (apply bind_Done in H as (? & _ & H)). apply bind_Done in H as (b1 & Eb & H).
  do 3 (apply bind_Done in H as (? & _ & H)). apply bind_Done in H as ([hp g2] & Eh & H). apply bind_Done in H as (? & _ & H).
  apply bind_Done in H as ([[nr n] bs] & _ & H). apply bind_Done in H as (? & _ & H). apply bind_Done in H as (files & Ef & H).
  do 2 (apply bind_Done in H as (? & _ & H)). apply bind_Done in H as ([k b2] & Ei & [= <-]). cbn [kernel running_board running_msrs].
  assert (Vfs.dynamic_files files = ∅ /\ forall fs, Vfs.tmpfs files = Some fs -> TmpFs.reachable fs) as [Hd Ht].
  { unfold mount_all in Ef. cbn [Mount.mount_tmpfs] in Ef. apply bind_Done in Ef as ([? ?] & _ & [= <-]). split; [reflexivity|]. intros fs [= <-]. constructor. }
  destruct (init_scheduler_and_start_spec _ _ _ _ _ _ _ _ _ Hd Ht Ei) as (Hk & Hv & _ & (data & info & p & v' & Ed & Ep & Efs & Evm & Hr) & b3 & E1 & E2).
  split; [|split; [now apply (devices_start _ b1 b3)|split; [|split; [|split]]]].
  - exists data, info, p. rewrite Hv. split; [now apply (init_from_disk _ (disk hw))|]. split; [exact Ep|]. split; [exact Hr|].
    intros Hlm (Hby & Hus & Hnd). specialize (Hlm fa Efa). destruct (boot_frames _ _ _ _ _ _ _ _ _ Efa Hlm Eg Eh) as (Hok & Hc & Hkt).
    rewrite (ri_table _ _ _ _ Hr), Evm. intros seg va. apply Elf.pages_in_memory; [exact Hus|].
    eapply (Build.new_space_loaded (Paging.mkPhys (physical_memory hw) g2 [])); try eassumption. apply Hlm.
  - unfold Platform.Segments.init_syscall. now destruct (Platform.Segments.star_write _ _ _ _ _).
  - unfold Platform.Segments.init_syscall. now destruct (Platform.Segments.star_write _ _ _ _ _).
  - apply Platform.Sysret.star_is_not_written.
  - intros k' Hs. clear - Hk Hs. induction Hs as [|k1 k2 k3 Hm _ IH]; [exact Hk|]. apply IH. eapply mstep_ok; eassumption.
Qed.

End Booted.

(** ** A boot *)

(** A disk with the program of Elf.v as /bin/init, the chips as the firmware
    leaves them, the card of VirtioPci.v, and memory that the boot loader
    cleared. *)
#[local] Existing Instances Platform.Sysret.crate Platform.Sysret.crate_documented VirtioPci.demo_ports.

#[local] Instance chips_keyboard : Keyboard Platform.Chips.
Proof. split; reflexivity. Qed.

Definition demo_disk : list (list Z) :=
  match MkDiskImg.build 5 [MkDiskImg.AFile (Elf.demo_elf 0x400000); MkDiskImg.ADir [DiskFs.mkDirEntry 0 "init"];
                          MkDiskImg.ADir [DiskFs.mkDirEntry 1 "bin"]] 2 with
  | Done d => d
  | Panicked => []
  end.

Definition demo_hardware : Hardware (D := list (list Z)) (C := Platform.Chips) (B := VirtioPci.demo) :=
  mkHardware Memory.demo_boot ∅ demo_disk Platform.firmware (VirtioPci.mkDemo 0 (VirtioPci.mkCard [] None [2; 0; 0; 0; 0; 7]))
    (Platform.Segments.mkMsrs 0 0 0 false).

#[local] Notation booted := (_start Vfs.lower (replicate 25 0) (replicate 199 0) 0xFFFF800000000000 0x8000 demo_hardware).

Lemma boot_evaluates : match booted with Done r => option_map Process.context (Scheduler.current (sched (kernel r))) | Panicked => None end
  = Some (Process.new_user 0x400078 USER_STACK_TOP 0x1b 0x23).
Proof. vm_compute. reflexivity. Qed.

Lemma boot_reads : match booted with Done r => Vfs.read_file_to_vec Vfs.lower (vfs (kernel r)) "/mnt/bin/init" | Panicked => Panicked end
  = Done (Ok (Elf.demo_elf 0x400000)).
Proof. vm_compute. reflexivity. Qed.

Lemma demo_loadable : loadable (Elf.demo_elf 0x400000) (Elf.mkInfo 0x400078 [Elf.demo_segment] 0x400040 1).
Proof.
  split; [apply Elf.demo_elf_ok|]. split; [constructor; [|constructor]; vm_compute; intuition discriminate|].
  refine (bool_decide_unpack _ _). vm_compute. exact I.
Qed.

Lemma demo_loader_memory fa : Memory.init_from_bootloader Memory.demo_boot (replicate 25 0) (replicate 199 0) = Done fa ->
  loader_memory Memory.demo_boot ∅ fa.
Proof.
  intros E. destruct (Memory.init_spec Memory.demo_boot _ _ fa _ eq_refl E) as (_ & _ & He & _). constructor.
  - rewrite He. vm_compute. discriminate.
  - vm_compute. intuition discriminate.
  - intros t ([|n] & Hn & Ht); [lia|]. discriminate Ht.
Qed.

Lemma kernel_boots_witness : exists r p e, booted = Done r /\ Scheduler.current (sched (kernel r)) = Some p
  /\ Process.pid p = 1 /\ Process.ctx_rip (Process.context p) = 0x400078 /\ devices_ready Platform.firmware (running_board r) /\ kernel_ok (kernel r)
  /\ Paging.pte (Paging.mem (vm (kernel r))) (cr3 (kernel r)) 0x400078 = Some e /\ Elf.permits e Elf.demo_segment.
Proof.
  pose proof boot_evaluates as Hc. pose proof boot_reads as Hb. destruct booted as [r|] eqn:E; [|discriminate Hc].
  destruct (kernel_boots Vfs.lower (replicate 25 0) (replicate 199 0) 0xFFFF800000000000 0x8000 demo_hardware r)
    as ((data & info & p & Ed & Ep & Hr & Hm) & Hd & _ & _ & _ & Hi); [vm_compute; intuition discriminate|exact E|].
  rewrite Hb in Ed. injection Ed as <-. assert (info = Elf.mkInfo 0x400078 [Elf.demo_segment] 0x400040 1) as -> by (vm_compute in Ep; injection Ep as <-; reflexivity).
  destruct (Hm demo_loader_memory demo_loadable Elf.demo_segment 0x400078) as (e & f & He & _ & Hpe & _);
    [apply list_elem_of_here|vm_compute; intuition discriminate|].
  exists r, p, e. split; [reflexivity|]. split; [apply Hr|]. split; [apply Hr|]. split; [|split; [exact Hd|split; [apply Hi, rtc_refl|now split]]].
  rewrite (ri_current _ _ _ _ Hr) in Hc. injection Hc as ->. reflexivity.
Defined.

End Boot.
